(* ===== verification/_CoqProject ===== *)
-Q . S2P
Prelude.v
GoLib.v
Model.v
Network.v
SetupKey.v
UpdateChannel.v
FileStore.v
Account.v
Groups.v
Slices.v
Peers.v
Manager.v
Migration.v
Turn.v
Encryption.v
Jwt.v
GrpcServer.v
Http.v
JwtMiddleware.v
HttpApi.v
Auth0.v
Signal.v
Util.v
SignalClient.v
MgmClient.v
SystemInfo.v
Dial.v
Mocks.v
ClientModel.v
WgIface.v
Device.v
Pump.v
PeerConn.v
Engine.v
EndToEnd.v
OAuth.v
DaemonModel.v
ClientConfig.v
ClientLogin.v
Daemon.v
DaemonInv.v
Joining.v
Commands.v
CliDaemon.v
Ui.v
Files.v
JsonFile.v
Tray.v
Service.v
StoreJson.v
Rebrand.v
Boot.v
Stopping.v
