(* ===== verification/Prelude.v ===== *)
(** * Prelude: the Go fragment the development is written in

    This library models the repository's overlay network (Wiretrustee, later
    NetBird) from its services to its machines: the management service, which
    knows which machines (peers) belong to which account, gives them addresses,
    decides by groups and rules which peers see each other, and keeps each
    connected peer up to date; the signal exchange, over which peers negotiate
    connections; and the client, whose daemon logs a machine in and whose
    engine turns network maps into WireGuard tunnels.

    ** The program and the files that model it

    A peer logs in over gRPC with its WireGuard key and a setup key or a user
    token; it then keeps a stream open on which it receives network maps.
    Users administer their account over HTTP with tokens of an identity
    provider.  Both sides call one account manager, which keeps its state in a
    store of accounts that is written to a file after every change, and tells
    connected peers of changes through one channel per peer.  On a machine, the
    daemon serves the command line and the user interface; it runs the client,
    which logs in, connects to the signal exchange and starts an engine; the
    engine keeps one connection per peer of its map, each with a goroutine that
    negotiates it over the signal exchange.

    The language and what is shared:

    - [Prelude] (this file): errors, outcomes of a call ([Res]: value, error,
      panic, blocked), the state monad [M], loops, and its weakest
      preconditions [wp], with the tactics [wp_step] and [wp_go].
    - [GoLib]: machine integers, strings, FNV, IP addresses.
    - [Util]: util/retry.go, util/common.go.
    - [Encryption]: encryption/encryption.go and message.go.

    The management service (management/server):

    - [Model]: its structs, the protobuf messages, the state [World] of a call
      and the class [Runtime] of what the process does not decide: clock,
      identifiers, random numbers, the order of a map iteration, the outcome of
      file operations, the identity provider.
    - [Network]: network.go: addresses and their allocation, the serial.
    - [SetupKey]: setupkey.go, and the life of a key as a step relation.
    - [UpdateChannel]: updatechannel.go, and its specification as a map from
      peers to bounded queues.
    - [FileStore]: file_store.go: accounts, their indexes, saving, deleting a
      peer, restoring after a restart; the file is replaced or left as it is.
    - [Account]: account.go and user.go: accounts, users, setup keys of an
      account, login by claims.
    - [Groups]: group.go and rule.go.
    - [Slices]: the members of groups as Go has them: slices of arrays that
      groups may share, with their capacities and [append].
    - [Peers]: peer.go: registration, status, removal, the network map.
    - [Manager]: one invariant of the account manager over all its operations
      and restarts, as a transition system.
    - [Migration]: migration/convert_accounts.go.
    - [Turn]: turncredentials.go and config.go: credentials of TURN servers
      and their refresh.
    - [Jwt]: jwtclaims and the token part of http/middleware.
    - [GrpcServer]: grpcserver.go: login, registration, the sync stream.
    - [Http]: requests, responses, JSON decoding, the middlewares.
    - [JwtMiddleware]: http/middleware/jwtmiddleware.go with all its options,
      of which [Http] has what the servers use.
    - [HttpApi]: http/handler and http/server.go: all handlers and the routes
      behind the middlewares.
    - [Auth0]: idp: the client of the identity provider, its token, and the
      users of an account, page by page.

    The signal exchange, and the clients of the two services:

    - [Signal]: signal/server and signal/peer: registration, streams, relaying.
    - [SignalClient]: signal/client: sending, receiving, the wait for the
      stream, credentials of a session.
    - [MgmClient]: management/client: login, registration, the stream of
      updates and its retries, against the server of [GrpcServer].
    - [SystemInfo]: client/system: what a machine says of itself, on each
      system.
    - [Dial]: how connections to the services and the daemon are made, and the
      policies of all retries.
    - [Mocks]: the interface of the account manager, and the mocks of the
      services and their clients.

    The client (client/internal, iface):

    - [ClientModel]: its structs, the state [CWorld] of an engine, the classes
      of ICE, wgctrl and the network.
    - [WgIface]: iface: the configuration of the WireGuard device.
    - [Device]: iface: creating, finding and removing the device on each system.
    - [Pump]: proxy/wireguard.go and dummy.go: the goroutines that move packets
      between WireGuard and a peer.
    - [PeerConn]: peer/conn.go and proxy: one connection: offers, answers,
      candidates, the phases of [Open], cleaning up.
    - [Engine]: engine.go: network maps, peers, messages; its goroutines as
      steps of a relation, and the client it implements ([view]).
    - [EndToEnd]: server and engine together: what the rules of an account say
      reaches the engines of its peers.
    - [OAuth]: oauth.go: the device authorization flow.
    - [DaemonModel]: the state [DWorld] of the daemon's process, whose type
      parameter is the state of what is outside: the services, the system.
    - [ClientConfig], [ClientLogin]: config.go, state.go, login.go, connect.go.
    - [Daemon]: client/server/server.go: its calls, and the system of calls and
      goroutines as a step relation.
    - [DaemonInv]: the invariant of that system and what follows from it.
    - [Joining]: the client's login against the management service.
    - [Commands]: client/cmd: login, up, down and status against the daemon,
      an interface here, and the login without a daemon.
    - [CliDaemon]: those commands against the model of the daemon, which takes
      steps of its own between their calls.
    - [Ui]: client/ui/client_ui.go: the menu and the settings.
    - [Tray]: the same file: the process, its pid file, the loop over clicks.
    - [Service]: client/cmd/service*.go and util/log.go: the program the manager
      of services runs, its control and its installer.

    The commands and the machine they run on:

    - [Files]: the parts of client/cmd/root.go, management/cmd/management.go
      and signal/cmd/run.go that carry over the files of the product's former
      name, over a file system of paths, with links and failing calls.
    - [JsonFile]: util/file.go over that file system, call by call, with a
      process that may be killed at any of them.
    - [StoreJson]: the JSON of the accounts, and the file of the store written
      and read with it: what [FileStore] takes as one step.
    - [Rebrand]: what carrying over a directory changes, and that it brings the
      store to where the service looks for it.
    - [Boot]: management/cmd: the management service from its flags, the files
      of the former name and the store's file to the goroutines that serve; NewServer, the HTTP server, certificates; the
      signal server's command.
    - [Stopping]: how these processes and the client end: signals, the
      goroutines of the servers, exit codes.

    Definitions have the names of the Go functions; a struct field [F] of [T]
    is the projection [T_F].  Where two Go methods have one name, one is
    prefixed ([Store_DeletePeer], [Client_Login], [Daemon_Login]).  A handler
    is modelled whole, in the order of its effects, so that an early return or
    a panic leaves the changes made before it.

    ** What the theorems show

    - From end to end: a login that succeeds has registered the machine
      ([Joining]); while the indexes of the store are those of its accounts, as
      after a restart, the peers an engine connects to are those the rules of
      the account connect it with, provided it is on both sides of rules, and
      none otherwise; of two peers that are, each connects to the other or
      neither does ([EndToEnd]).
    - The network map of a peer is the set of peers the rule indexes show it,
      which under the same two conditions is the set of peers its account's
      rules connect it with; a peer on one side of the rules only gets none,
      and a map never leaves the account ([Peers]); groups and rules take
      effect as they are edited ([Groups]).  The lists of members are what the
      slices hold while no two groups share an array; the removal of a peer
      makes them share one, and then they differ ([Slices]).
    - Registration gives a free address, uses one-off keys once, and its
      refusals change nothing ([Peers], [SetupKey], [Network]); login by
      claims leads to an account the user is a member of, but for claims that
      name an account and a domain that is not private, which lead to that
      account ([Account]); a token that is accepted is signed by a key of the
      issuer, and is for the audience and by the issuer unless it names none
      ([Jwt]).
    - The store finds everything it has saved, also after a restart, and
      removes peers everywhere ([FileStore]).
    - Every account the manager ever holds is well formed, in memory and in the
      file ([Manager]); a restart reads the store from the data directory of the
      configuration, or carries it over from the former one, and keeps every
      account, on files without links and with no failing call ([Rebrand],
      [Boot]); the conversion of old stores loses nothing
      ([Migration]).
    - A write of a file is atomic ([JsonFile]), and so is one of the store: its
      JSON is read back as it was, and wherever the process is killed the next
      start finds all old or all new accounts ([StoreJson]).
    - The users of the provider are complete up to its limit, asked for with a
      token that is in date ([Auth0]).
    - Both servers are set up alike ([Boot]) and stopped in order, or the exit
      code says otherwise ([Stopping]); copying a file copies it, and what
      exists under the new name stays ([Files]).
    - The interface is created as configured and no other one is touched
      ([Device]); a proxied connection relays packets in order, and its
      goroutines end ([Pump]).
    - A machine describes itself, and does not panic, when uname says enough
      ([SystemInfo]); the installed service runs with the flags it was given
      ([Service]); there is one tray at a time ([Tray]).
    - The general middleware for tokens is, with the options of the servers, the
      one the theorems are of ([JwtMiddleware]); the mock of the manager stands
      for any manager ([Mocks]).
    - [up] connects only after a login that succeeded ([Commands]), the commands
      take the daemon through its own steps, and after [up] it has a client,
      after [down] none that is still wanted ([CliDaemon]); the menu
      says what the daemon answered ([Ui]).
    - The channels implement queues, a sync stream relays them in order and
      encrypted, encryption is undone by decryption, a peer has one credentials
      refresh ([UpdateChannel], [GrpcServer], [Encryption], [Turn]).
    - Over HTTP only administrators modify anything, and the handlers act on
      the account of the token ([HttpApi]).
    - The signal exchange delivers each message to the peer it is for and in
      order ([Signal]); whoever waits for the stream is released when it
      connects ([SignalClient]).
    - Under any interleaving of updates, messages and timers the engine
      implements a map from serials to sets of peers, panics only when ICE
      reports a failure where no [Open] is under way (which late callbacks do)
      or a message has no body, and, while closing works, the status of a
      connection tells where it stands ([Engine]).
    - Under any order of calls and goroutines the daemon does one thing at a
      time, says it is connected only when an engine is up, and what is brought
      down ends ([DaemonInv]); configurations keep their keys ([ClientConfig]);
      tokens are for the audience asked for ([OAuth]).
    - Where the code does not do what it means to, the theorem states what it
      does: members accumulate over groups when a peer is deleted, the first
      account of a private domain cannot take a peer, a rule with a deleted
      group panics, a peer that is removed while it is dialled is connected, a
      replaced client resets the state of its successor, a management service
      without certificates that is stopped may exit with a failure, and others.

    Each theorem with hypotheses is applied to a concrete world in the lemma
    that bears its name and [_witness].  Theorems about a call are stated with
    [wp], for every outcome of the call, or for a run [m w = (r, w')].

    ** Conventions, bounds and fuel

    - A Go pointer into the store is the key of what it points to; a function
      that modifies an account in place is a function from the account to the
      account it saves, or [modify_account] where it does not save.  [Blocked]
      is a call that cannot proceed in its state (a send on a full channel).
    - A map is iterated in any order ([rt_range]), which may differ at each
      iteration; theorems hold for all orders.
    - A goroutine is a sequence of steps, cut where it waits: [Open] of a
      connection in phases, the operation of [RunClient] in [operation_begin]
      and [operation_end], [WaitSSOLogin] in [WaitSSOLogin_begin], [wait_tick]
      and [wait_end].  Steps of goroutines and calls interleave in any order.
    - Objects the code shares by pointer (connections of an engine, contexts,
      clients of a service, goroutines) are identities, with their state in a
      map of the world.
    - The loop of [generateIPs] runs with [loop_fuel]: one more than the number
      of addresses the mask leaves, which [generateIPs_enumerates] shows to be
      enough.  The loop of a sync stream [sync_loop] runs over the
      choices of its select.
      [Retry] is structural in its attempts.  Loops that wait for events
      ([receive], [receiveEvents], [wait_loop]) run over the list of events.
    - [UsedTimes] is a 64-bit [int] and [Serial] a [uint64], with their
      wrap-around; times and durations are nanoseconds, durations of 64 bits.
    - Copying a directory ([cp_dir]) and the file system's lookup ([resolve])
      recur on a depth and on the number of links that may be followed, which
      the kernel bounds by 40; a directory deeper than the depth blocks.
    - [log.Fatalf] and [panic(err)] of a command are a panic of its model.

    ** What is not modelled

    Locks: a call of the management service runs alone, and so does each step
    of the client and of the daemon: in particular a client that ends stops its
    engine and resets the status in one step.  What the manager writes after a
    start goes to the one cell [World_Disk]; [StoreJson] has the file it stands
    for.  The backing arrays of slices, other than of the members
    of groups in [Slices]; the theorems about the account manager take these
    members as lists also where groups share an array.  The maps of an account
    other than its groups and rules are never nil.  Logging and printing.  The JSON of the configuration files, which are
    written and read back as they are, and the syntax of JSON texts, which is a
    parameter.  Case conversion outside ASCII.  IP addresses of 16 bytes.  TLS,
    and the answers to the challenges of certificates.  Drawing the user
    interface.  The package client/ui/config and the second Duration of
    http/handler/util.go, which nothing uses, helpers of tests (testutil.go)
    and the generated code.

    Parameters, with their documented behaviour as classes of laws: NaCl box
    and protobuf ([Crypto], [Wire]), HMAC ([TurnHash]), golang-jwt ([JwtLib]),
    gorilla/mux and rs/cors ([Mux], [Cors]), the query of a request ([Query]),
    durations ([Durations], [DurationText]), times and JSON as text ([TimeText],
    [JsonText]), cenkalti/backoff ([Backoff], [BackoffP]), gRPC connections
    ([Grpc]), wgctrl ([WgCtrl]), netlink, wireguard-go and the drivers
    ([Netlink], [Userspace], [Machine]), pion/ice ([Ice]), sockets and
    interfaces ([Net]), HTTP and JSON text ([HttpLib]), net/url and google/uuid
    ([Texts]), the system ([Sys]), iplib and the identity provider (in
    [Runtime]), the provider's HTTP ([IdpHttp]), the outcomes of system calls
    and of the process ([OsCalls], [Process]), other processes ([Processes],
    [ProcessLaws], [SettingsProcess]), the output of system commands ([MachineInfo]), the
    manager of services and the flags of commands ([ServiceLib], [Pflag]),
    certificates, keys and the network of a start ([BootEnv]), the daemon as
    the commands see it ([DaemonClient]). *)

From Stdlib Require Export Ascii Lia ZArith.
From stdpp Require Export base gmap strings list fin_maps numbers pretty.

#[global] Set Default Goal Selector "!".

Declare Scope go_scope.
Delimit Scope go_scope with go.
Open Scope go_scope.

(* ------------------------------------------------------------------ *)
(** ** Errors *)

(** The gRPC status codes the program produces or inspects
    (google.golang.org/grpc/codes). *)
Inductive code :=
  | OK | Canceled | Unknown | InvalidArgument | NotFound | PermissionDenied
  | FailedPrecondition | OutOfRange | Unimplemented | Internal | Unavailable | Unauthenticated.

#[export] Instance code_eq_dec : EqDecision code.
Proof. solve_decision. Defined.

(** A Go [error] value: a gRPC status error, or any other error. *)
Inductive error :=
  | Status (c : code) (msg : string)
  | Plain (msg : string).

#[export] Instance error_eq_dec : EqDecision error.
Proof. solve_decision. Defined.

(** [status.FromError]: the code of an error and whether it is a status
    error; a plain error reads as [Unknown], the nil error as [OK]. *)
Definition from_error (e : option error) : code * bool :=
  match e with
  | None => (OK, true)
  | Some (Status c _) => (c, true)
  | Some (Plain _) => (Unknown, false)
  end.

(** [codes.Code.String]. *)
Definition code_String (c : code) : string :=
  match c with
  | OK => "OK" | Canceled => "Canceled" | Unknown => "Unknown"
  | InvalidArgument => "InvalidArgument" | NotFound => "NotFound"
  | PermissionDenied => "PermissionDenied" | FailedPrecondition => "FailedPrecondition"
  | OutOfRange => "OutOfRange" | Unimplemented => "Unimplemented"
  | Internal => "Internal"
  | Unavailable => "Unavailable" | Unauthenticated => "Unauthenticated"
  end.

(** [err.Error()]. *)
Definition error_text (e : error) : string :=
  match e with
  | Status c msg => "rpc error: code = " +:+ code_String c +:+ " desc = " +:+ msg
  | Plain msg => msg
  end.

(* ------------------------------------------------------------------ *)
(** ** Outcomes and the state monad of Go code *)

(** What a Go call does: return a value, return an error, panic, or block
    for ever in the state it is in (a send on a full channel). *)
Inductive Res (A : Type) :=
  | Ok (a : A)
  | Err (e : error)
  | Panic (msg : string)
  | Blocked.
Arguments Ok {A} a.
Arguments Err {A} e.
Arguments Panic {A} msg.
Arguments Blocked {A}.

Definition M (W A : Type) : Type := W → Res A * W.

#[export] Instance M_ret {W} : MRet (M W) := λ A a w, (Ok a, w).
#[export] Instance M_bind {W} : MBind (M W) := λ A B f m w,
  match m w with
  | (Ok a, w') => f a w'
  | (Err e, w') => (Err e, w')
  | (Panic s, w') => (Panic s, w')
  | (Blocked, w') => (Blocked, w')
  end.

Section operations.
Context {W : Type}.

Definition fail {A} (e : error) : M W A := λ w, (Err e, w).
Definition panic {A} (msg : string) : M W A := λ w, (Panic msg, w).
Definition blocked {A} : M W A := λ w, (Blocked, w).
Definition gets {A} (f : W → A) : M W A := λ w, (Ok (f w), w).
Definition modify (f : W → W) : M W unit := λ w, (Ok tt, f w).

(** [x, err := m()] with [err] inspected afterwards. *)
Definition try {A} (m : M W A) : M W (error + A) := λ w,
  match m w with
  | (Ok a, w') => (Ok (inr a), w')
  | (Err e, w') => (Ok (inl e), w')
  | (Panic s, w') => (Panic s, w')
  | (Blocked, w') => (Blocked, w')
  end.

(** [if err != nil { return f(err) }]. *)
Definition map_err {A} (f : error → error) (m : M W A) : M W A := λ w,
  match m w with
  | (Err e, w') => (Err (f e), w')
  | r => r
  end.

Definition when (b : bool) (m : M W unit) : M W unit :=
  if b then m else mret tt.

(** [v, ok := m[k]] followed by an error return when [!ok]. *)
Definition or_fail {A} (o : option A) (e : error) : M W A :=
  match o with Some a => mret a | None => fail e end.

(** Dereferencing a pointer: a nil pointer panics. *)
Definition deref {A} (o : option A) : M W A :=
  match o with
  | Some a => mret a
  | None => panic "invalid memory address or nil pointer dereference"
  end.

(** [for _, x := range l { body }], left to right. *)
Fixpoint for_each {A} (l : list A) (body : A → M W unit) : M W unit :=
  match l with
  | [] => mret tt
  | x :: l' => _ ← body x; for_each l' body
  end.

(** [for _, x := range l { r = append(r, body(x)) }]. *)
Fixpoint map_each {A B} (l : list A) (body : A → M W B) : M W (list B) :=
  match l with
  | [] => mret []
  | x :: l' => y ← body x; r ← map_each l' body; mret (y :: r)
  end.
End operations.

(** [m or_err e]: an error of [m] is replaced by the error [e]. *)
Notation "m 'or_err' e" := (map_err (λ _, e) m) (at level 55) : go_scope.

(* ------------------------------------------------------------------ *)
(** ** Weakest preconditions *)

(** [wp m Q w]: running [m] in [w] ends in an outcome and a state of [Q]. *)
Definition wp {W A} (m : M W A) (Q : Res A → W → Prop) (w : W) : Prop :=
  Q (m w).1 (m w).2.

(** What [wp] asks of the rest of the program after an outcome. *)
Definition then_wp {W A B} (k : A → W → Prop) (Q : Res B → W → Prop)
    (r : Res A) (w : W) : Prop :=
  match r with
  | Ok a => k a w
  | Err e => Q (Err e) w
  | Panic s => Q (Panic s) w
  | Blocked => Q Blocked w
  end.

Section wp_rules.
Context {W : Type}.
Implicit Types w : W.

Lemma wp_run {A} (m : M W A) Q w r w' :
  m w = (r, w') → wp m Q w → Q r w'.
Proof. unfold wp. by intros ->. Qed.

Lemma wp_mono {A} (m : M W A) (Q Q' : Res A → W → Prop) w :
  wp m Q w → (∀ r w', Q r w' → Q' r w') → wp m Q' w.
Proof. unfold wp. eauto. Qed.

Lemma wp_and {A} (m : M W A) (Q Q' : Res A → W → Prop) w :
  wp m Q w → wp m Q' w → wp m (λ r w', Q r w' ∧ Q' r w') w.
Proof. done. Qed.

Lemma wp_ret {A} (a : A) (Q : Res A → W → Prop) w :
  Q (Ok a) w → wp (mret a) Q w.
Proof. done. Qed.

Lemma wp_bind {A B} (m : M W A) (f : A → M W B) Q w :
  wp m (then_wp (λ a w', wp (f a) Q w') Q) w → wp (m ≫= f) Q w.
Proof.
  unfold wp, mbind, M_bind, then_wp.
  by destruct (m w) as [[] ?].
Qed.

Lemma wp_bind_inv {A B} (m : M W A) (f : A → M W B) Q w :
  wp (m ≫= f) Q w → wp m (then_wp (λ a w', wp (f a) Q w') Q) w.
Proof.
  unfold wp, mbind, M_bind, then_wp.
  by destruct (m w) as [[] ?].
Qed.

Lemma wp_bind_assoc {A B C} (m : M W A) (f : A → M W B) (g : B → M W C) Q w :
  wp ((m ≫= f) ≫= g) Q w → wp (m ≫= λ x, f x ≫= g) Q w.
Proof. unfold wp, mbind, M_bind. by destruct (m w) as [[] ?]. Qed.

Lemma wp_fail {A} e (Q : Res A → W → Prop) w : Q (Err e) w → wp (fail e) Q w.
Proof. done. Qed.

Lemma wp_panic {A} s (Q : Res A → W → Prop) w : Q (Panic s) w → wp (panic s) Q w.
Proof. done. Qed.

Lemma wp_blocked {A} (Q : Res A → W → Prop) w : Q Blocked w → wp blocked Q w.
Proof. done. Qed.

Lemma wp_gets {A} (f : W → A) (Q : Res A → W → Prop) w :
  Q (Ok (f w)) w → wp (gets f) Q w.
Proof. done. Qed.

Lemma wp_modify (f : W → W) (Q : Res unit → W → Prop) w :
  Q (Ok tt) (f w) → wp (modify f) Q w.
Proof. done. Qed.

Lemma wp_try {A} (m : M W A) Q w :
  wp m (λ r w', match r with
    | Ok a => Q (Ok (inr a)) w'
    | Err e => Q (Ok (inl e)) w'
    | Panic s => Q (Panic s) w'
    | Blocked => Q Blocked w'
    end) w → wp (try m) Q w.
Proof. unfold wp, try. by destruct (m w) as [[] ?]. Qed.

Lemma wp_map_err {A} f (m : M W A) Q w :
  wp m (λ r w', match r with Err e => Q (Err (f e)) w' | r => Q r w' end) w →
  wp (map_err f m) Q w.
Proof. unfold wp, map_err. by destruct (m w) as [[] ?]. Qed.

Lemma wp_when b (m : M W unit) Q w :
  (b = true → wp m Q w) → (b = false → Q (Ok tt) w) → wp (when b m) Q w.
Proof. destruct b; intros H1 H2; [by apply H1|by apply H2]. Qed.

Lemma wp_or_fail {A} (o : option A) e (Q : Res A → W → Prop) w :
  (∀ a, o = Some a → Q (Ok a) w) → (o = None → Q (Err e) w) →
  wp (or_fail o e) Q w.
Proof. destruct o; unfold or_fail, wp; simpl; auto. Qed.

Lemma wp_deref {A} (o : option A) (Q : Res A → W → Prop) w :
  (∀ a, o = Some a → Q (Ok a) w) →
  (o = None → Q (Panic "invalid memory address or nil pointer dereference") w) →
  wp (deref o) Q w.
Proof. destruct o; unfold deref, wp; simpl; auto. Qed.

(** The loop rule: an invariant indexed by the elements still to run. *)
Lemma wp_for_each {A} (I : list A → W → Prop) (l : list A) body Q w :
  I l w →
  (∀ x l' w', I (x :: l') w' → x ∈ l →
     wp (body x) (then_wp (λ _, I l') Q) w') →
  (∀ w', I [] w' → Q (Ok tt) w') →
  wp (for_each l body) Q w.
Proof.
  intros HI Hbody HQ.
  assert (∀ l0 w0, (∀ x, x ∈ l0 → x ∈ l) → I l0 w0 → wp (for_each l0 body) Q w0)
    as Hgen; [|by apply (Hgen l w)].
  clear HI w. induction l0 as [|x l0 IH]; intros w Hsub HI; simpl.
  - apply wp_ret. auto.
  - apply wp_bind. eapply wp_mono; [apply Hbody|]; [done|set_solver|].
    intros [[]|e|s|] w'; simpl; try done.
    intros HI'. apply IH; [set_solver|done].
Qed.

(** A loop that establishes a fact per element and keeps those it has
    established. *)
Lemma wp_for_each_all {A} (I : W → Prop) (P : A → W → Prop) (l : list A) body Q w :
  I w →
  (∀ x w', x ∈ l → I w' →
     wp (body x) (λ r w'', match r with
       | Ok _ => I w'' ∧ P x w'' ∧ (∀ y, y ∈ l → P y w' → P y w'')
       | _ => Q r w''
       end) w') →
  (∀ w', I w' → (∀ x, x ∈ l → P x w') → Q (Ok tt) w') →
  wp (for_each l body) Q w.
Proof.
  intros HI Hbody HQ.
  apply (wp_for_each (λ rem w', I w' ∧ ∀ x, x ∈ l → x ∈ rem ∨ P x w')).
  - split; [done|]. by left.
  - intros x rem w' [HI' Hrem] Hx.
    eapply wp_mono; [by apply Hbody|]. intros [[]|e|s|] w''; simpl; try done.
    intros (HI'' & HPx & Hmono). split; [done|]. intros y Hy.
    destruct (Hrem y Hy) as [[->|?]%elem_of_cons|?]; eauto.
  - intros w' [HI' Hrem]. apply HQ; [done|]. intros x Hx.
    destruct (Hrem x Hx) as [[]%not_elem_of_nil|]; done.
Qed.

(** A loop whose body is a pure update of the state is a fold. *)
Lemma for_each_modify {A} (l : list A) (f : A → W → W) w :
  for_each l (λ x, modify (f x)) w = (Ok tt, foldl (λ w x, f x w) w l).
Proof. revert w. induction l as [|x l IH]; intros w; [done|]. apply IH. Qed.

(** Mapping with a body that does not change the state. *)
Lemma wp_map_each {A B} (P : A → B → Prop) (Bad : A → string → Prop) (l : list A) (body : A → M W B) w :
  (∀ x, x ∈ l → wp (body x) (λ r w', w' = w ∧
     match r with Ok y => P x y | Panic s => Bad x s | _ => False end) w) →
  wp (map_each l body) (λ r w', w' = w ∧
    match r with
    | Ok ys => Forall2 P l ys
    | Panic s => ∃ x, x ∈ l ∧ Bad x s
    | _ => False
    end) w.
Proof.
  induction l as [|x l IH]; intros Hbody; simpl.
  - apply wp_ret. split; [done|constructor].
  - apply wp_bind. eapply wp_mono; [apply Hbody; by left|].
    intros [y|e|s|] w' [-> Hr]; simpl; try done; [|split; [done|]; exists x; split; [by left|done]].
    apply wp_bind. eapply wp_mono; [apply IH; intros; apply Hbody; by right|].
    intros [ys|e|s|] w' [-> Hrs]; simpl; try done.
    + apply wp_ret. split; [done|by constructor].
    + split; [done|]. destruct Hrs as (x' & ? & ?). exists x'. split; [by right|done].
Qed.
End wp_rules.

Lemma bind_run {W A B} (m : M W A) (f : A → M W B) w a w' :
  m w = (Ok a, w') → (m ≫= f) w = f a w'.
Proof. unfold mbind, M_bind. by intros ->. Qed.

Lemma bind_ok_inv {W A B} (m : M W A) (f : A → M W B) w b w2 :
  (m ≫= f) w = (Ok b, w2) → ∃ a w1, m w = (Ok a, w1) ∧ f a w1 = (Ok b, w2).
Proof.
  unfold mbind, M_bind. destruct (m w) as [[a|e|s|] w1]; intros H; simplify_eq.
  eauto.
Qed.

Create HintDb wp discriminated.
#[export] Hint Resolve wp_ret wp_fail wp_panic wp_blocked wp_gets wp_modify : wp.

(** One step of symbolic execution of a monadic goal. *)
Ltac wp_step :=
  lazymatch goal with
  | |- wp (mbind _ _) _ _ => apply wp_bind
  | |- wp (mret _) _ _ => apply wp_ret
  | |- wp (fail _) _ _ => apply wp_fail
  | |- wp (panic _) _ _ => apply wp_panic
  | |- wp blocked _ _ => apply wp_blocked
  | |- wp (gets _) _ _ => apply wp_gets
  | |- wp (modify _) _ _ => apply wp_modify
  | |- wp (try _) _ _ => apply wp_try
  | |- wp (map_err _ _) _ _ => apply wp_map_err
  | |- wp (when _ _) _ _ => apply wp_when; intros ?
  | |- wp (or_fail _ _) _ _ => apply wp_or_fail; [intros ? ?|intros ?]
  | |- wp (deref _) _ _ => apply wp_deref; [intros ? ?|intros ?]
  | |- wp (match ?x with _ => _ end) _ _ => destruct x eqn:?
  | |- wp (if ?x then _ else _) _ _ => destruct x eqn:?
  | |- then_wp _ _ _ _ => simpl
  end; simpl.
Ltac wp_go := repeat wp_step.
