(* ===== verification/GoLib.v ===== *)
(** * GoLib: what the program uses of the Go standard library

    Machine integers, [strings], [strconv], [hash/fnv] and [net], as far as
    the modelled code calls them.  Strings are byte strings; [ToUpper] and
    [ToLower] are Go's on ASCII and leave every other byte alone (setup keys,
    WireGuard keys and domain names are ASCII). *)

From S2P Require Import Prelude.

(* ------------------------------------------------------------------ *)
(** ** Machine integers *)

Definition wrap_u32 (z : Z) : Z := z mod 2 ^ 32.
Definition wrap_u64 (z : Z) : Z := z mod 2 ^ 64.
Definition wrap_i64 (z : Z) : Z := (z + 2 ^ 63) mod 2 ^ 64 - 2 ^ 63.

Lemma wrap_u64_small z : (0 ≤ z < 2 ^ 64)%Z → wrap_u64 z = z.
Proof. apply Z.mod_small. Qed.

Lemma wrap_u64_range z : (0 ≤ wrap_u64 z < 2 ^ 64)%Z.
Proof. by apply Z.mod_pos_bound. Qed.

Lemma wrap_i64_small z : (- 2 ^ 63 ≤ z < 2 ^ 63)%Z → wrap_i64 z = z.
Proof. unfold wrap_i64. intros H. rewrite Z.mod_small; lia. Qed.

Lemma wrap_u32_range z : (0 ≤ wrap_u32 z < 2 ^ 32)%Z.
Proof. by apply Z.mod_pos_bound. Qed.

(* ------------------------------------------------------------------ *)
(** ** [strings] *)

Definition upper_byte (a : ascii) : ascii :=
  let n := Ascii.N_of_ascii a in
  if (97 <=? n)%N && (n <=? 122)%N then Ascii.ascii_of_N (n - 32) else a.

Definition lower_byte (a : ascii) : ascii :=
  let n := Ascii.N_of_ascii a in
  if (65 <=? n)%N && (n <=? 90)%N then Ascii.ascii_of_N (n + 32) else a.

Fixpoint string_map (f : ascii → ascii) (s : string) : string :=
  match s with
  | EmptyString => EmptyString
  | String a s' => String (f a) (string_map f s')
  end.

Definition ToUpper (s : string) : string := string_map upper_byte s.
Definition ToLower (s : string) : string := string_map lower_byte s.

Lemma upper_byte_idem a : upper_byte (upper_byte a) = upper_byte a.
Proof. by destruct a as [[] [] [] [] [] [] [] []]. Qed.

Lemma lower_byte_idem a : lower_byte (lower_byte a) = lower_byte a.
Proof. by destruct a as [[] [] [] [] [] [] [] []]. Qed.

Lemma string_map_idem f s :
  (∀ a, f (f a) = f a) → string_map f (string_map f s) = string_map f s.
Proof. intros Hf. induction s as [|a s IH]; simpl; [done|]. by rewrite Hf, IH. Qed.

Lemma ToUpper_idem s : ToUpper (ToUpper s) = ToUpper s.
Proof. apply string_map_idem, upper_byte_idem. Qed.

Lemma ToLower_idem s : ToLower (ToLower s) = ToLower s.
Proof. apply string_map_idem, lower_byte_idem. Qed.

Lemma ToUpper_empty s : ToUpper s = "" ↔ s = "".
Proof. by destruct s. Qed.

Lemma ToLower_empty s : ToLower s = "" ↔ s = "".
Proof. by destruct s. Qed.

(** [strings.Split(s, sep)] for a one-byte separator. *)
Fixpoint Split (s : string) (sep : ascii) : list string :=
  match s with
  | EmptyString => [""]
  | String a s' =>
      if decide (a = sep) then "" :: Split s' sep
      else match Split s' sep with
           | x :: xs => String a x :: xs
           | [] => [String a ""]
           end
  end.

(** [strings.Join(l, sep)]. *)
Fixpoint Join (l : list string) (sep : string) : string :=
  match l with
  | [] => ""
  | [x] => x
  | x :: l' => x +:+ sep +:+ Join l' sep
  end.

(** [strings.Contains(s, c)] for one byte. *)
Fixpoint has_byte (c : ascii) (s : string) : bool :=
  match s with
  | EmptyString => false
  | String a s' => if decide (a = c) then true else has_byte c s'
  end.

Lemma Split_nonempty s sep : Split s sep ≠ [].
Proof.
  induction s as [|a s IH]; simpl; [done|].
  case_decide; [done|]. by destruct (Split s sep).
Qed.

Lemma Split_no_sep s sep : has_byte sep s = false → Split s sep = [s].
Proof.
  induction s as [|a s IH]; simpl; [done|]. case_decide; [done|].
  intros Hs. by rewrite IH.
Qed.

Lemma Split_app x y sep :
  has_byte sep x = false →
  Split (x +:+ String sep y) sep = x :: Split y sep.
Proof.
  induction x as [|a x IH]; simpl.
  - intros _. by rewrite decide_True.
  - case_decide; [done|]. intros Hs.
    by rewrite IH.
Qed.

Lemma Split_length_2 s sep :
  length (Split s sep) = 2 → ∃ x y, Split s sep = [x; y].
Proof. destruct (Split s sep) as [|x [|y []]]; try done. eauto. Qed.

(** [strings.Fields]: the maximal runs of non-blank bytes (ASCII blanks). *)
Definition is_blank (a : ascii) : bool :=
  let n := nat_of_ascii a in
  bool_decide (n = 32 ∨ 9 ≤ n ≤ 13).

(** [cur] is the field being read, in reverse. *)
Fixpoint fields_from (cur : list ascii) (s : string) : list string :=
  let flush := match cur with [] => [] | _ => [foldl (λ acc a, String a acc) "" cur] end in
  match s with
  | EmptyString => flush
  | String a s' =>
      if is_blank a then flush ++ fields_from [] s' else fields_from (a :: cur) s'
  end.
Definition Fields (s : string) : list string := fields_from [] s.

Example Fields_example : Fields "  Bearer  abc " = ["Bearer"; "abc"].
Proof. reflexivity. Qed.

(* ------------------------------------------------------------------ *)
(** ** [strconv.Itoa] and [hash/fnv] *)

Definition Itoa (z : Z) : string := pretty z.

Fixpoint string_bytes (s : string) : list Z :=
  match s with
  | EmptyString => []
  | String a s' => Z.of_N (Ascii.N_of_ascii a) :: string_bytes s'
  end.

(** [string(b)]. *)
Definition bytes_string (l : list Z) : string := foldr (λ z s, String (ascii_of_nat (Z.to_nat z)) s) "" l.

Lemma bytes_string_bytes s : bytes_string (string_bytes s) = s.
Proof.
  induction s as [|a s IH]; simpl; [done|]. rewrite IH. f_equal.
  by destruct a as [[] [] [] [] [] [] [] []].
Qed.

(** FNV-1a, 32 bits: [fnv.New32a] starts from the offset basis and folds
    [hash ^= byte; hash *= prime] over the bytes. *)
Definition fnv_offset32 : Z := 2166136261.
Definition fnv_prime32 : Z := 16777619.
Definition fnv32a (bs : list Z) : Z :=
  foldl (λ h b, wrap_u32 (Z.lxor h b * fnv_prime32)) fnv_offset32 bs.

Lemma fnv32a_range bs : (0 ≤ fnv32a bs < 2 ^ 32)%Z.
Proof.
  unfold fnv32a.
  assert (∀ h, (0 ≤ h < 2 ^ 32)%Z →
    (0 ≤ foldl (λ h b, wrap_u32 (Z.lxor h b * fnv_prime32)) h bs < 2 ^ 32)%Z) as H.
  { induction bs as [|b bs IH]; intros h Hh; simpl; [done|].
    apply IH, wrap_u32_range. }
  apply H. unfold fnv_offset32. lia.
Qed.

Example fnv32a_a : fnv32a (string_bytes "a") = 3826002220%Z.
Proof. reflexivity. Qed.

(* ------------------------------------------------------------------ *)
(** ** [net] *)

(** A [net.IP] in its 4-byte form, bytes from most to least significant. *)
Abbreviation IP := (list Z) (only parsing).

(** [IP.String] on a 4-byte address. *)
Definition IP_String (ip : IP) : string := Join (Itoa <$> ip) ".".

(** [net.IPNet]: address and mask, of the same length. *)
Record IPNet := mkIPNet { IPNet_IP : IP; IPNet_Mask : list Z }.

(** [IP.Mask]. *)
Definition IP_Mask (ip mask : list Z) : IP := zip_with Z.land ip mask.

(** [IPNet.Contains]: the masked bytes agree and the lengths are the same. *)
Definition IPNet_Contains (n : IPNet) (ip : IP) : bool :=
  bool_decide (length ip = length (IPNet_IP n)) &&
  bool_decide (IP_Mask (IPNet_IP n) (IPNet_Mask n) = IP_Mask ip (IPNet_Mask n)).

Lemma Itoa_no_byte z a : (0 ≤ z < 256)%Z → a = "."%char ∨ a = "/"%char → has_byte a (Itoa z) = false.
Proof.
  intros Hz Ha.
  assert (forallb (λ n, negb (has_byte "." (Itoa (Z.of_nat n))) && negb (has_byte "/" (Itoa (Z.of_nat n)))) (seq 0 256)
    = true) as Hall by (vm_compute; reflexivity).
  rewrite forallb_forall in Hall. specialize (Hall (Z.to_nat z)). rewrite Z2Nat.id in Hall by lia.
  assert (In (Z.to_nat z) (seq 0 256)) as Hin by (apply in_seq; lia). apply Hall in Hin.
  apply andb_true_iff in Hin as [H1 H2]. apply negb_true_iff in H1, H2. destruct Ha as [-> | ->]; done.
Qed.

Lemma Split_IP_String a b c d :
  Forall (λ z, 0 ≤ z < 256)%Z [a; b; c; d] → Split (IP_String [a; b; c; d]) "."%char = Itoa <$> [a; b; c; d].
Proof.
  rewrite !Forall_cons. intros (Ha & Hb & Hc & Hd & _).
  assert (IP_String [a; b; c; d] = Itoa a +:+ String "." (Itoa b +:+ String "." (Itoa c +:+ String "." (Itoa d))))
    as -> by reflexivity.
  rewrite !Split_app by (apply Itoa_no_byte; auto). by rewrite Split_no_sep by (apply Itoa_no_byte; auto).
Qed.
Lemma IP_String_inj (x y : list Z) :
  length x = 4 → length y = 4 → Forall (λ z, 0 ≤ z < 256)%Z x → Forall (λ z, 0 ≤ z < 256)%Z y → IP_String x = IP_String y → x = y.
Proof.
  destruct x as [|a [|b [|c [|d [|]]]]]; try done. destruct y as [|a' [|b' [|c' [|d' [|]]]]]; try done. intros _ _ Hx Hy E.
  apply (f_equal (λ s, Split s "."%char)) in E. rewrite !Split_IP_String in E by done.
  revert E. apply (inj (fmap Itoa)).
Qed.

Example IP_String_ex : IP_String [100; 64; 0; 1]%Z = "100.64.0.1".
Proof. reflexivity. Qed.
