(* ===== verification/Model.v ===== *)
(** * Model: the data of the management service and its runtime

    The structs of management/server (Account, Peer, Group, Rule, User,
    SetupKey, Network, FileStore, PeersUpdateManager, Config), the protobuf
    messages it sends, the state [World] a call runs in, and the class
    [Runtime] of everything the process does not decide itself: the clock,
    generated identifiers, random numbers, the order of a Go map iteration,
    the outcome of file-system calls, the answers of the identity provider. *)

From S2P Require Import Prelude GoLib.

(* ------------------------------------------------------------------ *)
(** ** Go maps that may be nil *)

(** [map[string]A]; [None] is the nil map, which reads as empty and panics
    when written. *)
Abbreviation gomap A := (option (gmap string A)) (only parsing).

Definition map_of {A} (m : gomap A) : gmap string A := default ∅ m.
Definition map_get {A} (m : gomap A) (k : string) : option A := map_of m !! k.
Definition map_len {A} (m : gomap A) : nat := size (map_of m).
Definition map_del {A} (m : gomap A) (k : string) : gomap A := delete k <$> m.

(** [m[k] = v]. *)
Definition map_set {W A} (m : gomap A) (k : string) (v : A) : M W (gomap A) :=
  match m with
  | Some m' => mret (Some (<[k := v]> m'))
  | None => panic "assignment to entry in nil map"
  end.

(* ------------------------------------------------------------------ *)
(** ** Accounts *)

(** peer.go *)
Record PeerSystemMeta := mkMeta {
  Meta_Hostname : string; Meta_GoOS : string; Meta_Kernel : string;
  Meta_Core : string; Meta_Platform : string; Meta_OS : string;
  Meta_WtVersion : string; Meta_UIVersion : string }.

Record PeerStatus := mkStatus { Status_LastSeen : Z; Status_Connected : bool }.

Record Peer := mkPeer {
  Peer_Key : string; Peer_SetupKey : string; Peer_IP : IP;
  Peer_Meta : PeerSystemMeta; Peer_Name : string;
  Peer_Status : option PeerStatus; Peer_UserID : string }.

(** group.go *)
Record Group := mkGroup {
  Group_ID : string; Group_Name : string; Group_Peers : list string }.

(** rule.go; [TrafficFlowBidirect] is the constant 0 of an [int] type. *)
Definition TrafficFlowBidirect : Z := 0.

Record Rule := mkRule {
  Rule_ID : string; Rule_Name : string; Rule_Source : list string;
  Rule_Destination : list string; Rule_Flow : Z }.

(** user.go *)
Definition UserRoleAdmin : string := "admin".
Definition UserRoleUser : string := "user".

Record User := mkUser { User_Id : string; User_Role : string }.

(** setupkey.go; times are nanoseconds, [UsedTimes] is a 64-bit [int]. *)
Definition SetupKeyReusable : string := "reusable".
Definition SetupKeyOneOff : string := "one-off".
Definition DefaultSetupKeyDuration : Z := 24 * 30 * 3600 * 1000000000.
Definition DefaultSetupKeyName : string := "Default key".

Record SetupKey := mkSetupKey {
  SetupKey_Id : string; SetupKey_Key : string; SetupKey_Name : string;
  SetupKey_Type : string; SetupKey_CreatedAt : Z; SetupKey_ExpiresAt : Z;
  SetupKey_Revoked : bool; SetupKey_UsedTimes : Z; SetupKey_LastUsed : Z }.

(** network.go; [Serial] is a [uint64]. *)
Record Network := mkNetwork {
  Network_Id : string; Network_Net : IPNet; Network_Dns : string;
  Network_Serial : Z }.

(** account.go *)
Definition PublicCategory : string := "public".
Definition PrivateCategory : string := "private".
Definition UnknownCategory : string := "unknown".

Record Account := mkAccount {
  Account_Id : string; Account_CreatedBy : string; Account_Domain : string;
  Account_DomainCategory : string; Account_IsDomainPrimaryAccount : bool;
  Account_SetupKeys : gmap string SetupKey; Account_Network : Network;
  Account_Peers : gmap string Peer; Account_Users : gmap string User;
  Account_Groups : gomap Group; Account_Rules : gomap Rule }.

(** Field assignments [a.F = v]. *)
Definition set_SetupKeys v a := mkAccount (Account_Id a) (Account_CreatedBy a) (Account_Domain a) (Account_DomainCategory a) (Account_IsDomainPrimaryAccount a) v (Account_Network a) (Account_Peers a) (Account_Users a) (Account_Groups a) (Account_Rules a).
Definition set_Network v a := mkAccount (Account_Id a) (Account_CreatedBy a) (Account_Domain a) (Account_DomainCategory a) (Account_IsDomainPrimaryAccount a) (Account_SetupKeys a) v (Account_Peers a) (Account_Users a) (Account_Groups a) (Account_Rules a).
Definition set_Peers v a := mkAccount (Account_Id a) (Account_CreatedBy a) (Account_Domain a) (Account_DomainCategory a) (Account_IsDomainPrimaryAccount a) (Account_SetupKeys a) (Account_Network a) v (Account_Users a) (Account_Groups a) (Account_Rules a).
Definition set_Users v a := mkAccount (Account_Id a) (Account_CreatedBy a) (Account_Domain a) (Account_DomainCategory a) (Account_IsDomainPrimaryAccount a) (Account_SetupKeys a) (Account_Network a) (Account_Peers a) v (Account_Groups a) (Account_Rules a).
Definition set_Groups v a := mkAccount (Account_Id a) (Account_CreatedBy a) (Account_Domain a) (Account_DomainCategory a) (Account_IsDomainPrimaryAccount a) (Account_SetupKeys a) (Account_Network a) (Account_Peers a) (Account_Users a) v (Account_Rules a).
Definition set_Rules v a := mkAccount (Account_Id a) (Account_CreatedBy a) (Account_Domain a) (Account_DomainCategory a) (Account_IsDomainPrimaryAccount a) (Account_SetupKeys a) (Account_Network a) (Account_Peers a) (Account_Users a) (Account_Groups a) v.
Definition set_DomainAttrs d c p a := mkAccount (Account_Id a) (Account_CreatedBy a) d c p (Account_SetupKeys a) (Account_Network a) (Account_Peers a) (Account_Users a) (Account_Groups a) (Account_Rules a).
Definition set_Domain d a := set_DomainAttrs d (Account_DomainCategory a) (Account_IsDomainPrimaryAccount a) a.

Definition set_Group_Peers v g := mkGroup (Group_ID g) (Group_Name g) v.
Definition set_Peer_Status v p := mkPeer (Peer_Key p) (Peer_SetupKey p) (Peer_IP p) (Peer_Meta p) (Peer_Name p) v (Peer_UserID p).
Definition set_Peer_Name v p := mkPeer (Peer_Key p) (Peer_SetupKey p) (Peer_IP p) (Peer_Meta p) v (Peer_Status p) (Peer_UserID p).
Definition set_Peer_Meta v p := mkPeer (Peer_Key p) (Peer_SetupKey p) (Peer_IP p) v (Peer_Name p) (Peer_Status p) (Peer_UserID p).

(** network.go: the answer of [GetNetworkMap]. *)
Record NetworkMap := mkNetworkMap {
  NetworkMap_Peers : list Peer; NetworkMap_Network : Network }.

(** account.go: what the user list shows. *)
Record UserInfo := mkUserInfo {
  UserInfo_ID : string; UserInfo_Email : string; UserInfo_Name : string;
  UserInfo_Role : string }.

(** jwtclaims/claims.go *)
Record AuthorizationClaims := mkClaims {
  Claims_UserId : string; Claims_AccountId : string; Claims_Domain : string;
  Claims_DomainCategory : string }.

(** idp/idp.go: the interface to the identity provider.  The answers may
    depend on the moment of the call. *)
Record UserData := mkUserData {
  UserData_Email : string; UserData_Name : string; UserData_ID : string }.

Record IdpManager := mkIdp {
  UpdateUserAppMetadata : nat → string → string → option error;
  GetBatchedUserData : nat → string → error + list UserData }.

(* ------------------------------------------------------------------ *)
(** ** Messages to the clients (management.proto) *)

Inductive HostConfig_Protocol := PB_UDP | PB_TCP | PB_HTTP | PB_HTTPS | PB_DTLS.

Record HostConfig := mkHostConfig {
  HostConfig_Uri : string; HostConfig_Proto : HostConfig_Protocol }.
Record ProtectedHostConfig := mkProtectedHostConfig {
  PHC_HostConfig : HostConfig; PHC_User : string; PHC_Password : string }.
Record WiretrusteeConfig := mkWiretrusteeConfig {
  WC_Stuns : list HostConfig; WC_Turns : list ProtectedHostConfig;
  WC_Signal : option HostConfig }.
Record PeerConfig := mkPeerConfig { PeerConfig_Address : string }.
Record RemotePeerConfig := mkRemotePeerConfig {
  RPC_WgPubKey : string; RPC_AllowedIps : list string }.
Record PbNetworkMap := mkPbNetworkMap {
  PbNM_Serial : Z; PbNM_PeerConfig : option PeerConfig;
  PbNM_RemotePeers : list RemotePeerConfig; PbNM_RemotePeersIsEmpty : bool }.
Record SyncResponse := mkSyncResponse {
  SR_WiretrusteeConfig : option WiretrusteeConfig;
  SR_PeerConfig : option PeerConfig;
  SR_RemotePeers : list RemotePeerConfig;
  SR_RemotePeersIsEmpty : bool;
  SR_NetworkMap : option PbNetworkMap }.

#[export] Instance HostConfig_Protocol_eq_dec : EqDecision HostConfig_Protocol.
Proof. solve_decision. Defined.
#[export] Instance HostConfig_eq_dec : EqDecision HostConfig.
Proof. solve_decision. Defined.
#[export] Instance ProtectedHostConfig_eq_dec : EqDecision ProtectedHostConfig.
Proof. solve_decision. Defined.
#[export] Instance WiretrusteeConfig_eq_dec : EqDecision WiretrusteeConfig.
Proof. solve_decision. Defined.
#[export] Instance PeerConfig_eq_dec : EqDecision PeerConfig.
Proof. solve_decision. Defined.
#[export] Instance RemotePeerConfig_eq_dec : EqDecision RemotePeerConfig.
Proof. solve_decision. Defined.
#[export] Instance PbNetworkMap_eq_dec : EqDecision PbNetworkMap.
Proof. solve_decision. Defined.
#[export] Instance SyncResponse_eq_dec : EqDecision SyncResponse.
Proof. solve_decision. Defined.

(* ------------------------------------------------------------------ *)
(** ** The state of the service *)

(** file_store.go; [map[string]struct{}] is [gmap string unit]. *)
Record FileStore := mkStore {
  Accounts : gmap string Account;
  SetupKeyId2AccountId : gmap string string;
  PeerKeyId2AccountId : gmap string string;
  UserId2AccountId : gmap string string;
  PrivateDomain2AccountId : gmap string string;
  PeerKeyId2SrcRulesId : gmap string (gmap string unit);
  PeerKeyId2DstRulesId : gmap string (gmap string unit) }.

Definition emptyStore : FileStore := mkStore ∅ ∅ ∅ ∅ ∅ ∅ ∅.

Definition set_Accounts v s := mkStore v (SetupKeyId2AccountId s) (PeerKeyId2AccountId s) (UserId2AccountId s) (PrivateDomain2AccountId s) (PeerKeyId2SrcRulesId s) (PeerKeyId2DstRulesId s).
Definition set_SetupKeyIdx v s := mkStore (Accounts s) v (PeerKeyId2AccountId s) (UserId2AccountId s) (PrivateDomain2AccountId s) (PeerKeyId2SrcRulesId s) (PeerKeyId2DstRulesId s).
Definition set_PeerIdx v s := mkStore (Accounts s) (SetupKeyId2AccountId s) v (UserId2AccountId s) (PrivateDomain2AccountId s) (PeerKeyId2SrcRulesId s) (PeerKeyId2DstRulesId s).
Definition set_UserIdx v s := mkStore (Accounts s) (SetupKeyId2AccountId s) (PeerKeyId2AccountId s) v (PrivateDomain2AccountId s) (PeerKeyId2SrcRulesId s) (PeerKeyId2DstRulesId s).
Definition set_DomainIdx v s := mkStore (Accounts s) (SetupKeyId2AccountId s) (PeerKeyId2AccountId s) (UserId2AccountId s) v (PeerKeyId2SrcRulesId s) (PeerKeyId2DstRulesId s).
Definition set_SrcRules v s := mkStore (Accounts s) (SetupKeyId2AccountId s) (PeerKeyId2AccountId s) (UserId2AccountId s) (PrivateDomain2AccountId s) v (PeerKeyId2DstRulesId s).
Definition set_DstRules v s := mkStore (Accounts s) (SetupKeyId2AccountId s) (PeerKeyId2AccountId s) (UserId2AccountId s) (PrivateDomain2AccountId s) (PeerKeyId2SrcRulesId s) v.

(** updatechannel.go: a buffered Go channel of capacity [UpdateChannelCap],
    referred to by its identity. *)
Record Chan := mkChan { Chan_Buf : list SyncResponse; Chan_Closed : bool }.

Record PeersUpdateManager := mkUpd {
  Upd_Chans : gmap nat Chan;
  Upd_Next : nat;
  Upd_PeerChannels : gmap string nat }.

(** turncredentials.go: the cancel channels, by identity; closed or not. *)
Record TurnManager := mkTurn {
  Turn_Chans : gmap nat bool;
  Turn_Next : nat;
  Turn_CancelMap : gmap string nat }.

(** The state a call to the management service runs in: the store, the
    content of the store file, the channels, the record of metadata pushed to
    the identity provider, and the number of external calls made so far. *)
Record World := mkWorld {
  World_Store : FileStore;
  World_Disk : option (gmap string Account);
  World_Upd : PeersUpdateManager;
  World_Turn : TurnManager;
  World_Idp : list (string * string);
  World_Tick : nat }.

Definition set_Store v w := mkWorld v (World_Disk w) (World_Upd w) (World_Turn w) (World_Idp w) (World_Tick w).
Definition set_Disk v w := mkWorld (World_Store w) v (World_Upd w) (World_Turn w) (World_Idp w) (World_Tick w).
Definition set_Upd v w := mkWorld (World_Store w) (World_Disk w) v (World_Turn w) (World_Idp w) (World_Tick w).
Definition set_Turn v w := mkWorld (World_Store w) (World_Disk w) (World_Upd w) v (World_Idp w) (World_Tick w).
Definition set_Idp v w := mkWorld (World_Store w) (World_Disk w) (World_Upd w) (World_Turn w) v (World_Tick w).
Definition set_Tick v w := mkWorld (World_Store w) (World_Disk w) (World_Upd w) (World_Turn w) (World_Idp w) v.

Definition emptyWorld : World :=
  mkWorld emptyStore None (mkUpd ∅ 0 ∅) (mkTurn ∅ 0 ∅) [] 0.

Abbreviation MW := (M World).

(* ------------------------------------------------------------------ *)
(** ** The runtime *)

(** Everything outside the process, as functions of the number of external
    calls made so far; a Go map is iterated in an arbitrary order, which may
    differ from one iteration to the next. *)
Class Runtime := {
  rt_now : nat → Z;                      (** time.Now, nanoseconds *)
  rt_xid : nat → string;                 (** xid.New().String() *)
  rt_uuid : nat → string;                (** uuid.New().String() *)
  rt_intn : nat → nat → nat;             (** rand.Intn *)
  rt_intn_lt : ∀ t n, 0 < n → rt_intn t n < n;
  rt_range : ∀ A, nat → gmap string A → list (string * A);
  rt_range_perm : ∀ A t (m : gmap string A), rt_range A t m ≡ₚ map_to_list m;
  rt_os : nat → option error;            (** outcome of an os call *)
  rt_subnets : IP → Z → Z → list IPNet;  (** iplib: NewNet4(ip, n).Subnet(m) *)
  rt_idp : option IdpManager             (** am.idpManager, nil or not *)
}.

Section runtime.
Context `{Runtime}.

Definition tick : MW nat := λ w, (Ok (World_Tick w), set_Tick (S (World_Tick w)) w).

Definition time_Now : MW Z := t ← tick; mret (rt_now t).
Definition xid_New : MW string := t ← tick; mret (rt_xid t).
Definition uuid_New : MW string := t ← tick; mret (rt_uuid t).
Definition os_call : MW unit :=
  t ← tick; match rt_os t with None => mret tt | Some e => fail e end.

(** [rand.Intn(n)] panics when [n] is not positive. *)
Definition rand_Intn (n : nat) : MW nat :=
  t ← tick;
  match n with O => panic "invalid argument to Intn" | _ => mret (rt_intn t n) end.

Definition range {A} (m : gmap string A) : MW (list (string * A)) :=
  t ← tick; mret (rt_range A t m).

Lemma wp_time_Now (Q : Res Z → World → Prop) w :
  (∀ t n, Q (Ok t) (set_Tick n w)) → wp time_Now Q w.
Proof. intros HQ. apply HQ. Qed.

Lemma wp_xid_New (Q : Res string → World → Prop) w :
  (∀ x n, Q (Ok x) (set_Tick n w)) → wp xid_New Q w.
Proof. intros HQ. apply HQ. Qed.

Lemma wp_uuid_New (Q : Res string → World → Prop) w :
  (∀ x n, Q (Ok x) (set_Tick n w)) → wp uuid_New Q w.
Proof. intros HQ. apply HQ. Qed.

Lemma wp_rand_Intn k (Q : Res nat → World → Prop) w :
  0 < k → (∀ i n, i < k → Q (Ok i) (set_Tick n w)) → wp (rand_Intn k) Q w.
Proof. destruct k; [lia|]. intros Hk HQ. apply HQ, rt_intn_lt, Hk. Qed.

Lemma wp_range {A} (m : gmap string A) (Q : Res (list (string * A)) → World → Prop) w :
  (∀ l n, (∀ k v, (k, v) ∈ l ↔ m !! k = Some v) → l ≡ₚ map_to_list m →
     Q (Ok l) (set_Tick n w)) →
  wp (range m) Q w.
Proof.
  intros HQ. apply HQ; [|apply rt_range_perm].
  intros k v. rewrite rt_range_perm. apply elem_of_map_to_list.
Qed.

Lemma wp_os_call (Q : Res unit → World → Prop) w :
  (∀ n, Q (Ok tt) (set_Tick n w)) → (∀ e n, Q (Err e) (set_Tick n w)) →
  wp os_call Q w.
Proof.
  intros H1 H2. unfold os_call. apply wp_bind. unfold tick, wp; simpl.
  destruct (rt_os (World_Tick w)); [apply H2|apply H1].
Qed.

Lemma elem_of_rt_range {A} t (m : gmap string A) k v :
  (k, v) ∈ rt_range A t m ↔ m !! k = Some v.
Proof. rewrite rt_range_perm. apply elem_of_map_to_list. Qed.

Lemma rt_range_fst {A} t (m : gmap string A) k :
  k ∈ (rt_range A t m).*1 ↔ is_Some (m !! k).
Proof.
  rewrite list_elem_of_fmap. split.
  - intros ([k' v] & -> & Hv). apply elem_of_rt_range in Hv. by eexists.
  - intros [v Hv]. exists (k, v). by rewrite elem_of_rt_range.
Qed.

Lemma NoDup_rt_range {A} t (m : gmap string A) : NoDup (rt_range A t m).
Proof. rewrite rt_range_perm. apply NoDup_map_to_list. Qed.
End runtime.

(** Symbolic execution of the calls to the runtime. *)
Ltac rt_step :=
  lazymatch goal with
  | |- wp time_Now _ _ => apply wp_time_Now; intros ? ?
  | |- wp xid_New _ _ => apply wp_xid_New; intros ? ?
  | |- wp uuid_New _ _ => apply wp_uuid_New; intros ? ?
  | |- wp (range _) _ _ => apply wp_range; intros ? ? ? ?
  | |- wp os_call _ _ => apply wp_os_call; [intros ?|intros ? ?]
  | _ => wp_step
  end; simpl.
Ltac rt_go := repeat rt_step.

(** External calls change nothing of the world but the tick. *)
Definition same_state (w w' : World) : Prop :=
  World_Store w' = World_Store w ∧ World_Disk w' = World_Disk w ∧
  World_Upd w' = World_Upd w ∧ World_Turn w' = World_Turn w ∧
  World_Idp w' = World_Idp w.

#[export] Instance same_state_preorder : PreOrder same_state.
Proof.
  split; [done|].
  intros w1 w2 w3 (?&?&?&?&?) (?&?&?&?&?). repeat split; congruence.
Qed.

Lemma same_state_tick n w : same_state w (set_Tick n w).
Proof. done. Qed.
#[export] Hint Resolve same_state_tick : wp.

(** ** A canonical runtime, for concrete evaluations *)

(** Identifiers are numbered, the clock is the tick, map iteration is in the
    order of the map's own enumeration, files are always written. *)
Program Definition demo_runtime : Runtime := {|
  rt_now t := Z.of_nat t;
  rt_xid t := "xid-" +:+ pretty t;
  rt_uuid t := "uuid-" +:+ pretty t;
  rt_intn t n := 0;
  rt_range A t m := map_to_list m;
  rt_os t := None;
  rt_subnets ip n m := [mkIPNet [100; 64; 0; 0]%Z [255; 255; 0; 0]%Z];
  rt_idp := None
|}.
Next Obligation. done. Qed.
Next Obligation. done. Qed.
