(* ===== verification/Network.v ===== *)
(** * Network: addresses and serial numbers (management/server/network.go)

    IPv4 addresses as byte lists, the increment loop [incIP], the enumeration
    loop [generateIPs] with its fuel, the allocation of a peer address, and
    the serial counter of a network.  The enumeration is proved equal to the
    integer interval of the subnet, filtered. *)

From S2P Require Import Prelude GoLib Model.

#[local] Open Scope Z_scope.

(* ------------------------------------------------------------------ *)
(** ** Operations *)

(** [incIP]: from the last byte to the first, [ip[j]++] on a byte, stopping
    as soon as the byte did not wrap to 0. *)
Fixpoint inc_bytes (rev : list Z) : list Z :=
  match rev with
  | [] => []
  | b :: r =>
      let b' := (b + 1) mod 256 in
      if 0 <? b' then b' :: r else b' :: inc_bytes r
  end.

Definition incIP (ip : IP) : IP := reverse (inc_bytes (reverse ip)).

(** The test of the loop of [generateIPs]: not excluded, last byte not 0. *)
Definition ip_usable (exclusions : gmap string unit) (ip : IP) : bool :=
  bool_decide (exclusions !! IP_String ip = None) && bool_decide (ip !! 3%nat ≠ Some 0).

(** The loop of [generateIPs]; [None] when the fuel runs out. *)
Fixpoint generate_loop (fuel : nat) (ipNet : IPNet)
    (exclusions : gmap string unit) (ip : IP) : option (list IP) :=
  match fuel with
  | O => None
  | S fuel' =>
      if IPNet_Contains ipNet ip then
        rest ← generate_loop fuel' ipNet exclusions (incIP ip);
        Some (if ip_usable exclusions ip then ip :: rest else rest)
      else Some []
  end.

(** The value of an address as an integer, most significant byte first. *)
Definition ip_Z (ip : IP) : Z := foldl (λ acc b, acc * 256 + b) 0 ip.

(** One iteration per address of the network and a last failing test. *)
Definition loop_fuel (ipNet : IPNet) : nat :=
  S (Z.to_nat (2 ^ 32 - ip_Z (IPNet_Mask ipNet))).

(** The slicing after the loop: the first and the last element go, unless
    there are fewer than two. *)
Definition drop_ends (ips : list IP) : list IP :=
  if decide (length ips < 2)%nat then ips
  else take (length ips - 2)%nat (drop 1 ips).

Definition generateIPs (ipNet : IPNet) (exclusions : gmap string unit)
    : option (list IP * nat) :=
  ips ← generate_loop (loop_fuel ipNet) ipNet exclusions
          (IP_Mask (IPNet_IP ipNet) (IPNet_Mask ipNet));
  Some (drop_ends ips, length (drop_ends ips)).

(** The exclusion map of [AllocatePeerIP]. *)
Definition takenIPMap (ipNet : IPNet) (takenIps : list IP) : gmap string unit :=
  foldl (λ m ip, <[IP_String ip := tt]> m)
        {[IP_String (IPNet_IP ipNet) := tt]} takenIps.

Definition errOutOfIPs : error :=
  Status OutOfRange "failed allocating new IP for the ipNet - network is out of IPs".

Definition AllocatePeerIP `{Runtime} (ipNet : IPNet) (takenIps : list IP) : MW IP :=
  match generateIPs ipNet (takenIPMap ipNet takenIps) with
  | None => blocked
  | Some (ips, _) =>
      if decide (length ips = 0%nat) then fail errOutOfIPs
      else
        _ ← time_Now;
        i ← rand_Intn (length ips);
        deref (ips !! i)
  end.

Definition NewNetwork `{Runtime} : MW Network :=
  let sub := rt_subnets [100; 64; 0; 0] 10 16 in
  _ ← time_Now;
  intn ← rand_Intn (length sub);
  id ← xid_New;
  net ← deref (sub !! intn);
  mret (mkNetwork id net "" 0).

(** [IncSerial], [CurrentSerial], [Copy]. *)
Definition IncSerial (n : Network) : Network :=
  mkNetwork (Network_Id n) (Network_Net n) (Network_Dns n)
            (wrap_u64 (Network_Serial n + 1)).
Definition CurrentSerial (n : Network) : Z := Network_Serial n.
Definition Network_Copy (n : Network) : Network :=
  mkNetwork (Network_Id n) (Network_Net n) (Network_Dns n) (Network_Serial n).

(* ------------------------------------------------------------------ *)
(** ** Addresses as integers *)

Definition Z_ip (z : Z) : IP :=
  [z / 2 ^ 24 mod 256; z / 2 ^ 16 mod 256; z / 2 ^ 8 mod 256; z mod 256].

Definition valid_ip (ip : IP) : Prop :=
  length ip = 4%nat ∧ Forall (λ b, 0 ≤ b < 256) ip.

(** The mask of a network with [h] host bits. *)
Definition prefix_mask (h : Z) : list Z := Z_ip (2 ^ 32 - 2 ^ h).

Definition subnet (n : IPNet) (h : Z) : Prop :=
  valid_ip (IPNet_IP n) ∧ IPNet_Mask n = prefix_mask h ∧ 0 ≤ h < 32.

Lemma valid_ip_inv ip :
  valid_ip ip → ∃ a b c d, ip = [a; b; c; d] ∧
    0 ≤ a < 256 ∧ 0 ≤ b < 256 ∧ 0 ≤ c < 256 ∧ 0 ≤ d < 256.
Proof.
  intros [Hlen Hall].
  destruct ip as [|a [|b [|c [|d [|]]]]]; simpl in Hlen; try lia.
  rewrite !Forall_cons in Hall. destruct Hall as (?&?&?&?&?). by exists a, b, c, d.
Qed.

#[local] Ltac Zify.zify_post_hook ::= Z.div_mod_to_equations.

Lemma Z_ip_valid z : valid_ip (Z_ip z).
Proof. split; [done|]. repeat constructor; lia. Qed.

Lemma ip_Z_range ip : valid_ip ip → 0 ≤ ip_Z ip < 2 ^ 32.
Proof.
  intros (a & b & c & d & -> & ?)%valid_ip_inv. unfold ip_Z; simpl. lia.
Qed.

Lemma Z_ip_Z ip : valid_ip ip → Z_ip (ip_Z ip) = ip.
Proof.
  intros (a & b & c & d & -> & ?)%valid_ip_inv.
  unfold Z_ip, ip_Z; cbn [foldl]. repeat (f_equal; [lia|]). f_equal; lia.
Qed.

Lemma ip_Z_ip z : 0 ≤ z < 2 ^ 32 → ip_Z (Z_ip z) = z.
Proof. intros ?. unfold Z_ip, ip_Z; cbn [foldl]. lia. Qed.

(** The increment loop is addition of one modulo 2^32. *)
Lemma incIP_Z ip :
  valid_ip ip → incIP ip = Z_ip ((ip_Z ip + 1) mod 2 ^ 32).
Proof.
  intros (a & b & c & d & -> & ?)%valid_ip_inv.
  unfold incIP, reverse, Z_ip, ip_Z; cbn [rev_append inc_bytes foldl].
  repeat case_match; cbn [rev_append inc_bytes];
    repeat (f_equal; [lia|]); f_equal; lia.
Qed.

(** Masking one byte clears its low bits. *)
Lemma land_mask k b :
  0 ≤ k ≤ 8 → 0 ≤ b < 256 → Z.land b (256 - 2 ^ k) = b / 2 ^ k * 2 ^ k.
Proof.
  intros Hk Hb.
  assert (forallb (λ k, forallb (λ b,
    Z.land (Z.of_nat b) (256 - 2 ^ Z.of_nat k)
      =? Z.of_nat b / 2 ^ Z.of_nat k * 2 ^ Z.of_nat k) (seq 0 256)) (seq 0 9) = true)
    as Hall by (vm_compute; reflexivity).
  rewrite forallb_forall in Hall.
  specialize (Hall (Z.to_nat k)). rewrite in_seq, forallb_forall in Hall.
  specialize (Hall ltac:(lia) (Z.to_nat b)). rewrite in_seq in Hall.
  rewrite !Z2Nat.id in Hall by lia. apply Z.eqb_eq, Hall. lia.
Qed.

(** Byte [i] (from the left) of a mask with [h] host bits. *)
Definition host_bits (h : Z) (i : Z) : Z := Z.max 0 (Z.min 8 (h - 8 * (3 - i))).

Lemma prefix_mask_bytes h :
  0 ≤ h < 32 →
  prefix_mask h = [256 - 2 ^ host_bits h 0; 256 - 2 ^ host_bits h 1;
                   256 - 2 ^ host_bits h 2; 256 - 2 ^ host_bits h 3].
Proof.
  intros Hh.
  assert (forallb (λ h, bool_decide (prefix_mask (Z.of_nat h) =
    [256 - 2 ^ host_bits (Z.of_nat h) 0; 256 - 2 ^ host_bits (Z.of_nat h) 1;
     256 - 2 ^ host_bits (Z.of_nat h) 2; 256 - 2 ^ host_bits (Z.of_nat h) 3]))
    (seq 0 32) = true) as Hall by (vm_compute; reflexivity).
  rewrite forallb_forall in Hall. specialize (Hall (Z.to_nat h)).
  rewrite in_seq, !Z2Nat.id in Hall by lia.
  eapply bool_decide_eq_true, Hall. lia.
Qed.

(** Clearing the low [h] bits of a number, seen at its byte [i]. *)
Lemma byte_of_masked x h i :
  0 ≤ h → 0 ≤ i ≤ 3 →
  (x / 2 ^ h * 2 ^ h) / 2 ^ (8 * (3 - i)) mod 256
  = (x / 2 ^ (8 * (3 - i)) mod 256) / 2 ^ host_bits h i * 2 ^ host_bits h i.
Proof.
  intros Hh Hi. assert (0 ≤ host_bits h i ≤ 8) by (unfold host_bits; lia).
  rewrite <-!Z.shiftr_div_pow2, <-!Z.shiftl_mul_pow2 by lia.
  change 256 with (2 ^ 8). rewrite <-!Z.land_ones by lia.
  apply Z.bits_inj'. intros j Hj.
  rewrite Z.land_spec, Z.shiftr_spec, Z.testbit_ones_nonneg by lia.
  rewrite !Z.shiftl_spec by lia.
  destruct (Z.ltb_spec j 8); [rewrite andb_true_r|rewrite andb_false_r].
  - destruct (decide (j < host_bits h i)).
    + rewrite (Z.testbit_neg_r _ (j - host_bits h i)) by lia.
      apply Z.testbit_neg_r. unfold host_bits in *. lia.
    + rewrite Z.shiftr_spec, Z.shiftr_spec, Z.land_spec, Z.shiftr_spec,
        Z.testbit_ones_nonneg by (unfold host_bits in *; lia).
      destruct (Z.ltb_spec (j - host_bits h i + host_bits h i) 8); [|lia].
      rewrite andb_true_r. f_equal. lia.
  - destruct (decide (j < host_bits h i)); [lia|].
    rewrite Z.shiftr_spec, Z.land_spec, Z.testbit_ones_nonneg by lia.
    destruct (Z.ltb_spec (j - host_bits h i + host_bits h i) 8); [lia|].
    by rewrite andb_false_r.
Qed.

(** [IP.Mask] rounds an address down to the start of its block. *)
Lemma IP_Mask_value ip h :
  valid_ip ip → 0 ≤ h < 32 →
  IP_Mask ip (prefix_mask h) = Z_ip (ip_Z ip / 2 ^ h * 2 ^ h).
Proof.
  intros Hip Hh. rewrite <-(Z_ip_Z ip Hip) at 1.
  rewrite prefix_mask_bytes by done. unfold IP_Mask, Z_ip at 1; cbn [zip_with].
  rewrite !land_mask by (unfold host_bits; lia). unfold Z_ip.
  pose proof (byte_of_masked (ip_Z ip) h) as Hbyte.
  change 24 with (8 * (3 - 0)). change 16 with (8 * (3 - 1)).
  change (2 ^ 8) with (2 ^ (8 * (3 - 2))). rewrite !Hbyte by lia.
  specialize (Hbyte 3). rewrite Z.mul_0_r, Z.pow_0_r, !Z.div_1_r in Hbyte.
  by rewrite Hbyte by lia.
Qed.

Lemma Z_ip_inj x y :
  0 ≤ x < 2 ^ 32 → 0 ≤ y < 2 ^ 32 → Z_ip x = Z_ip y → x = y.
Proof.
  intros Hx Hy Heq. by rewrite <-(ip_Z_ip x), <-(ip_Z_ip y), Heq by done.
Qed.

Lemma block_base_range x h :
  0 ≤ h < 32 → 0 ≤ x < 2 ^ 32 →
  0 ≤ x / 2 ^ h * 2 ^ h ≤ x ∧ x < x / 2 ^ h * 2 ^ h + 2 ^ h ∧
  x / 2 ^ h * 2 ^ h + 2 ^ h ≤ 2 ^ 32.
Proof.
  intros Hh Hx.
  assert (0 < 2 ^ h) by (apply Z.pow_pos_nonneg; lia).
  pose proof (Z.div_mod x (2 ^ h) ltac:(lia)).
  pose proof (Z.mod_pos_bound x (2 ^ h) ltac:(lia)).
  assert (0 ≤ x / 2 ^ h) by (apply Z.div_pos; lia).
  replace (2 ^ 32) with (2 ^ (32 - h) * 2 ^ h) in *
    by (rewrite <-Z.pow_add_r by lia; f_equal; lia).
  assert (x / 2 ^ h < 2 ^ (32 - h)) by (apply Z.div_lt_upper_bound; lia).
  nia.
Qed.

(** [IPNet.Contains] is membership in the block of the subnet. *)
Lemma IPNet_Contains_block n h ip :
  subnet n h → valid_ip ip →
  IPNet_Contains n ip = bool_decide (ip_Z ip / 2 ^ h = ip_Z (IPNet_IP n) / 2 ^ h).
Proof.
  intros (Hn & Hmask & Hh) Hip. unfold IPNet_Contains.
  rewrite bool_decide_eq_true_2 by (destruct Hn, Hip; congruence).
  rewrite andb_true_l, Hmask, !IP_Mask_value by done.
  pose proof (ip_Z_range _ Hn). pose proof (ip_Z_range _ Hip).
  apply bool_decide_ext. split; [|by intros ->].
  intros Heq%Z_ip_inj.
  - assert (2 ^ h ≠ 0) by (apply Z.pow_nonzero; lia). symmetry. by eapply Z.mul_reg_r.
  - pose proof (block_base_range (ip_Z (IPNet_IP n)) h). lia.
  - pose proof (block_base_range (ip_Z ip) h). lia.
Qed.

(** The first address of a subnet and the reference enumeration of it. *)
Definition subnet_base (n : IPNet) (h : Z) : Z := ip_Z (IPNet_IP n) / 2 ^ h * 2 ^ h.
Definition subnet_ips (n : IPNet) (h : Z) : list IP := Z_ip <$> seqZ (subnet_base n h) (2 ^ h).
Definition free_ips (n : IPNet) (h : Z) (excl : gmap string unit) : list IP :=
  filter (λ ip, ip_usable excl ip) (subnet_ips n h).

Section loop.
Context (n : IPNet) (h : Z) (Hn : subnet n h).

Lemma subnet_base_range :
  0 ≤ subnet_base n h ∧ 0 < 2 ^ h ∧ subnet_base n h + 2 ^ h ≤ 2 ^ 32.
Proof.
  destruct Hn as (Hip & _ & Hh). pose proof (ip_Z_range _ Hip) as Hr.
  pose proof (block_base_range _ h Hh Hr).
  assert (0 < 2 ^ h) by (apply Z.pow_pos_nonneg; lia). unfold subnet_base. lia.
Qed.

(** Which of the addresses the loop reaches are in the network. *)
Lemma loop_contains j :
  0 ≤ j ≤ 2 ^ h →
  IPNet_Contains n (Z_ip ((subnet_base n h + j) mod 2 ^ 32)) = bool_decide (j < 2 ^ h).
Proof.
  intros Hj. pose proof subnet_base_range as Hb.
  rewrite IPNet_Contains_block with (h := h) by (done || apply Z_ip_valid).
  rewrite ip_Z_ip by (apply Z.mod_pos_bound; lia).
  apply bool_decide_ext. unfold subnet_base in *.
  set (q := ip_Z (IPNet_IP n) / 2 ^ h) in *.
  destruct (decide (q * 2 ^ h + j = 2 ^ 32)) as [Heq|Hne].
  - rewrite Heq, Z.mod_same, Z.div_0_l by lia.
    split; [|lia]. intros Hq. destruct Hn as (_ & _ & Hh).
    assert (2 ^ h < 2 ^ 32) by (apply Z.pow_lt_mono_r; lia). nia.
  - rewrite Z.mod_small by lia.
    rewrite Z.add_comm, Z.div_add by lia.
    assert (j / 2 ^ h = 0 ↔ j < 2 ^ h) as Hq
      by (rewrite Z.div_small_iff by lia; lia).
    rewrite <-Hq. clear. generalize (j / 2 ^ h). intros; lia.
Qed.

Lemma generate_loop_from excl (k : nat) (j : Z) (fuel : nat) :
  2 ^ h - j = Z.of_nat k → 0 ≤ j → (k < fuel)%nat →
  generate_loop fuel n excl (Z_ip ((subnet_base n h + j) mod 2 ^ 32))
  = Some (filter (λ ip, ip_usable excl ip)
            (Z_ip <$> seqZ (subnet_base n h + j) (Z.of_nat k))).
Proof.
  pose proof subnet_base_range as Hb.
  revert j fuel. induction k as [|k IH]; intros j fuel Hk Hj Hfuel.
  - destruct fuel as [|fuel]; [lia|]. cbn [generate_loop].
    rewrite loop_contains, bool_decide_eq_false_2 by lia. done.
  - destruct fuel as [|fuel]; [lia|]. cbn [generate_loop].
    rewrite loop_contains, bool_decide_eq_true_2 by lia.
    rewrite incIP_Z by apply Z_ip_valid.
    rewrite ip_Z_ip by (apply Z.mod_pos_bound; lia).
    rewrite Z.add_mod_idemp_l by lia. rewrite <-Z.add_assoc.
    rewrite IH by lia. cbn [mbind option_bind].
    rewrite (seqZ_cons _ (Z.of_nat (S k))) by lia. rewrite fmap_cons, filter_cons.
    rewrite (Z.mod_small (subnet_base n h + j)) by lia.
    replace (Z.succ (subnet_base n h + j)) with (subnet_base n h + (j + 1)) by lia.
    replace (Z.pred (Z.of_nat (S k))) with (Z.of_nat k) by lia.
    by destruct (ip_usable excl _).
Qed.
End loop.

(** The whole loop of [generateIPs] ends, after [2 ^ h] iterations, with the
    usable addresses of the subnet in increasing order. *)
Lemma generate_loop_all n h excl :
  subnet n h →
  generate_loop (loop_fuel n) n excl (IP_Mask (IPNet_IP n) (IPNet_Mask n))
  = Some (free_ips n h excl).
Proof.
  intros Hn. pose proof (subnet_base_range n h Hn) as Hb.
  destruct Hn as (Hip & Hmask & Hh) eqn:E. unfold loop_fuel.
  rewrite Hmask, IP_Mask_value by done. unfold prefix_mask.
  assert (2 ^ h < 2 ^ 32) by (apply Z.pow_lt_mono_r; lia).
  rewrite ip_Z_ip by lia. fold (subnet_base n h).
  replace (subnet_base n h) with ((subnet_base n h + 0) mod 2 ^ 32)
    by (rewrite Z.add_0_r; apply Z.mod_small; lia).
  rewrite (generate_loop_from n h Hn excl (Z.to_nat (2 ^ h))) by lia.
  rewrite Z2Nat.id, Z.add_0_r by lia. done.
Qed.

(* ------------------------------------------------------------------ *)
(** ** Facts about the enumeration *)

Lemma generateIPs_eq n h excl :
  subnet n h →
  generateIPs n excl = Some (drop_ends (free_ips n h excl), length (drop_ends (free_ips n h excl))).
Proof. intros Hn. unfold generateIPs. by rewrite (generate_loop_all n h excl Hn). Qed.

Lemma drop_ends_length ips :
  length (drop_ends ips) = 0%nat ↔ length ips = 0%nat ∨ length ips = 2%nat.
Proof. unfold drop_ends. case_decide; rewrite ?length_take, ?length_drop; lia. Qed.

Lemma elem_of_drop_ends ip ips : ip ∈ drop_ends ips → ip ∈ ips.
Proof.
  unfold drop_ends. case_decide; [done|].
  intros Hin%(subseteq_take)%(subseteq_drop); [done].
Qed.

Lemma subnet_ips_spec n h ip :
  subnet n h →
  ip ∈ subnet_ips n h ↔ valid_ip ip ∧ IPNet_Contains n ip = true.
Proof.
  intros Hn. pose proof (subnet_base_range n h Hn) as Hb.
  unfold subnet_ips. rewrite list_elem_of_fmap. setoid_rewrite elem_of_seqZ. split.
  - intros (z & -> & Hz). split; [apply Z_ip_valid|].
    rewrite <-(Z.mod_small z (2 ^ 32)) by lia.
    replace z with (subnet_base n h + (z - subnet_base n h)) by lia.
    rewrite (loop_contains n h Hn) by lia. apply bool_decide_eq_true_2. lia.
  - intros [Hip Hc]. exists (ip_Z ip). split; [by rewrite Z_ip_Z|].
    rewrite (IPNet_Contains_block n h) in Hc by done. apply bool_decide_eq_true in Hc.
    pose proof (ip_Z_range _ Hip). destruct Hn as (Hipn & _ & Hh).
    pose proof (block_base_range (ip_Z ip) h). unfold subnet_base. rewrite <-Hc. lia.
Qed.

Lemma elem_of_free_ips n h excl ip :
  subnet n h →
  ip ∈ free_ips n h excl ↔
    valid_ip ip ∧ IPNet_Contains n ip = true ∧
    excl !! IP_String ip = None ∧ ip !! 3%nat ≠ Some 0.
Proof.
  intros Hn. unfold free_ips. rewrite list_elem_of_filter, (subnet_ips_spec n h) by done.
  unfold ip_usable. rewrite andb_True, !bool_decide_spec. naive_solver.
Qed.

Lemma NoDup_free_ips n h excl : subnet n h → NoDup (free_ips n h excl).
Proof.
  intros Hn. pose proof (subnet_base_range n h Hn) as Hb.
  apply NoDup_filter. unfold subnet_ips. apply NoDup_fmap_2_strong; [|apply NoDup_seqZ].
  intros x y Hx%elem_of_seqZ Hy%elem_of_seqZ. apply Z_ip_inj; lia.
Qed.

Lemma takenIPMap_lookup n taken s :
  takenIPMap n taken !! s = None ↔
  s ≠ IP_String (IPNet_IP n) ∧ s ∉ IP_String <$> taken.
Proof.
  unfold takenIPMap.
  assert (∀ m : gmap string unit,
    foldl (λ m ip, <[IP_String ip := tt]> m) m taken !! s = None ↔
    m !! s = None ∧ s ∉ IP_String <$> taken) as Hfold.
  { induction taken as [|ip taken IH]; intros m; simpl; [set_solver|].
    rewrite IH, lookup_insert_None. set_solver. }
  rewrite Hfold, lookup_singleton_None. naive_solver.
Qed.

(* ------------------------------------------------------------------ *)
(** ** Allocation *)

Section allocation.
Context `{Runtime}.

Definition free_for (n : IPNet) (h : Z) (taken : list IP) : list IP :=
  free_ips n h (takenIPMap n taken).

(** Everything [AllocatePeerIP] can do on a subnet. *)
Lemma AllocatePeerIP_run n h taken w :
  subnet n h →
  wp (AllocatePeerIP n taken) (λ r w', same_state w w' ∧
    match r with
    | Ok ip => ip ∈ drop_ends (free_for n h taken)
    | Err e => e = errOutOfIPs ∧ length (drop_ends (free_for n h taken)) = 0%nat
    | _ => False
    end) w.
Proof.
  intros Hn. unfold AllocatePeerIP. rewrite (generateIPs_eq n h _ Hn).
  fold (free_for n h taken). set (ips := drop_ends (free_for n h taken)).
  case_decide; [by wp_go|].
  rt_go. apply wp_rand_Intn; [lia|]. intros i m Hi. simpl. wp_go; [|].
  - split; [done|]. by eapply list_elem_of_lookup_2.
  - by apply lookup_ge_None in H1; lia.
Qed.
Lemma AllocatePeerIP_allocated n taken w :
  wp (AllocatePeerIP n taken) (λ r _, ∀ ip, r = Ok ip → ∀ h, subnet n h → ip ∈ drop_ends (free_for n h taken)) w.
Proof.
  unfold wp. destruct (AllocatePeerIP n taken w) as [r w'] eqn:E. simpl. intros ip -> h Hn.
  pose proof (AllocatePeerIP_run n h taken w Hn) as Hw. apply (wp_run _ _ _ _ _ E) in Hw. apply Hw.
Qed.
End allocation.

Lemma head_not_in_drop_ends (x : IP) l :
  NoDup (x :: l) → l ≠ [] → x ∉ drop_ends (x :: l).
Proof.
  intros [Hx _]%NoDup_cons Hl. unfold drop_ends.
  rewrite decide_False by (destruct l; simpl; [done|lia]). cbn [drop].
  intros Hin%(subseteq_take). done.
Qed.

(** The address of a subnet with all host bits one, its broadcast address, and
    the addresses for peers. *)
Definition all_ones (n : IPNet) (h : Z) : IP := Z_ip (subnet_base n h + 2 ^ h - 1).
Definition host_address (n : IPNet) (h : Z) (ip : IP) : Prop :=
  valid_ip ip ∧ IPNet_Contains n ip = true ∧ ip ≠ IPNet_IP n ∧ ip ≠ all_ones n h ∧ ip !! 3%nat ≠ Some 0.

Lemma last_not_in_drop_ends (x : IP) l : NoDup (l ++ [x]) → l ≠ [] → x ∉ drop_ends (l ++ [x]).
Proof.
  intros [_ [Hx _]]%NoDup_app Hl. destruct l as [|y l]; [done|]. unfold drop_ends. simpl.
  rewrite decide_False by (rewrite length_app; simpl; lia).
  replace (_ - _)%nat with (length l) by (rewrite length_app; simpl; lia).
  unfold skipn. rewrite take_app_length. intros Hin. by apply (Hx x); [right|apply list_elem_of_here].
Qed.

(** The broadcast address is the last free one, if it is free. *)
Lemma free_for_ends n h taken :
  subnet n h → all_ones n h ∈ free_for n h taken → ∃ l, free_for n h taken = l ++ [all_ones n h].
Proof.
  intros Hn. pose proof (subnet_base_range n h Hn) as Hb.
  assert (subnet_ips n h = (Z_ip <$> seqZ (subnet_base n h) (2 ^ h - 1)) ++ [all_ones n h]) as Hips.
  { unfold subnet_ips. assert (seqZ (subnet_base n h) (2 ^ h) = seqZ (subnet_base n h) (2 ^ h - 1 + 1)) as -> by (f_equal; lia).
    rewrite seqZ_app by lia. rewrite fmap_app. f_equal. rewrite seqZ_cons, seqZ_nil by lia. unfold all_ones. simpl. do 2 f_equal. lia. }
  unfold free_for, free_ips. rewrite Hips, filter_app. simpl.
  intros Hin. rewrite <-filter_app, <-Hips in Hin. apply list_elem_of_filter in Hin. rewrite filter_cons_True by apply Hin. by eexists.
Qed.

Lemma allocated_not_broadcast n h taken ip :
  subnet n h → ip ∈ drop_ends (free_for n h taken) → ip = all_ones n h → free_for n h taken = [ip].
Proof.
  intros Hn Hin ->. pose proof (elem_of_drop_ends _ _ Hin) as [l Hl]%free_for_ends; [|done].
  destruct l as [|x l]; [done|]. rewrite Hl in Hin. exfalso.
  apply (last_not_in_drop_ends (all_ones n h) (x :: l)); [|done|exact Hin]. rewrite <-Hl. by apply NoDup_free_ips.
Qed.

Lemma elem_of_free_for n h taken ip :
  subnet n h → ip ∈ free_for n h taken ↔
    valid_ip ip ∧ IPNet_Contains n ip = true ∧ IP_String ip ≠ IP_String (IPNet_IP n) ∧ (IP_String ip ∉ IP_String <$> taken) ∧ ip !! 3%nat ≠ Some 0.
Proof. intros Hn. unfold free_for. rewrite elem_of_free_ips, takenIPMap_lookup by done. tauto. Qed.

Lemma valid_ip_inj x y : valid_ip x → valid_ip y → IP_String x = IP_String y → x = y.
Proof. intros [? ?] [? ?]. by apply IP_String_inj. Qed.
Lemma not_taken_string x taken :
  valid_ip x → Forall valid_ip taken → (x ∉ taken) → IP_String x ∉ IP_String <$> taken.
Proof.
  intros Hx Hall Hnin (y & E & Hy)%list_elem_of_fmap. apply Hnin. rewrite Forall_forall in Hall.
  apply valid_ip_inj in E as ->; [done..|by apply Hall].
Qed.

(** A network the way accounts have it: its address is the first of at least
    eight. *)
Definition account_net (n : IPNet) (h : Z) : Prop := subnet n h ∧ 3 ≤ h ∧ ip_Z (IPNet_IP n) = subnet_base n h.

Lemma all_ones_free n h taken :
  account_net n h → Forall (host_address n h) taken → all_ones n h ∈ free_for n h taken.
Proof.
  intros (Hn & Hh & Hbase) Htaken. pose proof (subnet_base_range n h Hn) as Hb.
  assert (2 ^ 3 ≤ 2 ^ h) as H8 by (apply Z.pow_le_mono_r; lia). change (2 ^ 3) with 8 in H8.
  assert (valid_ip (all_ones n h)) as Hv by apply Z_ip_valid.
  assert (ip_Z (all_ones n h) = subnet_base n h + 2 ^ h - 1) as HZ by (apply ip_Z_ip; lia).
  apply elem_of_free_for; [done|]. split; [done|]. split; [|split; [|split]].
  - apply (subnet_ips_spec n h); [done|]. apply list_elem_of_fmap. eexists. split; [reflexivity|]. apply elem_of_seqZ. lia.
  - intros E%valid_ip_inj; [|done|apply Hn]. rewrite E in HZ. lia.
  - apply not_taken_string; [done|eapply Forall_impl; [exact Htaken|]; by intros x []|].
    intros Hin. rewrite Forall_forall in Htaken. by destruct (Htaken _ Hin) as (_ & _ & _ & ? & _).
  - unfold all_ones, Z_ip. simpl. intros [= E].
    assert ((subnet_base n h + 2 ^ h - 1) mod 8 = 7) as E8; [|apply (f_equal (λ z, z mod 8)) in E8; revert E E8; clear; intros; lia].
    assert (2 ^ h = 2 ^ (h - 3) * 8) as E2 by (replace 8 with (2 ^ 3) by done; rewrite <-Z.pow_add_r by lia; f_equal; lia).
    unfold subnet_base. rewrite E2. rewrite Z.mul_assoc.
    replace (_ + _ - 1) with (7 + (ip_Z (IPNet_IP n) / (2 ^ (h - 3) * 8) * 2 ^ (h - 3) + 2 ^ (h - 3) - 1) * 8) by lia.
    by rewrite Z_mod_plus_full.
Qed.

Lemma account_net_host n h : account_net n h → ∃ x, host_address n h x.
Proof.
  intros (Hn & Hh & Hbase). pose proof (subnet_base_range n h Hn) as Hb.
  assert (2 ^ 3 ≤ 2 ^ h) as H8 by (apply Z.pow_le_mono_r; lia). change (2 ^ 3) with 8 in H8.
  assert (ip_Z (Z_ip (subnet_base n h + 1)) = subnet_base n h + 1) as HZ by (apply ip_Z_ip; lia).
  exists (Z_ip (subnet_base n h + 1)). split_and!.
  - apply Z_ip_valid.
  - apply (subnet_ips_spec n h); [done|]. apply list_elem_of_fmap. eexists. split; [reflexivity|]. apply elem_of_seqZ. lia.
  - intros E. rewrite E in HZ. lia.
  - intros E%Z_ip_inj; lia.
  - unfold Z_ip. simpl. intros [= E].
    assert ((subnet_base n h + 1) mod 8 = 1) as E8; [|apply (f_equal (λ z, z mod 8)) in E8; revert E E8; clear; intros; lia].
    assert (2 ^ h = 2 ^ (h - 3) * 8) as E2 by (replace 8 with (2 ^ 3) by done; rewrite <-Z.pow_add_r by lia; f_equal; lia).
    unfold subnet_base. rewrite E2, Z.mul_assoc, Z.add_comm. by rewrite Z_mod_plus_full.
Qed.

(** As long as one address for peers is left, one is allocated only when there
    is another. *)
Lemma allocated_host n h taken ip :
  account_net n h → Forall (host_address n h) taken →
  (∃ x, host_address n h x ∧ x ∉ taken) → ip ∈ drop_ends (free_for n h taken) →
  host_address n h ip ∧ (ip ∉ taken) ∧ ∃ x, host_address n h x ∧ x ∉ ip :: taken.
Proof.
  intros Hnet Htaken (x & Hx & Hxt) Hin. pose proof Hnet as (Hn & _ & _).
  assert (Forall valid_ip taken) as Hvalid by (eapply Forall_impl; [exact Htaken|]; by intros y []).
  assert (∀ y, y ∈ free_for n h taken ↔ valid_ip y ∧ IPNet_Contains n y = true ∧ y ≠ IPNet_IP n ∧ (y ∉ taken) ∧ y !! 3%nat ≠ Some 0) as Hfree.
  { intros y. rewrite elem_of_free_for by done. split.
    - intros (Hv & Hc & Hne & Ht & H0). split_and!; try done; [by intros ->|]. intros Hy. by apply Ht, list_elem_of_fmap_2.
    - intros (Hv & Hc & Hne & Ht & H0). split_and!; try done; [|by apply not_taken_string].
      intros E%valid_ip_inj; [done..|apply Hn]. }
  pose proof (all_ones_free n h taken Hnet Htaken) as Hlast.
  assert (free_for n h taken ≠ [ip]) as Hmore.
  { intros E. assert (x ∈ free_for n h taken) as Hxin by (apply Hfree; destruct Hx as (? & ? & ? & _ & ?); done).
    rewrite E in Hxin, Hlast. apply list_elem_of_singleton in Hxin, Hlast. destruct Hx as (_ & _ & _ & Hne & _). congruence. }
  pose proof (proj1 (Hfree ip) (elem_of_drop_ends _ _ Hin)) as (Hv & Hc & Hne & Ht & H0).
  assert (ip ≠ all_ones n h) as Hnl by (intros E; by apply Hmore, allocated_not_broadcast).
  split; [done|]. split; [done|].
  pose proof (NoDup_free_ips n h (takenIPMap n taken) Hn) as Hnd. fold (free_for n h taken) in Hnd.
  destruct (free_for n h taken) as [|y l] eqn:E; [by apply not_elem_of_nil in Hlast|].
  assert (l ≠ []) as Hl.
  { intros ->. apply Hmore. f_equal. symmetry. apply list_elem_of_singleton. by apply elem_of_drop_ends. }
  assert (ip ≠ y) as Hipy by (intros ->; by apply (head_not_in_drop_ends y l)).
  pose proof (proj1 (Hfree y) ltac:(by left)) as (Hv' & Hc' & Hne' & Ht' & H0'). exists y. split.
  - split_and!; try done. intros Ey. pose proof (free_for_ends n h taken Hn) as He. rewrite E in He. destruct (He Hlast) as [l' El].
    destruct l' as [|z l']; [by injection El|]. injection El as -> ->.
    apply NoDup_cons in Hnd as [Hnd _]. apply Hnd, elem_of_app. right. by apply list_elem_of_singleton.
  - by intros [?|?]%elem_of_cons.
Qed.

(* ------------------------------------------------------------------ *)
(** ** Properties *)

(** The byte loop of [incIP] is the successor on 32-bit addresses: it
    keeps four bytes in range and adds one modulo [2 ^ 32]. *)
Theorem incIP_successor ip :
  valid_ip ip → valid_ip (incIP ip) ∧ ip_Z (incIP ip) = (ip_Z ip + 1) mod 2 ^ 32.
Proof.
  intros Hip. rewrite incIP_Z by done. split; [apply Z_ip_valid|].
  apply ip_Z_ip, Z.mod_pos_bound. lia.
Qed.

Lemma incIP_successor_witness :
  valid_ip (incIP [10; 255; 255; 255]) ∧
  ip_Z (incIP [10; 255; 255; 255]) = (ip_Z [10; 255; 255; 255] + 1) mod 2 ^ 32.
Proof. apply incIP_successor. split; [done|]. repeat constructor; lia. Defined.

(** On an IPv4 subnet with [h < 32] host bits the enumeration loop of
    [generateIPs] ends within its fuel ([2 ^ h] iterations), and its result is
    the list of the addresses of the subnet that are not excluded and whose
    last byte is not 0, in increasing order, without its two ends. *)
Theorem generateIPs_enumerates n h excl :
  subnet n h →
  generateIPs n excl =
    Some (drop_ends (free_ips n h excl), length (drop_ends (free_ips n h excl))) ∧
  NoDup (free_ips n h excl) ∧
  ∀ ip, ip ∈ free_ips n h excl ↔
    valid_ip ip ∧ IPNet_Contains n ip = true ∧
    excl !! IP_String ip = None ∧ ip !! 3%nat ≠ Some 0.
Proof.
  intros Hn. split; [by apply generateIPs_eq|]. split; [by apply NoDup_free_ips|].
  intros ip. by apply elem_of_free_ips.
Qed.

Definition net29 : IPNet := mkIPNet [100; 30; 0; 8] (prefix_mask 3).

Lemma net29_subnet : subnet net29 3.
Proof. repeat split; try lia. repeat constructor; lia. Defined.

Lemma generateIPs_enumerates_witness :
  generateIPs net29 ∅ = Some (drop_ends (free_ips net29 3 ∅), 6%nat) ∧
  free_ips net29 3 ∅ !! 0%nat = Some [100; 30; 0; 8].
Proof.
  split; [|reflexivity].
  exact (proj1 (generateIPs_enumerates net29 3 ∅ net29_subnet)).
Defined.

(** C40: on a subnet [AllocatePeerIP] never panics nor runs for ever; an
    address it returns is an IPv4 address of the subnet, is neither the network
    address nor one of the taken ones, does not end in 0, and is the broadcast
    address (all host bits one) only if that is the one free address left; it
    fails, with the out-of-range status, exactly when no address is free (in
    the subnet, not the network address, not taken, not ending in 0) or exactly
    two are.  It changes nothing of the store. *)
Theorem AllocatePeerIP_correct `{Runtime} n h taken w :
  subnet n h →
  wp (AllocatePeerIP n taken) (λ r w', same_state w w' ∧
    match r with
    | Ok ip => valid_ip ip ∧ IPNet_Contains n ip = true ∧ ip ≠ IPNet_IP n ∧
        (ip ∉ taken) ∧ ip !! 3%nat ≠ Some 0 ∧ (ip = all_ones n h → free_for n h taken = [ip]) ∧
        length (free_for n h taken) ≠ 0%nat ∧ length (free_for n h taken) ≠ 2%nat
    | Err e => e = errOutOfIPs ∧
        (length (free_for n h taken) = 0%nat ∨ length (free_for n h taken) = 2%nat)
    | _ => False
    end) w.
Proof.
  intros Hn. eapply wp_mono; [by apply (AllocatePeerIP_run n h)|].
  intros [ip|e|s|] w' [Hw Hr]; split; try done.
  - assert (length (drop_ends (free_for n h taken)) ≠ 0%nat) as Hne
      by (intros Hnil%nil_length_inv; rewrite Hnil in Hr; by apply not_elem_of_nil in Hr).
    assert (length (free_for n h taken) ≠ 0%nat ∧ length (free_for n h taken) ≠ 2%nat)
      as [] by (rewrite drop_ends_length in Hne; tauto).
    pose proof (allocated_not_broadcast _ _ _ _ Hn Hr) as Hlast.
    apply elem_of_drop_ends, (elem_of_free_ips n h) in Hr as (Hip & Hc & Hx & H3); [|done].
    apply takenIPMap_lookup in Hx as [Hx1 Hx2].
    repeat split; try done; try tauto; try apply Hip; [congruence|].
    intros Hin. apply Hx2, list_elem_of_fmap. eauto.
  - by rewrite <-drop_ends_length.
Qed.

Lemma AllocatePeerIP_correct_witness :
  ∃ ip w', @AllocatePeerIP demo_runtime net29 [[100; 30; 0; 10]] emptyWorld = (Ok ip, w') ∧
    ip = [100; 30; 0; 11] ∧ (ip ∉ [[100; 30; 0; 10]]) ∧ World_Store w' = emptyStore.
Proof.
  pose proof (@AllocatePeerIP_correct demo_runtime net29 3 [[100; 30; 0; 10]]
                emptyWorld net29_subnet) as Hwp.
  eexists _, _. split; [vm_compute; reflexivity|].
  eapply wp_run in Hwp; [|vm_compute; reflexivity].
  destruct Hwp as [Hw (_ & _ & _ & Hnot & _)]. split; [done|]. split; [apply Hnot|apply Hw].
Defined.

(** When at least two addresses are free, the smallest free address is
    never allocated: the slicing that is meant to drop the network address
    is applied after the filtering. *)
Theorem AllocatePeerIP_skips_first `{Runtime} n h taken w first rest ip w' :
  subnet n h →
  free_for n h taken = first :: rest → rest ≠ [] →
  AllocatePeerIP n taken w = (Ok ip, w') → ip ≠ first.
Proof.
  intros Hn Hfree Hrest Hrun ->.
  pose proof (AllocatePeerIP_run n h taken w Hn) as Hwp.
  apply (wp_run _ _ _ _ _ Hrun) in Hwp as [_ Hin]. rewrite Hfree in Hin.
  pose proof (NoDup_free_ips n h (takenIPMap n taken) Hn) as Hnd.
  unfold free_for in Hfree. rewrite Hfree in Hnd.
  by eapply head_not_in_drop_ends.
Qed.

(** The example of the comment of [AllocatePeerIP] on a /29: with .9 and .12
    taken, .10 is free but only .11, .13 and .14 can be returned. *)
Lemma AllocatePeerIP_skips_first_witness :
  ∃ w', @AllocatePeerIP demo_runtime net29 [[100; 30; 0; 9]; [100; 30; 0; 12]] emptyWorld
      = (Ok [100; 30; 0; 11], w') ∧ [100; 30; 0; 11] ≠ [100; 30; 0; 10].
Proof.
  eexists. split; [vm_compute; reflexivity|].
  eapply (@AllocatePeerIP_skips_first demo_runtime net29 3
            [[100; 30; 0; 9]; [100; 30; 0; 12]] emptyWorld).
  - exact net29_subnet.
  - vm_compute; reflexivity.
  - done.
  - vm_compute; reflexivity.
Defined.
