(* ===== verification/SetupKey.v ===== *)
(** * SetupKey: pre-authorised registration keys (management/server/setupkey.go)

    Validity of a key, its use counter, generation of a key, and the life of a
    key as a step relation (used when valid, renamed, revoked). *)

From S2P Require Import Prelude GoLib Model.

#[local] Open Scope Z_scope.

(* ------------------------------------------------------------------ *)
(** ** Operations *)

Definition SetupKey_Copy (key : SetupKey) : SetupKey :=
  mkSetupKey (SetupKey_Id key) (SetupKey_Key key) (SetupKey_Name key)
    (SetupKey_Type key) (SetupKey_CreatedAt key) (SetupKey_ExpiresAt key)
    (SetupKey_Revoked key) (SetupKey_UsedTimes key) (SetupKey_LastUsed key).

(** [IncrementUsage] at time [now]. *)
Definition IncrementUsage (now : Z) (key : SetupKey) : SetupKey :=
  let c := SetupKey_Copy key in
  mkSetupKey (SetupKey_Id c) (SetupKey_Key c) (SetupKey_Name c) (SetupKey_Type c)
    (SetupKey_CreatedAt c) (SetupKey_ExpiresAt c) (SetupKey_Revoked c)
    (wrap_i64 (SetupKey_UsedTimes c + 1)) now.

Definition IsRevoked (key : SetupKey) : bool := SetupKey_Revoked key.
Definition IsExpired (now : Z) (key : SetupKey) : bool := SetupKey_ExpiresAt key <? now.
Definition IsOverUsed (key : SetupKey) : bool :=
  bool_decide (SetupKey_Type key = SetupKeyOneOff) && (1 <=? SetupKey_UsedTimes key).

Definition IsValid (now : Z) (key : SetupKey) : bool :=
  negb (IsRevoked key) && negb (IsExpired now key) && negb (IsOverUsed key).

(** [keyCopy.Revoked = true] and [keyCopy.Name = newName] of account.go. *)
Definition Revoke (key : SetupKey) : SetupKey :=
  mkSetupKey (SetupKey_Id key) (SetupKey_Key key) (SetupKey_Name key)
    (SetupKey_Type key) (SetupKey_CreatedAt key) (SetupKey_ExpiresAt key)
    true (SetupKey_UsedTimes key) (SetupKey_LastUsed key).
Definition Rename (newName : string) (key : SetupKey) : SetupKey :=
  mkSetupKey (SetupKey_Id key) (SetupKey_Key key) newName
    (SetupKey_Type key) (SetupKey_CreatedAt key) (SetupKey_ExpiresAt key)
    (SetupKey_Revoked key) (SetupKey_UsedTimes key) (SetupKey_LastUsed key).

(** [Hash]: FNV-1a of the bytes of the key. *)
Definition Hash (s : string) : Z := fnv32a (string_bytes s).

(** The zero [time.Time] of an unused key. *)
Definition zeroTime : Z := -62135596800000000000.

Definition GenerateSetupKey `{Runtime} (name t : string) (validFor : Z) : MW SetupKey :=
  u ← uuid_New;
  createdAt ← time_Now;
  let key := ToUpper u in
  mret (mkSetupKey (Itoa (Hash key)) key name t createdAt (createdAt + validFor)
          false 0 zeroTime).

Definition GenerateDefaultSetupKey `{Runtime} : MW SetupKey :=
  GenerateSetupKey DefaultSetupKeyName SetupKeyReusable DefaultSetupKeyDuration.

(* ------------------------------------------------------------------ *)
(** ** The life of a key *)

(** The changes the service makes to a stored key, with the number of
    machines registered by the change. *)
Inductive key_step (now : Z) : SetupKey → nat → SetupKey → Prop :=
  | key_use k : IsValid now k = true → key_step now k 1 (IncrementUsage now k)
  | key_revoke k : key_step now k 0 (Revoke (SetupKey_Copy k))
  | key_rename k name : key_step now k 0 (Rename name (SetupKey_Copy k)).

(** Runs at any sequence of times. *)
Inductive key_steps : SetupKey → nat → SetupKey → Prop :=
  | key_done k : key_steps k 0 k
  | key_more now k1 n k2 m k3 :
      key_step now k1 n k2 → key_steps k2 m k3 → key_steps k1 (n + m) k3.

Lemma IsValid_spec now k :
  IsValid now k = true ↔
    SetupKey_Revoked k = false ∧ now ≤ SetupKey_ExpiresAt k ∧
    ¬ (SetupKey_Type k = SetupKeyOneOff ∧ 1 ≤ SetupKey_UsedTimes k).
Proof.
  unfold IsValid, IsRevoked, IsExpired, IsOverUsed.
  rewrite !andb_true_iff, !negb_true_iff, Z.ltb_ge, andb_false_iff,
    bool_decide_eq_false, Z.leb_gt.
  split.
  { intros [[? ?] Ho]. split; [done|]. split; [done|]. intros [? ?].
    destruct Ho; [done|lia]. }
  intros (? & ? & Hno). split; [done|].
  destruct (decide (SetupKey_Type k = SetupKeyOneOff)); [right|by left].
  destruct (Z.lt_ge_cases (SetupKey_UsedTimes k) 1); [done|]. by destruct Hno.
Qed.

Lemma key_step_type now k n k' :
  key_step now k n k' → SetupKey_Type k' = SetupKey_Type k.
Proof. by destruct 1. Qed.

Lemma key_step_used now k n k' :
  key_step now k n k' → 0 ≤ SetupKey_UsedTimes k < 2 ^ 62 →
  SetupKey_UsedTimes k' = SetupKey_UsedTimes k + Z.of_nat n.
Proof.
  destruct 1; simpl; intros; try lia.
  rewrite wrap_i64_small; lia.
Qed.

Lemma key_step_revoked now k n k' :
  key_step now k n k' → SetupKey_Revoked k = true →
  n = 0%nat ∧ SetupKey_Revoked k' = true.
Proof. destruct 1 as [k Hv| |]; simpl; try done. apply IsValid_spec in Hv as [Hv _]. congruence. Qed.

Lemma one_off_used_steps k n k' :
  key_steps k n k' → SetupKey_Type k = SetupKeyOneOff →
  1 ≤ SetupKey_UsedTimes k < 2 ^ 62 → n = 0%nat.
Proof.
  induction 1 as [|now k1 n k2 m k3 Hstep _ IH]; [done|]. intros Ht Hu.
  assert (n = 0%nat) as ->.
  { destruct Hstep as [k Hv| |]; try done. apply IsValid_spec in Hv as (_ & _ & Hno).
    destruct Hno. split; [done|lia]. }
  rewrite IH; [done| |].
  - by rewrite (key_step_type _ _ _ _ Hstep).
  - rewrite (key_step_used _ _ _ _ Hstep) by lia. lia.
Qed.

(* ------------------------------------------------------------------ *)
(** ** Properties *)

(** Over any sequence of uses (each guarded by [IsValid], at any times),
    revocations and renamings, a fresh one-off key registers at most one
    machine. *)
Theorem one_off_key_single_use k n k' :
  SetupKey_Type k = SetupKeyOneOff → SetupKey_UsedTimes k = 0 →
  key_steps k n k' → (n ≤ 1)%nat.
Proof.
  intros Ht Hu Hsteps. revert Ht Hu.
  induction Hsteps as [|now k1 n k2 m k3 Hstep Hrest IH]; [lia|]. intros Ht Hu.
  pose proof (key_step_used _ _ _ _ Hstep) as Hu2. rewrite Hu in Hu2.
  destruct Hstep as [k Hv|k|k name].
  - rewrite (one_off_used_steps _ _ _ Hrest); [lia|done|]. lia.
  - specialize (IH Ht Hu). lia.
  - specialize (IH Ht Hu). lia.
Qed.

Definition demo_key : SetupKey :=
  mkSetupKey "7" "K" "n" SetupKeyOneOff 0 100 false 0 zeroTime.

Lemma one_off_key_single_use_witness :
  ∃ k', key_steps demo_key 1 k' ∧ (1 ≤ 1)%nat.
Proof.
  exists (Revoke (IncrementUsage 5 demo_key)).
  assert (key_steps demo_key (1 + (0 + 0)) (Revoke (SetupKey_Copy (IncrementUsage 5 demo_key)))) as H.
  { eapply (key_more 5); [apply key_use; reflexivity|].
    eapply (key_more 6); [apply key_revoke|apply key_done]. }
  split; [exact H|].
  apply (one_off_key_single_use demo_key (1 + (0 + 0))%nat _ eq_refl eq_refl H).
Defined.

(** A revoked key stays revoked and registers no machine, whatever
    happens to it afterwards; a renaming does not bring it back. *)
Theorem revoked_key_stays_revoked k n k' :
  SetupKey_Revoked k = true → key_steps k n k' →
  n = 0%nat ∧ SetupKey_Revoked k' = true ∧ ∀ now, IsValid now k' = false.
Proof.
  intros Hr Hsteps. revert Hr.
  induction Hsteps as [k|now k1 n k2 m k3 Hstep _ IH]; intros Hr.
  - repeat split; [done|]. intros now. unfold IsValid, IsRevoked. by rewrite Hr.
  - destruct (key_step_revoked _ _ _ _ Hstep Hr) as [-> Hr2].
    destruct (IH Hr2) as (-> & ? & ?). done.
Qed.

Lemma revoked_key_stays_revoked_witness :
  IsValid 1 (Rename "again" (SetupKey_Copy (Revoke demo_key))) = false.
Proof.
  apply (revoked_key_stays_revoked (Revoke demo_key) (0 + 0) _ eq_refl).
  eapply (key_more 5); [apply (key_rename 5 _ "again")|apply key_done].
Defined.

(** A generated key is upper case, unrevoked and unused, carries the
    decimal of its 32-bit hash as identifier, and is valid exactly until its
    expiry. *)
Theorem GenerateSetupKey_fresh `{Runtime} name t validFor w :
  wp (GenerateSetupKey name t validFor) (λ r w', same_state w w' ∧
    ∃ k, r = Ok k ∧ ToUpper (SetupKey_Key k) = SetupKey_Key k ∧
      SetupKey_Name k = name ∧ SetupKey_Type k = t ∧
      SetupKey_Id k = Itoa (Hash (SetupKey_Key k)) ∧ 0 ≤ Hash (SetupKey_Key k) < 2 ^ 32 ∧
      SetupKey_ExpiresAt k = SetupKey_CreatedAt k + validFor ∧
      ∀ now, IsValid now k = true ↔ now ≤ SetupKey_CreatedAt k + validFor) w.
Proof.
  unfold GenerateSetupKey. rt_go. split; [done|]. eexists. split; [done|]. simpl.
  repeat split; try done; try apply fnv32a_range; [apply ToUpper_idem| |].
  - intros (_ & Hv & _)%IsValid_spec. exact Hv.
  - intros Hnow. apply IsValid_spec. simpl. repeat split; [done|]. lia.
Qed.
