(* ===== verification/UpdateChannel.v ===== *)
(** * UpdateChannel: update channels of peers (management/server/updatechannel.go)

    [PeersUpdateManager] maps a peer to a buffered Go channel.  Channels are
    objects with an identity: the manager drops and closes a channel while a
    stream may still hold it.  The abstract view of the manager is a queue per
    peer; the operations are proved to implement operations on queues. *)

From S2P Require Import Prelude GoLib Model.

(* ------------------------------------------------------------------ *)
(** ** Channels *)

(** [make(chan *UpdateMessage, 100)] *)
Definition UpdateChannelCap : nat := 100.

Definition get_chan (c : nat) : MW (option Chan) := gets (λ w, Upd_Chans (World_Upd w) !! c).
Definition put_chan (c : nat) (ch : Chan) : MW unit :=
  modify (λ w, let u := World_Upd w in
    set_Upd (mkUpd (<[c := ch]> (Upd_Chans u)) (Upd_Next u) (Upd_PeerChannels u)) w).
Definition set_PeerChannels (f : gmap string nat → gmap string nat) : MW unit :=
  modify (λ w, let u := World_Upd w in
    set_Upd (mkUpd (Upd_Chans u) (Upd_Next u) (f (Upd_PeerChannels u))) w).

(** [channel <- m]: panics on a closed channel, blocks on a full one. *)
Definition chan_send (c : nat) (m : SyncResponse) : MW unit :=
  o ← get_chan c;
  match o with
  | None => blocked
  | Some ch =>
      if Chan_Closed ch then panic "send on closed channel"
      else if decide (length (Chan_Buf ch) < UpdateChannelCap)
           then put_chan c (mkChan (Chan_Buf ch ++ [m]) false)
           else blocked
  end.

(** [close(channel)] *)
Definition chan_close (c : nat) : MW unit :=
  o ← get_chan c;
  match o with
  | None => panic "close of nil channel"
  | Some ch =>
      if Chan_Closed ch then panic "close of closed channel"
      else put_chan c (mkChan (Chan_Buf ch) true)
  end.

(** [update, open := <-channel]: a closed channel is drained first. *)
Definition chan_recv (c : nat) : MW (option SyncResponse) :=
  o ← get_chan c;
  match o with
  | None => blocked
  | Some ch =>
      match Chan_Buf ch with
      | m :: rest => _ ← put_chan c (mkChan rest (Chan_Closed ch)); mret (Some m)
      | [] => if Chan_Closed ch then mret None else blocked
      end
  end.

(* ------------------------------------------------------------------ *)
(** ** Operations *)

Definition SendUpdate (peer : string) (update : SyncResponse) : MW unit :=
  pc ← gets (λ w, Upd_PeerChannels (World_Upd w));
  match pc !! peer with
  | Some channel => chan_send channel update
  | None => mret tt
  end.

Definition new_chan : MW nat :=
  λ w, let u := World_Upd w in
    (Ok (Upd_Next u),
     set_Upd (mkUpd (<[Upd_Next u := mkChan [] false]> (Upd_Chans u))
                    (S (Upd_Next u)) (Upd_PeerChannels u)) w).

Definition CreateChannel (peerKey : string) : MW nat :=
  pc ← gets (λ w, Upd_PeerChannels (World_Upd w));
  _ ← match pc !! peerKey with
      | Some channel => _ ← set_PeerChannels (delete peerKey); chan_close channel
      | None => mret tt
      end;
  channel ← new_chan;
  _ ← set_PeerChannels <[peerKey := channel]>;
  mret channel.

Definition CloseChannel (peerKey : string) : MW unit :=
  pc ← gets (λ w, Upd_PeerChannels (World_Upd w));
  match pc !! peerKey with
  | Some channel => _ ← set_PeerChannels (delete peerKey); chan_close channel
  | None => mret tt
  end.

(* ------------------------------------------------------------------ *)
(** ** Well-formedness and the abstract view *)

(** Registered channels exist, are open, within capacity, and are not shared
    by two peers; identities at or above the counter are unused. *)
Record upd_wf (u : PeersUpdateManager) : Prop := {
  upd_open p c : Upd_PeerChannels u !! p = Some c →
    ∃ buf, Upd_Chans u !! c = Some (mkChan buf false) ∧ length buf ≤ UpdateChannelCap;
  upd_inj p q c : Upd_PeerChannels u !! p = Some c → Upd_PeerChannels u !! q = Some c → p = q;
  upd_fresh c : is_Some (Upd_Chans u !! c) → c < Upd_Next u }.

(** The queue of each connected peer. *)
Definition queues (u : PeersUpdateManager) : gmap string (list SyncResponse) :=
  omap (λ c, Chan_Buf <$> Upd_Chans u !! c) (Upd_PeerChannels u).

Lemma queues_lookup u p :
  queues u !! p = Upd_PeerChannels u !! p ≫= λ c, Chan_Buf <$> Upd_Chans u !! c.
Proof. apply lookup_omap. Qed.

Lemma queues_is_Some u p : upd_wf u → is_Some (queues u !! p) ↔ is_Some (Upd_PeerChannels u !! p).
Proof.
  intros Hwf. rewrite queues_lookup. destruct (Upd_PeerChannels u !! p) as [c|] eqn:Hc; simpl.
  - destruct (upd_open _ Hwf _ _ Hc) as (buf & -> & _). simpl.
    split; intros _; by eexists.
  - split; intros Hn; by apply is_Some_None in Hn.
Qed.

Lemma emptyUpd_wf : upd_wf (mkUpd ∅ 0 ∅).
Proof. split; simpl; intros *; rewrite ?lookup_empty; done. Qed.

(** What one peer's operation may touch: nothing but the channel table. *)
Definition only_upd (w w' : World) : Prop :=
  World_Store w' = World_Store w ∧ World_Disk w' = World_Disk w ∧
  World_Turn w' = World_Turn w ∧ World_Idp w' = World_Idp w.

Lemma set_chan_wf u c ch :
  upd_wf u → is_Some (Upd_Chans u !! c) →
  (∀ p, Upd_PeerChannels u !! p = Some c →
     Chan_Closed ch = false ∧ length (Chan_Buf ch) ≤ UpdateChannelCap) →
  upd_wf (mkUpd (<[c := ch]> (Upd_Chans u)) (Upd_Next u) (Upd_PeerChannels u)).
Proof.
  intros Hwf Hc Hch. split; simpl.
  - intros p c' Hp. destruct (decide (c = c')) as [->|].
    + rewrite lookup_insert_eq. destruct (Hch p Hp) as [Ho ?].
      destruct ch as [buf cl]; simpl in *; subst. eauto.
    + rewrite lookup_insert_ne by done. by apply (upd_open _ Hwf p).
  - apply (upd_inj _ Hwf).
  - intros c' Hc'. destruct (decide (c = c')) as [->|]; [by apply (upd_fresh _ Hwf)|].
    rewrite lookup_insert_ne in Hc' by done. by apply (upd_fresh _ Hwf).
Qed.

Lemma delete_peer_wf u p :
  upd_wf u → upd_wf (mkUpd (Upd_Chans u) (Upd_Next u) (delete p (Upd_PeerChannels u))).
Proof.
  intros [Ho Hi Hf]. split; simpl.
  - intros q c [_ Hq]%lookup_delete_Some. by apply (Ho q).
  - intros q1 q2 c [_ H1]%lookup_delete_Some [_ H2]%lookup_delete_Some. by apply (Hi _ _ c).
  - done.
Qed.

Lemma queues_set_chan u p c ch :
  upd_wf u → Upd_PeerChannels u !! p = Some c →
  queues (mkUpd (<[c := ch]> (Upd_Chans u)) (Upd_Next u) (Upd_PeerChannels u))
  = <[p := Chan_Buf ch]> (queues u).
Proof.
  intros Hwf Hp. apply map_eq. intros q. rewrite queues_lookup; simpl.
  destruct (decide (p = q)) as [<-|Hne].
  - rewrite Hp, lookup_insert_eq; simpl. by rewrite lookup_insert_eq.
  - rewrite (lookup_insert_ne _ p q), queues_lookup by done.
    destruct (Upd_PeerChannels u !! q) as [c'|] eqn:Hq; simpl; [|done].
    destruct (decide (c = c')) as [->|].
    + by destruct Hne; eapply upd_inj.
    + by rewrite lookup_insert_ne.
Qed.

Lemma queues_set_unregistered u c ch :
  (∀ p, Upd_PeerChannels u !! p ≠ Some c) →
  queues (mkUpd (<[c := ch]> (Upd_Chans u)) (Upd_Next u) (Upd_PeerChannels u)) = queues u.
Proof.
  intros Hc. apply map_eq. intros q. rewrite !queues_lookup; simpl.
  destruct (Upd_PeerChannels u !! q) as [c'|] eqn:Hq; simpl; [|done].
  rewrite lookup_insert_ne; [done|]. intros ->. by destruct (Hc q).
Qed.

Lemma queues_delete u p :
  queues (mkUpd (Upd_Chans u) (Upd_Next u) (delete p (Upd_PeerChannels u)))
  = delete p (queues u).
Proof.
  apply map_eq. intros q. rewrite queues_lookup; simpl.
  destruct (decide (p = q)) as [<-|].
  - by rewrite !lookup_delete_eq.
  - by rewrite !lookup_delete_ne, queues_lookup.
Qed.

(** Dropping and closing the channel of a peer, the common part of
    [CreateChannel] and [CloseChannel]. *)
Lemma drop_channel_spec p c w :
  upd_wf (World_Upd w) → Upd_PeerChannels (World_Upd w) !! p = Some c →
  wp (_ ← set_PeerChannels (delete p); chan_close c) (λ r w',
    r = Ok tt ∧ upd_wf (World_Upd w') ∧ only_upd w w' ∧
    Upd_PeerChannels (World_Upd w') = delete p (Upd_PeerChannels (World_Upd w)) ∧
    queues (World_Upd w') = delete p (queues (World_Upd w)) ∧
    (∃ buf, Upd_Chans (World_Upd w) !! c = Some (mkChan buf false) ∧
            Upd_Chans (World_Upd w') !! c = Some (mkChan buf true))) w.
Proof.
  intros Hwf Hp. set (u := World_Upd w) in *.
  destruct (upd_open _ Hwf _ _ Hp) as (buf & Hc & Hlen).
  pose (u1 := mkUpd (Upd_Chans u) (Upd_Next u) (delete p (Upd_PeerChannels u))).
  assert (upd_wf u1) as Hwf1 by by apply delete_peer_wf.
  assert (∀ q, Upd_PeerChannels u1 !! q ≠ Some c) as Hnone.
  { simpl. intros q [Hne Hq]%lookup_delete_Some. by destruct Hne; eapply (upd_inj _ Hwf). }
  unfold set_PeerChannels, chan_close, get_chan, put_chan.
  do 4 wp_step. fold u. rewrite Hc. simpl. wp_step. fold u u1.
  split; [done|]. split.
  { apply (set_chan_wf u1); [done|by eexists|]. intros q Hq. by destruct (Hnone q). }
  split; [done|]. split; [done|]. split.
  - rewrite <-queues_delete. by apply (queues_set_unregistered u1).
  - exists buf. by rewrite lookup_insert_eq.
Qed.

Lemma SendUpdate_spec p m w :
  upd_wf (World_Upd w) →
  wp (SendUpdate p m) (λ r w',
    upd_wf (World_Upd w') ∧ only_upd w w' ∧
    Upd_PeerChannels (World_Upd w') = Upd_PeerChannels (World_Upd w) ∧
    match queues (World_Upd w) !! p with
    | None => r = Ok tt ∧ w' = w
    | Some q =>
        if decide (length q < UpdateChannelCap)
        then r = Ok tt ∧ queues (World_Upd w') = <[p := q ++ [m]]> (queues (World_Upd w))
        else r = Blocked ∧ w' = w
    end) w.
Proof.
  intros Hwf. unfold SendUpdate, chan_send, get_chan, put_chan. wp_step. wp_step.
  rewrite queues_lookup. set (u := World_Upd w) in *.
  destruct (Upd_PeerChannels u !! p) as [c|] eqn:Hp; simpl; [|by wp_go].
  destruct (upd_open _ Hwf _ _ Hp) as (buf & Hc & Hlen).
  wp_step. wp_step. fold u. rewrite Hc; simpl. case_decide; wp_go; [|done].
  fold u. split; [|split; [done|split; [done|split; [done|]]]].
  - apply set_chan_wf; [done|by eexists|]. intros q Hq. simpl.
    rewrite length_app; simpl. split; [done|]. lia.
  - by apply queues_set_chan.
Qed.

Lemma CloseChannel_spec p w :
  upd_wf (World_Upd w) →
  wp (CloseChannel p) (λ r w',
    r = Ok tt ∧ upd_wf (World_Upd w') ∧ only_upd w w' ∧
    Upd_PeerChannels (World_Upd w') = delete p (Upd_PeerChannels (World_Upd w)) ∧
    queues (World_Upd w') = delete p (queues (World_Upd w)) ∧
    (∀ c, Upd_PeerChannels (World_Upd w) !! p = Some c →
       ∃ buf, Upd_Chans (World_Upd w) !! c = Some (mkChan buf false) ∧
              Upd_Chans (World_Upd w') !! c = Some (mkChan buf true))) w.
Proof.
  intros Hwf. unfold CloseChannel. wp_step. wp_step.
  destruct (Upd_PeerChannels (World_Upd w) !! p) as [c|] eqn:Hp.
  - eapply wp_mono; [by apply (drop_channel_spec p c)|].
    intros r w' (-> & ? & ? & ? & ? & ?). do 5 (split; [done|]). by intros c' [= <-].
  - wp_go. split; [done|]. split; [done|]. split; [done|]. split; [|split].
    + by rewrite delete_id.
    + rewrite delete_id; [done|]. by rewrite queues_lookup, Hp.
    + done.
Qed.

Lemma new_chan_spec p w :
  upd_wf (World_Upd w) → Upd_PeerChannels (World_Upd w) !! p = None →
  wp (channel ← new_chan; _ ← set_PeerChannels <[p := channel]>; mret channel) (λ r w',
    let u := World_Upd w in let u' := World_Upd w' in
    r = Ok (Upd_Next u) ∧ upd_wf u' ∧ only_upd w w' ∧
    Upd_PeerChannels u' = <[p := Upd_Next u]> (Upd_PeerChannels u) ∧
    queues u' = <[p := []]> (queues u) ∧
    (∀ c, is_Some (Upd_Chans u !! c) → Upd_Chans u' !! c = Upd_Chans u !! c)) w.
Proof.
  intros Hwf Hp. set (u := World_Upd w) in *.
  assert (∀ q c, Upd_PeerChannels u !! q = Some c → c < Upd_Next u) as Hlt.
  { intros q c Hq. apply (upd_fresh _ Hwf).
    destruct (upd_open _ Hwf _ _ Hq) as (? & -> & _). by eexists. }
  unfold new_chan, set_PeerChannels. wp_step. unfold wp; simpl. wp_go. fold u.
  split; [done|]. split; [split; simpl|].
  - intros q c. rewrite lookup_insert. case_decide as Hpq.
    + intros [= <-]. rewrite lookup_insert_eq. exists []. split; [done|]. simpl. lia.
    + intros Hq. rewrite lookup_insert_ne by (apply Hlt in Hq; lia). by apply (upd_open _ Hwf q).
  - intros q1 q2 c. rewrite !lookup_insert. repeat case_decide; intros H1 H2; simplify_eq; try done.
    + apply Hlt in H2. lia.
    + apply Hlt in H1. lia.
    + by eapply (upd_inj _ Hwf).
  - intros c Hc. destruct (decide (c = Upd_Next u)) as [->|]; [lia|].
    rewrite lookup_insert_ne in Hc by done. apply (upd_fresh _ Hwf) in Hc. lia.
  - split; [done|]. split; [done|]. split.
    + apply map_eq. intros q. rewrite queues_lookup; simpl. rewrite !lookup_insert.
      case_decide; simpl; [by rewrite lookup_insert_eq|]. rewrite queues_lookup.
      destruct (Upd_PeerChannels u !! q) as [c|] eqn:Hq; simpl; [|done].
      by rewrite lookup_insert_ne by (apply Hlt in Hq; lia).
    + intros c Hc%(upd_fresh _ Hwf). by rewrite lookup_insert_ne by lia.
Qed.

Lemma CreateChannel_spec p w :
  upd_wf (World_Upd w) →
  wp (CreateChannel p) (λ r w',
    ∃ c, r = Ok c ∧ upd_wf (World_Upd w') ∧ only_upd w w' ∧
    Upd_PeerChannels (World_Upd w') = <[p := c]> (Upd_PeerChannels (World_Upd w)) ∧
    queues (World_Upd w') = <[p := []]> (queues (World_Upd w)) ∧
    (∀ c0, Upd_PeerChannels (World_Upd w) !! p = Some c0 →
       ∃ buf, Upd_Chans (World_Upd w) !! c0 = Some (mkChan buf false) ∧
              Upd_Chans (World_Upd w') !! c0 = Some (mkChan buf true))) w.
Proof.
  intros Hwf. unfold CreateChannel. wp_step. wp_step. wp_step.
  destruct (Upd_PeerChannels (World_Upd w) !! p) as [c|] eqn:Hp.
  - eapply wp_mono; [by apply (drop_channel_spec p c)|].
    intros r w1 (-> & Hwf1 & Ho1 & Hpc1 & Hq1 & (buf & Hb & Hb1)). simpl.
    eapply wp_mono; [apply (new_chan_spec p); [done|by rewrite Hpc1, lookup_delete_eq]|].
    simpl. intros r w2 (-> & Hwf2 & Ho2 & Hpc2 & Hq2 & Hold). eexists. split; [done|].
    split; [done|]. split; [unfold only_upd in *; intuition congruence|].
    rewrite Hpc2, Hq2, Hpc1, Hq1, !insert_delete_eq. split; [done|]. split; [done|].
    intros c0 [= <-]. exists buf. split; [done|]. rewrite Hold; [done|]. by eexists.
  - wp_step. eapply wp_mono; [by apply (new_chan_spec p)|].
    simpl. intros r w2 (-> & Hwf2 & Ho2 & Hpc2 & Hq2 & Hold). by eexists.
Qed.

(* ------------------------------------------------------------------ *)
(** ** Refinement to a table of queues *)

Inductive chan_op :=
  | OpSend (p : string) (m : SyncResponse)
  | OpOpen (p : string)
  | OpClose (p : string).

Definition run_op (op : chan_op) : MW unit :=
  match op with
  | OpSend p m => SendUpdate p m
  | OpOpen p => _ ← CreateChannel p; mret tt
  | OpClose p => CloseChannel p
  end.

(** The specification: a queue per connected peer, bounded by the capacity;
    [None] when the caller has to wait. *)
Definition abs_op (op : chan_op) (q : gmap string (list SyncResponse))
    : option (gmap string (list SyncResponse)) :=
  match op with
  | OpSend p m =>
      match q !! p with
      | None => Some q
      | Some l => if decide (length l < UpdateChannelCap)
                  then Some (<[p := l ++ [m]]> q) else None
      end
  | OpOpen p => Some (<[p := []]> q)
  | OpClose p => Some (delete p q)
  end.

Lemma run_op_spec op w :
  upd_wf (World_Upd w) →
  wp (run_op op) (λ r w', upd_wf (World_Upd w') ∧ only_upd w w' ∧
    match abs_op op (queues (World_Upd w)) with
    | Some q' => r = Ok tt ∧ queues (World_Upd w') = q'
    | None => r = Blocked ∧ w' = w
    end) w.
Proof.
  intros Hwf. destruct op as [p m|p|p]; simpl.
  - eapply wp_mono; [by apply SendUpdate_spec|].
    intros r w' (? & ? & _ & Hq). split; [done|]. split; [done|].
    destruct (queues (World_Upd w) !! p); [by case_decide|]. by destruct Hq as [-> ->].
  - wp_step. eapply wp_mono; [by apply CreateChannel_spec|].
    intros r w' (c & -> & ? & ? & _ & ? & _). simpl. by wp_step.
  - eapply wp_mono; [by apply CloseChannel_spec|].
    intros r w' (-> & ? & ? & _ & ? & _). done.
Qed.

(** A run of operations on the specification, up to the first that waits. *)
Fixpoint abs_ops (ops : list chan_op) (q : gmap string (list SyncResponse))
    : Res unit * gmap string (list SyncResponse) :=
  match ops with
  | [] => (Ok tt, q)
  | op :: ops' => match abs_op op q with
                  | Some q' => abs_ops ops' q'
                  | None => (Blocked, q)
                  end
  end.

(** C33: any sequence of [SendUpdate], [CreateChannel] and [CloseChannel] from
    a well-formed manager never panics (no send on and no close of a closed
    channel), keeps the manager well-formed, and does to the queues of the
    peers what the table of bounded queues does; it stops exactly at the first
    send to a peer with 100 pending messages. *)
Theorem channel_manager_refines_queues ops w :
  upd_wf (World_Upd w) →
  wp (for_each ops run_op) (λ r w', upd_wf (World_Upd w') ∧
    (r, queues (World_Upd w')) = abs_ops ops (queues (World_Upd w))) w.
Proof.
  revert w. induction ops as [|op ops IH]; intros w Hwf; simpl; [by wp_step|].
  wp_step. eapply wp_mono; [by apply run_op_spec|]. intros r w1 (Hwf1 & _ & Hop).
  destruct (abs_op op _) as [q'|].
  - destruct Hop as [-> <-]. simpl. by apply IH.
  - destruct Hop as [-> ->]. done.
Qed.

Definition demo_update : SyncResponse := mkSyncResponse None None [] true None.

Lemma channel_manager_refines_queues_witness :
  fst (for_each [OpOpen "p"; OpSend "p" demo_update; OpSend "q" demo_update] run_op emptyWorld) = Ok tt ∧
  queues (World_Upd (snd (for_each [OpOpen "p"; OpSend "p" demo_update; OpSend "q" demo_update] run_op emptyWorld)))
    = {["p" := [demo_update]]}.
Proof.
  destruct (channel_manager_refines_queues
    [OpOpen "p"; OpSend "p" demo_update; OpSend "q" demo_update] emptyWorld emptyUpd_wf)
    as [_ Hrun].
  split; [vm_compute; reflexivity|].
  etransitivity; [exact (f_equal snd Hrun)|]. vm_compute; reflexivity.
Defined.

(** Receiving [n] times. *)
Fixpoint recv_n (c n : nat) : MW (list (option SyncResponse)) :=
  match n with
  | O => mret []
  | S n' => m ← chan_recv c; ms ← recv_n c n'; mret (m :: ms)
  end.

(** What was sent to a peer before its channel was closed (by a reconnect
    or a removal) is still delivered to the stream holding the channel, in
    order, and only then does the stream see the channel closed. *)
Theorem closed_channel_drains p c w :
  upd_wf (World_Upd w) → Upd_PeerChannels (World_Upd w) !! p = Some c →
  wp (_ ← CloseChannel p; recv_n c (S (length (default [] (queues (World_Upd w) !! p)))))
    (λ r w', ∃ msgs, queues (World_Upd w) !! p = Some msgs ∧
       r = Ok ((Some <$> msgs) ++ [None])) w.
Proof.
  intros Hwf Hp. wp_step. eapply wp_mono; [by apply CloseChannel_spec|].
  intros r w1 (-> & _ & _ & _ & _ & Hc). simpl.
  destruct (Hc c Hp) as (buf & Hb & Hb1).
  assert (queues (World_Upd w) !! p = Some buf) as Hq
    by (by rewrite queues_lookup, Hp; simpl; rewrite Hb).
  rewrite Hq; simpl.
  eapply wp_mono with (Q := λ r _, r = Ok ((Some <$> buf) ++ [None])); [|eauto].
  clear Hb Hq Hc. revert w1 Hb1.
  induction buf as [|m buf IH]; intros w1 Hb1; simpl.
  - wp_step. unfold chan_recv, get_chan. do 2 wp_step. rewrite Hb1; simpl. by wp_go.
  - wp_step. unfold chan_recv at 1, get_chan, put_chan. do 2 wp_step. rewrite Hb1; simpl.
    do 4 wp_step.
    eapply wp_mono; [apply IH; simpl; by rewrite lookup_insert_eq|].
    intros r w2 ->. simpl. by wp_step.
Qed.

Lemma closed_channel_drains_witness :
  let w := snd (for_each [OpOpen "p"; OpSend "p" demo_update] run_op emptyWorld) in
  Upd_PeerChannels (World_Upd w) !! "p" = Some 0 ∧
  fst ((_ ← CloseChannel "p"; recv_n 0 2) w) = Ok [Some demo_update; None].
Proof.
  intros w. split; [vm_compute; reflexivity|].
  assert (upd_wf (World_Upd w)) as Hwf.
  { pose proof (run_op_spec (OpOpen "p") emptyWorld emptyUpd_wf) as H1.
    apply proj1 in H1.
    pose proof (run_op_spec (OpSend "p" demo_update) _ H1) as H2. exact (proj1 H2). }
  destruct (closed_channel_drains "p" 0 w Hwf ltac:(vm_compute; reflexivity)) as (msgs & Hq & Hr).
  assert (Some msgs = Some [demo_update]) as [= ->] by (rewrite <-Hq; vm_compute; reflexivity).
  etransitivity; [|exact Hr]. vm_compute; reflexivity.
Defined.
