(* ===== verification/FileStore.v ===== *)
(** * FileStore: the account store (management/server/file_store.go, util/file.go)

    The accounts and the indexes derived from them.  A [*Account] obtained
    from the store is denoted by its key in [Accounts]; an assignment through
    it is an update of the store at that key.  The file is written by
    [WriteJson] and read back by [restore], which rebuilds the indexes.  The
    text of the file and the calls that write it are in [StoreJson] and
    [JsonFile]. *)

From S2P Require Import Prelude GoLib Model.

(* ------------------------------------------------------------------ *)
(** ** State access *)

Definition modify_store (f : FileStore → FileStore) : MW unit :=
  modify (λ w, set_Store (f (World_Store w)) w).
Definition get_store : MW FileStore := gets World_Store.
Definition modify_account (id : string) (f : Account → Account) : MW unit :=
  modify_store (λ s, set_Accounts (alter f id (Accounts s)) s).

(** [v, ok := m[k]] on a [map[string]map[string]struct{}], creating the inner
    map when it is nil, and [inner[rid] = struct{}{}]. *)
Definition add_rule_id (pid rid : string) (m : gmap string (gmap string unit))
    : gmap string (gmap string unit) :=
  <[pid := <[rid := tt]> (default ∅ (m !! pid))]> m.

Definition index_src (pid rid : string) (s : FileStore) : FileStore :=
  set_SrcRules (add_rule_id pid rid (PeerKeyId2SrcRulesId s)) s.
Definition index_dst (pid rid : string) (s : FileStore) : FileStore :=
  set_DstRules (add_rule_id pid rid (PeerKeyId2DstRulesId s)) s.

(** Assignment through the pointer of the group stored under key [gk]. *)
Definition put_group (gk : string) (g : Group) (a : Account) : Account :=
  set_Groups (<[gk := g]> <$> Account_Groups a) a.

(* ------------------------------------------------------------------ *)
(** ** Errors of the store *)

Definition errAccountNotFound : error := Status NotFound "account not found".
Definition errPeerNotFound : error := Status NotFound "peer not found".
Definition errNoGroupAll : error := Plain "no group ALL found".

Section store.
Context `{Runtime}.

(* ---------------------------------------------------------------- *)
(** ** Files *)

(** util.WriteJson: create the directory, marshal, create, close and write
    a temporary file, rename it over the target.  Only the rename touches
    the target. *)
Definition WriteJson (obj : gmap string Account) : MW unit :=
  _ ← os_call;  (* MkdirAll *)
  _ ← os_call;  (* MarshalIndent *)
  _ ← os_call;  (* TempFile *)
  _ ← os_call;  (* Close *)
  _ ← os_call;  (* WriteFile *)
  _ ← os_call;  (* Rename *)
  modify (set_Disk (Some obj)).

(** util.ReadJson: open, read, unmarshal. *)
Definition ReadJson : MW (gmap string Account) :=
  _ ← os_call;
  _ ← os_call;
  _ ← os_call;
  d ← gets World_Disk;
  deref d.

Definition persist : MW unit :=
  s ← get_store; WriteJson (Accounts s).

(* ---------------------------------------------------------------- *)
(** ** Accounts *)

(** account.go: the first group named "All" in iteration order, with its
    key. *)
Definition GetGroupAll (a : Account) : MW (string * Group) :=
  groups ← range (map_of (Account_Groups a));
  match find (λ kg, bool_decide (Group_Name kg.2 = "All")) groups with
  | Some kg => mret kg
  | None => fail errNoGroupAll
  end.

Definition GetAccount (accountId : string) : MW Account :=
  s ← get_store; or_fail (Accounts s !! accountId) errAccountNotFound.

Definition GetAllAccounts : MW (list Account) :=
  s ← get_store; l ← range (Accounts s); mret l.*2.

(** SaveAccount: insert the account, then extend the indexes; a rule that
    names a group the account does not have dereferences a nil group. *)
Definition index_rule_src (account : Account) (rule : Rule) : MW unit :=
  for_each (Rule_Source rule) (λ gid,
    g ← deref (map_get (Account_Groups account) gid);
    for_each (Group_Peers g) (λ pid, modify_store (index_src pid (Rule_ID rule)))).
Definition index_rule_dst (account : Account) (rule : Rule) : MW unit :=
  for_each (Rule_Destination rule) (λ gid,
    g ← deref (map_get (Account_Groups account) gid);
    for_each (Group_Peers g) (λ pid, modify_store (index_dst pid (Rule_ID rule)))).

Definition index_setup_keys (id : string) (keys : list (string * SetupKey)) : MW unit :=
  for_each keys (λ kv, modify_store (λ s,
    set_SetupKeyIdx (<[ToUpper kv.1 := id]> (SetupKeyId2AccountId s)) s)).
Definition index_peers (id : string) (peers : list (string * Peer)) : MW unit :=
  for_each peers (λ kv, modify_store (λ s,
    set_PeerIdx (<[Peer_Key kv.2 := id]> (PeerKeyId2AccountId s)) s)).
Definition index_users (id : string) (users : list (string * User)) : MW unit :=
  for_each users (λ kv, modify_store (λ s,
    set_UserIdx (<[User_Id kv.2 := id]> (UserId2AccountId s)) s)).

Definition SaveAccount (account : Account) : MW unit :=
  _ ← modify_store (λ s, set_Accounts (<[Account_Id account := account]> (Accounts s)) s);
  keys ← range (Account_SetupKeys account);
  _ ← index_setup_keys (Account_Id account) keys;
  peers ← range (Account_Peers account);
  _ ← index_peers (Account_Id account) peers;
  rules ← range (map_of (Account_Rules account));
  _ ← for_each rules (λ kr,
        _ ← index_rule_src account kr.2;
        index_rule_dst account kr.2);
  users ← range (Account_Users account);
  _ ← index_users (Account_Id account) users;
  _ ← when (bool_decide (Account_DomainCategory account = PrivateCategory) &&
            Account_IsDomainPrimaryAccount account)
        (modify_store (λ s, set_DomainIdx
           (<[Account_Domain account := Account_Id account]> (PrivateDomain2AccountId s)) s));
  persist.

(** restore: a missing file gives an empty store, written at once;
    otherwise the indexes are rebuilt from the accounts read.  Here a missing
    group is skipped. *)
Definition restore_rule (account : Account) (rule : Rule) : MW unit :=
  _ ← for_each (Rule_Source rule) (λ gid,
        match map_get (Account_Groups account) gid with
        | Some g => for_each (Group_Peers g) (λ pid, modify_store (index_src pid (Rule_ID rule)))
        | None => mret tt
        end);
  for_each (Rule_Destination rule) (λ gid,
    match map_get (Account_Groups account) gid with
    | Some g => for_each (Group_Peers g) (λ pid, modify_store (index_dst pid (Rule_ID rule)))
    | None => mret tt
    end).

Definition restore_account (accountId : string) (account : Account) : MW unit :=
  keys ← range (Account_SetupKeys account);
  _ ← index_setup_keys accountId keys;
  rules ← range (map_of (Account_Rules account));
  _ ← for_each rules (λ kr, restore_rule account kr.2);
  peers ← range (Account_Peers account);
  _ ← index_peers accountId peers;
  users ← range (Account_Users account);
  _ ← index_users accountId users;
  users2 ← range (Account_Users account);
  _ ← index_users accountId users2;
  when (bool_decide (Account_Domain account ≠ "") &&
        bool_decide (Account_DomainCategory account = PrivateCategory) &&
        Account_IsDomainPrimaryAccount account)
    (modify_store (λ s, set_DomainIdx
       (<[Account_Domain account := accountId]> (PrivateDomain2AccountId s)) s)).

Definition restore : MW unit :=
  d ← gets World_Disk;
  match d with
  | None => _ ← modify_store (λ _, emptyStore); persist
  | Some _ =>
      accs ← ReadJson;
      _ ← modify_store (λ _, set_Accounts accs emptyStore);
      accounts ← range accs;
      for_each accounts (λ ka, restore_account ka.1 ka.2)
  end.

(* ---------------------------------------------------------------- *)
(** ** Peers *)

Definition SavePeer (accountId : string) (peer : Peer) : MW unit :=
  account ← GetAccount accountId;
  allGroup ← GetGroupAll account;
  let '(gk, g) := allGroup in
  _ ← when (bool_decide (Peer_Key peer ∉ Group_Peers g))
        (modify_account accountId
           (put_group gk (set_Group_Peers (Group_Peers g ++ [Peer_Key peer]) g)));
  _ ← modify_account accountId (λ a,
        set_Peers (<[Peer_Key peer := peer]> (Account_Peers a)) a);
  persist.

(** The cleanup of [DeletePeer]: [peers] is declared outside the loop over
    the groups. *)
Fixpoint cleanup_groups (peerKey : string) (peers : list string)
    (l : list (string * Group)) (groups : gmap string Group) : gmap string Group :=
  match l with
  | [] => groups
  | (gk, g) :: l' =>
      let peers' := peers ++ filter (λ p, p ≠ peerKey) (Group_Peers g) in
      cleanup_groups peerKey peers' l' (<[gk := set_Group_Peers peers' g]> groups)
  end.

Definition Store_DeletePeer (accountId peerKey : string) : MW Peer :=
  account ← GetAccount accountId;
  peer ← or_fail (Account_Peers account !! peerKey) errPeerNotFound;
  _ ← modify_account accountId (λ a, set_Peers (delete peerKey (Account_Peers a)) a);
  _ ← modify_store (λ s, set_PeerIdx (delete peerKey (PeerKeyId2AccountId s)) s);
  groups ← range (map_of (Account_Groups account));
  _ ← modify_account accountId (λ a,
        set_Groups (cleanup_groups peerKey [] groups <$> Account_Groups a) a);
  _ ← persist;
  mret peer.

Definition Store_GetPeer (peerKey : string) : MW Peer :=
  s ← get_store;
  accountId ← or_fail (PeerKeyId2AccountId s !! peerKey) errPeerNotFound;
  account ← GetAccount accountId;
  or_fail (Account_Peers account !! peerKey) errPeerNotFound.

Definition GetAccountPeers (accountId : string) : MW (list Peer) :=
  account ← GetAccount accountId;
  l ← range (Account_Peers account);
  mret l.*2.

(* ---------------------------------------------------------------- *)
(** ** Index lookups *)

Definition GetAccountByPrivateDomain (domain : string) : MW Account :=
  s ← get_store;
  accountId ← or_fail (PrivateDomain2AccountId s !! ToLower domain)
                (Status NotFound "provided domain is not registered or is not private");
  GetAccount accountId.

Definition GetAccountBySetupKey (setupKey : string) : MW Account :=
  s ← get_store;
  accountId ← or_fail (SetupKeyId2AccountId s !! ToUpper setupKey)
                (Status NotFound "provided setup key doesn't exists");
  GetAccount accountId.

Definition GetUserAccount (userId : string) : MW Account :=
  s ← get_store;
  accountId ← or_fail (UserId2AccountId s !! userId) errAccountNotFound;
  GetAccount accountId.

Definition GetPeerAccount (peerKey : string) : MW Account :=
  s ← get_store;
  accountId ← or_fail (PeerKeyId2AccountId s !! peerKey)
                (Status NotFound ("Provided peer key doesn't exists " +:+ peerKey));
  GetAccount accountId.

(** The rules of the index that the account still has. *)
Definition rules_by_id (account : Account) (ids : list (string * unit)) : list Rule :=
  omap (λ id, map_get (Account_Rules account) id.1) ids.

Definition GetPeerSrcRules (accountId peerKey : string) : MW (list Rule) :=
  account ← GetAccount accountId;
  s ← get_store;
  ruleIDs ← or_fail (PeerKeyId2SrcRulesId s !! peerKey) (Plain "no rules for peer: map[]");
  ids ← range ruleIDs;
  mret (rules_by_id account ids).

Definition GetPeerDstRules (accountId peerKey : string) : MW (list Rule) :=
  account ← GetAccount accountId;
  s ← get_store;
  ruleIDs ← or_fail (PeerKeyId2DstRulesId s !! peerKey) (Plain "no rules for peer: map[]");
  ids ← range ruleIDs;
  mret (rules_by_id account ids).
End store.

(* ------------------------------------------------------------------ *)
(** ** Index loops *)

(** What filling an index with one value per key does. *)
Definition fill_index {B} (f : string * B → string) (id : string)
    (l : list (string * B)) (m : gmap string string) : gmap string string :=
  foldl (λ m kv, <[f kv := id]> m) m l.

Lemma fill_index_lookup {B} (f : string * B → string) id l m k :
  fill_index f id l m !! k = if decide (k ∈ f <$> l) then Some id else m !! k.
Proof.
  unfold fill_index. revert m. induction l as [|kv l IH]; intros m; simpl; [done|].
  rewrite IH, lookup_insert. repeat case_decide; set_solver.
Qed.

Lemma index_setup_keys_run id l w :
  index_setup_keys id l w =
  (Ok tt, set_Store (set_SetupKeyIdx (fill_index (λ kv, ToUpper kv.1) id l
     (SetupKeyId2AccountId (World_Store w))) (World_Store w)) w).
Proof.
  unfold index_setup_keys, modify_store. rewrite for_each_modify. f_equal.
  revert w. induction l as [|kv l IH]; intros w; simpl; [by destruct w as [[]]|].
  by rewrite IH.
Qed.

Lemma index_peers_run id l w :
  index_peers id l w =
  (Ok tt, set_Store (set_PeerIdx (fill_index (λ kv, Peer_Key kv.2) id l
     (PeerKeyId2AccountId (World_Store w))) (World_Store w)) w).
Proof.
  unfold index_peers, modify_store. rewrite for_each_modify. f_equal.
  revert w. induction l as [|kv l IH]; intros w; simpl; [by destruct w as [[]]|].
  by rewrite IH.
Qed.

Lemma index_users_run id l w :
  index_users id l w =
  (Ok tt, set_Store (set_UserIdx (fill_index (λ kv, User_Id kv.2) id l
     (UserId2AccountId (World_Store w))) (World_Store w)) w).
Proof.
  unfold index_users, modify_store. rewrite for_each_modify. f_equal.
  revert w. induction l as [|kv l IH]; intros w; simpl; [by destruct w as [[]]|].
  by rewrite IH.
Qed.

(* ------------------------------------------------------------------ *)
(** ** The rule indexes *)

(** The index [m] gives the rule [rid] for the peer [pid]. *)
Definition has_rule (m : gmap string (gmap string unit)) (pid rid : string) : Prop :=
  is_Some (default ∅ (m !! pid) !! rid).

Lemma has_rule_add m p r p' r' :
  has_rule (add_rule_id p r m) p' r' ↔ (p' = p ∧ r' = r) ∨ has_rule m p' r'.
Proof.
  unfold has_rule, add_rule_id. rewrite lookup_insert. case_decide as Hp; simpl.
  - subst p'. rewrite lookup_insert. case_decide as Hr.
    + subst. split; [by left|]. intros _. by eexists.
    + split; [by right|]. intros [[_ ?]|?]; [by subst|done].
  - split; [by right|]. intros [[? _]|?]; [by subst|done].
Qed.

(** No peer has an entry without rules. *)
Definition full_rules (s : FileStore) : Prop :=
  (∀ p, is_Some (PeerKeyId2SrcRulesId s !! p) → ∃ r, has_rule (PeerKeyId2SrcRulesId s) p r) ∧
  (∀ p, is_Some (PeerKeyId2DstRulesId s !! p) → ∃ r, has_rule (PeerKeyId2DstRulesId s) p r).
Lemma has_rule_entry m p r : has_rule m p r → is_Some (m !! p).
Proof. unfold has_rule. destruct (m !! p) as [ids|]; [by eexists|]. simpl. rewrite lookup_empty. by intros []. Qed.
Lemma full_add p r m :
  (∀ q, is_Some (m !! q) → ∃ r, has_rule m q r) → ∀ q, is_Some (add_rule_id p r m !! q) → ∃ r', has_rule (add_rule_id p r m) q r'.
Proof.
  intros Hm q Hq. destruct (decide (q = p)) as [->|Hne]; [exists r; apply has_rule_add; by left|].
  unfold add_rule_id in Hq. rewrite lookup_insert_ne in Hq by done. destruct (Hm q Hq) as [r' Hr]. exists r'. apply has_rule_add. by right.
Qed.

(** The pairs an account derives: peer [pid] is in a source (destination)
    group of a rule with identifier [rid]. *)
Definition rule_pairs (groups_of : Rule → list string) (a : Account) (pid rid : string) : Prop :=
  ∃ k rule gid g, map_get (Account_Rules a) k = Some rule ∧ gid ∈ groups_of rule ∧
    map_get (Account_Groups a) gid = Some g ∧ pid ∈ Group_Peers g ∧ rid = Rule_ID rule.
Definition src_fact := rule_pairs Rule_Source.
Definition dst_fact := rule_pairs Rule_Destination.

(** Every group a rule names exists. *)
Definition rule_resolves (a : Account) (rule : Rule) : Prop :=
  ∀ gid, gid ∈ Rule_Source rule ++ Rule_Destination rule →
    is_Some (map_get (Account_Groups a) gid).
Definition rules_resolve (a : Account) : Prop :=
  ∀ k rule, map_get (Account_Rules a) k = Some rule → rule_resolves a rule.

(** What indexing rules of [a] may change: the two rule indexes grow, by
    pairs of [a] only. *)
Record indexing (a : Account) (w w' : World) : Prop := {
  ix_rest : World_Disk w' = World_Disk w ∧ World_Upd w' = World_Upd w ∧
            World_Turn w' = World_Turn w ∧ World_Idp w' = World_Idp w;
  ix_store : ∃ src dst, World_Store w' = set_DstRules dst (set_SrcRules src (World_Store w));
  ix_src_mono p r : has_rule (PeerKeyId2SrcRulesId (World_Store w)) p r →
                    has_rule (PeerKeyId2SrcRulesId (World_Store w')) p r;
  ix_dst_mono p r : has_rule (PeerKeyId2DstRulesId (World_Store w)) p r →
                    has_rule (PeerKeyId2DstRulesId (World_Store w')) p r;
  ix_src_new p r : has_rule (PeerKeyId2SrcRulesId (World_Store w')) p r →
                   has_rule (PeerKeyId2SrcRulesId (World_Store w)) p r ∨ src_fact a p r;
  ix_dst_new p r : has_rule (PeerKeyId2DstRulesId (World_Store w')) p r →
                   has_rule (PeerKeyId2DstRulesId (World_Store w)) p r ∨ dst_fact a p r;
  ix_full : full_rules (World_Store w) → full_rules (World_Store w') }.

#[export] Instance indexing_preorder a : PreOrder (indexing a).
Proof.
  split.
  - intros w. split; try done; [|by left|by left].
    exists (PeerKeyId2SrcRulesId (World_Store w)), (PeerKeyId2DstRulesId (World_Store w)).
    by destruct (World_Store w).
  - intros w1 w2 w3 [(?&?&?&?) (src&dst&Hs1) M1 M2 N1 N2 F1] [(?&?&?&?) (src'&dst'&Hs2) M3 M4 N3 N4 F2].
    split; eauto.
    + repeat split; congruence.
    + exists src', dst'. by rewrite Hs2, Hs1.
    + intros p r [?|?]%N3; eauto.
    + intros p r [?|?]%N4; eauto.
Qed.

Lemma indexing_tick a n w : indexing a w (set_Tick n w).
Proof.
  destruct (PreOrder_Reflexive (R := indexing a) w) as [H1 H2 H3 H4 H5 H6 H7]. by split.
Qed.

(** One rule has been indexed. *)
Definition covers_rule (a : Account) (rule : Rule) (s : FileStore) : Prop :=
  (∀ gid g pid, gid ∈ Rule_Source rule → map_get (Account_Groups a) gid = Some g →
     pid ∈ Group_Peers g → has_rule (PeerKeyId2SrcRulesId s) pid (Rule_ID rule)) ∧
  (∀ gid g pid, gid ∈ Rule_Destination rule → map_get (Account_Groups a) gid = Some g →
     pid ∈ Group_Peers g → has_rule (PeerKeyId2DstRulesId s) pid (Rule_ID rule)).

Lemma covers_rule_mono a b rule w w' :
  indexing b w w' → covers_rule a rule (World_Store w) → covers_rule a rule (World_Store w').
Proof. intros Hix [H1 H2]. split; intros; [eapply ix_src_mono|eapply ix_dst_mono]; eauto. Qed.

Lemma index_src_step a pid rid w :
  src_fact a pid rid →
  indexing a w (set_Store (index_src pid rid (World_Store w)) w) ∧
  has_rule (PeerKeyId2SrcRulesId (index_src pid rid (World_Store w))) pid rid.
Proof.
  intros Hfact. split; [|simpl; apply has_rule_add; by left].
  split; simpl; try done; [by eexists _, _| | | |]; [intros p r; rewrite ?has_rule_add; try tauto..|].
  - intros [[-> ->]|?]; auto.
  - intros [F1 F2]. split; [by apply full_add|done].
Qed.

Lemma index_dst_step a pid rid w :
  dst_fact a pid rid →
  indexing a w (set_Store (index_dst pid rid (World_Store w)) w) ∧
  has_rule (PeerKeyId2DstRulesId (index_dst pid rid (World_Store w))) pid rid.
Proof.
  intros Hfact. split; [|simpl; apply has_rule_add; by left].
  split; simpl; try done; [by exists (PeerKeyId2SrcRulesId (World_Store w)); eexists| | | |];
    [intros p r; rewrite ?has_rule_add; try tauto..|].
  - intros [[-> ->]|?]; auto.
  - intros [F1 F2]. split; [done|by apply full_add].
Qed.

Section index_side.
Context `{Runtime} (a : Account).
Context (step : string → string → FileStore → FileStore).
Context (idx : FileStore → gmap string (gmap string unit)).
Context (groups_of : Rule → list string).
Hypothesis step_spec : ∀ pid rid w, rule_pairs groups_of a pid rid →
  indexing a w (set_Store (step pid rid (World_Store w)) w) ∧
  has_rule (idx (step pid rid (World_Store w))) pid rid.
Hypothesis idx_mono : ∀ w w' p r, indexing a w w' →
  has_rule (idx (World_Store w)) p r → has_rule (idx (World_Store w')) p r.

Lemma index_group_spec l rid w :
  (∀ pid, pid ∈ l → rule_pairs groups_of a pid rid) →
  wp (for_each l (λ pid, modify_store (step pid rid))) (λ r w',
    r = Ok tt ∧ indexing a w w' ∧
    ∀ pid, pid ∈ l → has_rule (idx (World_Store w')) pid rid) w.
Proof.
  intros Hl. apply (wp_for_each_all (indexing a w)
    (λ pid w', has_rule (idx (World_Store w')) pid rid)); [done| |by auto].
  intros pid w' Hpid Hix. unfold modify_store. wp_step.
  destruct (step_spec pid rid w' (Hl _ Hpid)) as [Hix' Hhas].
  split; [by etrans|]. split; [done|]. intros y _. apply (idx_mono _ _ _ _ Hix').
Qed.

Definition side_covered (rule : Rule) (gid : string) (w : World) : Prop :=
  ∀ g pid, map_get (Account_Groups a) gid = Some g → pid ∈ Group_Peers g →
    has_rule (idx (World_Store w)) pid (Rule_ID rule).

(** SaveAccount's loop over one side of a rule. *)
Lemma index_side_spec k rule w :
  map_get (Account_Rules a) k = Some rule →
  wp (for_each (groups_of rule) (λ gid,
        g ← deref (map_get (Account_Groups a) gid);
        for_each (Group_Peers g) (λ pid, modify_store (step pid (Rule_ID rule))))) (λ r w',
    indexing a w w' ∧
    match r with
    | Ok _ => ∀ gid, gid ∈ groups_of rule →
        is_Some (map_get (Account_Groups a) gid) ∧ side_covered rule gid w'
    | Panic _ => ∃ gid, gid ∈ groups_of rule ∧ map_get (Account_Groups a) gid = None
    | _ => False
    end) w.
Proof.
  intros Hk. apply (wp_for_each_all (indexing a w)
    (λ gid w', is_Some (map_get (Account_Groups a) gid) ∧ side_covered rule gid w'));
    [done| |by auto].
  intros gid w' Hgid Hix. wp_step. wp_step; simpl; [|by eauto].
  eapply wp_mono.
  { apply index_group_spec. intros pid Hpid. eexists _, rule, gid, _. eauto. }
  intros r w'' (-> & Hix' & Hcov). split; [by etrans|]. split.
  - split; [by eexists|]. intros g pid Hg Hpid. simplify_eq. eauto.
  - intros gid' _ [? Hc]. split; [done|]. intros g pid Hg Hpid.
    eapply idx_mono; [done|]. by eapply Hc.
Qed.

(** restore's loop over one side of a rule. *)
Lemma restore_side_spec k rule w :
  map_get (Account_Rules a) k = Some rule →
  wp (for_each (groups_of rule) (λ gid,
        match map_get (Account_Groups a) gid with
        | Some g => for_each (Group_Peers g) (λ pid, modify_store (step pid (Rule_ID rule)))
        | None => mret tt
        end)) (λ r w',
    r = Ok tt ∧ indexing a w w' ∧
    ∀ gid, gid ∈ groups_of rule → side_covered rule gid w') w.
Proof.
  intros Hk. apply (wp_for_each_all (indexing a w) (side_covered rule)); [done| |by auto].
  intros gid w' Hgid Hix. destruct (map_get (Account_Groups a) gid) as [g|] eqn:Hg.
  - eapply wp_mono.
    { apply index_group_spec. intros pid Hpid. eexists _, rule, gid, _. eauto. }
    intros r w'' (-> & Hix' & Hcov). split; [by etrans|]. split.
    + intros g' pid Hg' Hpid. simplify_eq. eauto.
    + intros gid' _ Hc g' pid Hg' Hpid. eapply idx_mono; [done|]. by eapply Hc.
  - wp_step. split; [done|]. split; [|done]. intros g' pid Hg'. by rewrite Hg in Hg'.
Qed.
End index_side.

Section save_account.
Context `{Runtime}.

Lemma index_rules_spec a l w :
  (∀ k rule, (k, rule) ∈ l ↔ map_get (Account_Rules a) k = Some rule) →
  wp (for_each l (λ kr, _ ← index_rule_src a kr.2; index_rule_dst a kr.2)) (λ r w',
    indexing a w w' ∧
    match r with
    | Ok _ => rules_resolve a ∧
        ∀ k rule, map_get (Account_Rules a) k = Some rule → covers_rule a rule (World_Store w')
    | Panic _ => ¬ rules_resolve a
    | _ => False
    end) w.
Proof.
  intros Hl.
  apply (wp_for_each_all (indexing a w)
    (λ kr w', rule_resolves a kr.2 ∧ covers_rule a kr.2 (World_Store w'))); [done| |].
  2:{ intros w' Hix Hall. split; [done|]. split; intros k rule Hk%Hl; by apply (Hall (k, rule)). }
  intros [k rule] w' Hk%Hl Hix. simpl. wp_step.
  eapply wp_mono.
  { apply (index_side_spec a index_src PeerKeyId2SrcRulesId Rule_Source
      (index_src_step a) (λ w w' p r Hi, ix_src_mono a w w' Hi p r) k rule w' Hk). }
  intros [[]|e|s|] w1 [Hix1 Hr1]; simpl; try done.
  2:{ split; [by etrans|]. intros Hres. destruct Hr1 as (gid & Hgid & Hnone).
      destruct (Hres k rule Hk gid) as [g Hg]; [set_solver|congruence]. }
  eapply wp_mono.
  { apply (index_side_spec a index_dst PeerKeyId2DstRulesId Rule_Destination
      (index_dst_step a) (λ w w' p r Hi, ix_dst_mono a w w' Hi p r) k rule w1 Hk). }
  intros [[]|e|s|] w2 [Hix2 Hr2]; simpl; try done.
  2:{ split; [by etrans; [|etrans]|]. intros Hres. destruct Hr2 as (gid & Hgid & Hnone).
      destruct (Hres k rule Hk gid) as [g Hg]; [set_solver|congruence]. }
  split; [by etrans; [|etrans]|]. split; [split; [|split]|].
  - intros gid [Hs|Hd]%elem_of_app; [apply (Hr1 _ Hs)|apply (Hr2 _ Hd)].
  - intros gid g pid Hgid Hg Hpid. eapply ix_src_mono; [done|].
    by eapply (proj2 (Hr1 gid Hgid)).
  - intros gid g pid Hgid Hg Hpid. by eapply (proj2 (Hr2 gid Hgid)).
  - intros [k' rule'] _ [Hres Hc]. split; [done|]. simpl in *.
    apply (covers_rule_mono a a _ w1), (covers_rule_mono a a _ w'); done.
Qed.

Lemma persist_spec w :
  wp persist (λ r w',
    World_Store w' = World_Store w ∧ World_Upd w' = World_Upd w ∧
    World_Turn w' = World_Turn w ∧ World_Idp w' = World_Idp w ∧
    match r with
    | Ok _ => World_Disk w' = Some (Accounts (World_Store w))
    | Err _ => World_Disk w' = World_Disk w
    | _ => False
    end) w.
Proof. unfold persist, WriteJson, get_store. rt_go; done. Qed.
End save_account.

(** What saving [a] (or restoring it) may change, whatever the outcome: the
    indexes are extended by entries of [a], filed under [id]. *)
Record extended (id : string) (accs : gmap string Account) (a : Account) (w w' : World) : Prop := {
  ex_accounts : Accounts (World_Store w') = accs;
  ex_rest : World_Upd w' = World_Upd w ∧ World_Turn w' = World_Turn w ∧
            World_Idp w' = World_Idp w;
  ex_keys k : SetupKeyId2AccountId (World_Store w') !! k = SetupKeyId2AccountId (World_Store w) !! k ∨
    SetupKeyId2AccountId (World_Store w') !! k = Some id ∧
    ∃ i, is_Some (Account_SetupKeys a !! i) ∧ k = ToUpper i;
  ex_peers k : PeerKeyId2AccountId (World_Store w') !! k = PeerKeyId2AccountId (World_Store w) !! k ∨
    PeerKeyId2AccountId (World_Store w') !! k = Some id ∧
    ∃ i p, Account_Peers a !! i = Some p ∧ k = Peer_Key p;
  ex_users k : UserId2AccountId (World_Store w') !! k = UserId2AccountId (World_Store w) !! k ∨
    UserId2AccountId (World_Store w') !! k = Some id ∧
    ∃ i u, Account_Users a !! i = Some u ∧ k = User_Id u;
  ex_domains k : PrivateDomain2AccountId (World_Store w') !! k = PrivateDomain2AccountId (World_Store w) !! k ∨
    PrivateDomain2AccountId (World_Store w') !! k = Some id ∧ k = Account_Domain a ∧
    Account_DomainCategory a = PrivateCategory ∧ Account_IsDomainPrimaryAccount a = true;
  ex_src p r : has_rule (PeerKeyId2SrcRulesId (World_Store w)) p r →
    has_rule (PeerKeyId2SrcRulesId (World_Store w')) p r;
  ex_dst p r : has_rule (PeerKeyId2DstRulesId (World_Store w)) p r →
    has_rule (PeerKeyId2DstRulesId (World_Store w')) p r;
  ex_src_new p r : has_rule (PeerKeyId2SrcRulesId (World_Store w')) p r →
    has_rule (PeerKeyId2SrcRulesId (World_Store w)) p r ∨ src_fact a p r;
  ex_dst_new p r : has_rule (PeerKeyId2DstRulesId (World_Store w')) p r →
    has_rule (PeerKeyId2DstRulesId (World_Store w)) p r ∨ dst_fact a p r;
  ex_full : full_rules (World_Store w) → full_rules (World_Store w') }.

(** The same for [SaveAccount], which files the account under its own
    identifier. *)
Abbreviation saved a w w' :=
  (extended (Account_Id a) (<[Account_Id a := a]> (Accounts (World_Store w))) a w w').

(** The indexes know everything about [a], filed under [id]: what
    [SaveAccount] establishes when it gets to the end, and what [restore]
    establishes for every account. *)
Record covered (id : string) (a : Account) (s : FileStore) : Prop := {
  cv_keys k : is_Some (Account_SetupKeys a !! k) → SetupKeyId2AccountId s !! ToUpper k = Some id;
  cv_peers k p : Account_Peers a !! k = Some p → PeerKeyId2AccountId s !! Peer_Key p = Some id;
  cv_users k u : Account_Users a !! k = Some u → UserId2AccountId s !! User_Id u = Some id;
  cv_domain : Account_Domain a ≠ "" → Account_DomainCategory a = PrivateCategory →
    Account_IsDomainPrimaryAccount a = true →
    PrivateDomain2AccountId s !! Account_Domain a = Some id;
  cv_rules k rule : map_get (Account_Rules a) k = Some rule → covers_rule a rule s }.

Lemma fill_index_cases {B} (f : string * B → string) id l m k :
  fill_index f id l m !! k = m !! k ∨
  fill_index f id l m !! k = Some id ∧ ∃ kv, kv ∈ l ∧ k = f kv.
Proof.
  rewrite fill_index_lookup. case_decide as Hk; [right|by left].
  split; [done|]. apply list_elem_of_fmap in Hk as (kv & -> & ?). eauto.
Qed.

Lemma fill_index_in {B} (f : string * B → string) id l m kv :
  kv ∈ l → fill_index f id l m !! f kv = Some id.
Proof.
  intros Hkv. rewrite fill_index_lookup, decide_True; [done|].
  apply list_elem_of_fmap. eauto.
Qed.

(** The index maps after the loops over the lists [ku], [pu], [uu] of keys,
    peers and users of [a]; the two rule indexes up to [indexing]. *)
Record filled (id : string) (accs : gmap string Account) (a : Account) (dom : bool)
    (ku : list (string * SetupKey)) (pu : list (string * Peer)) (uu : list (string * User))
    (w w' : World) : Prop := {
  fl_accounts : Accounts (World_Store w') = accs;
  fl_rest : World_Upd w' = World_Upd w ∧ World_Turn w' = World_Turn w ∧
            World_Idp w' = World_Idp w;
  fl_keys : SetupKeyId2AccountId (World_Store w')
    = fill_index (λ kv, ToUpper kv.1) id ku (SetupKeyId2AccountId (World_Store w));
  fl_peers : PeerKeyId2AccountId (World_Store w')
    = fill_index (λ kv, Peer_Key kv.2) id pu (PeerKeyId2AccountId (World_Store w));
  fl_users : UserId2AccountId (World_Store w')
    = fill_index (λ kv, User_Id kv.2) id uu (UserId2AccountId (World_Store w));
  fl_domains : PrivateDomain2AccountId (World_Store w')
    = if dom then <[Account_Domain a := id]> (PrivateDomain2AccountId (World_Store w))
      else PrivateDomain2AccountId (World_Store w);
  fl_src p r : has_rule (PeerKeyId2SrcRulesId (World_Store w)) p r →
    has_rule (PeerKeyId2SrcRulesId (World_Store w')) p r;
  fl_dst p r : has_rule (PeerKeyId2DstRulesId (World_Store w)) p r →
    has_rule (PeerKeyId2DstRulesId (World_Store w')) p r;
  fl_src_new p r : has_rule (PeerKeyId2SrcRulesId (World_Store w')) p r →
    has_rule (PeerKeyId2SrcRulesId (World_Store w)) p r ∨ src_fact a p r;
  fl_dst_new p r : has_rule (PeerKeyId2DstRulesId (World_Store w')) p r →
    has_rule (PeerKeyId2DstRulesId (World_Store w)) p r ∨ dst_fact a p r;
  fl_full : full_rules (World_Store w) → full_rules (World_Store w') }.

Lemma filled_extended id accs a dom ku pu uu w w' :
  (∀ k v, (k, v) ∈ ku → Account_SetupKeys a !! k = Some v) →
  (∀ k v, (k, v) ∈ pu → Account_Peers a !! k = Some v) →
  (∀ k v, (k, v) ∈ uu → Account_Users a !! k = Some v) →
  (dom = true → Account_DomainCategory a = PrivateCategory ∧ Account_IsDomainPrimaryAccount a = true) →
  filled id accs a dom ku pu uu w w' → extended id accs a w w'.
Proof.
  intros Hku Hpu Huu Hdom [Ha Hr Hk Hp Hu Hd M1 M2 N1 N2 F]. split; try done.
  - intros k. rewrite Hk. destruct (fill_index_cases (λ kv, ToUpper kv.1) id ku
      (SetupKeyId2AccountId (World_Store w)) k) as [?|(? & [i v] & Hin & ->)]; [by left|right].
    split; [done|]. exists i. apply Hku in Hin. split; [by eexists|done].
  - intros k. rewrite Hp. destruct (fill_index_cases (λ kv, Peer_Key kv.2) id pu
      (PeerKeyId2AccountId (World_Store w)) k) as [?|(? & [i v] & Hin & ->)]; [by left|right].
    split; [done|]. exists i, v. by apply Hpu in Hin.
  - intros k. rewrite Hu. destruct (fill_index_cases (λ kv, User_Id kv.2) id uu
      (UserId2AccountId (World_Store w)) k) as [?|(? & [i v] & Hin & ->)]; [by left|right].
    split; [done|]. exists i, v. by apply Huu in Hin.
  - intros k. rewrite Hd. destruct dom; [|by left].
    rewrite lookup_insert. case_decide as Hk'; [right|by left]. by destruct (Hdom eq_refl).
Qed.

Lemma filled_covered id accs a dom ku pu uu w w' :
  (∀ k v, Account_SetupKeys a !! k = Some v → (k, v) ∈ ku) →
  (∀ k v, Account_Peers a !! k = Some v → (k, v) ∈ pu) →
  (∀ k v, Account_Users a !! k = Some v → (k, v) ∈ uu) →
  (Account_Domain a ≠ "" → Account_DomainCategory a = PrivateCategory →
     Account_IsDomainPrimaryAccount a = true → dom = true) →
  (∀ k rule, map_get (Account_Rules a) k = Some rule → covers_rule a rule (World_Store w')) →
  filled id accs a dom ku pu uu w w' → covered id a (World_Store w').
Proof.
  intros Hku Hpu Huu Hdom Hcov [Ha Hr Hk Hp Hu Hd M1 M2 N1 N2 F]. split; try done.
  - intros k [v Hv]. rewrite Hk. apply (fill_index_in (λ kv, ToUpper kv.1) _ _ _ (k, v)), Hku, Hv.
  - intros k p Hkp. rewrite Hp. apply (fill_index_in (λ kv, Peer_Key kv.2) _ _ _ (k, p)), Hpu, Hkp.
  - intros k u Hku'. rewrite Hu. apply (fill_index_in (λ kv, User_Id kv.2) _ _ _ (k, u)), Huu, Hku'.
  - intros H0 H1 H2. rewrite Hd, (Hdom H0 H1 H2). by rewrite lookup_insert_eq.
Qed.

(** Facts about worlds that ignore the tick and the file. *)
Lemma filled_ext id accs a dom ku pu uu w w1 w2 :
  World_Store w2 = World_Store w1 → World_Upd w2 = World_Upd w1 →
  World_Turn w2 = World_Turn w1 → World_Idp w2 = World_Idp w1 →
  filled id accs a dom ku pu uu w w1 → filled id accs a dom ku pu uu w w2.
Proof.
  intros Es Eu Et Ei [H1 H2 H3 H4 H5 H6 H7 H8 H9 H10 H11].
  split; rewrite ?Es, ?Eu, ?Et, ?Ei; try done.
Qed.

Lemma extended_ext id accs a w w1 w2 :
  World_Store w2 = World_Store w1 → World_Upd w2 = World_Upd w1 →
  World_Turn w2 = World_Turn w1 → World_Idp w2 = World_Idp w1 →
  extended id accs a w w1 → extended id accs a w w2.
Proof.
  intros Es Eu Et Ei [H1 H2 H3 H4 H5 H6 H7 H8 H9 H10 H11].
  split; rewrite ?Es, ?Eu, ?Et, ?Ei; try done.
Qed.

Section save_account_spec.
Context `{Runtime}.

(** The last part of [SaveAccount]: users, domain, file. *)
Lemma save_tail_spec id accs a ku pu w w4 :
  filled id accs a false ku pu [] w w4 → id = Account_Id a →
  wp (users ← range (Account_Users a);
      _ ← index_users (Account_Id a) users;
      _ ← when (bool_decide (Account_DomainCategory a = PrivateCategory) &&
                Account_IsDomainPrimaryAccount a)
            (modify_store (λ s, set_DomainIdx
               (<[Account_Domain a := Account_Id a]> (PrivateDomain2AccountId s)) s));
      persist) (λ r w',
    (∃ uu dom, (∀ k v, (k, v) ∈ uu ↔ Account_Users a !! k = Some v) ∧
      (dom = true ↔ Account_DomainCategory a = PrivateCategory ∧ Account_IsDomainPrimaryAccount a = true) ∧
      filled id accs a dom ku pu uu w w') ∧
    PeerKeyId2SrcRulesId (World_Store w') = PeerKeyId2SrcRulesId (World_Store w4) ∧
    PeerKeyId2DstRulesId (World_Store w') = PeerKeyId2DstRulesId (World_Store w4) ∧
    match r with
    | Ok _ => World_Disk w' = Some (Accounts (World_Store w'))
    | Err _ => World_Disk w' = World_Disk w4
    | _ => False
    end) w4.
Proof.
  intros [Ha Hr Hk Hp Hu Hd M1 M2 N1 N2 F] ->. unfold fill_index in Hu; simpl in Hu.
  wp_step. apply wp_range. intros uu nu Huu _. simpl. wp_step.
  unfold wp at 1. rewrite index_users_run. simpl. wp_step.
  set (dom := bool_decide _ && _).
  assert (dom = true ↔ Account_DomainCategory a = PrivateCategory ∧ Account_IsDomainPrimaryAccount a = true)
    as Hdom by (unfold dom; by rewrite andb_true_iff, bool_decide_eq_true).
  eapply wp_mono with (Q := λ r w6, r = Ok tt ∧ World_Disk w6 = World_Disk w4 ∧
    filled (Account_Id a) accs a dom ku pu uu w w6 ∧
    PeerKeyId2SrcRulesId (World_Store w6) = PeerKeyId2SrcRulesId (World_Store w4) ∧
    PeerKeyId2DstRulesId (World_Store w6) = PeerKeyId2DstRulesId (World_Store w4)).
  { clearbody dom. unfold modify_store. destruct dom; unfold when; [apply wp_modify|apply wp_ret]; simpl; (split; [done|]);
      (split; [done|]); (split; [|done]); split; simpl; rewrite ?Hu, ?Hd; done. }
  intros r w6 (-> & Ed & Hf & Esrc & Edst). simpl.
  eapply wp_mono; [apply persist_spec|]. intros r w7 (Es & Eu & Et & Ei & Hr7).
  split; [exists uu, dom; split; [done|]; split; [done|]; by eapply filled_ext|].
  rewrite Es. split; [done|]. split; [done|]. destruct r as [[]|e|s|]; try done. congruence.
Qed.

(** Every run of [SaveAccount]. *)
Lemma SaveAccount_spec a w :
  wp (SaveAccount a) (λ r w', saved a w w' ∧
    match r with
    | Ok _ => rules_resolve a ∧ covered (Account_Id a) a (World_Store w') ∧
        World_Disk w' = Some (Accounts (World_Store w'))
    | Err _ => rules_resolve a ∧ covered (Account_Id a) a (World_Store w') ∧
        World_Disk w' = World_Disk w
    | Panic _ => ¬ rules_resolve a ∧ World_Disk w' = World_Disk w
    | Blocked => False
    end) w.
Proof.
  unfold SaveAccount. wp_step. apply wp_modify. simpl.
  wp_step. apply wp_range. intros ku nk Hku _. simpl. wp_step.
  unfold wp at 1. rewrite index_setup_keys_run. simpl.
  wp_step. apply wp_range. intros pu np Hpu _. simpl. wp_step.
  unfold wp at 1. rewrite index_peers_run. simpl.
  wp_step. apply wp_range. intros rules nr Hrules _. simpl. wp_step.
  eapply wp_mono; [by apply index_rules_spec|]. intros r w4 [Hix Hr].
  assert (filled (Account_Id a) (<[Account_Id a := a]> (Accounts (World_Store w)))
            a false ku pu [] w w4) as Hf.
  { destruct Hix as [(?&?&?&?) (src & dst & Hst) M1 M2 N1 N2 F]. simpl in *.
    split; try done; by rewrite Hst. }
  assert (World_Disk w4 = World_Disk w) as Ed by apply Hix.
  destruct r as [[]|e|s|]; try done; simpl.
  2:{ split; [|done]. eapply filled_extended; [..|done]; try done; try apply Hku; try apply Hpu.
      by intros k v ?%not_elem_of_nil. }
  destruct Hr as [Hres Hcov].
  eapply wp_mono; [by apply save_tail_spec|].
  intros r w7 ((uu & dom & Huu & Hdom & Hf7) & Esrc & Edst & Hr7).
  split; [eapply filled_extended; [..|done]; try apply Hku; try apply Hpu; try apply Huu; apply Hdom|].
  assert (covered (Account_Id a) a (World_Store w7)) as Hcv.
  { eapply filled_covered; [..|done]; try apply Hku; try apply Hpu; try apply Huu;
      [intros _ ? ?; by apply Hdom|].
    intros k rule Hk. destruct (Hcov k rule Hk) as [H1 H2].
    split; [rewrite Esrc|rewrite Edst]; done. }
  destruct r as [[]|e|s|]; try done. split; [done|]. split; [done|]. congruence.
Qed.
End save_account_spec.

(* ------------------------------------------------------------------ *)
(** ** Restoring *)

(** Who owns an index entry, by the accounts alone. *)
Definition key_owner (accs : gmap string Account) (k id : string) : Prop :=
  ∃ a i, accs !! id = Some a ∧ is_Some (Account_SetupKeys a !! i) ∧ k = ToUpper i.
Definition peer_owner (accs : gmap string Account) (k id : string) : Prop :=
  ∃ a i p, accs !! id = Some a ∧ Account_Peers a !! i = Some p ∧ k = Peer_Key p.
Definition user_owner (accs : gmap string Account) (k id : string) : Prop :=
  ∃ a i u, accs !! id = Some a ∧ Account_Users a !! i = Some u ∧ k = User_Id u.
Definition domain_owner (accs : gmap string Account) (k id : string) : Prop :=
  ∃ a, accs !! id = Some a ∧ k = Account_Domain a ∧ k ≠ "" ∧
    Account_DomainCategory a = PrivateCategory ∧ Account_IsDomainPrimaryAccount a = true.

(** Every entry has an owner, and everything owned has an entry. *)
Definition indexes (owner : string → string → Prop) (m : gmap string string) : Prop :=
  (∀ k id, m !! k = Some id → owner k id) ∧ (∀ k id, owner k id → is_Some (m !! k)).

(** The indexes of [s] are those the accounts derive. *)
Record derived (accs : gmap string Account) (s : FileStore) : Prop := {
  dv_accounts : Accounts s = accs;
  dv_keys : indexes (key_owner accs) (SetupKeyId2AccountId s);
  dv_peers : indexes (peer_owner accs) (PeerKeyId2AccountId s);
  dv_users : indexes (user_owner accs) (UserId2AccountId s);
  dv_domains : indexes (domain_owner accs) (PrivateDomain2AccountId s);
  dv_src p r : has_rule (PeerKeyId2SrcRulesId s) p r ↔ ∃ id a, accs !! id = Some a ∧ src_fact a p r;
  dv_dst p r : has_rule (PeerKeyId2DstRulesId s) p r ↔ ∃ id a, accs !! id = Some a ∧ dst_fact a p r;
  dv_full : full_rules s }.

Lemma fill_index_app {B} (f : string * B → string) id l1 l2 m :
  fill_index f id (l1 ++ l2) m = fill_index f id l2 (fill_index f id l1 m).
Proof. apply foldl_app. Qed.

Section restore_spec.
Context `{Runtime}.

Lemma restore_rule_spec a k rule w :
  map_get (Account_Rules a) k = Some rule →
  wp (restore_rule a rule) (λ r w',
    r = Ok tt ∧ indexing a w w' ∧ covers_rule a rule (World_Store w')) w.
Proof.
  intros Hk. unfold restore_rule. wp_step. eapply wp_mono.
  { apply (restore_side_spec a index_src PeerKeyId2SrcRulesId Rule_Source
      (index_src_step a) (λ w w' p r Hi, ix_src_mono a w w' Hi p r) k rule w Hk). }
  intros r w1 (-> & Hix1 & Hc1). simpl. eapply wp_mono.
  { apply (restore_side_spec a index_dst PeerKeyId2DstRulesId Rule_Destination
      (index_dst_step a) (λ w w' p r Hi, ix_dst_mono a w w' Hi p r) k rule w1 Hk). }
  intros r w2 (-> & Hix2 & Hc2). split; [done|]. split; [by etrans|].
  split; intros gid g pid Hgid Hg Hpid.
  - eapply ix_src_mono; [done|]. by eapply Hc1.
  - by eapply Hc2.
Qed.

Lemma restore_rules_spec a l w :
  (∀ k rule, (k, rule) ∈ l ↔ map_get (Account_Rules a) k = Some rule) →
  wp (for_each l (λ kr, restore_rule a kr.2)) (λ r w',
    r = Ok tt ∧ indexing a w w' ∧
    ∀ k rule, map_get (Account_Rules a) k = Some rule → covers_rule a rule (World_Store w')) w.
Proof.
  intros Hl. apply (wp_for_each_all (indexing a w)
    (λ kr w', covers_rule a kr.2 (World_Store w'))); [done| |].
  2:{ intros w' Hix Hall. split; [done|]. split; [done|]. intros k rule Hk%Hl.
      by apply (Hall (k, rule)). }
  intros [k rule] w' Hk%Hl Hix. simpl.
  eapply wp_mono; [by apply (restore_rule_spec a k)|]. intros r w1 (-> & Hix1 & Hc).
  split; [by etrans|]. split; [done|]. intros y _. by apply (covers_rule_mono a a).
Qed.

(** The loop of [restore] over the accounts, one turn. *)
Lemma restore_account_spec id a w :
  wp (restore_account id a) (λ r w', r = Ok tt ∧ World_Disk w' = World_Disk w ∧
    extended id (Accounts (World_Store w)) a w w' ∧
    (∀ k, PrivateDomain2AccountId (World_Store w') !! k = PrivateDomain2AccountId (World_Store w) !! k ∨ k ≠ "") ∧
    covered id a (World_Store w')) w.
Proof.
  unfold restore_account. wp_step. apply wp_range. intros ku nk Hku _. simpl. wp_step.
  unfold wp at 1. rewrite index_setup_keys_run. simpl.
  wp_step. apply wp_range. intros rules nr Hrules _. simpl. wp_step.
  eapply wp_mono; [by apply restore_rules_spec|]. intros r w1 (-> & Hix & Hcov). simpl.
  wp_step. apply wp_range. intros pu np Hpu _. simpl. wp_step.
  unfold wp at 1. rewrite index_peers_run. simpl.
  wp_step. apply wp_range. intros uu nu Huu _. simpl. wp_step.
  unfold wp at 1. rewrite index_users_run. simpl.
  wp_step. apply wp_range. intros uu2 nu2 Huu2 _. simpl. wp_step.
  unfold wp at 1. rewrite index_users_run. simpl.
  set (dom := bool_decide _ && _ && _).
  assert (dom = true ↔ Account_Domain a ≠ "" ∧ Account_DomainCategory a = PrivateCategory ∧
            Account_IsDomainPrimaryAccount a = true) as Hdom.
  { unfold dom. rewrite !andb_true_iff, !bool_decide_eq_true. tauto. }
  clearbody dom.
  apply (wp_mono _ (λ r w', r = Ok tt ∧ World_Disk w' = World_Disk w ∧
    PeerKeyId2SrcRulesId (World_Store w') = PeerKeyId2SrcRulesId (World_Store w1) ∧
    PeerKeyId2DstRulesId (World_Store w') = PeerKeyId2DstRulesId (World_Store w1) ∧
    filled id (Accounts (World_Store w)) a dom ku pu (uu ++ uu2) w w')).
  { destruct Hix as [(Hd & ? & ? & ?) (src & dst & Hst) M1 M2 N1 N2 F]. simpl in *.
    unfold when. destruct dom; [apply wp_modify|apply wp_ret]; (split; [done|]);
      (split; [done|]); (split; [done|]); (split; [done|]);
      split; simpl; try done; by rewrite ?fill_index_app, ?Hst. }
  intros r w6 (-> & Hd & Esrc & Edst & Hf). split; [done|]. split; [done|].
  split; [|split].
  - eapply filled_extended; [..|done]; try apply Hku; try apply Hpu; [|by intros (_ & ? & ?)%Hdom].
    intros k v [?|?]%elem_of_app; [by apply Huu|by apply Huu2].
  - intros k. rewrite (fl_domains _ _ _ _ _ _ _ _ _ Hf). destruct dom; [|by left].
    rewrite lookup_insert. case_decide as Hk; [right|by left]. subst k. by apply Hdom.
  - eapply filled_covered; [..|done]; try apply Hku; try apply Hpu; [|by intros; apply Hdom|].
    + intros k v Hv. apply elem_of_app. left. by apply Huu.
    + intros k rule Hk. destruct (Hcov k rule Hk) as [H1 H2].
      split; [rewrite Esrc|rewrite Edst]; done.
Qed.
End restore_spec.

(** Half of [derived]: every entry of the store comes from [accs]. *)
Record sound_index (accs : gmap string Account) (s : FileStore) : Prop := {
  si_keys k id : SetupKeyId2AccountId s !! k = Some id → key_owner accs k id;
  si_peers k id : PeerKeyId2AccountId s !! k = Some id → peer_owner accs k id;
  si_users k id : UserId2AccountId s !! k = Some id → user_owner accs k id;
  si_domains k id : PrivateDomain2AccountId s !! k = Some id → domain_owner accs k id;
  si_src p r : has_rule (PeerKeyId2SrcRulesId s) p r → ∃ id a, accs !! id = Some a ∧ src_fact a p r;
  si_dst p r : has_rule (PeerKeyId2DstRulesId s) p r → ∃ id a, accs !! id = Some a ∧ dst_fact a p r;
  si_full : full_rules s }.

(** The other half, for one account. *)
Record present (a : Account) (s : FileStore) : Prop := {
  pr_keys i : is_Some (Account_SetupKeys a !! i) → is_Some (SetupKeyId2AccountId s !! ToUpper i);
  pr_peers i p : Account_Peers a !! i = Some p → is_Some (PeerKeyId2AccountId s !! Peer_Key p);
  pr_users i u : Account_Users a !! i = Some u → is_Some (UserId2AccountId s !! User_Id u);
  pr_domain : Account_Domain a ≠ "" → Account_DomainCategory a = PrivateCategory →
    Account_IsDomainPrimaryAccount a = true → is_Some (PrivateDomain2AccountId s !! Account_Domain a);
  pr_src p r : src_fact a p r → has_rule (PeerKeyId2SrcRulesId s) p r;
  pr_dst p r : dst_fact a p r → has_rule (PeerKeyId2DstRulesId s) p r }.

Lemma covered_present id a s : covered id a s → present a s.
Proof.
  intros [Hk Hp Hu Hd Hr]. split.
  - intros i Hi. rewrite (Hk i Hi). by eexists.
  - intros i p Hi. rewrite (Hp i p Hi). by eexists.
  - intros i u Hi. rewrite (Hu i u Hi). by eexists.
  - intros H0 H1 H2. rewrite (Hd H0 H1 H2). by eexists.
  - intros p r (k & rule & gid & g & Hrule & Hgid & Hg & Hpid & ->).
    by eapply (proj1 (Hr k rule Hrule)).
  - intros p r (k & rule & gid & g & Hrule & Hgid & Hg & Hpid & ->).
    by eapply (proj2 (Hr k rule Hrule)).
Qed.

Lemma extended_present id accs b w w' a :
  extended id accs b w w' → present a (World_Store w) → present a (World_Store w').
Proof.
  assert (∀ (m m' : gmap string string) k (P : Prop), m' !! k = m !! k ∨ m' !! k = Some id ∧ P →
    is_Some (m !! k) → is_Some (m' !! k)) as Hup.
  { intros m m' k P [->|[-> _]] ?; [done|by eexists]. }
  intros Hex [Hk Hp Hu Hd Hs Ht]. split.
  - intros i Hi. eapply Hup; [apply (ex_keys _ _ _ _ _ Hex)|]. by apply Hk.
  - intros i p Hi. eapply Hup; [apply (ex_peers _ _ _ _ _ Hex)|]. by eapply Hp.
  - intros i u Hi. eapply Hup; [apply (ex_users _ _ _ _ _ Hex)|]. by eapply Hu.
  - intros H0 H1 H2. eapply Hup; [apply (ex_domains _ _ _ _ _ Hex)|]. by apply Hd.
  - intros p r Hpr. by eapply ex_src, Hs.
  - intros p r Hpr. by eapply ex_dst, Ht.
Qed.

Lemma extended_sound id accs a w w' :
  accs !! id = Some a → extended id accs a w w' →
  (∀ k, PrivateDomain2AccountId (World_Store w') !! k = PrivateDomain2AccountId (World_Store w) !! k ∨ k ≠ "") →
  sound_index accs (World_Store w) → sound_index accs (World_Store w').
Proof.
  intros Ha Hex Hne [Hk Hp Hu Hd Hs Ht Hf]. split.
  - intros k i Hki. destruct (ex_keys _ _ _ _ _ Hex k) as [E|(E & j & Hj & ->)];
      rewrite E in Hki; [by apply Hk|]. simplify_eq. by exists a, j.
  - intros k i Hki. destruct (ex_peers _ _ _ _ _ Hex k) as [E|(E & j & p & Hj & ->)];
      rewrite E in Hki; [by apply Hp|]. simplify_eq. by exists a, j, p.
  - intros k i Hki. destruct (ex_users _ _ _ _ _ Hex k) as [E|(E & j & u & Hj & ->)];
      rewrite E in Hki; [by apply Hu|]. simplify_eq. by exists a, j, u.
  - intros k i Hki. destruct (Hne k) as [E'|Hk0]; [rewrite E' in Hki; by apply Hd|].
    destruct (ex_domains _ _ _ _ _ Hex k) as [E|(E & -> & ?)];
      rewrite E in Hki; [by apply Hd|]. simplify_eq. by exists a.
  - intros p r [?|?]%(ex_src_new _ _ _ _ _ Hex); eauto.
  - intros p r [?|?]%(ex_dst_new _ _ _ _ _ Hex); eauto.
  - by apply (ex_full _ _ _ _ _ Hex).
Qed.

Lemma sound_present_derived accs s :
  Accounts s = accs → sound_index accs s →
  (∀ id a, accs !! id = Some a → present a s) → derived accs s.
Proof.
  intros Ha [Hk Hp Hu Hd Hs Ht Hfull] Hpr. split; [done| | | | | | |done].
  - split; [done|]. intros k id (a & i & Hid & Hi & ->). by eapply pr_keys; eauto.
  - split; [done|]. intros k id (a & i & p & Hid & Hi & ->). by eapply pr_peers; eauto.
  - split; [done|]. intros k id (a & i & u & Hid & Hi & ->). by eapply pr_users; eauto.
  - split; [done|]. intros k id (a & Hid & -> & ? & ? & ?). by eapply pr_domain; eauto.
  - intros p r. split; [apply Hs|]. intros (id & a & Hid & Hf). by eapply pr_src; eauto.
  - intros p r. split; [apply Ht|]. intros (id & a & Hid & Hf). by eapply pr_dst; eauto.
Qed.

Lemma has_rule_empty p r : ¬ has_rule ∅ p r.
Proof. intros [x Hx]. by rewrite lookup_empty in Hx. Qed.

Lemma empty_sound accs : sound_index accs (set_Accounts accs emptyStore).
Proof.
  split; simpl; [intros *; rewrite ?lookup_empty; try done; by intros ?%has_rule_empty..|].
  split; simpl; intros p; rewrite lookup_empty; by intros [].
Qed.

Section restore_whole.
Context `{Runtime}.

Lemma restore_loop_spec accs l w :
  (∀ id a, (id, a) ∈ l ↔ accs !! id = Some a) →
  Accounts (World_Store w) = accs → sound_index accs (World_Store w) →
  wp (for_each l (λ ka, restore_account ka.1 ka.2)) (λ r w',
    r = Ok tt ∧ World_Disk w' = World_Disk w ∧ derived accs (World_Store w')) w.
Proof.
  intros Hl Ha Hs. apply (wp_for_each_all
    (λ w', World_Disk w' = World_Disk w ∧ Accounts (World_Store w') = accs ∧
           sound_index accs (World_Store w'))
    (λ ka w', present ka.2 (World_Store w'))); [done| |].
  - intros [id a] w' Hin%Hl (Hd & Ha' & Hs'). simpl.
    eapply wp_mono; [apply restore_account_spec|].
    intros r w'' (-> & Hd' & Hex & Hne & Hcv). rewrite Ha' in Hex. split; [|split].
    + split; [congruence|]. split; [apply Hex|]. by eapply extended_sound.
    + by eapply covered_present.
    + intros y _. by eapply extended_present.
  - intros w' (Hd & Ha' & Hs') Hall. split; [done|]. split; [done|].
    apply sound_present_derived; try done. intros id a Hid%Hl. by apply (Hall (id, a)).
Qed.

Lemma restore_spec accs w :
  World_Disk w = Some accs →
  wp restore (λ r w', World_Disk w' = Some accs ∧
    match r with
    | Ok _ => derived accs (World_Store w')
    | Err _ => World_Store w' = World_Store w
    | _ => False
    end) w.
Proof.
  intros Hd. unfold restore, ReadJson, modify_store. wp_step. wp_step. rewrite Hd.
  rt_go; try done; [|congruence].
  match goal with E : World_Disk w = Some ?x |- _ => assert (x = accs) as -> by congruence end.
  eapply wp_mono; [by apply restore_loop_spec; [..|apply empty_sound]|].
  intros r w' (-> & Hd' & Hder). split; [|done]. by rewrite Hd'.
Qed.
End restore_whole.

(* ------------------------------------------------------------------ *)
(** ** Lookups *)

Section lookups.
Context `{Runtime}.

Lemma GetAccount_spec id (Q : Res Account → World → Prop) w :
  (∀ a, Accounts (World_Store w) !! id = Some a → Q (Ok a) w) →
  (Accounts (World_Store w) !! id = None → Q (Err errAccountNotFound) w) →
  wp (GetAccount id) Q w.
Proof. intros H1 H2. unfold GetAccount, get_store. by wp_go; [apply H1|apply H2]. Qed.

Lemma GetGroupAll_spec a w :
  wp (GetGroupAll a) (λ r w', same_state w w' ∧
    match r with
    | Ok kg => map_get (Account_Groups a) kg.1 = Some kg.2 ∧ Group_Name kg.2 = "All"
    | Err e => e = errNoGroupAll ∧
        ∀ k g, map_get (Account_Groups a) k = Some g → Group_Name g ≠ "All"
    | _ => False
    end) w.
Proof.
  unfold GetGroupAll. wp_step. apply wp_range. intros l n Hl _. simpl.
  destruct (find _ l) as [[k g]|] eqn:Hf; wp_step; (split; [done|]).
  - apply find_some in Hf as [Hin Hname]. split; [|by apply bool_decide_eq_true in Hname].
    simpl. by apply Hl, list_elem_of_In.
  - split; [done|]. intros k g Hg%Hl%list_elem_of_In.
    eapply find_none in Hf; [|done]. by apply bool_decide_eq_false in Hf.
Qed.

(** A lookup through an index: the entry, then the account. *)
Definition via_index (m : gmap string string) (k : string) (s : FileStore) : option Account :=
  id ← m !! k; Accounts s !! id.

Lemma GetPeerAccount_spec pk (Q : Res Account → World → Prop) w :
  (∀ id a, PeerKeyId2AccountId (World_Store w) !! pk = Some id →
     Accounts (World_Store w) !! id = Some a → Q (Ok a) w) →
  (via_index (PeerKeyId2AccountId (World_Store w)) pk (World_Store w) = None →
     ∀ msg, Q (Err (Status NotFound msg)) w) →
  wp (GetPeerAccount pk) Q w.
Proof.
  intros H1 H2. unfold GetPeerAccount, get_store, via_index in *. wp_step. wp_step. wp_step.
  wp_step; simpl; [|apply H2; by simplify_option_eq].
  apply GetAccount_spec; [by eauto|]. intros Hn. apply H2. by simplify_option_eq.
Qed.

Lemma GetUserAccount_spec u (Q : Res Account → World → Prop) w :
  (∀ id a, UserId2AccountId (World_Store w) !! u = Some id →
     Accounts (World_Store w) !! id = Some a → Q (Ok a) w) →
  (via_index (UserId2AccountId (World_Store w)) u (World_Store w) = None →
     Q (Err errAccountNotFound) w) →
  wp (GetUserAccount u) Q w.
Proof.
  intros H1 H2. unfold GetUserAccount, get_store, via_index in *. wp_step. wp_step. wp_step.
  wp_step; simpl; [|apply H2; by simplify_option_eq].
  apply GetAccount_spec; [by eauto|]. intros Hn. apply H2. by simplify_option_eq.
Qed.

Lemma GetAccountBySetupKey_spec k (Q : Res Account → World → Prop) w :
  (∀ id a, SetupKeyId2AccountId (World_Store w) !! ToUpper k = Some id →
     Accounts (World_Store w) !! id = Some a → Q (Ok a) w) →
  (via_index (SetupKeyId2AccountId (World_Store w)) (ToUpper k) (World_Store w) = None →
     ∀ msg, Q (Err (Status NotFound msg)) w) →
  wp (GetAccountBySetupKey k) Q w.
Proof.
  intros H1 H2. unfold GetAccountBySetupKey, get_store, via_index in *. wp_step. wp_step. wp_step.
  wp_step; simpl; [|apply H2; by simplify_option_eq].
  apply GetAccount_spec; [by eauto|]. intros Hn. apply H2. by simplify_option_eq.
Qed.

Lemma Store_GetPeer_spec pk (Q : Res Peer → World → Prop) w :
  (∀ id a p, PeerKeyId2AccountId (World_Store w) !! pk = Some id →
     Accounts (World_Store w) !! id = Some a → Account_Peers a !! pk = Some p → Q (Ok p) w) →
  ((a ← via_index (PeerKeyId2AccountId (World_Store w)) pk (World_Store w);
    Account_Peers a !! pk) = None → ∀ msg, Q (Err (Status NotFound msg)) w) →
  wp (Store_GetPeer pk) Q w.
Proof.
  intros H1 H2. unfold Store_GetPeer, get_store, via_index in *. wp_step. wp_step. wp_step.
  wp_step; simpl; [|apply H2; by simplify_option_eq].
  wp_step. apply GetAccount_spec; simpl; [|intros Hn; apply H2; by simplify_option_eq].
  intros acc Hacc. wp_step; [by eauto|]. apply H2. by simplify_option_eq.
Qed.
End lookups.

(* ------------------------------------------------------------------ *)
(** ** Peers *)

(** The account after [SavePeer]. *)
Definition with_peer (gk : string) (g : Group) (p : Peer) (a : Account) : Account :=
  set_Peers (<[Peer_Key p := p]> (Account_Peers a))
    (if decide (Peer_Key p ∈ Group_Peers g) then a
     else put_group gk (set_Group_Peers (Group_Peers g ++ [Peer_Key p]) g) a).

(** The members a group has after the loop of [DeletePeer]. *)
Definition members_but (peerKey : string) (kg : string * Group) : list string :=
  filter (λ p, p ≠ peerKey) (Group_Peers kg.2).

Lemma cleanup_groups_other pk acc l m gk :
  gk ∉ l.*1 → cleanup_groups pk acc l m !! gk = m !! gk.
Proof.
  revert acc m. induction l as [|[k g] l IH]; intros acc m; simpl; [done|].
  intros [Hne Hin]%not_elem_of_cons. rewrite IH by done. by rewrite lookup_insert_ne.
Qed.

Lemma cleanup_groups_at pk acc l1 gk g l2 m :
  NoDup (l1 ++ (gk, g) :: l2).*1 →
  cleanup_groups pk acc (l1 ++ (gk, g) :: l2) m !! gk
  = Some (set_Group_Peers (acc ++ mjoin (members_but pk <$> (l1 ++ [(gk, g)]))) g).
Proof.
  revert acc m. induction l1 as [|[k0 g0] l1 IH]; intros acc m Hnd; simpl.
  - inversion Hnd; subst. rewrite cleanup_groups_other by done.
    rewrite lookup_insert_eq. by rewrite app_nil_r.
  - inversion Hnd; subst. rewrite IH by done. by rewrite app_assoc.
Qed.

Section peers.
Context `{Runtime}.

Lemma SavePeer_spec id p w :
  wp (SavePeer id p) (λ r w',
    (same_state w w' ∧ (∃ e, r = Err e)) ∨
    (∃ a gk g, Accounts (World_Store w) !! id = Some a ∧
       map_get (Account_Groups a) gk = Some g ∧ Group_Name g = "All" ∧
       World_Store w' = set_Accounts (<[id := with_peer gk g p a]> (Accounts (World_Store w))) (World_Store w) ∧
       World_Upd w' = World_Upd w ∧ World_Turn w' = World_Turn w ∧ World_Idp w' = World_Idp w ∧
       (r = Ok tt ∨ ∃ e, r = Err e))) w.
Proof.
  unfold SavePeer. wp_step. apply GetAccount_spec; [|left; split; [done|by eexists]]. intros a Ha. simpl.
  wp_step. eapply wp_mono; [apply GetGroupAll_spec|].
  intros [[gk g]|e|s|] w1 [(Es&Ed&Eu&Et&Ei) Hg]; simpl in *; [|left; split; [done|by eexists]|done|done].
  destruct Hg as [Hg Hname]. wp_step.
  apply wp_when; intros Hdec; simpl; [apply wp_modify; simpl|];
    wp_step; apply wp_modify; simpl;
    (eapply wp_mono; [apply persist_spec|]); intros r w2 (Es2 & Eu2 & Et2 & Ei2 & Hr2);
    simpl in *; right; exists a, gk, g; do 3 (split; [done|]);
    (split; [|rewrite Eu2, Et2, Ei2; do 3 (split; [done|]);
              destruct r as [[]|e|s|]; try done; eauto]); rewrite Es2, Es in *; unfold with_peer.
  - apply bool_decide_eq_true in Hdec. rewrite decide_False by done.
    rewrite alter_alter_eq. by erewrite alter_alt_Some by done.
  - apply bool_decide_eq_false in Hdec. rewrite decide_True by (by apply dec_stable).
    by erewrite alter_alt_Some by done.
Qed.

(** The store after [DeletePeer], the groups being iterated in order [l]. *)
Definition deleted_peer (id pk : string) (l : list (string * Group)) (a : Account)
    (s : FileStore) : FileStore :=
  set_PeerIdx (delete pk (PeerKeyId2AccountId s))
    (set_Accounts (<[id := set_Groups (cleanup_groups pk [] l <$> Account_Groups a)
                            (set_Peers (delete pk (Account_Peers a)) a)]> (Accounts s)) s).

Lemma Store_DeletePeer_spec id pk w :
  wp (Store_DeletePeer id pk) (λ r w',
    (w' = w ∧ (∃ msg, r = Err (Status NotFound msg)) ∧
       (a ← Accounts (World_Store w) !! id; Account_Peers a !! pk) = None) ∨
    (∃ a p l, Accounts (World_Store w) !! id = Some a ∧ Account_Peers a !! pk = Some p ∧
       l ≡ₚ map_to_list (map_of (Account_Groups a)) ∧
       World_Store w' = deleted_peer id pk l a (World_Store w) ∧
       World_Upd w' = World_Upd w ∧ World_Turn w' = World_Turn w ∧ World_Idp w' = World_Idp w ∧
       (r = Ok p ∨ ∃ e, r = Err e))) w.
Proof.
  unfold Store_DeletePeer. wp_step. apply GetAccount_spec; simpl.
  2:{ intros Hn. left. split; [done|]. split; [by eexists|]. by rewrite Hn. }
  intros a Ha. wp_step. wp_step.
  2:{ left. split; [done|]. split; [by eexists|]. by rewrite Ha; simpl. }
  rename a0 into p, H0 into Hp. wp_step. apply wp_modify. simpl.
  wp_step. apply wp_modify. simpl. wp_step. apply wp_range. intros l n _ Hl. simpl.
  wp_step. apply wp_modify. simpl. wp_step. eapply wp_mono; [apply persist_spec|].
  intros r w2 (Es2 & Eu2 & Et2 & Ei2 & Hr2); simpl in *.
  assert (World_Store w2 = deleted_peer id pk l a (World_Store w)) as Hst.
  { rewrite Es2. unfold deleted_peer. rewrite alter_alter_eq. by erewrite alter_alt_Some by done. }
  destruct r as [[]|e|s|]; try done; [wp_step|]; right; exists a, p, l;
    do 7 (split; [done|]); eauto.
Qed.
End peers.

(* ------------------------------------------------------------------ *)
(** ** Properties *)

(** A group of the account after [DeletePeer], from one before. *)
Lemma deleted_peer_group id pk l a s gid g :
  l ≡ₚ map_to_list (map_of (Account_Groups a)) →
  map_get (Account_Groups a) gid = Some g →
  ∃ l1 l2, l = l1 ++ (gid, g) :: l2 ∧
    (a' ← Accounts (deleted_peer id pk l a s) !! id; map_get (Account_Groups a') gid)
    = Some (set_Group_Peers (mjoin (members_but pk <$> (l1 ++ [(gid, g)]))) g).
Proof.
  intros Hl Hg. assert ((gid, g) ∈ l) as Hin by (rewrite Hl; by apply elem_of_map_to_list).
  apply list_elem_of_split in Hin as (l1 & l2 & ->). exists l1, l2. split; [done|].
  simpl. rewrite lookup_insert_eq; simpl. unfold map_get, map_of in *.
  destruct (Account_Groups a) as [m|]; simpl in *; [|by rewrite lookup_empty in Hg].
  rewrite cleanup_groups_at; [done|].
  rewrite Hl. apply NoDup_fst_map_to_list.
Qed.

(** After a successful [DeletePeer] the peer is gone from the account,
    from the peer index and from every group of the account, and every other
    member of every group is still a member of it. *)
Theorem DeletePeer_removes_everywhere `{Runtime} id pk w p w' :
  Store_DeletePeer id pk w = (Ok p, w') →
  ∃ a a', Accounts (World_Store w) !! id = Some a ∧ Accounts (World_Store w') !! id = Some a' ∧
    Account_Peers a !! pk = Some p ∧ Account_Peers a' = delete pk (Account_Peers a) ∧
    PeerKeyId2AccountId (World_Store w') !! pk = None ∧
    (∀ id', id' ≠ id → Accounts (World_Store w') !! id' = Accounts (World_Store w) !! id') ∧
    ∀ gid g, map_get (Account_Groups a) gid = Some g →
      ∃ g', map_get (Account_Groups a') gid = Some g' ∧ (pk ∉ Group_Peers g') ∧
        ∀ q, q ∈ Group_Peers g → q ≠ pk → q ∈ Group_Peers g'.
Proof.
  intros Hrun. pose proof (Store_DeletePeer_spec id pk w) as Hwp.
  apply (wp_run _ _ _ _ _ Hrun) in Hwp as [(_ & [msg [=]] & _)|(a & p' & l & Ha & Hp & Hl & Hst & _ & _ & _ & Hr)].
  destruct Hr as [[= <-]|[e [=]]]. rewrite Hst.
  eexists a, _. split; [done|]. simpl. split; [apply lookup_insert_eq|].
  split; [done|]. split; [done|]. split; [apply lookup_delete_eq|].
  split; [intros id' Hne; by rewrite lookup_insert_ne|].
  intros gid g Hg. destruct (deleted_peer_group id pk l a (World_Store w) gid g Hl Hg)
    as (l1 & l2 & -> & Hg'). simpl in Hg'. rewrite lookup_insert_eq in Hg'. simpl in Hg'.
  eexists. split; [exact Hg'|]. simpl. split.
  - intros (ms & Hin & Hms)%list_elem_of_join.
    apply list_elem_of_fmap in Hms as (kg & -> & _).
    unfold members_but in Hin. by apply list_elem_of_filter in Hin as [? _].
  - intros q Hq Hne. apply list_elem_of_join. exists (members_but pk (gid, g)).
    split; [by apply list_elem_of_filter|]. apply list_elem_of_fmap.
    exists (gid, g). split; [done|]. apply elem_of_app. right. by apply list_elem_of_singleton.
Qed.

(** An account with the group [All] and a second group. *)
Definition demo_meta : PeerSystemMeta := mkMeta "h" "linux" "k" "c" "p" "o" "v" "".
Definition demo_peer (k : string) (d : Z) : Peer :=
  mkPeer k "SK" [100; 64; 0; d]%Z demo_meta k (Some (mkStatus 0 false)) "".
Definition demo_net : Network := mkNetwork "n" (mkIPNet [100; 64; 0; 0]%Z [255; 255; 0; 0]%Z) "" 0.
Definition demo_account : Account :=
  mkAccount "A" "u" "d" "" false ∅ demo_net
    {["p" := demo_peer "p" 1; "q" := demo_peer "q" 2; "r" := demo_peer "r" 3]} ∅
    (Some {["g1" := mkGroup "g1" "All" ["p"; "q"]; "g2" := mkGroup "g2" "Dev" ["r"; "p"]]})
    (Some {["rule" := mkRule "rule" "Default" ["g1"] ["g2"] TrafficFlowBidirect]}).
Definition demo_world : World := snd (@SaveAccount demo_runtime demo_account emptyWorld).

Lemma DeletePeer_removes_everywhere_witness :
  ∃ w' p a', @Store_DeletePeer demo_runtime "A" "p" demo_world = (Ok p, w') ∧
    Accounts (World_Store w') !! "A" = Some a' ∧ Account_Peers a' !! "p" = None.
Proof.
  destruct (@DeletePeer_removes_everywhere demo_runtime "A" "p" demo_world (demo_peer "p" 1)
    (snd (@Store_DeletePeer demo_runtime "A" "p" demo_world))
    ltac:(vm_compute; reflexivity)) as (a & a' & _ & Ha' & _ & Hp & _).
  exists (snd (@Store_DeletePeer demo_runtime "A" "p" demo_world)), (demo_peer "p" 1), a'.
  split; [vm_compute; reflexivity|].
  split; [exact Ha'|]. rewrite Hp. apply lookup_delete_eq.
Defined.

(** The cleanup of the groups in [DeletePeer] accumulates: when the
    account has a group, one of its groups (the last one iterated) ends up with
    the remaining members of all the groups. *)
Theorem DeletePeer_merges_groups `{Runtime} id pk w p w' a :
  Store_DeletePeer id pk w = (Ok p, w') →
  Accounts (World_Store w) !! id = Some a → map_of (Account_Groups a) ≠ ∅ →
  ∃ gid g' a', Accounts (World_Store w') !! id = Some a' ∧
    map_get (Account_Groups a') gid = Some g' ∧
    ∀ gid2 g2 q, map_get (Account_Groups a) gid2 = Some g2 → q ∈ Group_Peers g2 → q ≠ pk →
      q ∈ Group_Peers g'.
Proof.
  intros Hrun Ha Hne. pose proof (Store_DeletePeer_spec id pk w) as Hwp.
  apply (wp_run _ _ _ _ _ Hrun) in Hwp as [(_ & [msg [=]] & _)|(a0 & p' & l & Ha0 & Hp & Hl & Hst & _ & _ & _ & Hr)].
  assert (a0 = a) as -> by congruence.
  destruct (decide (l = [])) as [->|Hl0].
  { symmetry in Hl. apply Permutation_nil_r, map_to_list_empty_iff in Hl. done. }
  destruct (exists_last Hl0) as (l1 & [gid g] & ->).
  assert (map_get (Account_Groups a) gid = Some g) as Hg.
  { apply elem_of_map_to_list. rewrite <-Hl. apply elem_of_app. right. by apply list_elem_of_singleton. }
  assert (Hgo := Hg). unfold map_get, map_of in Hgo, Hl.
  destruct (Account_Groups a) as [m|] eqn:Em; simpl in *; [|by rewrite lookup_empty in Hgo].
  eexists gid, _, _. rewrite Hst; simpl. split; [apply lookup_insert_eq|]. simpl. rewrite Em. simpl.
  split; [unfold map_get; simpl; apply cleanup_groups_at; rewrite Hl; apply NoDup_fst_map_to_list|].
  simpl. intros gid2 g2 q Hg2 Hq Hqne. apply list_elem_of_join. exists (members_but pk (gid2, g2)).
  split; [by apply list_elem_of_filter|]. apply list_elem_of_fmap. exists (gid2, g2).
  split; [done|]. rewrite Hl. by apply elem_of_map_to_list.
Qed.

(** Deleting [p] puts [q], a member of [All] only, into [Dev] as well. *)
Lemma DeletePeer_merges_groups_witness :
  ∃ w' p gid g' a', @Store_DeletePeer demo_runtime "A" "p" demo_world = (Ok p, w') ∧
    Accounts (World_Store w') !! "A" = Some a' ∧ map_get (Account_Groups a') gid = Some g' ∧
    "q" ∈ Group_Peers g' ∧ "r" ∈ Group_Peers g'.
Proof.
  destruct (@DeletePeer_merges_groups demo_runtime "A" "p" demo_world (demo_peer "p" 1)
    (snd (@Store_DeletePeer demo_runtime "A" "p" demo_world)) demo_account
    ltac:(vm_compute; reflexivity) ltac:(vm_compute; reflexivity) ltac:(vm_compute; discriminate))
    as (gid & g' & a' & Ha' & Hg' & Hall).
  exists (snd (@Store_DeletePeer demo_runtime "A" "p" demo_world)), (demo_peer "p" 1), gid, g', a'.
  split; [vm_compute; reflexivity|].
  split; [exact Ha'|]. split; [exact Hg'|]. split.
  - apply (Hall "g1" (mkGroup "g1" "All" ["p"; "q"]) "q"); [vm_compute; reflexivity|repeat constructor|discriminate].
  - apply (Hall "g2" (mkGroup "g2" "Dev" ["r"; "p"]) "r"); [vm_compute; reflexivity|repeat constructor|discriminate].
Defined.

(** [SaveAccount] never blocks; it panics exactly when a rule of the
    account names a group the account does not have, otherwise it returns with
    the account stored, every index (setup keys, peers, users, private domain,
    rules by source and by destination peer) knowing everything about it, and
    no other account touched.  The store file is replaced only on success. *)
Theorem SaveAccount_outcomes `{Runtime} a w :
  wp (SaveAccount a) (λ r w',
    Accounts (World_Store w') = <[Account_Id a := a]> (Accounts (World_Store w)) ∧
    World_Disk w' = match r with Ok _ => Some (Accounts (World_Store w')) | _ => World_Disk w end ∧
    match r with
    | Ok _ | Err _ => rules_resolve a ∧ covered (Account_Id a) a (World_Store w')
    | Panic _ => ¬ rules_resolve a
    | Blocked => False
    end) w.
Proof.
  eapply wp_mono; [apply SaveAccount_spec|]. intros r w' [Hsv Hr].
  split; [apply Hsv|]. destruct r as [[]|e|s|]; try done;
    destruct Hr as (? & Hr); try done; by destruct Hr as (? & ?).
Qed.

(** C30: a restart after a successful [SaveAccount] loses nothing: reading the
    file back, whatever happened to the rest of the state, either fails with an
    I/O error or yields the same accounts, with indexes that hold exactly what
    the accounts derive.  It never panics, not even on rules naming missing
    groups. *)
Theorem save_then_restore `{Runtime} a w w1 w2 :
  SaveAccount a w = (Ok tt, w1) → World_Disk w2 = World_Disk w1 →
  wp restore (λ r w3, World_Disk w3 = World_Disk w1 ∧
    match r with
    | Ok _ => Accounts (World_Store w3) = Accounts (World_Store w1) ∧
        derived (Accounts (World_Store w1)) (World_Store w3)
    | Err _ => World_Store w3 = World_Store w2
    | _ => False
    end) w2.
Proof.
  intros Hsave Hdisk. pose proof (SaveAccount_spec a w) as Hwp.
  apply (wp_run _ _ _ _ _ Hsave) in Hwp as (_ & _ & _ & Hd).
  rewrite <-Hdisk in Hd. eapply wp_mono; [apply (restore_spec _ w2 Hd)|].
  intros r w3 [Hd3 Hr]. split; [congruence|].
  destruct r as [[]|e|s|]; try done. split; [apply Hr|done].
Qed.

Lemma World_Disk_set_Store s w : World_Disk (set_Store s w) = World_Disk w.
Proof. done. Qed.

Lemma save_then_restore_witness :
  ∃ w2, @restore demo_runtime (set_Store emptyStore demo_world) = (Ok tt, w2) ∧
    derived (Accounts (World_Store demo_world)) (World_Store w2) ∧
    has_rule (PeerKeyId2SrcRulesId (World_Store w2)) "q" "rule".
Proof.
  assert (@restore demo_runtime (set_Store emptyStore demo_world) =
    (Ok tt, snd (@restore demo_runtime (set_Store emptyStore demo_world)))) as Hrun
    by (vm_compute; reflexivity).
  pose proof (@save_then_restore demo_runtime demo_account emptyWorld demo_world
    (set_Store emptyStore demo_world) ltac:(vm_compute; reflexivity)
    (World_Disk_set_Store _ _)) as Hwp.
  apply (wp_run _ _ _ _ _ Hrun) in Hwp as (_ & _ & Hder).
  eexists. split; [exact Hrun|]. split; [exact Hder|]. eexists. vm_compute. reflexivity.
Defined.
