(* ===== verification/Account.v ===== *)
(** * Account: accounts and users (management/server/account.go, user.go)

    Creation and copying of accounts, setup-key management, the flows that
    find or create the account of an authenticated user, and the metadata
    pushed to the identity provider.  Each operation of the manager holds its
    mutex for its whole run, so it is one atomic step of the model. *)

From S2P Require Import Prelude GoLib Model Network SetupKey FileStore.

(* ------------------------------------------------------------------ *)
(** ** Copies *)

Definition Peer_Copy (p : Peer) : Peer :=
  mkPeer (Peer_Key p) (Peer_SetupKey p) (Peer_IP p) (Peer_Meta p) (Peer_Name p)
    (Peer_Status p) (Peer_UserID p).
Definition User_Copy (u : User) : User := mkUser (User_Id u) (User_Role u).
Definition Group_Copy (g : Group) : Group :=
  mkGroup (Group_ID g) (Group_Name g) (Group_Peers g).
Definition Rule_Copy (r : Rule) : Rule :=
  mkRule (Rule_ID r) (Rule_Name r) (Rule_Source r) (Rule_Destination r) (Rule_Flow r).

(** [Account.Copy]: the domain attributes are not copied. *)
Definition Account_Copy (a : Account) : Account :=
  mkAccount (Account_Id a) (Account_CreatedBy a) "" "" false
    (SetupKey_Copy <$> Account_SetupKeys a)
    (Network_Copy (Account_Network a))
    (Peer_Copy <$> Account_Peers a)
    (User_Copy <$> Account_Users a)
    (Some (Group_Copy <$> map_of (Account_Groups a)))
    (Some (Rule_Copy <$> map_of (Account_Rules a))).

(* ------------------------------------------------------------------ *)
(** ** Users *)

Definition NewUser (id role : string) : User := mkUser id role.
Definition NewRegularUser (id : string) : User := NewUser id UserRoleUser.
Definition NewAdminUser (id : string) : User := NewUser id UserRoleAdmin.

Definition mergeLocalAndQueryUser (queried : UserData) (local : User) : UserInfo :=
  mkUserInfo (User_Id local) (UserData_Email queried) (UserData_Name queried) (User_Role local).

Definition errFailed (msg : string) : error := Status Internal msg.

Section accounts.
Context `{Runtime}.

(* ------------------------------------------------------------------ *)
(** ** Creating accounts *)

(** The [All] group with every peer and the default rule from it to itself,
    when the account has no group. *)
Definition addAllGroup (account : Account) : MW Account :=
  if decide (map_len (Account_Groups account) = 0) then
    gid ← xid_New;
    peers ← range (Account_Peers account);
    rid ← xid_New;
    let allGroup := mkGroup gid "All" (Peer_Key <$> peers.*2) in
    let defaultRule := mkRule rid "Default" [gid] [gid] TrafficFlowBidirect in
    mret (set_Rules (Some {[rid := defaultRule]})
            (set_Groups (Some {[gid := allGroup]}) account))
  else mret account.

Definition newAccountWithId (accountId userId domain : string) : MW Account :=
  defaultKey ← GenerateDefaultSetupKey;
  oneOffKey ← GenerateSetupKey "One-off key" SetupKeyOneOff DefaultSetupKeyDuration;
  network ← NewNetwork;
  mret (mkAccount accountId userId domain "" false
          (<[SetupKey_Key oneOffKey := oneOffKey]> {[SetupKey_Key defaultKey := defaultKey]})
          network ∅ ∅ None None).

Definition NewAccount (userId domain : string) : MW Account :=
  accountId ← xid_New; newAccountWithId accountId userId domain.

Definition createAccount (accountId userId domain : string) : MW Account :=
  a ← newAccountWithId accountId userId domain;
  account ← addAllGroup a;
  _ ← SaveAccount account or_err errFailed "failed creating account";
  mret account.

Definition AddAccount := createAccount.

(** [BuildManager]: every stored account gets the default group and is saved
    again. *)
Definition BuildManager : MW unit :=
  accounts ← GetAllAccounts;
  for_each accounts (λ a, a' ← addAllGroup a; SaveAccount a').

Definition AccountExists (accountId : string) : MW bool :=
  r ← try (GetAccount accountId);
  match r with
  | inr _ => mret true
  | inl e => if decide (from_error (Some e) = (NotFound, true)) then mret false else fail e
  end.

Definition GetAccountById (accountId : string) : MW Account :=
  GetAccount accountId or_err errAccountNotFound.

(* ------------------------------------------------------------------ *)
(** ** Setup keys *)

Definition getAccountSetupKeyById (acc : Account) (keyId : string) : MW (option SetupKey) :=
  keys ← range (Account_SetupKeys acc);
  mret (snd <$> find (λ kv, bool_decide (keyId = SetupKey_Id kv.2)) keys).

Definition getAccountSetupKeyByKey (acc : Account) (key : string) : MW (option SetupKey) :=
  keys ← range (Account_SetupKeys acc);
  mret (snd <$> find (λ kv, bool_decide (key = SetupKey_Key kv.2)) keys).

Definition put_setup_key (k : SetupKey) (a : Account) : Account :=
  set_SetupKeys (<[SetupKey_Key k := k]> (Account_SetupKeys a)) a.

Definition AddSetupKey (accountId keyName keyType : string) (expiresIn : option Z) : MW SetupKey :=
  let keyDuration := default DefaultSetupKeyDuration expiresIn in
  account ← GetAccount accountId or_err errAccountNotFound;
  setupKey ← GenerateSetupKey keyName keyType keyDuration;
  _ ← SaveAccount (put_setup_key setupKey account) or_err errFailed "failed adding account key";
  mret setupKey.

Definition RevokeSetupKey (accountId keyId : string) : MW SetupKey :=
  account ← GetAccount accountId or_err errAccountNotFound;
  o ← getAccountSetupKeyById account keyId;
  setupKey ← or_fail o (Status NotFound ("unknown setupKey " +:+ keyId));
  let keyCopy := Revoke (SetupKey_Copy setupKey) in
  _ ← SaveAccount (put_setup_key keyCopy account) or_err errFailed "failed adding account key";
  mret keyCopy.

Definition RenameSetupKey (accountId keyId newName : string) : MW SetupKey :=
  account ← GetAccount accountId or_err errAccountNotFound;
  o ← getAccountSetupKeyById account keyId;
  setupKey ← or_fail o (Status NotFound ("unknown setupKey " +:+ keyId));
  let keyCopy := Rename newName (SetupKey_Copy setupKey) in
  _ ← SaveAccount (put_setup_key keyCopy account) or_err errFailed "failed adding account key";
  mret keyCopy.

(* ------------------------------------------------------------------ *)
(** ** The account of a user *)

(** [updateIDPMetadata]: nothing without a manager; a successful call is
    recorded in the world. *)
Definition updateIDPMetadata (userId accountID : string) : MW unit :=
  match rt_idp with
  | None => mret tt
  | Some idpManager =>
      t ← tick;
      match UpdateUserAppMetadata idpManager t userId accountID with
      | Some e => fail (errFailed ("updating user's app metadata failed with: " +:+ error_text e))
      | None => modify (λ w, set_Idp (World_Idp w ++ [(userId, accountID)]) w)
      end
  end.

Definition GetAccountByUser (userId : string) : MW Account := GetUserAccount userId.

Definition GetOrCreateAccountByUser (userId domain : string) : MW Account :=
  let lowerDomain := ToLower domain in
  r ← try (GetUserAccount userId);
  account ←
    match r with
    | inr account => mret account
    | inl err =>
        if decide (from_error (Some err) = (NotFound, true)) then
          a ← NewAccount userId lowerDomain;
          account ← addAllGroup (set_Users (<[userId := NewAdminUser userId]> (Account_Users a)) a);
          _ ← SaveAccount account or_err errFailed "failed creating account";
          mret account
        else fail err
    end;
  if decide (Account_Domain account ≠ lowerDomain) then
    let account' := set_Domain lowerDomain account in
    _ ← SaveAccount account' or_err errFailed "failed updating account with domain";
    mret account'
  else mret account.

Definition GetAccountByUserOrAccountId (userId accountId domain : string) : MW Account :=
  if decide (accountId ≠ "") then GetAccountById accountId
  else if decide (userId ≠ "") then
    account ← GetOrCreateAccountByUser userId domain
                or_err Status NotFound ("account not found using user id: " +:+ userId);
    _ ← updateIDPMetadata userId (Account_Id account);
    mret account
  else fail (Status NotFound "no valid user or account Id provided").

(** The domain attributes of an account, from the claims. *)
Definition updateAccountDomainAttributes (account : Account) (claims : AuthorizationClaims)
    (primaryDomain : bool) : MW Account :=
  let account' := set_DomainAttrs (ToLower (Claims_Domain claims))
                    (Claims_DomainCategory claims) primaryDomain account in
  _ ← SaveAccount account' or_err errFailed "failed saving updated account";
  mret account'.

Definition handleExistingUserAccount (existingAcc : Account) (domainAcc : option Account)
    (claims : AuthorizationClaims) : MW Account :=
  account ←
    match domainAcc with
    | Some d =>
        if decide (Account_Id existingAcc ≠ Account_Id d)
        then updateAccountDomainAttributes existingAcc claims false
        else updateAccountDomainAttributes existingAcc claims true
    | None => updateAccountDomainAttributes existingAcc claims true
    end;
  _ ← updateIDPMetadata (Claims_UserId claims) (Account_Id existingAcc);
  mret account.

Definition handleNewUserAccount (domainAcc : option Account) (claims : AuthorizationClaims)
    : MW Account :=
  let lowerDomain := ToLower (Claims_Domain claims) in
  account ←
    match domainAcc with
    | Some d =>
        let account := set_Users (<[Claims_UserId claims := NewRegularUser (Claims_UserId claims)]>
                                    (Account_Users d)) d in
        _ ← SaveAccount account or_err errFailed "failed saving updated account";
        mret account
    | None =>
        a ← NewAccount (Claims_UserId claims) lowerDomain;
        updateAccountDomainAttributes
          (set_Users (<[Claims_UserId claims := NewAdminUser (Claims_UserId claims)]>
                        (Account_Users a)) a) claims true
    end;
  _ ← updateIDPMetadata (Claims_UserId claims) (Account_Id account);
  mret account.

(** The account named by the claims, when it settles the matter. *)
Definition accountFromClaims (claims : AuthorizationClaims) : MW (option Account) :=
  if decide (Claims_AccountId claims ≠ "") then
    accountFromID ← GetAccountById (Claims_AccountId claims);
    _ ← or_fail (Account_Users accountFromID !! Claims_UserId claims)
          (Plain ("user " +:+ Claims_UserId claims +:+ " is not part of the account id "
                    +:+ Claims_AccountId claims));
    if decide (Account_DomainCategory accountFromID = PrivateCategory ∨
               Claims_DomainCategory claims ≠ PrivateCategory)
    then mret (Some accountFromID) else mret None
  else mret None.

Definition GetAccountWithAuthorizationClaims (claims : AuthorizationClaims) : MW Account :=
  if decide (Claims_DomainCategory claims ≠ PrivateCategory) then
    GetAccountByUserOrAccountId (Claims_UserId claims) (Claims_AccountId claims) (Claims_Domain claims)
  else
    early ← accountFromClaims claims;
    match early with
    | Some account => mret account
    | None =>
        d ← try (GetAccountByPrivateDomain (Claims_Domain claims));
        domainAccount ←
          match d with
          | inr a => mret (Some a)
          | inl err =>
              if decide ((from_error (Some err)).1 = NotFound) then mret None else fail err
          end;
        r ← try (GetUserAccount (Claims_UserId claims));
        match r with
        | inr account => handleExistingUserAccount account domainAccount claims
        | inl err =>
            if decide (from_error (Some err) = (NotFound, true))
            then handleNewUserAccount domainAccount claims
            else fail err
        end
    end.

Definition IsUserAdmin (claims : AuthorizationClaims) : MW bool :=
  account ← map_err (λ e, Plain ("get account: " +:+ error_text e))
              (GetAccountWithAuthorizationClaims claims);
  user ← or_fail (Account_Users account !! Claims_UserId claims) (Plain "no such user");
  mret (bool_decide (User_Role user = UserRoleAdmin)).

(** [GetUsersFromAccount]: the local users, completed by the identity
    provider when it knows any. *)
Definition GetUsersFromAccount (accountID : string) : MW (list UserInfo) :=
  account ← GetAccountById accountID;
  queriedUsers ←
    match rt_idp with
    | None => mret []
    | Some idpManager =>
        t ← tick;
        match GetBatchedUserData idpManager t accountID with
        | inl e => fail e
        | inr users => mret users
        end
    end;
  if decide (length queriedUsers = 0) then
    users ← range (Account_Users account);
    mret ((λ kv, mkUserInfo (User_Id kv.2) "" "" (User_Role kv.2)) <$> users)
  else
    mret (omap (λ q, mergeLocalAndQueryUser q <$> Account_Users account !! UserData_ID q) queriedUsers).
End accounts.

(* ------------------------------------------------------------------ *)
(** ** Specifications *)

(** What [newAccountWithId] builds. *)
Record new_account (id u d : string) (a : Account) : Prop := {
  na_id : Account_Id a = id;
  na_creator : Account_CreatedBy a = u;
  na_domain : Account_Domain a = d ∧ Account_DomainCategory a = "" ∧
              Account_IsDomainPrimaryAccount a = false;
  na_empty : Account_Peers a = ∅ ∧ Account_Users a = ∅ ∧
             Account_Groups a = None ∧ Account_Rules a = None;
  na_serial : Network_Serial (Account_Network a) = 0%Z }.

(** Accounts are stored under their identifier. *)
Definition well_keyed (s : FileStore) : Prop :=
  ∀ id a, Accounts s !! id = Some a → Account_Id a = id.

(** The identifier of the account of a known user. *)
Definition user_account (u : string) (s : FileStore) : option Account :=
  via_index (UserId2AccountId s) u s.

(** The user index leads to an account that has the user. *)
Definition users_indexed (s : FileStore) : Prop :=
  ∀ u a, user_account u s = Some a → is_Some (Account_Users a !! u).

Lemma same_state_store w w' : same_state w w' → World_Store w' = World_Store w.
Proof. by intros (? & _). Qed.

Section account_specs.
Context `{Runtime}.

Lemma GenerateSetupKey_run name t d w :
  wp (GenerateSetupKey name t d) (λ r w', same_state w w' ∧ ∃ k, r = Ok k ∧
    SetupKey_Type k = t ∧ SetupKey_Name k = name ∧ SetupKey_UsedTimes k = 0%Z ∧
    SetupKey_Revoked k = false) w.
Proof. unfold GenerateSetupKey. rt_go. split; [done|]. by eexists. Qed.

Lemma NewNetwork_run w :
  wp NewNetwork (λ r w', same_state w w' ∧
    match r with
    | Ok n => Network_Serial n = 0%Z ∧ Network_Net n ∈ rt_subnets [100; 64; 0; 0]%Z 10 16
    | Panic _ => rt_subnets [100; 64; 0; 0]%Z 10 16 = []
    | _ => False
    end) w.
Proof.
  unfold NewNetwork. rt_go. destruct (rt_subnets _ _ _) as [|n0 sub] eqn:Hsub; [done|].
  apply wp_rand_Intn; [simpl; lia|]. intros i m Hi. simpl. rt_go; split; try done.
  - split; [done|]. by eapply list_elem_of_lookup_2.
  - match goal with Hn : _ !! _ = None |- _ => apply lookup_ge_None in Hn; simpl in *; lia end.
Qed.

Lemma newAccountWithId_spec id u d w :
  wp (newAccountWithId id u d) (λ r w', same_state w w' ∧
    match r with
    | Ok a => new_account id u d a
    | Panic _ => rt_subnets [100; 64; 0; 0]%Z 10 16 = []
    | _ => False
    end) w.
Proof.
  unfold newAccountWithId. wp_step. eapply wp_mono; [apply GenerateSetupKey_run|].
  intros r1 w1 (S1 & k1 & -> & _). simpl. wp_step.
  eapply wp_mono; [apply GenerateSetupKey_run|]. intros r2 w2 (S2 & k2 & -> & _). simpl. wp_step.
  eapply wp_mono; [apply NewNetwork_run|]. intros r3 w3 (S3 & Hn).
  assert (same_state w w3) by (by do 2 (etrans; [eassumption|])).
  destruct r3 as [n|e|s|]; simpl; try done. wp_step. split; [done|].
  split; simpl; try done. by destruct Hn.
Qed.

Lemma NewAccount_spec u d w :
  wp (NewAccount u d) (λ r w', same_state w w' ∧
    match r with
    | Ok a => ∃ id, new_account id u d a
    | Panic _ => rt_subnets [100; 64; 0; 0]%Z 10 16 = []
    | _ => False
    end) w.
Proof.
  unfold NewAccount. rt_go. eapply wp_mono; [apply newAccountWithId_spec|].
  intros r w' (Hs & Hr). split; [done|]. destruct r; try done. by eexists.
Qed.

(** [addAllGroup] on an account without groups. *)
Definition with_all (gid rid : string) (keys : list string) (a : Account) : Account :=
  set_Rules (Some {[rid := mkRule rid "Default" [gid] [gid] TrafficFlowBidirect]})
    (set_Groups (Some {[gid := mkGroup gid "All" keys]}) a).

Lemma addAllGroup_spec a w :
  wp (addAllGroup a) (λ r w', same_state w w' ∧
    (map_len (Account_Groups a) ≠ 0 ∧ r = Ok a ∨
     map_len (Account_Groups a) = 0 ∧ ∃ gid rid keys, r = Ok (with_all gid rid keys a) ∧
       ∀ k, k ∈ keys ↔ ∃ i p, Account_Peers a !! i = Some p ∧ k = Peer_Key p)) w.
Proof.
  unfold addAllGroup. case_decide as Hd; rt_go; split; try done.
  - right. split; [done|]. eexists _, _, _. split; [done|]. intros k.
    rewrite list_elem_of_fmap. setoid_rewrite list_elem_of_fmap. split.
    + intros (p & -> & ([i p'] & -> & Hin)). exists i, p'. by rewrite <-H0.
    + intros (i & p & Hp & ->). exists p. split; [done|]. exists (i, p). by rewrite H0.
  - by left.
Qed.

Lemma with_all_resolves gid rid keys a : rules_resolve (with_all gid rid keys a).
Proof.
  intros k rule Hk g Hg. unfold map_get, map_of in *. simpl in *.
  apply lookup_singleton_Some in Hk as [_ <-]. simpl in Hg.
  assert (g = gid) as -> by set_solver. rewrite lookup_singleton_eq. by eexists.
Qed.
End account_specs.

Section user_specs.
Context `{Runtime}.

(** Saving an account, the error replaced. *)
Lemma save_or_err_spec e a w :
  wp (SaveAccount a or_err e) (λ r w', saved a w w' ∧
    match r with
    | Ok _ => rules_resolve a ∧ covered (Account_Id a) a (World_Store w') ∧
        World_Disk w' = Some (Accounts (World_Store w'))
    | Err e' => e' = e ∧ rules_resolve a ∧ covered (Account_Id a) a (World_Store w') ∧
        World_Disk w' = World_Disk w
    | Panic _ => ¬ rules_resolve a ∧ World_Disk w' = World_Disk w
    | Blocked => False
    end) w.
Proof.
  wp_step. eapply wp_mono; [apply SaveAccount_spec|]. intros r w' [Hs Hr].
  destruct r as [[]|e'|s|]; try done.
Qed.

Lemma saved_well_keyed a w w' :
  saved a w w' → well_keyed (World_Store w) → well_keyed (World_Store w').
Proof.
  intros Hs Hk id b. rewrite (ex_accounts _ _ _ _ _ Hs).
  intros [[<- <-]|[_ Hb]]%lookup_insert_Some; [done|]. by apply Hk.
Qed.

(** After saving an account with the user [u], the index leads to it. *)
Lemma saved_user_account a w w' u x :
  saved a w w' → covered (Account_Id a) a (World_Store w') →
  Account_Users a !! u = Some x → User_Id x = u →
  user_account u (World_Store w') = Some a.
Proof.
  intros Hs Hc Hu Hid. unfold user_account, via_index.
  rewrite <-Hid, (cv_users _ _ _ Hc _ _ Hu). simpl.
  rewrite (ex_accounts _ _ _ _ _ Hs). apply lookup_insert_eq.
Qed.

(** Saving an account over the one the index leads to. *)
Lemma saved_over_user_account a b w w' u :
  saved a w w' → well_keyed (World_Store w) → user_account u (World_Store w) = Some b →
  Account_Id a = Account_Id b → user_account u (World_Store w') = Some a.
Proof.
  intros Hs Hk Hu Hid. unfold user_account, via_index in *.
  apply bind_Some in Hu as (id & Hid2 & Hb). apply Hk in Hb as Hbid.
  assert (UserId2AccountId (World_Store w') !! u = Some (Account_Id a)) as ->.
  { destruct (ex_users _ _ _ _ _ Hs u) as [->|[-> _]]; congruence. }
  simpl. rewrite (ex_accounts _ _ _ _ _ Hs). apply lookup_insert_eq.
Qed.

Lemma user_account_lookup u w (Q : Res Account → World → Prop) :
  (∀ a, user_account u (World_Store w) = Some a → Q (Ok a) w) →
  (user_account u (World_Store w) = None → Q (Err errAccountNotFound) w) →
  wp (GetUserAccount u) Q w.
Proof.
  intros H1 H2. apply GetUserAccount_spec; [|done]. intros id a Hid Ha. apply H1.
  unfold user_account, via_index. by rewrite Hid.
Qed.

Lemma user_account_lookup_run u w a :
  user_account u (World_Store w) = Some a → GetUserAccount u w = (Ok a, w).
Proof.
  intros Ha. assert (wp (GetUserAccount u) (λ r w', (r, w') = (Ok a, w)) w) as Hw.
  { apply user_account_lookup; [|congruence]. intros a' Ha'. congruence. }
  unfold wp in Hw. by destruct (GetUserAccount u w).
Qed.

(** A first login: a new account, its domain in lower case, the user its
    only member and admin, with the group [All] and the default rule. *)
Definition first_account (u d : string) (a : Account) : Prop :=
  ∃ id a0 gid rid, new_account id u d a0 ∧
    a = with_all gid rid [] (set_Users {[u := NewAdminUser u]} a0).

Lemma GetOrCreateAccountByUser_spec u d w :
  well_keyed (World_Store w) →
  wp (GetOrCreateAccountByUser u d) (λ r w',
    match r with
    | Ok a => user_account u (World_Store w') = Some a ∧ Account_Domain a = ToLower d ∧
        well_keyed (World_Store w') ∧
        match user_account u (World_Store w) with
        | Some a0 => a = set_Domain (ToLower d) a0
        | None => first_account u (ToLower d) a
        end
    | Err e => ∃ msg, e = Status Internal msg
    | Panic _ => rt_subnets [100; 64; 0; 0]%Z 10 16 = [] ∨
        ∃ a0, user_account u (World_Store w) = Some a0 ∧ ¬ rules_resolve a0
    | Blocked => False
    end) w.
Proof.
  intros Hk. unfold GetOrCreateAccountByUser. wp_step. wp_step.
  apply user_account_lookup; simpl.
  - intros a Ha. wp_step. wp_step. rewrite Ha. case_decide as Hd; simpl.
    2:{ wp_step. do 3 (split; [done|]). rewrite <-Hd. by destruct a. }
    wp_step. eapply wp_mono; [apply save_or_err_spec|]. intros [[]|e|s|] w1 [Hs Hr]; simpl.
    + wp_step. split; [by eapply saved_over_user_account|]. split; [done|].
      split; [by eapply saved_well_keyed|done].
    + destruct Hr as [-> _]. by eexists.
    + destruct Hr as [Hr _]. right. eexists. split; [done|]. by intros Hx; apply Hr.
    + done.
  - intros Hn. rewrite Hn. wp_step. wp_step.
    eapply wp_mono; [apply NewAccount_spec|]. intros [a0|e|s|] w1 [Hst Ha0]; simpl; try done; [|by left].
    destruct Ha0 as [id Ha0]. wp_step. eapply wp_mono; [apply addAllGroup_spec|].
    intros r w2 (Hst2 & Hr). destruct (na_empty _ _ _ _ Ha0) as (Hp & Hus & Hg & Hru). simpl in Hr.
    rewrite Hg, Hp, Hus in Hr.
    destruct Hr as [[Hz _]|[_ (gid & rid & keys & -> & Hkeys)]]; [done|]. simpl.
    assert (keys = []) as ->.
    { destruct keys as [|k keys]; [done|]. assert (k ∈ k :: keys) as Hin by set_solver.
      apply Hkeys in Hin as (i & p & Hi & _). by rewrite lookup_empty in Hi. }
    set (a := with_all _ _ _ _). wp_step. eapply wp_mono; [apply save_or_err_spec|].
    assert (World_Store w2 = World_Store w) as Es
      by (rewrite (same_state_store _ _ Hst2); by apply same_state_store).
    intros [[]|e|s|] w3 [Hs Hr]; simpl.
    + wp_step. destruct (na_domain _ _ _ _ Ha0) as [Hdom _].
      rewrite decide_False by (intros Hne; apply Hne; unfold a; simpl; done).
      wp_step. split.
      { eapply (saved_user_account _ _ _ _ (NewAdminUser u)); [done|apply Hr| |done].
        unfold a; simpl. apply lookup_insert_eq. }
      split; [done|]. split; [eapply saved_well_keyed; [done|by rewrite Es]|].
      by exists id, a0, gid, rid.
    + destruct Hr as [-> _]. by eexists.
    + destruct Hr as [[] _]. apply with_all_resolves.
    + done.
Qed.
End user_specs.

(** The primary account of a private domain. *)
Definition domain_account (d : string) (s : FileStore) : option Account :=
  via_index (PrivateDomain2AccountId s) (ToLower d) s.

(** The account that claims of a private domain lead to, by case. *)
Inductive claims_account (c : AuthorizationClaims) (s : FileStore) : Account → Prop :=
  | claims_by_id a :
      Claims_AccountId c ≠ "" → Accounts s !! Claims_AccountId c = Some a →
      is_Some (Account_Users a !! Claims_UserId c) →
      Account_DomainCategory a = PrivateCategory → claims_account c s a
  | claims_known a0 :
      user_account (Claims_UserId c) s = Some a0 →
      claims_account c s
        (set_DomainAttrs (ToLower (Claims_Domain c)) PrivateCategory
           (match domain_account (Claims_Domain c) s with
            | Some d => bool_decide (Account_Id a0 = Account_Id d) | None => true end) a0)
  | claims_join d :
      user_account (Claims_UserId c) s = None → domain_account (Claims_Domain c) s = Some d →
      claims_account c s
        (set_Users (<[Claims_UserId c := NewRegularUser (Claims_UserId c)]> (Account_Users d)) d)
  | claims_first id a0 :
      user_account (Claims_UserId c) s = None → domain_account (Claims_Domain c) s = None →
      new_account id (Claims_UserId c) (ToLower (Claims_Domain c)) a0 →
      claims_account c s
        (set_DomainAttrs (ToLower (Claims_Domain c)) PrivateCategory true
           (set_Users {[Claims_UserId c := NewAdminUser (Claims_UserId c)]} a0)).

Section claims_specs.
Context `{Runtime}.

Lemma updateIDPMetadata_spec u id w :
  wp (updateIDPMetadata u id) (λ r w', World_Store w' = World_Store w ∧
    World_Disk w' = World_Disk w ∧
    match r with
    | Ok _ => World_Idp w' = World_Idp w ++ match rt_idp with Some _ => [(u, id)] | None => [] end
    | Err e => World_Idp w' = World_Idp w ∧ ∃ m, e = Status Internal m
    | _ => False
    end) w.
Proof.
  unfold updateIDPMetadata. destruct rt_idp as [m|]; [|wp_step; by rewrite app_nil_r].
  unfold tick. wp_step. unfold wp at 1; simpl.
  destruct (UpdateUserAppMetadata m _ u id); simpl; wp_step; repeat split; try done. by eexists.
Qed.

(** What the claims flow of a private domain leaves behind: on success the
    account is stored; it never blocks, and panics only when there is no
    subnet to choose from or a saved account has a dangling rule. *)
Definition claims_post (c : AuthorizationClaims) (w : World) (r : Res Account) (w' : World) : Prop :=
  match r with
  | Ok a => claims_account c (World_Store w) a ∧
      Accounts (World_Store w') !! Account_Id a = Some a ∧ well_keyed (World_Store w') ∧
      (Claims_AccountId c ≠ "" ∧ w' = w ∨ covered (Account_Id a) a (World_Store w'))
  | Err _ => True
  | Panic _ => rt_subnets [100; 64; 0; 0]%Z 10 16 = [] ∨
      ∃ id a, Accounts (World_Store w) !! id = Some a ∧ ¬ rules_resolve a
  | Blocked => False
  end.

Lemma domain_lookup d w (Q : Res Account → World → Prop) :
  (∀ a, domain_account d (World_Store w) = Some a → Q (Ok a) w) →
  (domain_account d (World_Store w) = None → ∀ m, Q (Err (Status NotFound m)) w) →
  wp (GetAccountByPrivateDomain d) Q w.
Proof.
  intros H1 H2. unfold GetAccountByPrivateDomain, get_store, domain_account, via_index in *.
  wp_step. wp_step. wp_step. wp_step; simpl; [|apply H2; by simplify_option_eq].
  apply GetAccount_spec.
  - intros a0 Ha. apply H1. by simplify_option_eq.
  - intros Hn. apply H2. by simplify_option_eq.
Qed.

Lemma via_index_stored m k s a :
  via_index m k s = Some a → ∃ id, Accounts s !! id = Some a.
Proof. intros (id & _ & Ha)%bind_Some. by exists id. Qed.

(** Saving the final account and telling the identity provider. *)
Lemma save_and_tell_spec c (f : Account → string) e u a w0 w :
  World_Store w = World_Store w0 → well_keyed (World_Store w0) →
  claims_account c (World_Store w0) a →
  (¬ rules_resolve a → ∃ id a, Accounts (World_Store w0) !! id = Some a ∧ ¬ rules_resolve a) →
  wp (account ← (_ ← SaveAccount a or_err e; mret a);
      _ ← updateIDPMetadata u (f account);
      mret account) (claims_post c w0) w.
Proof.
  intros Es Hk Hc Hres. wp_step. wp_step. eapply wp_mono; [apply save_or_err_spec|].
  intros [[]|e'|s|] w1 [Hs Hr]; simpl; try done; [|right; by apply Hres, Hr].
  wp_step. wp_step. eapply wp_mono; [apply updateIDPMetadata_spec|].
  intros [[]|e'|s|] w2 (Es2 & _ & Hr2); simpl; try done. wp_step. split; [done|].
  rewrite Es2, (ex_accounts _ _ _ _ _ Hs). split; [apply lookup_insert_eq|].
  split; [eapply saved_well_keyed; [done|by rewrite Es]|right; apply Hr].
Qed.

Lemma handleExisting_spec c a0 dom w :
  Claims_DomainCategory c = PrivateCategory → well_keyed (World_Store w) →
  user_account (Claims_UserId c) (World_Store w) = Some a0 →
  domain_account (Claims_Domain c) (World_Store w) = dom →
  wp (handleExistingUserAccount a0 dom c) (claims_post c w) w.
Proof.
  intros Hcat Hk Ha Hd. unfold handleExistingUserAccount, updateAccountDomainAttributes.
  pose proof (claims_known c (World_Store w) a0 Ha) as Hc. rewrite Hd in Hc.
  assert (∀ p, ¬ rules_resolve (set_DomainAttrs (ToLower (Claims_Domain c)) PrivateCategory p a0) →
    ∃ id a, Accounts (World_Store w) !! id = Some a ∧ ¬ rules_resolve a) as Hres.
  { intros p Hn. apply via_index_stored in Ha as [id Ha]. exists id, a0. split; [done|].
    intros Hx. by apply Hn. }
  destruct dom as [d|].
  - cbv beta iota in Hc. destruct (decide (Account_Id a0 = Account_Id d)) as [He|Hne]; rewrite Hcat.
    + rewrite decide_False by (intros Hx; by apply Hx). rewrite bool_decide_eq_true_2 in Hc by done.
      apply (save_and_tell_spec c (λ _, Account_Id a0)); try done; apply Hres.
    + rewrite decide_True by done. rewrite bool_decide_eq_false_2 in Hc by done.
      apply (save_and_tell_spec c (λ _, Account_Id a0)); try done; apply Hres.
  - rewrite Hcat. apply (save_and_tell_spec c (λ _, Account_Id a0)); try done; apply Hres.
Qed.

Lemma handleNew_spec c dom w :
  Claims_DomainCategory c = PrivateCategory → well_keyed (World_Store w) →
  user_account (Claims_UserId c) (World_Store w) = None →
  domain_account (Claims_Domain c) (World_Store w) = dom →
  wp (handleNewUserAccount dom c) (claims_post c w) w.
Proof.
  intros Hcat Hk Hu Hd. unfold handleNewUserAccount, updateAccountDomainAttributes.
  destruct dom as [d|].
  - apply (save_and_tell_spec c Account_Id); try done; [by apply claims_join|].
    intros Hn. apply via_index_stored in Hd as [id Ha]. exists id, d. split; [done|].
    intros Hx. by apply Hn.
  - apply wp_bind. apply wp_bind. eapply wp_mono; [apply NewAccount_spec|].
    intros [a0|e|s|] w1 [Hs Hr]; simpl; try done; [|by left].
    destruct Hr as [id Ha0]. rewrite Hcat.
    destruct (na_empty _ _ _ _ Ha0) as (_ & Hus & _ & Hru). rewrite Hus.
    apply wp_bind_inv.
    apply (save_and_tell_spec c Account_Id); try done.
    + by apply same_state_store.
    + by eapply claims_first.
    + intros Hn. destruct Hn. intros k rule Hk'. unfold map_get, map_of in Hk'. simpl in Hk'.
      rewrite Hru in Hk'. simpl in Hk'. by rewrite lookup_empty in Hk'.
Qed.

Lemma private_claims_spec c w :
  Claims_DomainCategory c = PrivateCategory → well_keyed (World_Store w) →
  wp (GetAccountWithAuthorizationClaims c) (claims_post c w) w.
Proof.
  intros Hcat Hk. unfold GetAccountWithAuthorizationClaims, accountFromClaims.
  rewrite decide_False by (intros Hx; by apply Hx).
  assert (wp (d ← try (GetAccountByPrivateDomain (Claims_Domain c));
    domainAccount ← match d with
      | inr a => mret (Some a)
      | inl err => if decide ((from_error (Some err)).1 = NotFound) then mret None else fail err
      end;
    r ← try (GetUserAccount (Claims_UserId c));
    match r with
    | inr account => handleExistingUserAccount account domainAccount c
    | inl err => if decide (from_error (Some err) = (NotFound, true))
                 then handleNewUserAccount domainAccount c else fail err
    end) (claims_post c w) w) as Hrest.
  { assert (∀ dom, domain_account (Claims_Domain c) (World_Store w) = dom →
      wp (r ← try (GetUserAccount (Claims_UserId c));
          match r with
          | inr account => handleExistingUserAccount account dom c
          | inl err => if decide (from_error (Some err) = (NotFound, true))
                       then handleNewUserAccount dom c else fail err
          end) (claims_post c w) w) as Huser.
    { intros dom Hd. wp_step. wp_step. apply user_account_lookup; simpl; intros.
      - by apply handleExisting_spec.
      - by apply handleNew_spec. }
    wp_step. wp_step. apply domain_lookup; simpl.
    - intros a Ha. wp_step. wp_step. by apply Huser.
    - intros Hn m. wp_step. wp_step. by apply Huser. }
  case_decide as Hne; [|exact Hrest]. wp_step. wp_step. unfold GetAccountById. wp_step.
  apply GetAccount_spec; [|done]. intros a Ha. simpl. wp_step. wp_step; [|done]. simpl.
  case_decide as Hor; wp_step; [|exact Hrest]. wp_step.
  destruct Hor as [Hp|Hp]; [|done]. apply Hk in Ha as Hid.
  split; [by apply claims_by_id|]. split; [by rewrite Hid|]. split; [done|by left].
Qed.
End claims_specs.

(* ------------------------------------------------------------------ *)
(** ** Properties *)

(** C39: who gets an account by the claims of a token: the account returned is
    the stored one and has the user of the claims, except when the claims name
    an account and no private domain; then the named account is returned as it
    is, whether the user is a member of it or not, and nothing changes. *)
Theorem authorized_user_is_member `{Runtime} c w a w' :
  well_keyed (World_Store w) → users_indexed (World_Store w) →
  GetAccountWithAuthorizationClaims c w = (Ok a, w') →
  Accounts (World_Store w') !! Account_Id a = Some a ∧
  if decide (Claims_DomainCategory c ≠ PrivateCategory ∧ Claims_AccountId c ≠ "")
  then w' = w ∧ Account_Id a = Claims_AccountId c
  else is_Some (Account_Users a !! Claims_UserId c).
Proof.
  intros Hk Hui Hrun. destruct (decide (Claims_DomainCategory c = PrivateCategory)) as [Hcat|Hcat].
  - pose proof (private_claims_spec c w Hcat Hk) as Hw.
    apply (wp_run _ _ _ _ _ Hrun) in Hw as (Hc & Hst & _ & _). split; [done|].
    rewrite decide_False by tauto.
    destruct Hc as [a ? ? ? ?|a0 Ha0|d ? ?|id a0 ? ? ?]; simpl; try done; [by apply Hui| |];
      eexists; apply lookup_insert_eq.
  - destruct (decide (Claims_AccountId c = "")) as [Hid|Hid].
    2:{ rewrite decide_True by done. revert Hrun. unfold GetAccountWithAuthorizationClaims, GetAccountByUserOrAccountId.
        rewrite !decide_True by done. intros Hrun.
        assert (wp (GetAccountById (Claims_AccountId c)) (λ r w', ∀ a, r = Ok a →
          w' = w ∧ Accounts (World_Store w) !! Claims_AccountId c = Some a) w) as Hw.
        { unfold GetAccountById. wp_step. apply GetAccount_spec; [|done]. by intros a0 Ha ? [= <-]. }
        apply (wp_run _ _ _ _ _ Hrun) in Hw as Ha. destruct (Ha a eq_refl) as [-> Hst]. apply Hk in Hst as Ea. by rewrite Ea. }
    rewrite decide_False by tauto. apply and_comm. assert (wp (GetAccountWithAuthorizationClaims c)
      (λ r w', match r with Ok a => is_Some (Account_Users a !! Claims_UserId c) ∧
        Accounts (World_Store w') !! Account_Id a = Some a | _ => True end) w) as Hw;
      [|by apply (wp_run _ _ _ _ _ Hrun) in Hw].
    unfold GetAccountWithAuthorizationClaims, GetAccountByUserOrAccountId.
    rewrite decide_True by done. rewrite decide_False by (intros Hx; by apply Hx).
    case_decide as Hu; [|by wp_step]. wp_step. wp_step.
    eapply wp_mono; [by apply GetOrCreateAccountByUser_spec|].
    intros [x|e|s|] w1 Hr; simpl; try done. destruct Hr as (Hx & _ & Hk1 & Hx0). wp_step.
    eapply wp_mono; [apply updateIDPMetadata_spec|].
    intros [[]|e|s|] w2 (Es & _ & _); simpl; try done. wp_step. rewrite Es. split.
    + destruct (user_account _ (World_Store w)) as [a0|] eqn:Ha0.
      * subst x. simpl. by apply Hui.
      * destruct Hx0 as (? & ? & ? & ? & _ & ->). eexists. apply lookup_insert_eq.
    + apply via_index_stored in Hx as [id Hx]. apply Hk1 in Hx as Hid'. by rewrite Hid'.
Qed.

Definition demo_claims (u d cat : string) : AuthorizationClaims := mkClaims u "" d cat.

(** The state after the first private login of [user1] at [Example.com]. *)
Definition domain_world : World :=
  snd (@GetAccountWithAuthorizationClaims demo_runtime (demo_claims "user1" "Example.com" "private") emptyWorld).

Lemma empty_well_keyed : well_keyed (World_Store emptyWorld).
Proof. intros id a Ha. discriminate Ha. Defined.

Lemma empty_users_indexed : users_indexed (World_Store emptyWorld).
Proof. intros u a Ha. discriminate Ha. Defined.

Lemma authorized_user_is_member_witness :
  ∃ a w', @GetAccountWithAuthorizationClaims demo_runtime
      (demo_claims "user1" "Example.com" "private") emptyWorld = (Ok a, w') ∧
    is_Some (Account_Users a !! "user1").
Proof.
  assert (∃ a, @GetAccountWithAuthorizationClaims demo_runtime
      (demo_claims "user1" "Example.com" "private") emptyWorld = (Ok a, domain_world)) as [a Hrun]
    by (eexists; vm_compute; reflexivity).
  exists a, domain_world. split; [exact Hrun|].
  exact (proj2 (@authorized_user_is_member demo_runtime _ emptyWorld a domain_world
    empty_well_keyed empty_users_indexed Hrun)).
Defined.

(** A stranger whose claims name the account, and a public domain, gets it. *)
Example named_account_for_stranger :
  let claims := mkClaims "stranger" (default "" (head (map_to_list (Accounts (World_Store domain_world))).*1)) "example.org" "public" in
  match @GetAccountWithAuthorizationClaims demo_runtime claims domain_world with
  | (Ok a, _) => Account_Users a !! "stranger" = None ∧ is_Some (Account_Users a !! "user1")
  | _ => False
  end.
Proof. vm_compute. split; [reflexivity|by eexists]. Qed.

(** A user unknown to the service who logs in with claims of a private
    domain joins the primary account of the domain as a regular user, nobody
    else's role changing, when there is one; otherwise a new account is
    created with the user as its only member and admin, and becomes the
    primary account of the domain. *)
Theorem private_domain_login `{Runtime} c w a w' :
  well_keyed (World_Store w) → Claims_DomainCategory c = PrivateCategory →
  Claims_AccountId c = "" → Claims_Domain c ≠ "" →
  user_account (Claims_UserId c) (World_Store w) = None →
  GetAccountWithAuthorizationClaims c w = (Ok a, w') →
  Accounts (World_Store w') !! Account_Id a = Some a ∧
  match domain_account (Claims_Domain c) (World_Store w) with
  | Some d => Account_Users a = <[Claims_UserId c := mkUser (Claims_UserId c) UserRoleUser]> (Account_Users d) ∧
      Account_Id a = Account_Id d ∧ Account_Peers a = Account_Peers d
  | None => Account_Users a = {[Claims_UserId c := mkUser (Claims_UserId c) UserRoleAdmin]} ∧
      domain_account (Claims_Domain c) (World_Store w') = Some a
  end.
Proof.
  intros Hk Hcat Hid Hdom Hu Hrun. pose proof (private_claims_spec c w Hcat Hk) as Hw.
  apply (wp_run _ _ _ _ _ Hrun) in Hw as (Hc & Hst & _ & Hcov). split; [done|].
  destruct Hc as [a ? ? ? ?|a0 Ha0|d ? Hd|id a0 ? Hd Hn]; try done; [congruence| |]; rewrite Hd; [done|].
  split; [done|]. destruct Hcov as [[? _]|Hcov]; [done|].
  unfold domain_account, via_index.
  assert (PrivateDomain2AccountId (World_Store w') !! ToLower (Claims_Domain c) = Some (Account_Id a0))
    as ->; [|exact Hst].
  apply (cv_domain _ _ _ Hcov); [|done|done]. intros Hx. by apply Hdom, ToLower_empty.
Qed.

Lemma private_domain_login_witness :
  ∃ a w', @GetAccountWithAuthorizationClaims demo_runtime
      (demo_claims "user2" "EXAMPLE.com" "private") domain_world = (Ok a, w') ∧
    Account_Users a !! "user2" = Some (mkUser "user2" UserRoleUser) ∧
    Account_Users a !! "user1" = Some (mkUser "user1" UserRoleAdmin).
Proof.
  assert (∃ a, @GetAccountWithAuthorizationClaims demo_runtime
      (demo_claims "user2" "EXAMPLE.com" "private") domain_world =
      (Ok a, snd (@GetAccountWithAuthorizationClaims demo_runtime
      (demo_claims "user2" "EXAMPLE.com" "private") domain_world))) as [a Hrun]
    by (eexists; vm_compute; reflexivity).
  assert (well_keyed (World_Store domain_world)) as Hk.
  { pose proof (@private_claims_spec demo_runtime (demo_claims "user1" "Example.com" "private")
      emptyWorld eq_refl empty_well_keyed) as Hw.
    assert (∃ a, @GetAccountWithAuthorizationClaims demo_runtime
      (demo_claims "user1" "Example.com" "private") emptyWorld = (Ok a, domain_world)) as [a1 H1]
      by (eexists; vm_compute; reflexivity).
    apply (wp_run _ _ _ _ _ H1) in Hw. apply Hw. }
  exists a. eexists. split; [exact Hrun|].
  pose proof (@private_domain_login demo_runtime (demo_claims "user2" "EXAMPLE.com" "private") domain_world a _ Hk eq_refl eq_refl
    ltac:(discriminate) ltac:(vm_compute; reflexivity) Hrun) as [_ Hm].
  destruct (domain_account _ (World_Store domain_world)) as [d|] eqn:Hd.
  - destruct Hm as [-> _]. split; [apply lookup_insert_eq|].
    rewrite lookup_insert_ne by discriminate.
    assert ((d ← domain_account "EXAMPLE.com" (World_Store domain_world);
      Account_Users d !! "user1") = Some (mkUser "user1" UserRoleAdmin)) as Hl
      by (vm_compute; reflexivity).
    simpl in Hd. rewrite Hd in Hl. exact Hl.
  - exfalso. assert (domain_account "EXAMPLE.com" (World_Store domain_world) = None → False) as Hf
      by (vm_compute; discriminate). by apply Hf.
Defined.

(** The account created for the first user of a private domain has no
    group at all (unlike the one a public login creates): no peer can be saved
    to it, every attempt fails with the error that the group [All] is missing,
    as long as nothing else gives the account a group. *)
Theorem first_private_account_takes_no_peer `{Runtime} c w a w' p :
  well_keyed (World_Store w) → Claims_DomainCategory c = PrivateCategory →
  Claims_AccountId c = "" → user_account (Claims_UserId c) (World_Store w) = None →
  domain_account (Claims_Domain c) (World_Store w) = None →
  GetAccountWithAuthorizationClaims c w = (Ok a, w') →
  map_len (Account_Groups a) = 0 ∧
  wp (SavePeer (Account_Id a) p) (λ r w'', r = Err errNoGroupAll ∧ same_state w' w'') w'.
Proof.
  intros Hk Hcat Hid Hu Hd Hrun. pose proof (private_claims_spec c w Hcat Hk) as Hw.
  apply (wp_run _ _ _ _ _ Hrun) in Hw as (Hc & Hst & _ & _).
  assert (Account_Groups a = None) as Hg.
  { destruct Hc as [a ? ? ? ?|a0 Ha0|d ? Hd'|id a0 ? _ Hn]; try congruence.
    simpl. by destruct (na_empty _ _ _ _ Hn) as (_ & _ & -> & _). }
  rewrite Hg. split; [done|]. unfold SavePeer. wp_step.
  apply GetAccount_spec; [|congruence]. intros a' Ha'. assert (a' = a) as -> by congruence.
  simpl. wp_step. eapply wp_mono; [apply GetGroupAll_spec|].
  intros [[gk g]|e|s|] w2 [Hs Hr]; simpl; try done; [|by destruct Hr as [-> _]].
  rewrite Hg in Hr. destruct Hr as [Hr _]. unfold map_get, map_of in Hr. simpl in Hr.
  by rewrite lookup_empty in Hr.
Qed.

Lemma first_private_account_takes_no_peer_witness :
  ∃ a, @GetAccountWithAuthorizationClaims demo_runtime
      (demo_claims "user1" "Example.com" "private") emptyWorld = (Ok a, domain_world) ∧
    (@SavePeer demo_runtime (Account_Id a) (demo_peer "p" 1) domain_world).1 = Err errNoGroupAll.
Proof.
  assert (∃ a, @GetAccountWithAuthorizationClaims demo_runtime
      (demo_claims "user1" "Example.com" "private") emptyWorld = (Ok a, domain_world)) as [a Hrun]
    by (eexists; vm_compute; reflexivity).
  exists a. split; [exact Hrun|].
  exact (proj1 (proj2 (@first_private_account_takes_no_peer demo_runtime
    (demo_claims "user1" "Example.com" "private") emptyWorld a domain_world
    (demo_peer "p" 1) empty_well_keyed eq_refl eq_refl eq_refl eq_refl Hrun))).
Defined.

(** Logging in is idempotent: once [GetOrCreateAccountByUser] has
    returned an account for a user and a domain, calling it again returns the
    same account and leaves the whole state as it is. *)
Theorem login_idempotent `{Runtime} u d w a w' :
  well_keyed (World_Store w) →
  GetOrCreateAccountByUser u d w = (Ok a, w') →
  GetOrCreateAccountByUser u d w' = (Ok a, w').
Proof.
  intros Hk Hrun. pose proof (GetOrCreateAccountByUser_spec u d w Hk) as Hw.
  apply (wp_run _ _ _ _ _ Hrun) in Hw as (Ha & Hd & _).
  assert (wp (GetOrCreateAccountByUser u d) (λ r w2, (r, w2) = (Ok a, w')) w') as Hw2.
  2:{ unfold wp in Hw2. by destruct (GetOrCreateAccountByUser u d w'). }
  unfold GetOrCreateAccountByUser. wp_step. wp_step.
  apply user_account_lookup; simpl; [|congruence]. intros x Hx. assert (x = a) as -> by congruence.
  wp_step. wp_step. rewrite decide_False by (intros Hne; by apply Hne). by wp_step.
Qed.

Definition login_world : World := snd (@GetOrCreateAccountByUser demo_runtime "u" "Site.org" emptyWorld).

Lemma login_idempotent_witness :
  ∃ a, @GetOrCreateAccountByUser demo_runtime "u" "Site.org" emptyWorld = (Ok a, login_world) ∧
    @GetOrCreateAccountByUser demo_runtime "u" "Site.org" login_world = (Ok a, login_world).
Proof.
  assert (∃ a, @GetOrCreateAccountByUser demo_runtime "u" "Site.org" emptyWorld = (Ok a, login_world))
    as [a Hrun] by (eexists; vm_compute; reflexivity).
  exists a. split; [exact Hrun|].
  exact (@login_idempotent demo_runtime "u" "Site.org" emptyWorld a login_world empty_well_keyed Hrun).
Defined.

Section setup_key_specs.
Context `{Runtime}.

Lemma find_key_spec (P : string * SetupKey → Prop) `{∀ x, Decision (P x)} (m : gmap string SetupKey) w :
  wp (keys ← range m; mret (snd <$> find (λ kv, bool_decide (P kv)) keys)) (λ r w',
    same_state w w' ∧ ∃ o, r = Ok o ∧
    match o with
    | Some k => ∃ i, m !! i = Some k ∧ P (i, k)
    | None => ∀ i k, m !! i = Some k → ¬ P (i, k)
    end) w.
Proof.
  wp_step. apply wp_range. intros l n Hl _. simpl. wp_step. split; [done|].
  eexists. split; [done|]. destruct (find _ l) as [[i k]|] eqn:Hf; simpl.
  - apply find_some in Hf as [Hin HP%bool_decide_eq_true]. exists i. split; [|done].
    by apply Hl, list_elem_of_In.
  - intros i k Hi%Hl%list_elem_of_In. eapply find_none in Hf; [|done].
    by apply bool_decide_eq_false in Hf.
Qed.

(** The common shape of [RevokeSetupKey] and [RenameSetupKey]. *)
Lemma update_key_spec (f : SetupKey → SetupKey) id keyId w :
  (∀ k, SetupKey_Key (f k) = SetupKey_Key k) →
  wp (account ← GetAccount id or_err errAccountNotFound;
      o ← getAccountSetupKeyById account keyId;
      setupKey ← or_fail o (Status NotFound ("unknown setupKey " +:+ keyId));
      _ ← SaveAccount (put_setup_key (f setupKey) account) or_err errFailed "failed adding account key";
      mret (f setupKey)) (λ r w',
    match r with
    | Ok k' => ∃ a i k, Accounts (World_Store w) !! id = Some a ∧ Account_SetupKeys a !! i = Some k ∧
        SetupKey_Id k = keyId ∧ k' = f k ∧
        Accounts (World_Store w') !! Account_Id a = Some (put_setup_key k' a)
    | Err (Status NotFound _) => same_state w w' ∧ ∀ a, Accounts (World_Store w) !! id = Some a →
        ∀ i k, Account_SetupKeys a !! i = Some k → SetupKey_Id k ≠ keyId
    | Err e => e = errFailed "failed adding account key"
    | Panic _ => ∃ a, Accounts (World_Store w) !! id = Some a ∧ ¬ rules_resolve a
    | Blocked => False
    end) w.
Proof.
  intros Hf. wp_step. wp_step. apply GetAccount_spec.
  2:{ intros Hn. simpl. split; [done|]. intros a Ha. congruence. }
  intros a Ha. simpl. wp_step. unfold getAccountSetupKeyById.
  eapply wp_mono; [apply (find_key_spec (λ kv, keyId = SetupKey_Id kv.2))|].
  intros r w1 (Hs & o & -> & Ho). simpl. wp_step. destruct o as [k|]; simpl.
  2:{ wp_step. split; [done|]. intros a' Ha' i k Hk Hid. assert (a' = a) as -> by congruence.
      by apply (Ho i k Hk). }
  destruct Ho as (i & Hi & Hid). wp_step. wp_step.
  eapply wp_mono; [apply save_or_err_spec|]. intros [[]|e|s|] w2 [Hsv Hr]; simpl; try done.
  - wp_step. exists a, i, k. repeat split; try done.
    rewrite (ex_accounts _ _ _ _ _ Hsv). simpl. apply lookup_insert_eq.
  - by destruct Hr as [-> _].
  - exists a. split; [done|]. destruct Hr as [Hr _]. intros Hx. by apply Hr.
Qed.
End setup_key_specs.

(** The setup keys of the account are stored under themselves. *)
Definition keys_keyed (a : Account) : Prop :=
  ∀ i k, Account_SetupKeys a !! i = Some k → SetupKey_Key k = i.

(** Revoking a key that exists stores it revoked, so that it is never
    valid again, and changes no other key of the account; the only errors are
    an unknown account or key, and a failed write.  It never blocks, and
    panics only on an account with a dangling rule. *)
Theorem RevokeSetupKey_revokes `{Runtime} id keyId w :
  well_keyed (World_Store w) →
  (∀ a, Accounts (World_Store w) !! id = Some a → keys_keyed a) →
  wp (RevokeSetupKey id keyId) (λ r w',
    match r with
    | Ok k => ∃ a a', Accounts (World_Store w) !! id = Some a ∧
        Accounts (World_Store w') !! id = Some a' ∧
        Account_SetupKeys a' !! SetupKey_Key k = Some k ∧ SetupKey_Id k = keyId ∧
        (∀ now, IsValid now k = false) ∧
        is_Some (Account_SetupKeys a !! SetupKey_Key k) ∧
        ∀ i, i ≠ SetupKey_Key k → Account_SetupKeys a' !! i = Account_SetupKeys a !! i
    | Err (Status NotFound _) => same_state w w' ∧ ∀ a, Accounts (World_Store w) !! id = Some a →
        ∀ i k, Account_SetupKeys a !! i = Some k → SetupKey_Id k ≠ keyId
    | Err e => e = Status Internal "failed adding account key"
    | Panic _ => ∃ a, Accounts (World_Store w) !! id = Some a ∧ ¬ rules_resolve a
    | Blocked => False
    end) w.
Proof.
  intros Hk Hkk. unfold RevokeSetupKey.
  eapply wp_mono; [apply (update_key_spec (λ k, Revoke (SetupKey_Copy k))); done|].
  intros [k'|e|s|] w' Hr; try done. destruct Hr as (a & i & k & Ha & Hi & Hid & -> & Hst).
  apply Hk in Ha as Hida. rewrite Hida in Hst. exists a. eexists. split; [done|]. split; [exact Hst|].
  simpl. apply (Hkk a Ha) in Hi as Hki. split; [apply lookup_insert_eq|]. split; [done|].
  split; [done|]. split; [rewrite Hki; by eexists|]. intros j Hj. by rewrite lookup_insert_ne.
Qed.

Definition keys_account : Account :=
  set_SetupKeys {["K" := demo_key]} demo_account.
Definition keys_world : World := snd (@SaveAccount demo_runtime keys_account emptyWorld).

Lemma keys_world_accounts : Accounts (World_Store keys_world) = {["A" := keys_account]}.
Proof. vm_compute. reflexivity. Defined.

Lemma RevokeSetupKey_revokes_witness :
  ∃ k w', @RevokeSetupKey demo_runtime "A" "7" keys_world = (Ok k, w') ∧
    ∃ a', Accounts (World_Store w') !! "A" = Some a' ∧ Account_SetupKeys a' !! SetupKey_Key k = Some k ∧
      IsValid 5 k = false.
Proof.
  exists (Revoke (SetupKey_Copy demo_key)), (snd (@RevokeSetupKey demo_runtime "A" "7" keys_world)).
  assert (@RevokeSetupKey demo_runtime "A" "7" keys_world = (Ok (Revoke (SetupKey_Copy demo_key)),
    snd (@RevokeSetupKey demo_runtime "A" "7" keys_world))) as Hrun by (vm_compute; reflexivity).
  split; [exact Hrun|].
  assert (well_keyed (World_Store keys_world)) as Hk.
  { intros id a. rewrite keys_world_accounts. by intros [<- <-]%lookup_singleton_Some. }
  assert (∀ a, Accounts (World_Store keys_world) !! "A" = Some a → keys_keyed a) as Hkk.
  { intros a. rewrite keys_world_accounts. intros [_ <-]%lookup_singleton_Some i k.
    intros [<- <-]%(lookup_singleton_Some "K" i demo_key k). reflexivity. }
  pose proof (@RevokeSetupKey_revokes demo_runtime "A" "7" keys_world Hk Hkk) as Hw.
  apply (wp_run _ _ _ _ _ Hrun) in Hw as (a & a' & _ & Ha' & Hkey & _ & Hv & _).
  exists a'. split; [exact Ha'|]. split; [exact Hkey|apply Hv].
Defined.

(** What [addAllGroup] makes of an account. *)
Definition defaulted (a a' : Account) : Prop :=
  map_len (Account_Groups a) ≠ 0 ∧ a' = a ∨
  map_len (Account_Groups a) = 0 ∧ ∃ gid rid keys, a' = with_all gid rid keys a ∧
    ∀ k, k ∈ keys ↔ ∃ i p, Account_Peers a !! i = Some p ∧ k = Peer_Key p.

(** At start-up [BuildManager] gives every stored account without a group
    the group [All], with exactly its peers, and the default rule from it to
    itself; accounts with a group are untouched and none is lost or added. It
    panics only when some stored account has a rule naming a missing group. *)
Theorem BuildManager_defaults `{Runtime} w :
  well_keyed (World_Store w) →
  wp BuildManager (λ r w',
    match r with
    | Ok _ => ∀ id, match Accounts (World_Store w) !! id with
        | Some a => ∃ a', Accounts (World_Store w') !! id = Some a' ∧ defaulted a a'
        | None => Accounts (World_Store w') !! id = None
        end
    | Err _ => True
    | Panic _ => ∃ id a, Accounts (World_Store w) !! id = Some a ∧ ¬ rules_resolve a
    | Blocked => False
    end) w.
Proof.
  intros Hk. unfold BuildManager, GetAllAccounts, get_store. wp_step. wp_step. wp_step. simpl.
  wp_step. apply wp_range. intros l n Hl Hperm. simpl. wp_step.
  set (Q := λ r w', _). set (accs := Accounts (World_Store w)) in *.
  assert (NoDup l.*1) as Hnd by (rewrite Hperm; apply NoDup_fst_map_to_list).
  apply (wp_for_each (λ rem w', NoDup (Account_Id <$> rem) ∧ (∀ a, a ∈ rem → accs !! Account_Id a = Some a) ∧
    ∀ id, match accs !! id with
      | Some a => ∃ a', Accounts (World_Store w') !! id = Some a' ∧ (a ∈ rem ∧ a' = a ∨ defaulted a a')
      | None => Accounts (World_Store w') !! id = None
      end)).
  - assert (Account_Id <$> l.*2 = l.*1) as Hids.
    { rewrite <-list_fmap_compose. apply list_fmap_ext. intros i [id a] Hi%list_elem_of_lookup_2.
      simpl. by apply Hk, Hl. }
    split; [by rewrite Hids|]. split.
    + intros a ([id a'] & -> & Hin)%list_elem_of_fmap. simpl. apply Hl in Hin as Ha.
      by rewrite (Hk _ _ Ha).
    + intros id. destruct (accs !! id) as [a|] eqn:Ha; simpl; [|exact Ha].
      exists a. split; [exact Ha|]. left. split; [|done]. apply list_elem_of_fmap.
      exists (id, a). split; [done|]. by apply Hl.
  - intros a rem w1 (Hnd1 & Hrem & Hall) _. simpl in Hnd1. apply NoDup_cons in Hnd1 as [Hnin Hnd1].
    assert (accs !! Account_Id a = Some a) as Ha by (apply Hrem; set_solver).
    wp_step. eapply wp_mono; [apply addAllGroup_spec|]. intros r w2 (Hs & Hr). simpl.
    assert (∃ a', r = Ok a' ∧ defaulted a a' ∧ Account_Id a' = Account_Id a ∧
      (¬ rules_resolve a' → ¬ rules_resolve a)) as (a' & -> & Hd & Hid & Hres).
    { destruct Hr as [[Hlen ->]|[Hlen (gid & rid & keys & -> & Hkeys)]].
      - exists a. split; [done|]. split; [by left; split|done].
      - exists (with_all gid rid keys a). split; [done|]. split; [|split; [done|]].
        + right. split; [done|]. by eexists _, _, _.
        + intros []. apply with_all_resolves. }
    simpl. eapply wp_mono; [apply SaveAccount_spec|]. intros [[]|e|s|] w3 [Hsv Hr3]; simpl; try done.
    2:{ exists (Account_Id a), a. split; [done|]. exact (Hres (proj1 Hr3)). }
    split; [done|]. split; [intros x Hx; apply Hrem; set_solver|].
    rewrite (ex_accounts _ _ _ _ _ Hsv), (same_state_store _ _ Hs), Hid. intros id.
    destruct (decide (id = Account_Id a)) as [->|Hne].
    + rewrite Ha, lookup_insert_eq. exists a'. split; [done|]. by right.
    + rewrite lookup_insert_ne by done. specialize (Hall id).
      destruct (accs !! id) as [b|] eqn:Hb; [|done]. destruct Hall as (b' & Hb' & Hor).
      exists b'. split; [done|]. destruct Hor as [[Hin ->]|?]; [|by right].
      apply elem_of_cons in Hin as [->|Hin]; [|by left].
      exfalso. apply Hne. symmetry. by apply Hk.
  - intros w1 (_ & _ & Hall). unfold Q. intros id. specialize (Hall id).
    destruct (accs !! id) as [a|] eqn:Ha; [|done].
    destruct Hall as (a' & Ha' & [[Hin _]|?]); [by apply not_elem_of_nil in Hin|eauto].
Qed.

Lemma BuildManager_defaults_witness :
  ∃ w' a', @BuildManager demo_runtime domain_world = (Ok tt, w') ∧
    (∃ id, Accounts (World_Store w') !! id = Some a') ∧ map_len (Account_Groups a') = 1.
Proof.
  assert (@BuildManager demo_runtime domain_world =
    (Ok tt, snd (@BuildManager demo_runtime domain_world))) as Hrun by (vm_compute; reflexivity).
  assert (∃ a, Accounts (World_Store domain_world) = {["xid-0" := a]} ∧ Account_Id a = "xid-0" ∧
    map_len (Account_Groups a) = 0) as (a & Hacc & Hid & Hlen)
    by (eexists; vm_compute; repeat split).
  assert (well_keyed (World_Store domain_world)) as Hk.
  { intros id b. rewrite Hacc. by intros [<- <-]%lookup_singleton_Some. }
  pose proof (@BuildManager_defaults demo_runtime domain_world Hk) as Hw.
  apply (wp_run _ _ _ _ _ Hrun) in Hw. specialize (Hw "xid-0"). rewrite Hacc, lookup_singleton_eq in Hw.
  destruct Hw as (a' & Ha' & Hd). eexists _, a'. split; [exact Hrun|]. split; [by exists "xid-0"|].
  clear -Hd Hlen. destruct Hd as [[Hn _]|[_ (gid & rid & keys & -> & _)]]; [by rewrite Hlen in Hn|].
  apply map_size_singleton.
Defined.
