(* ===== verification/Groups.v ===== *)
(** * Groups: groups and rules of an account (management/server/group.go, rule.go)

    The access-control part of the account manager: groups of peers and the
    rules that relate groups.  Every operation reads the account, changes one
    entry and saves the account.  A group or rule is a pointer stored in the
    account's map, so a change made before a failing save stays in memory. *)

From S2P Require Import Prelude GoLib Model FileStore Account.

Definition errGroupNotFound (groupID : string) : error :=
  Status NotFound ("group with ID " +:+ groupID +:+ " not found").
Definition errRuleNotFound (ruleID : string) : error :=
  Status NotFound ("rule with ID " +:+ ruleID +:+ " not found").

(** The first occurrence of a peer in a group's list goes:
    [append(Peers[:i], Peers[i+1:]...)]; [None] when there is none. *)
Fixpoint remove_first (peerKey : string) (l : list string) : option (list string) :=
  match l with
  | [] => None
  | itemID :: l' =>
      if decide (itemID = peerKey) then Some l'
      else cons itemID <$> remove_first peerKey l'
  end.

Section operations.
Context `{Runtime}.

(* ------------------------------------------------------------------ *)
(** ** Groups *)

Definition GetGroup (accountID groupID : string) : MW Group :=
  account ← GetAccount accountID or_err errAccountNotFound;
  or_fail (map_get (Account_Groups account) groupID) (errGroupNotFound groupID).

(** Writing to the map of an account that has none panics. *)
Definition SaveGroup (accountID : string) (group : Group) : MW unit :=
  account ← GetAccount accountID or_err errAccountNotFound;
  groups ← map_set (Account_Groups account) (Group_ID group) group;
  SaveAccount (set_Groups groups account).

Definition DeleteGroup (accountID groupID : string) : MW unit :=
  account ← GetAccount accountID or_err errAccountNotFound;
  SaveAccount (set_Groups (map_del (Account_Groups account) groupID) account).

Definition ListGroups (accountID : string) : MW (list Group) :=
  account ← GetAccount accountID or_err errAccountNotFound;
  l ← range (map_of (Account_Groups account));
  mret l.*2.

Definition GroupAddPeer (accountID groupID peerKey : string) : MW unit :=
  account ← GetAccount accountID or_err errAccountNotFound;
  group ← or_fail (map_get (Account_Groups account) groupID) (errGroupNotFound groupID);
  SaveAccount
    (if decide (peerKey ∈ Group_Peers group) then account
     else put_group groupID (set_Group_Peers (Group_Peers group ++ [peerKey]) group) account).

Definition GroupDeletePeer (accountID groupID peerKey : string) : MW unit :=
  account ← GetAccount accountID or_err errAccountNotFound;
  group ← or_fail (map_get (Account_Groups account) groupID) (errGroupNotFound groupID);
  match remove_first peerKey (Group_Peers group) with
  | Some peers => SaveAccount (put_group groupID (set_Group_Peers peers group) account)
  | None => mret tt
  end.

Definition GroupListPeers (accountID groupID : string) : MW (list Peer) :=
  account ← GetAccount accountID or_err errAccountNotFound;
  group ← or_fail (map_get (Account_Groups account) groupID) (errGroupNotFound groupID);
  mret (omap (λ peerID, Account_Peers account !! peerID) (Group_Peers group)).

(* ------------------------------------------------------------------ *)
(** ** Rules *)

Definition GetRule (accountID ruleID : string) : MW Rule :=
  account ← GetAccount accountID or_err errAccountNotFound;
  or_fail (map_get (Account_Rules account) ruleID) (errRuleNotFound ruleID).

Definition SaveRule (accountID : string) (rule : Rule) : MW unit :=
  account ← GetAccount accountID or_err errAccountNotFound;
  rules ← map_set (Account_Rules account) (Rule_ID rule) rule;
  SaveAccount (set_Rules rules account).

Definition DeleteRule (accountID ruleID : string) : MW unit :=
  account ← GetAccount accountID or_err errAccountNotFound;
  SaveAccount (set_Rules (map_del (Account_Rules account) ruleID) account).

Definition ListRules (accountID : string) : MW (list Rule) :=
  account ← GetAccount accountID or_err errAccountNotFound;
  l ← range (map_of (Account_Rules account));
  mret l.*2.
End operations.

(* ------------------------------------------------------------------ *)
(** ** Specifications *)

Lemma put_group_get gk g a gid :
  is_Some (map_get (Account_Groups a) gk) →
  map_get (Account_Groups (put_group gk g a)) gid
  = if decide (gid = gk) then Some g else map_get (Account_Groups a) gid.
Proof.
  intros [g0 Hg0]. unfold map_get, map_of, put_group in *. simpl.
  destruct (Account_Groups a) as [m|]; simpl in *; [|by rewrite lookup_empty in Hg0].
  case_decide as Hd; [by rewrite Hd, lookup_insert_eq|by rewrite lookup_insert_ne].
Qed.

Lemma remove_first_spec pk l :
  match remove_first pk l with
  | Some l' => ∃ l1 l2, l = l1 ++ pk :: l2 ∧ l' = l1 ++ l2 ∧ pk ∉ l1
  | None => pk ∉ l
  end.
Proof.
  induction l as [|x l IH]; simpl; [by apply not_elem_of_nil|].
  case_decide as Hx.
  - subst x. exists [], l. split; [done|]. split; [done|]. by apply not_elem_of_nil.
  - destruct (remove_first pk l) as [l'|]; simpl.
    + destruct IH as (l1 & l2 & -> & -> & Hn). exists (x :: l1), l2.
      split; [done|]. split; [done|]. apply not_elem_of_cons. split; [congruence|done].
    + apply not_elem_of_cons. split; [congruence|done].
Qed.

Section edit.
Context `{Runtime}.

(** The account of an operation, or the not-found error. *)
Lemma with_account_spec {A} id (k : Account → MW A) Q w :
  (∀ a, Accounts (World_Store w) !! id = Some a → wp (k a) Q w) →
  (Accounts (World_Store w) !! id = None → Q (Err errAccountNotFound) w) →
  wp (account ← GetAccount id or_err errAccountNotFound; k account) Q w.
Proof. intros H1 H2. wp_step. wp_step. by apply GetAccount_spec. Qed.

(** The rules behind an index entry. *)
Lemma elem_of_rules_by_id m pk ids a l :
  m !! pk = Some ids → (∀ k v, (k, v) ∈ l ↔ ids !! k = Some v) →
  ∀ rule, rule ∈ rules_by_id a l ↔
    ∃ rid, has_rule m pk rid ∧ map_get (Account_Rules a) rid = Some rule.
Proof.
  intros Hids Hl rule. unfold rules_by_id, has_rule. rewrite Hids. simpl.
  rewrite list_elem_of_omap. split.
  - intros ([rid []] & Hin%Hl & Hr). exists rid. split; [by eexists|done].
  - intros (rid & [[] Hin] & Hr). exists (rid, tt). split; [by apply Hl|done].
Qed.

(** What a lookup of rules by peer returns, for the index [m]. *)
Definition rules_found (m : gmap string (gmap string unit)) (id pk : string) (w : World)
    (r : Res (list Rule)) (w' : World) : Prop :=
  same_state w w' ∧
  match r with
  | Ok rules => ∃ a, Accounts (World_Store w) !! id = Some a ∧ is_Some (m !! pk) ∧
      ∀ rule, rule ∈ rules ↔
        ∃ rid, has_rule m pk rid ∧ map_get (Account_Rules a) rid = Some rule
  | Err _ => Accounts (World_Store w) !! id = None ∨ m !! pk = None
  | _ => False
  end.

Lemma rules_found_tail m id pk a w :
  Accounts (World_Store w) !! id = Some a →
  wp (ruleIDs ← or_fail (m !! pk) (Plain "no rules for peer: map[]");
      ids ← range ruleIDs;
      mret (rules_by_id a ids)) (rules_found m id pk w) w.
Proof.
  intros Ha. wp_step. wp_step; [|split; [done|by right]]. simpl.
  wp_step. apply wp_range. intros l n Hl _. simpl. wp_step.
  split; [done|]. exists a. split; [done|]. split; [by eexists|].
  by eapply elem_of_rules_by_id.
Qed.

Lemma GetPeerSrcRules_spec id pk w :
  wp (GetPeerSrcRules id pk) (rules_found (PeerKeyId2SrcRulesId (World_Store w)) id pk w) w.
Proof.
  unfold GetPeerSrcRules, get_store. wp_step.
  apply GetAccount_spec; [|intros Hn; split; [done|by left]]. intros a Ha. simpl.
  wp_step. wp_step. by apply rules_found_tail.
Qed.

Lemma GetPeerDstRules_spec id pk w :
  wp (GetPeerDstRules id pk) (rules_found (PeerKeyId2DstRulesId (World_Store w)) id pk w) w.
Proof.
  unfold GetPeerDstRules, get_store. wp_step.
  apply GetAccount_spec; [|intros Hn; split; [done|by left]]. intros a Ha. simpl.
  wp_step. wp_step. by apply rules_found_tail.
Qed.
End edit.

(* ------------------------------------------------------------------ *)
(** ** Properties *)

(** A saved group is read back: after a successful [SaveGroup] the group
    with its identifier is the one given and every other group is as before.
    On an account whose group map was never created it panics and changes
    nothing. *)
Theorem SaveGroup_outcomes `{Runtime} id group w :
  well_keyed (World_Store w) →
  wp (SaveGroup id group) (λ r w',
    match r with
    | Ok _ => wp (GetGroup id (Group_ID group)) (λ r2 _, r2 = Ok group) w' ∧
        ∃ a a', Accounts (World_Store w) !! id = Some a ∧ Accounts (World_Store w') !! id = Some a' ∧
          ∀ gid, gid ≠ Group_ID group → map_get (Account_Groups a') gid = map_get (Account_Groups a) gid
    | Err e => e = errAccountNotFound ∧ w' = w ∨ World_Disk w' = World_Disk w
    | Panic _ => World_Disk w' = World_Disk w ∧
        ∃ a, Accounts (World_Store w) !! id = Some a ∧
          (Account_Groups a = None ∧ w' = w ∨ is_Some (Account_Groups a) ∧ ¬ rules_resolve a)
    | Blocked => False
    end) w.
Proof.
  intros Hk. unfold SaveGroup. apply with_account_spec; [|by left].
  intros a Ha. destruct (Account_Groups a) as [m|] eqn:Hm; simpl; wp_step; wp_step; simpl.
  2:{ split; [done|]. exists a. by rewrite Hm; eauto. }
  apply Hk in Ha as Hid.
  eapply wp_mono; [apply SaveAccount_spec|]. intros [[]|e|s|] w1 [Hs Hr]; simpl; try done.
  - assert (Accounts (World_Store w1) !! id = Some (set_Groups (Some (<[Group_ID group := group]> m)) a)) as Ha1.
    { rewrite (ex_accounts _ _ _ _ _ Hs). simpl. rewrite Hid. apply lookup_insert_eq. }
    split.
    + unfold GetGroup. apply with_account_spec; [|congruence]. intros a' Ha'.
      rewrite Ha1 in Ha'. simplify_eq. unfold map_get. simpl.
      rewrite lookup_insert_eq. by wp_step; simplify_eq.
    + exists a. eexists. split; [done|]. split; [exact Ha1|]. intros gid Hne.
      unfold map_get. simpl. rewrite lookup_insert_ne by done. by rewrite Hm.
  - right. apply Hr.
  - split; [apply Hr|]. exists a. split; [done|]. right. split; [rewrite Hm; by eexists|].
    intros Hx. destruct Hr as [Hr _]. apply Hr. intros k rule Hrule gid Hgid.
    destruct (Hx k rule Hrule gid Hgid) as [g Hg]. unfold map_get, map_of in *. simpl.
    rewrite Hm in Hg. simpl in Hg. rewrite lookup_insert. case_decide; by eexists.
Qed.

Lemma demo_world_accounts : Accounts (World_Store demo_world) = {["A" := demo_account]}.
Proof. vm_compute. reflexivity. Defined.

Lemma demo_well_keyed : well_keyed (World_Store demo_world).
Proof. intros id a. rewrite demo_world_accounts. by intros [<- <-]%lookup_singleton_Some. Defined.

Lemma SaveGroup_outcomes_witness :
  ∃ w', @SaveGroup demo_runtime "A" (mkGroup "g3" "Ops" ["q"]) demo_world = (Ok tt, w') ∧
    (GetGroup "A" "g3" w').1 = Ok (mkGroup "g3" "Ops" ["q"]).
Proof.
  pose (w' := snd (@SaveGroup demo_runtime "A" (mkGroup "g3" "Ops" ["q"]) demo_world)).
  assert (@SaveGroup demo_runtime "A" (mkGroup "g3" "Ops" ["q"]) demo_world = (Ok tt, w')) as Hrun
    by (vm_compute; reflexivity).
  exists w'. split; [exact Hrun|].
  pose proof (@SaveGroup_outcomes demo_runtime "A" (mkGroup "g3" "Ops" ["q"]) demo_world demo_well_keyed) as Hw.
  apply (wp_run _ _ _ _ _ Hrun) in Hw as [Hg _]. exact Hg.
Defined.

(** Adding a peer to a group succeeds once and for all: afterwards the
    peer is in the group (its list is unchanged when it already was), the other
    groups are as before, and the rule indexes give the peer every rule that
    names the group.  An unknown account or group is an error that changes
    nothing; a failed save is the only other error. *)
Theorem GroupAddPeer_grants `{Runtime} id gid pk w :
  well_keyed (World_Store w) →
  wp (GroupAddPeer id gid pk) (λ r w',
    match r with
    | Ok _ => ∃ a g a' g', Accounts (World_Store w) !! id = Some a ∧
        map_get (Account_Groups a) gid = Some g ∧ Accounts (World_Store w') !! id = Some a' ∧
        map_get (Account_Groups a') gid = Some g' ∧
        (Group_Peers g' = if decide (pk ∈ Group_Peers g) then Group_Peers g else Group_Peers g ++ [pk]) ∧
        (∀ gid', gid' ≠ gid → map_get (Account_Groups a') gid' = map_get (Account_Groups a) gid') ∧
        ∀ k rule, map_get (Account_Rules a) k = Some rule →
          (gid ∈ Rule_Source rule → has_rule (PeerKeyId2SrcRulesId (World_Store w')) pk (Rule_ID rule)) ∧
          (gid ∈ Rule_Destination rule → has_rule (PeerKeyId2DstRulesId (World_Store w')) pk (Rule_ID rule))
    | Err e => (w' = w ∧ (e = errAccountNotFound ∨ e = errGroupNotFound gid)) ∨ World_Disk w' = World_Disk w
    | Panic _ => ∃ a, Accounts (World_Store w) !! id = Some a ∧ ¬ rules_resolve a
    | Blocked => False
    end) w.
Proof.
  intros Hk. unfold GroupAddPeer. apply with_account_spec; [|by auto]. intros a Ha.
  wp_step. wp_step; [|by auto]. rename a0 into g. rename H0 into Hg. simpl.
  set (a' := if decide _ then _ else _). apply Hk in Ha as Hid.
  assert (Account_Id a' = id ∧ Account_Rules a' = Account_Rules a) as [Hid' Hru]
    by (unfold a'; case_decide; done).
  assert (∃ g', map_get (Account_Groups a') gid = Some g' ∧ pk ∈ Group_Peers g' ∧
    (Group_Peers g' = if decide (pk ∈ Group_Peers g) then Group_Peers g else Group_Peers g ++ [pk]) ∧
    (∀ gid', gid' ≠ gid → map_get (Account_Groups a') gid' = map_get (Account_Groups a) gid'))
    as (g' & Hg' & Hin & Hps & Hoth).
  { unfold a'. clear a' Hid' Hru. destruct (decide (pk ∈ Group_Peers g)) as [Hd|Hd]; [by exists g|]. eexists.
    rewrite (put_group_get gid _ a gid (mk_is_Some _ _ Hg)).
    rewrite decide_True by done. split; [done|]. cbn [Group_Peers set_Group_Peers].
    split; [apply elem_of_app; right; by apply list_elem_of_singleton|]. split; [done|].
    intros gid' Hne. rewrite (put_group_get gid _ a gid' (mk_is_Some _ _ Hg)). by rewrite decide_False. }
  eapply wp_mono; [apply SaveAccount_spec|]. intros [[]|e|s|] w1 [Hs Hr]; simpl; try done.
  - exists a, g, a', g'. split; [done|]. split; [done|]. split.
    { rewrite (ex_accounts _ _ _ _ _ Hs), Hid'. apply lookup_insert_eq. }
    do 3 (split; [done|]). intros k rule Hrule. destruct Hr as (_ & Hcov & _).
    rewrite <-Hru in Hrule. destruct (cv_rules _ _ _ Hcov k rule Hrule) as [H1 H2].
    split; intros Hgid; [by eapply H1|by eapply H2].
  - right. apply Hr.
  - exists a. split; [done|]. destruct Hr as [Hr _]. intros Hx. apply Hr. intros k rule Hrule gid' Hgid'.
    rewrite Hru in Hrule. destruct (decide (gid' = gid)) as [->|Hne]; [by eexists|].
    rewrite Hoth by done. by eapply Hx.
Qed.

Lemma GroupAddPeer_grants_witness :
  ∃ w', @GroupAddPeer demo_runtime "A" "g2" "q" demo_world = (Ok tt, w') ∧
    has_rule (PeerKeyId2DstRulesId (World_Store w')) "q" "rule".
Proof.
  pose (w' := snd (@GroupAddPeer demo_runtime "A" "g2" "q" demo_world)).
  assert (@GroupAddPeer demo_runtime "A" "g2" "q" demo_world = (Ok tt, w')) as Hrun
    by (vm_compute; reflexivity).
  exists w'. split; [exact Hrun|].
  pose proof (@GroupAddPeer_grants demo_runtime "A" "g2" "q" demo_world demo_well_keyed) as Hw.
  apply (wp_run _ _ _ _ _ Hrun) in Hw as (a & g & a' & g' & Ha & _ & _ & _ & _ & _ & Hr).
  rewrite demo_world_accounts in Ha. apply lookup_singleton_Some in Ha as [_ <-].
  refine (proj2 (Hr "rule" (mkRule "rule" "Default" ["g1"] ["g2"] TrafficFlowBidirect) _) _);
    [vm_compute; reflexivity|apply list_elem_of_singleton; reflexivity].
Defined.

(** Deleting a group that a rule of the account still names panics, after
    the group is gone from memory but not from the file; from then on every
    save of the account panics as well. *)
Theorem DeleteGroup_in_use_panics `{Runtime} id gid w a k rule :
  well_keyed (World_Store w) → Accounts (World_Store w) !! id = Some a →
  map_get (Account_Rules a) k = Some rule → gid ∈ Rule_Source rule ++ Rule_Destination rule →
  wp (DeleteGroup id gid) (λ r w', (∃ s, r = Panic s) ∧ World_Disk w' = World_Disk w ∧
    ∃ a', Accounts (World_Store w') !! id = Some a' ∧ map_get (Account_Groups a') gid = None ∧
      wp (SaveAccount a') (λ r _, ∃ s, r = Panic s) w') w.
Proof.
  intros Hk Ha Hrule Hgid. unfold DeleteGroup. apply with_account_spec; [|congruence].
  intros a' Ha'. assert (a' = a) as -> by congruence. clear Ha'. apply Hk in Ha as Hid.
  set (b := set_Groups _ a).
  assert (map_get (Account_Groups b) gid = None) as Hb.
  { unfold map_get, map_of, map_del, b. simpl. destruct (Account_Groups a); [|done].
    simpl. apply lookup_delete_eq. }
  assert (¬ rules_resolve b) as Hn.
  { intros Hx. destruct (Hx k rule Hrule gid Hgid) as [g Hg]. congruence. }
  assert (∀ w0, wp (SaveAccount b) (λ r w', (∃ s, r = Panic s) ∧ World_Disk w' = World_Disk w0 ∧
    Accounts (World_Store w') !! id = Some b) w0) as Hsave.
  { intros w0. eapply wp_mono; [apply SaveAccount_spec|]. intros [[]|e|s|] w1 [Hs Hr]; simpl;
      try (exfalso; apply Hn; by apply Hr); [|done].
    split; [by eexists|]. split; [apply Hr|]. rewrite (ex_accounts _ _ _ _ _ Hs). simpl.
    rewrite Hid. apply lookup_insert_eq. }
  eapply wp_mono; [apply Hsave|]. intros r w1 (Hp & Hd & Hst). split; [done|]. split; [done|].
  exists b. split; [done|]. split; [done|]. eapply wp_mono; [apply Hsave|]. by intros ? ? [? _].
Qed.

Lemma DeleteGroup_in_use_panics_witness :
  ∃ w' s, @DeleteGroup demo_runtime "A" "g2" demo_world = (Panic s, w') ∧
    World_Disk w' = Some {["A" := demo_account]} ∧
    ∃ a', Accounts (World_Store w') !! "A" = Some a' ∧ map_get (Account_Groups a') "g2" = None.
Proof.
  pose (w' := snd (@DeleteGroup demo_runtime "A" "g2" demo_world)).
  pose proof (@DeleteGroup_in_use_panics demo_runtime "A" "g2" demo_world demo_account "rule"
    (mkRule "rule" "Default" ["g1"] ["g2"] TrafficFlowBidirect) demo_well_keyed
    ltac:(vm_compute; reflexivity) ltac:(vm_compute; reflexivity) ltac:(right; left)) as Hw.
  unfold wp in Hw. destruct Hw as ([s Hs] & Hd & a' & Ha' & Hg & _).
  exists w', s. split; [unfold w'; rewrite <-Hs; apply surjective_pairing|].
  split; [unfold w'; rewrite Hd; vm_compute; reflexivity|]. exists a'. split; [exact Ha'|exact Hg].
Defined.

(** Removing a peer from a group does not take back what the group gave
    it: the rule indexes are not shrunk, so a rule that reached the peer
    through the group is still found for the peer in the running service. *)
Theorem GroupDeletePeer_keeps_rules `{Runtime} id gid pk w w' a k rule :
  well_keyed (World_Store w) → GroupDeletePeer id gid pk w = (Ok tt, w') →
  Accounts (World_Store w) !! id = Some a → map_get (Account_Rules a) k = Some rule →
  has_rule (PeerKeyId2SrcRulesId (World_Store w)) pk k →
  wp (GetPeerSrcRules id pk) (λ r _, ∃ rules, r = Ok rules ∧ rule ∈ rules) w'.
Proof.
  intros Hk Hrun Ha Hrule Hix.
  assert (wp (GroupDeletePeer id gid pk) (λ r w', r = Ok tt →
    has_rule (PeerKeyId2SrcRulesId (World_Store w')) pk k ∧
    ∃ a', Accounts (World_Store w') !! id = Some a' ∧ Account_Rules a' = Account_Rules a) w) as Hw.
  { unfold GroupDeletePeer. apply with_account_spec; [|congruence].
    intros a' Ha'. assert (a' = a) as -> by congruence. wp_step. wp_step; [|done]. simpl.
    apply Hk in Ha as Hid. destruct (remove_first pk _) as [l'|].
    - eapply wp_mono; [apply SaveAccount_spec|]. intros r w1 [Hs _] _.
      split; [by apply (ex_src _ _ _ _ _ Hs)|]. rewrite (ex_accounts _ _ _ _ _ Hs). simpl.
      rewrite Hid, lookup_insert_eq. by eexists.
    - wp_step. intros _. eauto. }
  apply (wp_run _ _ _ _ _ Hrun) in Hw. destruct (Hw eq_refl) as (Hix' & a' & Ha' & Hru).
  eapply wp_mono; [apply GetPeerSrcRules_spec|]. intros r w1 [_ Hr].
  destruct r as [rules|e|s|]; try done.
  - exists rules. split; [done|]. destruct Hr as (a2 & Ha2 & _ & Hin).
    apply Hin. exists k. split; [done|]. assert (a2 = a') as -> by congruence. by rewrite Hru.
  - destruct Hr as [Hr|Hr]; [congruence|]. unfold has_rule in Hix'. rewrite Hr in Hix'.
    simpl in Hix'. rewrite lookup_empty in Hix'. by destruct Hix'.
Qed.

(** [q] leaves the only source group of the rule and still has the rule,
    until the service restarts. *)
Lemma GroupDeletePeer_keeps_rules_witness :
  ∃ w', @GroupDeletePeer demo_runtime "A" "g1" "q" demo_world = (Ok tt, w') ∧
    (∃ a g, Accounts (World_Store w') !! "A" = Some a ∧ map_get (Account_Groups a) "g1" = Some g ∧
       Group_Peers g = ["p"]) ∧
    (∃ rules, (@GetPeerSrcRules demo_runtime "A" "q" w').1 = Ok rules ∧
       mkRule "rule" "Default" ["g1"] ["g2"] TrafficFlowBidirect ∈ rules) ∧
    (@GetPeerSrcRules demo_runtime "A" "q" (snd (@restore demo_runtime w'))).1
      = Err (Plain "no rules for peer: map[]").
Proof.
  pose (w' := snd (@GroupDeletePeer demo_runtime "A" "g1" "q" demo_world)).
  assert (@GroupDeletePeer demo_runtime "A" "g1" "q" demo_world = (Ok tt, w')) as Hrun
    by (vm_compute; reflexivity).
  exists w'. split; [exact Hrun|].
  split; [do 2 eexists; vm_compute; repeat split|].
  split; [|vm_compute; reflexivity].
  exact (@GroupDeletePeer_keeps_rules demo_runtime "A" "g1" "q" demo_world w' demo_account "rule" _
    demo_well_keyed Hrun ltac:(vm_compute; reflexivity) eq_refl
    ltac:(eexists; vm_compute; reflexivity)).
Defined.

(** The rules of the account are stored under their identifiers. *)
Definition rules_keyed (a : Account) : Prop :=
  ∀ k rule, map_get (Account_Rules a) k = Some rule → Rule_ID rule = k.

(** Deleting a rule takes effect at once: although the indexes keep the
    rule's identifier, no lookup by peer, by source or by destination, returns
    the deleted rule any more, and every other rule of the account stays. *)
Theorem DeleteRule_effective `{Runtime} id rid w w' a :
  well_keyed (World_Store w) → DeleteRule id rid w = (Ok tt, w') →
  Accounts (World_Store w) !! id = Some a → rules_keyed a →
  (∃ a', Accounts (World_Store w') !! id = Some a' ∧
     ∀ k, k ≠ rid → map_get (Account_Rules a') k = map_get (Account_Rules a) k) ∧
  ∀ pk, wp (GetPeerSrcRules id pk) (λ r _, ∀ rules, r = Ok rules →
          ∀ rule, rule ∈ rules → Rule_ID rule ≠ rid) w' ∧
        wp (GetPeerDstRules id pk) (λ r _, ∀ rules, r = Ok rules →
          ∀ rule, rule ∈ rules → Rule_ID rule ≠ rid) w'.
Proof.
  intros Hk Hrun Ha Hrk.
  assert (wp (DeleteRule id rid) (λ r w',
    Accounts (World_Store w') !! id = Some (set_Rules (map_del (Account_Rules a) rid) a)) w) as Hw.
  { unfold DeleteRule. apply with_account_spec; [|congruence].
    intros a' Ha'. assert (a' = a) as -> by congruence. apply Hk in Ha as Hid.
    eapply wp_mono; [apply SaveAccount_spec|]. intros r w1 [Hs _].
    rewrite (ex_accounts _ _ _ _ _ Hs). simpl. rewrite Hid. apply lookup_insert_eq. }
  apply (wp_run _ _ _ _ _ Hrun) in Hw.
  assert (∀ k, map_get (map_del (Account_Rules a) rid) k
    = if decide (k = rid) then None else map_get (Account_Rules a) k) as Hdel.
  { intros k. unfold map_get, map_of, map_del. destruct (Account_Rules a) as [m|]; simpl.
    - case_decide as Hd; [by rewrite Hd, lookup_delete_eq|by rewrite lookup_delete_ne].
    - rewrite lookup_empty. by case_decide. }
  split.
  - eexists. split; [exact Hw|]. intros k Hne. simpl. by rewrite Hdel, decide_False.
  - assert (∀ m pk r w2, rules_found m id pk w' r w2 → ∀ rules, r = Ok rules →
      ∀ rule, rule ∈ rules → Rule_ID rule ≠ rid) as Hfound.
    { intros m pk r w2 [_ Hr] rules -> rule Hin. destruct Hr as (a2 & Ha2 & _ & Hr).
      rewrite Hw in Ha2. simplify_eq. apply Hr in Hin as (k & _ & Hkr). simpl in Hkr.
      rewrite Hdel in Hkr. case_decide as Hd; [done|]. apply Hrk in Hkr. congruence. }
    intros pk. split; [eapply wp_mono; [apply GetPeerSrcRules_spec|]|
                       eapply wp_mono; [apply GetPeerDstRules_spec|]]; intros r w2; apply Hfound.
Qed.

Lemma DeleteRule_effective_witness :
  ∃ w', @DeleteRule demo_runtime "A" "rule" demo_world = (Ok tt, w') ∧
    (∀ rules, (@GetPeerSrcRules demo_runtime "A" "q" w').1 = Ok rules →
       ∀ rule, rule ∈ rules → Rule_ID rule ≠ "rule") ∧
    (@GetPeerSrcRules demo_runtime "A" "q" w').1 = Ok [].
Proof.
  pose (w' := snd (@DeleteRule demo_runtime "A" "rule" demo_world)).
  assert (@DeleteRule demo_runtime "A" "rule" demo_world = (Ok tt, w')) as Hrun
    by (vm_compute; reflexivity).
  assert (rules_keyed demo_account) as Hrk.
  { intros k rule. intros [<- <-]%(lookup_singleton_Some "rule" k (mkRule "rule" "Default" ["g1"] ["g2"] TrafficFlowBidirect) rule). reflexivity. }
  exists w'. split; [exact Hrun|]. split; [|vm_compute; reflexivity].
  exact (proj1 (proj2 (@DeleteRule_effective demo_runtime "A" "rule" demo_world w' demo_account
    demo_well_keyed Hrun ltac:(vm_compute; reflexivity) Hrk) "q")).
Defined.
