(* ===== verification/Slices.v ===== *)
(** * Slices: the members of groups as slices (management/server/group.go,
    file_store.go, peer.go)

    [Groups] and [FileStore] take the members of a group as a list.  In Go they
    are a slice: a part of an array that other slices may share, and in whose
    unused end [append] writes.  Here are the operations on slices, that the
    lists describe them as long as no two groups share an array, and what
    happens after [DeletePeer], which makes them share one. *)

From S2P Require Import Prelude GoLib Model FileStore Groups.

(** The capacity [append] allocates when an array of the given capacity is
    full. *)
Class Growth := { grow : nat → nat; grow_more n : n < grow n }.

(** A slice that starts at the start of its array; [None]: nil. *)
Record GoSlice := mkSlice { Sl_Array : option nat; Sl_Len : nat }.
Definition nil_slice : GoSlice := mkSlice None 0.

Record SliceGroup := mkSliceGroup { SG_ID : string; SG_Name : string; SG_Peers : GoSlice }.
Definition set_SG_Peers (s : GoSlice) (g : SliceGroup) : SliceGroup := mkSliceGroup (SG_ID g) (SG_Name g) s.

(** The arrays, each with all of its capacity, the next one, and the groups of
    an account. *)
Record SliceState := mkSlices { SS_Arrays : gmap nat (list string); SS_Next : nat; SS_Groups : gmap string SliceGroup }.
Definition set_SS_Groups (m : gmap string SliceGroup) (st : SliceState) : SliceState := mkSlices (SS_Arrays st) (SS_Next st) m.

Definition array_of (h : gmap nat (list string)) (s : GoSlice) : list string := default [] (Sl_Array s ≫= λ a, h !! a).
Definition contents (h : gmap nat (list string)) (s : GoSlice) : list string := take (Sl_Len s) (array_of h s).

(** [group.Peers] as [Groups] has it. *)
Definition read_group (h : gmap nat (list string)) (g : SliceGroup) : Group :=
  mkGroup (SG_ID g) (SG_Name g) (contents h (SG_Peers g)).
Definition read (st : SliceState) : gmap string Group := read_group (SS_Arrays st) <$> SS_Groups st.

Section slices.
Context `{Growth}.

(** [append(s, x)]: into the array when there is room, else into a new one. *)
Definition append (s : GoSlice) (x : string) (st : SliceState) : GoSlice * SliceState :=
  let array := array_of (SS_Arrays st) s in
  match Sl_Array s with
  | Some a =>
      if decide (Sl_Len s < length array) then
        (mkSlice (Some a) (S (Sl_Len s)), mkSlices (<[a := <[Sl_Len s := x]> array]> (SS_Arrays st)) (SS_Next st) (SS_Groups st))
      else
        (mkSlice (Some (SS_Next st)) (S (Sl_Len s)),
         mkSlices (<[SS_Next st := array ++ x :: replicate (grow (length array) - S (length array)) ""]> (SS_Arrays st))
           (S (SS_Next st)) (SS_Groups st))
  | None =>
      (mkSlice (Some (SS_Next st)) 1,
       mkSlices (<[SS_Next st := x :: replicate (grow 0 - 1) ""]> (SS_Arrays st)) (S (SS_Next st)) (SS_Groups st))
  end.
(** [append(s[:i], s[i+1:]...)] never has to allocate: the elements after [i]
    move down in the array itself. *)
Definition append_without (s : GoSlice) (i : nat) (st : SliceState) : GoSlice * SliceState :=
  let array := array_of (SS_Arrays st) s in
  let moved := take i array ++ take (Sl_Len s - S i) (drop (S i) array) ++ drop (pred (Sl_Len s)) array in
  (mkSlice (Sl_Array s) (pred (Sl_Len s)),
   match Sl_Array s with
   | Some a => mkSlices (<[a := moved]> (SS_Arrays st)) (SS_Next st) (SS_Groups st)
   | None => st
   end).
(** A slice somebody else has made, with room left in its array. *)
Definition fresh_slice (l : list string) (room : nat) (st : SliceState) : GoSlice * SliceState :=
  (mkSlice (Some (SS_Next st)) (length l),
   mkSlices (<[SS_Next st := l ++ replicate room ""]> (SS_Arrays st)) (S (SS_Next st)) (SS_Groups st)).

Definition with_group (gid : string) (f : SliceGroup → SliceState → GoSlice * SliceState) (st : SliceState) : SliceState :=
  match SS_Groups st !! gid with
  | Some g => let '(s, st') := f g st in set_SS_Groups (<[gid := set_SG_Peers s g]> (SS_Groups st')) st'
  | None => st
  end.

(** group.go, [GroupAddPeer] and [GroupDeletePeer] *)
Definition slices_GroupAddPeer (gid peerKey : string) : SliceState → SliceState :=
  with_group gid (λ g st, if decide (peerKey ∈ contents (SS_Arrays st) (SG_Peers g)) then (SG_Peers g, st)
                          else append (SG_Peers g) peerKey st).
Definition slices_GroupDeletePeer (gid peerKey : string) : SliceState → SliceState :=
  with_group gid (λ g st, match list_find (λ p, p = peerKey) (contents (SS_Arrays st) (SG_Peers g)) with
                          | Some (i, _) => append_without (SG_Peers g) i st
                          | None => (SG_Peers g, st)
                          end).
(** peer.go, [AddPeer]: to the group "All", whether it is there or not *)
Definition slices_AddPeer (gid peerKey : string) : SliceState → SliceState :=
  with_group gid (λ g st, append (SG_Peers g) peerKey st).
(** group.go, [SaveGroup], with members from a request *)
Definition slices_SaveGroup (gid name : string) (peers : list string) (room : nat) (st : SliceState) : SliceState :=
  let '(s, st') := fresh_slice peers room st in set_SS_Groups (<[gid := mkSliceGroup gid name s]> (SS_Groups st')) st'.
Definition slices_DeleteGroup (gid : string) (st : SliceState) : SliceState := set_SS_Groups (delete gid (SS_Groups st)) st.

(** file_store.go, [DeletePeer]: [peers] is one slice for all groups, which
    come in the given order. *)
Fixpoint append_others (peerKey : string) (l : list string) (peers : GoSlice) (st : SliceState) : GoSlice * SliceState :=
  match l with
  | [] => (peers, st)
  | p :: l' =>
      if decide (p ≠ peerKey) then let '(peers', st') := append peers p st in append_others peerKey l' peers' st'
      else append_others peerKey l' peers st
  end.
Fixpoint cleanup_slices (peerKey : string) (peers : GoSlice) (order : list string) (st : SliceState) : SliceState :=
  match order with
  | [] => st
  | gid :: order' =>
      match SS_Groups st !! gid with
      | Some g =>
          let '(peers', st') := append_others peerKey (contents (SS_Arrays st) (SG_Peers g)) peers st in
          cleanup_slices peerKey peers' order' (set_SS_Groups (<[gid := set_SG_Peers peers' g]> (SS_Groups st')) st')
      | None => cleanup_slices peerKey peers order' st
      end
  end.
Definition slices_DeletePeer (peerKey : string) (order : list string) : SliceState → SliceState := cleanup_slices peerKey nil_slice order.
End slices.

(** The same on lists: what [Groups] and [FileStore] do to the groups. *)
Definition with_list (gid : string) (f : list string → list string) (m : gmap string Group) : gmap string Group :=
  match m !! gid with Some g => <[gid := set_Group_Peers (f (Group_Peers g)) g]> m | None => m end.
Definition add_member (peerKey : string) (l : list string) : list string := if decide (peerKey ∈ l) then l else l ++ [peerKey].
Definition del_member (peerKey : string) (l : list string) : list string := default l (remove_first peerKey l).

(** The operations on the groups of one account, in both views. *)
Inductive group_op :=
  | OpGroupAddPeer (gid peerKey : string)
  | OpGroupDeletePeer (gid peerKey : string)
  | OpAddPeer (gid peerKey : string)
  | OpSaveGroup (gid name : string) (peers : list string) (room : nat)
  | OpDeleteGroup (gid : string).
Definition do_slices `{Growth} (o : group_op) : SliceState → SliceState :=
  match o with
  | OpGroupAddPeer gid p => slices_GroupAddPeer gid p
  | OpGroupDeletePeer gid p => slices_GroupDeletePeer gid p
  | OpAddPeer gid p => slices_AddPeer gid p
  | OpSaveGroup gid name l room => slices_SaveGroup gid name l room
  | OpDeleteGroup gid => slices_DeleteGroup gid
  end.
Definition do_lists (o : group_op) (m : gmap string Group) : gmap string Group :=
  match o with
  | OpGroupAddPeer gid p => with_list gid (add_member p) m
  | OpGroupDeletePeer gid p => with_list gid (del_member p) m
  | OpAddPeer gid p => with_list gid (λ l, l ++ [p]) m
  | OpSaveGroup gid name l _ => <[gid := mkGroup gid name l]> m
  | OpDeleteGroup gid => delete gid m
  end.
Definition run_slices `{Growth} (ops : list group_op) (st : SliceState) : SliceState := foldl (λ st o, do_slices o st) st ops.
Definition run_lists (ops : list group_op) (m : gmap string Group) : gmap string Group := foldl (λ m o, do_lists o m) m ops.

(* ------------------------------------------------------------------ *)
(** ** Slices *)

(** A slice is a part of an array that there is. *)
Definition ok_slice (st : SliceState) (s : GoSlice) : Prop :=
  match Sl_Array s with
  | None => Sl_Len s = 0
  | Some a => a < SS_Next st ∧ ∃ array, SS_Arrays st !! a = Some array ∧ Sl_Len s ≤ length array
  end.
Abbreviation reads st := (contents (SS_Arrays st)).

Lemma reads_some h a n array : h !! a = Some array → contents h (mkSlice (Some a) n) = take n array.
Proof. intros Ha. unfold contents, array_of. simpl. by rewrite Ha. Qed.
Lemma reads_nil h n : contents h (mkSlice None n) = [].
Proof. unfold contents, array_of. simpl. by rewrite take_nil. Qed.

(** What an operation on the slice [s] leaves: the new slice reads as [l], is
    in the same array or in a new one, and slices that [safe] says are apart
    from [s] read as before. *)
Definition updates (st : SliceState) (s : GoSlice) (safe : GoSlice → Prop) (l : list string) (r : GoSlice * SliceState) : Prop :=
  SS_Groups r.2 = SS_Groups st ∧ SS_Next st ≤ SS_Next r.2 ∧ ok_slice r.2 r.1 ∧ reads r.2 r.1 = l ∧
  (Sl_Array r.1 = Sl_Array s ∨ Sl_Array r.1 = Some (SS_Next st)) ∧
  ∀ v, ok_slice st v → safe v → ok_slice r.2 v ∧ reads r.2 v = reads st v.

(** Slices in another array, and those that end where [s] does or before. *)
Definition apart (s v : GoSlice) : Prop := Sl_Array v = Sl_Array s → Sl_Array s = None.
Definition below (s v : GoSlice) : Prop := Sl_Array v = Sl_Array s → Sl_Len v ≤ Sl_Len s.

(** A change of one array, or a new one. *)
Lemma array_changed st v a array' :
  ok_slice st v → (Sl_Array v = Some a → ∃ array, SS_Arrays st !! a = Some array ∧ length array = length array' ∧
    take (Sl_Len v) array' = take (Sl_Len v) array) → a ≤ SS_Next st →
  ∀ n', SS_Next st ≤ n' → ok_slice (mkSlices (<[a := array']> (SS_Arrays st)) n' (SS_Groups st)) v ∧
    reads (mkSlices (<[a := array']> (SS_Arrays st)) n' (SS_Groups st)) v = reads st v.
Proof.
  destruct v as [[b|] n]; unfold ok_slice; simpl; [|intros -> _ _ n' _; split; [done|]; by rewrite !reads_nil].
  intros (Hb & array & Harr & Hlen) Hch Ha n' Hn'. destruct (decide (b = a)) as [->|Hne].
  - destruct (Hch eq_refl) as (array0 & Harr0 & Hl & Ht). assert (array0 = array) as -> by congruence.
    split; [split; [lia|]; exists array'; rewrite lookup_insert_eq; split; [done|lia]|].
    by rewrite (reads_some _ _ _ _ Harr), (reads_some _ _ _ array') by (by rewrite lookup_insert_eq).
  - split; [split; [lia|]; exists array; by rewrite lookup_insert_ne|].
    by rewrite (reads_some _ _ _ _ Harr), (reads_some _ _ _ array) by (by rewrite lookup_insert_ne).
Qed.

Section slices.
Context `{Growth}.

Lemma append_updates s x st : ok_slice st s → updates st s (below s) (reads st s ++ [x]) (append s x st).
Proof.
  intros Hok. destruct s as [[a|] n]; unfold ok_slice in Hok; unfold updates, append; simpl in *.
  - destruct Hok as (Ha & array & Harr & Hlen). unfold array_of. simpl. rewrite Harr. simpl.
    rewrite (reads_some _ _ _ _ Harr). case_decide as Hcap; simpl; (do 2 (split; [done || lia|])); (split; [|split; [|split; [by auto|]]]).
    + unfold ok_slice. simpl. split; [done|]. exists (<[n:=x]> array). rewrite lookup_insert_eq, length_insert. split; [done|lia].
    + erewrite reads_some by (by rewrite lookup_insert_eq).
      rewrite (take_S_r _ _ x) by (apply list_lookup_insert_eq; lia). by rewrite take_insert_ge by lia.
    + intros v Hv Hb. apply array_changed; [done| |lia|simpl; lia]. intros Hva. exists array. rewrite length_insert. split_and!; [done..|].
      specialize (Hb Hva). simpl in Hb. apply take_insert_ge. lia.
    + unfold ok_slice. simpl. split; [lia|]. eexists. rewrite lookup_insert_eq. split; [done|]. rewrite length_app. simpl. lia.
    + erewrite reads_some by (by rewrite lookup_insert_eq). assert (n = length array) as -> by lia.
      rewrite firstn_all, (cons_middle x), app_assoc. apply take_app_length'. rewrite length_app. simpl. lia.
    + intros v Hv _. apply array_changed; [done| |lia|simpl; lia]. intros Hva. unfold ok_slice in Hv. rewrite Hva in Hv. lia.
  - subst n. rewrite reads_nil. (do 2 (split; [done || lia|])); (split; [|split; [|split; [by auto|]]]).
    + unfold ok_slice. simpl. split; [lia|]. eexists. rewrite lookup_insert_eq. split; [done|]. simpl. lia.
    + erewrite reads_some by (by rewrite lookup_insert_eq). done.
    + intros v Hv _. apply array_changed; [done| |lia|simpl; lia]. intros Hva. unfold ok_slice in Hv. rewrite Hva in Hv. lia.
Qed.

Lemma append_without_updates s i st : ok_slice st s → i < Sl_Len s →
  updates st s (apart s) (delete i (reads st s)) (append_without s i st).
Proof.
  intros Hok Hi. destruct s as [[a|] n]; unfold ok_slice in Hok; unfold updates, append_without; simpl in *; [|lia].
  destruct Hok as (Ha & array & Harr & Hlen). unfold array_of. simpl. rewrite Harr. simpl.
  rewrite (reads_some _ _ _ _ Harr).
  assert (length (take i array ++ take (n - S i) (drop (S i) array) ++ drop (pred n) array) = length array) as Hl
    by (rewrite !length_app, !length_take, !length_drop; lia).
  (do 2 (split; [done || lia|])); (split; [|split; [|split; [by auto|]]]).
  - unfold ok_slice. simpl. split; [done|]. eexists. rewrite lookup_insert_eq. split; [done|]. rewrite Hl. lia.
  - erewrite reads_some by (by rewrite lookup_insert_eq). rewrite app_assoc, take_app_length'.
    2:{ rewrite length_app, !length_take, length_drop. lia. }
    rewrite delete_take_drop, take_take, Nat.min_l by lia. f_equal. by rewrite skipn_firstn_comm.
  - intros v Hv Hap. apply array_changed; [done| |lia|simpl; lia]. intros Hva. exfalso. unfold apart in Hap. simpl in Hap. by apply Hap in Hva.
Qed.

Lemma fresh_updates l room st : updates st nil_slice (λ _, True) l (fresh_slice l room st).
Proof.
  unfold updates, fresh_slice. simpl. (do 2 (split; [done || lia|])); (split; [|split; [|split; [by auto|]]]).
  - unfold ok_slice. simpl. split; [lia|]. eexists. rewrite lookup_insert_eq. split; [done|]. rewrite length_app. lia.
  - erewrite reads_some by (by rewrite lookup_insert_eq). by apply take_app_length'.
  - intros v Hv _. apply array_changed; [done| |lia|simpl; lia]. intros Hva. unfold ok_slice in Hv. rewrite Hva in Hv. lia.
Qed.
End slices.

(* ------------------------------------------------------------------ *)
(** ** Groups *)

(** No two groups are in one array. *)
Definition separate (st : SliceState) : Prop := ∀ i j gi gj a,
  SS_Groups st !! i = Some gi → SS_Groups st !! j = Some gj →
  Sl_Array (SG_Peers gi) = Some a → Sl_Array (SG_Peers gj) = Some a → i = j.
Definition all_ok (st : SliceState) : Prop := ∀ gid g, SS_Groups st !! gid = Some g → ok_slice st (SG_Peers g).
Definition sound (st : SliceState) : Prop := all_ok st ∧ separate st.

Lemma read_lookup st gid : read st !! gid = read_group (SS_Arrays st) <$> SS_Groups st !! gid.
Proof. apply lookup_fmap. Qed.

(** The slice of one group is replaced, in its array or in a new one; the
    others are apart. *)
Lemma replaced st gid g s safe l r :
  sound st → (∀ g0, SS_Groups st !! gid = Some g0 → s = SG_Peers g0) → updates st s safe l r →
  (Sl_Array r.1 = Some (SS_Next st) ∨ is_Some (SS_Groups st !! gid)) →
  (∀ v, ok_slice st v → apart s v → safe v) → (is_Some (SS_Groups st !! gid) ∨ ∀ v, safe v) →
  let st' := set_SS_Groups (<[gid := set_SG_Peers r.1 g]> (SS_Groups r.2)) r.2 in
  sound st' ∧ read st' = <[gid := mkGroup (SG_ID g) (SG_Name g) l]> (read st).
Proof.
  intros [Hok Hsep] Hs (Hgr & Hnext & Hok' & Hl & Harr & Hoth) Hin Hsafe Hall. simpl. unfold set_SS_Groups. rewrite Hgr.
  assert (∀ j gj, j ≠ gid → SS_Groups st !! j = Some gj → ok_slice r.2 (SG_Peers gj) ∧ reads r.2 (SG_Peers gj) = reads st (SG_Peers gj)) as Hj.
  { intros j gj Hne Hgj. apply Hoth; [by eapply Hok|]. destruct Hall as [[g0 Hg0]|Hall]; [|done]. apply Hsafe; [by eapply Hok|].
    intros Ha. destruct (Sl_Array s) as [a|] eqn:Es; [|done]. rewrite (Hs _ Hg0) in Es. by destruct Hne, (Hsep j gid gj g0 a). }
  split; [split|].
  - intros j gj. simpl. destruct (decide (j = gid)) as [->|Hne].
    + rewrite lookup_insert_eq. intros [= <-]. exact Hok'.
    + rewrite lookup_insert_ne by done. intros Hgj. by apply (Hj j).
  - assert (∀ j gj a, j ≠ gid → SS_Groups st !! j = Some gj → Sl_Array r.1 = Some a → Sl_Array (SG_Peers gj) = Some a → False) as Hno.
    { intros j gj a Hne Hgj Hr Ha.
      assert (a < SS_Next st) as Hlt by (specialize (Hok _ _ Hgj); unfold ok_slice in Hok; rewrite Ha in Hok; tauto).
      destruct Harr as [Hr'|Hr']; rewrite Hr in Hr'; [|injection Hr' as ->; lia].
      destruct Hin as [Hr2|[g0 Hg0]]; [rewrite Hr in Hr2; injection Hr2 as ->; lia|]. symmetry in Hr'. rewrite (Hs _ Hg0) in Hr'.
      by destruct Hne, (Hsep j gid gj g0 a). }
    intros i j gi gj a. simpl. destruct (decide (i = gid)) as [->|Hi], (decide (j = gid)) as [->|Hjn]; rewrite ?lookup_insert_eq, ?lookup_insert_ne by done; try done.
    + intros [= <-] Hgj Ha Hb. by destruct (Hno j gj a).
    + intros Hgi [= <-] Ha Hb. by destruct (Hno i gi a).
    + intros Hgi Hgj Ha Hb. by eapply Hsep.
  - unfold read. simpl. rewrite fmap_insert. apply map_eq. intros j. destruct (decide (j = gid)) as [->|Hne].
    + rewrite !lookup_insert_eq. unfold read_group. simpl. by rewrite Hl.
    + rewrite !lookup_insert_ne, !lookup_fmap by done. destruct (SS_Groups st !! j) as [gj|] eqn:Hgj; [|done]. simpl.
      unfold read_group. by rewrite (proj2 (Hj j gj Hne Hgj)).
Qed.

Lemma with_group_refines gid f L st :
  sound st →
  (∀ g, SS_Groups st !! gid = Some g → ∃ safe, updates st (SG_Peers g) safe (L (reads st (SG_Peers g))) (f g st) ∧
     ∀ v, ok_slice st v → apart (SG_Peers g) v → safe v) →
  sound (with_group gid f st) ∧ read (with_group gid f st) = with_list gid L (read st).
Proof.
  intros Hst Hf. unfold with_group, with_list. rewrite read_lookup. destruct (SS_Groups st !! gid) as [g|] eqn:Hg; [|done]. simpl.
  destruct (Hf g eq_refl) as (safe & Hu & Hsafe). destruct (f g st) as [s' st'] eqn:E.
  eapply (replaced st gid g (SG_Peers g)) in Hu; eauto. intros g0. rewrite Hg. by intros [= ->].
Qed.

(** A slice that stays. *)
Lemma stays st s : ok_slice st s → updates st s (λ _, True) (reads st s) (s, st).
Proof. intros Hs. unfold updates. simpl. split_and!; auto. Qed.

Lemma find_remove k l :
  match list_find (λ p, p = k) l with
  | Some (i, _) => i < length l ∧ remove_first k l = Some (delete i l)
  | None => remove_first k l = None
  end.
Proof.
  induction l as [|x l IH]; [done|]. simpl. case_decide as Hx; [subst; split; [simpl; lia|done]|].
  destruct (list_find (λ p, p = k) l) as [[i y]|]; simpl; [|by rewrite IH]. destruct IH as [Hi ->]. split; [lia|done].
Qed.

Section groups.
Context `{Growth}.

Lemma apart_below st s v : ok_slice st v → apart s v → below s v.
Proof. intros Hv Ha E. unfold ok_slice in Hv. rewrite E, (Ha E) in Hv. lia. Qed.

Lemma save_replaced st gid name l room :
  sound st → sound (slices_SaveGroup gid name l room st) ∧ read (slices_SaveGroup gid name l room st) = <[gid := mkGroup gid name l]> (read st).
Proof.
  intros Hst. destruct (fresh_updates l room st) as (Hu1 & Hu2 & Hu3 & Hu4 & _ & Hu6).
  apply (replaced st gid (mkSliceGroup gid name nil_slice) (from_option SG_Peers nil_slice (SS_Groups st !! gid)) (λ _, True) l (fresh_slice l room st)).
  - done.
  - by intros g0 ->.
  - unfold updates. split_and!; try done. by right.
  - by left.
  - done.
  - by right.
Qed.

Lemma do_refines o st : sound st → sound (do_slices o st) ∧ read (do_slices o st) = do_lists o (read st).
Proof.
  intros Hst. pose proof Hst as [Hok Hsep]. destruct o as [gid p|gid p|gid p|gid name l room|gid]; simpl.
  - apply with_group_refines; [done|]. intros g Hg. unfold add_member. case_decide as Hin.
    + exists (λ _, True). split; [apply stays; by eapply Hok|done].
    + eexists. split; [apply append_updates; by eapply Hok|]. intros v. apply apart_below.
  - apply with_group_refines; [done|]. intros g Hg. unfold del_member. pose proof (find_remove p (reads st (SG_Peers g))) as Hf.
    destruct (list_find _ _) as [[i y]|].
    + destruct Hf as [Hi ->]. eexists. split; [apply append_without_updates; [by eapply Hok|]|done].
      unfold contents in Hi. rewrite length_take in Hi. lia.
    + rewrite Hf. exists (λ _, True). split; [apply stays; by eapply Hok|done].
  - apply with_group_refines; [done|]. intros g Hg. eexists. split; [apply append_updates; by eapply Hok|]. intros v. apply apart_below.
  - by apply save_replaced.
  - unfold slices_DeleteGroup, set_SS_Groups. split; [split|].
    + intros j gj. simpl. intros [_ Hgj]%lookup_delete_Some. by apply (Hok j).
    + intros i j gi gj a. simpl. intros [_ Hgi]%lookup_delete_Some [_ Hgj]%lookup_delete_Some. by eapply Hsep.
    + unfold read. simpl. apply fmap_delete.
Qed.

Lemma run_refines ops st : sound st → sound (run_slices ops st) ∧ read (run_slices ops st) = run_lists ops (read st).
Proof.
  revert st. induction ops as [|o ops IH]; intros st Hst; [done|]. simpl. destruct (do_refines o st Hst) as [Hs <-]. by apply IH.
Qed.

(** The loop of [DeletePeer] over the members of a group. *)
Lemma append_others_updates pk l s st :
  ok_slice st s → let r := append_others pk l s st in
  SS_Groups r.2 = SS_Groups st ∧ ok_slice r.2 r.1 ∧ reads r.2 r.1 = reads st s ++ filter (λ p, p ≠ pk) l ∧
  ∀ v, ok_slice st v → below s v → ok_slice r.2 v ∧ below r.1 v ∧ reads r.2 v = reads st v.
Proof.
  revert s st. induction l as [|p l IH]; intros s st Hs; simpl; [rewrite app_nil_r; split; [done|]; split; [done|]; by split|].
  case_decide as Hp; [|rewrite filter_cons_False by (intros Hc; by apply Hc); by apply IH].
  rewrite filter_cons_True by done. pose proof (append_updates s p st Hs) as (Hg & Hn & Hok & Hr & Harr & Hoth).
  destruct (append s p st) as [s1 st1] eqn:E. simpl in *. destruct (IH s1 st1 Hok) as (Hg2 & Hok2 & Hr2 & Hoth2).
  split; [congruence|]. split; [done|]. split; [rewrite Hr2, Hr; by rewrite <-app_assoc|].
  intros v Hv Hb. destruct (Hoth v Hv Hb) as [Hv1 Hvr]. rewrite <-Hvr. apply Hoth2; [done|].
  assert (Sl_Len s ≤ Sl_Len s1) as Hlen.
  { unfold append in E. destruct (Sl_Array s) as [a|] eqn:Ea; [case_decide|]; injection E as <- _; simpl; try lia.
    unfold ok_slice in Hs. rewrite Ea in Hs. lia. }
  intros Ha. destruct Harr as [Ha1|Ha1]; rewrite Ha1 in Ha; [specialize (Hb Ha); lia|].
  unfold ok_slice in Hv. rewrite Ha in Hv. lia.
Qed.

Lemma cleanup_refines pk order cur st :
  NoDup order → all_ok st → ok_slice st cur → (∀ gid g, SS_Groups st !! gid = Some g → below cur (SG_Peers g)) →
  read (cleanup_slices pk cur order st) = cleanup_groups pk (reads st cur) (omap (λ gid, (gid,.) <$> read st !! gid) order) (read st).
Proof.
  intros Hnd. revert cur st. induction Hnd as [|gid order Hnin Hnd IH]; intros cur st Hok Hcur Hb; [done|]. simpl. rewrite read_lookup.
  destruct (SS_Groups st !! gid) as [g|] eqn:Hg; [|simpl; by apply IH]. simpl.
  pose proof (append_others_updates pk (reads st (SG_Peers g)) cur st Hcur) as (Hgr & Hok1 & Hr1 & Hoth).
  destruct (append_others pk (reads st (SG_Peers g)) cur st) as [s1 st1]. simpl in *. rewrite Hgr, <-Hr1.
  set (st2 := set_SS_Groups (<[gid := set_SG_Peers s1 g]> (SS_Groups st)) st1).
  assert (read st2 = <[gid := set_Group_Peers (reads st1 s1) (read_group (SS_Arrays st) g)]> (read st)) as Hread.
  { unfold read, st2. simpl. rewrite fmap_insert. apply map_eq. intros j. destruct (decide (j = gid)) as [->|Hne].
    - by rewrite !lookup_insert_eq.
    - rewrite !lookup_insert_ne, !lookup_fmap by done. destruct (SS_Groups st !! j) as [gj|] eqn:Hgj; [|done]. simpl.
      unfold read_group. by rewrite (proj2 (proj2 (Hoth _ (Hok _ _ Hgj) (Hb _ _ Hgj)))). }
  rewrite (IH s1 st2), Hread; unfold st2; simpl.
  - f_equal. apply list_omap_ext, Forall_Forall2_diag, Forall_forall. intros j Hj. rewrite lookup_insert_ne by (intros ->; done). done.
  - intros j gj. simpl. destruct (decide (j = gid)) as [->|Hne]; [rewrite lookup_insert_eq; by intros [= <-]|].
    rewrite lookup_insert_ne by done. intros Hgj. apply (Hoth _ (Hok _ _ Hgj) (Hb _ _ Hgj)).
  - exact Hok1.
  - intros j gj. destruct (decide (j = gid)) as [->|Hne]; [rewrite lookup_insert_eq; intros [= <-]; by intros _|].
    rewrite lookup_insert_ne by done. intros Hgj. apply (Hoth _ (Hok _ _ Hgj) (Hb _ _ Hgj)).
Qed.
End groups.

(* ------------------------------------------------------------------ *)
(** ** The lists are those of the account manager *)

(** [put_group] with the members changed is [with_list]. *)
Lemma put_is_with_list gk g (f : list string → list string) a :
  map_get (Account_Groups a) gk = Some g →
  map_of (Account_Groups (put_group gk (set_Group_Peers (f (Group_Peers g)) g) a)) = with_list gk f (map_of (Account_Groups a)).
Proof.
  unfold map_get, with_list. intros Hg. rewrite Hg. unfold put_group, map_of in *. simpl.
  destruct (Account_Groups a) as [m|]; [done|]. simpl in Hg. by rewrite lookup_empty in Hg.
Qed.

(** [GroupAddPeer] saves the account with the member added. *)
Lemma GroupAddPeer_is_add_member gk g pk a :
  map_get (Account_Groups a) gk = Some g →
  map_of (Account_Groups (if decide (pk ∈ Group_Peers g) then a else put_group gk (set_Group_Peers (Group_Peers g ++ [pk]) g) a))
  = do_lists (OpGroupAddPeer gk pk) (map_of (Account_Groups a)).
Proof.
  intros Hg. simpl. rewrite <-(put_is_with_list gk g (add_member pk) a Hg). unfold add_member. case_decide; [|done].
  unfold put_group, map_of, map_get in *. simpl. destruct (Account_Groups a) as [m|]; simpl in *; [|done].
  rewrite insert_id; [done|]. rewrite Hg. by destruct g.
Qed.

Lemma GroupDeletePeer_is_del_member gk g pk peers a :
  map_get (Account_Groups a) gk = Some g → remove_first pk (Group_Peers g) = Some peers →
  map_of (Account_Groups (put_group gk (set_Group_Peers peers g) a)) = do_lists (OpGroupDeletePeer gk pk) (map_of (Account_Groups a)).
Proof. intros Hg Hr. simpl. rewrite <-(put_is_with_list gk g (del_member pk) a Hg). unfold del_member. by rewrite Hr. Qed.

(* ------------------------------------------------------------------ *)
(** ** Groups that share an array *)

(** After [DeletePeer] two groups can be in one array.  An [append] to the
    shorter one then writes over a member of the longer one. *)
Section sharing.
Context `{Growth}.

Lemma append_overwrites i j gi gj a array x st :
  i ≠ j → SS_Groups st !! i = Some gi → SS_Groups st !! j = Some gj →
  Sl_Array (SG_Peers gi) = Some a → Sl_Array (SG_Peers gj) = Some a → SS_Arrays st !! a = Some array →
  Sl_Len (SG_Peers gi) < Sl_Len (SG_Peers gj) ≤ length array →
  let st' := slices_AddPeer i x st in
  Group_Peers <$> read st' !! j = Some (<[Sl_Len (SG_Peers gi) := x]> (reads st (SG_Peers gj))) ∧ x ∈ default [] (Group_Peers <$> read st' !! j).
Proof.
  intros Hij Hi Hj Hai Haj Harr Hlen. simpl.
  assert (Group_Peers <$> read (slices_AddPeer i x st) !! j = Some (<[Sl_Len (SG_Peers gi) := x]> (reads st (SG_Peers gj)))) as Hr.
  { unfold slices_AddPeer, with_group, append. rewrite Hi, Hai. unfold array_of. rewrite Hai. simpl. rewrite Harr. simpl.
    rewrite decide_True by lia. rewrite read_lookup. simpl. rewrite lookup_insert_ne, Hj by done. simpl. f_equal.
    unfold contents, array_of. rewrite Haj. simpl. rewrite lookup_insert_eq, Harr. simpl. by rewrite take_insert_lt by lia. }
  split; [done|]. rewrite Hr. simpl. apply list_elem_of_lookup. exists (Sl_Len (SG_Peers gi)). apply list_lookup_insert_eq.
  unfold contents, array_of. rewrite Haj. simpl. rewrite Harr. simpl. rewrite length_take. lia.
Qed.
End sharing.

(** Arrays that double. *)
#[local] Instance doubling : Growth.
Proof. refine {| grow n := match n with 0 => 1 | _ => 2 * n end |}. intros [|n]; lia. Defined.

Definition four_peers : SliceState := mkSlices
  {[ 0 := ["a"; "b"; "c"; "d"]; 1 := ["b"] ]} 2
  {[ "all" := mkSliceGroup "all" "All" (mkSlice (Some 0) 4); "dev" := mkSliceGroup "dev" "dev" (mkSlice (Some 1) 1) ]}.
Abbreviation members gid st := (Group_Peers <$> read st !! gid).
Abbreviation a_deleted := (slices_DeletePeer "a" ["all"; "dev"] four_peers).

Lemma four_peers_sound : sound four_peers.
Proof.
  split.
  - intros gid g. unfold four_peers. simpl. rewrite lookup_insert_Some, lookup_singleton_Some.
    intros [[_ <-]|(_ & _ & <-)]; (split; [simpl; lia|]); eexists; (split; [reflexivity|simpl; lia]).
  - intros i j gi gj a. unfold four_peers. simpl. rewrite !lookup_insert_Some, !lookup_singleton_Some.
    intros [[<- <-]|(_ & <- & <-)] [[<- <-]|(_ & <- & <-)]; simpl; congruence.
Qed.

(** The deletion of "a": "dev" ends with all members of "All", in the same
    array; the peer added next, to "All" alone, is a member of "dev". *)
Example added_peer_in_another_group :
  members "all" a_deleted = Some ["b"; "c"; "d"] ∧ members "dev" a_deleted = Some ["b"; "c"; "d"; "b"] ∧
  members "all" (slices_AddPeer "all" "new" a_deleted) = Some ["b"; "c"; "d"; "new"] ∧
  members "dev" (slices_AddPeer "all" "new" a_deleted) = Some ["b"; "c"; "d"; "new"].
Proof. vm_compute. repeat split. Qed.

(** On the lists the same two calls leave "new" out of "dev": after
    [DeletePeer] the two views part, so [sound] cannot be kept by it. *)
Lemma DeletePeer_not_sound : ¬ sound a_deleted.
Proof.
  intros Hs. pose proof (run_refines [OpAddPeer "all" "new"] _ Hs) as [_ Hr]. simpl in Hr.
  apply (f_equal (λ m, Group_Peers <$> m !! "dev")) in Hr. vm_compute in Hr. done.
Qed.

(* ------------------------------------------------------------------ *)
(** ** Refinement *)

Lemma omap_pairs (m : gmap string Group) l :
  l ⊆ map_to_list m → omap (λ gid, (gid,.) <$> m !! gid) l.*1 = l.
Proof.
  induction l as [|[gid g] l IH]; [done|]. intros Hl. simpl.
  rewrite (proj1 (elem_of_map_to_list m gid g)) by (apply Hl, list_elem_of_here). simpl. f_equal. apply IH. set_solver.
Qed.

(** C23: As long as every group has its members in an array of its own, any
    sequence of adding and removing members, saving and deleting groups on
    slices leaves the groups that the same operations on lists give, each in
    an array of its own again; and a deletion of a peer that follows leaves
    the groups that [cleanup_groups] of the store gives, in whatever order
    the groups come. *)
Theorem slices_refine_lists `{Growth} (ops : list group_op) (peerKey : string) (order : list (string * Group)) (st : SliceState)
    (Hst : sound st) (Horder : order ≡ₚ map_to_list (run_lists ops (read st))) :
  sound (run_slices ops st) ∧ read (run_slices ops st) = run_lists ops (read st) ∧
  read (slices_DeletePeer peerKey order.*1 (run_slices ops st)) = cleanup_groups peerKey [] order (run_lists ops (read st)).
Proof.
  destruct (run_refines ops st Hst) as [Hs Hr]. split; [done|]. split; [done|]. unfold slices_DeletePeer.
  rewrite cleanup_refines; [|by rewrite Horder; apply NoDup_fst_map_to_list|apply Hs|done|].
  - unfold nil_slice. rewrite reads_nil, Hr, omap_pairs; [done|]. rewrite Horder. done.
  - intros gid g Hg Ha. apply Hs in Hg. unfold ok_slice in Hg. rewrite Ha in Hg. simpl in *. lia.
Qed.

Abbreviation some_ops := [OpSaveGroup "ops" "ops" ["c"] 1; OpGroupAddPeer "ops" "d"; OpGroupDeletePeer "all" "b"; OpAddPeer "all" "e"; OpDeleteGroup "dev"].
Lemma slices_refine_lists_witness :
  read (run_slices some_ops four_peers) = run_lists some_ops (read four_peers) ∧
  members "ops" (run_slices some_ops four_peers) = Some ["c"; "d"] ∧ members "all" (run_slices some_ops four_peers) = Some ["a"; "c"; "d"; "e"].
Proof.
  split; [|vm_compute; by split].
  exact (proj1 (proj2 (slices_refine_lists some_ops "a" (map_to_list (run_lists some_ops (read four_peers))) four_peers four_peers_sound (reflexivity _)))).
Defined.
