(* ===== verification/Peers.v ===== *)
(** * Peers: peers and the network map (management/server/peer.go)

    Registration of a peer, its metadata and status, its removal with the
    updates sent to the others, and the network map: the peers that the rules
    of the account let a peer see.  A [*Peer] of the store is an entry of the
    account's map; [Copy] shares the [Status] pointer, so assigning to the
    status of a copy assigns to the stored peer. *)

From S2P Require Import Prelude GoLib Model Network SetupKey UpdateChannel FileStore Account Groups.

(* ------------------------------------------------------------------ *)
(** ** Messages *)

(** grpcserver.go *)
Definition AllowedIPsFormat (ip : IP) : string := IP_String ip +:+ "/32".

Definition toRemotePeerConfig (peers : list Peer) : list RemotePeerConfig :=
  (λ p, mkRemotePeerConfig (Peer_Key p) [AllowedIPsFormat (Peer_IP p)]) <$> peers.

(** The update [DeletePeer] sends. *)
Definition peers_update (serial : Z) (update : list RemotePeerConfig) : SyncResponse :=
  mkSyncResponse None None update (bool_decide (length update = 0))
    (Some (mkPbNetworkMap serial None update (bool_decide (length update = 0)))).

(** The peers sent to [p]. *)
Definition peers_but (p : Peer) (peers : list Peer) : list Peer :=
  filter (λ remote, Peer_Key p ≠ Peer_Key remote) peers.

(* ------------------------------------------------------------------ *)
(** ** The groups of the network map *)

(** [groups[gid] = account.Groups[gid]] for the groups of one side of the
    rules; a missing group is a nil pointer. *)
Definition collect_groups (account : Account) (side : Rule → list string)
    (rules : list Rule) (groups : gmap string (option Group)) : gmap string (option Group) :=
  foldl (λ groups r,
    if decide (Rule_Flow r = TrafficFlowBidirect) then
      foldl (λ groups gid, <[gid := map_get (Account_Groups account) gid]> groups) groups (side r)
    else groups) groups rules.

(** The members of a group that belong to the account, but [peerKey]. *)
Definition group_peers (account : Account) (peerKey : string) (g : Group) : list Peer :=
  filter (λ p, Peer_Key p ≠ peerKey)
    (Peer_Copy <$> omap (λ pid, Account_Peers account !! pid) (Group_Peers g)).

Fixpoint peers_of_groups {W} (account : Account) (peerKey : string)
    (groups : list (string * option Group)) : M W (list Peer) :=
  match groups with
  | [] => mret []
  | (_, og) :: groups' =>
      g ← deref og;
      res ← peers_of_groups account peerKey groups';
      mret (group_peers account peerKey g ++ res)
  end.

Definition set_Meta_UIVersion (v : string) (m : PeerSystemMeta) : PeerSystemMeta :=
  mkMeta (Meta_Hostname m) (Meta_GoOS m) (Meta_Kernel m) (Meta_Core m) (Meta_Platform m)
    (Meta_OS m) (Meta_WtVersion m) v.

Section operations.
Context `{Runtime}.

Definition GetPeer (peerKey : string) : MW Peer := Store_GetPeer peerKey.

(** The status is assigned through the pointer shared with the stored peer,
    before [SavePeer]. *)
Definition MarkPeerConnected (peerKey : string) (connected : bool) : MW unit :=
  peer ← Store_GetPeer peerKey;
  account ← GetPeerAccount peerKey;
  _ ← deref (Peer_Status peer);
  now ← time_Now;
  let st := Some (mkStatus now connected) in
  _ ← modify_account (Account_Id account) (λ a,
        set_Peers (alter (set_Peer_Status st) peerKey (Account_Peers a)) a);
  SavePeer (Account_Id account) (set_Peer_Status st (Peer_Copy peer)).

Definition RenamePeer (accountId peerKey newName : string) : MW Peer :=
  peer ← Store_GetPeer peerKey;
  let peerCopy := set_Peer_Name newName (Peer_Copy peer) in
  _ ← SavePeer accountId peerCopy;
  mret peerCopy.

Definition UpdatePeerMeta (peerKey : string) (meta : PeerSystemMeta) : MW unit :=
  peer ← Store_GetPeer peerKey;
  account ← GetPeerAccount peerKey;
  let peerCopy := Peer_Copy peer in
  let meta' := if decide (Meta_UIVersion meta = "")
               then set_Meta_UIVersion (Meta_UIVersion (Peer_Meta peerCopy)) meta else meta in
  SavePeer (Account_Id account) (set_Peer_Meta meta' peerCopy).

(** The account pointer taken before the store's [DeletePeer] is read again
    after it. *)
Definition DeletePeer (accountId peerKey : string) : MW Peer :=
  _ ← GetAccount accountId or_err errAccountNotFound;
  peer ← Store_DeletePeer accountId peerKey;
  s ← get_store;
  account0 ← deref (Accounts s !! accountId);
  let account := set_Network (IncSerial (Account_Network account0)) account0 in
  _ ← SaveAccount account;
  let serial := CurrentSerial (Account_Network account) in
  _ ← SendUpdate peerKey (peers_update serial []);
  peers ← GetAccountPeers accountId;
  _ ← for_each peers (λ p,
        SendUpdate (Peer_Key p) (peers_update serial (toRemotePeerConfig (peers_but p peers))));
  _ ← CloseChannel peerKey;
  mret peer.

Definition GetPeerByIP (accountId peerIP : string) : MW Peer :=
  account ← GetAccount accountId or_err errAccountNotFound;
  peers ← range (Account_Peers account);
  kp ← or_fail (find (λ kp, bool_decide (peerIP = IP_String (Peer_IP kp.2))) peers)
         (Status NotFound ("peer with IP " +:+ peerIP +:+ " not found"));
  mret kp.2.

Definition GetNetworkMap (peerKey : string) : MW NetworkMap :=
  account ← GetPeerAccount peerKey or_err Status Internal ("Invalid peer key " +:+ peerKey);
  let network := Network_Copy (Account_Network account) in
  src ← try (GetPeerSrcRules (Account_Id account) peerKey);
  match src with
  | inl _ => mret (mkNetworkMap [] network)
  | inr srcRules =>
      dst ← try (GetPeerDstRules (Account_Id account) peerKey);
      match dst with
      | inl _ => mret (mkNetworkMap [] network)
      | inr dstRules =>
          groups ← range (collect_groups account Rule_Source dstRules
                            (collect_groups account Rule_Destination srcRules ∅));
          res ← peers_of_groups account peerKey groups;
          mret (mkNetworkMap res network)
      end
  end.

(** The account to register to, with its setup key when one is used. *)
Definition registration_account (upperKey userID : string) : MW (Account * option SetupKey) :=
  if decide (upperKey ≠ "") then
    account ← GetAccountBySetupKey upperKey
      or_err Status NotFound ("unable to register peer, unable to find account with setupKey " +:+ upperKey);
    o ← getAccountSetupKeyByKey account upperKey;
    sk ← or_fail o (Status NotFound ("unable to register peer, unknown setupKey " +:+ upperKey));
    now ← time_Now;
    if IsValid now sk then mret (account, Some sk)
    else fail (Status FailedPrecondition
                 "unable to register peer, its setup key is invalid (expired, overused or revoked)")
  else if decide (userID ≠ "") then
    account ← GetUserAccount userID
      or_err Status NotFound ("unable to register peer, unknown user with ID: " +:+ userID);
    mret (account, None)
  else fail (Status InvalidArgument "no setup key or user id provided").

Definition AddPeer (setupKey userID : string) (peer : Peer) : MW Peer :=
  let upperKey := ToUpper setupKey in
  ask ← registration_account upperKey userID;
  let '(account, sk) := ask in
  peers ← range (Account_Peers account);
  let takenIps := (λ kp, Peer_IP kp.2) <$> peers in
  nextIp ← AllocatePeerIP (Network_Net (Account_Network account)) takenIps;
  now ← time_Now;
  let newPeer := mkPeer (Peer_Key peer) upperKey nextIp (Peer_Meta peer) (Peer_Name peer)
                   (Some (mkStatus now false)) userID in
  allGroup ← GetGroupAll account;
  let '(gk, group) := allGroup in
  let account1 := put_group gk (set_Group_Peers (Group_Peers group ++ [Peer_Key newPeer]) group) account in
  let account2 := set_Peers (<[Peer_Key newPeer := newPeer]> (Account_Peers account1)) account1 in
  account3 ← match sk with
             | Some k =>
                 used ← time_Now;
                 mret (set_SetupKeys (<[SetupKey_Key k := IncrementUsage used k]>
                                        (Account_SetupKeys account2)) account2)
             | None => mret account2
             end;
  let account4 := set_Network (IncSerial (Account_Network account3)) account3 in
  _ ← SaveAccount account4 or_err Status Internal "failed adding peer";
  mret newPeer.
End operations.

(* ------------------------------------------------------------------ *)
(** ** Registration *)

(** The account and key [registration_account] settles on. *)
Definition eligible (upperKey userID : string) (s : FileStore) (a : Account) (o : option SetupKey) : Prop :=
  match o with
  | Some sk => upperKey ≠ "" ∧ via_index (SetupKeyId2AccountId s) upperKey s = Some a ∧
      (∃ i, Account_SetupKeys a !! i = Some sk) ∧ SetupKey_Key sk = upperKey ∧
      ∃ now, IsValid now sk = true
  | None => upperKey = "" ∧ userID ≠ "" ∧ user_account userID s = Some a
  end.

(** [AllocatePeerIP] may give the address, the peers of the account having the
    others. *)
Definition allocated_ip (a : Account) (ip : IP) : Prop :=
  ∀ h, subnet (Network_Net (Account_Network a)) h → ∃ taken,
    (∀ x, x ∈ taken ↔ ∃ i q, Account_Peers a !! i = Some q ∧ Peer_IP q = x) ∧
    ip ∈ drop_ends (free_for (Network_Net (Account_Network a)) h taken).

(** The account after a registration. *)
Record registered (upperKey userID : string) (peer : Peer) (o : option SetupKey)
    (a a' : Account) (p : Peer) : Prop := {
  rg_peer : Peer_Key p = Peer_Key peer ∧ Peer_SetupKey p = upperKey ∧ Peer_UserID p = userID ∧
            Peer_Meta p = Peer_Meta peer ∧ Peer_Name p = Peer_Name peer;
  rg_status : ∃ now, Peer_Status p = Some (mkStatus now false);
  rg_ip : IPNet_Contains (Network_Net (Account_Network a)) (Peer_IP p) = true ∧
          (∀ i q, Account_Peers a !! i = Some q → Peer_IP q ≠ Peer_IP p) ∧
          allocated_ip a (Peer_IP p);
  rg_peers : Account_Peers a' = <[Peer_Key peer := p]> (Account_Peers a);
  rg_serial : Network_Net (Account_Network a') = Network_Net (Account_Network a) ∧
              Network_Serial (Account_Network a') = wrap_u64 (Network_Serial (Account_Network a) + 1);
  rg_groups : ∃ gk g, map_get (Account_Groups a) gk = Some g ∧ Group_Name g = "All" ∧
    ∀ k, map_get (Account_Groups a') k
         = if decide (k = gk) then Some (set_Group_Peers (Group_Peers g ++ [Peer_Key peer]) g)
           else map_get (Account_Groups a) k;
  rg_keys : match o with
            | Some sk => ∃ now, Account_SetupKeys a' = <[SetupKey_Key sk := IncrementUsage now sk]> (Account_SetupKeys a)
            | None => Account_SetupKeys a' = Account_SetupKeys a
            end;
  rg_same : Account_Id a' = Account_Id a ∧ Account_Users a' = Account_Users a ∧
            Account_Rules a' = Account_Rules a }.

Lemma registered_resolves k u peer o a a' p :
  registered k u peer o a a' p → rules_resolve a → rules_resolve a'.
Proof.
  intros Hr Hx i rule Hi gid Hgid. destruct (rg_same _ _ _ _ _ _ _ Hr) as (_ & _ & Hru).
  rewrite Hru in Hi. destruct (rg_groups _ _ _ _ _ _ _ Hr) as (gk & g & Hg & _ & Hall).
  rewrite Hall. case_decide; [by eexists|]. by eapply Hx.
Qed.

(** Neither key nor user lead to an account. *)
Definition unknown_registrant (upperKey userID : string) (s : FileStore) : Prop :=
  if decide (upperKey ≠ "") then
    match via_index (SetupKeyId2AccountId s) upperKey s with
    | None => True
    | Some a => ∀ i sk, Account_SetupKeys a !! i = Some sk → SetupKey_Key sk ≠ upperKey
    end
  else userID ≠ "" ∧ user_account userID s = None.

Section add_peer.
Context `{Runtime}.

Lemma registration_account_spec k u w :
  ToUpper k = k →
  wp (registration_account k u) (λ r w', same_state w w' ∧
    match r with
    | Ok (a, o) => eligible k u (World_Store w) a o
    | Err e => (k = "" ∧ u = "" ∧ e = Status InvalidArgument "no setup key or user id provided") ∨
        (∃ m, e = Status NotFound m ∧ unknown_registrant k u (World_Store w)) ∨
        (∃ m a i sk now, e = Status FailedPrecondition m ∧
           via_index (SetupKeyId2AccountId (World_Store w)) k (World_Store w) = Some a ∧
           Account_SetupKeys a !! i = Some sk ∧ SetupKey_Key sk = k ∧ IsValid now sk = false)
    | _ => False
    end) w.
Proof.
  intros Hup. unfold registration_account, unknown_registrant.
  destruct (decide (k ≠ "")) as [Hk|Hk].
  - wp_step. wp_step. apply GetAccountBySetupKey_spec; simpl.
    2:{ rewrite Hup. intros Hn m. split; [done|]. right; left. rewrite Hn. by eexists. }
    intros id a Hid Ha. rewrite Hup in Hid. wp_step. unfold getAccountSetupKeyByKey.
    assert (via_index (SetupKeyId2AccountId (World_Store w)) k (World_Store w) = Some a) as Hv
      by (unfold via_index; by rewrite Hid).
    eapply wp_mono; [apply (find_key_spec (λ kv, k = SetupKey_Key kv.2))|].
    intros r w1 (Hs & o & -> & Ho). simpl. wp_step. rewrite Hv. destruct o as [sk|]; simpl.
    2:{ wp_step. split; [done|]. right; left. eexists. split; [done|]. intros i sk Hi Hsk.
        by apply (Ho i sk Hi). }
    destruct Ho as (i & Hi & Hkey). wp_step. wp_step. apply wp_time_Now. intros now n. simpl.
    destruct (IsValid now sk) eqn:Hvalid; wp_step; (split; [done|]).
    + simpl in Hkey. split; [done|]. split; [done|]. split; [by eexists|]. split; [done|]. by eexists.
    + right. right. by eexists _, a, i, sk, now.
  - apply dec_stable in Hk. destruct (decide (u ≠ "")) as [Hu|Hu].
    + wp_step. wp_step. apply user_account_lookup; simpl.
      2:{ intros Hn. split; [done|]. right; left. by eexists. }
      intros a Ha. wp_step. done.
    + wp_step. split; [done|]. left. apply dec_stable in Hu. done.
Qed.
End add_peer.

Section add_peer_spec.
Context `{Runtime}.

(** The error of a registration that changed nothing. *)
Definition refused (setupKey userID : string) (s : FileStore) (e : error) : Prop :=
  (setupKey = "" ∧ userID = "" ∧ e = Status InvalidArgument "no setup key or user id provided") ∨
  (∃ m, e = Status NotFound m ∧ unknown_registrant (ToUpper setupKey) userID s) ∨
  (∃ m a i sk now, e = Status FailedPrecondition m ∧
     via_index (SetupKeyId2AccountId s) (ToUpper setupKey) s = Some a ∧
     Account_SetupKeys a !! i = Some sk ∧ SetupKey_Key sk = ToUpper setupKey ∧
     IsValid now sk = false) ∨
  e = errOutOfIPs ∨ e = errNoGroupAll.

(** Every account of the store has an IPv4 network. *)
Definition networks_ok (s : FileStore) : Prop :=
  ∀ id a, Accounts s !! id = Some a → ∃ h, subnet (Network_Net (Account_Network a)) h.

Lemma eligible_stored k u s a o :
  eligible k u s a o → ∃ id, Accounts s !! id = Some a.
Proof. destruct o; [intros (_ & Hv & _)|intros (_ & _ & Hv)]; by apply via_index_stored in Hv. Qed.

(** Saving the account with the new peer. *)
Lemma add_peer_save_spec k u peer o a a' p w0 w :
  same_state w0 w → registered k u peer o a a' p → (∃ id, Accounts (World_Store w0) !! id = Some a) →
  wp (_ ← SaveAccount a' or_err Status Internal "failed adding peer"; mret p) (λ r w',
    match r with
    | Ok p' => p' = p ∧ saved a' w w' ∧ covered (Account_Id a') a' (World_Store w') ∧
        World_Disk w' = Some (Accounts (World_Store w'))
    | Err e => e = Status Internal "failed adding peer" ∧ World_Disk w' = World_Disk w0
    | Panic _ => ∃ id a, Accounts (World_Store w0) !! id = Some a ∧ ¬ rules_resolve a
    | Blocked => False
    end) w.
Proof.
  intros Hss Hreg [id Ha]. wp_step. eapply wp_mono; [apply save_or_err_spec|].
  intros [[]|e|s|] w1 [Hs Hr]; simpl; try done.
  - wp_step. destruct Hr as (? & ? & ?). done.
  - destruct Hr as (-> & _ & _ & Hd). split; [done|]. rewrite Hd. apply Hss.
  - exists id, a. split; [done|]. intros Hx. apply Hr. by eapply registered_resolves.
Qed.

(** A registration up to saving the account: refused without a change, or an
    account with the new peer is saved. *)
Lemma AddPeer_run setupKey u peer w Q :
  networks_ok (World_Store w) →
  (∀ e w1, same_state w w1 → refused setupKey u (World_Store w) e → Q (Err e) w1) →
  (∀ a o a' p w1, same_state w w1 → eligible (ToUpper setupKey) u (World_Store w) a o →
     registered (ToUpper setupKey) u peer o a a' p →
     wp (_ ← SaveAccount a' or_err Status Internal "failed adding peer"; mret p) Q w1) →
  wp (AddPeer setupKey u peer) Q w.
Proof.
  intros Hnets He Hsave. unfold AddPeer. wp_step.
  eapply wp_mono; [apply registration_account_spec, ToUpper_idem|].
  intros [[a o]|e|s|] w1 [Hs1 Hel]; simpl; try done.
  2:{ apply He; [done|]. destruct Hel as [(Hk & ? & ?)|[?|?]];
      [left; split; [by apply ToUpper_empty|done]|right; by left|right; right; by left]. }
  destruct (eligible_stored _ _ _ _ _ Hel) as [id Ha]. destruct (Hnets id a Ha) as [h Hnet].
  wp_step. apply wp_range. intros l n Hl _. simpl. wp_step.
  eapply wp_mono; [apply wp_and; [by apply (AllocatePeerIP_run _ h)|by apply AllocatePeerIP_allocated]|].
  intros [ip|e|s|] w2 [[Hs2 Hip] Hany]; simpl; try done.
  2:{ apply He; [by do 2 (etrans; [eassumption|])|]. destruct Hip as [-> _].
      right. right. right. by left. }
  apply elem_of_drop_ends, (elem_of_free_ips _ h) in Hip as (Hvip & Hc & Hx & _); [|done].
  apply takenIPMap_lookup in Hx as [_ Hx].
  wp_step. apply wp_time_Now. intros now n2. simpl. wp_step.
  eapply wp_mono; [apply GetGroupAll_spec|].
  intros [[gk g]|e|s|] w3 [Hs3 Hg]; simpl in *; try done.
  2:{ apply He; [by do 3 (etrans; [eassumption|])|]. destruct Hg as [-> _].
      do 4 right. done. }
  assert (same_state w w3) as Hs by (by do 3 (etrans; [eassumption|])).
  set (p := mkPeer _ _ _ _ _ _ _). destruct Hg as [Hg Hname].
  set (a2 := set_Peers _ _).
  assert (∀ keys, match o with
      | Some sk => ∃ now, keys = <[SetupKey_Key sk := IncrementUsage now sk]> (Account_SetupKeys a)
      | None => keys = Account_SetupKeys a end →
    registered (ToUpper setupKey) u peer o a
      (set_Network (IncSerial (Account_Network a)) (set_SetupKeys keys a2)) p) as Hreg.
  { intros keys Hkeys. split; simpl; try done; [by eexists| |].
    - split; [done|]. split; cycle 1.
      { intros h' Hh'. eexists. split; [|exact (Hany ip eq_refl h' Hh')]. intros x. rewrite list_elem_of_fmap. split.
        - intros ([i q] & -> & Hin%Hl). by exists i, q.
        - intros (i & q & Hq & <-). exists (i, q). split; [done|by apply Hl]. }
      intros i q Hq Heq. apply Hx, list_elem_of_fmap. exists ip. split; [done|].
      apply list_elem_of_fmap. exists (i, q). split; [by simpl; rewrite Heq|]. by apply Hl.
    - exists gk, g. split; [done|]. split; [done|]. intros k.
      exact (put_group_get gk _ a k (mk_is_Some _ _ Hg)). }
  wp_step. destruct o as [sk|].
  - wp_step. apply wp_time_Now. intros used n3. simpl. wp_step. simpl.
    eapply (Hsave a (Some sk)); [exact Hs|done|apply Hreg; by exists used].
  - wp_step. simpl. eapply (Hsave a None); [exact Hs|done|apply (Hreg (Account_SetupKeys a)); done].
Qed.

Lemma AddPeer_spec setupKey u peer w :
  networks_ok (World_Store w) →
  wp (AddPeer setupKey u peer) (λ r w',
    match r with
    | Ok p => ∃ a o a' w1, same_state w w1 ∧ eligible (ToUpper setupKey) u (World_Store w) a o ∧
        registered (ToUpper setupKey) u peer o a a' p ∧ saved a' w1 w' ∧
        covered (Account_Id a') a' (World_Store w') ∧
        World_Disk w' = Some (Accounts (World_Store w'))
    | Err e => same_state w w' ∧ refused setupKey u (World_Store w) e ∨
        e = Status Internal "failed adding peer" ∧ World_Disk w' = World_Disk w
    | Panic _ => ∃ id a, Accounts (World_Store w) !! id = Some a ∧ ¬ rules_resolve a
    | Blocked => False
    end) w.
Proof.
  intros Hnets. apply AddPeer_run; [done|by left|]. intros a o a' p w1 Hs Hel Hreg.
  eapply wp_mono; [eapply (add_peer_save_spec _ u peer o a a' p w);
    [exact Hs|exact Hreg|by eapply eligible_stored]|].
  intros [p'|e|s|] w2 Hr; try done; [|by right]. destruct Hr as (-> & ? & ? & ?). by exists a, o, a', w1.
Qed.
End add_peer_spec.

(* ------------------------------------------------------------------ *)
(** ** Properties of registration *)

(** No two peers of the account have the same address. *)
Definition ips_distinct (a : Account) : Prop :=
  ∀ i j p q, Account_Peers a !! i = Some p → Account_Peers a !! j = Some q →
    Peer_IP p = Peer_IP q → i = j.

(** C5: a successful [AddPeer] registers the peer in the account of its setup
    key or user: the account has it, the peer index finds it, it is a member of
    [All], its address lies in the account's network and no other peer has it
    (so that addresses stay pairwise distinct), the network serial has
    advanced by one, the setup key that was used, and no other, has been used
    once more, and no other account has changed. *)
Theorem AddPeer_registers `{Runtime} setupKey u peer w p w' :
  well_keyed (World_Store w) → networks_ok (World_Store w) →
  AddPeer setupKey u peer w = (Ok p, w') →
  ∃ id a a' o, eligible (ToUpper setupKey) u (World_Store w) a o ∧
    Accounts (World_Store w) !! id = Some a ∧
    Accounts (World_Store w') = <[id := a']> (Accounts (World_Store w)) ∧
    World_Disk w' = Some (Accounts (World_Store w')) ∧
    Account_Peers a' = <[Peer_Key peer := p]> (Account_Peers a) ∧
    Peer_Key p = Peer_Key peer ∧ Peer_SetupKey p = ToUpper setupKey ∧ Peer_UserID p = u ∧
    PeerKeyId2AccountId (World_Store w') !! Peer_Key peer = Some id ∧
    (∃ gk g, map_get (Account_Groups a') gk = Some g ∧ Group_Name g = "All" ∧
       Peer_Key peer ∈ Group_Peers g) ∧
    IPNet_Contains (Network_Net (Account_Network a)) (Peer_IP p) = true ∧
    (∀ i q, Account_Peers a !! i = Some q → Peer_IP q ≠ Peer_IP p) ∧
    (ips_distinct a → ips_distinct a') ∧
    Network_Serial (Account_Network a') = wrap_u64 (Network_Serial (Account_Network a) + 1) ∧
    match o with
    | Some sk => ∃ now, Account_SetupKeys a' = <[SetupKey_Key sk :=
        mkSetupKey (SetupKey_Id sk) (SetupKey_Key sk) (SetupKey_Name sk) (SetupKey_Type sk) (SetupKey_CreatedAt sk)
          (SetupKey_ExpiresAt sk) (SetupKey_Revoked sk) (wrap_i64 (SetupKey_UsedTimes sk + 1)) now]> (Account_SetupKeys a)
    | None => Account_SetupKeys a' = Account_SetupKeys a
    end.
Proof.
  intros Hk Hn Hrun. pose proof (AddPeer_spec setupKey u peer w Hn) as Hw.
  apply (wp_run _ _ _ _ _ Hrun) in Hw as (a & o & a' & w1 & Hs & Hel & Hreg & Hsv & Hcov & Hdisk).
  destruct (eligible_stored _ _ _ _ _ Hel) as [id Ha]. apply Hk in Ha as Hid.
  destruct Hreg as [(Hp1 & Hp2 & Hp3 & _) _ (Hip1 & Hip2 & _) Hpeers [_ Hser] (gk & g & Hg & Hname & Hgs) Hkeys (Hid' & _ & _)].
  assert (Account_Peers a' !! Peer_Key peer = Some p) as Hpin by (rewrite Hpeers; apply lookup_insert_eq).
  exists id, a, a', o. split; [done|]. split; [done|]. split.
  { rewrite (ex_accounts _ _ _ _ _ Hsv), (same_state_store _ _ Hs). congruence. }
  do 5 (split; [done|]). split.
  { rewrite <-Hp1. rewrite (cv_peers _ _ _ Hcov _ _ Hpin). congruence. }
  split.
  { eexists gk, _. split; [by rewrite Hgs, decide_True|]. split; [done|]. simpl.
    apply elem_of_app. right. by apply list_elem_of_singleton. }
  do 2 (split; [done|]). split; [|split; [done|]].
  2:{ destruct o as [sk|]; [|done]. destruct Hkeys as [now ->]. by exists now. }
  intros Hd i j q1 q2. rewrite Hpeers. intros [[<- <-]|[Hi Hq1]]%lookup_insert_Some
    [[<- <-]|[Hj Hq2]]%lookup_insert_Some Heq; [done|by destruct (Hip2 j q2)|by destruct (Hip2 i q1)|].
  by eapply Hd.
Qed.

(** An account with a one-off key [K] and its state. *)
Definition shop_net : IPNet := mkIPNet [100; 64; 0; 0]%Z (prefix_mask 8).
Definition shop_account : Account :=
  mkAccount "S" "u" "" "" false {["K" := demo_key]} (mkNetwork "n" shop_net "" 7)
    {["p" := demo_peer "p" 1]} {["u" := mkUser "u" UserRoleAdmin]}
    (Some {["g1" := mkGroup "g1" "All" ["p"]]})
    (Some {["rule" := mkRule "rule" "Default" ["g1"] ["g1"] TrafficFlowBidirect]}).
Definition shop_world : World := snd (@SaveAccount demo_runtime shop_account emptyWorld).
Definition new_peer : Peer := mkPeer "x" "" [] demo_meta "host" None "".

Lemma shop_world_accounts : Accounts (World_Store shop_world) = {["S" := shop_account]}.
Proof. vm_compute. reflexivity. Defined.
Lemma shop_well_keyed : well_keyed (World_Store shop_world).
Proof. intros id a. rewrite shop_world_accounts. by intros [<- <-]%lookup_singleton_Some. Defined.
Lemma shop_networks_ok : networks_ok (World_Store shop_world).
Proof.
  intros id a. rewrite shop_world_accounts. intros [<- <-]%lookup_singleton_Some. exists 8%Z.
  repeat split; try lia. repeat constructor; lia.
Defined.

Lemma AddPeer_registers_witness :
  ∃ p w', @AddPeer demo_runtime "k" "" new_peer shop_world = (Ok p, w') ∧
    PeerKeyId2AccountId (World_Store w') !! "x" = Some "S" ∧ Peer_IP p = [100; 64; 0; 3]%Z.
Proof.
  pose (w' := snd (@AddPeer demo_runtime "k" "" new_peer shop_world)).
  assert (∃ p, @AddPeer demo_runtime "k" "" new_peer shop_world = (Ok p, w') ∧
    Peer_IP p = [100; 64; 0; 3]%Z) as (p & Hrun & Hip)
    by (eexists; split; vm_compute; reflexivity).
  exists p, w'. split; [exact Hrun|]. split; [|exact Hip].
  destruct (@AddPeer_registers demo_runtime "k" "" new_peer shop_world p w' shop_well_keyed
    shop_networks_ok Hrun) as (id & a & a' & o & _ & Ha & _ & _ & _ & _ & _ & _ & Hix & _).
  rewrite shop_world_accounts in Ha. apply lookup_singleton_Some in Ha as [<- _]. exact Hix.
Defined.

(** A registration that fails changes nothing: every refusal (no key and
    no user, unknown key or user, invalid key, no free address, no group
    [All]) leaves the store and the file as they were and has its own error;
    the only other error is that of a failed save, which leaves the file as it
    was.  [AddPeer] never blocks, and panics only on an account with a
    dangling rule. *)
Theorem AddPeer_refusals `{Runtime} setupKey u peer w :
  networks_ok (World_Store w) →
  wp (AddPeer setupKey u peer) (λ r w',
    match r with
    | Ok _ => ∃ a o, eligible (ToUpper setupKey) u (World_Store w) a o
    | Err e => same_state w w' ∧ refused setupKey u (World_Store w) e ∨
        e = Status Internal "failed adding peer" ∧ World_Disk w' = World_Disk w
    | Panic _ => ∃ id a, Accounts (World_Store w) !! id = Some a ∧ ¬ rules_resolve a
    | Blocked => False
    end) w.
Proof.
  intros Hn. eapply wp_mono; [by apply AddPeer_spec|]. intros [p|e|s|] w' Hr; try done.
  destruct Hr as (a & o & a' & w1 & _ & Hel & _). eauto.
Qed.

Lemma AddPeer_refusals_witness :
  refused "" "nobody" (World_Store shop_world)
    (Status NotFound "unable to register peer, unknown user with ID: nobody") ∧
  (@AddPeer demo_runtime "" "nobody" new_peer shop_world).1
    = Err (Status NotFound "unable to register peer, unknown user with ID: nobody").
Proof.
  pose (w' := snd (@AddPeer demo_runtime "" "nobody" new_peer shop_world)).
  assert (@AddPeer demo_runtime "" "nobody" new_peer shop_world = (Err
    (Status NotFound "unable to register peer, unknown user with ID: nobody"), w')) as Hrun
    by (vm_compute; reflexivity).
  pose proof (@AddPeer_refusals demo_runtime "" "nobody" new_peer shop_world shop_networks_ok) as Hw.
  apply (wp_run _ _ _ _ _ Hrun) in Hw. split; [|exact (f_equal fst Hrun)].
  destruct Hw as [[_ Hr]|[[=] _]]. exact Hr.
Defined.

(** C37: a one-off setup key registers one machine: after it has been used by
    a successful [AddPeer], any further [AddPeer] with it, in whatever letter
    case, for whatever peer, is refused with the failed-precondition status and
    changes nothing. *)
Theorem one_off_key_registers_once `{Runtime} setupKey setupKey2 u u2 peer peer2 w p w1 w2 :
  well_keyed (World_Store w) → networks_ok (World_Store w) →
  (∀ id a, Accounts (World_Store w) !! id = Some a → keys_keyed a) →
  setupKey ≠ "" → ToUpper setupKey2 = ToUpper setupKey →
  (∀ id a k, Accounts (World_Store w) !! id = Some a →
     Account_SetupKeys a !! ToUpper setupKey = Some k →
     SetupKey_Type k = SetupKeyOneOff ∧ (0 ≤ SetupKey_UsedTimes k < 2 ^ 62)%Z) →
  AddPeer setupKey u peer w = (Ok p, w1) → World_Store w2 = World_Store w1 →
  wp (AddPeer setupKey2 u2 peer2) (λ r w3,
    (∃ m, r = Err (Status FailedPrecondition m)) ∧ same_state w2 w3) w2.
Proof.
  intros Hk Hn Hkk Hne Hup Hone Hrun Hw2. pose proof (AddPeer_spec setupKey u peer w Hn) as Hw.
  apply (wp_run _ _ _ _ _ Hrun) in Hw as (a & o & a' & wx & Hs & Hel & Hreg & Hsv & Hcov & _).
  destruct (eligible_stored _ _ _ _ _ Hel) as [id Ha].
  destruct o as [sk|]; [|destruct Hel as [Hx _]; by apply (proj1 (ToUpper_empty setupKey)) in Hx].
  destruct Hel as (_ & _ & [i Hi] & Hkey & _). apply (Hkk id a Ha) in Hi as Hki.
  rewrite Hkey in Hki. subst i. destruct (Hone id a sk Ha Hi) as [Ht Hu].
  destruct (rg_keys _ _ _ _ _ _ _ Hreg) as [now Hkeys]. rewrite Hkey in Hkeys.
  assert (Account_SetupKeys a' !! ToUpper setupKey = Some (IncrementUsage now sk)) as Hsk
    by (rewrite Hkeys; apply lookup_insert_eq).
  assert (SetupKeyId2AccountId (World_Store w2) !! ToUpper setupKey = Some (Account_Id a')) as Hix.
  { rewrite Hw2, <-(ToUpper_idem setupKey). by apply (cv_keys _ _ _ Hcov), mk_is_Some with (IncrementUsage now sk). }
  assert (Accounts (World_Store w2) !! Account_Id a' = Some a') as Ha'
    by (rewrite Hw2, (ex_accounts _ _ _ _ _ Hsv); apply lookup_insert_eq).
  unfold AddPeer. wp_step. rewrite Hup.
  eapply wp_mono; [apply (registration_account_spec _ u2 w2), ToUpper_idem|].
  assert (ToUpper setupKey ≠ "") as Hne' by (intros Hx; by apply Hne, (proj1 (ToUpper_empty setupKey))).
  assert (∀ i k, Account_SetupKeys a' !! i = Some k → SetupKey_Key k = ToUpper setupKey →
    i = ToUpper setupKey) as Huniq.
  { intros i k Hik Hkk'. rewrite Hkeys in Hik.
    apply lookup_insert_Some in Hik as [[<- _]|[_ Hik]]; [done|].
    apply (Hkk id a Ha) in Hik. congruence. }
  intros [[b o2]|e|s|] w3 [Hs3 Hr]; try done; simpl.
  - exfalso. destruct o2 as [sk2|]; [|by destruct Hr as [Hx _]].
    destruct Hr as (_ & Hv & [i Hi2] & Hkey2 & now2 & Hvalid).
    unfold via_index in Hv. rewrite Hix in Hv. simpl in Hv. rewrite Ha' in Hv. simplify_eq.
    rewrite (Huniq i sk2 Hi2 Hkey2), Hsk in Hi2. simplify_eq.
    apply IsValid_spec in Hvalid as (_ & _ & Hno). apply Hno. simpl. split; [done|].
    rewrite wrap_i64_small; lia.
  - split; [|done]. destruct Hr as [(? & _)|[(m & _ & Hunk)|(m & ? & ? & ? & ? & -> & _)]]; [done| |by eexists].
    exfalso. unfold unknown_registrant in Hunk. rewrite decide_True in Hunk by done.
    unfold via_index in Hunk. rewrite Hix in Hunk. simpl in Hunk. rewrite Ha' in Hunk.
    apply (Hunk _ _ Hsk). simpl. done.
Qed.

Lemma shop_keys_keyed id a : Accounts (World_Store shop_world) !! id = Some a → keys_keyed a.
Proof.
  rewrite shop_world_accounts. intros [<- <-]%lookup_singleton_Some i k.
  intros [<- <-]%(lookup_singleton_Some "K" i demo_key k). reflexivity.
Defined.

Lemma one_off_key_registers_once_witness :
  ∃ p w1 m, @AddPeer demo_runtime "k" "" new_peer shop_world = (Ok p, w1) ∧
    (@AddPeer demo_runtime "K" "" (demo_peer "y" 0) w1).1 = Err (Status FailedPrecondition m).
Proof.
  pose (w1 := snd (@AddPeer demo_runtime "k" "" new_peer shop_world)).
  assert (∃ p, @AddPeer demo_runtime "k" "" new_peer shop_world = (Ok p, w1)) as (p & Hrun)
    by (eexists; vm_compute; reflexivity).
  exists p, w1.
  pose proof (@one_off_key_registers_once demo_runtime "k" "K" "" "" new_peer (demo_peer "y" 0)
    shop_world p w1 w1 shop_well_keyed shop_networks_ok shop_keys_keyed ltac:(discriminate) eq_refl) as Hw.
  refine ((λ Hw', match Hw' with conj (ex_intro _ m Hm) _ => ex_intro _ m (conj Hrun Hm) end)
            (Hw _ Hrun eq_refl)).
  intros id a k Ha Hk. rewrite shop_world_accounts in Ha.
  apply lookup_singleton_Some in Ha as [_ <-].
  apply (lookup_singleton_Some "K" "K" demo_key k) in Hk as [_ <-]. simpl. split; [reflexivity|lia].
Defined.

(* ------------------------------------------------------------------ *)
(** ** The network map *)

(** Some bidirectional rule of [rules] names the group on the given side. *)
Definition names_group (side : Rule → list string) (rules : list Rule) (gid : string) : Prop :=
  ∃ r, r ∈ rules ∧ Rule_Flow r = TrafficFlowBidirect ∧ gid ∈ side r.

(** Entries of [groups] are the account's. *)
Definition from_account (a : Account) (groups : gmap string (option Group)) : Prop :=
  ∀ gid x, groups !! gid = Some x → x = map_get (Account_Groups a) gid.

Lemma insert_gids_spec a gids groups gid :
  from_account a groups →
  from_account a (foldl (λ m gid, <[gid := map_get (Account_Groups a) gid]> m) groups gids) ∧
  (is_Some (foldl (λ m gid, <[gid := map_get (Account_Groups a) gid]> m) groups gids !! gid) ↔
   gid ∈ gids ∨ is_Some (groups !! gid)).
Proof.
  revert groups. induction gids as [|x gids IH]; intros groups Hf; simpl.
  { split; [done|]. split; [by right|]. by intros [[]%not_elem_of_nil|]. }
  assert (from_account a (<[x := map_get (Account_Groups a) x]> groups)) as Hf'.
  { intros i y. intros [[<- <-]|[_ Hi]]%lookup_insert_Some; [done|by apply Hf]. }
  destruct (IH _ Hf') as [H1 H2]. split; [done|]. rewrite H2, elem_of_cons, lookup_insert_is_Some.
  destruct (decide (x = gid)) as [->|]; intuition congruence.
Qed.

Lemma collect_groups_spec a side rules groups gid :
  from_account a groups →
  from_account a (collect_groups a side rules groups) ∧
  (is_Some (collect_groups a side rules groups !! gid) ↔
   names_group side rules gid ∨ is_Some (groups !! gid)).
Proof.
  unfold collect_groups, names_group. revert groups.
  induction rules as [|r rules IH]; intros groups Hf; simpl.
  { split; [done|]. split; [by right|]. intros [(r & []%not_elem_of_nil & _)|]; done. }
  case_decide as Hflow.
  - destruct (insert_gids_spec a (side r) groups gid Hf) as [H1 H2].
    destruct (IH _ H1) as [H3 H4]. split; [done|]. rewrite H4, H2. split.
    + intros [(r' & ? & ?)|[?|?]]; [left; exists r'; set_solver|left; exists r; set_solver|by right].
    + intros [(r' & [->|Hin]%elem_of_cons & ? & ?)|?]; [by right; left|left; by exists r'|by right; right].
  - destruct (IH _ Hf) as [H3 H4]. split; [done|]. rewrite H4. split.
    + intros [(r' & ? & ?)|?]; [left; exists r'; set_solver|by right].
    + intros [(r' & [->|Hin]%elem_of_cons & ? & ?)|?]; [done|left; by exists r'|by right].
Qed.

Lemma elem_of_group_peers a pk g p :
  p ∈ group_peers a pk g ↔ ∃ pid q, pid ∈ Group_Peers g ∧ Account_Peers a !! pid = Some q ∧
    Peer_Key q ≠ pk ∧ p = q.
Proof.
  unfold group_peers. rewrite list_elem_of_filter, list_elem_of_fmap. split.
  - intros [Hne (q & -> & (pid & Hpid & Hq)%list_elem_of_omap)]. exists pid, q.
    by destruct q.
  - intros (pid & q & Hpid & Hq & Hne & ->). split; [done|]. exists q. split; [by destruct q|].
    apply list_elem_of_omap. by exists pid.
Qed.

Lemma peers_of_groups_spec {W} a pk l (w : W) :
  wp (peers_of_groups a pk l) (λ r w', w' = w ∧
    match r with
    | Ok res => (∀ k og, (k, og) ∈ l → is_Some og) ∧
        ∀ p, p ∈ res ↔ ∃ k g, (k, Some g) ∈ l ∧ p ∈ group_peers a pk g
    | Panic _ => ∃ k, (k, None) ∈ l
    | _ => False
    end) w.
Proof.
  induction l as [|[k og] l IH]; simpl.
  - wp_step. split; [done|]. split; [by intros k og []%not_elem_of_nil|].
    intros p. split; [by intros []%not_elem_of_nil|by intros (k & g & []%not_elem_of_nil & _)].
  - wp_step. wp_step; [|split; [done|exists k; subst; by left]]. simpl.
    wp_step. eapply wp_mono; [apply IH|]. intros [res|e|s|] w' [-> Hr]; simpl; try done.
    + wp_step. split; [done|]. subst og. destruct Hr as [Hsome Hres]. split.
      { intros k' og' [[= -> ->]|Hin]%elem_of_cons; [by eexists|by eapply Hsome]. }
      intros p. rewrite elem_of_app, Hres. split.
      * intros [Hp|(k' & g & Hin & Hp)]; [exists k, a0; split; [by left|done]|exists k', g; split; [by right|done]].
      * intros (k' & g & [[= -> ->]|Hin]%elem_of_cons & Hp); [by left|right; by exists k', g].
    + destruct Hr as [k' Hin]. split; [done|]. exists k'. by right.
Qed.

(** The account of a known peer. *)
Definition peer_account (pk : string) (s : FileStore) : option Account :=
  via_index (PeerKeyId2AccountId s) pk s.

(** The indexes give the peer a bidirectional rule of the account whose other
    side names the group. *)
Definition shown_group (a : Account) (s : FileStore) (pk gid : string) : Prop :=
  ∃ rid rule, map_get (Account_Rules a) rid = Some rule ∧ Rule_Flow rule = TrafficFlowBidirect ∧
    (has_rule (PeerKeyId2SrcRulesId s) pk rid ∧ gid ∈ Rule_Destination rule ∨
     has_rule (PeerKeyId2DstRulesId s) pk rid ∧ gid ∈ Rule_Source rule).

Section network_map.
Context `{Runtime}.

Lemma names_group_found m id pk w rules a w' side gid :
  rules_found m id pk w (Ok rules) w' → Accounts (World_Store w) !! id = Some a →
  names_group side rules gid ↔ ∃ rid rule, map_get (Account_Rules a) rid = Some rule ∧
    Rule_Flow rule = TrafficFlowBidirect ∧ has_rule m pk rid ∧ gid ∈ side rule.
Proof.
  intros [_ (a' & Ha' & _ & Hr)] Ha. assert (a' = a) as -> by congruence. unfold names_group. split.
  - intros (rule & (rid & Hix & Hrule)%Hr & Hflow & Hgid). by exists rid, rule.
  - intros (rid & rule & Hrule & Hflow & Hix & Hgid). exists rule. split; [|done].
    apply Hr. by exists rid.
Qed.

(** The groups the network map is read from. *)
Lemma map_groups_spec pk a w w1 w2 srcRules dstRules :
  Accounts (World_Store w) !! Account_Id a = Some a → same_state w w1 →
  rules_found (PeerKeyId2SrcRulesId (World_Store w)) (Account_Id a) pk w (Ok srcRules) w1 →
  rules_found (PeerKeyId2DstRulesId (World_Store w1)) (Account_Id a) pk w1 (Ok dstRules) w2 →
  let gs := collect_groups a Rule_Source dstRules (collect_groups a Rule_Destination srcRules ∅) in
  from_account a gs ∧ ∀ gid, is_Some (gs !! gid) ↔ shown_group a (World_Store w) pk gid.
Proof.
  intros Ha Hs1 Hsrc Hdst gs. pose proof (same_state_store _ _ Hs1) as Es1.
  assert (∀ gid, names_group Rule_Destination srcRules gid ↔ _) as Hns
    by (intros gid; by apply (names_group_found _ _ _ _ _ _ _ Rule_Destination gid Hsrc Ha)).
  assert (∀ gid, names_group Rule_Source dstRules gid ↔ _) as Hnd
    by (intros gid; eapply (names_group_found _ _ _ _ _ _ _ Rule_Source gid Hdst); by rewrite Es1).
  set (g0 := collect_groups a Rule_Destination srcRules ∅) in *.
  assert (from_account a ∅) as Hf0 by (by intros gid x Hx; rewrite lookup_empty in Hx).
  assert (from_account a g0) as Hf1 by (apply (collect_groups_spec a _ srcRules ∅ "" Hf0)).
  split; [apply (collect_groups_spec a _ dstRules g0 "" Hf1)|]. intros gid.
  unfold gs. rewrite (proj2 (collect_groups_spec a _ dstRules g0 gid Hf1)).
  unfold g0. rewrite (proj2 (collect_groups_spec a _ srcRules ∅ gid Hf0)), Hns, Hnd, Es1, lookup_empty.
  unfold shown_group. split.
  - intros [(rid & rule & ? & ? & ? & ?)|[(rid & rule & ? & ? & ? & ?)|[? [=]]]];
      exists rid, rule; tauto.
  - intros (rid & rule & ? & ? & [[? ?]|[? ?]]); [right; left|left]; by exists rid, rule.
Qed.

(** Reading the peers out of those groups. *)
Lemma map_peers_spec pk a w w0 gs :
  same_state w w0 → from_account a gs →
  (∀ gid, is_Some (gs !! gid) ↔ shown_group a (World_Store w) pk gid) →
  wp (groups ← range gs; peers_of_groups a pk groups) (λ r w', same_state w w' ∧
    match r with
    | Ok res => (∀ gid, shown_group a (World_Store w) pk gid → is_Some (map_get (Account_Groups a) gid)) ∧
        ∀ p, p ∈ res ↔ ∃ gid g, shown_group a (World_Store w) pk gid ∧
          map_get (Account_Groups a) gid = Some g ∧ p ∈ group_peers a pk g
    | Panic _ => ∃ gid, shown_group a (World_Store w) pk gid ∧ map_get (Account_Groups a) gid = None
    | _ => False
    end) w0.
Proof.
  intros Hs Hfa Hgs. wp_step. apply wp_range. intros l n Hl _. simpl.
  eapply wp_mono; [apply peers_of_groups_spec|]. intros [res|e|s|] w3 [-> Hr]; simpl; try done.
  - split; [done|]. destruct Hr as [Hsome Hres]. split.
    + intros gid [og Hog]%Hgs. rewrite <-(Hfa gid og Hog). by eapply Hsome, Hl.
    + intros p. rewrite Hres. split.
      * intros (gid & g & Hin%Hl & Hp). exists gid, g. apply Hfa in Hin as Hg.
        split; [by apply Hgs; eexists|done].
      * intros (gid & g & [og Hog]%Hgs & Hg & Hp). exists gid, g. split; [|done].
        apply Hl. rewrite Hog. f_equal. rewrite <-Hg. by apply Hfa.
  - destruct Hr as [gid Hin%Hl]. split; [done|]. exists gid.
    split; [apply Hgs; by eexists|]. symmetry. by apply Hfa.
Qed.

Lemma GetNetworkMap_spec pk w :
  well_keyed (World_Store w) →
  wp (GetNetworkMap pk) (λ r w', same_state w w' ∧
    match r with
    | Ok nm => ∃ a, peer_account pk (World_Store w) = Some a ∧
        NetworkMap_Network nm = Account_Network a ∧
        (NetworkMap_Peers nm = [] ∧
           (PeerKeyId2SrcRulesId (World_Store w) !! pk = None ∨
            PeerKeyId2DstRulesId (World_Store w) !! pk = None) ∨
         is_Some (PeerKeyId2SrcRulesId (World_Store w) !! pk) ∧ is_Some (PeerKeyId2DstRulesId (World_Store w) !! pk) ∧
         (∀ gid, shown_group a (World_Store w) pk gid → is_Some (map_get (Account_Groups a) gid)) ∧
         ∀ p, p ∈ NetworkMap_Peers nm ↔ ∃ gid g, shown_group a (World_Store w) pk gid ∧
           map_get (Account_Groups a) gid = Some g ∧ p ∈ group_peers a pk g)
    | Err e => peer_account pk (World_Store w) = None ∧ e = Status Internal ("Invalid peer key " +:+ pk)
    | Panic _ => ∃ a gid, peer_account pk (World_Store w) = Some a ∧
        shown_group a (World_Store w) pk gid ∧ map_get (Account_Groups a) gid = None
    | Blocked => False
    end) w.
Proof.
  intros Hk. unfold GetNetworkMap. wp_step. wp_step. apply GetPeerAccount_spec; simpl; [|done].
  intros id a Hid Ha. apply Hk in Ha as Hida.
  assert (peer_account pk (World_Store w) = Some a) as Hpa by (unfold peer_account, via_index; by rewrite Hid).
  assert (Network_Copy (Account_Network a) = Account_Network a) as -> by (by destruct (Account_Network a)).
  rewrite <-Hida in Ha. wp_step. wp_step. eapply wp_mono; [apply GetPeerSrcRules_spec|].
  intros [srcRules|e|s|] w1 Hsrc; simpl; try by destruct Hsrc.
  2:{ wp_step. destruct Hsrc as [Hs1 [Hn|Hn]]; [congruence|]. split; [done|]. exists a. eauto 6. }
  assert (same_state w w1) as Hs1 by apply Hsrc. pose proof (same_state_store _ _ Hs1) as Es1.
  wp_step. wp_step. eapply wp_mono; [apply GetPeerDstRules_spec|].
  intros [dstRules|e|s|] w2 Hdst; simpl; try by destruct Hdst.
  2:{ wp_step. destruct Hdst as [Hs2 Hn]. rewrite Es1 in Hn. destruct Hn as [Hn|Hn]; [congruence|].
      split; [by etrans|]. exists a. eauto 6. }
  destruct (map_groups_spec pk a w w1 w2 srcRules dstRules Ha Hs1 Hsrc Hdst) as [Hfa Hgs].
  assert (same_state w w2) as Hs2 by (etrans; [exact Hs1|apply Hdst]).
  pose proof (map_peers_spec pk a w w2 _ Hs2 Hfa Hgs) as Hp.
  apply (wp_bind_assoc (range _) (peers_of_groups a pk)). apply wp_bind.
  eapply wp_mono; [exact Hp|]. intros [res|e|s|] w3 [Hs3 Hr]; simpl; try done.
  - wp_step. split; [done|]. exists a. split; [done|]. split; [done|]. right.
    destruct Hsrc as (_ & ? & _ & ? & _), Hdst as (_ & ? & _ & Hd & _). rewrite Es1 in Hd. done.
  - split; [done|]. destruct Hr as (gid & ? & ?). by exists a, gid.
Qed.
End network_map.

(* ------------------------------------------------------------------ *)
(** ** Properties of the network map *)

(** A network map never leaks: the peers it lists are peers stored in the
    account of the asking peer, never the asking peer itself, and the network
    it carries is the account's.  Asking changes nothing but the clock. *)
Theorem network_map_isolated `{Runtime} pk w nm w' :
  well_keyed (World_Store w) → GetNetworkMap pk w = (Ok nm, w') →
  same_state w w' ∧
  ∃ a, peer_account pk (World_Store w) = Some a ∧ NetworkMap_Network nm = Account_Network a ∧
    ∀ p, p ∈ NetworkMap_Peers nm → Peer_Key p ≠ pk ∧ ∃ i, Account_Peers a !! i = Some p.
Proof.
  intros Hk Hrun. pose proof (GetNetworkMap_spec pk w Hk) as Hw.
  apply (wp_run _ _ _ _ _ Hrun) in Hw as (Hs & a & Ha & Hn & Hp). split; [done|].
  exists a. split; [done|]. split; [done|]. intros p Hin. destruct Hp as [[Hnil _]|(_ & _ & _ & Hp)].
  - rewrite Hnil in Hin. by apply not_elem_of_nil in Hin.
  - apply Hp in Hin as (gid & g & _ & _ & (pid & q & _ & Hq & Hne & ->)%elem_of_group_peers). eauto.
Qed.

Lemma network_map_isolated_witness :
  ∃ nm w', @GetNetworkMap demo_runtime "p" shop_world = (Ok nm, w') ∧
    same_state shop_world w' ∧ NetworkMap_Peers nm = [].
Proof.
  pose (w' := snd (@GetNetworkMap demo_runtime "p" shop_world)).
  assert (∃ nm, @GetNetworkMap demo_runtime "p" shop_world = (Ok nm, w') ∧ NetworkMap_Peers nm = [])
    as (nm & Hrun & Hnil) by (eexists; split; vm_compute; reflexivity).
  exists nm, w'. split; [exact Hrun|]. split; [|exact Hnil].
  exact (proj1 (@network_map_isolated demo_runtime "p" shop_world nm w' shop_well_keyed Hrun)).
Defined.

(** The access-control list, from the account alone: a bidirectional rule has
    one peer in a group of one side and the other peer in a group of the
    other side. *)
Definition member (a : Account) (gids : list string) (pk : string) : Prop :=
  ∃ gid g, gid ∈ gids ∧ map_get (Account_Groups a) gid = Some g ∧ pk ∈ Group_Peers g.
Definition connected (a : Account) (p q : string) : Prop :=
  ∃ k rule, map_get (Account_Rules a) k = Some rule ∧ Rule_Flow rule = TrafficFlowBidirect ∧
    (member a (Rule_Source rule) p ∧ member a (Rule_Destination rule) q ∨
     member a (Rule_Destination rule) p ∧ member a (Rule_Source rule) q).

(** The peer is in no group of another account. *)
Definition local_peer (pk : string) (a : Account) (s : FileStore) : Prop :=
  ∀ id b gid g, Accounts s !! id = Some b → map_get (Account_Groups b) gid = Some g →
    pk ∈ Group_Peers g → b = a.

Lemma local_rule_pairs side a s pk rid :
  local_peer pk a s → rules_keyed a → (∃ id, Accounts s !! id = Some a) →
  (∃ id b, Accounts s !! id = Some b ∧ rule_pairs side b pk rid) ↔
  ∃ rule, map_get (Account_Rules a) rid = Some rule ∧ member a (side rule) pk.
Proof.
  intros Hl Hrk [ida Ha]. split.
  - intros (id & b & Hb & k & rule & gid & g & Hrule & Hgid & Hg & Hpk & ->).
    assert (b = a) as -> by by eapply Hl. apply Hrk in Hrule as Hkk. rewrite Hkk.
    exists rule. split; [done|]. by exists gid, g.
  - intros (rule & Hrule & gid & g & Hgid & Hg & Hpk). exists ida, a. split; [done|].
    apply Hrk in Hrule as Hkk. exists rid, rule, gid, g. done.
Qed.

(** On derived indexes a group is shown to a peer when a bidirectional rule
    has the peer on its other side. *)
Lemma shown_group_member pk a s gid :
  derived (Accounts s) s → (∃ id, Accounts s !! id = Some a) → rules_keyed a → local_peer pk a s →
  shown_group a s pk gid ↔ ∃ k rule, map_get (Account_Rules a) k = Some rule ∧
    Rule_Flow rule = TrafficFlowBidirect ∧
    (member a (Rule_Source rule) pk ∧ gid ∈ Rule_Destination rule ∨
     member a (Rule_Destination rule) pk ∧ gid ∈ Rule_Source rule).
Proof.
  intros Hd Hst Hrk Hl. unfold shown_group.
  setoid_rewrite (dv_src _ _ Hd). setoid_rewrite (dv_dst _ _ Hd).
  unfold src_fact, dst_fact. setoid_rewrite (local_rule_pairs _ a _ pk); [|done..]. split.
  - intros (k & rule & Hrule & Hf & [[(r' & Hr' & Hm) Hg]|[(r' & Hr' & Hm) Hg]]);
      exists k, rule; simplify_eq; tauto.
  - intros (k & rule & Hrule & Hf & [[Hm Hg]|[Hm Hg]]); exists k, rule; eauto 10.
Qed.

(** The peers behind the groups shown are the connected ones. *)
Lemma shown_peers_connected pk a s p :
  derived (Accounts s) s → (∃ id, Accounts s !! id = Some a) → rules_keyed a → local_peer pk a s →
  (∃ gid g, shown_group a s pk gid ∧ map_get (Account_Groups a) gid = Some g ∧ p ∈ group_peers a pk g) ↔
  ∃ q, connected a pk q ∧ Account_Peers a !! q = Some p ∧ Peer_Key p ≠ pk.
Proof.
  intros Hd Hst Hrk Hl. split.
  - intros (gid & g & Hsh & Hg & (q & p' & Hq & Hp' & Hne & ->)%elem_of_group_peers).
    apply shown_group_member in Hsh as (k & rule & Hrule & Hf & Hor); try done.
    exists q. split; [|done]. exists k, rule. split; [done|]. split; [done|].
    assert (∀ gids, gid ∈ gids → member a gids q) by (intros; by exists gid, g).
    destruct Hor as [[? ?]|[? ?]]; [left|right]; eauto.
  - intros (q & (k & rule & Hrule & Hf & Hor) & Hq & Hne).
    assert (∃ gid g, shown_group a s pk gid ∧ map_get (Account_Groups a) gid = Some g ∧
      q ∈ Group_Peers g) as (gid & g & Hsh & Hg & Hin).
    { destruct Hor as [[? (gid & g & ? & ? & ?)]|[? (gid & g & ? & ? & ?)]]; exists gid, g;
        (split; [|done]); apply shown_group_member; try done; exists k, rule; tauto. }
    exists gid, g. split; [done|]. split; [done|]. apply elem_of_group_peers. by exists q, p.
Qed.

(** The peer is in a source group of some rule, and in a destination group of
    some rule. *)
Definition on_side (side : Rule → list string) (a : Account) (pk : string) : Prop :=
  ∃ k rule, map_get (Account_Rules a) k = Some rule ∧ member a (side rule) pk.
Definition two_sided (a : Account) (pk : string) : Prop := on_side Rule_Source a pk ∧ on_side Rule_Destination a pk.

(** On derived indexes these are the peers with an entry in both. *)
Lemma entry_on_side side m pk a s :
  local_peer pk a s → rules_keyed a → (∃ id, Accounts s !! id = Some a) →
  (∀ p r, has_rule m p r ↔ ∃ id b, Accounts s !! id = Some b ∧ rule_pairs side b p r) →
  (∀ p, is_Some (m !! p) → ∃ r, has_rule m p r) → is_Some (m !! pk) ↔ on_side side a pk.
Proof.
  intros Hl Hrk Hst Hm Hfull. assert (is_Some (m !! pk) ↔ ∃ rid, has_rule m pk rid) as ->.
  { split; [apply Hfull|]. intros [rid Hr]. by eapply has_rule_entry. }
  unfold on_side. setoid_rewrite Hm. by setoid_rewrite (local_rule_pairs side a s pk).
Qed.
Lemma two_sided_entries pk a s :
  derived (Accounts s) s → (∃ id, Accounts s !! id = Some a) → rules_keyed a → local_peer pk a s →
  is_Some (PeerKeyId2SrcRulesId s !! pk) ∧ is_Some (PeerKeyId2DstRulesId s !! pk) ↔ two_sided a pk.
Proof.
  intros Hd Hst Hrk Hl. unfold two_sided.
  rewrite (entry_on_side Rule_Source _ pk a s), (entry_on_side Rule_Destination _ pk a s); try done.
  - apply (dv_dst _ _ Hd).
  - apply (dv_full _ _ Hd).
  - apply (dv_src _ _ Hd).
  - apply (dv_full _ _ Hd).
Qed.

(** What the peer sees by the rules of the account. *)
Definition sees (a : Account) (pk : string) (p : Peer) : Prop :=
  two_sided a pk ∧ ∃ q, connected a pk q ∧ Account_Peers a !! q = Some p ∧ Peer_Key p ≠ pk.
(** What the peer sees by the indexes of the store. *)
Definition listed (a : Account) (s : FileStore) (pk : string) (p : Peer) : Prop :=
  is_Some (PeerKeyId2SrcRulesId s !! pk) ∧ is_Some (PeerKeyId2DstRulesId s !! pk) ∧
  ∃ gid g q, shown_group a s pk gid ∧ map_get (Account_Groups a) gid = Some g ∧
    q ∈ Group_Peers g ∧ Account_Peers a !! q = Some p ∧ Peer_Key p ≠ pk.

Lemma shown_in_group a s pk p :
  (∃ gid g, shown_group a s pk gid ∧ map_get (Account_Groups a) gid = Some g ∧ p ∈ group_peers a pk g) ↔
  ∃ gid g q, shown_group a s pk gid ∧ map_get (Account_Groups a) gid = Some g ∧
    q ∈ Group_Peers g ∧ Account_Peers a !! q = Some p ∧ Peer_Key p ≠ pk.
Proof.
  setoid_rewrite elem_of_group_peers. split.
  - intros (gid & g & ? & ? & q & p' & ? & ? & ? & ->). by exists gid, g, q.
  - intros (gid & g & q & ? & ? & ? & ? & ?). exists gid, g. split; [done|]. split; [done|]. by exists q, p.
Qed.

Lemma listed_sees pk a s p :
  derived (Accounts s) s → (∃ id, Accounts s !! id = Some a) → rules_keyed a → local_peer pk a s →
  listed a s pk p ↔ sees a pk p.
Proof.
  intros Hd Hst Hrk Hl. unfold listed, sees. rewrite <-shown_in_group, <-(two_sided_entries pk a s) by done.
  rewrite shown_peers_connected by done. tauto.
Qed.

Lemma GetNetworkMap_listed `{Runtime} pk w :
  well_keyed (World_Store w) →
  wp (GetNetworkMap pk) (λ r w', same_state w w' ∧
    match r with
    | Ok nm => ∃ a, peer_account pk (World_Store w) = Some a ∧ NetworkMap_Network nm = Account_Network a ∧
        ∀ p, p ∈ NetworkMap_Peers nm ↔ listed a (World_Store w) pk p
    | Err e => peer_account pk (World_Store w) = None ∧ e = Status Internal ("Invalid peer key " +:+ pk)
    | Panic _ => ∃ a gid, peer_account pk (World_Store w) = Some a ∧
        shown_group a (World_Store w) pk gid ∧ map_get (Account_Groups a) gid = None
    | Blocked => False
    end) w.
Proof.
  intros Hk. eapply wp_mono; [by apply GetNetworkMap_spec|]. intros [nm|e|s|] w' [Hs Hr]; (split; [done|]); try done.
  destruct Hr as (a & Ha & Hnet & Hp). exists a. split; [done|]. split; [done|]. intros p. unfold listed.
  rewrite <-shown_in_group. destruct Hp as [[-> Hn]|(H1 & H2 & _ & ->)]; [|tauto]. split; [by intros []%not_elem_of_nil|].
  intros ([x H1] & [y H2] & _). destruct Hn; congruence.
Qed.

(** What [GetNetworkMap] answers on derived indexes. *)
Lemma GetNetworkMap_acl `{Runtime} pk w a :
  well_keyed (World_Store w) → derived (Accounts (World_Store w)) (World_Store w) →
  peer_account pk (World_Store w) = Some a → rules_keyed a → rules_resolve a →
  local_peer pk a (World_Store w) →
  wp (GetNetworkMap pk) (λ r w', same_state w w' ∧ ∃ nm, r = Ok nm ∧
    NetworkMap_Network nm = Account_Network a ∧ ∀ p, p ∈ NetworkMap_Peers nm ↔ sees a pk p) w.
Proof.
  intros Hk Hd Ha Hrk Hres Hl.
  assert (∃ id, Accounts (World_Store w) !! id = Some a) as Hst by by eapply via_index_stored.
  eapply wp_mono; [by apply GetNetworkMap_listed|]. intros [nm|e|s|] w' [Hs Hr]; (split; [done|]).
  - exists nm. split; [done|]. destruct Hr as (a' & Ha' & Hnet & Hp).
    assert (a' = a) as -> by congruence. split; [done|]. intros p. rewrite Hp. by apply listed_sees.
  - destruct Hr as [Hn _]. congruence.
  - exfalso. destruct Hr as (a' & gid & Ha' & Hsh & Hg). assert (a' = a) as -> by congruence.
    apply shown_group_member in Hsh as (k & rule & Hrule & _ & Hor); try done.
    destruct (Hres k rule Hrule gid) as [g Hg']; [|congruence].
    apply elem_of_app. destruct Hor as [[_ ?]|[_ ?]]; auto.
  - done.
Qed.

(** C1: what a network map lists, in any state: the other peers of the account
    that are in a group the rule indexes show to the asking peer through a
    bidirectional rule, and none at all unless both indexes have an entry for
    the asking peer.  When the indexes are those of the accounts (as after a
    restart), these are exactly the peers that a bidirectional rule connects
    with it, provided it is on both sides of rules, and none otherwise.  The
    answer is an error only for a peer that is in no account, and a panic only
    for a rule that names a group that is not there. *)
Theorem network_map_is_acl `{Runtime} pk w :
  well_keyed (World_Store w) →
  wp (GetNetworkMap pk) (λ r w', same_state w w' ∧
    match r with
    | Ok nm => ∃ a, peer_account pk (World_Store w) = Some a ∧ NetworkMap_Network nm = Account_Network a ∧
        (∀ p, p ∈ NetworkMap_Peers nm ↔ listed a (World_Store w) pk p) ∧
        (derived (Accounts (World_Store w)) (World_Store w) → rules_keyed a → local_peer pk a (World_Store w) →
           ∀ p, p ∈ NetworkMap_Peers nm ↔ sees a pk p)
    | Err e => peer_account pk (World_Store w) = None ∧ e = Status Internal ("Invalid peer key " +:+ pk)
    | Panic _ => ∃ a gid, peer_account pk (World_Store w) = Some a ∧
        shown_group a (World_Store w) pk gid ∧ map_get (Account_Groups a) gid = None
    | Blocked => False
    end) w.
Proof.
  intros Hk. eapply wp_mono; [by apply GetNetworkMap_listed|]. intros [nm|e|s|] w' [Hs Hr]; (split; [done|]); try done.
  destruct Hr as (a & Ha & Hnet & Hp). exists a. split; [done|]. split; [done|]. split; [done|].
  intros Hd Hrk Hl p. rewrite Hp. apply listed_sees; try done. by eapply via_index_stored.
Qed.

(** A rule within [All] and one from it to [Dev]. *)
Definition acl_account : Account :=
  mkAccount "A" "u" "d" "" false ∅ demo_net
    {["p" := demo_peer "p" 1; "q" := demo_peer "q" 2; "r" := demo_peer "r" 3]} ∅
    (Some {["g1" := mkGroup "g1" "All" ["p"; "q"]; "g2" := mkGroup "g2" "Dev" ["r"]]})
    (Some {["r1" := mkRule "r1" "Default" ["g1"] ["g1"] TrafficFlowBidirect;
            "r2" := mkRule "r2" "All to Dev" ["g1"] ["g2"] TrafficFlowBidirect]}).
Definition acl_disk : World := set_Disk (Some {["A" := acl_account]}) emptyWorld.
(** The service restarted on a file with that account. *)
Definition acl_world : World := snd (@restore demo_runtime acl_disk).

Lemma acl_world_accounts : Accounts (World_Store acl_world) = {["A" := acl_account]}.
Proof. vm_compute. reflexivity. Defined.
Lemma acl_well_keyed : well_keyed (World_Store acl_world).
Proof. intros id a. rewrite acl_world_accounts. by intros [<- <-]%lookup_singleton_Some. Defined.
Lemma acl_derived : derived (Accounts (World_Store acl_world)) (World_Store acl_world).
Proof.
  assert (@restore demo_runtime acl_disk = (Ok tt, acl_world)) as Hrun by (vm_compute; reflexivity).
  pose proof (@restore_spec demo_runtime {["A" := acl_account]} acl_disk eq_refl) as Hw.
  apply (wp_run _ _ _ _ _ Hrun) in Hw as [_ Hd]. rewrite acl_world_accounts. exact Hd.
Defined.
Lemma acl_local pk : local_peer pk acl_account (World_Store acl_world).
Proof. intros id b gid g. rewrite acl_world_accounts. by intros [<- <-]%lookup_singleton_Some. Defined.

(** Every entry of a concrete map, checked by evaluation. *)
Lemma map_get_all {A} (P : string → A → Prop) (m : gomap A) :
  Forall (λ kv, P kv.1 kv.2) (map_to_list (map_of m)) →
  ∀ k v, map_get m k = Some v → P k v.
Proof.
  intros Hall k v Hk. rewrite Forall_forall in Hall.
  apply (Hall (k, v)). by apply elem_of_map_to_list.
Defined.

Lemma acl_rules_keyed : rules_keyed acl_account.
Proof.
  unfold rules_keyed. apply (map_get_all (λ k rule, Rule_ID rule = k)).
  vm_compute. repeat constructor.
Defined.
Lemma acl_rules_resolve : rules_resolve acl_account.
Proof.
  unfold rules_resolve. apply (map_get_all (λ k rule, rule_resolves acl_account rule)).
  assert (∀ rule, forallb (λ gid, bool_decide (is_Some (map_get (Account_Groups acl_account) gid)))
    (Rule_Source rule ++ Rule_Destination rule) = true → rule_resolves acl_account rule) as Hb.
  { intros rule Hf gid Hgid. rewrite forallb_forall in Hf.
    apply list_elem_of_In, Hf in Hgid. by apply bool_decide_eq_true in Hgid. }
  apply (Forall_impl (λ kv : string * Rule, forallb (λ gid,
    bool_decide (is_Some (map_get (Account_Groups acl_account) gid)))
    (Rule_Source kv.2 ++ Rule_Destination kv.2) = true)).
  - vm_compute. repeat constructor.
  - intros [k rule]. apply Hb.
Defined.

(** [p] sees [q], through the default rule, and [r], through the second. *)
Lemma network_map_is_acl_witness :
  ∃ nm, (@GetNetworkMap demo_runtime "p" acl_world).1 = Ok nm ∧
    demo_peer "r" 3 ∈ NetworkMap_Peers nm.
Proof.
  pose proof (@network_map_is_acl demo_runtime "p" acl_world acl_well_keyed) as Hw.
  assert (∃ nm, (@GetNetworkMap demo_runtime "p" acl_world).1 = Ok nm) as [nm Hrun] by (eexists; vm_compute; reflexivity).
  exists nm. split; [exact Hrun|]. unfold wp in Hw. rewrite Hrun in Hw. destruct Hw as (_ & a & Ha & _ & _ & Hsees).
  assert (a = acl_account) as ->.
  { assert (peer_account "p" (World_Store acl_world) = Some acl_account) as Hpa by (vm_compute; reflexivity). congruence. }
  apply (Hsees acl_derived acl_rules_keyed (acl_local "p")). split.
  - split; exists "r1", (mkRule "r1" "Default" ["g1"] ["g1"] TrafficFlowBidirect); (split; [reflexivity|]);
      exists "g1", (mkGroup "g1" "All" ["p"; "q"]); (split; [left|]); split; [reflexivity|left|reflexivity|left].
  - exists "r". split; [|split; [reflexivity|discriminate]].
    exists "r2", (mkRule "r2" "All to Dev" ["g1"] ["g2"] TrafficFlowBidirect).
    split; [reflexivity|]. split; [reflexivity|]. left. split.
    + exists "g1", (mkGroup "g1" "All" ["p"; "q"]). split; [left|]. split; [reflexivity|left].
    + exists "g2", (mkGroup "g2" "Dev" ["r"]). split; [left|]. split; [reflexivity|left].
Defined.

(** A peer that occurs on one side of the rules only gets an empty network
    map, although the rules are bidirectional: having no entry in one of the
    two rule indexes ends [GetNetworkMap] at once. *)
Theorem one_sided_peer_sees_nobody `{Runtime} pk w a :
  well_keyed (World_Store w) → peer_account pk (World_Store w) = Some a →
  PeerKeyId2SrcRulesId (World_Store w) !! pk = None ∨
  PeerKeyId2DstRulesId (World_Store w) !! pk = None →
  wp (GetNetworkMap pk) (λ r _, ∃ nm, r = Ok nm ∧ NetworkMap_Peers nm = []) w.
Proof.
  intros Hk Ha Hor. unfold GetNetworkMap. wp_step. wp_step. apply GetPeerAccount_spec; simpl.
  2:{ unfold peer_account in Ha. congruence. }
  intros id a' Hid Ha'. assert (a' = a) as ->.
  { unfold peer_account, via_index in Ha. rewrite Hid in Ha. simpl in Ha. congruence. }
  wp_step. wp_step. eapply wp_mono; [apply GetPeerSrcRules_spec|].
  intros [srcRules|e|s|] w1 [Hs1 Hr]; simpl; try done; [|wp_step; by eexists].
  destruct Hr as (_ & _ & [x Hx] & _). destruct Hor as [Hor|Hor]; [congruence|].
  wp_step. wp_step. eapply wp_mono; [apply GetPeerDstRules_spec|].
  intros [dstRules|e|s|] w2 [_ Hr]; simpl; try done; [|wp_step; by eexists].
  destruct Hr as (_ & _ & [y Hy] & _). rewrite (same_state_store _ _ Hs1) in Hy. congruence.
Qed.

(** [r] does not see [p], although the rule connects them and [p] sees [r]. *)
Lemma one_sided_peer_sees_nobody_witness :
  (∃ nm, (@GetNetworkMap demo_runtime "r" acl_world).1 = Ok nm ∧ NetworkMap_Peers nm = []) ∧
  connected acl_account "r" "p".
Proof.
  assert (PeerKeyId2SrcRulesId (World_Store acl_world) !! "r" = None) as Hn by (vm_compute; reflexivity).
  split.
  - exact (@one_sided_peer_sees_nobody demo_runtime "r" acl_world acl_account acl_well_keyed
      ltac:(vm_compute; reflexivity) (or_introl Hn)).
  - exists "r2", (mkRule "r2" "All to Dev" ["g1"] ["g2"] TrafficFlowBidirect).
    split; [reflexivity|]. split; [reflexivity|]. right. split.
    + exists "g2", (mkGroup "g2" "Dev" ["r"]). split; [left|]. split; [reflexivity|left].
    + exists "g1", (mkGroup "g1" "All" ["p"; "q"]). split; [left|]. split; [reflexivity|left].
Defined.

(* ------------------------------------------------------------------ *)
(** ** Status, name and metadata *)

(** Peers are stored under their key. *)
Definition peers_keyed (a : Account) : Prop :=
  ∀ i p, Account_Peers a !! i = Some p → Peer_Key p = i.

Section save_peer.
Context `{Runtime}.

(** The record of a registered peer, and the account it is in. *)
Definition stored_peer (pk id : string) (p : Peer) (s : FileStore) : Prop :=
  PeerKeyId2AccountId s !! pk = Some id ∧ (a ← Accounts s !! id; Account_Peers a !! pk) = Some p.

Lemma GetPeer_stored pk id p w :
  stored_peer pk id p (World_Store w) → GetPeer pk w = (Ok p, w).
Proof.
  intros [Hid (a & Ha & Hp)%bind_Some].
  assert (wp (GetPeer pk) (λ r w', (r, w') = (Ok p, w)) w) as Hw.
  2:{ unfold wp in Hw. by destruct (GetPeer pk w). }
  apply Store_GetPeer_spec.
  - intros id' a' p' Hid' Ha' Hp'. congruence.
  - unfold via_index. rewrite Hid. simpl. rewrite Ha. simpl. congruence.
Qed.

(** What storing a peer again does to the account: its entry, and the group
    [All], which gets the peer (back). *)
Definition peer_saved (id : string) (p : Peer) (s s' : FileStore) : Prop :=
  ∃ a gk g, Accounts s !! id = Some a ∧ map_get (Account_Groups a) gk = Some g ∧ Group_Name g = "All" ∧
    s' = set_Accounts (<[id := with_peer gk g p a]> (Accounts s)) s.

Lemma peer_saved_stored id p s s' :
  peer_saved id p s s' → PeerKeyId2AccountId s !! Peer_Key p = Some id →
  stored_peer (Peer_Key p) id p s'.
Proof.
  intros (a & gk & g & Ha & Hg & _ & ->) Hid. split; [done|]. simpl.
  rewrite lookup_insert_eq. simpl. apply lookup_insert_eq.
Qed.

Lemma peer_saved_in_All id p s s' :
  peer_saved id p s s' → ∃ a' gk g', Accounts s' !! id = Some a' ∧
    map_get (Account_Groups a') gk = Some g' ∧ Group_Name g' = "All" ∧ Peer_Key p ∈ Group_Peers g'.
Proof.
  intros (a & gk & g & Ha & Hg & Hn & ->). simpl. rewrite lookup_insert_eq.
  exists (with_peer gk g p a), gk. unfold with_peer. destruct (decide (Peer_Key p ∈ Group_Peers g)) as [Hin|Hin].
  - exists g. split; [done|]. split; [exact Hg|done].
  - pose proof (put_group_get gk (set_Group_Peers (Group_Peers g ++ [Peer_Key p]) g) a gk
      (mk_is_Some _ _ Hg)) as Hpg. rewrite decide_True in Hpg by done.
    eexists. split; [done|]. split; [exact Hpg|]. split; [done|]. simpl. apply elem_of_app. right.
    by apply list_elem_of_singleton.
Qed.

Lemma SavePeer_saved id p w :
  wp (SavePeer id p) (λ r w',
    match r with
    | Ok _ => peer_saved id p (World_Store w) (World_Store w')
    | Err _ => World_Store w' = World_Store w ∨ peer_saved id p (World_Store w) (World_Store w')
    | _ => False
    end) w.
Proof.
  eapply wp_mono; [apply SavePeer_spec|].
  intros r w' [[Hs [e ->]]|(a & gk & g & Ha & Hg & Hn & Es & _ & _ & _ & Hr)].
  - left. by apply same_state_store.
  - assert (peer_saved id p (World_Store w) (World_Store w')) as Hps by by exists a, gk, g.
    destruct Hr as [->|[e ->]]; [done|by right].
Qed.

(** The three operations that look a peer up and store a changed copy. *)
Lemma peer_lookup_spec {A} pk id p (k : Peer → MW A) Q w :
  stored_peer pk id p (World_Store w) → wp (k p) Q w → wp (peer ← Store_GetPeer pk; k peer) Q w.
Proof.
  intros Hst Hk. pose proof (GetPeer_stored pk id p w Hst) as Hrun. unfold GetPeer in Hrun.
  wp_step. unfold wp. by rewrite Hrun.
Qed.

Lemma account_lookup_spec {A} pk id p (k : Account → MW A) Q w :
  well_keyed (World_Store w) → stored_peer pk id p (World_Store w) →
  (∀ a, Accounts (World_Store w) !! id = Some a → Account_Id a = id → wp (k a) Q w) →
  wp (account ← GetPeerAccount pk; k account) Q w.
Proof.
  intros Hk [Hid (a & Ha & Hp)%bind_Some] HQ. wp_step. apply GetPeerAccount_spec; simpl.
  - intros id' a' Hid' Ha'. apply HQ; [congruence|]. apply Hk in Ha'. congruence.
  - unfold via_index. rewrite Hid. simpl. congruence.
Qed.
End save_peer.

(** A peer of the account that is renamed keeps everything but its name:
    [GetPeer] afterwards returns the stored peer with the new name, and the
    peer is a member of [All].  [RenamePeer] neither panics nor blocks. *)
Theorem RenamePeer_renames `{Runtime} id pk name p w :
  stored_peer pk id p (World_Store w) → Peer_Key p = pk →
  wp (RenamePeer id pk name) (λ r w',
    match r with
    | Ok p' => p' = set_Peer_Name name p ∧ GetPeer pk w' = (Ok p', w') ∧
        ∃ a' gk g', Accounts (World_Store w') !! id = Some a' ∧
          map_get (Account_Groups a') gk = Some g' ∧ Group_Name g' = "All" ∧ pk ∈ Group_Peers g'
    | Err _ => GetPeer pk w' = (Ok p, w') ∨ GetPeer pk w' = (Ok (set_Peer_Name name p), w')
    | _ => False
    end) w.
Proof.
  intros Hst Hpk. unfold RenamePeer. eapply peer_lookup_spec; [done|].
  assert (set_Peer_Name name (Peer_Copy p) = set_Peer_Name name p) as -> by done.
  wp_step. eapply wp_mono; [apply SavePeer_saved|].
  assert (PeerKeyId2AccountId (World_Store w) !! Peer_Key (set_Peer_Name name p) = Some id) as Hix
    by (simpl; rewrite Hpk; apply Hst).
  intros [[]|e|s|] w1 Hr; simpl; try done.
  - wp_step. split; [done|]. split.
    + rewrite <-Hpk. eapply (GetPeer_stored (Peer_Key (set_Peer_Name name p))), peer_saved_stored; done.
    + rewrite <-Hpk. eapply (peer_saved_in_All _ (set_Peer_Name name p)). done.
  - destruct Hr as [Es|Hr]; [left; eapply GetPeer_stored; by rewrite Es|right].
    rewrite <-Hpk. eapply (GetPeer_stored (Peer_Key (set_Peer_Name name p))), peer_saved_stored; done.
Qed.

Lemma RenamePeer_renames_witness :
  ∃ w', @RenamePeer demo_runtime "A" "p" "laptop" acl_world = (Ok (set_Peer_Name "laptop" (demo_peer "p" 1)), w') ∧
    GetPeer "p" w' = (Ok (set_Peer_Name "laptop" (demo_peer "p" 1)), w').
Proof.
  pose (w' := snd (@RenamePeer demo_runtime "A" "p" "laptop" acl_world)).
  assert (@RenamePeer demo_runtime "A" "p" "laptop" acl_world
    = (Ok (set_Peer_Name "laptop" (demo_peer "p" 1)), w')) as Hrun by (vm_compute; reflexivity).
  exists w'. split; [exact Hrun|].
  assert (stored_peer "p" "A" (demo_peer "p" 1) (World_Store acl_world)) as Hst
    by (split; vm_compute; reflexivity).
  pose proof (@RenamePeer_renames demo_runtime "A" "p" "laptop" _ acl_world Hst eq_refl) as Hw.
  apply (wp_run _ _ _ _ _ Hrun) in Hw. apply Hw.
Defined.

(** A login that reports metadata replaces the stored metadata, except
    that a report without UI version keeps the known UI version. *)
Theorem UpdatePeerMeta_keeps_UIVersion `{Runtime} id pk meta p w w' :
  well_keyed (World_Store w) → stored_peer pk id p (World_Store w) → Peer_Key p = pk →
  UpdatePeerMeta pk meta w = (Ok tt, w') →
  ∃ p', GetPeer pk w' = (Ok p', w') ∧
    Meta_UIVersion (Peer_Meta p') = (if decide (Meta_UIVersion meta = "")
                                     then Meta_UIVersion (Peer_Meta p) else Meta_UIVersion meta) ∧
    set_Meta_UIVersion "" (Peer_Meta p') = set_Meta_UIVersion "" meta ∧
    set_Peer_Meta (Peer_Meta p) p' = p.
Proof.
  intros Hk Hst Hpk Hrun.
  set (meta' := if decide (Meta_UIVersion meta = "")
    then set_Meta_UIVersion (Meta_UIVersion (Peer_Meta p)) meta else meta).
  assert (wp (UpdatePeerMeta pk meta) (λ r w', r = Ok tt →
    GetPeer pk w' = (Ok (set_Peer_Meta meta' p), w')) w) as Hw.
  { unfold UpdatePeerMeta. eapply peer_lookup_spec; [done|]. eapply account_lookup_spec; [done..|].
    intros a Ha Hid. rewrite Hid. eapply wp_mono; [apply SavePeer_saved|].
    intros r w1 Hr ->. rewrite <-Hpk.
    eapply (GetPeer_stored (Peer_Key (set_Peer_Meta meta' p))), peer_saved_stored; [exact Hr|].
    simpl. rewrite Hpk. apply Hst. }
  apply (wp_run _ _ _ _ _ Hrun) in Hw. exists (set_Peer_Meta meta' p).
  split; [by apply Hw|]. unfold meta'. case_decide; destruct p, meta; simpl; done.
Qed.

Lemma UpdatePeerMeta_keeps_UIVersion_witness :
  ∃ w' p', @UpdatePeerMeta demo_runtime "p" (mkMeta "h2" "linux" "k" "c" "p" "o" "v2" "") acl_world = (Ok tt, w') ∧
    GetPeer "p" w' = (Ok p', w') ∧ set_Peer_Meta demo_meta p' = demo_peer "p" 1.
Proof.
  pose (w' := snd (@UpdatePeerMeta demo_runtime "p" (mkMeta "h2" "linux" "k" "c" "p" "o" "v2" "") acl_world)).
  assert (@UpdatePeerMeta demo_runtime "p" (mkMeta "h2" "linux" "k" "c" "p" "o" "v2" "") acl_world
    = (Ok tt, w')) as Hrun by (vm_compute; reflexivity).
  assert (stored_peer "p" "A" (demo_peer "p" 1) (World_Store acl_world)) as Hst
    by (split; vm_compute; reflexivity).
  destruct (@UpdatePeerMeta_keeps_UIVersion demo_runtime "A" "p" _ _ acl_world w' acl_well_keyed Hst
    eq_refl Hrun) as (p' & Hp' & _ & _ & Heq).
  exists w', p'. split; [exact Hrun|]. split; [exact Hp'|exact Heq].
Defined.

(** Marking a registered peer as connected or not always takes effect in
    memory, with the present time: the status is assigned through the pointer
    the stored peer shares, so even a failure to save leaves it changed.  On
    success the peer is also (back) in the group [All].  A peer stored without
    a status makes the service panic. *)
Theorem MarkPeerConnected_sticks `{Runtime} id pk connected p w :
  well_keyed (World_Store w) → stored_peer pk id p (World_Store w) → Peer_Key p = pk →
  wp (MarkPeerConnected pk connected) (λ r w',
    match r with
    | Ok _ => (∃ now, GetPeer pk w' = (Ok (set_Peer_Status (Some (mkStatus now connected)) p), w')) ∧
        ∃ a' gk g', Accounts (World_Store w') !! id = Some a' ∧
          map_get (Account_Groups a') gk = Some g' ∧ Group_Name g' = "All" ∧ pk ∈ Group_Peers g'
    | Err _ => ∃ now, GetPeer pk w' = (Ok (set_Peer_Status (Some (mkStatus now connected)) p), w')
    | Panic _ => Peer_Status p = None ∧ w' = w
    | Blocked => False
    end) w.
Proof.
  intros Hk Hst Hpk. unfold MarkPeerConnected. eapply peer_lookup_spec; [done|].
  eapply account_lookup_spec; [done..|]. intros a Ha Hid.
  wp_step. wp_step; [|done]. simpl. wp_step. apply wp_time_Now. intros now n. simpl.
  set (p' := set_Peer_Status (Some (mkStatus now connected)) p).
  assert (set_Peer_Status (Some (mkStatus now connected)) (Peer_Copy p) = p') as -> by done.
  wp_step. apply wp_modify. simpl. set (w1 := set_Store _ _).
  assert (stored_peer pk id p' (World_Store w1)) as Hst1.
  { destruct Hst as [Hix Hp]. split; [done|]. unfold w1. simpl. rewrite Hid, lookup_alter_eq, Ha. simpl.
    rewrite lookup_alter_eq. rewrite Ha in Hp. simpl in Hp. by rewrite Hp. }
  assert (PeerKeyId2AccountId (World_Store w1) !! Peer_Key p' = Some id) as Hix
    by (simpl; rewrite Hpk; apply Hst).
  assert (Peer_Key p' = pk) as Hpk' by done. rewrite Hid.
  eapply wp_mono; [apply SavePeer_saved|]. intros [[]|e|s|] w2 Hr; simpl; try done.
  - split; [exists now; eapply GetPeer_stored; rewrite <-Hpk'; by eapply peer_saved_stored|].
    rewrite <-Hpk'. by eapply peer_saved_in_All.
  - exists now. destruct Hr as [Es|Hr]; eapply GetPeer_stored; [by rewrite Es|].
    rewrite <-Hpk'. by eapply peer_saved_stored.
Qed.

Lemma MarkPeerConnected_sticks_witness :
  ∃ w' now, @MarkPeerConnected demo_runtime "r" true acl_world = (Ok tt, w') ∧
    GetPeer "r" w' = (Ok (set_Peer_Status (Some (mkStatus now true)) (demo_peer "r" 3)), w') ∧
    ∃ a' gk g', Accounts (World_Store w') !! "A" = Some a' ∧
      map_get (Account_Groups a') gk = Some g' ∧ Group_Name g' = "All" ∧ "r" ∈ Group_Peers g'.
Proof.
  pose (w' := snd (@MarkPeerConnected demo_runtime "r" true acl_world)).
  assert (@MarkPeerConnected demo_runtime "r" true acl_world = (Ok tt, w')) as Hrun
    by (vm_compute; reflexivity).
  assert (stored_peer "r" "A" (demo_peer "r" 3) (World_Store acl_world)) as Hst
    by (split; vm_compute; reflexivity).
  pose proof (@MarkPeerConnected_sticks demo_runtime "A" "r" true _ acl_world acl_well_keyed Hst eq_refl) as Hw.
  apply (wp_run _ _ _ _ _ Hrun) in Hw as [[now Hg] Hall].
  exists w', now. split; [exact Hrun|]. split; [exact Hg|exact Hall].
Defined.

(** The status lives in the store: nothing else changes. *)
Lemma MarkPeerConnected_rest `{Runtime} pk connected w :
  wp (MarkPeerConnected pk connected) (λ _ w',
    World_Upd w' = World_Upd w ∧ World_Turn w' = World_Turn w) w.
Proof.
  unfold MarkPeerConnected. wp_step. apply Store_GetPeer_spec; simpl; [|done].
  intros id a p _ _ _. wp_step. apply GetPeerAccount_spec; simpl; [|done]. intros id' a' _ _.
  wp_step. wp_step; [|done]. simpl. wp_step. apply wp_time_Now. intros now n. simpl.
  wp_step. apply wp_modify. simpl. eapply wp_mono; [apply SavePeer_spec|].
  intros r w1 [[(_ & _ & Hu & Ht & _) _]|(? & ? & ? & _ & _ & _ & _ & Hu & Ht & _)]; done.
Qed.

(* ------------------------------------------------------------------ *)
(** ** Removal *)

(** One message to each of a list of peers. *)
Lemma send_each_spec (f : Peer → SyncResponse) l w :
  upd_wf (World_Upd w) → NoDup (Peer_Key <$> l) →
  wp (for_each l (λ p, SendUpdate (Peer_Key p) (f p))) (λ r w',
    upd_wf (World_Upd w') ∧ only_upd w w' ∧
    Upd_PeerChannels (World_Upd w') = Upd_PeerChannels (World_Upd w) ∧
    match r with
    | Ok _ => (∀ p, p ∈ l → queues (World_Upd w') !! Peer_Key p =
                 (λ q, q ++ [f p]) <$> queues (World_Upd w) !! Peer_Key p) ∧
        ∀ k, k ∉ Peer_Key <$> l → queues (World_Upd w') !! k = queues (World_Upd w) !! k
    | Blocked => True
    | _ => False
    end) w.
Proof.
  revert w. induction l as [|p l IH]; intros w Hwf Hnd; simpl.
  { wp_step. do 3 (split; [done|]). split; [|done]. by intros p []%not_elem_of_nil. }
  simpl in Hnd. apply NoDup_cons in Hnd as [Hnin Hnd].
  wp_step. eapply wp_mono; [by apply SendUpdate_spec|]. intros r w1 (Hwf1 & Ho1 & Hpc1 & Hq).
  assert (r = Ok tt ∧ queues (World_Upd w1) =
    alter (λ q, q ++ [f p]) (Peer_Key p) (queues (World_Upd w)) ∨ r = Blocked) as Hr.
  { destruct (queues (World_Upd w) !! Peer_Key p) as [q|] eqn:Hqp.
    - case_decide; [left|by right; destruct Hq]. destruct Hq as [-> ->]. split; [done|].
      by rewrite (alter_alt_Some _ _ _ _ Hqp).
    - destruct Hq as [-> ->]. left. split; [done|]. apply map_eq. intros i.
      destruct (decide (i = Peer_Key p)) as [->|]; [by rewrite lookup_alter_eq, Hqp|by rewrite lookup_alter_ne]. }
  destruct Hr as [[-> Hq1]| ->]; simpl; [|done].
  eapply wp_mono; [by apply IH|]. intros r w2 (Hwf2 & Ho2 & Hpc2 & Hr). split; [done|]. split.
  { destruct Ho1 as (?&?&?&?), Ho2 as (?&?&?&?). repeat split; congruence. }
  split; [congruence|]. destruct r as [[]|e|s|]; try done. destruct Hr as [Hin Hout]. rewrite Hq1 in *. split.
  - intros p' [->|Hp']%elem_of_cons; [rewrite Hout by done; by rewrite lookup_alter_eq|].
    rewrite (Hin p' Hp'), lookup_alter_ne; [done|]. intros Heq. apply Hnin. rewrite Heq.
    by apply list_elem_of_fmap_2.
  - intros k [Hne Hk]%not_elem_of_cons. rewrite (Hout k Hk). by rewrite lookup_alter_ne.
Qed.

Section delete_peer.
Context `{Runtime}.

(** The first half of [DeletePeer]: the store without the peer, and the next
    serial, saved. *)
Lemma remove_and_save_spec {A} id pk (k : Peer → Account → MW A) Q w :
  well_keyed (World_Store w) → (∀ e w', Q (Err e) w') → (∀ s w', Q (Panic s) w') →
  (∀ p a a' w', World_Upd w' = World_Upd w → Accounts (World_Store w) !! id = Some a →
     Accounts (World_Store w') !! id = Some a' → Account_Peers a !! pk = Some p →
     Account_Peers a' = delete pk (Account_Peers a) →
     Network_Serial (Account_Network a') = wrap_u64 (Network_Serial (Account_Network a) + 1) →
     wp (k p a') Q w') →
  wp (peer ← Store_DeletePeer id pk;
      s ← get_store;
      account0 ← deref (Accounts s !! id);
      _ ← SaveAccount (set_Network (IncSerial (Account_Network account0)) account0);
      k peer (set_Network (IncSerial (Account_Network account0)) account0)) Q w.
Proof.
  intros Hk He Hp HQ. wp_step. eapply wp_mono; [apply Store_DeletePeer_spec|].
  intros r w1 [(-> & [m ->] & _)|(a & p & l & Ha & Hpk & Hl & Es & Eu & _ & _ & Hr)]; [by apply He|].
  destruct Hr as [->|[e ->]]; [|by apply He]. simpl.
  assert (Accounts (World_Store w1) !! id = Some (set_Groups (cleanup_groups pk [] l <$> Account_Groups a)
    (set_Peers (delete pk (Account_Peers a)) a))) as Ha1 by (rewrite Es; simpl; apply lookup_insert_eq).
  unfold get_store. wp_step. wp_step. simpl. rewrite Ha1. simpl. apply wp_bind. wp_step. simpl.
  wp_step. eapply wp_mono; [apply SaveAccount_spec|]. intros r w2 [Hs Hr].
  destruct (ex_rest _ _ _ _ _ Hs) as (Eu2 & _ & _).
  destruct r as [[]|e|s|]; simpl; [|by apply He|by apply Hp|done].
  apply (HQ p a); try done; [congruence|].
  rewrite (ex_accounts _ _ _ _ _ Hs). simpl. rewrite (Hk id a Ha). apply lookup_insert_eq.
Qed.

(** Telling everybody: the farewell to the removed peer, the new peer list
    to the others, the channel closed. *)
Lemma farewell_spec {A} (x : A) pk serial id a' w :
  upd_wf (World_Upd w) → Accounts (World_Store w) !! id = Some a' → peers_keyed a' →
  Account_Peers a' !! pk = None →
  wp (_ ← SendUpdate pk (peers_update serial []);
      peers ← GetAccountPeers id;
      _ ← for_each peers (λ p,
            SendUpdate (Peer_Key p) (peers_update serial (toRemotePeerConfig (peers_but p peers))));
      _ ← CloseChannel pk;
      mret x) (λ r w', ∀ y, r = Ok y → y = x ∧ World_Store w' = World_Store w ∧ ∃ peers,
    peers ≡ₚ (map_to_list (Account_Peers a')).*2 ∧ queues (World_Upd w') !! pk = None ∧
    (∀ q, q ∈ peers → queues (World_Upd w') !! Peer_Key q =
       (λ ms, ms ++ [peers_update serial (toRemotePeerConfig (peers_but q peers))])
         <$> queues (World_Upd w) !! Peer_Key q) ∧
    ∀ c, Upd_PeerChannels (World_Upd w) !! pk = Some c →
      ∃ buf, Upd_Chans (World_Upd w') !! c = Some (mkChan (buf ++ [peers_update serial []]) true)) w.
Proof.
  intros Hwf Ha Hpk Hnone. wp_step. eapply wp_mono; [by apply SendUpdate_spec|].
  intros r w1 (Hwf1 & Ho1 & Hpc1 & Hq1). destruct r as [[]|e|s|]; simpl; try done.
  unfold GetAccountPeers. wp_step. apply wp_bind. apply GetAccount_spec; rewrite (proj1 Ho1); [|done].
  intros a2 Ha2. assert (a2 = a') as -> by congruence. simpl. wp_step. apply wp_range.
  intros l n Hl Hperm. simpl. wp_step. wp_step.
  assert (∀ p, p ∈ l.*2 → Account_Peers a' !! Peer_Key p = Some p) as Hin.
  { intros p ([i p'] & -> & Hi%Hl)%list_elem_of_fmap. simpl. by rewrite (Hpk i p' Hi). }
  assert (Peer_Key <$> l.*2 = l.*1) as Hkeys.
  { rewrite <-list_fmap_compose. apply list_fmap_ext. intros i [k p] Hi%list_elem_of_lookup_2.
    simpl. by apply Hpk, Hl. }
  assert (NoDup (Peer_Key <$> l.*2)) as Hnd by (rewrite Hkeys, Hperm; apply NoDup_fst_map_to_list).
  assert (pk ∉ Peer_Key <$> l.*2) as Hnin.
  { intros (p & -> & Hp%Hin)%list_elem_of_fmap. congruence. }
  eapply wp_mono; [apply send_each_spec; [exact Hwf1|exact Hnd]|].
  intros r w2 (Hwf2 & Ho2 & Hpc2 & Hr). destruct r as [[]|e|s|]; simpl; try done.
  destruct Hr as [Hsent Hother]. wp_step. eapply wp_mono; [by apply CloseChannel_spec|].
  intros r w3 (-> & Hwf3 & Ho3 & _ & Hq3 & Hc). simpl. wp_step. intros y [= ->]. split; [done|].
  split; [destruct Ho1 as [? _], Ho2 as [? _], Ho3 as [? _]; simpl in *; congruence|].
  exists l.*2. split; [by rewrite Hperm|]. rewrite Hq3. split; [apply lookup_delete_eq|]. split.
  - intros q Hq. assert (Peer_Key q ≠ pk) as Hne by (intros Hx; apply Hin in Hq; congruence).
    rewrite lookup_delete_ne, (Hsent q Hq) by done. simpl. f_equal.
    destruct (queues (World_Upd w) !! pk); [case_decide|]; destruct Hq1 as [_ ->]; try done.
    by rewrite lookup_insert_ne.
  - intros c Hcpk. simpl in Hpc2. rewrite <-Hpc1, <-Hpc2 in Hcpk. destruct (Hc c Hcpk) as (b & Hb2 & Hb3).
    assert (queues (World_Upd w2) !! pk = Some b) as Hqb by (by rewrite queues_lookup, Hcpk; simpl; rewrite Hb2).
    rewrite (Hother pk Hnin) in Hqb. simpl in Hqb.
    destruct (queues (World_Upd w) !! pk) as [q|] eqn:Hqpk; [case_decide|]; destruct Hq1 as [Hr1 Hq1]; try done.
    + rewrite Hq1, lookup_insert_eq in Hqb. simplify_eq. eauto.
    + subst w1. congruence.
Qed.
End delete_peer.

(** What a removal leaves: the account without the peer and with the next
    serial, one new message in the queue of every remaining peer that has one,
    none of them naming the removed peer, and the farewell in the removed
    peer's channel, which is closed and no longer registered. *)
Definition peer_removed (id pk : string) (w w' : World) : Prop :=
  ∃ a a' peers, Accounts (World_Store w) !! id = Some a ∧ Accounts (World_Store w') !! id = Some a' ∧
    Account_Peers a' = delete pk (Account_Peers a) ∧
    Network_Serial (Account_Network a') = wrap_u64 (Network_Serial (Account_Network a) + 1) ∧
    peers ≡ₚ (map_to_list (Account_Peers a')).*2 ∧ queues (World_Upd w') !! pk = None ∧
    (∀ q, q ∈ peers → queues (World_Upd w') !! Peer_Key q =
       (λ ms, ms ++ [peers_update (Network_Serial (Account_Network a'))
                       (toRemotePeerConfig (peers_but q peers))])
         <$> queues (World_Upd w) !! Peer_Key q) ∧
    (∀ q rpc, q ∈ peers → rpc ∈ toRemotePeerConfig (peers_but q peers) → RPC_WgPubKey rpc ≠ pk) ∧
    ∀ c, Upd_PeerChannels (World_Upd w) !! pk = Some c →
      ∃ buf, Upd_Chans (World_Upd w') !! c =
        Some (mkChan (buf ++ [peers_update (Network_Serial (Account_Network a')) []]) true).

Lemma DeletePeer_spec `{Runtime} id pk w :
  well_keyed (World_Store w) → upd_wf (World_Upd w) →
  (∀ a, Accounts (World_Store w) !! id = Some a → peers_keyed a) →
  wp (DeletePeer id pk) (λ r w', ∀ p, r = Ok p → peer_removed id pk w w') w.
Proof.
  intros Hk Hwf Hpks.
  unfold DeletePeer. wp_step. wp_step. apply GetAccount_spec; [|done]. intros a0 Ha0. simpl.
  apply (remove_and_save_spec id pk (λ peer account,
    let serial := CurrentSerial (Account_Network account) in
    _ ← SendUpdate pk (peers_update serial []);
    peers ← GetAccountPeers id;
    _ ← for_each peers (λ p,
          SendUpdate (Peer_Key p) (peers_update serial (toRemotePeerConfig (peers_but p peers))));
    _ ← CloseChannel pk;
    mret peer)); [done|done|done|].
  intros p0 a a' w1 Eu Ha Ha' Hp Hdel Hser. cbv beta.
  assert (peers_keyed a') as Hpk'.
  { intros i q. rewrite Hdel. intros [_ Hq]%lookup_delete_Some. by eapply Hpks. }
  assert (Account_Peers a' !! pk = None) as Hnone by (rewrite Hdel; apply lookup_delete_eq).
  rewrite <-Eu in Hwf.
  eapply wp_mono; [apply (farewell_spec p0 pk _ id a'); done|]. intros r w2 Hr y Hy.
  destruct (Hr y Hy) as (-> & Es & peers & Hperm & Hq & Hsent & Hc). rewrite Eu in Hsent, Hc.
  exists a, a', peers. rewrite Es. do 7 (split; [done|]). split; [|done].
  intros q rpc Hqin Hrpc. unfold toRemotePeerConfig in Hrpc.
  apply list_elem_of_fmap in Hrpc as (p' & -> & Hp'). simpl.
  apply list_elem_of_filter in Hp' as [_ Hp']. rewrite Hperm in Hp'.
  apply list_elem_of_fmap in Hp' as ([i p''] & -> & Hi%elem_of_map_to_list). simpl.
  apply Hpk' in Hi as Hki. intros Heq. congruence.
Qed.

(** C38: after a successful [DeletePeer] the peer is gone and the serial has
    advanced by one; each remaining peer that is connected has received, as
    its next message, the list of all remaining peers but itself, with the new
    serial, so without the removed one; the removed peer has no channel any
    more, and the stream that held its channel finds there, after what was
    pending, an empty network map and then the end of the channel. *)
Theorem DeletePeer_notifies `{Runtime} id pk w p w' :
  well_keyed (World_Store w) → upd_wf (World_Upd w) →
  (∀ a, Accounts (World_Store w) !! id = Some a → peers_keyed a) →
  DeletePeer id pk w = (Ok p, w') → peer_removed id pk w w'.
Proof.
  intros Hk Hwf Hpks Hrun. pose proof (DeletePeer_spec id pk w Hk Hwf Hpks) as Hw.
  apply (wp_run _ _ _ _ _ Hrun) in Hw. by apply (Hw p).
Qed.

(** [p] and [q] are connected; [p] is removed. *)
Definition busy_world : World :=
  snd ((_ ← CreateChannel "p"; CreateChannel "q") acl_world).

Lemma busy_wf : upd_wf (World_Upd busy_world).
Proof.
  assert (World_Upd acl_world = mkUpd ∅ 0 ∅) as Heq by (vm_compute; reflexivity).
  assert (upd_wf (World_Upd acl_world)) as Hwf by (rewrite Heq; apply emptyUpd_wf).
  assert (wp (_ ← CreateChannel "p"; CreateChannel "q") (λ _ w', upd_wf (World_Upd w')) acl_world) as Hw.
  { wp_step. eapply wp_mono; [by apply CreateChannel_spec|]. intros r w1 (c & -> & Hwf1 & _). simpl.
    eapply wp_mono; [by apply CreateChannel_spec|]. by intros r2 w2 (c2 & _ & Hwf2 & _). }
  exact Hw.
Defined.

Lemma DeletePeer_notifies_witness :
  ∃ w' p buf, @DeletePeer demo_runtime "A" "p" busy_world = (Ok p, w') ∧
    Upd_Chans (World_Upd w') !! 0 = Some (mkChan (buf ++ [peers_update 1 []]) true).
Proof.
  pose (w' := snd (@DeletePeer demo_runtime "A" "p" busy_world)).
  assert (@DeletePeer demo_runtime "A" "p" busy_world = (Ok (demo_peer "p" 1), w')) as Hrun
    by (vm_compute; reflexivity).
  assert (Accounts (World_Store busy_world) = {["A" := acl_account]}) as Hacc by (vm_compute; reflexivity).
  assert (well_keyed (World_Store busy_world)) as Hk.
  { intros id a. rewrite Hacc. by intros [<- <-]%lookup_singleton_Some. }
  assert (∀ a, Accounts (World_Store busy_world) !! "A" = Some a → peers_keyed a) as Hpk.
  { intros a. rewrite Hacc. intros [_ <-]%lookup_singleton_Some. unfold peers_keyed.
    apply (map_get_all (λ i p, Peer_Key p = i) (Some (Account_Peers acl_account))).
    vm_compute. repeat constructor. }
  destruct (@DeletePeer_notifies demo_runtime "A" "p" busy_world _ w' Hk busy_wf Hpk Hrun)
    as (a & a' & peers & Ha & _ & _ & Hser & _ & _ & _ & _ & Hc).
  destruct (Hc 0 ltac:(vm_compute; reflexivity)) as [buf Hbuf].
  exists w', (demo_peer "p" 1), buf. split; [exact Hrun|]. rewrite Hbuf, Hser.
  rewrite Hacc in Ha. apply lookup_singleton_Some in Ha as [_ <-]. reflexivity.
Defined.
