(* ===== verification/Manager.v ===== *)
(** * Manager: the invariant of the account manager

    The operations of [DefaultAccountManager] (management/server/account.go,
    peer.go, group.go, rule.go, user.go) as the steps of one transition system
    over the store and its file, with restarts in between.  In every reachable
    state the accounts are well formed (entries under their own keys, addresses
    inside the network and pairwise distinct), no peer is in two accounts, the
    peer index leads every peer to its account, and the file holds accounts of
    which the same is true: so do all restarts. *)

From S2P Require Import Prelude GoLib Model Network SetupKey UpdateChannel FileStore Account Groups Peers.

(* ------------------------------------------------------------------ *)
(** ** Well-formed accounts *)

Definition groups_keyed (a : Account) : Prop :=
  ∀ k g, map_get (Account_Groups a) k = Some g → Group_ID g = k.

Definition users_keyed (a : Account) : Prop := ∀ u x, Account_Users a !! u = Some x → User_Id x = u.

(** The addresses of the peers are for peers, and one more is left, so that the
    next one that is allocated is not the broadcast address. *)
Definition hosts_ok (a : Account) : Prop := ∀ h, account_net (Network_Net (Account_Network a)) h →
  (∀ i p, Account_Peers a !! i = Some p → host_address (Network_Net (Account_Network a)) h (Peer_IP p)) ∧
  ∃ x, host_address (Network_Net (Account_Network a)) h x ∧ ∀ i p, Account_Peers a !! i = Some p → Peer_IP p ≠ x.

Record account_ok (a : Account) : Prop := {
  ao_peers : peers_keyed a;
  ao_keys : keys_keyed a;
  ao_groups : groups_keyed a;
  ao_rules : rules_keyed a;
  ao_users : users_keyed a;
  ao_net : ∃ h, account_net (Network_Net (Account_Network a)) h;
  ao_ips : ips_distinct a;
  ao_host : hosts_ok a }.

Record accounts_ok (accs : gmap string Account) : Prop := {
  as_keyed : ∀ id a, accs !! id = Some a → Account_Id a = id;
  as_ok : ∀ id a, accs !! id = Some a → account_ok a;
  as_apart : ∀ id1 id2 a1 a2 pk, accs !! id1 = Some a1 → accs !! id2 = Some a2 →
    is_Some (Account_Peers a1 !! pk) → is_Some (Account_Peers a2 !! pk) → id1 = id2 }.

(** The peer index leads every peer to its account. *)
Definition peers_home (s : FileStore) : Prop :=
  ∀ id a pk, Accounts s !! id = Some a → is_Some (Account_Peers a !! pk) → PeerKeyId2AccountId s !! pk = Some id.

Record manager_ok (w : World) : Prop := {
  mo_accounts : accounts_ok (Accounts (World_Store w));
  mo_home : peers_home (World_Store w);
  mo_disk : ∀ d, World_Disk w = Some d → accounts_ok d }.

(** [a] may be stored: it is well formed, and no other account has one of its
    peers. *)
Definition fits (a : Account) (accs : gmap string Account) : Prop :=
  account_ok a ∧ ∀ id b pk, accs !! id = Some b → id ≠ Account_Id a →
    is_Some (Account_Peers a !! pk) → ¬ is_Some (Account_Peers b !! pk).

Lemma fits_stored accs id a : accounts_ok accs → accs !! id = Some a → fits a accs.
Proof.
  intros Hok Ha. split; [by eapply as_ok|]. intros id2 b pk Hb Hne Hpa Hpb. apply Hne.
  rewrite (as_keyed _ Hok _ _ Ha). by eapply (as_apart _ Hok id2 id).
Qed.

Lemma fits_insert accs a : accounts_ok accs → fits a accs → accounts_ok (<[Account_Id a := a]> accs).
Proof.
  intros Hok [Ha Hap]. split.
  - intros id b [[<- <-]|[_ Hb]]%lookup_insert_Some; [done|by eapply as_keyed].
  - intros id b [[<- <-]|[_ Hb]]%lookup_insert_Some; [done|by eapply as_ok].
  - intros id1 id2 b1 b2 pk [[<- <-]|[H1 Hb1]]%lookup_insert_Some [[<- <-]|[H2 Hb2]]%lookup_insert_Some Hp1 Hp2; try done.
    + by destruct (Hap id2 b2 pk Hb2 ltac:(done) Hp1).
    + by destruct (Hap id1 b1 pk Hb1 ltac:(done) Hp2).
    + by eapply (as_apart _ Hok id1 id2 b1 b2).
Qed.

(** An account with the same identity, network and peers. *)
Lemma account_ok_edit a a' :
  Account_Peers a' = Account_Peers a → Network_Net (Account_Network a') = Network_Net (Account_Network a) →
  keys_keyed a' → groups_keyed a' → rules_keyed a' → users_keyed a' → account_ok a → account_ok a'.
Proof.
  intros Hp Hn Hk Hg Hr Hu [Ap Ak Ag Ar Au An Ai Ah].
  split; unfold peers_keyed, ips_distinct, hosts_ok in *; rewrite ?Hp, ?Hn; done.
Qed.

Lemma fits_edit accs a a' :
  Account_Id a' = Account_Id a →
  Account_Peers a' = Account_Peers a → Network_Net (Account_Network a') = Network_Net (Account_Network a) →
  keys_keyed a' → groups_keyed a' → rules_keyed a' → users_keyed a' → fits a accs → fits a' accs.
Proof.
  intros Hid Hp Hn Hk Hg Hr Hu [Ha Hap]. split; [by eapply account_ok_edit|].
  intros id b pk Hb. rewrite Hid, Hp. by apply Hap.
Qed.

Lemma map_get_map_del {A} (m : gomap A) k i x : map_get (map_del m k) i = Some x → map_get m i = Some x.
Proof.
  unfold map_get, map_del, map_of. destruct m as [m|]; simpl; [|by rewrite lookup_empty].
  by intros [_ ?]%lookup_delete_Some.
Qed.

Lemma put_group_keyed gk g a :
  groups_keyed a → is_Some (map_get (Account_Groups a) gk) → Group_ID g = gk → groups_keyed (put_group gk g a).
Proof.
  intros Hk Hs Hid k g'. rewrite put_group_get by done. case_decide as Hd; [|by apply Hk]. intros [= <-]. by subst.
Qed.

Lemma put_setup_key_keyed k a : keys_keyed a → keys_keyed (put_setup_key k a).
Proof. intros Ha i k'. simpl. intros [[<- <-]|[_ Hi]]%lookup_insert_Some; [done|by apply Ha]. Qed.

(** The changes the operations make to an account before they save it. *)
Lemma fits_put_setup_key accs k a : fits a accs → fits (put_setup_key k a) accs.
Proof. intros Hf. eapply fits_edit; [..|exact Hf]; try done; [|apply Hf..]. by apply put_setup_key_keyed, Hf. Qed.
Lemma fits_put_User accs u role a :
  fits a accs → fits (set_Users (<[u := mkUser u role]> (Account_Users a)) a) accs.
Proof.
  intros Hf. eapply fits_edit; [..|exact Hf]; try done; [apply Hf..|].
  intros i x. simpl. intros [[<- <-]|[_ Hi]]%lookup_insert_Some; [done|by apply Hf].
Qed.
Lemma fits_set_DomainAttrs accs d c p a : fits a accs → fits (set_DomainAttrs d c p a) accs.
Proof. intros Hf. eapply fits_edit; [..|exact Hf]; try done; apply Hf. Qed.
Lemma fits_set_Domain accs d a : fits a accs → fits (set_Domain d a) accs.
Proof. apply fits_set_DomainAttrs. Qed.
Lemma fits_IncSerial accs a : fits a accs → fits (set_Network (IncSerial (Account_Network a)) a) accs.
Proof. intros Hf. eapply fits_edit; [..|exact Hf]; try done; apply Hf. Qed.
Lemma fits_put_group accs gk g a :
  is_Some (map_get (Account_Groups a) gk) → Group_ID g = gk → fits a accs → fits (put_group gk g a) accs.
Proof. intros Hs Hid Hf. eapply fits_edit; [..|exact Hf]; try done; [apply Hf| |apply Hf..]. by apply put_group_keyed; [apply Hf|..]. Qed.
Lemma fits_set_Groups accs gs a :
  (∀ k g, map_get gs k = Some g → Group_ID g = k) → fits a accs → fits (set_Groups gs a) accs.
Proof. intros Hg Hf. eapply fits_edit; [..|exact Hf]; try done; apply Hf. Qed.
Lemma fits_set_Rules accs rs a :
  (∀ k r, map_get rs k = Some r → Rule_ID r = k) → fits a accs → fits (set_Rules rs a) accs.
Proof. intros Hg Hf. eapply fits_edit; [..|exact Hf]; try done; apply Hf. Qed.
Lemma fits_with_all accs gid rid keys a : fits a accs → fits (with_all gid rid keys a) accs.
Proof.
  intros Hf. apply fits_set_Rules; [|apply fits_set_Groups, Hf];
    unfold map_get, map_of; simpl; by intros k x [<- <-]%lookup_singleton_Some.
Qed.
(** An account without peers fits anywhere. *)
Lemma fits_fresh accs a :
  Account_Peers a = ∅ → Account_Groups a = None → Account_Rules a = None → keys_keyed a →
  Account_Users a = ∅ → (∃ h, account_net (Network_Net (Account_Network a)) h) → fits a accs.
Proof.
  intros Hp Hg Hr Hk Hu Hn. split.
  - split; unfold peers_keyed, groups_keyed, rules_keyed, users_keyed, ips_distinct, map_get, map_of; rewrite ?Hp, ?Hg, ?Hr, ?Hu; simpl; try done;
      [intros *; by rewrite lookup_empty..|].
    intros h [x Hx]%account_net_host. rewrite Hp. split; [intros *; by rewrite lookup_empty|]. exists x. split; [done|].
    intros *. by rewrite lookup_empty.
  - intros id b pk _ _. rewrite Hp, lookup_empty. by intros [].
Qed.

Create HintDb fits discriminated.
#[export] Hint Resolve fits_put_setup_key fits_put_User fits_set_DomainAttrs fits_set_Domain fits_IncSerial
  fits_with_all : fits.

(* ------------------------------------------------------------------ *)
(** ** Writing the store *)

(** One account changes in place, its peers stay the same or become fewer. *)
Lemma accounts_ok_alter accs id a a' :
  accounts_ok accs → accs !! id = Some a → account_ok a' → Account_Id a' = id →
  (∀ pk, is_Some (Account_Peers a' !! pk) → is_Some (Account_Peers a !! pk)) →
  accounts_ok (<[id := a']> accs).
Proof.
  intros Hok Ha Ha' Hid Hsub. rewrite <-Hid at 1. apply fits_insert; [done|]. split; [done|].
  intros id2 b pk Hb Hne Hp. eapply (fits_stored accs id a); try done; [|by apply Hsub].
  by rewrite (as_keyed _ Hok _ _ Ha), <-Hid.
Qed.

Lemma manager_ok_alter id a a' idx w w' :
  manager_ok w → Accounts (World_Store w) !! id = Some a → account_ok a' → Account_Id a' = id →
  (∀ pk, is_Some (Account_Peers a' !! pk) → is_Some (Account_Peers a !! pk)) →
  (∀ id2 b pk, <[id := a']> (Accounts (World_Store w)) !! id2 = Some b → is_Some (Account_Peers b !! pk) →
     idx !! pk = PeerKeyId2AccountId (World_Store w) !! pk) →
  World_Store w' = set_PeerIdx idx (set_Accounts (<[id := a']> (Accounts (World_Store w))) (World_Store w)) →
  World_Disk w' = World_Disk w ∨ World_Disk w' = Some (Accounts (World_Store w')) →
  manager_ok w'.
Proof.
  intros [Hacc Hhome Hdisk] Ha Ha' Hid Hsub Hidx Hst Hd.
  assert (accounts_ok (Accounts (World_Store w'))) as Hacc' by (rewrite Hst; by eapply accounts_ok_alter).
  split; [done| |].
  - intros id2 b pk. rewrite Hst. simpl. intros Hb Hpk. rewrite (Hidx id2 b pk Hb Hpk).
    apply lookup_insert_Some in Hb as [[<- <-]|[_ Hb]]; [|by eapply Hhome]. eapply Hhome; [done|by apply Hsub].
  - intros d. destruct Hd as [->| ->]; [apply Hdisk|]. by intros [= <-].
Qed.

Section saving.
Context `{Runtime}.

(** Peers are indexed before the rules, so also when a dangling rule panics. *)
Lemma SaveAccount_indexes_peers a w :
  wp (SaveAccount a) (λ _ w', ∀ k p, Account_Peers a !! k = Some p →
    PeerKeyId2AccountId (World_Store w') !! Peer_Key p = Some (Account_Id a)) w.
Proof.
  assert (wp (SaveAccount a) (λ r w', ∀ s, r = Panic s → ∀ k p, Account_Peers a !! k = Some p →
    PeerKeyId2AccountId (World_Store w') !! Peer_Key p = Some (Account_Id a)) w) as Hpanic.
  { unfold SaveAccount. wp_step. apply wp_modify. simpl. wp_step. apply wp_range. intros ku nk Hku _. simpl.
    wp_step. unfold wp at 1. rewrite index_setup_keys_run. simpl.
    wp_step. apply wp_range. intros pu np Hpu _. simpl. wp_step. unfold wp at 1. rewrite index_peers_run. simpl.
    wp_step. apply wp_range. intros rules nr Hrules _. simpl. wp_step.
    eapply wp_mono; [by apply index_rules_spec|]. intros r w4 [Hix Hr].
    destruct Hix as [_ (src & dst & Hst) _ _ _ _ _]. destruct r as [[]|e|s|]; try done; simpl.
    - wp_step. apply wp_range. intros uu nu _ _. simpl. wp_step. unfold wp at 1. rewrite index_users_run. simpl.
      wp_step. unfold modify_store. apply wp_when; intros _; simpl; [apply wp_modify; simpl|];
        (eapply wp_mono; [apply persist_spec|]); intros r w5 (_ & _ & _ & _ & Hr5) s ->; done.
    - intros s' _ k p Hkp. rewrite Hst. simpl. by apply (fill_index_in (λ kv, Peer_Key kv.2) _ _ _ (k, p)), Hpu. }
  eapply wp_mono; [apply wp_and; [exact Hpanic|apply SaveAccount_spec]|].
  intros r w' [Hp [Hs Hr]] k p Hkp. destruct r as [[]|e|s|].
  - by apply (cv_peers _ _ _ (proj1 (proj2 Hr)) k p).
  - by apply (cv_peers _ _ _ (proj1 (proj2 Hr)) k p).
  - by eapply Hp.
  - done.
Qed.

Lemma SaveAccount_keeps a w :
  manager_ok w → fits a (Accounts (World_Store w)) →
  wp (SaveAccount a) (λ _ w', manager_ok w' ∧
    Accounts (World_Store w') = <[Account_Id a := a]> (Accounts (World_Store w))) w.
Proof.
  intros [Hacc Hhome Hdisk] Hf.
  eapply wp_mono; [apply wp_and; [apply SaveAccount_spec|apply SaveAccount_indexes_peers]|].
  intros r w' [[Hs Hr] Hix]. pose proof (ex_accounts _ _ _ _ _ Hs) as Ea. split; [|done].
  assert (accounts_ok (Accounts (World_Store w'))) as Hacc' by (rewrite Ea; by apply fits_insert).
  split; [done| |].
  - intros id b pk. rewrite Ea. intros [[<- <-]|[Hne Hb]]%lookup_insert_Some [p Hp].
    + rewrite <-(ao_peers _ (proj1 Hf) _ _ Hp). by eapply Hix.
    + destruct (ex_peers _ _ _ _ _ Hs pk) as [->|(_ & i & q & Hi & Hk)]; [by eapply Hhome|].
      destruct (proj2 Hf id b pk Hb ltac:(done)); [|by eexists].
      rewrite Hk, (ao_peers _ (proj1 Hf) _ _ Hi). by eexists.
  - intros d. assert (World_Disk w' = Some (Accounts (World_Store w')) ∨ World_Disk w' = World_Disk w) as Hd.
    { destruct r as [[]|e|s|]; [left; apply Hr|right; apply Hr..|done]. }
    destruct Hd as [->| ->]; [by intros [= <-]|apply Hdisk].
Qed.

Lemma manager_ok_same w w' : same_state w w' → manager_ok w → manager_ok w'.
Proof. intros (Es & Ed & _) [H1 H2 H3]. split; rewrite ?Es, ?Ed; done. Qed.

Lemma manager_ok_tick n w : manager_ok w → manager_ok (set_Tick n w).
Proof. by apply manager_ok_same. Qed.

(** Where the account of an operation comes from. *)
Lemma keep_account {A} id (k : Account → MW A) w :
  manager_ok w →
  (∀ a, Accounts (World_Store w) !! id = Some a → Account_Id a = id → fits a (Accounts (World_Store w)) →
     wp (k a) (λ _ w', manager_ok w') w) →
  wp (account ← GetAccount id or_err errAccountNotFound; k account) (λ _ w', manager_ok w') w.
Proof.
  intros Hw Hk. apply with_account_spec; [|done]. intros a Ha.
  apply Hk; [done|by eapply as_keyed, Ha; apply Hw|eapply fits_stored, Ha; apply Hw].
Qed.

(** Saving as the last or an intermediate step. *)
Lemma keep_save a w :
  manager_ok w → fits a (Accounts (World_Store w)) → wp (SaveAccount a) (λ _ w', manager_ok w') w.
Proof. intros Hw Hf. eapply wp_mono; [by apply SaveAccount_keeps|]. by intros r w' [? _]. Qed.

Lemma keep_save_then {A} a f (k : unit → MW A) w :
  manager_ok w → fits a (Accounts (World_Store w)) →
  (∀ w', manager_ok w' → Accounts (World_Store w') = <[Account_Id a := a]> (Accounts (World_Store w)) →
     wp (k tt) (λ _ w', manager_ok w') w') →
  wp (x ← map_err f (SaveAccount a); k x) (λ _ w', manager_ok w') w.
Proof.
  intros Hw Hf Hk. wp_step. wp_step. eapply wp_mono; [by apply SaveAccount_keeps|].
  intros [[]|e|s|] w' [Hw' Ea]; simpl; try done. by apply Hk.
Qed.
End saving.

(** Run an operation from a state of the invariant: steps of the runtime change
    neither store nor file, the rest by the lemmas above. *)
Ltac kept := repeat apply manager_ok_tick; assumption.
Ltac keep_step :=
  first
    [ kept
    | lazymatch goal with
      | |- wp (mbind _ (map_err _ (GetAccount _))) _ _ => apply keep_account; [kept|intros ? ? ? ?]
      | |- wp (mbind _ (map_err _ (SaveAccount _))) _ _ => apply keep_save_then; [kept|simpl; by eauto with fits|intros ? ? ?]
      | |- wp (SaveAccount _) _ _ => apply keep_save; [kept|simpl; by eauto with fits]
      | |- _ => rt_step
      end ].
Ltac keep := repeat keep_step; try done.

Section operations.
Context `{Runtime}.
Implicit Types w : World.

Lemma AddSetupKey_keeps id name t e w : manager_ok w → wp (AddSetupKey id name t e) (λ _ w', manager_ok w') w.
Proof. intros Hw. unfold AddSetupKey, GenerateSetupKey. keep. Qed.

(** A copy of a key of the account is put back under its own key. *)
Lemma RevokeSetupKey_keeps id k w : manager_ok w → wp (RevokeSetupKey id k) (λ _ w', manager_ok w') w.
Proof. intros Hw. unfold RevokeSetupKey, getAccountSetupKeyById. keep. Qed.
Lemma RenameSetupKey_keeps id k n w : manager_ok w → wp (RenameSetupKey id k n) (λ _ w', manager_ok w') w.
Proof. intros Hw. unfold RenameSetupKey, getAccountSetupKeyById. keep. Qed.
End operations.

(** What [iplib] documents: the subnets it cuts out of 100.64.0.0/10 are
    networks of 16 bits, each with its first address. *)
Definition subnets_ok `{Runtime} : Prop :=
  ∀ n, n ∈ rt_subnets [100; 64; 0; 0]%Z 10 16 → account_net n 16.

Section accounts.
Context `{Runtime} (Hnets : subnets_ok).
Implicit Types w : World.

(** A new account fits anywhere: it has no peers yet. *)
Lemma newAccountWithId_fits id u d w accs :
  wp (newAccountWithId id u d) (λ r w', same_state w w' ∧
    ∀ a, r = Ok a → new_account id u d a ∧ fits a accs) w.
Proof using Hnets.
  assert (wp (newAccountWithId id u d) (λ r _, ∀ a, r = Ok a →
    keys_keyed a ∧ Network_Net (Account_Network a) ∈ rt_subnets [100; 64; 0; 0]%Z 10 16) w) as Hw.
  { unfold newAccountWithId. wp_step. unfold GenerateDefaultSetupKey, GenerateSetupKey. rt_go.
    eapply wp_mono; [apply NewNetwork_run|]. intros [net|e|s|] w' [_ Hn]; simpl; try done.
    wp_step. intros a [= <-]. split; [|apply Hn]. intros i k. simpl.
    by intros [[<- <-]|[_ [<- <-]%lookup_singleton_Some]]%lookup_insert_Some. }
  eapply wp_mono; [apply wp_and; [apply newAccountWithId_spec|exact Hw]|].
  intros r w' [[Hs Hr] Hk]. split; [done|]. intros a ->. split; [done|].
  destruct (Hk a eq_refl) as [Hkeys Hn]. destruct (na_empty _ _ _ _ Hr) as (Hp & Hus & Hg & Hru).
  apply fits_fresh; try done. exists 16%Z. by apply Hnets.
Qed.

Lemma NewAccount_fits u d w accs :
  wp (NewAccount u d) (λ r w', same_state w w' ∧
    ∀ a, r = Ok a → (∃ id, new_account id u d a) ∧ fits a accs) w.
Proof using Hnets.
  unfold NewAccount. wp_step. apply wp_xid_New. intros x n. simpl.
  eapply wp_mono; [apply (newAccountWithId_fits _ _ _ _ accs)|]. intros r w' [Hs Hr]. split; [done|].
  intros a Ha. destruct (Hr a Ha) as [? ?]. split; [by eexists|done].
Qed.

Lemma addAllGroup_fits a w accs :
  fits a accs →
  wp (addAllGroup a) (λ r w', same_state w w' ∧
    ∃ a', r = Ok a' ∧ fits a' accs ∧ Account_Id a' = Account_Id a ∧ Account_Domain a' = Account_Domain a) w.
Proof.
  intros Hf. eapply wp_mono; [apply addAllGroup_spec|]. intros r w' [Hs Hr]. split; [done|].
  destruct Hr as [[_ ->]|[_ (gid & rid & keys & -> & _)]]; [by exists a|].
  eexists. split; [done|]. split; [by apply fits_with_all|done].
Qed.

(** A step that changes neither store nor file, and what is known after it. *)
Lemma keep_then {A B} (m : MW A) (R : A → Prop) (k : A → MW B) w :
  manager_ok w → wp m (λ r w', same_state w w' ∧ ∀ a, r = Ok a → R a) w →
  (∀ a w', manager_ok w' → Accounts (World_Store w') = Accounts (World_Store w) → R a →
     wp (k a) (λ _ w', manager_ok w') w') →
  wp (x ← m; k x) (λ _ w', manager_ok w') w.
Proof.
  intros Hw Hm Hk. wp_step. eapply wp_mono; [exact Hm|]. intros r w' [Hs HR].
  assert (manager_ok w') as Hw' by (by eapply manager_ok_same). destruct r as [a|e|s|]; simpl; try done.
  apply Hk; [done|by rewrite (same_state_store _ _ Hs)|by apply HR].
Qed.

Lemma createAccount_keeps id u d w : manager_ok w → wp (createAccount id u d) (λ _ w', manager_ok w') w.
Proof using Hnets.
  intros Hw. unfold createAccount.
  eapply keep_then; [done|apply (newAccountWithId_fits _ _ _ _ (Accounts (World_Store w)))|].
  intros a w1 Hw1 E1 [_ Hf]. rewrite <-E1 in Hf.
  eapply (keep_then _ (λ a', fits a' (Accounts (World_Store w1)))); [done| |].
  { eapply wp_mono; [by apply addAllGroup_fits|]. intros r w' (Hs & a' & -> & Hf' & _). split; [done|]. by intros ? [= <-]. }
  intros a' w2 Hw2 E2 Hf'. rewrite <-E2 in Hf'. keep.
Qed.

Lemma BuildManager_keeps w : manager_ok w → wp BuildManager (λ _ w', manager_ok w') w.
Proof.
  intros Hw. unfold BuildManager, GetAllAccounts, get_store. wp_step. wp_step. wp_step. simpl. wp_step.
  apply wp_range. intros l n Hl Hperm. simpl. wp_step. simpl.
  assert (Account_Id <$> l.*2 = l.*1) as Hids.
  { rewrite <-list_fmap_compose. apply list_fmap_ext. intros i [k a] Hi%list_elem_of_lookup_2. simpl.
    eapply as_keyed; [apply Hw|by apply Hl]. }
  apply (wp_for_each (λ rem w', manager_ok w' ∧ NoDup (Account_Id <$> rem) ∧
    ∀ a, a ∈ rem → Accounts (World_Store w') !! Account_Id a = Some a)).
  - split; [by apply manager_ok_tick|]. split; [rewrite Hids, Hperm; apply NoDup_fst_map_to_list|].
    intros a ([k a'] & -> & Hk%Hl)%list_elem_of_fmap. simpl.
    by rewrite (as_keyed _ (mo_accounts _ Hw) _ _ Hk).
  - intros a rem w1 (Hw1 & [Hnin Hnd]%NoDup_cons & Hin) _. wp_step.
    assert (fits a (Accounts (World_Store w1))) as Hf by (eapply fits_stored; [apply Hw1|apply Hin; by left]).
    eapply wp_mono; [by apply addAllGroup_fits|]. intros r w2 (Hs & a' & -> & Hf' & Hid & _). simpl.
    rewrite <-(same_state_store _ _ Hs) in Hf'.
    eapply wp_mono; [apply SaveAccount_keeps; [by eapply manager_ok_same|exact Hf']|].
    intros [[]|e|s|] w3 [Hw3 E3]; simpl; try done. split; [done|]. split; [done|].
    intros b Hb. rewrite E3, Hid, (same_state_store _ _ Hs). rewrite lookup_insert_ne; [apply Hin; by right|].
    intros E. apply Hnin. rewrite E. by apply list_elem_of_fmap_2.
  - by intros w' [? _].
Qed.

(** What the operations that return an account leave: the invariant, and an
    account that may be saved again. *)
Definition gives_account (r : Res Account) (w : World) : Prop :=
  manager_ok w ∧ ∀ a, r = Ok a → fits a (Accounts (World_Store w)).

Lemma gives_bind {A} (m : MW Account) (k : Account → MW A) (Q : Res A → World → Prop) w :
  wp m gives_account w → (∀ a w', manager_ok w' → fits a (Accounts (World_Store w')) → wp (k a) Q w') →
  (∀ r w', manager_ok w' → (∀ a, r ≠ Ok a) → Q r w') →
  wp (m ≫= k) Q w.
Proof.
  intros Hm Hk HQ. wp_step. eapply wp_mono; [exact Hm|]. intros [a|e|s|] w' [Hw' Hr]; simpl; try by apply HQ.
  apply Hk; [done|by apply Hr].
Qed.

Lemma gives_fail r w : manager_ok w → (∀ a, r ≠ Ok a) → gives_account r w.
Proof. intros Hw Hr. split; [done|]. intros a ->. by destruct (Hr a). Qed.

Lemma gives_ret a w : manager_ok w → fits a (Accounts (World_Store w)) → gives_account (Ok a) w.
Proof. intros Hw Hf. split; [done|]. by intros ? [= <-]. Qed.

Lemma save_gives e a w :
  manager_ok w → fits a (Accounts (World_Store w)) → wp (_ ← SaveAccount a or_err e; mret a) gives_account w.
Proof.
  intros Hw Hf. wp_step. wp_step. eapply wp_mono; [by apply SaveAccount_keeps|].
  intros [[]|e'|s|] w' [Hw' Ea]; simpl; try (by apply gives_fail). wp_step. apply gives_ret; [done|].
  eapply fits_stored; [apply Hw'|]. rewrite Ea. apply lookup_insert_eq.
Qed.

Lemma updateIDPMetadata_keeps {A} u id (k : unit → MW A) (Q : Res A → World → Prop) w :
  manager_ok w →
  (∀ w', manager_ok w' → Accounts (World_Store w') = Accounts (World_Store w) → wp (k tt) Q w') →
  (∀ e w', manager_ok w' → Q (Err e) w') →
  wp (x ← updateIDPMetadata u id; k x) Q w.
Proof.
  intros Hw Hk He. wp_step. eapply wp_mono; [apply updateIDPMetadata_spec|]. intros r w' (Es & Ed & Hr).
  assert (manager_ok w') as Hw' by (destruct Hw; split; rewrite ?Es, ?Ed; done).
  destruct r as [[]|e|s|]; simpl; try done; [|by apply He]. apply Hk; [done|by rewrite Es].
Qed.

Lemma known_account_gives (m : MW Account) w :
  manager_ok w → wp m (λ r w', w' = w ∧ ∀ a, r = Ok a → ∃ id, Accounts (World_Store w) !! id = Some a) w → wp m gives_account w.
Proof.
  intros Hw Hm. eapply wp_mono; [exact Hm|]. intros r w' [-> Hr]. split; [done|]. intros a Ha.
  destruct (Hr a Ha) as [id Hid]. eapply fits_stored; [apply Hw|done].
Qed.

Lemma GetUserAccount_gives u w : manager_ok w → wp (GetUserAccount u) gives_account w.
Proof. intros Hw. apply known_account_gives; [done|]. apply GetUserAccount_spec; [|done]. intros id a _ Ha. split; [done|]. intros ? [= <-]. by exists id. Qed.
Lemma GetAccountByPrivateDomain_gives d w : manager_ok w → wp (GetAccountByPrivateDomain d) gives_account w.
Proof.
  intros Hw. apply known_account_gives; [done|]. apply domain_lookup; [|done]. intros a Ha%via_index_stored.
  split; [done|]. by intros ? [= <-].
Qed.
Lemma GetAccountById_gives id w : manager_ok w → wp (GetAccountById id) gives_account w.
Proof.
  intros Hw. apply known_account_gives; [done|]. unfold GetAccountById. wp_step. apply GetAccount_spec; [|done].
  intros a Ha. split; [done|]. intros ? [= <-]. by exists id.
Qed.

(** [account, err := m()], the error inspected. *)
Lemma try_gives {A} (m : MW Account) (k : error + Account → MW A) (Q : Res A → World → Prop) w :
  wp m gives_account w →
  (∀ r w', manager_ok w' → (∀ a, r = inr a → fits a (Accounts (World_Store w'))) → wp (k r) Q w') →
  (∀ r w', manager_ok w' → (∀ a, r ≠ Ok a) → Q r w') →
  wp (r ← try m; k r) Q w.
Proof.
  intros Hm Hk HQ. wp_step. wp_step. eapply wp_mono; [exact Hm|]. intros [a|e|s|] w' [Hw' Hr]; simpl; try by apply HQ.
  - apply Hk; [done|]. intros ? [= <-]. by apply Hr.
  - by apply Hk.
Qed.

Lemma GetOrCreateAccountByUser_gives u d w : manager_ok w → wp (GetOrCreateAccountByUser u d) gives_account w.
Proof using Hnets.
  intros Hw. unfold GetOrCreateAccountByUser.
  apply try_gives; [by apply GetUserAccount_gives| |by intros; apply gives_fail]. intros r w1 Hw1 Hr.
  apply gives_bind; [| |by intros; apply gives_fail].
  2:{ intros a w2 Hw2 Hf. case_decide; [|by apply wp_ret, gives_ret]. apply save_gives; [done|by apply fits_set_Domain]. }
  destruct r as [e|a]; [|apply wp_ret, gives_ret; [done|by apply Hr]].
  case_decide; [|by apply wp_fail, gives_fail]. wp_step.
  eapply wp_mono; [apply (NewAccount_fits _ _ _ (Accounts (World_Store w1)))|]. intros r w2 [Hs HR].
  assert (manager_ok w2) as Hw2 by (by eapply manager_ok_same). destruct r as [a|e'|s|]; simpl; try by apply gives_fail.
  destruct (HR a eq_refl) as [_ Hf]. wp_step. eapply wp_mono; [by apply addAllGroup_fits, fits_put_User|].
  intros r w3 (Hs3 & a' & -> & Hf' & _). simpl. apply save_gives; [by eapply manager_ok_same|].
  by rewrite (same_state_store _ _ Hs3), (same_state_store _ _ Hs).
Qed.
End accounts.

Section claims.
Context `{Runtime} (Hnets : subnets_ok).
Implicit Types w : World.

Lemma tell_gives u id a w :
  manager_ok w → fits a (Accounts (World_Store w)) → wp (_ ← updateIDPMetadata u id; mret a) gives_account w.
Proof.
  intros Hw Hf. apply updateIDPMetadata_keeps; [done| |by intros; apply gives_fail].
  intros w' Hw' E. apply wp_ret, gives_ret; [done|]. by rewrite E.
Qed.

Lemma GetAccountByUserOrAccountId_gives u id d w : manager_ok w → wp (GetAccountByUserOrAccountId u id d) gives_account w.
Proof using Hnets.
  intros Hw. unfold GetAccountByUserOrAccountId. case_decide; [by apply GetAccountById_gives|].
  case_decide; [|by apply wp_fail, gives_fail].
  apply gives_bind; [|by intros; apply tell_gives|by intros; apply gives_fail].
  wp_step. eapply wp_mono; [by apply GetOrCreateAccountByUser_gives|].
  intros [a|e|s|] w' [Hw' Hr]; try (by apply gives_fail). apply gives_ret; [done|by apply Hr].
Qed.

Lemma updateAccountDomainAttributes_gives a c p w :
  manager_ok w → fits a (Accounts (World_Store w)) → wp (updateAccountDomainAttributes a c p) gives_account w.
Proof. intros Hw Hf. apply save_gives; [done|by apply fits_set_DomainAttrs]. Qed.

Lemma handleExistingUserAccount_gives a dom c w :
  manager_ok w → fits a (Accounts (World_Store w)) → wp (handleExistingUserAccount a dom c) gives_account w.
Proof.
  intros Hw Hf. unfold handleExistingUserAccount.
  apply gives_bind; [|by intros; apply tell_gives|by intros; apply gives_fail].
  destruct dom; [case_decide|]; by apply updateAccountDomainAttributes_gives.
Qed.

Lemma handleNewUserAccount_gives dom c w :
  manager_ok w → (∀ d, dom = Some d → fits d (Accounts (World_Store w))) → wp (handleNewUserAccount dom c) gives_account w.
Proof using Hnets.
  intros Hw Hd. unfold handleNewUserAccount.
  apply gives_bind; [|by intros; apply tell_gives|by intros; apply gives_fail].
  destruct dom as [d|]; [by apply save_gives, fits_put_User, Hd|].
  wp_step. eapply wp_mono; [apply (NewAccount_fits Hnets _ _ _ (Accounts (World_Store w)))|]. intros r w2 [Hs HR].
  assert (manager_ok w2) as Hw2 by (by eapply manager_ok_same). destruct r as [a|e'|s|]; simpl; try by apply gives_fail.
  destruct (HR a eq_refl) as [_ Hf]. apply updateAccountDomainAttributes_gives; [done|].
  apply fits_put_User. by rewrite (same_state_store _ _ Hs).
Qed.

Lemma claims_rest_gives c w :
  manager_ok w →
  wp (d ← try (GetAccountByPrivateDomain (Claims_Domain c));
      domainAccount ←
        match d with
        | inr a => mret (Some a)
        | inl err => if decide ((from_error (Some err)).1 = NotFound) then mret None else fail err
        end;
      r ← try (GetUserAccount (Claims_UserId c));
      match r with
      | inr account => handleExistingUserAccount account domainAccount c
      | inl err => if decide (from_error (Some err) = (NotFound, true))
                   then handleNewUserAccount domainAccount c else fail err
      end) gives_account w.
Proof using Hnets.
  intros Hw. apply (try_gives _ _ gives_account); [by apply GetAccountByPrivateDomain_gives| |by intros; apply gives_fail].
  intros d w1 Hw1 Hd.
  assert (∀ dom, (∀ a, dom = Some a → fits a (Accounts (World_Store w1))) →
    wp (r ← try (GetUserAccount (Claims_UserId c));
        match r with
        | inr account => handleExistingUserAccount account dom c
        | inl err => if decide (from_error (Some err) = (NotFound, true))
                     then handleNewUserAccount dom c else fail err
        end) gives_account w1) as Huser.
  { intros dom Hdom. wp_step. wp_step. apply GetUserAccount_spec; simpl.
    - intros id a _ Ha. apply handleExistingUserAccount_gives; [done|]. eapply fits_stored; [apply Hw1|done].
    - intros _. by apply handleNewUserAccount_gives. }
  destruct d as [e|a]; [case_decide|]; wp_step; wp_step.
  - by apply Huser.
  - by apply gives_fail.
  - apply Huser. intros ? [= <-]. by apply Hd.
Qed.

Lemma GetAccountWithAuthorizationClaims_gives c w :
  manager_ok w → wp (GetAccountWithAuthorizationClaims c) gives_account w.
Proof using Hnets.
  intros Hw. unfold GetAccountWithAuthorizationClaims. case_decide; [by apply GetAccountByUserOrAccountId_gives|].
  unfold accountFromClaims. case_decide; [|wp_step; wp_step; by apply claims_rest_gives].
  wp_step. apply gives_bind; [by apply GetAccountById_gives| |].
  2:{ intros [o|e|s|] w' Hw' Hr; simpl; try (by apply gives_fail). by destruct (Hr o). }
  intros a w1 Hw1 Hf. wp_step. wp_step; simpl; [|by apply gives_fail].
  case_decide; wp_step; [by apply wp_ret, gives_ret|by apply claims_rest_gives].
Qed.

(** Asking leaves the state as it is or as a login leaves it. *)
Lemma IsUserAdmin_keeps c w : manager_ok w → wp (IsUserAdmin c) (λ _ w', manager_ok w') w.
Proof using Hnets.
  intros Hw. unfold IsUserAdmin. wp_step. wp_step. eapply wp_mono; [by apply GetAccountWithAuthorizationClaims_gives|].
  intros [a|e|s|] w' [Hw' _]; simpl; try done. keep.
Qed.

Lemma GetUsersFromAccount_keeps id w : manager_ok w → wp (GetUsersFromAccount id) (λ _ w', manager_ok w') w.
Proof.
  intros Hw. unfold GetUsersFromAccount. apply gives_bind; [by apply GetAccountById_gives| |done]. intros a w1 Hw1 _.
  wp_step. destruct rt_idp as [m|]; [|keep]. unfold tick. wp_step. unfold wp at 1. simpl.
  destruct (GetBatchedUserData m _ id); wp_step; [by apply manager_ok_tick|]. case_decide; keep.
Qed.

Lemma AccountExists_keeps id w : manager_ok w → wp (AccountExists id) (λ _ w', manager_ok w') w.
Proof. intros Hw. unfold AccountExists. wp_step. wp_step. apply GetAccount_spec; simpl; intros; keep. Qed.
End claims.

Section groups_rules.
Context `{Runtime}.
Implicit Types w : World.

Lemma map_set_keyed {A} (f : A → string) (m : gomap A) k v (k' : gomap A → MW unit) w :
  manager_ok w → (∀ i x, map_get m i = Some x → f x = i) → f v = k →
  (∀ m', (∀ i x, map_get m' i = Some x → f x = i) → wp (k' m') (λ _ w', manager_ok w') w) →
  wp (m' ← map_set m k v; k' m') (λ _ w', manager_ok w') w.
Proof.
  intros Hw Hm Hv Hk. unfold map_set. destruct m as [m|]; wp_step; wp_step; [|done]. apply Hk.
  intros i x. unfold map_get, map_of. simpl. intros [[<- <-]|[_ Hi]]%lookup_insert_Some; [done|by apply Hm].
Qed.

Lemma SaveGroup_keeps id g w : manager_ok w → wp (SaveGroup id g) (λ _ w', manager_ok w') w.
Proof.
  intros Hw. unfold SaveGroup. apply keep_account; [done|]. intros a Ha Hid Hf.
  apply (map_set_keyed Group_ID); [done|apply Hf|done|]. intros m' Hm'. apply keep_save; [done|by apply fits_set_Groups].
Qed.
Lemma DeleteGroup_keeps id g w : manager_ok w → wp (DeleteGroup id g) (λ _ w', manager_ok w') w.
Proof.
  intros Hw. unfold DeleteGroup. apply keep_account; [done|]. intros a Ha Hid Hf.
  apply keep_save; [done|]. apply fits_set_Groups; [|done]. intros k x Hk%map_get_map_del. by apply Hf.
Qed.
Lemma GroupAddPeer_keeps id g pk w : manager_ok w → wp (GroupAddPeer id g pk) (λ _ w', manager_ok w') w.
Proof.
  intros Hw. unfold GroupAddPeer. apply keep_account; [done|]. intros a Ha Hid Hf.
  wp_step. wp_step; [|done]. apply keep_save; [done|]. case_decide; [done|].
  apply fits_put_group; [by eexists| |done]. simpl. by apply Hf.
Qed.
Lemma GroupDeletePeer_keeps id g pk w : manager_ok w → wp (GroupDeletePeer id g pk) (λ _ w', manager_ok w') w.
Proof.
  intros Hw. unfold GroupDeletePeer. apply keep_account; [done|]. intros a Ha Hid Hf.
  wp_step. wp_step; [|done]. destruct (remove_first _ _); [|by wp_step]. apply keep_save; [done|].
  apply fits_put_group; [by eexists| |done]. simpl. by apply Hf.
Qed.
Lemma SaveRule_keeps id r w : manager_ok w → wp (SaveRule id r) (λ _ w', manager_ok w') w.
Proof.
  intros Hw. unfold SaveRule. apply keep_account; [done|]. intros a Ha Hid Hf.
  apply (map_set_keyed Rule_ID); [done|apply Hf|done|]. intros m' Hm'. apply keep_save; [done|by apply fits_set_Rules].
Qed.
Lemma DeleteRule_keeps id r w : manager_ok w → wp (DeleteRule id r) (λ _ w', manager_ok w') w.
Proof.
  intros Hw. unfold DeleteRule. apply keep_account; [done|]. intros a Ha Hid Hf.
  apply keep_save; [done|]. apply fits_set_Rules; [|done]. intros k x Hk%map_get_map_del. by apply Hf.
Qed.
End groups_rules.

(** A peer whose entry is replaced by one with the same key and address. *)
Lemma account_ok_replace_peer a a' p q :
  account_ok a → Account_Peers a !! Peer_Key p = Some q → Peer_IP p = Peer_IP q →
  Account_Peers a' = <[Peer_Key p := p]> (Account_Peers a) →
  Network_Net (Account_Network a') = Network_Net (Account_Network a) →
  Account_SetupKeys a' = Account_SetupKeys a → Account_Rules a' = Account_Rules a → Account_Users a' = Account_Users a →
  groups_keyed a' → account_ok a'.
Proof.
  intros [Ap Ak Ag Ar Au An Ai Ah] Hq Hip Hp Hn Hk Hr Hu Hg.
  assert (∀ i x, Account_Peers a' !! i = Some x → ∃ y, Account_Peers a !! i = Some y ∧ Peer_IP x = Peer_IP y) as Hold.
  { intros i x. rewrite Hp. intros [[<- <-]|[_ Hi]]%lookup_insert_Some; eauto. }
  split; unfold keys_keyed, rules_keyed, users_keyed, hosts_ok; rewrite ?Hk, ?Hr, ?Hn, ?Hu; try done.
  - intros i x. rewrite Hp. intros [[<- <-]|[_ Hi]]%lookup_insert_Some; [done|by apply Ap].
  - intros i j x y (x' & Hx & Ex)%Hold (y' & Hy & Ey)%Hold Hxy. eapply Ai; [done|done|]. congruence.
  - intros h Hh. destruct (Ah h Hh) as [Hhost (y & Hy & Hfree)]. split; [intros i x (x' & Hx & ->)%Hold; by eapply Hhost|].
    exists y. split; [done|]. intros i x (x' & Hx & ->)%Hold. by eapply Hfree.
Qed.

Section peers.
Context `{Runtime}.
Implicit Types w : World.

(** The peer of the account under its key has the address of [p]. *)
Definition peer_fits (id : string) (p : Peer) (accs : gmap string Account) : Prop :=
  ∃ a q, accs !! id = Some a ∧ Account_Peers a !! Peer_Key p = Some q ∧ Peer_IP p = Peer_IP q.

Lemma SavePeer_disk id p w :
  wp (SavePeer id p) (λ _ w', World_Disk w' = World_Disk w ∨ World_Disk w' = Some (Accounts (World_Store w'))) w.
Proof.
  unfold SavePeer. wp_step. apply GetAccount_spec; [|by left]. intros a Ha. simpl.
  wp_step. eapply wp_mono; [apply GetGroupAll_spec|].
  intros [[gk g]|e|s|] w1 [(Es&Ed&_) Hg]; simpl in *; try done; [|by left].
  wp_step. apply wp_when; intros _; simpl; [apply wp_modify; simpl|]; wp_step; apply wp_modify; simpl;
    (eapply wp_mono; [apply persist_spec|]); intros r w2 (Es2 & _ & _ & _ & Hr2); simpl in *;
    (destruct r as [[]|e|s|]; [right; by rewrite Es2|left; congruence|done|done]).
Qed.

Lemma SavePeer_keeps id p w :
  manager_ok w → peer_fits id p (Accounts (World_Store w)) → wp (SavePeer id p) (λ _ w', manager_ok w') w.
Proof.
  intros Hw (a & q & Ha & Hq & Hip). eapply wp_mono; [apply wp_and; [apply SavePeer_spec|apply SavePeer_disk]|].
  intros r w' [[[Hs _]|(a1 & gk & g & Ha1 & Hg & _ & Es & _)] Hd]; [by eapply manager_ok_same|].
  assert (a1 = a) as -> by congruence. pose proof (as_ok _ (mo_accounts _ Hw) _ _ Ha) as Hok.
  assert (Account_Peers (with_peer gk g p a) = <[Peer_Key p := p]> (Account_Peers a)) as Hps by done.
  eapply (manager_ok_alter id a (with_peer gk g p a) (PeerKeyId2AccountId (World_Store w)) w); try done.
  - eapply (account_ok_replace_peer a _ p q); try done; unfold with_peer; case_decide; try done; simpl.
    + apply Hok.
    + apply (put_group_keyed gk _ a); [apply Hok|by eexists|]. simpl. by apply (ao_groups _ Hok).
  - unfold with_peer. case_decide; simpl; by eapply as_keyed; [apply Hw|].
  - intros pk. rewrite Hps. destruct (decide (pk = Peer_Key p)) as [->|Hne]; [by rewrite Hq|by rewrite lookup_insert_ne].
Qed.

(** A peer found by the index is in the account the index names. *)
Lemma keep_peer {A} pk (k : Peer → MW A) w :
  manager_ok w →
  (∀ id a p, PeerKeyId2AccountId (World_Store w) !! pk = Some id → Accounts (World_Store w) !! id = Some a →
     Account_Peers a !! pk = Some p → Peer_Key p = pk → wp (k p) (λ _ w', manager_ok w') w) →
  wp (p ← Store_GetPeer pk; k p) (λ _ w', manager_ok w') w.
Proof.
  intros Hw Hk. wp_step. apply Store_GetPeer_spec; [|by intros]. intros id a p Hid Ha Hp. eapply Hk; try done.
  by apply (ao_peers a (as_ok _ (mo_accounts _ Hw) _ _ Ha)).
Qed.

Lemma keep_peer_account {A} pk (k : Account → MW A) w id :
  manager_ok w → PeerKeyId2AccountId (World_Store w) !! pk = Some id →
  (∀ a, Accounts (World_Store w) !! id = Some a → Account_Id a = id → wp (k a) (λ _ w', manager_ok w') w) →
  wp (a ← GetPeerAccount pk; k a) (λ _ w', manager_ok w') w.
Proof.
  intros Hw Hid Hk. wp_step. apply GetPeerAccount_spec; [|by intros]. intros id' a Hid' Ha. simplify_eq.
  apply Hk; [done|by eapply as_keyed; [apply Hw|]].
Qed.

Lemma UpdatePeerMeta_keeps pk meta w : manager_ok w → wp (UpdatePeerMeta pk meta) (λ _ w', manager_ok w') w.
Proof.
  intros Hw. unfold UpdatePeerMeta. apply keep_peer; [done|]. intros id a p Hid Ha Hp Hkey.
  eapply keep_peer_account; [done|done|]. intros a' Ha' Hida. assert (a' = a) as -> by congruence. subst pk.
  apply SavePeer_keeps; [done|]. exists a, p. by rewrite Hida.
Qed.

Lemma RenamePeer_keeps id pk name w :
  manager_ok w → (∀ id', PeerKeyId2AccountId (World_Store w) !! pk = Some id' → id' = id) →
  wp (RenamePeer id pk name) (λ _ w', manager_ok w') w.
Proof.
  intros Hw Hhome. unfold RenamePeer. apply keep_peer; [done|]. intros id' a p Hid Ha Hp Hkey.
  apply Hhome in Hid as ->. wp_step. eapply wp_mono; [apply SavePeer_keeps; [done|]|].
  - exists a, p. simpl. by rewrite Hkey.
  - by intros [[]|e|s|] w' Hw'; simpl; try done; wp_step.
Qed.

Lemma MarkPeerConnected_keeps pk c w : manager_ok w → wp (MarkPeerConnected pk c) (λ _ w', manager_ok w') w.
Proof.
  intros Hw. unfold MarkPeerConnected. apply keep_peer; [done|]. intros id a p Hid Ha Hp Hkey.
  eapply keep_peer_account; [done|done|]. intros a' Ha' Hida. assert (a' = a) as -> by congruence. subst pk.
  wp_step. wp_step; [|done]. wp_step. apply wp_time_Now. intros now n. simpl. set (st := Some (mkStatus now c)).
  wp_step. apply wp_modify. simpl. rewrite Hida.
  set (a' := set_Peers (alter (set_Peer_Status st) (Peer_Key p) (Account_Peers a)) a).
  assert (Account_Peers a' = <[Peer_Key p := set_Peer_Status st p]> (Account_Peers a)) as Hps.
  { unfold a'. simpl. by erewrite alter_alt_Some by done. }
  apply SavePeer_keeps.
  - eapply (manager_ok_alter id a a' (PeerKeyId2AccountId (World_Store w)) w); try done.
    + eapply (account_ok_replace_peer a _ (set_Peer_Status st p) p); try done;
        [by eapply as_ok; [apply Hw|]|]. by apply (ao_groups a), (as_ok _ (mo_accounts _ Hw) _ _ Ha).
    + intros pk. rewrite Hps. destruct (decide (pk = Peer_Key p)) as [->|Hne]; [by rewrite Hp|by rewrite lookup_insert_ne].
    + simpl. by erewrite alter_alt_Some by exact Ha.
    + by left.
  - exists a', (set_Peer_Status st p). simpl. erewrite alter_alt_Some by exact Ha.
    rewrite lookup_insert_eq. split; [done|]. split; [|done]. by rewrite lookup_alter_eq, Hp.
Qed.

Lemma AddPeer_keeps setupKey u peer w :
  manager_ok w →
  (∀ id a, Accounts (World_Store w) !! id = Some a → Account_Peers a !! Peer_Key peer = None) →
  wp (AddPeer setupKey u peer) (λ _ w', manager_ok w') w.
Proof.
  intros Hw Hnew. apply AddPeer_run.
  - intros id a Ha. destruct (ao_net a (as_ok _ (mo_accounts _ Hw) _ _ Ha)) as (h & Hh & _). by exists h.
  - intros e w1 Hs _. by eapply manager_ok_same.
  - intros a o a' p w1 Hs Hel Hreg. destruct (eligible_stored _ _ _ _ _ Hel) as [id Ha].
    apply (keep_save_then _ _ (λ _, mret p)); [by eapply manager_ok_same| |by intros; wp_step].
    rewrite (same_state_store _ _ Hs). pose proof (as_ok _ (mo_accounts _ Hw) _ _ Ha) as [Ap Ak Ag Ar Au An Ai Ah].
    destruct Hreg as [(Hp1 & _) _ (_ & Hip2 & Hip3) Hpeers [Hnet _] (gk & g & Hg & _ & Hgs) Hkeys (Hid' & Hus & Hru)].
    split; [split|].
    + intros i q. rewrite Hpeers. intros [[<- <-]|[_ Hq]]%lookup_insert_Some; [done|by apply Ap].
    + intros i k. destruct o as [sk|]; [destruct Hkeys as [now ->]|rewrite Hkeys; by apply Ak].
      intros [[<- <-]|[_ Hk]]%lookup_insert_Some; [done|by apply Ak].
    + intros k g'. rewrite Hgs. case_decide; [|by apply Ag]. intros [= <-]. subst. simpl. by apply Ag.
    + intros k r. rewrite Hru. apply Ar.
    + intros i x. rewrite Hus. apply Au.
    + by rewrite Hnet.
    + intros i j q1 q2. rewrite Hpeers. intros [[<- <-]|[Hi Hq1]]%lookup_insert_Some
        [[<- <-]|[Hj Hq2]]%lookup_insert_Some Heq; [done|by destruct (Hip2 j q2)|by destruct (Hip2 i q1)|by eapply Ai].
    + unfold hosts_ok. rewrite Hnet. intros h Hh. destruct (Ah h Hh) as [Hhost (x & Hx & Hfree)].
      destruct (Hip3 h (proj1 Hh)) as (taken & Htaken & Hin).
      destruct (allocated_host _ h taken (Peer_IP p) Hh) as (Hph & _ & y & Hy & Hny); [| |done|].
      * apply Forall_forall. intros z (i & q & Hq & <-)%Htaken. by eapply Hhost.
      * exists x. split; [done|]. intros (i & q & Hq & E)%Htaken. by apply (Hfree i q).
      * split; [intros i q; rewrite Hpeers; intros [[<- <-]|[_ Hq]]%lookup_insert_Some; [done|by eapply Hhost]|].
        exists y. split; [done|]. intros i q. rewrite Hpeers. intros [[<- <-]|[_ Hq]]%lookup_insert_Some E; apply Hny; rewrite <-E; [left|].
        right. apply Htaken. by exists i, q.
    + intros id2 b pk Hb Hne. rewrite Hpeers. intros Hpk Hpb.
      destruct (decide (pk = Peer_Key peer)) as [->|Hpne]; [rewrite (Hnew id2 b Hb) in Hpb; by destruct Hpb|].
      rewrite lookup_insert_ne in Hpk by done. apply Hne. rewrite Hid'.
      rewrite (as_keyed _ (mo_accounts _ Hw) _ _ Ha). by eapply (as_apart _ (mo_accounts _ Hw) id2 id b a).
Qed.
End peers.

Section removal.
Context `{Runtime}.
Implicit Types w : World.

(** Messages to the peers change neither store nor file. *)
Definition aside {A} (m : MW A) : Prop :=
  ∀ w, wp m (λ _ w', World_Store w' = World_Store w ∧ World_Disk w' = World_Disk w) w.

Lemma aside_bind {A B} (m : MW A) (k : A → MW B) : aside m → (∀ a, aside (k a)) → aside (m ≫= k).
Proof.
  intros Hm Hk w. wp_step. eapply wp_mono; [apply Hm|]. intros [a|e|s|] w' [Es Ed]; simpl; try done.
  eapply wp_mono; [apply Hk|]. intros r w'' [-> ->]. done.
Qed.

Lemma aside_SendUpdate pk u : aside (SendUpdate pk u).
Proof.
  intros w. unfold SendUpdate, chan_send, get_chan, put_chan. wp_step. wp_step.
  destruct (_ !! pk); [|by wp_step]. wp_step. wp_step. destruct (_ !! _); [|by wp_step].
  destruct (Chan_Closed _); [by wp_step|]. case_decide; by wp_step.
Qed.
Lemma aside_CloseChannel pk : aside (CloseChannel pk).
Proof.
  intros w. unfold CloseChannel, set_PeerChannels, chan_close, get_chan, put_chan. wp_step. wp_step.
  destruct (_ !! pk); [|by wp_step]. wp_step. wp_step. wp_step. wp_step. destruct (_ !! _); [|by wp_step].
  destruct (Chan_Closed _); by wp_step.
Qed.
Lemma aside_for_each {A} (l : list A) (body : A → MW unit) : (∀ x, aside (body x)) → aside (for_each l body).
Proof. intros Hb. induction l as [|x l IH]; intros w; simpl; [done|]. by apply aside_bind. Qed.
Lemma aside_GetAccountPeers id : aside (GetAccountPeers id).
Proof. intros w. unfold GetAccountPeers. wp_step. apply GetAccount_spec; intros; simpl; [|done]. rt_go. done. Qed.

Lemma aside_keeps {A} (m : MW A) w : aside m → manager_ok w → wp m (λ _ w', manager_ok w') w.
Proof.
  intros Hm [H1 H2 H3]. eapply wp_mono; [apply Hm|]. intros r w' [Es Ed]. split; rewrite ?Es, ?Ed; done.
Qed.

(** The account without the peer. *)
Lemma account_ok_without pk gs a :
  account_ok a → (∀ k g, map_get gs k = Some g → Group_ID g = k) →
  account_ok (set_Groups gs (set_Peers (delete pk (Account_Peers a)) a)).
Proof.
  intros [Ap Ak Ag Ar Au An Ai Ah] Hg. split; try done; unfold peers_keyed, ips_distinct; simpl.
  - intros i p [_ Hp]%lookup_delete_Some. by apply Ap.
  - intros i j p q [_ Hp]%lookup_delete_Some [_ Hq]%lookup_delete_Some. by apply Ai.
  - intros h Hh. simpl. destruct (Ah h Hh) as [Hhost (x & Hx & Hfree)].
    split; [intros i p [_ Hp]%lookup_delete_Some; by eapply Hhost|]. exists x. split; [done|].
    intros i p [_ Hp]%lookup_delete_Some. by eapply Hfree.
Qed.

Lemma cleanup_groups_keyed pk acc l m :
  (∀ k g, (k, g) ∈ l → Group_ID g = k) → (∀ k g, m !! k = Some g → Group_ID g = k) →
  ∀ k g, cleanup_groups pk acc l m !! k = Some g → Group_ID g = k.
Proof.
  revert acc m. induction l as [|[k0 g0] l IH]; intros acc m Hl Hm; simpl; [done|]. apply IH.
  - intros k g Hk. apply Hl. by right.
  - intros k g [[<- <-]|[_ Hk]]%lookup_insert_Some; [|by apply Hm]. simpl. apply Hl. by left.
Qed.

Lemma Store_DeletePeer_disk id pk w :
  wp (Store_DeletePeer id pk) (λ _ w', World_Disk w' = World_Disk w ∨ World_Disk w' = Some (Accounts (World_Store w'))) w.
Proof.
  unfold Store_DeletePeer. wp_step. apply GetAccount_spec; [|by left]. intros a Ha. simpl. wp_step. wp_step; [|by left].
  wp_step. apply wp_modify. simpl. wp_step. apply wp_modify. simpl. wp_step. apply wp_range. intros l n _ _. simpl.
  wp_step. apply wp_modify. simpl. wp_step. eapply wp_mono; [apply persist_spec|].
  intros r w2 (Es2 & _ & _ & _ & Hr2); simpl in *. destruct r as [[]|e|s|]; simpl; try done.
  - wp_step. right. by rewrite Es2.
  - by left.
Qed.

(** After the removal the account of the peer is in the store, if it was. *)
Lemma Store_DeletePeer_keeps id pk w :
  manager_ok w →
  wp (Store_DeletePeer id pk) (λ _ w', manager_ok w') w.
Proof.
  intros Hw. eapply wp_mono; [apply wp_and; [apply Store_DeletePeer_spec|apply Store_DeletePeer_disk]|].
  intros r w' [[(-> & _)|(a & p & l & Ha & Hp & Hl & Es & _)] Hd]; [done|].
  pose proof (as_ok _ (mo_accounts _ Hw) _ _ Ha) as Hok.
  set (a' := set_Groups (cleanup_groups pk [] l <$> Account_Groups a) (set_Peers (delete pk (Account_Peers a)) a)).
  assert (∀ q, is_Some (Account_Peers a' !! q) → q ≠ pk ∧ is_Some (Account_Peers a !! q)) as Hsub.
  { intros q [x Hx]. simpl in Hx. apply lookup_delete_Some in Hx as [? ?]. by split; [|eexists]. }
  assert (account_ok a') as Hok'.
  { apply account_ok_without; [done|]. unfold map_get, map_of. destruct (Account_Groups a) as [m|] eqn:Hm; simpl;
      [|intros k g; by rewrite lookup_empty]. assert (∀ k g, m !! k = Some g → Group_ID g = k) as Hmk.
    { intros k g Hk. apply (ao_groups _ Hok). unfold map_get, map_of. by rewrite Hm. }
    apply cleanup_groups_keyed; [|done]. intros k g. rewrite Hl. intros ?%elem_of_map_to_list. by apply Hmk. }
  eapply (manager_ok_alter id a a' (delete pk (PeerKeyId2AccountId (World_Store w))) w); try done.
  - exact (as_keyed _ (mo_accounts _ Hw) _ _ Ha).
  - intros q Hq. by apply Hsub.
  - intros id2 b q Hb Hq. rewrite lookup_delete_ne; [done|]. intros <-.
    apply lookup_insert_Some in Hb as [[<- <-]|[Hne Hb]]; [by apply Hsub in Hq as [? _]|].
    apply Hne. eapply (as_apart _ (mo_accounts _ Hw) id id2 a b pk); try done.
Qed.

Lemma DeletePeer_keeps id pk w : manager_ok w → wp (DeletePeer id pk) (λ _ w', manager_ok w') w.
Proof.
  intros Hw. unfold DeletePeer. apply keep_account; [done|]. intros a Ha Hid Hf. wp_step.
  eapply wp_mono; [by apply Store_DeletePeer_keeps|]. intros [p|e|s|] w1 Hw1; simpl; try done.
  unfold get_store. wp_step. wp_step. simpl. wp_step. wp_step; [|done].
  wp_step. eapply wp_mono; [apply SaveAccount_keeps; [done|]|].
  { apply fits_IncSerial. eapply fits_stored; [apply Hw1|done]. }
  intros [[]|e|s|] w2 [Hw2 _]; simpl; try done. apply aside_keeps; [|done].
  apply aside_bind; [apply aside_SendUpdate|]. intros _. apply aside_bind; [apply aside_GetAccountPeers|]. intros peers.
  apply aside_bind; [apply aside_for_each; intros; apply aside_SendUpdate|]. intros _.
  apply aside_bind; [apply aside_CloseChannel|]. by intros.
Qed.

(** A restart reads the file; a missing file is created. *)
Lemma restore_keeps w : manager_ok w → wp restore (λ _ w', manager_ok w') w.
Proof.
  intros Hw. destruct (World_Disk w) as [accs|] eqn:Hd.
  - pose proof (mo_disk _ Hw _ Hd) as Hok. eapply wp_mono; [by apply restore_spec|].
    intros r w' [Hd' Hr]. destruct r as [[]|e|s|]; try done.
    + assert (Accounts (World_Store w') = accs) as Ea by apply Hr. split; rewrite ?Ea; [done| |].
      * intros id a pk. rewrite Ea. intros Ha [p Hp]. destruct (dv_peers _ _ Hr) as [Hown Hin].
        pose proof (ao_peers _ (as_ok _ Hok _ _ Ha) _ _ Hp) as Hk.
        destruct (Hin pk id) as [id' Hid']; [by exists a, pk, p|].
        rewrite Hid'. f_equal. apply Hown in Hid' as (a' & i & p' & Ha' & Hp' & ->).
        pose proof (ao_peers _ (as_ok _ Hok _ _ Ha') _ _ Hp') as Hk'.
        eapply (as_apart _ Hok id' id a' a (Peer_Key p')); try done; rewrite Hk'; by eexists.
      * intros d. rewrite Hd'. by intros [= <-].
    + destruct Hw as [H1 H2 H3]. split; rewrite ?Hr; try done. intros d. rewrite Hd'. by intros [= <-].
  - unfold restore. wp_step. wp_step. rewrite Hd. wp_step. apply wp_modify. simpl.
    assert (accounts_ok (∅ : gmap string Account)) as Hempty.
    { split; intros *; by rewrite lookup_empty. }
    eapply wp_mono; [apply persist_spec|]. intros r w' (Es & _ & _ & _ & Hr). simpl in Es. split; rewrite ?Es; [exact Hempty| |].
    + intros id a pk Ha. destruct (lookup_empty_Some id a Ha).
    + intros d. destruct r as [[]|e|s|]; try done; rewrite Hr; simpl; [by intros [= <-]|congruence].
Qed.
End removal.

(* ------------------------------------------------------------------ *)
(** ** The manager as a transition system *)

(** The operations of the manager that may write, and a restart. *)
Inductive mgr_op :=
  | OpRestart
  | OpBuildManager
  | OpAddAccount (accountId userId domain : string)
  | OpGetOrCreateAccountByUser (userId domain : string)
  | OpGetAccountByUserOrAccountId (userId accountId domain : string)
  | OpGetAccountWithAuthorizationClaims (claims : AuthorizationClaims)
  | OpIsUserAdmin (claims : AuthorizationClaims)
  | OpGetUsersFromAccount (accountId : string)
  | OpAccountExists (accountId : string)
  | OpAddSetupKey (accountId keyName keyType : string) (expiresIn : option Z)
  | OpRevokeSetupKey (accountId keyId : string)
  | OpRenameSetupKey (accountId keyId newName : string)
  | OpAddPeer (setupKey userID : string) (peer : Peer)
  | OpMarkPeerConnected (peerKey : string) (connected : bool)
  | OpRenamePeer (accountId peerKey newName : string)
  | OpUpdatePeerMeta (peerKey : string) (meta : PeerSystemMeta)
  | OpDeletePeer (accountId peerKey : string)
  | OpSaveGroup (accountId : string) (group : Group)
  | OpDeleteGroup (accountId groupId : string)
  | OpGroupAddPeer (accountId groupId peerKey : string)
  | OpGroupDeletePeer (accountId groupId peerKey : string)
  | OpSaveRule (accountId : string) (rule : Rule)
  | OpDeleteRule (accountId ruleId : string).

Section system.
Context `{Runtime}.
Implicit Types w : World.

Definition ignore {A} (m : MW A) : MW unit := _ ← m; mret tt.

Definition perform (op : mgr_op) : MW unit :=
  match op with
  | OpRestart => restore
  | OpBuildManager => BuildManager
  | OpAddAccount id u d => ignore (AddAccount id u d)
  | OpGetOrCreateAccountByUser u d => ignore (GetOrCreateAccountByUser u d)
  | OpGetAccountByUserOrAccountId u id d => ignore (GetAccountByUserOrAccountId u id d)
  | OpGetAccountWithAuthorizationClaims c => ignore (GetAccountWithAuthorizationClaims c)
  | OpIsUserAdmin c => ignore (IsUserAdmin c)
  | OpGetUsersFromAccount id => ignore (GetUsersFromAccount id)
  | OpAccountExists id => ignore (AccountExists id)
  | OpAddSetupKey id n t e => ignore (AddSetupKey id n t e)
  | OpRevokeSetupKey id k => ignore (RevokeSetupKey id k)
  | OpRenameSetupKey id k n => ignore (RenameSetupKey id k n)
  | OpAddPeer k u p => ignore (AddPeer k u p)
  | OpMarkPeerConnected pk c => MarkPeerConnected pk c
  | OpRenamePeer id pk n => ignore (RenamePeer id pk n)
  | OpUpdatePeerMeta pk m => UpdatePeerMeta pk m
  | OpDeletePeer id pk => ignore (DeletePeer id pk)
  | OpSaveGroup id g => SaveGroup id g
  | OpDeleteGroup id g => DeleteGroup id g
  | OpGroupAddPeer id g pk => GroupAddPeer id g pk
  | OpGroupDeletePeer id g pk => GroupDeletePeer id g pk
  | OpSaveRule id r => SaveRule id r
  | OpDeleteRule id r => DeleteRule id r
  end.

(** What the callers have checked: a peer is added when its key is not known
    (the login handler has asked [GetPeer]), and renamed in its account (the
    HTTP handler has found it there). *)
Definition allowed (op : mgr_op) w : Prop :=
  match op with
  | OpAddPeer _ _ peer => ∃ m, (GetPeer (Peer_Key peer) w).1 = Err (Status NotFound m)
  | OpRenamePeer id pk _ => ∃ a, Accounts (World_Store w) !! id = Some a ∧ is_Some (Account_Peers a !! pk)
  | _ => True
  end.

(** The states of a run: operations, with any outcome, and anything the rest
    of the process does that leaves store and file alone. *)
Inductive reachable : World → Prop :=
  | reach_start w :
      World_Store w = emptyStore → World_Disk w = None → reachable w
  | reach_op w op :
      reachable w → allowed op w → reachable (perform op w).2
  | reach_other w w' :
      reachable w → World_Store w' = World_Store w → World_Disk w' = World_Disk w → reachable w'.

Lemma wp_ignore {A} (m : MW A) (I : World → Prop) w :
  wp m (λ _ w', I w') w → wp (ignore m) (λ _ w', I w') w.
Proof. intros Hm. unfold ignore. wp_step. eapply wp_mono; [exact Hm|]. by intros [a|e|s|] w' Hw'; simpl; try done; wp_step. Qed.

Lemma gives_keeps (m : MW Account) w : wp m gives_account w → wp m (λ _ w', manager_ok w') w.
Proof. intros Hm. eapply wp_mono; [exact Hm|]. by intros r w' [? _]. Qed.

(** A peer that [GetPeer] does not find is in no account. *)
Lemma unknown_peer_absent pk w m :
  manager_ok w → (GetPeer pk w).1 = Err (Status NotFound m) →
  ∀ id a, Accounts (World_Store w) !! id = Some a → Account_Peers a !! pk = None.
Proof.
  intros Hw Hg id a Ha. destruct (Account_Peers a !! pk) as [p|] eqn:Hp; [|done].
  rewrite (GetPeer_stored pk id p w) in Hg; [done|]. split; [by eapply (mo_home _ Hw)|].
  by rewrite Ha.
Qed.

Lemma perform_keeps op w : subnets_ok → manager_ok w → allowed op w → wp (perform op) (λ _ w', manager_ok w') w.
Proof.
  intros Hn Hw Hal. destruct op; cbn [perform].
  - by apply restore_keeps.
  - by apply BuildManager_keeps.
  - by apply wp_ignore, createAccount_keeps.
  - by apply wp_ignore, gives_keeps, GetOrCreateAccountByUser_gives.
  - by apply wp_ignore, gives_keeps, GetAccountByUserOrAccountId_gives.
  - by apply wp_ignore, gives_keeps, GetAccountWithAuthorizationClaims_gives.
  - by apply wp_ignore, IsUserAdmin_keeps.
  - by apply wp_ignore, GetUsersFromAccount_keeps.
  - by apply wp_ignore, AccountExists_keeps.
  - by apply wp_ignore, AddSetupKey_keeps.
  - by apply wp_ignore, RevokeSetupKey_keeps.
  - by apply wp_ignore, RenameSetupKey_keeps.
  - destruct Hal as [m Hm]. apply wp_ignore, AddPeer_keeps; [done|]. by eapply unknown_peer_absent.
  - by apply MarkPeerConnected_keeps.
  - destruct Hal as (a & Ha & Hp). apply wp_ignore, RenamePeer_keeps; [done|]. intros id'.
    rewrite (mo_home _ Hw _ _ _ Ha Hp). by intros [= <-].
  - by apply UpdatePeerMeta_keeps.
  - by apply wp_ignore, DeletePeer_keeps.
  - by apply SaveGroup_keeps.
  - by apply DeleteGroup_keeps.
  - by apply GroupAddPeer_keeps.
  - by apply GroupDeletePeer_keeps.
  - by apply SaveRule_keeps.
  - by apply DeleteRule_keeps.
Qed.

Lemma mgr_reachable_ok w : subnets_ok → reachable w → manager_ok w.
Proof.
  intros Hn. induction 1 as [w Hs Hd|w op Hr IH Hal|w w' Hr IH Hs Hd].
  - split; rewrite ?Hs, ?Hd; [split|..]; try done; intros *; intros Hx; destruct (lookup_empty_Some _ _ Hx).
  - by apply (perform_keeps op w Hn IH Hal).
  - destruct IH as [H1 H2 H3]. split; rewrite ?Hs, ?Hd; done.
Qed.

End system.

(* ------------------------------------------------------------------ *)
(** ** A concrete run *)

Lemma demo_subnets_ok : @subnets_ok demo_runtime.
Proof.
  intros n Hn. apply list_elem_of_singleton in Hn as ->. repeat split; try lia. repeat constructor; lia.
Defined.

(** An account is created, and a peer joins with its setup key. *)
Definition demo_account_op : mgr_op := OpAddAccount "A" "u" "example.org".
Definition demo_join_op : mgr_op := OpAddPeer "uuid-0" "" new_peer.
Definition demo_created : World := (@perform demo_runtime demo_account_op emptyWorld).2.
Definition demo_joined : World := (@perform demo_runtime demo_join_op demo_created).2.

Lemma demo_joined_reachable : @reachable demo_runtime demo_joined.
Proof.
  apply (@reach_op demo_runtime demo_created demo_join_op).
  - apply (@reach_op demo_runtime emptyWorld demo_account_op); [by apply reach_start|exact I].
  - simpl. eexists. vm_compute. reflexivity.
Defined.

