(* ===== verification/Migration.v ===== *)
(** * Migration: converting a store (management/server/migration)

    Account identifiers used to be those of a user of the identity provider.
    [Convert] copies every account of an old store into a new one under a fresh
    identifier and makes that user its administrator. *)

From S2P Require Import Prelude GoLib Model Network SetupKey FileStore Account.

(** A copy under identifier [nid]; the user that the old identifier names is
    its creator and an administrator. *)
Definition converted (nid : string) (account : Account) : Account :=
  let c := Account_Copy account in
  mkAccount nid (Account_Id account) (Account_Domain c) (Account_DomainCategory c) (Account_IsDomainPrimaryAccount c)
    (Account_SetupKeys c) (Account_Network c) (Account_Peers c)
    (<[Account_Id account := mkUser (Account_Id account) UserRoleAdmin]> (Account_Users c))
    (Account_Groups c) (Account_Rules c).

Section migration.
Context `{Runtime}.

(** [Convert]; the store of the world is the new one. *)
Definition Convert (oldStore : FileStore) : MW unit :=
  accounts ← range (Accounts oldStore);
  for_each accounts (λ ka,
    id ← xid_New;
    SaveAccount (converted id ka.2)).
End migration.

(* ------------------------------------------------------------------ *)
(** ** Properties *)

Section spec.
Context `{Runtime}.

(** The number of external calls only grows. *)
Definition ticking {A} (m : MW A) : Prop := ∀ w, wp m (λ _ w', World_Tick w ≤ World_Tick w') w.

Lemma ticking_bind {A B} (m : MW A) (k : A → MW B) : ticking m → (∀ a, ticking (k a)) → ticking (m ≫= k).
Proof.
  intros Hm Hk w. wp_step. eapply wp_mono; [apply Hm|]. intros [a|e|s|] w' Hle; simpl; try done.
  eapply wp_mono; [apply Hk|]. intros r w'' Hle2. etrans; [exact Hle|exact Hle2].
Qed.
Lemma ticking_ret {A} (a : A) : ticking (mret a).
Proof. intros w. by apply wp_ret. Qed.
Lemma ticking_modify f : (∀ w, World_Tick (f w) = World_Tick w) → ticking (modify f).
Proof. intros Hf w. apply wp_modify. by rewrite Hf. Qed.
Lemma ticking_modify_store f : ticking (modify_store f).
Proof. intros w. by apply wp_modify. Qed.
Lemma ticking_range {A} (m : gmap string A) : ticking (range m).
Proof. intros w. unfold wp, range, tick, mbind, M_bind. simpl. lia. Qed.
Lemma ticking_os_call : ticking os_call.
Proof. intros w. unfold wp, os_call, tick, mbind, M_bind. simpl. destruct (rt_os _); simpl; lia. Qed.
Lemma ticking_for_each {A} (l : list A) (body : A → MW unit) : (∀ x, ticking (body x)) → ticking (for_each l body).
Proof. intros Hb. induction l as [|x l IH]; simpl; [apply ticking_ret|]. by apply ticking_bind. Qed.
Lemma ticking_deref {A} (o : option A) : ticking (deref o).
Proof. intros w. destruct o; unfold wp; simpl; lia. Qed.

Lemma ticking_gets {A} (f : World → A) : ticking (gets f).
Proof. intros w. by apply wp_gets. Qed.
Lemma ticking_when b m : ticking m → ticking (when b m).
Proof. intros Hm. destruct b; [done|apply ticking_ret]. Qed.

Create HintDb ticking discriminated.
#[local] Hint Resolve ticking_ret ticking_modify_store ticking_range ticking_os_call ticking_deref ticking_gets ticking_when : ticking.
#[local] Hint Extern 1 (ticking (modify _)) => by apply ticking_modify : ticking.
Ltac ticking := repeat first [solve [auto with ticking]|apply ticking_bind; [|intros ?]|apply ticking_for_each; intros ?].

Lemma ticking_SaveAccount a : ticking (SaveAccount a).
Proof.
  unfold SaveAccount, index_setup_keys, index_peers, index_users, index_rule_src, index_rule_dst, persist, WriteJson, get_store. ticking.
Qed.

(** The new store only has identifiers that have been drawn. *)
Definition drawn (w : World) : Prop :=
  ∀ nid a, Accounts (World_Store w) !! nid = Some a → ∃ t, t < World_Tick w ∧ nid = rt_xid t.
Definition copied (a : Account) (w : World) : Prop := ∃ nid, Accounts (World_Store w) !! nid = Some (converted nid a).

Lemma convert_one_spec a w :
  (∀ t t', rt_xid t = rt_xid t' → t = t') → drawn w →
  wp (id ← xid_New; SaveAccount (converted id a))
    (λ _ w', drawn w' ∧ copied a w' ∧ ∀ b, copied b w → copied b w') w.
Proof.
  intros Hinj Hd. unfold xid_New, tick. wp_step. wp_step. unfold wp at 1. simpl. wp_step.
  set (nid := rt_xid (World_Tick w)).
  eapply wp_mono; [apply wp_and; [apply SaveAccount_spec|apply ticking_SaveAccount]|].
  intros r w' [[Hs _] Hle]. pose proof (ex_accounts _ _ _ _ _ Hs) as Ea. simpl in Ea, Hle.
  assert (Accounts (World_Store w) !! nid = None) as Hfresh.
  { destruct (Accounts (World_Store w) !! nid) eqn:Hn; [|done]. destruct (Hd _ _ Hn) as (t & Ht & Heq%Hinj). lia. }
  unfold drawn, copied. rewrite Ea. split_and!.
  - intros n b [[<- _]|[_ Hb]]%lookup_insert_Some; [exists (World_Tick w); split; [lia|done]|].
    destruct (Hd n b Hb) as (t & Ht & ->). exists t. split; [lia|done].
  - exists nid. apply lookup_insert_eq.
  - intros b [nb Hnb]. exists nb. rewrite lookup_insert_ne; [done|]. intros <-. congruence.
Qed.

(** When the conversion succeeds, every account of the old store is in the
    new one, under a fresh identifier, with the same keys, network, peers,
    groups and rules, and with the user its old identifier names as its creator
    and as an administrator. *)
Theorem Convert_copies_all oldStore w w' :
  (∀ t t', rt_xid t = rt_xid t' → t = t') → Accounts (World_Store w) = ∅ →
  Convert oldStore w = (Ok tt, w') →
  ∀ id a, Accounts oldStore !! id = Some a → ∃ nid a', Accounts (World_Store w') !! nid = Some a' ∧
    Account_Id a' = nid ∧ Account_CreatedBy a' = Account_Id a ∧
    Account_Users a' !! Account_Id a = Some (mkUser (Account_Id a) UserRoleAdmin) ∧
    Account_Peers a' = Account_Peers a ∧ Account_SetupKeys a' = Account_SetupKeys a ∧
    Account_Network a' = Account_Network a ∧
    map_of (Account_Groups a') = map_of (Account_Groups a) ∧ map_of (Account_Rules a') = map_of (Account_Rules a).
Proof.
  intros Hinj Hempty Hrun id a Ha.
  assert (wp (Convert oldStore) (λ r w', r = Ok tt → ∀ id a, Accounts oldStore !! id = Some a →
    ∃ nid, Accounts (World_Store w') !! nid = Some (converted nid a)) w) as Hw.
  2:{ unfold wp in Hw. rewrite Hrun in Hw. destruct (Hw eq_refl id a Ha) as [nid Hnid].
      exists nid, (converted nid a). split; [done|]. do 2 (split; [done|]). split; [apply lookup_insert_eq|]. simpl.
      assert (∀ A (f : A → A) (m : gmap string A), (∀ x, f x = x) → f <$> m = m) as Hid.
      { intros A f m Hf. rewrite <-(map_fmap_id m) at 2. by apply map_fmap_ext; intros; rewrite Hf. }
      rewrite !Hid; [by destruct (Account_Network a)|by intros []..]. }
  unfold Convert. wp_step. apply wp_range. intros l n Hl _. simpl.
  eapply (wp_for_each_all drawn (λ ka, copied ka.2)).
  - intros nid b. simpl. rewrite Hempty. intros Hx. destruct (lookup_empty_Some _ _ Hx).
  - intros ka w1 _ Hd. eapply wp_mono; [by apply convert_one_spec|].
    intros [[]|e|s|] w2 (Hd2 & Hc & Hk); try done. split; [done|]. split; [done|]. intros y _. apply Hk.
  - intros w1 _ Hall _ id' a' Ha'. apply (Hall (id', a')). by apply Hl.
Qed.
End spec.

(** Identifiers are drawn once, the store starts empty. *)
Lemma Convert_copies_all_witness :
  ∃ w', @Convert demo_runtime (World_Store demo_world) emptyWorld = (Ok tt, w') ∧
    ∃ nid a', Accounts (World_Store w') !! nid = Some a' ∧ Account_CreatedBy a' = "A" ∧
      Account_Users a' !! "A" = Some (mkUser "A" UserRoleAdmin).
Proof.
  pose (w' := (@Convert demo_runtime (World_Store demo_world) emptyWorld).2).
  assert (@Convert demo_runtime (World_Store demo_world) emptyWorld = (Ok tt, w')) as Hrun by (vm_compute; reflexivity).
  clearbody w'. exists w'. split; [exact Hrun|].
  destruct (@Convert_copies_all demo_runtime (World_Store demo_world) emptyWorld w') with (id := "A") (a := demo_account)
    as (nid & a' & Ha' & _ & Hc & Hu & _).
  - intros t t' Heq. apply (inj (String.append "xid-")) in Heq. by apply (inj pretty) in Heq.
  - reflexivity.
  - exact Hrun.
  - vm_compute. reflexivity.
  - exists nid, a'. split; [exact Ha'|]. split; [exact Hc|exact Hu].
Defined.
