(* ===== verification/Turn.v ===== *)
(** * Turn: time-based TURN credentials (management/server/turncredentials.go,
    config.go, ToResponseProto of grpcserver.go)

    The configuration, the credentials derived from the shared secret, and the
    refresh goroutine of each peer as a machine with two steps: look at the
    cancel channel, then sleep and send.  The HMAC of the standard library is a
    parameter. *)

From S2P Require Import Prelude GoLib Model UpdateChannel.

(* ------------------------------------------------------------------ *)
(** ** Configuration (config.go) *)

Record Host := mkHost {
  Host_Proto : string; Host_URI : string; Host_Username : string; Host_Password : string }.

Record TURNConfig := mkTURNConfig {
  TURN_TimeBasedCredentials : bool; TURN_CredentialsTTL : Z;
  TURN_Secret : string; TURN_Turns : list Host }.

Record HttpServerConfig := mkHttpConfig {
  Http_LetsEncryptDomain : string; Http_CertFile : string; Http_CertKey : string;
  Http_Address : string; Http_AuthAudience : string; Http_AuthIssuer : string;
  Http_AuthKeysLocation : string }.

Record ProviderConfig := mkProviderConfig {
  Provider_ClientID : string; Provider_ClientSecret : string;
  Provider_Domain : string; Provider_Audience : string }.
Record DeviceAuthorizationFlow := mkDeviceFlow {
  Flow_Provider : string; Flow_ProviderConfig : ProviderConfig }.

(** The identity provider, idp/idp.go and idp/auth0.go. *)
Record Auth0ClientConfig := mkAuth0Config {
  A0C_Audience : string; A0C_AuthIssuer : string; A0C_ClientID : string;
  A0C_ClientSecret : string; A0C_GrantType : string }.
Record IdpConfig := mkIdpConfig { IdpC_ManagerType : string; IdpC_Auth0ClientCredentials : Auth0ClientConfig }.

(** Pointers may be nil. *)
Record Config := mkConfig {
  Config_Stuns : list Host; Config_TURNConfig : option TURNConfig;
  Config_Signal : option Host; Config_Datadir : string;
  Config_HttpConfig : option HttpServerConfig; Config_IdpManagerConfig : option IdpConfig;
  Config_DeviceFlow : option DeviceAuthorizationFlow }.

(** The protocols of config.go. *)
Definition UDP : string := "udp".
Definition DTLS : string := "dtls".
Definition TCP : string := "tcp".
Definition HTTP : string := "http".
Definition HTTPS : string := "https".

(** An unknown protocol panics. *)
Definition ToResponseProto {W} (configProto : string) : M W HostConfig_Protocol :=
  if decide (configProto = UDP) then mret PB_UDP
  else if decide (configProto = DTLS) then mret PB_DTLS
  else if decide (configProto = HTTP) then mret PB_HTTP
  else if decide (configProto = HTTPS) then mret PB_HTTPS
  else if decide (configProto = TCP) then mret PB_TCP
  else panic ("unexpected config protocol type " +:+ configProto).

Definition known_protocol (p : string) : Prop := p ∈ [UDP; DTLS; HTTP; HTTPS; TCP].

(* ------------------------------------------------------------------ *)
(** ** Credentials *)

Record TURNCredentials := mkTURNCredentials { Creds_Username : string; Creds_Password : string }.

(** base64(HMAC-SHA1(secret, message)) of crypto/hmac, crypto/sha1 and
    encoding/base64. *)
Class TurnHash := { hmac_base64 : string → string → string }.

(** [time.Time.Unix] of a time in nanoseconds. *)
Definition Unix (t : Z) : Z := (t / 1000000000)%Z.

Section turn.
Context `{Runtime} `{TurnHash}.
Context (config : TURNConfig).

Definition GenerateCredentials : MW TURNCredentials :=
  now ← time_Now;
  let timeAuth := Unix (now + TURN_CredentialsTTL config) in
  let username := Itoa timeAuth in
  mret (mkTURNCredentials username (hmac_base64 (TURN_Secret config) username)).

(* ------------------------------------------------------------------ *)
(** ** Refreshing *)

Definition get_turn : MW TurnManager := gets World_Turn.
Definition modify_turn (f : TurnManager → TurnManager) : MW unit :=
  modify (λ w, set_Turn (f (World_Turn w)) w).

(** [cancel]: closing a channel twice panics. *)
Definition cancel (peerKey : string) : MW unit :=
  m ← get_turn;
  match Turn_CancelMap m !! peerKey with
  | Some channel =>
      if decide (Turn_Chans m !! channel = Some false) then
        modify_turn (λ m, mkTurn (<[channel := true]> (Turn_Chans m)) (Turn_Next m)
                             (delete peerKey (Turn_CancelMap m)))
      else panic "close of closed channel"
  | None => mret tt
  end.

Definition CancelRefresh (peerKey : string) : MW unit := cancel peerKey.

(** [SetupRefresh]: the identity of the cancel channel of the goroutine it
    starts. *)
Definition SetupRefresh (peerKey : string) : MW nat :=
  _ ← cancel peerKey;
  m ← get_turn;
  _ ← modify_turn (λ m, mkTurn (<[Turn_Next m := false]> (Turn_Chans m)) (S (Turn_Next m))
                           (<[peerKey := Turn_Next m]> (Turn_CancelMap m)));
  mret (Turn_Next m).

(** The body of the goroutine between two looks at the cancel channel. *)
Definition turn_hosts (c : TURNCredentials) : MW (list ProtectedHostConfig) :=
  map_each (TURN_Turns config) (λ host,
    proto ← ToResponseProto (Host_Proto host);
    mret (mkProtectedHostConfig (mkHostConfig (Host_URI host) proto)
            (Creds_Username c) (Creds_Password c))).

Definition turn_update (turns : list ProtectedHostConfig) : SyncResponse :=
  mkSyncResponse (Some (mkWiretrusteeConfig [] turns None)) None [] false None.

Definition refresh_send (peerKey : string) : MW unit :=
  c ← GenerateCredentials;
  turns ← turn_hosts c;
  SendUpdate peerKey (turn_update turns).

(** One iteration: [false] when the goroutine returns. *)
Definition refresh_iteration (peerKey : string) (cancelled : nat) : MW bool :=
  m ← get_turn;
  if decide (Turn_Chans m !! cancelled = Some true) then mret false
  else (_ ← refresh_send peerKey; mret true).
End turn.

(* ------------------------------------------------------------------ *)
(** ** Well-formedness *)

(** The cancel map holds exactly the open channels, one peer each: every
    refresh goroutine that is not cancelled belongs to one peer, and a peer
    has at most one. *)
Record turn_wf (m : TurnManager) : Prop := {
  turn_open p c : Turn_CancelMap m !! p = Some c → Turn_Chans m !! c = Some false;
  turn_inj p q c : Turn_CancelMap m !! p = Some c → Turn_CancelMap m !! q = Some c → p = q;
  turn_live c : Turn_Chans m !! c = Some false → ∃ p, Turn_CancelMap m !! p = Some c;
  turn_fresh c : is_Some (Turn_Chans m !! c) → c < Turn_Next m }.

Lemma emptyTurn_wf : turn_wf (mkTurn ∅ 0 ∅).
Proof. split; simpl; intros *; rewrite ?lookup_empty; try done. Qed.

(** Only the cancel channels change. *)
Definition only_turn (w w' : World) : Prop :=
  World_Store w' = World_Store w ∧ World_Disk w' = World_Disk w ∧
  World_Upd w' = World_Upd w ∧ World_Idp w' = World_Idp w ∧ World_Tick w' = World_Tick w.

Lemma cancel_spec p w :
  turn_wf (World_Turn w) →
  wp (cancel p) (λ r w', r = Ok tt ∧ only_turn w w' ∧ turn_wf (World_Turn w') ∧
    Turn_Next (World_Turn w') = Turn_Next (World_Turn w) ∧
    Turn_CancelMap (World_Turn w') = delete p (Turn_CancelMap (World_Turn w)) ∧
    ∀ c, Turn_Chans (World_Turn w') !! c =
      if decide (Turn_CancelMap (World_Turn w) !! p = Some c) then Some true
      else Turn_Chans (World_Turn w) !! c) w.
Proof.
  intros Hwf. unfold cancel, get_turn, modify_turn. wp_step. wp_step.
  destruct (Turn_CancelMap (World_Turn w) !! p) as [c|] eqn:Hp; simpl.
  2:{ wp_step. split; [done|]. split; [done|]. split; [done|]. split; [done|].
      by split; [rewrite delete_id|]. }
  pose proof (turn_open _ Hwf _ _ Hp) as Ho. rewrite decide_True by done. wp_step.
  assert (∀ c', <[c := true]> (Turn_Chans (World_Turn w)) !! c' =
    if decide (Some c = Some c') then Some true else Turn_Chans (World_Turn w) !! c') as Hch.
  { intros c'. case_decide as Hd; [simplify_eq; by rewrite lookup_insert_eq|].
    rewrite lookup_insert_ne; [done|congruence]. }
  do 2 (split; [done|]). split; [|split; [done|split; [done|exact Hch]]]. split; simpl.
  - intros q c' [Hne Hq]%lookup_delete_Some. rewrite Hch, decide_False; [by eapply turn_open|].
    intros [= ->]. by destruct Hne; eapply turn_inj.
  - intros q1 q2 c' [_ H1]%lookup_delete_Some [_ H2]%lookup_delete_Some. by eapply turn_inj.
  - intros c'. rewrite Hch. case_decide as Hd; [done|]. intros Hf.
    destruct (turn_live _ Hwf _ Hf) as [q Hq]. exists q. rewrite lookup_delete_ne; [done|].
    intros ->. congruence.
  - intros c'. rewrite Hch. case_decide as Hd; [simplify_eq|]; intros Hs; eapply turn_fresh; eauto.
Qed.

Lemma SetupRefresh_wf p w :
  turn_wf (World_Turn w) →
  wp (SetupRefresh p) (λ r w', only_turn w w' ∧ turn_wf (World_Turn w') ∧
    match r with
    | Ok c => Turn_Chans (World_Turn w') !! c = Some false ∧
        Turn_CancelMap (World_Turn w') = <[p := c]> (Turn_CancelMap (World_Turn w)) ∧
        ∀ c', c' ≠ c → Turn_Chans (World_Turn w') !! c' =
          if decide (Turn_CancelMap (World_Turn w) !! p = Some c') then Some true
          else Turn_Chans (World_Turn w) !! c'
    | _ => False
    end) w.
Proof.
  intros Hwf.
  unfold SetupRefresh, get_turn, modify_turn. wp_step. eapply wp_mono; [by apply cancel_spec|].
  intros r w1 (-> & Ho & Hwf1 & Hn & Hm & Hc). simpl. do 4 wp_step. wp_step.
  split; [done|]. set (n := Turn_Next (World_Turn w1)).
  assert (∀ c, is_Some (Turn_Chans (World_Turn w1) !! c) → c ≠ n) as Hfresh.
  { intros c Hs ->. apply (turn_fresh _ Hwf1) in Hs. unfold n in Hs. lia. }
  split.
  - split; simpl.
    + intros q c [[<- <-]|[Hne Hq]]%lookup_insert_Some; [apply lookup_insert_eq|].
      pose proof (turn_open _ Hwf1 _ _ Hq) as Hoq.
      rewrite lookup_insert_ne; [done|]. intros Heq. eapply Hfresh; [by rewrite Hoq|done].
    + intros q1 q2 c [[<- <-]|[Hne1 Hq1]]%lookup_insert_Some [[<- Heq]|[Hne2 Hq2]]%lookup_insert_Some;
        try done; [| |by eapply turn_inj].
      * exfalso. eapply Hfresh; [by rewrite (turn_open _ Hwf1 _ _ Hq2)|done].
      * exfalso. eapply Hfresh; [by rewrite (turn_open _ Hwf1 _ _ Hq1)|done].
    + intros c [[<- _]|[Hne Hf]]%lookup_insert_Some; [exists p; apply lookup_insert_eq|].
      destruct (turn_live _ Hwf1 _ Hf) as [q Hq]. exists q. rewrite lookup_insert_ne; [done|].
      intros <-. rewrite Hm, lookup_delete_eq in Hq. done.
    + intros c [<-|[_ Hs]]%lookup_insert_is_Some; [unfold n; lia|].
      apply (turn_fresh _ Hwf1) in Hs. lia.
  - simpl. split; [apply lookup_insert_eq|].
    split; [by rewrite Hm, insert_delete_eq|].
    intros c' Hne. rewrite lookup_insert_ne by done. apply Hc.
Qed.

(* ------------------------------------------------------------------ *)
(** ** Properties *)

(** A peer never has two live refresh goroutines: [SetupRefresh] and
    [CancelRefresh] never panic, keep the cancel map in step with the open
    channels, cancel the goroutine the peer had, and no other; after
    [SetupRefresh] the new goroutine is the peer's only live one, after
    [CancelRefresh] it has none. *)
Theorem refresh_is_exclusive p w :
  turn_wf (World_Turn w) →
  wp (SetupRefresh p) (λ r w', only_turn w w' ∧ turn_wf (World_Turn w') ∧ ∃ c, r = Ok c ∧
    Turn_Chans (World_Turn w') !! c = Some false ∧
    Turn_CancelMap (World_Turn w') = <[p := c]> (Turn_CancelMap (World_Turn w)) ∧
    ∀ c', c' ≠ c → Turn_Chans (World_Turn w') !! c' =
      if decide (Turn_CancelMap (World_Turn w) !! p = Some c') then Some true
      else Turn_Chans (World_Turn w) !! c') w ∧
  wp (CancelRefresh p) (λ r w', r = Ok tt ∧ only_turn w w' ∧ turn_wf (World_Turn w') ∧
    Turn_CancelMap (World_Turn w') = delete p (Turn_CancelMap (World_Turn w)) ∧
    ∀ c', Turn_Chans (World_Turn w') !! c' =
      if decide (Turn_CancelMap (World_Turn w) !! p = Some c') then Some true
      else Turn_Chans (World_Turn w) !! c') w.
Proof.
  intros Hwf. split.
  2:{ eapply wp_mono; [by apply cancel_spec|]. intros r w' (? & ? & ? & _ & ? & ?). done. }
  eapply wp_mono; [by apply SetupRefresh_wf|]. intros [c|e|s|] w' (? & ? & Hr); try done.
  split; [done|]. split; [done|]. by exists c.
Qed.

Lemma refresh_is_exclusive_witness :
  ∃ w1 c, SetupRefresh "p" (snd (SetupRefresh "p" emptyWorld)) = (Ok c, w1) ∧
    Turn_Chans (World_Turn w1) !! 0 = Some true ∧ Turn_Chans (World_Turn w1) !! c = Some false.
Proof.
  assert (turn_wf (World_Turn (snd (SetupRefresh "p" emptyWorld)))) as Hwf
    by exact (proj1 (proj2 (proj1 (refresh_is_exclusive "p" emptyWorld emptyTurn_wf)))).
  destruct (refresh_is_exclusive "p" _ Hwf) as [(_ & _ & c & Hr & Hc & _) _].
  exists (snd (SetupRefresh "p" (snd (SetupRefresh "p" emptyWorld)))), c.
  split; [rewrite <-Hr; apply surjective_pairing|]. split; [vm_compute; reflexivity|exact Hc].
Defined.

Section turn_props.
Context `{Runtime} `{TurnHash}.

Lemma ToResponseProto_spec {W} p (w : W) :
  wp (ToResponseProto p) (λ r w', w' = w ∧
    match r with
    | Ok _ => known_protocol p
    | Panic s => ¬ known_protocol p ∧ s = "unexpected config protocol type " +:+ p
    | _ => False
    end) w.
Proof.
  unfold ToResponseProto, known_protocol. repeat case_decide; subst; wp_step; split; try done;
    try set_solver. 
Qed.

Lemma turn_hosts_spec config c w :
  wp (turn_hosts config c) (λ r w', w' = w ∧
    match r with
    | Ok turns => Forall2 (λ h t, known_protocol (Host_Proto h) ∧
        HostConfig_Uri (PHC_HostConfig t) = Host_URI h ∧
        PHC_User t = Creds_Username c ∧ PHC_Password t = Creds_Password c) (TURN_Turns config) turns
    | Panic s => ∃ h, h ∈ TURN_Turns config ∧ ¬ known_protocol (Host_Proto h)
    | _ => False
    end) w.
Proof.
  unfold turn_hosts. apply (wp_map_each _ (λ h _, ¬ known_protocol (Host_Proto h))).
  intros h _. wp_step. eapply wp_mono; [apply ToResponseProto_spec|].
  intros [pr|e|s|] w' [-> Hr]; simpl; try done.
  by destruct Hr.
Qed.
End turn_props.

(** A refresh goroutine that finds itself cancelled returns without
    sending; otherwise, when the configured protocols are known and the peer
    is connected with room in its channel, it sends exactly one message, with
    one entry per configured TURN server: the user name is the time of expiry
    in seconds, one TTL from now, and the password its keyed hash. *)
Theorem refresh_iteration_sends `{Runtime} `{TurnHash} config p c q w :
  upd_wf (World_Upd w) → Forall (λ h, known_protocol (Host_Proto h)) (TURN_Turns config) →
  queues (World_Upd w) !! p = Some q → length q < UpdateChannelCap →
  wp (refresh_iteration config p c) (λ r w',
    if decide (Turn_Chans (World_Turn w) !! c = Some true) then r = Ok false ∧ w' = w
    else r = Ok true ∧ ∃ now turns,
      queues (World_Upd w') = <[p := q ++ [turn_update turns]]> (queues (World_Upd w)) ∧
      Forall2 (λ h t, HostConfig_Uri (PHC_HostConfig t) = Host_URI h ∧
        PHC_User t = Itoa (Unix (now + TURN_CredentialsTTL config)) ∧
        PHC_Password t = hmac_base64 (TURN_Secret config) (PHC_User t)) (TURN_Turns config) turns) w.
Proof.
  intros Hwf Hknown Hq Hlen. unfold refresh_iteration, get_turn. wp_step. wp_step. simpl.
  destruct (decide (Turn_Chans (World_Turn w) !! c = Some true)); [by wp_step|].
  wp_step. unfold refresh_send. wp_step. unfold GenerateCredentials. wp_step.
  apply wp_time_Now. intros now n0. simpl. wp_step. wp_step.
  eapply wp_mono; [apply turn_hosts_spec|]. intros [turns|e|s|] w1 [-> Hr]; simpl; try done.
  2:{ destruct Hr as (h & Hh & Hn). rewrite Forall_forall in Hknown. by destruct Hn; apply Hknown. }
  eapply wp_mono; [by apply SendUpdate_spec|]. intros r w2 (_ & _ & _ & Hs). simpl in Hs.
  rewrite Hq, decide_True in Hs by done. destruct Hs as [-> Hq2]. simpl. wp_step. split; [done|].
  exists now, turns. split; [exact Hq2|]. eapply Forall2_impl; [exact Hr|].
  intros h t (_ & Hu & Hn & Hp). simpl in *. split; [done|]. split; [done|]. by rewrite Hp, Hn.
Qed.

(** A hash that returns its key. *)
Definition demo_hash : TurnHash := {| hmac_base64 := λ secret _, secret |}.
Definition demo_turn : TURNConfig :=
  mkTURNConfig true 3600000000000 "secret" [mkHost "udp" "turn:example.com" "" ""].
Definition turn_world : World := snd (CreateChannel "p" (snd (SetupRefresh "p" emptyWorld))).

Lemma refresh_iteration_sends_witness :
  (@refresh_iteration demo_runtime demo_hash demo_turn "p" 0 turn_world).1 = Ok true ∧
  (@refresh_iteration demo_runtime demo_hash demo_turn "p" 0
     (snd (CancelRefresh "p" turn_world))).1 = Ok false.
Proof.
  assert (upd_wf (World_Upd turn_world)) as Hwf.
  { pose proof (CreateChannel_spec "p" (snd (SetupRefresh "p" emptyWorld)) emptyUpd_wf) as (c & _ & Hwf & _).
    exact Hwf. }
  split; [|vm_compute; reflexivity].
  pose proof (@refresh_iteration_sends demo_runtime demo_hash demo_turn "p" 0 [] turn_world Hwf
    ltac:(repeat constructor) ltac:(vm_compute; reflexivity) ltac:(simpl; unfold UpdateChannelCap; lia)) as Hw.
  unfold wp in Hw. rewrite decide_False in Hw by (vm_compute; discriminate). exact (proj1 Hw).
Defined.
