(* ===== verification/Encryption.v ===== *)
(** * Encryption: sealed messages (encryption/encryption.go, encryption/message.go)

    A message is sealed under a fresh 24-byte nonce, which is put in front of
    the ciphertext.  The public-key box of golang.org/x/crypto/nacl, the
    random source and the protobuf encoding of each message type are
    parameters, by classes. *)

From S2P Require Import Prelude GoLib Model.

Abbreviation Key := (list Z) (only parsing).
Abbreviation bytes := (list Z) (only parsing).

(** golang.org/x/crypto/nacl/box and wgtypes. [box_Seal] is the sealed text
    alone; box.Seal appends it to its first argument. *)
Class Crypto := {
  box_Seal : bytes → bytes → Key → Key → bytes;          (** message, nonce, peer public, private *)
  box_Open : bytes → bytes → Key → Key → option bytes;   (** box, nonce, peer public, private *)
  rand_Read : nat → error + bytes;                       (** 24 random bytes *)
  PublicKey : Key → Key;
  ParseKey : string → error + Key;
  Key_String : Key → string
}.

(** What the box promises: opening with the matching keys undoes sealing. *)
Class CryptoLaws `{Crypto} := {
  box_open_seal m n sk1 sk2 :
    box_Open (box_Seal m n (PublicKey sk2) sk1) n (PublicKey sk1) sk2 = Some m;
  rand_Read_length t n : rand_Read t = inr n → length n = 24
}.

(** A protobuf message type. *)
Class Wire (A : Type) := {
  pb_Marshal : A → error + bytes;
  pb_Unmarshal : bytes → error + A
}.
Class WireLaws (A : Type) `{Wire A} := {
  unmarshal_marshal m b : pb_Marshal m = inr b → pb_Unmarshal b = inr m
}.

Section encryption.
Context `{Crypto}.

Definition genNonce : MW bytes :=
  λ w, match rand_Read (World_Tick w) with
       | inr n => (Ok n, set_Tick (S (World_Tick w)) w)
       | inl e => (Err e, set_Tick (S (World_Tick w)) w)
       end.

Definition Encrypt (msg : bytes) (peerPublicKey privateKey : Key) : MW bytes :=
  nonce ← genNonce;
  mret (nonce ++ box_Seal msg nonce peerPublicKey privateKey).

(** [copy(nonce, encryptedMsg[:24])] and [encryptedMsg[24:]]: a shorter slice
    panics. *)
Definition Decrypt (encryptedMsg : bytes) (peerPublicKey privateKey : Key) : MW bytes :=
  _ ← genNonce;
  if decide (length encryptedMsg < 24) then panic "slice bounds out of range"
  else
    match box_Open (drop 24 encryptedMsg) (take 24 encryptedMsg) peerPublicKey privateKey with
    | Some opened => mret opened
    | None => fail (Plain ("failed to decrypt message from peer " +:+ Key_String peerPublicKey))
    end.

(** A result that may be an error, as a call. *)
Definition of_result {A} (r : error + A) : MW A :=
  match r with inl e => fail e | inr a => mret a end.

Definition EncryptMessage {A} `{Wire A} (remotePubKey ourPrivateKey : Key) (message : A) : MW bytes :=
  byteResp ← of_result (pb_Marshal message);
  Encrypt byteResp remotePubKey ourPrivateKey.

Definition DecryptMessage {A} `{Wire A} (remotePubKey ourPrivateKey : Key) (encryptedMessage : bytes) : MW A :=
  decrypted ← Decrypt encryptedMessage remotePubKey ourPrivateKey;
  of_result (pb_Unmarshal decrypted).

Lemma wp_genNonce (Q : Res bytes → World → Prop) w :
  (∀ t n k, rand_Read t = inr n → Q (Ok n) (set_Tick k w)) →
  (∀ e k, Q (Err e) (set_Tick k w)) → wp genNonce Q w.
Proof. intros H1 H2. unfold wp, genNonce. destruct (rand_Read _) eqn:Hr; simpl; eauto. Qed.

Lemma EncryptMessage_run {A} `{Wire A} pk sk (m : A) w :
  wp (EncryptMessage pk sk m) (λ r w', same_state w w' ∧
    match r with
    | Ok b => ∃ t n plain, rand_Read t = inr n ∧ pb_Marshal m = inr plain ∧ b = n ++ box_Seal plain n pk sk
    | Err _ => True
    | _ => False
    end) w.
Proof.
  unfold EncryptMessage, Encrypt, of_result. wp_step. destruct (pb_Marshal m) as [e|plain]; wp_step; [done|].
  wp_step. apply wp_genNonce; intros; simpl; [wp_step|]; (split; [done|]); [|done]. by eexists _, _, _.
Qed.

Lemma DecryptMessage_run {A} `{Wire A} pk sk b w :
  wp (DecryptMessage (A := A) pk sk b) (λ r w', same_state w w' ∧
    match r with
    | Ok m => 24 ≤ length b ∧ ∃ plain, box_Open (drop 24 b) (take 24 b) pk sk = Some plain ∧
        pb_Unmarshal plain = inr m
    | Panic _ => length b < 24
    | Err _ => True
    | Blocked => False
    end) w.
Proof.
  unfold DecryptMessage, Decrypt, of_result. wp_step. wp_step. apply wp_genNonce; intros; simpl; [|done].
  case_decide; [by wp_step|]. destruct (box_Open _ _ _ _) as [plain|] eqn:Ho; wp_step; [|done].
  destruct (pb_Unmarshal plain) eqn:Hu; wp_step; [done|]. split; [done|]. split; [lia|].
  by exists plain.
Qed.
End encryption.

(** A sealed text of [m] from the owner of [sk1] to the owner of [sk2]. *)
Definition sealed `{Crypto} {A} `{Wire A} (sk1 sk2 : Key) (m : A) (b : bytes) : Prop :=
  ∃ t n plain, rand_Read t = inr n ∧ pb_Marshal m = inr plain ∧
    b = n ++ box_Seal plain n (PublicKey sk2) sk1.

(** The receiver recovers [m], unless its random source fails. *)
Definition opens_to `{Crypto} {A} `{Wire A} (sk1 sk2 : Key) (m : A) (b : bytes) : Prop :=
  ∀ w, wp (DecryptMessage (PublicKey sk1) sk2 b) (λ r w', same_state w w' ∧
    (r = Ok m ∨ ∃ e, r = Err e ∧ ∃ t, rand_Read t = inl e)) w.

Lemma sealed_opens `{CryptoLaws} {A} `{WireLaws A} sk1 sk2 (m : A) b :
  sealed sk1 sk2 m b → opens_to sk1 sk2 m b.
Proof.
  intros (t & n & plain & Hn & Hm & ->) w2.
  apply rand_Read_length in Hn as Hlen.
  unfold DecryptMessage, Decrypt, of_result. wp_step. wp_step.
  unfold genNonce, wp. destruct (rand_Read (World_Tick w2)) eqn:Hr; simpl.
  { split; [done|]. right. eauto. }
  rewrite decide_False by (rewrite length_app; lia).
  rewrite take_app_length', drop_app_length' by done. rewrite box_open_seal. simpl.
  rewrite (unmarshal_marshal _ _ Hm). simpl. split; [done|]. by left.
Qed.

(* ------------------------------------------------------------------ *)
(** ** Properties *)

(** What one side encrypts the other decrypts: a message sealed for a
    peer's public key is recovered by the peer, from the sender's public key
    and its own private key, whenever its random source works. *)
Theorem encrypt_decrypt_roundtrip `{CryptoLaws} {A} `{WireLaws A} sk1 sk2 (m : A) w b w1 w2 :
  EncryptMessage (PublicKey sk2) sk1 m w = (Ok b, w1) →
  wp (DecryptMessage (PublicKey sk1) sk2 b) (λ r w', same_state w2 w' ∧
    (r = Ok m ∨ ∃ e, r = Err e ∧ ∃ t, rand_Read t = inl e)) w2.
Proof.
  intros Hrun. pose proof (EncryptMessage_run (PublicKey sk2) sk1 m w) as Hw.
  apply (wp_run _ _ _ _ _ Hrun) in Hw as [_ Hsealed]. by apply sealed_opens.
Qed.

(** A toy box: the private key is its own public key, sealing prepends the
    peer's and the own key. *)
Definition demo_crypto : Crypto := {|
  box_Seal m n pk sk := pk ++ sk ++ m;
  box_Open b n pk sk := if decide (take (length sk + length pk) b = sk ++ pk)
                        then Some (drop (length sk + length pk) b) else None;
  rand_Read t := inr (replicate 24 0%Z);
  PublicKey k := k;
  ParseKey s := if decide (s = "") then inl (Plain "bad key") else inr (string_bytes s);
  Key_String k := foldr (λ z s, String (ascii_of_nat (Z.to_nat z)) s) "" k
|}.
#[export] Instance demo_crypto_laws : @CryptoLaws demo_crypto.
Proof.
  split.
  - intros m n sk1 sk2. simpl. rewrite app_assoc, take_app_length', drop_app_length' by (by rewrite length_app).
    by rewrite decide_True.
  - intros t n [= <-]. done.
Defined.
Definition bytes_wire : Wire (list Z) := {| pb_Marshal m := inr m; pb_Unmarshal b := inr b |}.
Lemma bytes_wire_laws : @WireLaws (list Z) bytes_wire.
Proof. split. by intros m b [= ->]. Defined.

Lemma encrypt_decrypt_roundtrip_witness :
  let b := replicate 24 0%Z ++ [2; 1; 7; 8]%Z in
  (@EncryptMessage demo_crypto _ bytes_wire [2]%Z [1]%Z [7; 8]%Z emptyWorld).1 = Ok b ∧
  (@DecryptMessage demo_crypto _ bytes_wire [1]%Z [2]%Z b emptyWorld).1 = Ok [7; 8]%Z.
Proof.
  intros b. split; [reflexivity|].
  destruct (@encrypt_decrypt_roundtrip demo_crypto demo_crypto_laws _ bytes_wire bytes_wire_laws
    [1]%Z [2]%Z [7; 8]%Z emptyWorld b (set_Tick 1 emptyWorld) emptyWorld eq_refl) as [_ [Hr|(e & _ & t & Ht)]].
  - exact Hr.
  - discriminate Ht.
Defined.

(** A sealed message shorter than a nonce does not yield an error but a
    panic, before any key is tried. *)
Theorem short_message_panics `{Crypto} {A} `{Wire A} pk sk b w :
  length b < 24 →
  wp (DecryptMessage (A := A) pk sk b) (λ r _, (∃ s, r = Panic s) ∨ ∃ t e, rand_Read t = inl e ∧ r = Err e) w.
Proof.
  intros Hb. unfold DecryptMessage, Decrypt. wp_step. wp_step. unfold genNonce, wp.
  destruct (rand_Read (World_Tick w)) eqn:Hr; simpl; [right; eauto|].
  rewrite decide_True by done. simpl. left. by eexists.
Qed.

Lemma short_message_panics_witness :
  (@DecryptMessage demo_crypto _ bytes_wire [1]%Z [2]%Z [] emptyWorld).1 = Panic "slice bounds out of range".
Proof.
  destruct (@short_message_panics demo_crypto _ bytes_wire [1]%Z [2]%Z [] emptyWorld ltac:(simpl; lia))
    as [[s Hs]|(t & e & Ht & _)]; [|discriminate Ht].
  exact (eq_trans Hs (eq_trans (eq_sym Hs) eq_refl)).
Defined.
