(* ===== verification/Jwt.v ===== *)
(** * Jwt: tokens and claims (management/server/jwtclaims, http/middleware)

    Reading the token of a request, validating it with the keys of the issuer,
    and extracting the claims the account manager works with.  The parser and
    verifier of github.com/golang-jwt/jwt is a parameter; the callback it is
    given, which picks the key, is the program's. *)

From S2P Require Import Prelude GoLib Model.

(** A value of a decoded JSON object; only strings and lists of strings are
    used. *)
Inductive ClaimValue := CString (s : string) | CStrings (l : list string) | COther.

(** jwt.Token with jwt.MapClaims. *)
Record Token := mkToken {
  Token_Header : gmap string ClaimValue;
  Token_Claims : gmap string ClaimValue;
  Token_Valid : bool }.

(* ------------------------------------------------------------------ *)
(** ** Claims (extractor.go) *)

Definition AccountIDSuffix : string := "wt_account_id".
Definition DomainIDSuffix : string := "wt_account_domain".
Definition DomainCategorySuffix : string := "wt_account_domain_category".
Definition UserIDClaim : string := "sub".

(** [v.(string)] on an interface that may be nil. *)
Definition assert_string {W} (v : option ClaimValue) : M W string :=
  match v with
  | Some (CString s) => mret s
  | _ => panic "interface conversion: interface is not string"
  end.

(** A claim that may be absent. *)
Definition optional_claim {W} (claims : gmap string ClaimValue) (k : string) : M W string :=
  match claims !! k with
  | Some v => assert_string (Some v)
  | None => mret ""
  end.

Definition ExtractClaimsWithToken {W} (token : Token) (authAudience : string) : M W AuthorizationClaims :=
  let claims := Token_Claims token in
  userId ← assert_string (claims !! UserIDClaim);
  accountId ← optional_claim claims (authAudience +:+ AccountIDSuffix);
  domain ← optional_claim claims (authAudience +:+ DomainIDSuffix);
  domainCategory ← optional_claim claims (authAudience +:+ DomainCategorySuffix);
  mret (mkClaims userId accountId domain domainCategory).

(** The request context's token: a missing one is a nil interface. *)
Definition ExtractClaimsFromRequestContext {W} (user : option Token) (authAudience : string)
    : M W AuthorizationClaims :=
  match user with
  | Some token => ExtractClaimsWithToken token authAudience
  | None => panic "interface conversion: interface is nil, not *jwt.Token"
  end.

(* ------------------------------------------------------------------ *)
(** ** The token of a request (jwtmiddleware.go) *)

(** [FromAuthHeader], of the value of the Authorization header. *)
Definition FromAuthHeader (authHeader : string) : error + string :=
  if decide (authHeader = "") then inr ""
  else
    match Fields authHeader with
    | [scheme; token] =>
        if decide (ToLower scheme = "bearer") then inr token
        else inl (Plain "Authorization header format must be Bearer {token}")
    | _ => inl (Plain "Authorization header format must be Bearer {token}")
    end.

(** handler.go: the keys of the issuer. *)
Record JSONWebKey := mkJwk { Jwk_Kid : string; Jwk_X5c : list string }.

(** The text around a certificate. *)
Definition pem_of (x : string) : string :=
  "-----BEGIN CERTIFICATE-----
" +:+ x +:+ "
-----END CERTIFICATE-----".

(** The last matching key wins; a key without certificate panics. *)
Fixpoint getPemCert_from {W} (token : Token) (keys : list JSONWebKey) (cert : string) : M W string :=
  match keys with
  | [] => if decide (cert = "") then fail (Plain "unable to find appropriate key") else mret cert
  | k :: keys' =>
      match Token_Header token !! "kid" with
      | Some (CString kid) =>
          if decide (kid = Jwk_Kid k) then
            match Jwk_X5c k with
            | x :: _ => getPemCert_from token keys' (pem_of x)
            | [] => panic "index out of range [0] with length 0"
            end
          else getPemCert_from token keys' cert
      | _ => getPemCert_from token keys' cert
      end
  end.
Definition getPemCert {W} (token : Token) (keys : list JSONWebKey) : M W string :=
  getPemCert_from token keys "".

(** github.com/golang-jwt/jwt.  [jwt_ParseUnverified] is the decoding [Parse]
    starts with, [jwt_Signed] that the signature of a token text verifies
    under a key; the last argument of [VerifyAudience] and [VerifyIssuer] is
    whether the claim is required. *)
Class JwtLib := {
  jwt_Parse : string → (Token → MW string) → MW Token;
  jwt_ParseUnverified : string → option Token;
  jwt_Signed : string → string → bool;
  VerifyAudience : gmap string ClaimValue → string → bool → bool;
  VerifyIssuer : gmap string ClaimValue → string → bool → bool;
  ParseRSAPublicKeyFromPEM : string → string
}.

Definition set_Token_Valid (v : bool) (t : Token) : Token :=
  mkToken (Token_Header t) (Token_Claims t) v.

(** The audiences of a token, and its issuer; neither need be there. *)
Definition audiences (claims : gmap string ClaimValue) : list string :=
  match claims !! "aud" with Some (CString s) => [s] | Some (CStrings l) => l | _ => [] end.
Definition issuer (claims : gmap string ClaimValue) : string :=
  match claims !! "iss" with Some (CString s) => s | _ => "" end.

(** What the verifying methods document: a claim that is there has to match,
    and one that is not (or empty) is as good unless it is required.  What
    [Parse] documents: it decodes the token, asks the callback for the
    key, and returns the token as valid only if the signature verifies (it may
    fail for other reasons, such as expiry).  A panic of the callback is not
    recovered. *)
Class JwtLaws `{JwtLib} := {
  VerifyAudience_matches : ∀ claims aud required, VerifyAudience claims aud required = true →
    aud ∈ audiences claims ∨ required = false ∧ Forall (λ a, a = "") (audiences claims);
  VerifyAudience_unset : ∀ claims aud, claims !! "aud" = None → VerifyAudience claims aud false = true;
  VerifyIssuer_matches : ∀ claims iss required, VerifyIssuer claims iss required = true →
    issuer claims = iss ∨ required = false ∧ issuer claims = "";
  VerifyIssuer_unset : ∀ claims iss, claims !! "iss" = None → VerifyIssuer claims iss false = true;
  jwt_Parse_outcome : ∀ s keyFunc w,
    match jwt_ParseUnverified s with
    | None => ∃ e, jwt_Parse s keyFunc w = (Err e, w)
    | Some t =>
        match keyFunc t w with
        | (Ok key, w') =>
            (jwt_Signed s key = true ∧ jwt_Parse s keyFunc w = (Ok (set_Token_Valid true t), w')) ∨
            ∃ e, jwt_Parse s keyFunc w = (Err e, w')
        | (Err _, w') => ∃ e, jwt_Parse s keyFunc w = (Err e, w')
        | (Panic msg, w') => jwt_Parse s keyFunc w = (Panic msg, w')
        | (Blocked, w') => jwt_Parse s keyFunc w = (Blocked, w')
        end
    end
}.

Record JWTMiddleware := mkJwtMiddleware {
  Jwt_Issuer : string; Jwt_Audience : string; Jwt_Keys : list JSONWebKey }.

Section middleware.
Context `{JwtLib}.

(** The key function of [NewJwtMiddleware]: no matching key panics. *)
Definition ValidationKeyGetter (m : JWTMiddleware) (token : Token) : MW string :=
  if VerifyAudience (Token_Claims token) (Jwt_Audience m) false then
    if VerifyIssuer (Token_Claims token) (Jwt_Issuer m) false then
      r ← try (getPemCert token (Jwt_Keys m));
      match r with
      | inl e => panic (error_text e)
      | inr cert => mret (ParseRSAPublicKeyFromPEM cert)
      end
    else fail (Plain "invalid issuer")
  else fail (Plain "invalid audience").

(** [ValidateAndParse], with the options of [NewJwtMiddleware]: credentials
    required, RS256. *)
Definition ValidateAndParse (m : JWTMiddleware) (token : string) : MW Token :=
  if decide (token = "") then fail (Plain "required authorization token not found")
  else
    parsedToken ← map_err (λ e, Plain ("Error parsing token: " +:+ error_text e))
                    (jwt_Parse token (ValidationKeyGetter m));
    match Token_Header parsedToken !! "alg" with
    | Some (CString alg) =>
        if decide (alg = "RS256") then
          if Token_Valid parsedToken then mret parsedToken else fail (Plain "token is invalid")
        else fail (Plain ("error validating token algorithm: Expected RS256 signing method but token specified " +:+ alg))
    | _ => fail (Plain "error validating token algorithm: Expected RS256 signing method but token specified <nil>")
    end.
End middleware.

(* ------------------------------------------------------------------ *)
(** ** Specifications *)

(** The token names the key [k] in its header. *)
Definition names_key (token : Token) (k : JSONWebKey) : Prop :=
  Token_Header token !! "kid" = Some (CString (Jwk_Kid k)).

Lemma pem_of_nonempty x : pem_of x ≠ "".
Proof. by unfold pem_of. Qed.

(** The outcome of the search for a key: the certificate of a key the token
    names, or what the search started with when it names none. *)
Definition key_found (token : Token) (keys : list JSONWebKey) (cert : string) (r : Res string) : Prop :=
  match r with
  | Ok c => c ≠ "" ∧ ((c = cert ∧ ∀ k, k ∈ keys → ¬ names_key token k) ∨
      ∃ k x xs, k ∈ keys ∧ names_key token k ∧ Jwk_X5c k = x :: xs ∧ c = pem_of x)
  | Err e => e = Plain "unable to find appropriate key" ∧ cert = "" ∧
      ∀ k, k ∈ keys → ¬ names_key token k
  | Panic _ => ∃ k, k ∈ keys ∧ names_key token k ∧ Jwk_X5c k = []
  | Blocked => False
  end.

Lemma getPemCert_from_spec {W} token keys cert (w : W) :
  wp (getPemCert_from token keys cert) (λ r w', w' = w ∧ key_found token keys cert r) w.
Proof.
  revert cert. induction keys as [|k keys IH]; intros cert; simpl.
  { case_decide; wp_step; (split; [done|]).
    - split; [done|]. split; [done|]. intros k. by intros ?%not_elem_of_nil.
    - split; [done|]. left. split; [done|]. intros k. by intros ?%not_elem_of_nil. }
  assert (¬ names_key token k →
    wp (getPemCert_from token keys cert) (λ r w', w' = w ∧ key_found token (k :: keys) cert r) w) as Hskip.
  { intros Hnk. eapply wp_mono; [apply IH|]. intros [c|e|s|] w' [-> Hr]; (split; [done|]).
    - destruct Hr as (Hc & [[-> Hn]|(k' & x & xs & Hk' & Hr)]); (split; [done|]).
      + left. split; [done|]. intros k' [->|Hk']%elem_of_cons; [done|by apply Hn].
      + right. exists k', x, xs. split; [by right|done].
    - destruct Hr as (He & Hc & Hn). repeat split; try done.
      intros k' [->|Hk']%elem_of_cons; [done|by apply Hn].
    - destruct Hr as (k' & Hk' & Hr). exists k'. split; [by right|done].
    - done. }
  destruct (Token_Header token !! "kid") as [[kid| |]|] eqn:Hkid;
    [|apply Hskip; unfold names_key; congruence..].
  case_decide as Heq; [|apply Hskip; unfold names_key; congruence]. subst kid.
  destruct (Jwk_X5c k) as [|x xs] eqn:Hx.
  { wp_step. split; [done|]. exists k. split; [by left|done]. }
  eapply wp_mono; [apply IH|]. intros [c|e|s|] w' [-> Hr]; (split; [done|]).
  - destruct Hr as (Hc & [[-> Hn]|(k' & y & ys & Hk' & Hr)]); (split; [done|]); right.
    + exists k, x, xs. split; [by left|done].
    + exists k', y, ys. split; [by right|done].
  - destruct Hr as (_ & Hc & _). by apply pem_of_nonempty in Hc.
  - destruct Hr as (k' & Hk' & Hr). exists k'. split; [by right|done].
  - done.
Qed.

Section specs.
Context `{JwtLib}.

Lemma ValidationKeyGetter_spec m t w :
  wp (ValidationKeyGetter m t) (λ r w', w' = w ∧
    match r with
    | Ok key => VerifyAudience (Token_Claims t) (Jwt_Audience m) false = true ∧
        VerifyIssuer (Token_Claims t) (Jwt_Issuer m) false = true ∧
        ∃ k x xs, k ∈ Jwt_Keys m ∧ names_key t k ∧ Jwk_X5c k = x :: xs ∧
          key = ParseRSAPublicKeyFromPEM (pem_of x)
    | Err _ => VerifyAudience (Token_Claims t) (Jwt_Audience m) false = false ∨
        VerifyIssuer (Token_Claims t) (Jwt_Issuer m) false = false
    | Panic msg => (msg = "unable to find appropriate key" ∧ ∀ k, k ∈ Jwt_Keys m → ¬ names_key t k) ∨
        ∃ k, k ∈ Jwt_Keys m ∧ names_key t k ∧ Jwk_X5c k = []
    | Blocked => False
    end) w.
Proof.
  unfold ValidationKeyGetter. wp_step; [|wp_step; split; [done|by left]].
  wp_step; [|wp_step; split; [done|by right]].
  wp_step. wp_step. eapply wp_mono; [apply getPemCert_from_spec|].
  intros [c|e|s|] w' [-> Hr]; simpl.
  - wp_step. split; [done|]. split; [done|]. split; [done|].
    destruct Hr as (Hc & [[-> _]|(k & x & xs & ? & ? & ? & ->)]); [done|]. by exists k, x, xs.
  - wp_step. split; [done|]. destruct Hr as (-> & _ & Hn). by left.
  - split; [done|]. by right.
  - done.
Qed.
End specs.

(* ------------------------------------------------------------------ *)
(** ** Properties *)

(** C36: a token is accepted only when it is not empty, was signed with RS256,
    names in its header one of the keys of the issuer, carries a signature
    that verifies under the certificate of that key, has the configured audience
    among its audiences or no audience at all, and the configured issuer or
    none at all (neither claim is required).  Validation changes nothing. *)
Theorem accepted_token_verified `{JwtLaws} m s w t w' :
  ValidateAndParse m s w = (Ok t, w') →
  w' = w ∧ s ≠ "" ∧ Token_Valid t = true ∧ Token_Header t !! "alg" = Some (CString "RS256") ∧
  (Jwt_Audience m ∈ audiences (Token_Claims t) ∨ Forall (λ a, a = "") (audiences (Token_Claims t))) ∧
  (issuer (Token_Claims t) = Jwt_Issuer m ∨ issuer (Token_Claims t) = "") ∧
  ∃ k x xs, k ∈ Jwt_Keys m ∧ names_key t k ∧ Jwk_X5c k = x :: xs ∧
    jwt_Signed s (ParseRSAPublicKeyFromPEM (pem_of x)) = true.
Proof.
  unfold ValidateAndParse. case_decide as Hs; [done|].
  unfold mbind, M_bind, map_err. pose proof (jwt_Parse_outcome s (ValidationKeyGetter m) w) as Ho.
  destruct (jwt_ParseUnverified s) as [t0|]; [|by destruct Ho as [e ->]].
  pose proof (ValidationKeyGetter_spec m t0 w) as Hv. unfold wp in Hv.
  destruct (ValidationKeyGetter m t0 w) as [[key|e|msg|] w1]; simpl in Hv.
  2:{ by destruct Ho as [e' ->]. }
  2:{ by rewrite Ho. }
  2:{ by rewrite Ho. }
  destruct Hv as (-> & Haud%VerifyAudience_matches & Hiss%VerifyIssuer_matches & k & x & xs & Hk & Hn & Hx & ->).
  destruct Ho as [[Hsig ->]|[e ->]]; [|done]. simpl.
  destruct (Token_Header t0 !! "alg") as [[alg| |]|] eqn:Halg; [|done..].
  case_decide as Ha; [|done]. intros [= <- <-]. subst alg. simpl.
  do 4 (split; [done|]). split; [tauto|]. split; [tauto|]. by exists k, x, xs.
Qed.

(** A library with two tokens: [good], of the key [k1], and [stray], of a key
    nobody knows. *)
Definition demo_token (kid : string) : Token :=
  mkToken (<["alg" := CString "RS256"]> {["kid" := CString kid]}) {["sub" := CString "u"]} false.
Definition demo_jwt_lib : JwtLib := {|
  jwt_ParseUnverified s :=
    if decide (s = "good") then Some (demo_token "k1")
    else if decide (s = "stray") then Some (demo_token "k2") else None;
  jwt_Signed s key := bool_decide (s = "good");
  jwt_Parse s keyFunc :=
    match (if decide (s = "good") then Some (demo_token "k1")
           else if decide (s = "stray") then Some (demo_token "k2") else None) with
    | None => fail (Plain "token contains an invalid number of segments")
    | Some t =>
        key ← keyFunc t;
        if decide (s = "good") then mret (set_Token_Valid true t) else fail (Plain "signature is invalid")
    end;
  VerifyAudience claims aud required :=
    bool_decide (aud ∈ audiences claims) || (negb required && bool_decide (Forall (λ a, a = "") (audiences claims)));
  VerifyIssuer claims iss required := bool_decide (issuer claims = iss) || (negb required && bool_decide (issuer claims = ""));
  ParseRSAPublicKeyFromPEM s := s
|}.

Lemma demo_jwt_laws : @JwtLaws demo_jwt_lib.
Proof.
  split; simpl.
  { intros claims aud required [?%bool_decide_eq_true|[Hr%negb_true_iff ?%bool_decide_eq_true]%andb_prop]%orb_prop; auto. }
  { intros claims aud Hn. apply orb_true_iff. right. apply bool_decide_eq_true. unfold audiences. by rewrite Hn. }
  { intros claims iss required [?%bool_decide_eq_true|[Hr%negb_true_iff ?%bool_decide_eq_true]%andb_prop]%orb_prop; auto. }
  { intros claims iss Hn. apply orb_true_iff. right. apply bool_decide_eq_true. unfold issuer. by rewrite Hn. }
  intros s keyFunc w. destruct (decide (s = "good")) as [->|Hs]; simpl.
  - unfold mbind, M_bind. destruct (keyFunc (demo_token "k1") w) as [[]]; eauto.
  - destruct (decide (s = "stray")); [|by eexists]. unfold mbind, M_bind.
    destruct (keyFunc (demo_token "k2") w) as [[]]; eauto.
Qed.

Definition demo_jwt : JWTMiddleware := mkJwtMiddleware "iss" "aud" [mkJwk "k1" ["cert"]].

Lemma accepted_token_verified_witness :
  @ValidateAndParse demo_jwt_lib demo_jwt "good" emptyWorld
    = (Ok (set_Token_Valid true (demo_token "k1")), emptyWorld) ∧
  ∃ k x xs, k ∈ Jwt_Keys demo_jwt ∧ names_key (set_Token_Valid true (demo_token "k1")) k ∧
    Jwk_X5c k = x :: xs ∧ @jwt_Signed demo_jwt_lib "good" (pem_of x) = true.
Proof.
  assert (@ValidateAndParse demo_jwt_lib demo_jwt "good" emptyWorld
    = (Ok (set_Token_Valid true (demo_token "k1")), emptyWorld)) as Hrun by (vm_compute; reflexivity).
  split; [exact Hrun|].
  apply (@accepted_token_verified demo_jwt_lib demo_jwt_laws demo_jwt "good" emptyWorld _ _ Hrun).
Defined.

(** A token without audience and issuer is not refused for that, whatever the
    configuration asks for. *)
Lemma unaddressed_token_keyed `{JwtLaws} m t w :
  Token_Claims t !! "aud" = None → Token_Claims t !! "iss" = None →
  ValidationKeyGetter m t w =
    (r ← try (getPemCert t (Jwt_Keys m));
     match r with inl e => panic (error_text e) | inr cert => mret (ParseRSAPublicKeyFromPEM cert) end) w.
Proof. intros Ha Hi. unfold ValidationKeyGetter. by rewrite VerifyAudience_unset, VerifyIssuer_unset. Qed.

(** A token that decodes, has the right audience and issuer, and names a
    key that is not among the keys of the issuer does not get the answer 401:
    it panics the handler, before any signature has been checked. *)
Theorem unknown_kid_panics `{JwtLaws} m s t w :
  s ≠ "" → jwt_ParseUnverified s = Some t →
  VerifyAudience (Token_Claims t) (Jwt_Audience m) false = true →
  VerifyIssuer (Token_Claims t) (Jwt_Issuer m) false = true →
  (∀ k, k ∈ Jwt_Keys m → ¬ names_key t k) →
  ValidateAndParse m s w = (Panic "unable to find appropriate key", w).
Proof.
  intros Hs Ht Haud Hiss Hk. unfold ValidateAndParse. rewrite decide_False by done.
  unfold mbind, M_bind, map_err. pose proof (jwt_Parse_outcome s (ValidationKeyGetter m) w) as Ho.
  rewrite Ht in Ho. pose proof (ValidationKeyGetter_spec m t w) as Hv. unfold wp in Hv.
  destruct (ValidationKeyGetter m t w) as [[key|e|msg|] w1]; simpl in Hv.
  - destruct Hv as (_ & _ & _ & k & _ & _ & Hin & Hn & _). by destruct (Hk k Hin).
  - destruct Hv as (_ & [?|?]); congruence.
  - destruct Hv as (-> & [[-> _]|(k & Hin & Hn & _)]); [by rewrite Ho|]. by destruct (Hk k Hin).
  - by destruct Hv.
Qed.

Lemma unknown_kid_panics_witness :
  @ValidateAndParse demo_jwt_lib demo_jwt "stray" emptyWorld
    = (Panic "unable to find appropriate key", emptyWorld).
Proof.
  apply (@unknown_kid_panics demo_jwt_lib demo_jwt_laws demo_jwt "stray" (demo_token "k2")); try done.
  intros k [->|Hk]%elem_of_cons; [|by apply not_elem_of_nil in Hk].
  intros [=].
Defined.
