(* ===== verification/GrpcServer.v ===== *)
(** * GrpcServer: the management gRPC service (management/server/grpcserver.go)

    Login and registration, the synchronisation stream and its update loop,
    the messages built for a peer.  A unary call runs on the state of the
    service; a stream also records what it has sent, in a state of its own.
    Message encodings and the crypto are the classes of [Encryption]. *)

From S2P Require Import Prelude GoLib Model Network UpdateChannel FileStore Account Groups Peers Turn Encryption Jwt.

(* ------------------------------------------------------------------ *)
(** ** Messages *)

Record PbPeerSystemMeta := mkPbMeta {
  Pb_Hostname : string; Pb_GoOS : string; Pb_Kernel : string; Pb_Core : string;
  Pb_Platform : string; Pb_OS : string; Pb_WiretrusteeVersion : string; Pb_UiVersion : string }.

Record LoginRequest := mkLoginRequest {
  LR_SetupKey : string; LR_Meta : option PbPeerSystemMeta; LR_JwtToken : string }.
Record LoginResponse := mkLoginResponse {
  LoginR_WiretrusteeConfig : option WiretrusteeConfig; LoginR_PeerConfig : option PeerConfig }.
Record SyncRequest := mkSyncRequest {}.
Record DeviceAuthorizationFlowRequest := mkFlowRequest {}.
Record PbDeviceAuthorizationFlow := mkPbFlow {
  PbFlow_Provider : Z; PbFlow_ProviderConfig : ProviderConfig }.
Record ServerKeyResponse := mkServerKeyResponse {
  SK_Key : string; SK_ExpiresAt_Seconds : Z; SK_ExpiresAt_Nanos : Z }.
Record EncryptedMessage := mkEncryptedMessage { EM_WgPubKey : string; EM_Body : bytes }.

(** The encodings of the messages that travel sealed. *)
Class Wires := {
  wire_login_request :: Wire LoginRequest;
  wire_login_response :: Wire LoginResponse;
  wire_sync_request :: Wire SyncRequest;
  wire_sync_response :: Wire SyncResponse;
  wire_flow_request :: Wire DeviceAuthorizationFlowRequest;
  wire_flow :: Wire PbDeviceAuthorizationFlow
}.

(** PeerSystemMeta from the request's meta. *)
Definition meta_of_pb (m : PbPeerSystemMeta) : PeerSystemMeta :=
  mkMeta (Pb_Hostname m) (Pb_GoOS m) (Pb_Kernel m) (Pb_Core m) (Pb_Platform m) (Pb_OS m)
    (Pb_WiretrusteeVersion m) (Pb_UiVersion m).

Record Server := mkServer {
  Srv_wgKey : Key; Srv_config : Config; Srv_jwt : option JWTMiddleware }.

(* ------------------------------------------------------------------ *)
(** ** Building the messages *)

Section messages.
Context {W : Type}.

Definition toWiretrusteeConfig (config : Config) (turnCredentials : option TURNCredentials)
    : M W WiretrusteeConfig :=
  stuns ← map_each (Config_Stuns config) (λ stun,
    p ← ToResponseProto (Host_Proto stun); mret (mkHostConfig (Host_URI stun) p));
  turnConfig ← deref (Config_TURNConfig config);
  turns ← map_each (TURN_Turns turnConfig) (λ turn,
    let '(username, password) :=
      match turnCredentials with
      | Some c => (Creds_Username c, Creds_Password c)
      | None => (Host_Username turn, Host_Password turn)
      end in
    p ← ToResponseProto (Host_Proto turn);
    mret (mkProtectedHostConfig (mkHostConfig (Host_URI turn) p) username password));
  signal ← deref (Config_Signal config);
  p ← ToResponseProto (Host_Proto signal);
  mret (mkWiretrusteeConfig stuns turns (Some (mkHostConfig (Host_URI signal) p))).

Definition toPeerConfig (peer : Peer) : PeerConfig :=
  mkPeerConfig (IP_String (Peer_IP peer) +:+ "/16").

Definition toSyncResponse (config : Config) (peer : Peer) (peers : list Peer)
    (turnCredentials : option TURNCredentials) (serial : Z) : M W SyncResponse :=
  wtConfig ← toWiretrusteeConfig config turnCredentials;
  let pConfig := toPeerConfig peer in
  let remotePeers := toRemotePeerConfig peers in
  let isEmpty := bool_decide (length remotePeers = 0) in
  mret (mkSyncResponse (Some wtConfig) (Some pConfig) remotePeers isEmpty
          (Some (mkPbNetworkMap serial (Some pConfig) remotePeers isEmpty))).
End messages.

(* ------------------------------------------------------------------ *)
(** ** Unary calls *)

Section server.
Context `{Runtime} `{TurnHash} `{Crypto} `{JwtLib} `{Wires}.
Context (s : Server).

(** [time.Second] and [time.Nanosecond]: the second within the minute, the
    nanosecond within the second. *)
Definition Second (t : Z) : Z := (Unix t mod 60)%Z.
Definition Nanosecond (t : Z) : Z := (t mod 1000000000)%Z.

Definition GetServerKey : MW ServerKeyResponse :=
  now0 ← time_Now;
  let now := (now0 + 24 * 3600 * 1000000000)%Z in
  mret (mkServerKeyResponse (Key_String (PublicKey (Srv_wgKey s))) (Second now) (Nanosecond now)).

Definition IsHealthy : MW unit := mret tt.

(** The credentials of a registration: setup key and user. *)
Definition registration_credentials (req : LoginRequest) : MW (string * string) :=
  if decide (LR_JwtToken req ≠ "") then
    m ← or_fail (Srv_jwt s) (Status Internal "no jwt middleware set");
    token ← map_err (λ e, Status Internal ("invalid jwt token, err: " +:+ error_text e))
              (ValidateAndParse m (LR_JwtToken req));
    http ← deref (Config_HttpConfig (Srv_config s));
    claims ← ExtractClaimsWithToken token (Http_AuthAudience http);
    _ ← map_err (λ e, Status Internal ("unable to fetch account with claims, err: " +:+ error_text e))
          (GetAccountWithAuthorizationClaims claims);
    mret ("", Claims_UserId claims)
  else mret (LR_SetupKey req, "").

(** Which errors of [AddPeer] are passed on. *)
Definition registration_error (e : error) : error :=
  match e with
  | Status FailedPrecondition _ | Status OutOfRange _ => e
  | _ => Status NotFound "provided setup key doesn't exists"
  end.

(** The peers told to [remotePeer] when [peer] registers. *)
Definition peers_to_send (peer remotePeer : Peer) (peers : list Peer) : list Peer :=
  peer :: filter (λ p, Peer_Key remotePeer ≠ Peer_Key p) peers.

Definition registerPeer (peerKey : string) (req : LoginRequest) : MW Peer :=
  creds ← registration_credentials req;
  let '(reqSetupKey, userId) := creds in
  meta ← or_fail (LR_Meta req) (Status InvalidArgument "peer meta data was not provided");
  peer ← map_err registration_error
           (AddPeer reqSetupKey userId
              (mkPeer peerKey "" [] (meta_of_pb meta) (Pb_Hostname meta) None ""));
  networkMap ← map_err (λ e, Status Internal
                   ("unable to fetch network map after registering peer, error: " +:+ error_text e))
                 (GetNetworkMap (Peer_Key peer));
  _ ← for_each (NetworkMap_Peers networkMap) (λ remotePeer,
        update ← toSyncResponse (Srv_config s) peer
                   (peers_to_send peer remotePeer (NetworkMap_Peers networkMap)) None
                   (CurrentSerial (NetworkMap_Network networkMap));
        SendUpdate (Peer_Key remotePeer) update);
  mret peer.

Definition Login (req : EncryptedMessage) : MW EncryptedMessage :=
  peerKey ← of_result (ParseKey (EM_WgPubKey req))
    or_err Status InvalidArgument ("provided wgPubKey " +:+ EM_WgPubKey req +:+ " is invalid");
  loginReq ← DecryptMessage (A := LoginRequest) peerKey (Srv_wgKey s) (EM_Body req)
    or_err Status InvalidArgument "invalid request message";
  let pk := Key_String peerKey in
  r ← try (GetPeer pk);
  peer ←
    match r with
    | inl err =>
        if decide (from_error (Some err) = (NotFound, true)) then
          if decide (LR_JwtToken loginReq = "" ∧ LR_SetupKey loginReq = "") then
            fail (Status PermissionDenied ("provided peer with the key wgPubKey " +:+ pk
              +:+ " is not registered and no setup key or jwt was provided"))
          else registerPeer pk loginReq
        else fail (Status Internal "internal server error")
    | inr peer =>
        match LR_Meta loginReq with
        | Some meta =>
            _ ← UpdatePeerMeta pk (meta_of_pb meta) or_err Status Internal "internal server error";
            mret peer
        | None => mret peer
        end
    end;
  wtConfig ← toWiretrusteeConfig (Srv_config s) None;
  encryptedResp ← EncryptMessage peerKey (Srv_wgKey s)
      (mkLoginResponse (Some wtConfig) (Some (toPeerConfig peer)))
    or_err Status Internal "failed logging in peer";
  mret (mkEncryptedMessage (Key_String (PublicKey (Srv_wgKey s))) encryptedResp).

(** [DeviceAuthorizationFlowProvider_value]. *)
Definition provider_value (name : string) : option Z :=
  if decide (name = "HOSTED") then Some 0%Z else None.

Definition GetDeviceAuthorizationFlow (req : EncryptedMessage) : MW EncryptedMessage :=
  peerKey ← of_result (ParseKey (EM_WgPubKey req))
    or_err Status InvalidArgument ("error while parsing peer's Wireguard public key "
             +:+ EM_WgPubKey req +:+ " on GetDeviceAuthorizationFlow request.");
  _ ← DecryptMessage (A := DeviceAuthorizationFlowRequest) peerKey (Srv_wgKey s) (EM_Body req)
    or_err Status InvalidArgument ("error while decrypting peer's message with Wireguard public key "
             +:+ EM_WgPubKey req +:+ ".");
  flow ← or_fail (Config_DeviceFlow (Srv_config s))
           (Status NotFound "no device authorization flow information available");
  provider ← or_fail (provider_value (ToUpper (Flow_Provider flow)))
               (Status InvalidArgument ("no provider found in the protocol for " +:+ Flow_Provider flow));
  encryptedResp ← EncryptMessage peerKey (Srv_wgKey s) (mkPbFlow provider (Flow_ProviderConfig flow))
    or_err Status Internal "failed to encrypt no device authorization flow information";
  mret (mkEncryptedMessage (Key_String (PublicKey (Srv_wgKey s))) encryptedResp).
End server.

(* ------------------------------------------------------------------ *)
(** ** The synchronisation stream *)

(** The service and what one stream has sent to its peer. *)
Record Stream := mkStream { St_World : World; St_Sent : list EncryptedMessage }.
Abbreviation MS := (M Stream).

Definition lift {A} (m : MW A) : MS A :=
  λ st, let '(r, w) := m (St_World st) in (r, mkStream w (St_Sent st)).

Section stream.
Context `{Runtime} `{TurnHash} `{Crypto} `{JwtLib} `{Wires}.
Context (s : Server).

(** [srv.Send]: fails when the transport does. *)
Definition srv_Send (m : EncryptedMessage) : MS unit :=
  _ ← lift os_call;
  modify (λ st, mkStream (St_World st) (St_Sent st ++ [m])).

Definition time_based : MS TURNConfig := deref (Config_TURNConfig (Srv_config s)).

Definition sendInitialSync (peerKey : Key) (peer : Peer) : MS unit :=
  networkMap ← lift (GetNetworkMap (Peer_Key peer));
  turnConfig ← time_based;
  turnCredentials ← (if TURN_TimeBasedCredentials turnConfig
                     then c ← lift (GenerateCredentials turnConfig); mret (Some c)
                     else mret None);
  plainResp ← toSyncResponse (Srv_config s) peer (NetworkMap_Peers networkMap) turnCredentials
                (CurrentSerial (NetworkMap_Network networkMap));
  encryptedResp ← lift (EncryptMessage peerKey (Srv_wgKey s) plainResp)
    or_err Status Internal "error handling request";
  srv_Send (mkEncryptedMessage (Key_String (PublicKey (Srv_wgKey s))) encryptedResp)
    or_err Status Internal "error handling request".

(** The key a failed [ParseKey] returns. *)
Definition zero_key : Key := replicate 32 0%Z.

(** [Sync] up to its loop: the key of the peer and the update channel. *)
Definition sync_start (req : EncryptedMessage) : MS (Key * nat) :=
  peerKey ← lift (of_result (ParseKey (EM_WgPubKey req)))
    or_err Status InvalidArgument ("provided wgPubKey " +:+ Key_String zero_key +:+ " is invalid");
  let pk := Key_String peerKey in
  peer ← lift (GetPeer pk)
    or_err Status PermissionDenied ("provided peer with the key wgPubKey " +:+ pk +:+ " is not registered");
  _ ← lift (DecryptMessage (A := SyncRequest) peerKey (Srv_wgKey s) (EM_Body req))
    or_err Status InvalidArgument "invalid request message";
  _ ← sendInitialSync peerKey peer;
  updates ← lift (CreateChannel pk);
  _ ← try (lift (MarkPeerConnected pk true));
  turnConfig ← time_based;
  _ ← (if TURN_TimeBasedCredentials turnConfig
       then _ ← lift (SetupRefresh pk); mret tt
       else mret tt);
  mret (peerKey, updates).

(** One turn of the loop on the update branch: [false] when the channel is
    closed. *)
Definition sync_update (peerKey : Key) (updates : nat) : MS bool :=
  update ← lift (chan_recv updates);
  match update with
  | None => mret false
  | Some u =>
      encryptedResp ← lift (EncryptMessage peerKey (Srv_wgKey s) u)
        or_err Status Internal "failed processing update message";
      _ ← srv_Send (mkEncryptedMessage (Key_String (PublicKey (Srv_wgKey s))) encryptedResp)
        or_err Status Internal "failed sending update message";
      mret true
  end.

(** The branch of a terminated connection. *)
Definition sync_done (peerKey : Key) : MS unit :=
  let pk := Key_String peerKey in
  _ ← lift (CloseChannel pk);
  _ ← lift (CancelRefresh pk);
  _ ← try (lift (MarkPeerConnected pk false));
  mret tt.
End stream.

(* ------------------------------------------------------------------ *)
(** ** Specifications *)

(** Running a call of the service in a stream. *)
Lemma wp_lift {A} (m : MW A) (Q : Res A → Stream → Prop) st :
  wp m (λ r w, Q r (mkStream w (St_Sent st))) (St_World st) → wp (lift m) Q st.
Proof. unfold wp, lift. by destruct (m (St_World st)). Qed.

(** Protocols and pointers of the configuration the messages are built from. *)
Definition config_ok (config : Config) : Prop :=
  (∀ h, h ∈ Config_Stuns config → known_protocol (Host_Proto h)) ∧
  (∃ t, Config_TURNConfig config = Some t ∧ ∀ h, h ∈ TURN_Turns t → known_protocol (Host_Proto h)) ∧
  (∃ h, Config_Signal config = Some h ∧ known_protocol (Host_Proto h)).

Lemma toWiretrusteeConfig_spec {W} config creds (w : W) :
  wp (toWiretrusteeConfig config creds) (λ r w', w' = w ∧
    match r with Ok _ => True | Panic _ => ¬ config_ok config | _ => False end) w.
Proof.
  unfold toWiretrusteeConfig. wp_step. eapply wp_mono.
  { apply (wp_map_each (λ _ _, True) (λ h _, ¬ known_protocol (Host_Proto h))).
    intros h _. wp_step. eapply wp_mono; [apply ToResponseProto_spec|].
    intros [pr|e|s|] w' [-> Hr]; simpl; try done. by destruct Hr. }
  intros [stuns|e|s|] w1 [-> Hr]; simpl; try done.
  2:{ split; [done|]. destruct Hr as (h & Hh & Hn). intros (Hs & _). by apply Hn, Hs. }
  wp_step. wp_step; [|split; [done|]; intros (_ & (t & Ht & _) & _); congruence]. simpl.
  rename a into t. wp_step. eapply wp_mono.
  { apply (wp_map_each (λ _ _, True) (λ h _, ¬ known_protocol (Host_Proto h))).
    intros h _. destruct creds; simpl; wp_step; (eapply wp_mono; [apply ToResponseProto_spec|]);
      intros [pr|e|s|] w' [-> Hr']; simpl; try done; by destruct Hr'. }
  intros [turns|e|s|] w1 [-> Hr2]; simpl; try done.
  2:{ split; [done|]. destruct Hr2 as (h & Hh & Hn). intros (_ & (t' & Ht' & Hk) & _).
      apply Hn, Hk. congruence. }
  wp_step. wp_step; [|split; [done|]; intros (_ & _ & (h & Hh & _)); congruence]. simpl.
  wp_step. eapply wp_mono; [apply ToResponseProto_spec|].
  intros [pr|e|s|] w1 [-> Hr3]; simpl; try done. split; [done|].
  intros (_ & _ & (h & Hh & Hk)). destruct Hr3 as [Hn _]. apply Hn. congruence.
Qed.

(** The message is about the peer it is built for. *)
Lemma toSyncResponse_spec {W} config peer peers creds serial (w : W) :
  wp (toSyncResponse config peer peers creds serial) (λ r w', w' = w ∧
    match r with
    | Ok u => SR_PeerConfig u = Some (toPeerConfig peer) ∧ SR_RemotePeers u = toRemotePeerConfig peers ∧
        ∃ nm, SR_NetworkMap u = Some nm ∧ PbNM_Serial nm = serial ∧
          PbNM_PeerConfig nm = Some (toPeerConfig peer) ∧ PbNM_RemotePeers nm = toRemotePeerConfig peers
    | Panic _ => ¬ config_ok config
    | _ => False
    end) w.
Proof.
  unfold toSyncResponse. wp_step. eapply wp_mono; [apply toWiretrusteeConfig_spec|].
  intros [c|e|s|] w1 [-> Hr]; simpl; try done. wp_step. split; [done|]. split; [done|].
  split; [done|]. eexists. done.
Qed.

Section login_spec.
Context `{Runtime} `{TurnHash} `{Crypto} `{JwtLib} `{Wires}.
Context (s : Server).

(** Telling the peers of a map changes the channels only. *)
Lemma notify_all_spec peer nm l w :
  upd_wf (World_Upd w) →
  wp (for_each l (λ remotePeer,
        update ← toSyncResponse (Srv_config s) peer
                   (peers_to_send peer remotePeer (NetworkMap_Peers nm)) None
                   (CurrentSerial (NetworkMap_Network nm));
        SendUpdate (Peer_Key remotePeer) update)) (λ r w',
    only_upd w w' ∧ upd_wf (World_Upd w') ∧
    match r with Err _ => False | Panic _ => ¬ config_ok (Srv_config s) | _ => True end) w.
Proof.
  intros Hwf. apply (wp_for_each (λ _ w', only_upd w w' ∧ upd_wf (World_Upd w'))).
  - by split.
  - intros x l' w1 [Ho1 Hwf1] _. wp_step. eapply wp_mono; [apply toSyncResponse_spec|].
    intros [u|e|m|] w2 [-> Hr]; simpl; try done.
    eapply wp_mono; [by apply SendUpdate_spec|]. intros r w3 (Hwf3 & Ho3 & _ & Hq).
    assert (only_upd w w3) as Ho by (destruct Ho1 as (?&?&?&?), Ho3 as (?&?&?&?); repeat split; congruence).
    destruct (queues (World_Upd w1) !! Peer_Key x); [case_decide|]; destruct Hq as [-> _]; simpl; done.
  - intros w1 [Ho1 Hwf1]. done.
Qed.

Lemma registered_peer_stored k u peer o a a' p w0 w :
  registered k u peer o a a' p → saved a' w0 w → covered (Account_Id a') a' (World_Store w) →
  stored_peer (Peer_Key peer) (Account_Id a') p (World_Store w).
Proof.
  intros Hreg Hs Hc. assert (Account_Peers a' !! Peer_Key peer = Some p) as Hp
    by (rewrite (rg_peers _ _ _ _ _ _ _ Hreg); apply lookup_insert_eq).
  split.
  - destruct (rg_peer _ _ _ _ _ _ _ Hreg) as (<- & _). by apply (cv_peers _ _ _ Hc _ _ Hp).
  - rewrite (ex_accounts _ _ _ _ _ Hs), lookup_insert_eq. exact Hp.
Qed.

Lemma registerPeer_spec pk req w :
  well_keyed (World_Store w) → networks_ok (World_Store w) → upd_wf (World_Upd w) →
  LR_JwtToken req = "" →
  wp (registerPeer s pk req) (λ r w',
    match r with
    | Ok p => ∃ id, stored_peer pk id p (World_Store w')
    | _ => True
    end) w.
Proof.
  intros Hk Hn Hwf Hjwt. unfold registerPeer, registration_credentials.
  rewrite decide_False by (intros Hx; by apply Hx). wp_step. wp_step. wp_step.
  wp_step; [|done]. simpl. rename a into meta. wp_step. wp_step.
  eapply wp_mono; [by apply AddPeer_spec|]. intros [p|e|m|] w1 Hr; simpl; try done.
  destruct Hr as (a & o & a' & w0 & Hs & Hel & Hreg & Hsv & Hcov & _).
  assert (stored_peer pk (Account_Id a') p (World_Store w1)) as Hst
    by exact (registered_peer_stored _ _ _ _ _ _ _ _ _ Hreg Hsv Hcov).
  assert (well_keyed (World_Store w1)) as Hk1
    by (eapply saved_well_keyed; [exact Hsv|by rewrite (same_state_store _ _ Hs)]).
  assert (World_Upd w1 = World_Upd w) as Eu.
  { destruct (ex_rest _ _ _ _ _ Hsv) as (-> & _). by destruct Hs as (_ & _ & -> & _). }
  wp_step. wp_step. eapply wp_mono; [by apply GetNetworkMap_spec|].
  intros [nm|e|m|] w2 [Hs2 _]; simpl; try done. wp_step.
  eapply wp_mono; [apply notify_all_spec; by rewrite (proj1 (proj2 (proj2 Hs2))), Eu|].
  intros [[]|e|m|] w3 (Ho & _ & Hr3); simpl; try done. wp_step. exists (Account_Id a').
  destruct Ho as [-> _]. by rewrite (same_state_store _ _ Hs2).
Qed.

(** The beginning of a call with a sealed request. *)
Lemma open_request_spec {A B} `{Wire A} peerKey body (req : A) e (k : A → MW B) Q w w0 :
  DecryptMessage peerKey (Srv_wgKey s) body w = (Ok req, w0) → same_state w w0 ∧ wp (k req) Q w0 →
  wp (r ← DecryptMessage (A := A) peerKey (Srv_wgKey s) body or_err e; k r) Q w.
Proof. intros Hrun [_ Hk]. wp_step. wp_step. unfold wp. by rewrite Hrun. Qed.
End login_spec.

(* ------------------------------------------------------------------ *)
(** ** Properties *)

Section login_props.
Context `{Runtime} `{TurnHash} `{Crypto} `{JwtLib} `{Wires}.

(** The opened request of a login. *)
Definition opens (s : Server) (req : EncryptedMessage) (key : Key) (loginReq : LoginRequest) (w : World) : Prop :=
  ParseKey (EM_WgPubKey req) = inr key ∧
  (DecryptMessage (A := LoginRequest) key (Srv_wgKey s) (EM_Body req) w).1 = Ok loginReq.

(** [Login] after the request has been opened. *)
Lemma Login_opened s req key loginReq w Q :
  opens s req key loginReq w →
  (∀ w0, same_state w w0 →
     wp (r ← try (GetPeer (Key_String key));
         peer ←
           match r with
           | inl err =>
               if decide (from_error (Some err) = (NotFound, true)) then
                 if decide (LR_JwtToken loginReq = "" ∧ LR_SetupKey loginReq = "") then
                   fail (Status PermissionDenied ("provided peer with the key wgPubKey " +:+ Key_String key
                     +:+ " is not registered and no setup key or jwt was provided"))
                 else registerPeer s (Key_String key) loginReq
               else fail (Status Internal "internal server error")
           | inr peer =>
               match LR_Meta loginReq with
               | Some meta =>
                   _ ← UpdatePeerMeta (Key_String key) (meta_of_pb meta)
                     or_err Status Internal "internal server error";
                   mret peer
               | None => mret peer
               end
           end;
         wtConfig ← toWiretrusteeConfig (Srv_config s) None;
         encryptedResp ← EncryptMessage key (Srv_wgKey s)
             (mkLoginResponse (Some wtConfig) (Some (toPeerConfig peer)))
           or_err Status Internal "failed logging in peer";
         mret (mkEncryptedMessage (Key_String (PublicKey (Srv_wgKey s))) encryptedResp)) Q w0) →
  wp (Login s req) Q w.
Proof.
  intros [Hkey Hdec] HQ. unfold Login. rewrite Hkey. wp_step. wp_step. unfold of_result. wp_step.
  wp_step. wp_step.
  destruct (DecryptMessage (A := LoginRequest) key (Srv_wgKey s) (EM_Body req) w) as [r w0] eqn:Hrun.
  simpl in Hdec. subst r.
  pose proof (DecryptMessage_run (A := LoginRequest) key (Srv_wgKey s) (EM_Body req) w) as Hd.
  apply (wp_run _ _ _ _ _ Hrun) in Hd as [Hs _]. unfold wp. rewrite Hrun. simpl. by apply HQ.
Qed.

(** A peer is registered. *)
Definition is_registered (pk : string) (s : FileStore) : Prop := ∃ id p, stored_peer pk id p s.

Lemma UpdatePeerMeta_stored pk meta id p w :
  well_keyed (World_Store w) → (∀ id a, Accounts (World_Store w) !! id = Some a → peers_keyed a) →
  stored_peer pk id p (World_Store w) →
  wp (UpdatePeerMeta pk meta) (λ r w', r = Ok tt →
    ∃ p', stored_peer pk id p' (World_Store w') ∧ Peer_IP p' = Peer_IP p) w.
Proof.
  intros Hk Hpk Hst. unfold UpdatePeerMeta. eapply peer_lookup_spec; [done|].
  eapply account_lookup_spec; [done..|]. intros a Ha Hid. rewrite Hid.
  assert (Peer_Key p = pk) as Hkey.
  { destruct Hst as [_ (a' & Ha' & Hp)%bind_Some]. by apply (Hpk id a' Ha'). }
  eapply wp_mono; [apply SavePeer_saved|]. intros r w1 Hr ->.
  match type of Hr with peer_saved _ ?p' _ _ => exists p'; rewrite <-Hkey;
    split; [apply (peer_saved_stored id p' _ _ Hr)|done] end. simpl. rewrite Hkey. apply Hst.
Qed.

(** The answer to a login of the owner of [key], with the address of [p]. *)
Definition login_answer (s : Server) (key : Key) (p : Peer) (em : EncryptedMessage) : Prop :=
  ∃ wc t n plain, rand_Read t = inr n ∧
    pb_Marshal (mkLoginResponse (Some wc) (Some (toPeerConfig p))) = inr plain ∧
    em = mkEncryptedMessage (Key_String (PublicKey (Srv_wgKey s))) (n ++ box_Seal plain n key (Srv_wgKey s)).
End login_props.

(** Login with a setup key, or of a registered peer: the answer tells the
    address that is stored for the peer. *)
Lemma Login_registers_spec `{Runtime} `{Crypto} `{JwtLib} `{Wires} s req key loginReq w :
  well_keyed (World_Store w) → networks_ok (World_Store w) → upd_wf (World_Upd w) →
  (∀ id a, Accounts (World_Store w) !! id = Some a → peers_keyed a) →
  opens s req key loginReq w → LR_JwtToken loginReq = "" →
  wp (Login s req) (λ r w', ∀ x, r = Ok x → ∃ id p,
    stored_peer (Key_String key) id p (World_Store w') ∧ login_answer s key p x) w.
Proof.
  intros Hk Hn Hwf Hpk Hop Hjwt.
  eapply Login_opened; [exact Hop|]. intros w0 Hs. pose proof (same_state_store _ _ Hs) as Es.
  rewrite <-Es in Hk, Hn, Hpk. rewrite <-(proj1 (proj2 (proj2 Hs))) in Hwf.
  assert (∀ (p p' : Peer) id w1, stored_peer (Key_String key) id p' (World_Store w1) → Peer_IP p' = Peer_IP p →
    wp (wtConfig ← toWiretrusteeConfig (Srv_config s) None;
        encryptedResp ← EncryptMessage key (Srv_wgKey s)
            (mkLoginResponse (Some wtConfig) (Some (toPeerConfig p)))
          or_err Status Internal "failed logging in peer";
        mret (mkEncryptedMessage (Key_String (PublicKey (Srv_wgKey s))) encryptedResp))
      (λ r w', ∀ x, r = Ok x → ∃ id p,
        stored_peer (Key_String key) id p (World_Store w') ∧ login_answer s key p x) w1) as Htail.
  { intros p p' id w1 Hst Hip. wp_step. eapply wp_mono; [apply toWiretrusteeConfig_spec|].
    intros [c|e|m|] w2 [-> _]; simpl; try done. wp_step. wp_step.
    eapply wp_mono; [apply EncryptMessage_run|]. intros [b|e|m|] w3 [Hs3 Hb]; simpl; try done.
    wp_step. intros x [= <-]. exists id, p'. rewrite (same_state_store _ _ Hs3). split; [done|].
    destruct Hb as (t & n & plain & Ht & Hm & ->). exists c, t, n, plain. split; [done|].
    unfold toPeerConfig in *. by rewrite Hip. }
  wp_step. wp_step. unfold GetPeer. apply Store_GetPeer_spec; simpl.
  - intros id a p Hid Ha Hp.
    assert (stored_peer (Key_String key) id p (World_Store w0)) as Hst by (split; [done|by rewrite Ha]).
    wp_step. destruct (LR_Meta loginReq); [|wp_step; by eapply Htail].
    wp_step. wp_step. eapply wp_mono; [by apply UpdatePeerMeta_stored|].
    intros [[]|e|m|] w2 Hr; simpl; try done. wp_step.
    destruct (Hr eq_refl) as (p' & Hst' & Hip). by eapply Htail.
  - intros _ m. wp_step. case_decide; [by wp_step|].
    eapply wp_mono; [by apply registerPeer_spec|]. intros [p|e|m'|] w2 Hr; simpl; try done.
    destruct Hr as [id Hr]. by eapply Htail.
Qed.

(** A login that succeeds leaves the peer registered: whoever presents a
    readable login request without token and gets an answer is a peer of some
    account, found by its key, whether it was before or was registered with
    its setup key. *)
Theorem Login_registers `{Runtime} `{Crypto} `{JwtLib} `{Wires} s req key loginReq resp w w' :
  well_keyed (World_Store w) → networks_ok (World_Store w) → upd_wf (World_Upd w) →
  (∀ id a, Accounts (World_Store w) !! id = Some a → peers_keyed a) →
  opens s req key loginReq w → LR_JwtToken loginReq = "" →
  Login s req w = (Ok resp, w') → is_registered (Key_String key) (World_Store w').
Proof.
  intros Hk Hn Hwf Hpk Hop Hjwt Hrun.
  pose proof (Login_registers_spec s req key loginReq w Hk Hn Hwf Hpk Hop Hjwt) as Hw.
  apply (wp_run _ _ _ _ _ Hrun) in Hw. destruct (Hw _ eq_refl) as (id & p & Hst & _). by exists id, p.
Qed.

(** A peer that is not registered and presents neither a setup key nor a
    token is turned away with the permission-denied status, and nothing
    changes. *)
Theorem Login_denied `{Runtime} `{Crypto} `{JwtLib} `{Wires} s req key loginReq w :
  opens s req key loginReq w → LR_JwtToken loginReq = "" → LR_SetupKey loginReq = "" →
  (a ← peer_account (Key_String key) (World_Store w); Account_Peers a !! Key_String key) = None →
  wp (Login s req) (λ r w', same_state w w' ∧ ∃ m, r = Err (Status PermissionDenied m)) w.
Proof.
  intros Hop Hjwt Hsk Hnone. eapply Login_opened; [exact Hop|]. intros w0 Hs.
  pose proof (same_state_store _ _ Hs) as Es. wp_step. wp_step. unfold GetPeer.
  apply Store_GetPeer_spec; simpl; rewrite Es.
  - intros id a p Hid Ha Hp. exfalso. unfold peer_account, via_index in Hnone.
    rewrite Hid in Hnone. simpl in Hnone. rewrite Ha in Hnone. simpl in Hnone. congruence.
  - intros _ m. wp_step. case_decide as Hd; [|by destruct Hd]. wp_step. split; [done|]. by eexists.
Qed.

(** One short message stops the service: a login request whose body is
    shorter than 24 bytes makes [Login] panic, for any well-formed key,
    registered or not. *)
Theorem Login_short_body_panics `{Runtime} `{Crypto} `{JwtLib} `{Wires} s req key n w :
  ParseKey (EM_WgPubKey req) = inr key → rand_Read (World_Tick w) = inr n →
  length (EM_Body req) < 24 →
  wp (Login s req) (λ r _, ∃ m, r = Panic m) w.
Proof.
  intros Hkey Hrand Hlen. unfold Login. rewrite Hkey. wp_step. wp_step. unfold of_result. wp_step.
  wp_step. wp_step. unfold DecryptMessage, Decrypt. wp_step. wp_step.
  unfold genNonce, wp. rewrite Hrand. simpl. rewrite decide_True by done. simpl. by eexists.
Qed.

(** Concrete encodings: a login request is its setup key, every answer is
    empty. *)
Definition demo_pb_meta : PbPeerSystemMeta := mkPbMeta "host" "linux" "k" "c" "p" "o" "v" "".
Definition demo_wires : Wires := {|
  wire_login_request := {| pb_Marshal m := inr (string_bytes (LR_SetupKey m));
                           pb_Unmarshal b := inr (mkLoginRequest (bytes_string b) (Some demo_pb_meta) "") |};
  wire_login_response := {| pb_Marshal _ := inr []; pb_Unmarshal _ := inr (mkLoginResponse None None) |};
  wire_sync_request := {| pb_Marshal _ := inr []; pb_Unmarshal _ := inr mkSyncRequest |};
  wire_sync_response := {| pb_Marshal _ := inr []; pb_Unmarshal _ := inr (peers_update 0 []) |};
  wire_flow_request := {| pb_Marshal _ := inr []; pb_Unmarshal _ := inr mkFlowRequest |};
  wire_flow := {| pb_Marshal _ := inr []; pb_Unmarshal _ := inr (mkPbFlow 0 (mkProviderConfig "" "" "" "")) |}
|}.
Definition demo_config : Config :=
  mkConfig [mkHost "udp" "stun:example.com" "" ""] (Some demo_turn)
    (Some (mkHost "https" "signal.example.com" "" "")) "/var/lib/netbird/" None None None.
Definition demo_server : Server := mkServer [9]%Z demo_config None.

(** A request of the peer [pk] with the setup key [sk]. *)
Definition demo_login (pk sk : string) : EncryptedMessage :=
  mkEncryptedMessage pk (replicate 24 0%Z ++ [9]%Z ++ string_bytes pk ++ string_bytes sk).
Definition run_login (req : EncryptedMessage) (w : World) : Res EncryptedMessage * World :=
  @Login demo_runtime demo_crypto demo_jwt_lib demo_wires demo_server req w.

Lemma shop_upd_wf : upd_wf (World_Upd shop_world).
Proof. assert (World_Upd shop_world = mkUpd ∅ 0 ∅) as -> by (vm_compute; reflexivity). apply emptyUpd_wf. Defined.

Lemma shop_peers_keyed id a : Accounts (World_Store shop_world) !! id = Some a → peers_keyed a.
Proof.
  rewrite shop_world_accounts. intros [<- <-]%lookup_singleton_Some i p.
  intros [<- <-]%(lookup_singleton_Some "p" i (demo_peer "p" 1) p). reflexivity.
Defined.

Lemma Login_registers_witness :
  ∃ resp w', run_login (demo_login "x" "k") shop_world = (Ok resp, w') ∧
    is_registered "x" (World_Store w').
Proof.
  pose (w' := snd (run_login (demo_login "x" "k") shop_world)).
  assert (∃ resp, run_login (demo_login "x" "k") shop_world = (Ok resp, w')) as [resp Hrun]
    by (eexists; vm_compute; reflexivity).
  exists resp, w'. split; [exact Hrun|].
  assert (@opens demo_crypto demo_wires demo_server (demo_login "x" "k") [120]%Z
    (mkLoginRequest "k" (Some demo_pb_meta) "") shop_world) as Hop
    by (split; vm_compute; reflexivity).
  exact (@Login_registers demo_runtime demo_crypto demo_jwt_lib demo_wires demo_server
    (demo_login "x" "k") [120]%Z (mkLoginRequest "k" (Some demo_pb_meta) "") resp shop_world w'
    shop_well_keyed shop_networks_ok shop_upd_wf shop_peers_keyed
    Hop eq_refl Hrun).
Defined.

Lemma Login_denied_witness :
  ∃ m, (run_login (demo_login "x" "") shop_world).1 = Err (Status PermissionDenied m).
Proof.
  assert (@opens demo_crypto demo_wires demo_server (demo_login "x" "") [120]%Z
    (mkLoginRequest "" (Some demo_pb_meta) "") shop_world) as Hop
    by (split; vm_compute; reflexivity).
  exact (proj2 (@Login_denied demo_runtime demo_crypto demo_jwt_lib demo_wires demo_server
    (demo_login "x" "") [120]%Z (mkLoginRequest "" (Some demo_pb_meta) "") shop_world
    Hop eq_refl eq_refl ltac:(vm_compute; reflexivity))).
Defined.

Lemma Login_short_body_panics_witness :
  ∃ m, (run_login (mkEncryptedMessage "anybody" [1; 2; 3]%Z) shop_world).1 = Panic m.
Proof.
  exact (@Login_short_body_panics demo_runtime demo_crypto demo_jwt_lib demo_wires demo_server
    (mkEncryptedMessage "anybody" [1; 2; 3]%Z) _ _ shop_world eq_refl eq_refl ltac:(simpl; lia)).
Defined.

(** A pending message for [k] that carries the interface address of [peer]. *)
Definition told_address_of (peer : Peer) (k : string) (w : World) : Prop :=
  ∃ q u, queues (World_Upd w) !! k = Some q ∧ u ∈ q ∧ SR_PeerConfig u = Some (toPeerConfig peer).

Section notify.
Context (s : Server).

Lemma SendUpdate_told peer k u w :
  upd_wf (World_Upd w) →
  wp (SendUpdate k u) (λ r w', r = Ok tt → upd_wf (World_Upd w') ∧
    (∀ j, is_Some (queues (World_Upd w) !! j) → is_Some (queues (World_Upd w') !! j)) ∧
    (∀ j, told_address_of peer j w → told_address_of peer j w') ∧
    (is_Some (queues (World_Upd w) !! k) → SR_PeerConfig u = Some (toPeerConfig peer) →
       told_address_of peer k w')) w.
Proof.
  intros Hwf. eapply wp_mono; [by apply SendUpdate_spec|]. intros r w1 (Hwf1 & _ & _ & Hq) ->.
  split; [done|]. destruct (queues (World_Upd w) !! k) as [q|] eqn:Hk.
  2:{ destruct Hq as [_ ->]. split; [done|]. split; [done|]. by intros []. }
  case_decide; destruct Hq as [Hr Hq]; [|done]. unfold told_address_of. rewrite Hq. split.
  { intros j Hj. destruct (decide (j = k)) as [->|]; [rewrite lookup_insert_eq; by eexists|by rewrite lookup_insert_ne]. }
  split.
  - intros j (q' & u' & Hj & Hin & Hc). destruct (decide (j = k)) as [->|].
    + rewrite lookup_insert_eq. exists (q ++ [u]), u'. assert (q' = q) as -> by congruence.
      split; [done|]. split; [apply elem_of_app; by left|done].
    + exists q', u'. by rewrite lookup_insert_ne.
  - intros _ Hc. exists (q ++ [u]), u. rewrite lookup_insert_eq. split; [done|].
    split; [apply elem_of_app; right; by apply list_elem_of_singleton|done].
Qed.

Lemma notify_each_spec peer nm l w :
  upd_wf (World_Upd w) →
  wp (for_each l (λ remotePeer,
        update ← toSyncResponse (Srv_config s) peer
                   (peers_to_send peer remotePeer (NetworkMap_Peers nm)) None
                   (CurrentSerial (NetworkMap_Network nm));
        SendUpdate (Peer_Key remotePeer) update)) (λ r w', r = Ok tt →
    ∀ x, x ∈ l → is_Some (queues (World_Upd w) !! Peer_Key x) → told_address_of peer (Peer_Key x) w') w.
Proof.
  intros Hwf. apply (wp_for_each_all
    (λ w', upd_wf (World_Upd w') ∧
       ∀ j, is_Some (queues (World_Upd w) !! j) → is_Some (queues (World_Upd w') !! j))
    (λ x w', is_Some (queues (World_Upd w) !! Peer_Key x) → told_address_of peer (Peer_Key x) w')).
  - by split.
  - intros x w1 _ [Hwf1 Hdom]. wp_step. eapply wp_mono; [apply toSyncResponse_spec|].
    intros [u|e|m|] w2 [-> Hu]; simpl; try done. destruct Hu as [Hc _].
    eapply wp_mono; [by apply (SendUpdate_told peer)|]. intros [[]|e|m|] w3 Hr; try done. destruct (Hr eq_refl) as (Hwf3 & Hdom3 & Hkeep & Htold).
    split; [split; [done|]; intros j Hj; by apply Hdom3, Hdom|].
    split; [intros Hx; apply Htold; [by apply Hdom|done]|].
    intros y _ Hy Hs. by apply Hkeep, Hy.
  - intros w1 _ Hall _. exact Hall.
Qed.
End notify.

(** When a peer registers with a setup key, every connected peer of its
    network map is sent an update whose own-peer configuration is the
    newcomer's: its receivers are handed the newcomer's address as their own.
    The list of remote peers in it starts with the newcomer and goes on with
    the newcomer's map, not the receiver's. *)
Theorem registration_update_misaddressed `{Runtime} `{Crypto} `{JwtLib} `{Wires} s pk req p w w' :
  well_keyed (World_Store w) → networks_ok (World_Store w) → upd_wf (World_Upd w) →
  LR_JwtToken req = "" → registerPeer s pk req w = (Ok p, w') →
  ∃ nm w1 w2, GetNetworkMap (Peer_Key p) w1 = (Ok nm, w2) ∧ World_Store w1 = World_Store w' ∧
    ∀ x, x ∈ NetworkMap_Peers nm → is_Some (queues (World_Upd w) !! Peer_Key x) →
      told_address_of p (Peer_Key x) w'.
Proof.
  intros Hk Hn Hwf Hjwt Hrun.
  assert (wp (registerPeer s pk req) (λ r w', ∀ p, r = Ok p →
    ∃ nm w1 w2, GetNetworkMap (Peer_Key p) w1 = (Ok nm, w2) ∧ World_Store w1 = World_Store w' ∧
      ∀ x, x ∈ NetworkMap_Peers nm → is_Some (queues (World_Upd w) !! Peer_Key x) →
        told_address_of p (Peer_Key x) w') w) as Hw; [|apply (wp_run _ _ _ _ _ Hrun) in Hw; by apply Hw].
  unfold registerPeer, registration_credentials.
  rewrite decide_False by (intros Hx; by apply Hx). wp_step. wp_step. wp_step.
  wp_step; [|done]. simpl. wp_step. wp_step.
  eapply wp_mono; [by apply AddPeer_spec|]. intros [p'|e|m|] w1 Hr; simpl; try done.
  destruct Hr as (a' & o & a2 & w0 & Hs & _ & _ & Hsv & _).
  assert (well_keyed (World_Store w1)) as Hk1
    by (eapply saved_well_keyed; [exact Hsv|by rewrite (same_state_store _ _ Hs)]).
  assert (World_Upd w1 = World_Upd w) as Eu.
  { destruct (ex_rest _ _ _ _ _ Hsv) as (-> & _). by destruct Hs as (_ & _ & -> & _). }
  wp_step. wp_step. pose proof (GetNetworkMap_spec (Peer_Key p') w1 Hk1) as Hnm.
  assert (∃ r w2, GetNetworkMap (Peer_Key p') w1 = (r, w2)) as (r & w2 & Hmap)
    by (eexists _, _; apply surjective_pairing).
  apply (wp_run _ _ _ _ _ Hmap) in Hnm. destruct Hnm as [Hs2 Hres]. clear Hres. unfold wp at 1. rewrite Hmap. simpl.
  destruct r as [nm|e|m|]; simpl; try done.
  assert (World_Upd w2 = World_Upd w) as Eu2 by (destruct Hs2 as (_ & _ & -> & _); done).
  wp_step. rewrite <-Eu2 in Hwf |- *.
  eapply wp_mono; [apply wp_and; [by apply (notify_all_spec s p' nm)|by apply (notify_each_spec s p' nm)]|].
  intros r w3 [(Ho & _ & _) Htold]. destruct r as [[]|e|m|]; simpl; try done. wp_step.
  intros p2 [= <-]. exists nm, w1, w2. split; [done|].
  split; [destruct Ho as [-> _]; symmetry; by apply same_state_store|]. by apply Htold.
Qed.

(** [p] is connected; [x] registers with the key of the account. *)
Definition shop_busy : World := snd (CreateChannel "p" shop_world).
Definition key_request : LoginRequest := mkLoginRequest "k" (Some demo_pb_meta) "".
Definition run_register : Res Peer * World :=
  @registerPeer demo_runtime demo_jwt_lib demo_server "x" key_request shop_busy.

Lemma registration_update_misaddressed_witness :
  ∃ p w', run_register = (Ok p, w') ∧ Peer_IP p = [100; 64; 0; 3]%Z ∧
    ∃ nm w1 w2, @GetNetworkMap demo_runtime (Peer_Key p) w1 = (Ok nm, w2) ∧
      World_Store w1 = World_Store w' ∧
      ∀ x, x ∈ NetworkMap_Peers nm → is_Some (queues (World_Upd shop_busy) !! Peer_Key x) →
        told_address_of p (Peer_Key x) w'.
Proof.
  assert (World_Store shop_busy = World_Store shop_world) as Es by (vm_compute; reflexivity).
  assert (well_keyed (World_Store shop_busy)) as Hk by (rewrite Es; apply shop_well_keyed).
  assert (networks_ok (World_Store shop_busy)) as Hn by (rewrite Es; apply shop_networks_ok).
  assert (upd_wf (World_Upd shop_busy)) as Hwf.
  { pose proof (CreateChannel_spec "p" shop_world shop_upd_wf) as (c & _ & Hwf & _). exact Hwf. }
  assert (∃ p, run_register = (Ok p, snd run_register) ∧ Peer_IP p = [100; 64; 0; 3]%Z)
    as (p & Hrun & Hip) by (eexists; split; vm_compute; reflexivity).
  exists p, (snd run_register). split; [exact Hrun|]. split; [exact Hip|].
  exact (@registration_update_misaddressed demo_runtime demo_crypto demo_jwt_lib demo_wires demo_server "x"
    key_request p shop_busy (snd run_register) Hk Hn Hwf eq_refl Hrun).
Defined.

(* ------------------------------------------------------------------ *)
(** ** The stream *)

Section relay.
Context `{Runtime} `{Crypto} `{Wires}.

(** The loop of [Sync].  [select] says which branch each turn takes: the update
    channel, or the end of the connection with the error of its context. *)
Inductive selected := Updates | Done (err : error).
Fixpoint sync_loop (s : Server) (select : list selected) (peerKey : Key) (updates : nat) : MS unit :=
  match select with
  | [] => blocked
  | Updates :: select' =>
      more ← sync_update s peerKey updates;
      if (more : bool) then sync_loop s select' peerKey updates else mret tt
  | Done err :: _ =>
      _ ← sync_done peerKey;
      fail err
  end.

(** What the peer with private key [sk] receives for the update [u]. *)
Definition delivers (s : Server) (sk : Key) (u : SyncResponse) (em : EncryptedMessage) : Prop :=
  EM_WgPubKey em = Key_String (PublicKey (Srv_wgKey s)) ∧ sealed (Srv_wgKey s) sk u (EM_Body em).

Lemma srv_Send_spec m st :
  wp (srv_Send m) (λ r st', World_Upd (St_World st') = World_Upd (St_World st) ∧
    match r with
    | Ok _ => St_Sent st' = St_Sent st ++ [m]
    | Err _ => St_Sent st' = St_Sent st
    | _ => False
    end) st.
Proof.
  unfold srv_Send. wp_step. apply wp_lift, wp_os_call; intros; simpl; [wp_step|]; done.
Qed.

Lemma sync_update_spec s sk c ch st :
  Upd_Chans (World_Upd (St_World st)) !! c = Some ch →
  wp (sync_update s (PublicKey sk) c) (λ r st',
    match Chan_Buf ch with
    | [] => St_Sent st' = St_Sent st ∧ r = (if Chan_Closed ch then Ok false else Blocked)
    | u :: rest =>
        Upd_Chans (World_Upd (St_World st')) !! c = Some (mkChan rest (Chan_Closed ch)) ∧
        match r with
        | Ok more => more = true ∧ ∃ em, St_Sent st' = St_Sent st ++ [em] ∧ delivers s sk u em
        | Err e => St_Sent st' = St_Sent st ∧ ∃ m, e = Status Internal m
        | _ => False
        end
    end) st.
Proof.
  intros Hc. unfold sync_update, chan_recv, get_chan, put_chan. wp_step. apply wp_lift. do 2 wp_step.
  rewrite Hc. simpl. destruct (Chan_Buf ch) as [|u rest].
  { destruct (Chan_Closed ch); wp_step; [by wp_step|done]. }
  do 3 wp_step. simpl. wp_step. wp_step. apply wp_lift.
  eapply wp_mono; [apply EncryptMessage_run|]. intros [b|e|m|] w1 [Hs Hr]; simpl; try done.
  2:{ split; [by rewrite (proj1 (proj2 (proj2 Hs))); simpl; rewrite lookup_insert_eq|].
      split; [done|by eexists]. }
  assert (Upd_Chans (World_Upd w1) !! c = Some (mkChan rest (Chan_Closed ch))) as Hc1
    by (rewrite (proj1 (proj2 (proj2 Hs))); simpl; apply lookup_insert_eq).
  wp_step. wp_step. eapply wp_mono; [apply srv_Send_spec|].
  intros [[]|e|m|] st2 [Eu Hsent]; simpl in *; try done.
  - wp_step. rewrite Eu. split; [done|]. split; [done|]. eexists. split; [exact Hsent|].
    split; [done|]. exact Hr.
  - rewrite Eu. split; [done|]. split; [done|by eexists].
Qed.
End relay.

(** The managers are in order, and every stored peer has a status. *)
Definition stream_ready (w : World) : Prop :=
  upd_wf (World_Upd w) ∧ turn_wf (World_Turn w) ∧
  ∀ id a pk p, Accounts (World_Store w) !! id = Some a → Account_Peers a !! pk = Some p → is_Some (Peer_Status p).

Section stream_end.
Context `{Runtime} `{Crypto} `{Wires}.

Lemma ready_same w w' : same_state w w' → stream_ready w → stream_ready w'.
Proof. intros (Es & _ & Eu & Et & _). unfold stream_ready. by rewrite Es, Eu, Et. Qed.

Lemma sync_update_ready s key c st :
  stream_ready (St_World st) → wp (sync_update s key c) (λ _ st', stream_ready (St_World st')) st.
Proof.
  intros Hr. unfold sync_update, chan_recv, get_chan, put_chan. wp_step. apply wp_lift. do 2 wp_step.
  destruct (Upd_Chans (World_Upd (St_World st)) !! c) as [ch|] eqn:Hc; [|by wp_step].
  simpl. destruct (Chan_Buf ch) as [|u rest] eqn:Hb.
  { destruct (Chan_Closed ch); wp_step; [by wp_step|done]. }
  do 3 wp_step. simpl. wp_step. wp_step. apply wp_lift.
  match goal with |- wp _ _ ?w => assert (stream_ready w) as Hr0 end.
  { destruct Hr as (Hu & Ht & Hst). split; [|done]. simpl. apply set_chan_wf; [done|by eexists|]. simpl. intros q Hq.
    destruct (upd_open _ Hu _ _ Hq) as (buf & Hbuf & Hlen). rewrite Hc in Hbuf. injection Hbuf as ->. simpl in *.
    split; [done|]. subst buf. simpl in Hlen. lia. }
  eapply wp_mono; [apply EncryptMessage_run|]. intros r w1 [Hs _].
  pose proof (ready_same _ _ Hs Hr0) as Hr1. destruct r as [b|e|m|]; simpl; try done.
  wp_step. wp_step. unfold srv_Send. wp_step. apply wp_lift, wp_os_call; intros; simpl; [wp_step; by wp_step|done].
Qed.

Lemma MarkPeerConnected_returns pk connected w :
  (∀ id a k p, Accounts (World_Store w) !! id = Some a → Account_Peers a !! k = Some p → is_Some (Peer_Status p)) →
  wp (MarkPeerConnected pk connected) (λ r _, r = Ok tt ∨ ∃ e, r = Err e) w.
Proof.
  intros Hst. unfold MarkPeerConnected. wp_step. apply Store_GetPeer_spec; simpl; [|by intros; right; eexists].
  intros id a p _ Ha Hp. wp_step. apply GetPeerAccount_spec; simpl; [|by intros; right; eexists]. intros id' a' _ _.
  destruct (Hst id a pk p Ha Hp) as [status ->].
  wp_step. simpl. wp_step. wp_step. apply wp_time_Now. intros now n. simpl.
  wp_step. apply wp_modify. simpl. eapply wp_mono; [apply SavePeer_spec|].
  intros r w1 [[_ ?]|(? & ? & ? & _ & _ & _ & _ & _ & _ & _ & ?)]; auto.
Qed.

Lemma sync_done_returns key st :
  stream_ready (St_World st) → wp (sync_done key) (λ r st', r = Ok tt ∧ St_Sent st' = St_Sent st) st.
Proof.
  intros (Hu & Ht & Hst). unfold sync_done. wp_step. apply wp_lift. eapply wp_mono; [by apply CloseChannel_spec|].
  intros r w1 (-> & _ & (Es1 & _ & Et1 & _) & _). simpl. rewrite <-Et1 in Ht.
  wp_step. apply wp_lift. eapply wp_mono; [by apply cancel_spec|]. intros r w2 (-> & (Es2 & _) & _). simpl in *.
  wp_step. wp_step. apply wp_lift. simpl.
  eapply wp_mono; [apply MarkPeerConnected_returns; by rewrite Es2, Es1|].
  intros r w3 [->|[e ->]]; simpl; by wp_step.
Qed.
End stream_end.

(** C31: a stream relays in order and ends, however its two events come: once
    the update channel has been closed, the loop of [Sync] sends pending
    updates to the peer, sealed so that the peer recovers exactly them, in the
    order in which they were queued.  It returns without an error only when it
    has sent all of them; it ends before that only with an internal error (a
    message that could not be encrypted or sent) or, when the connection has
    ended, with the error of its context, after the updates that were taken
    before; and it waits only for an event that has not come. *)
Theorem stream_relays_in_order `{Runtime} `{CryptoLaws} `{Wires} `{!WireLaws SyncResponse}
    s sk c buf st select :
  stream_ready (St_World st) → Upd_Chans (World_Upd (St_World st)) !! c = Some (mkChan buf true) →
  wp (sync_loop s select (PublicKey sk) c) (λ r st', ∃ sent pending,
    St_Sent st' = St_Sent st ++ sent ∧ prefix pending buf ∧
    Forall2 (λ u em, EM_WgPubKey em = Key_String (PublicKey (Srv_wgKey s)) ∧
               opens_to (Srv_wgKey s) sk u (EM_Body em)) pending sent ∧
    (r = Ok tt ∧ pending = buf ∨ (∃ m, r = Err (Status Internal m)) ∨
     (∃ e, r = Err e ∧ prefix (replicate (length pending) Updates ++ [Done e]) select) ∨
     r = Blocked ∧ select = replicate (length pending) Updates)) st.
Proof.
  revert buf st. induction select as [|[|e] select IH]; intros buf st Hready Hc; simpl.
  - wp_step. exists [], []. rewrite app_nil_r. split; [done|]. split; [apply prefix_nil|]. split; [constructor|]. by do 3 right.
  - wp_step. eapply wp_mono; [apply wp_and; [by apply sync_update_spec|by apply sync_update_ready]|].
    simpl. intros r st1 [Hr Hready1]. destruct buf as [|u buf].
    + destruct Hr as [Hsent ->]. simpl. wp_step. exists [], []. rewrite Hsent, app_nil_r.
      split; [done|]. split; [done|]. split; [constructor|by left].
    + destruct Hr as [Hc1 Hr]. destruct r as [more|e|m|]; simpl; try done.
      2:{ destruct Hr as [Hsent [m ->]]. exists [], []. rewrite Hsent, app_nil_r.
          split; [done|]. split; [apply prefix_nil|]. split; [constructor|]. right. left. by eexists. }
      destruct Hr as [-> (em & Hsent & Hkey & Hsealed)].
      eapply wp_mono; [by apply (IH buf st1 Hready1 Hc1)|].
      intros r2 st2 (sent & pending & Hsent2 & Hpre & Hall & Hend).
      exists (em :: sent), (u :: pending). split; [by rewrite Hsent2, Hsent, <-app_assoc|].
      split; [by apply prefix_cons|]. split; [constructor; [|done]; split; [done|by apply sealed_opens]|]. simpl.
      destruct Hend as [[-> ->]|[?|[(e & -> & Hp)|[-> ->]]]]; [by left|by right; left| |by do 3 right].
      right. right. left. exists e. split; [done|]. by apply prefix_cons.
  - wp_step. eapply wp_mono; [by apply sync_done_returns|]. intros r st1 [-> Hsent]. simpl. wp_step.
    exists [], []. rewrite Hsent, app_nil_r. split; [done|]. split; [apply prefix_nil|]. split; [constructor|].
    right. right. left. exists e. split; [done|]. simpl. by apply prefix_cons, prefix_nil.
Qed.

(** An encoding that knows one update. *)
Definition one_update : SyncResponse := peers_update 0 [].
Definition relay_wires : Wires := {|
  wire_login_request := @wire_login_request demo_wires;
  wire_login_response := @wire_login_response demo_wires;
  wire_sync_request := @wire_sync_request demo_wires;
  wire_sync_response := {| pb_Marshal u := if decide (u = one_update) then inr [] else inl (Plain "unknown");
                           pb_Unmarshal _ := inr one_update |};
  wire_flow_request := @wire_flow_request demo_wires;
  wire_flow := @wire_flow demo_wires |}.
Lemma relay_wire_laws : @WireLaws SyncResponse (@wire_sync_response relay_wires).
Proof. split. intros m b. simpl. case_decide; [|done]. by intros [= <-]; subst. Defined.

(** One update pending, the channel closed. *)
Definition relay_stream : Stream :=
  mkStream (set_Upd (mkUpd {[0 := mkChan [one_update] true]} 1 ∅) emptyWorld) [].

Lemma relay_ready : stream_ready (St_World relay_stream).
Proof.
  split; [|split].
  - split; simpl; intros *; [by rewrite lookup_empty..|]. intros [ch [<- _]%lookup_singleton_Some]. lia.
  - apply emptyTurn_wf.
  - intros *. simpl. by rewrite lookup_empty.
Defined.

Lemma stream_relays_in_order_witness :
  ∃ em st', @sync_loop demo_runtime demo_crypto relay_wires demo_server [Updates; Updates] [7]%Z 0 relay_stream = (Ok tt, st') ∧
    St_Sent st' = [em] ∧ (@opens_to demo_crypto _ (@wire_sync_response relay_wires) [9]%Z [7]%Z one_update (EM_Body em)).
Proof.
  pose (st' := snd (@sync_loop demo_runtime demo_crypto relay_wires demo_server [Updates; Updates] [7]%Z 0 relay_stream)).
  assert (@sync_loop demo_runtime demo_crypto relay_wires demo_server [Updates; Updates] [7]%Z 0 relay_stream = (Ok tt, st'))
    as Hrun by (vm_compute; reflexivity).
  pose proof (@stream_relays_in_order demo_runtime demo_crypto demo_crypto_laws relay_wires relay_wire_laws
    demo_server [7]%Z 0 [one_update] relay_stream [Updates; Updates] relay_ready ltac:(vm_compute; reflexivity)) as Hw.
  apply (wp_run _ _ _ _ _ Hrun) in Hw as (sent & pending & Hsent & _ & Hall & [[_ ->]|[[m Hm]|[(e & Hm & _)|[Hm _]]]]);
    [|discriminate Hm..].
  inversion Hall as [|u em us ems [_ Hop] Hnil]; subst. inversion Hnil; subst.
  exists em, st'. split; [exact Hrun|]. split; [exact Hsent|exact Hop].
Defined.

(** A stream whose connection ends closes whatever channel its peer has
    at that moment, and marks the peer as disconnected.  Nothing ties the
    channel to the stream: when the peer has reconnected in between, it is
    the channel of the new stream that is closed, its credentials refresh that
    is cancelled, and the connected peer that is reported as disconnected. *)
Theorem stream_end_closes_current `{Runtime} `{Crypto} key c id p st :
  well_keyed (World_Store (St_World st)) → upd_wf (World_Upd (St_World st)) →
  turn_wf (World_Turn (St_World st)) →
  Upd_PeerChannels (World_Upd (St_World st)) !! Key_String key = Some c →
  stored_peer (Key_String key) id p (World_Store (St_World st)) → Peer_Key p = Key_String key →
  is_Some (Peer_Status p) →
  wp (sync_done key) (λ r st', r = Ok tt ∧ St_Sent st' = St_Sent st ∧
    (∃ buf, Upd_Chans (World_Upd (St_World st')) !! c = Some (mkChan buf true)) ∧
    Upd_PeerChannels (World_Upd (St_World st')) !! Key_String key = None ∧
    Turn_CancelMap (World_Turn (St_World st')) !! Key_String key = None ∧
    ∃ now, GetPeer (Key_String key) (St_World st')
           = (Ok (set_Peer_Status (Some (mkStatus now false)) p), St_World st')) st.
Proof.
  intros Hk Hwf Htwf Hc Hst Hpk [status Hs]. unfold sync_done. set (pk := Key_String key) in *.
  wp_step. apply wp_lift. eapply wp_mono; [by apply CloseChannel_spec|].
  intros r w1 (-> & Hwf1 & (Es1 & _ & Et1 & _) & Hpc & _ & Hclosed). simpl.
  destruct (Hclosed c Hc) as (buf & _ & Hbuf).
  rewrite <-Et1 in Htwf. rewrite <-Es1 in Hk, Hst.
  wp_step. apply wp_lift. eapply wp_mono; [by apply cancel_spec|].
  intros r w2 (-> & (Es2 & _ & Eu2 & _) & _ & _ & Hcm & _). simpl in *.
  rewrite <-Es2 in Hk, Hst.
  wp_step. wp_step. apply wp_lift. simpl.
  assert (wp (MarkPeerConnected pk false) (λ r w', World_Upd w' = World_Upd w2 ∧ World_Turn w' = World_Turn w2) w2)
    as Hrest by (by apply MarkPeerConnected_rest).
  eapply wp_mono; [apply wp_and; [by apply MarkPeerConnected_sticks|exact Hrest]|].
  assert (Upd_Chans (World_Upd w2) !! c = Some (mkChan buf true)) as Hbuf2 by (by rewrite Eu2).
  assert (Upd_PeerChannels (World_Upd w2) !! pk = None) as Hpc2
    by (rewrite Eu2, Hpc; apply lookup_delete_eq).
  assert (Turn_CancelMap (World_Turn w2) !! pk = None) as Hcm2 by (rewrite Hcm; apply lookup_delete_eq).
  intros [[]|e|m|] w3 [Hr [Eu3 Et3]]; simpl; try done.
  - wp_step. simpl. rewrite Eu3, Et3. split; [done|]. split; [done|]. split; [by eexists|].
    split; [done|]. split; [done|]. apply Hr.
  - wp_step. simpl. rewrite Eu3, Et3. split; [done|]. split; [done|]. split; [by eexists|].
    split; [done|]. split; [done|]. apply Hr.
  - destruct Hr as [Hn _]. congruence.
Qed.

(** [p] connects, and connects again before its first stream has ended. *)
Definition reconnect : MW nat :=
  _ ← CreateChannel "p"; _ ← SetupRefresh "p"; _ ← CreateChannel "p"; SetupRefresh "p".
Definition reconnected : Stream := mkStream (snd (reconnect acl_world)) [].

Lemma reconnect_wf w :
  upd_wf (World_Upd w) → turn_wf (World_Turn w) →
  wp reconnect (λ _ w', upd_wf (World_Upd w') ∧ turn_wf (World_Turn w')) w.
Proof.
  intros Hu Ht. unfold reconnect. wp_step. eapply wp_mono; [by apply CreateChannel_spec|].
  intros r w1 (c & -> & Hu1 & (_ & _ & Et1 & _) & _). simpl. rewrite <-Et1 in Ht.
  wp_step. eapply wp_mono; [by apply SetupRefresh_wf|].
  intros r2 w2 (Ho2 & Ht2 & _). destruct Ho2 as (_ & _ & Eu2 & _). rewrite <-Eu2 in Hu1.
  destruct r2 as [r2|e|m|]; simpl; [|done..].
  wp_step. eapply wp_mono; [by apply CreateChannel_spec|].
  intros r3 w3 (c3 & -> & Hu3 & (_ & _ & Et3 & _) & _). simpl. rewrite <-Et3 in Ht2.
  eapply wp_mono; [by apply SetupRefresh_wf|].
  intros r4 w4 (Ho4 & Ht4 & _). destruct Ho4 as (_ & _ & Eu4 & _). split; [by rewrite Eu4|done].
Qed.

Lemma reconnected_wf :
  upd_wf (World_Upd (St_World reconnected)) ∧ turn_wf (World_Turn (St_World reconnected)).
Proof.
  assert (World_Upd acl_world = mkUpd ∅ 0 ∅ ∧ World_Turn acl_world = mkTurn ∅ 0 ∅) as [Eu Et]
    by (vm_compute; split; reflexivity).
  apply (reconnect_wf acl_world); [rewrite Eu; apply emptyUpd_wf|rewrite Et; apply emptyTurn_wf].
Qed.

Lemma stream_end_closes_current_witness :
  ∃ st', @sync_done demo_runtime demo_crypto [112]%Z reconnected = (Ok tt, st') ∧
    (∃ buf, Upd_Chans (World_Upd (St_World st')) !! 1 = Some (mkChan buf true)).
Proof.
  assert (World_Store (St_World reconnected) = World_Store acl_world) as Es by (vm_compute; reflexivity).
  assert (well_keyed (World_Store (St_World reconnected))) as Hk by (rewrite Es; apply acl_well_keyed).
  assert (stored_peer "p" "A" (demo_peer "p" 1) (World_Store (St_World reconnected))) as Hst
    by (split; vm_compute; reflexivity).
  assert (Upd_PeerChannels (World_Upd (St_World reconnected)) !! "p" = Some 1) as Hc
    by (vm_compute; reflexivity).
  assert (is_Some (Peer_Status (demo_peer "p" 1))) as Hs by (eexists; vm_compute; reflexivity).
  pose proof (@stream_end_closes_current demo_runtime demo_crypto [112]%Z 1 "A" (demo_peer "p" 1) reconnected
    Hk (proj1 reconnected_wf) (proj2 reconnected_wf) Hc Hst eq_refl Hs) as Hw.
  clear -Hw. unfold wp in Hw.
  destruct (@sync_done demo_runtime demo_crypto [112]%Z reconnected) as [r st'].
  destruct Hw as (Hr & _ & Hbuf & _). cbn [fst snd] in Hr, Hbuf. rewrite Hr.
  exists st'. split; [reflexivity|exact Hbuf].
Defined.

(** The expiry announced with the server's public key is always in the
    first minute of 1970: the second of the minute is sent where the number of
    seconds since the epoch belongs. *)
Theorem server_key_expired `{Runtime} `{Crypto} s w :
  wp (GetServerKey s) (λ r w', same_state w w' ∧ ∃ resp, r = Ok resp ∧
    SK_Key resp = Key_String (PublicKey (Srv_wgKey s)) ∧
    (0 ≤ SK_ExpiresAt_Seconds resp < 60)%Z ∧ (0 ≤ SK_ExpiresAt_Nanos resp < 1000000000)%Z) w.
Proof.
  unfold GetServerKey. wp_step. apply wp_time_Now. intros now n. simpl. wp_step. split; [done|].
  eexists. split; [done|]. split; [done|]. simpl. unfold Second, Nanosecond.
  split; apply Z.mod_pos_bound; lia.
Qed.
