(* ===== verification/Http.v ===== *)
(** * Http: the HTTP side of the management service (management/server/http)

    An exchange: the world, the token the request context carries, and the
    response written so far, in the order net/http gives effect to it (headers
    are sent when the status is).  Request bodies are JSON values as
    encoding/json reads them; decoding them into the request structs, with its
    treatment of [null], is written out.  The helpers of the handlers
    (handler/util.go) and the middlewares (http/middleware) are here, the
    handlers are in [HttpApi]. *)

From S2P Require Import Prelude GoLib Model Account Jwt.

(* ------------------------------------------------------------------ *)
(** ** JSON (encoding/json) *)

(** A JSON value; a number by the [int64] its conversion gives. *)
Inductive Json :=
  | JNull | JBool (b : bool) | JNumber (z : Z) | JString (s : string)
  | JArray (l : list Json) | JObject (fields : list (string * Json)).

(** Decoding into a variable that holds [cur]; [None] is a type error.  A
    [null] leaves the variable as it is. *)
Definition decode_string (cur : string) (j : Json) : option string :=
  match j with JNull => Some cur | JString s => Some s | _ => None end.
Definition decode_bool (cur : bool) (j : Json) : option bool :=
  match j with JNull => Some cur | JBool b => Some b | _ => None end.
(** A number that does not fit 64 bits is a type error. *)
Definition decode_int (cur : Z) (j : Json) : option Z :=
  match j with
  | JNull => Some cur
  | JNumber z => if decide (- 2 ^ 63 ≤ z < 2 ^ 63)%Z then Some z else None
  | _ => None
  end.
Definition decode_strings (j : Json) : option (list string) :=
  match j with JNull => Some [] | JArray l => mapM (decode_string "") l | _ => None end.

(** The keys of an object are matched to field names without regard to case;
    each key in turn assigns its field, a key without field is ignored. *)
Definition is_field (name key : string) : bool := bool_decide (ToLower name = ToLower key).
Definition decode_fields {A} (assign : string → Json → A → option A)
    (fields : list (string * Json)) (a : A) : option A :=
  foldl (λ o kv, o ≫= assign kv.1 kv.2) (Some a) fields.

(** [Decode(&req)] for a struct [req] that holds its zero value. *)
Definition decode_struct {A} (assign : string → Json → A → option A) (zero : A) (j : Json)
    : option A :=
  match j with
  | JNull => Some zero
  | JObject fields => decode_fields assign fields zero
  | _ => None
  end.

(** [Decode(&req)] for a pointer [req] to such a struct: [null] makes the
    pointer nil. *)
Definition decode_pointer {A} (assign : string → Json → A → option A) (zero : A) (j : Json)
    : option (option A) :=
  match j with
  | JNull => Some None
  | JObject fields => Some <$> decode_fields assign fields zero
  | _ => None
  end.

(* ------------------------------------------------------------------ *)
(** ** Responses *)

(** What the handlers send. *)
Record GroupPeerResponse := mkGroupPeerResponse { GPR_Key : string; GPR_Name : string }.
Record GroupResponse := mkGroupResponse {
  GR_ID : string; GR_Name : string; GR_Peers : list GroupPeerResponse }.
Record RuleGroupResponse := mkRuleGroupResponse {
  RGR_ID : string; RGR_Name : string; RGR_PeersCount : Z }.
Record RuleResponse := mkRuleResponse {
  RR_ID : string; RR_Name : string; RR_Source : list RuleGroupResponse;
  RR_Destination : list RuleGroupResponse; RR_Flow : string }.
Record PeerResponse := mkPeerResponse {
  PR_Name : string; PR_IP : string; PR_Connected : bool; PR_LastSeen : Z;
  PR_OS : string; PR_Version : string }.
Record SetupKeyResponse := mkSetupKeyResponse {
  SKR_Id : string; SKR_Key : string; SKR_Name : string; SKR_Expires : Z;
  SKR_Type : string; SKR_Valid : bool; SKR_Revoked : bool; SKR_UsedTimes : Z;
  SKR_LastUsed : Z; SKR_State : string }.
Record UserResponse := mkUserResponse {
  UR_ID : string; UR_Email : string; UR_Name : string; UR_Role : string }.
Record GroupRequest := mkGroupRequest {
  GroupReq_ID : string; GroupReq_Name : string; GroupReq_Peers : list string }.
Record RuleRequest := mkRuleRequest {
  RuleReq_ID : string; RuleReq_Name : string; RuleReq_Source : list string;
  RuleReq_Destination : list string; RuleReq_Flow : string }.

(** A piece of a response body: a line of text, the link [http.Redirect]
    writes, or an object encoded as JSON. *)
Inductive Chunk :=
  | Text (s : string)
  | Link (url : string) (code : Z)
  | JsonString (s : string)
  | JsonGroup (g : GroupResponse) | JsonGroups (l : list GroupResponse)
  | JsonRule (x : RuleResponse) | JsonRules (l : list RuleResponse)
  | JsonRuleRequest (x : RuleRequest)
  | JsonPeer (p : PeerResponse) | JsonPeers (l : list PeerResponse)
  | JsonKey (k : SetupKeyResponse) | JsonKeys (l : list SetupKeyResponse)
  | JsonUsers (l : list UserResponse).

(** [http.ResponseWriter]: the header map of the handler, and, once the status
    line is out, the status and the headers it went out with. *)
Record Response := mkResponse {
  Resp_Header : gmap string string;
  Resp_Sent : option (Z * gmap string string);
  Resp_Body : list Chunk }.
Definition emptyResponse : Response := mkResponse ∅ None [].

(** The status the client sees: 200 when the handler sets none. *)
Definition Resp_Status (r : Response) : Z := default 200%Z (fst <$> Resp_Sent r).

(** The request: what the handlers read of it. *)
Record Request := mkRequest {
  Req_Method : string; Req_Path : string; Req_Authorization : string;
  Req_Vars : gmap string string; Req_Body : error + Json }.

(** An exchange: [Ex_User] is the value the request context has for the key
    of the token. *)
Record Exchange := mkExchange {
  Ex_World : World; Ex_User : option Token; Ex_Resp : Response }.
Abbreviation MX := (M Exchange).

Definition on_world {A} (m : MW A) : MX A :=
  λ x, let '(r, w) := m (Ex_World x) in (r, mkExchange w (Ex_User x) (Ex_Resp x)).

Lemma wp_on_world {A} (m : MW A) (Q : Res A → Exchange → Prop) x :
  wp m (λ r w, Q r (mkExchange w (Ex_User x) (Ex_Resp x))) (Ex_World x) → wp (on_world m) Q x.
Proof. unfold wp, on_world. by destruct (m (Ex_World x)). Qed.

Definition on_resp (f : Response → Response) : MX unit :=
  modify (λ x, mkExchange (Ex_World x) (Ex_User x) (f (Ex_Resp x))).

(** [WriteHeader]: only the first call has an effect. *)
Definition WriteHeader (code : Z) : MX unit := on_resp (λ r,
  match Resp_Sent r with
  | Some _ => r
  | None => mkResponse (Resp_Header r) (Some (code, Resp_Header r)) (Resp_Body r)
  end).
Definition Header_Set (k v : string) : MX unit := on_resp (λ r,
  mkResponse (<[k := v]> (Resp_Header r)) (Resp_Sent r) (Resp_Body r)).

(** [Write]: sends the status 200 when none was sent. *)
Definition Write_ (c : Chunk) : MX unit :=
  _ ← WriteHeader 200;
  on_resp (λ r, mkResponse (Resp_Header r) (Resp_Sent r) (Resp_Body r ++ [c])).

(** [http.Error]. *)
Definition http_Error (msg : string) (code : Z) : MX unit :=
  _ ← Header_Set "Content-Type" "text/plain; charset=utf-8";
  _ ← Header_Set "X-Content-Type-Options" "nosniff";
  _ ← WriteHeader code;
  Write_ (Text msg).

(** [http.Redirect] to an absolute path. *)
Definition http_Redirect (r : Request) (url : string) (code : Z) : MX unit :=
  h ← gets (λ x, Resp_Header (Ex_Resp x));
  let hadCT := bool_decide (is_Some (h !! "Content-Type")) in
  _ ← Header_Set "Location" url;
  _ ← when (negb hadCT && bool_decide (Req_Method r = "GET" ∨ Req_Method r = "HEAD"))
        (Header_Set "Content-Type" "text/html; charset=utf-8");
  _ ← WriteHeader code;
  when (negb hadCT && bool_decide (Req_Method r = "GET")) (Write_ (Link url code)).

(** util.go: the content type is set after the status has been sent.
    Encoding the objects of the program does not fail. *)
Definition writeJSONObject (obj : Chunk) : MX unit :=
  _ ← WriteHeader 200;
  _ ← Header_Set "Content-Type" "application/json; charset=UTF-8";
  Write_ obj.

(** setupkeys.go, [writeSuccess], of the encoded key. *)
Definition writeKeyJSON (obj : Chunk) : MX unit :=
  _ ← WriteHeader 200;
  _ ← Header_Set "Content-Type" "application/json";
  Write_ obj.

(** [if err != nil { http.Redirect(w, r, "/", 500); return }]. *)
Definition or_redirect {A} (r : Request) (m : MX A) (k : A → MX unit) : MX unit :=
  x ← try m;
  match x with inl _ => http_Redirect r "/" 500 | inr a => k a end.

(** [if err != nil { http.Error(w, msg, code); return }]. *)
Definition or_http_Error {A} (m : MX A) (msg : string) (code : Z) (k : A → MX unit) : MX unit :=
  x ← try m;
  match x with inl _ => http_Error msg code | inr a => k a end.

(** [json.NewDecoder(r.Body).Decode(&req)] and the answer to its failure. *)
Definition decode_body {A} (r : Request) (decode : Json → option A) (k : A → MX unit) : MX unit :=
  match Req_Body r with
  | inl e => http_Error (error_text e) 400
  | inr j =>
      match decode j with
      | None => http_Error "json: cannot unmarshal" 400
      | Some a => k a
      end
  end.

(** [mux.Vars(r)[id]]. *)
Definition var_id (r : Request) : string := default "" (Req_Vars r !! "id").

(* ------------------------------------------------------------------ *)
(** ** Middlewares *)

Section middlewares.
Context `{Runtime} `{JwtLib}.

(** jwtmiddleware.go *)
Definition OnError (err : string) : MX unit := http_Error err 401.

Definition set_User (t : Token) : MX unit :=
  modify (λ x, mkExchange (Ex_World x) (Some t) (Ex_Resp x)).

(** With the options of [NewJwtMiddleware], a request with the method OPTIONS
    is let through without a token. *)
Definition CheckJWTFromRequest (m : JWTMiddleware) (r : Request) : MX unit :=
  if decide (Req_Method r = "OPTIONS") then mret tt
  else
    match FromAuthHeader (Req_Authorization r) with
    | inl err =>
        _ ← OnError (error_text err);
        fail (Plain ("Error extracting token: " +:+ error_text err))
    | inr token =>
        v ← try (on_world (ValidateAndParse m token));
        match v with
        | inl err => _ ← OnError "The token isn't valid"; fail err
        | inr validatedToken => set_User validatedToken
        end
    end.

Definition JWTMiddleware_Handler (m : JWTMiddleware) (h : Request → MX unit) (r : Request) : MX unit :=
  e ← try (CheckJWTFromRequest m r);
  match e with inl _ => mret tt | inr _ => h r end.

(** access_control.go *)
Definition modifying (method : string) : bool :=
  bool_decide (method ∈ ["DELETE"; "POST"; "PATCH"; "PUT"]).

Definition AccessControll_Handler (audience : string)
    (isUserAdmin : AuthorizationClaims → MW bool) (h : Request → MX unit) (r : Request) : MX unit :=
  u ← gets Ex_User;
  jwtClaims ← ExtractClaimsFromRequestContext u audience;
  ok ← try (on_world (isUserAdmin jwtClaims));
  match ok with
  | inl err => http_Error ("error get user from JWT: " +:+ error_text err) 401
  | inr ok =>
      if negb ok && modifying (Req_Method r) then http_Error "user is not admin" 403
      else h r
  end.
End middlewares.
