(* ===== verification/JwtMiddleware.v ===== *)
(** * JwtMiddleware: the middleware with all its options
    (management/server/http/middleware/jwtmiddleware.go)

    The middleware is general; the servers make it with the options of
    [NewJwtMiddleware].  [Jwt] and [Http] have the definitions for those; here
    are the general ones, and that they come to the same. *)

From S2P Require Import Prelude GoLib Model Account Jwt Http.

(** A query parameter of the request. *)
Class Query := { req_Query : Request → string → string }.

Abbreviation TokenExtractor := (Request → error + string).

(** [None] is nil; [SigningMethod] by the name of its algorithm. *)
Record Options := mkOptions {
  Opt_ValidationKeyGetter : Token → MW string;
  Opt_UserProperty : string;
  Opt_ErrorHandler : option (string → MX unit);
  Opt_CredentialsOptional : bool;
  Opt_Extractor : option TokenExtractor;
  Opt_EnableAuthOnOptions : bool;
  Opt_SigningMethod : option string }.
(** What [New] makes of them: no option is nil but the signing method. *)
Record Middleware := mkMiddleware {
  MWare_ValidationKeyGetter : Token → MW string;
  MWare_UserProperty : string;
  MWare_ErrorHandler : string → MX unit;
  MWare_CredentialsOptional : bool;
  MWare_Extractor : TokenExtractor;
  MWare_EnableAuthOnOptions : bool;
  MWare_SigningMethod : option string }.

Definition header_extractor : TokenExtractor := λ r, FromAuthHeader (Req_Authorization r).
(** A key getter that is nil is called all the same. *)
Definition no_options : Options := mkOptions (λ _, panic "invalid memory address or nil pointer dereference") "" None false None false None.
Definition New (options : list Options) : Middleware :=
  let opts := match options with [] => no_options | o :: _ => o end in
  mkMiddleware (Opt_ValidationKeyGetter opts)
    (if decide (Opt_UserProperty opts = "") then "user" else Opt_UserProperty opts)
    (default OnError (Opt_ErrorHandler opts)) (Opt_CredentialsOptional opts)
    (default header_extractor (Opt_Extractor opts)) (Opt_EnableAuthOnOptions opts) (Opt_SigningMethod opts).

Definition FromParameter `{Query} (param : string) : TokenExtractor := λ r, inr (req_Query r param).
Fixpoint FromFirst (extractors : list TokenExtractor) : TokenExtractor := λ r,
  match extractors with
  | [] => inr ""
  | ex :: l => match ex r with inl err => inl err | inr token => if decide (token ≠ "") then inr token else FromFirst l r end
  end.

Section middleware.
Context `{JwtLib} (m : Middleware).

(** [Header["alg"]], as it is compared with and printed. *)
Definition alg_is (t : Token) (alg : string) : bool :=
  match Token_Header t !! "alg" with Some (CString a) => bool_decide (a = alg) | _ => false end.
Definition alg_text (t : Token) : string :=
  match Token_Header t !! "alg" with Some (CString a) => a | _ => "<nil>" end.

(** [None]: no token, which is allowed. *)
Definition general_ValidateAndParse (token : string) : MW (option Token) :=
  if decide (token = "") then
    if MWare_CredentialsOptional m then mret None else fail (Plain "required authorization token not found")
  else
    parsedToken ← map_err (λ e, Plain ("Error parsing token: " +:+ error_text e))
                    (jwt_Parse token (MWare_ValidationKeyGetter m));
    match MWare_SigningMethod m with
    | Some alg =>
        if alg_is parsedToken alg then
          if Token_Valid parsedToken then mret (Some parsedToken) else fail (Plain "token is invalid")
        else fail (Plain ("error validating token algorithm: Expected " +:+ alg +:+ " signing method but token specified " +:+ alg_text parsedToken))
    | None => if Token_Valid parsedToken then mret (Some parsedToken) else fail (Plain "token is invalid")
    end.

(** The context of the request: the handlers read the property "user"; no
    other one is read by anybody. *)
Definition set_property (name : string) (t : Token) : MX unit := if decide (name = "user") then set_User t else mret tt.

Definition general_CheckJWTFromRequest (r : Request) : MX unit :=
  if negb (MWare_EnableAuthOnOptions m) && bool_decide (Req_Method r = "OPTIONS") then mret tt
  else
    match MWare_Extractor m r with
    | inl err => _ ← MWare_ErrorHandler m (error_text err); fail (Plain ("Error extracting token: " +:+ error_text err))
    | inr token =>
        v ← try (on_world (general_ValidateAndParse token));
        match v with
        | inl err => _ ← MWare_ErrorHandler m "The token isn't valid"; fail err
        | inr None => mret tt
        | inr (Some validatedToken) => set_property (MWare_UserProperty m) validatedToken
        end
    end.

Definition general_Handler (h : Request → MX unit) (r : Request) : MX unit :=
  e ← try (general_CheckJWTFromRequest r);
  match e with inl _ => mret tt | inr _ => h r end.
(** For Negroni; [next] may be nil. *)
Definition HandlerWithNext (next : option (Request → MX unit)) (r : Request) : MX unit :=
  e ← try (general_CheckJWTFromRequest r);
  match e, next with inr _, Some next => next r | _, _ => mret tt end.
End middleware.

(** handler.go: the options the servers use. *)
Definition server_options `{JwtLib} (m : JWTMiddleware) : Options :=
  mkOptions (ValidationKeyGetter m) "" None false None false (Some "RS256").

(* ------------------------------------------------------------------ *)
(** ** Properties *)

(** The first extractor that finds a token, or makes an error, decides. *)
Theorem FromFirst_decides extractors r :
  match FromFirst extractors r with
  | inr "" => Forall (λ ex, ex r = inr "") extractors
  | o => ∃ before ex after, extractors = before ++ ex :: after ∧ Forall (λ e, e r = inr "") before ∧ ex r = o
  end.
Proof.
  induction extractors as [|ex l IH]; simpl; [constructor|]. destruct (ex r) as [e|token] eqn:E; [by exists [], ex, l|].
  case_decide as Ht; [destruct token; [done|by exists [], ex, l]|]. subst token.
  destruct (FromFirst l r) as [e|[|c s]]; [| |].
  - destruct IH as (b & ex' & a & -> & Hb & He). exists (ex :: b), ex', a. split; [done|]. split; [by constructor|done].
  - by constructor.
  - destruct IH as (b & ex' & a & -> & Hb & He). exists (ex :: b), ex', a. split; [done|]. split; [by constructor|done].
Qed.

Section properties.
Context `{JwtLib}.

Lemma general_validate m s w :
  general_ValidateAndParse (New [server_options m]) s w =
  match ValidateAndParse m s w with
  | (Ok t, w') => (Ok (Some t), w') | (Err e, w') => (Err e, w') | (Panic p, w') => (Panic p, w') | (Blocked, w') => (Blocked, w')
  end.
Proof.
  unfold general_ValidateAndParse, ValidateAndParse. simpl. case_decide; [done|]. unfold mbind, M_bind, map_err.
  destruct (jwt_Parse s (ValidationKeyGetter m) w) as [[t|e|p|] w']; try done. unfold alg_is, alg_text.
  destruct (Token_Header t !! "alg") as [[alg| |]|]; try done. case_bool_decide; [rewrite decide_True by done|rewrite decide_False by done];
    by destruct (Token_Valid t).
Qed.

(** C27: The general middleware, made with the options the servers use, is the
    specialised one the theorems about the HTTP API are of: for every request,
    handler and state. *)
Theorem general_middleware_servers m h r x :
  general_Handler (New [server_options m]) h r x = JWTMiddleware_Handler m h r x.
Proof.
  unfold general_Handler, JWTMiddleware_Handler.
  assert (∀ c c' : MX unit, c x = c' x → ∀ k : (error + ()) → MX (), (try c ≫= k) x = (try c' ≫= k) x) as Hc
    by (intros c c' E k; unfold mbind, M_bind, try; by rewrite E).
  apply Hc.
  unfold general_CheckJWTFromRequest, CheckJWTFromRequest. simpl. unfold header_extractor.
  case_bool_decide; [by rewrite decide_True|rewrite decide_False by done].
  destruct (FromAuthHeader (Req_Authorization r)) as [e|token]; [done|].
  unfold mbind, M_bind, try, on_world. rewrite general_validate.
  destruct (ValidateAndParse m token (Ex_World x)) as [[t|e|p|] w']; done.
Qed.

(** With any options, the middleware lets a request on to the handler only
    when it was told not to look (the method OPTIONS), or it has no token and
    needs none, or its token was accepted by the parser with the key getter of
    the options, is valid and of the signing method asked for. *)
Theorem general_lets_through m r x x' :
  general_CheckJWTFromRequest m r x = (Ok tt, x') →
  (MWare_EnableAuthOnOptions m = false ∧ Req_Method r = "OPTIONS") ∨
  ∃ token, MWare_Extractor m r = inr token ∧
    ((token = "" ∧ MWare_CredentialsOptional m = true ∧ Ex_User x' = Ex_User x) ∨
     ∃ t w, token ≠ "" ∧ jwt_Parse token (MWare_ValidationKeyGetter m) (Ex_World x) = (Ok t, w) ∧ Token_Valid t = true ∧
       (∀ alg, MWare_SigningMethod m = Some alg → Token_Header t !! "alg" = Some (CString alg))).
Proof.
  unfold general_CheckJWTFromRequest. destruct (negb _ && _) eqn:Ho.
  { apply andb_true_iff in Ho as [Hn Hm%bool_decide_eq_true]. apply negb_true_iff in Hn. by left. }
  destruct (MWare_Extractor m r) as [e|token]; [intros (? & ? & _ & Hf)%bind_ok_inv; done|].
  intros (v & x1 & Hv & Hk)%bind_ok_inv. right. exists token. split; [done|]. unfold try, on_world in Hv.
  unfold general_ValidateAndParse in Hv. case_decide as Ht.
  - destruct (MWare_CredentialsOptional m); simplify_eq/=; [left; by injection Hk as <-|].
    apply bind_ok_inv in Hk as (? & ? & _ & Hf). done.
  - right. unfold mbind, M_bind, map_err in Hv.
    destruct (jwt_Parse token (MWare_ValidationKeyGetter m) (Ex_World x)) as [[t|e|p|] w]; simplify_eq/=;
      [|apply bind_ok_inv in Hk as (? & ? & _ & Hf); done].
    exists t, w. split; [done|]. split; [done|]. unfold alg_is in Hv.
    destruct (MWare_SigningMethod m) as [alg|], (Token_Header t !! "alg") as [[a| |]|], (Token_Valid t); simplify_eq/=;
      try (case_bool_decide; simplify_eq/=); try (by apply bind_ok_inv in Hk as (? & ? & _ & Hf));
      (split; [done|]); intros ? [= <-]; done.
Qed.
End properties.
