(* ===== verification/HttpApi.v ===== *)
(** * HttpApi: the handlers of the HTTP API (management/server/http/handler)

    Groups, rules, peers, setup keys and users of the account of the token,
    and the server (server.go) that puts the handlers behind the middlewares:
    tokens, cross-origin requests, access control.  The router (gorilla/mux)
    and the cross-origin middleware (rs/cors) are parameters. *)

From S2P Require Import Prelude GoLib Model Network SetupKey UpdateChannel FileStore Account Groups Peers Jwt Http.

(** util/duration.go relies on [time.ParseDuration]. *)
Class Durations := { ParseDuration : string → error + Z }.

(* ------------------------------------------------------------------ *)
(** ** What the handlers show *)

(** groups.go, [toGroupResponse]: each peer is looked up once. *)
Fixpoint group_peer_responses (peers : gmap string Peer) (cache : gmap string GroupPeerResponse)
    (pids : list string) : list GroupPeerResponse :=
  match pids with
  | [] => []
  | pid :: pids' =>
      match cache !! pid with
      | Some peerResp => peerResp :: group_peer_responses peers cache pids'
      | None =>
          match peers !! pid with
          | None => group_peer_responses peers cache pids'
          | Some peer =>
              let peerResp := mkGroupPeerResponse (Peer_Key peer) (Peer_Name peer) in
              peerResp :: group_peer_responses peers (<[pid := peerResp]> cache) pids'
          end
      end
  end.
Definition toGroupResponse (account : Account) (group : Group) : GroupResponse :=
  mkGroupResponse (Group_ID group) (Group_Name group)
    (group_peer_responses (Account_Peers account) ∅ (Group_Peers group)).

(** rules.go, [toRuleResponse]. *)
Definition FlowBidirectString : string := "bidirect".
Definition rule_groups (account : Account) (gids : list string) : list RuleGroupResponse :=
  omap (λ gid,
    group ← map_get (Account_Groups account) gid;
    Some (mkRuleGroupResponse (Group_ID group) (Group_Name group) (Z.of_nat (length (Group_Peers group))))) gids.
Definition toRuleResponse (account : Account) (rule : Rule) : RuleResponse :=
  mkRuleResponse (Rule_ID rule) (Rule_Name rule)
    (rule_groups account (Rule_Source rule)) (rule_groups account (Rule_Destination rule))
    (if decide (Rule_Flow rule = TrafficFlowBidirect) then FlowBidirectString else "unknown").

(** peers.go, [toPeerResponse]: a peer without status panics. *)
Definition toPeerResponse {W} (peer : Peer) : M W PeerResponse :=
  status ← deref (Peer_Status peer);
  mret (mkPeerResponse (Peer_Name peer) (IP_String (Peer_IP peer)) (Status_Connected status)
          (Status_LastSeen status)
          (Meta_OS (Peer_Meta peer) +:+ " " +:+ Meta_Core (Peer_Meta peer))
          (Meta_WtVersion (Peer_Meta peer))).

(** setupkeys.go, [toResponseBody]: the clock is read for the state of the
    key, and again for its validity. *)
Definition key_state (now : Z) (key : SetupKey) : string :=
  if IsExpired now key then "expired"
  else if IsRevoked key then "revoked"
  else if IsOverUsed key then "overused"
  else "valid".
Definition toResponseBody `{Runtime} (key : SetupKey) : MW SetupKeyResponse :=
  now ← time_Now;
  now' ← time_Now;
  mret (mkSetupKeyResponse (SetupKey_Id key) (SetupKey_Key key) (SetupKey_Name key)
          (SetupKey_ExpiresAt key) (SetupKey_Type key) (IsValid now' key) (SetupKey_Revoked key)
          (SetupKey_UsedTimes key) (SetupKey_LastUsed key) (key_state now key)).

(** users.go, [toUserResponse]. *)
Definition toUserResponse (user : UserInfo) : UserResponse :=
  mkUserResponse (UserInfo_ID user) (UserInfo_Email user) (UserInfo_Name user) (UserInfo_Role user).

(* ------------------------------------------------------------------ *)
(** ** What the handlers read *)

Definition decode_GroupRequest : Json → option GroupRequest :=
  decode_struct (λ k j r,
    if is_field "ID" k then
      (λ v, mkGroupRequest v (GroupReq_Name r) (GroupReq_Peers r)) <$> decode_string (GroupReq_ID r) j
    else if is_field "Name" k then
      (λ v, mkGroupRequest (GroupReq_ID r) v (GroupReq_Peers r)) <$> decode_string (GroupReq_Name r) j
    else if is_field "Peers" k then
      (λ v, mkGroupRequest (GroupReq_ID r) (GroupReq_Name r) v) <$> decode_strings j
    else Some r) (mkGroupRequest "" "" []).

Definition decode_RuleRequest : Json → option RuleRequest :=
  decode_struct (λ k j r,
    let '(mkRuleRequest i n s d f) := r in
    if is_field "ID" k then (λ v, mkRuleRequest v n s d f) <$> decode_string i j
    else if is_field "Name" k then (λ v, mkRuleRequest i v s d f) <$> decode_string n j
    else if is_field "Source" k then (λ v, mkRuleRequest i n v d f) <$> decode_strings j
    else if is_field "Destination" k then (λ v, mkRuleRequest i n s v f) <$> decode_strings j
    else if is_field "Flow" k then (λ v, mkRuleRequest i n s d v) <$> decode_string f j
    else Some r) (mkRuleRequest "" "" [] [] "").

(** peers.go, [PeerRequest]: its only field. *)
Definition decode_PeerRequest : Json → option (option string) :=
  decode_pointer (λ k j name, if is_field "Name" k then decode_string name j else Some name) "".

(** setupkeys.go; [ExpiresIn] is a pointer to a duration. *)
Record SetupKeyRequest := mkSetupKeyRequest {
  KeyReq_Name : string; KeyReq_Type : string; KeyReq_ExpiresIn : option Z; KeyReq_Revoked : bool }.

(** duration.go, [UnmarshalJSON], for a pointer, which [null] makes nil. *)
Definition decode_Duration `{Durations} (j : Json) : option (option Z) :=
  match j with
  | JNull => Some None
  | JNumber value => Some (Some value)
  | JString value => match ParseDuration value with inl _ => None | inr d => Some (Some d) end
  | _ => None
  end.

Definition decode_SetupKeyRequest `{Durations} : Json → option (option SetupKeyRequest) :=
  decode_pointer (λ k j r,
    let '(mkSetupKeyRequest n t e b) := r in
    if is_field "Name" k then (λ v, mkSetupKeyRequest v t e b) <$> decode_string n j
    else if is_field "Type" k then (λ v, mkSetupKeyRequest n v e b) <$> decode_string t j
    else if is_field "ExpiresIn" k then (λ v, mkSetupKeyRequest n t v b) <$> decode_Duration j
    else if is_field "Revoked" k then (λ v, mkSetupKeyRequest n t e v) <$> decode_bool b j
    else Some r) (mkSetupKeyRequest "" "" None false).

(* ------------------------------------------------------------------ *)
(** ** Handlers *)

Section handlers.
Context `{Runtime} `{Durations}.
Context (authAudience : string).

(** peers.go; the other handlers have a copy each. *)
Definition getPeerAccount : MX Account :=
  user ← gets Ex_User;
  jwtClaims ← ExtractClaimsFromRequestContext user authAudience;
  map_err (λ err, Plain ("failed getting account of a user " +:+ Claims_UserId jwtClaims +:+ ": "
                           +:+ error_text err))
    (on_world (GetAccountWithAuthorizationClaims jwtClaims)).
Definition getGroupAccount : MX Account := getPeerAccount.
Definition getRuleAccount : MX Account := getPeerAccount.
Definition getSetupKeyAccount : MX Account := getPeerAccount.
Definition getAccountId : MX Account := getPeerAccount.

(** *** groups.go *)
Definition GetAllGroupsHandler (r : Request) : MX unit :=
  or_redirect r getGroupAccount (λ account,
    groups ← on_world (range (map_of (Account_Groups account)));
    writeJSONObject (JsonGroups ((λ g, toGroupResponse account g.2) <$> groups))).

Definition CreateOrUpdateGroupHandler (r : Request) : MX unit :=
  or_redirect r getGroupAccount (λ account,
    decode_body r decode_GroupRequest (λ req,
      id ← (if decide (Req_Method r = "POST") then on_world xid_New else mret (GroupReq_ID req));
      let group := mkGroup id (GroupReq_Name req) (GroupReq_Peers req) in
      or_redirect r (on_world (SaveGroup (Account_Id account) group)) (λ _,
        writeJSONObject (JsonGroup (toGroupResponse account group))))).

Definition DeleteGroupHandler (r : Request) : MX unit :=
  or_redirect r getGroupAccount (λ account,
    let gID := var_id r in
    if decide (gID = "") then http_Error "invalid group ID" 400
    else
      or_redirect r (on_world (DeleteGroup (Account_Id account) gID)) (λ _,
        writeJSONObject (JsonString ""))).

Definition GetGroupHandler (r : Request) : MX unit :=
  or_redirect r getGroupAccount (λ account,
    if decide (Req_Method r = "GET") then
      let groupID := var_id r in
      if decide (groupID = "") then http_Error "invalid group ID" 400
      else
        or_http_Error (on_world (GetGroup (Account_Id account) groupID)) "group not found" 404
          (λ group, writeJSONObject (JsonGroup (toGroupResponse account group)))
    else http_Error "" 404).

(** *** rules.go *)
Definition GetAllRulesHandler (r : Request) : MX unit :=
  or_redirect r getRuleAccount (λ account,
    rules ← on_world (range (map_of (Account_Rules account)));
    writeJSONObject (JsonRules ((λ x, toRuleResponse account x.2) <$> rules))).

Definition CreateOrUpdateRuleHandler (r : Request) : MX unit :=
  or_redirect r getRuleAccount (λ account,
    decode_body r decode_RuleRequest (λ req,
      id ← (if decide (Req_Method r = "POST") then on_world xid_New else mret (RuleReq_ID req));
      if decide (RuleReq_Flow req = FlowBidirectString) then
        let rule := mkRule id (RuleReq_Name req) (RuleReq_Source req) (RuleReq_Destination req)
                      TrafficFlowBidirect in
        or_redirect r (on_world (SaveRule (Account_Id account) rule)) (λ _,
          writeJSONObject (JsonRuleRequest
            (mkRuleRequest id (RuleReq_Name req) (RuleReq_Source req) (RuleReq_Destination req)
               (RuleReq_Flow req))))
      else http_Error "unknown flow type" 400)).

Definition DeleteRuleHandler (r : Request) : MX unit :=
  or_redirect r getRuleAccount (λ account,
    let rID := var_id r in
    if decide (rID = "") then http_Error "invalid rule ID" 400
    else
      or_redirect r (on_world (DeleteRule (Account_Id account) rID)) (λ _,
        writeJSONObject (JsonString ""))).

Definition GetRuleHandler (r : Request) : MX unit :=
  or_redirect r getRuleAccount (λ account,
    if decide (Req_Method r = "GET") then
      let ruleID := var_id r in
      if decide (ruleID = "") then http_Error "invalid rule ID" 400
      else
        or_http_Error (on_world (GetRule (Account_Id account) ruleID)) "rule not found" 404
          (λ rule, writeJSONObject (JsonRule (toRuleResponse account rule)))
    else http_Error "" 404).

(** *** peers.go *)
Definition updatePeer (accountId : string) (peer : Peer) (r : Request) : MX unit :=
  decode_body r decode_PeerRequest (λ req,
    name ← deref req;
    or_redirect r (on_world (RenamePeer accountId (Peer_Key peer) name)) (λ peer,
      resp ← toPeerResponse peer;
      writeJSONObject (JsonPeer resp))).

Definition deletePeer (accountId : string) (peer : Peer) (r : Request) : MX unit :=
  or_redirect r (on_world (DeletePeer accountId (Peer_Key peer))) (λ _,
    writeJSONObject (JsonString "")).

Definition HandlePeer (r : Request) : MX unit :=
  or_redirect r getPeerAccount (λ account,
    let peerId := var_id r in
    if decide (peerId = "") then http_Error "invalid peer Id" 400
    else
      or_http_Error (on_world (GetPeerByIP (Account_Id account) peerId)) "peer not found" 404 (λ peer,
        if decide (Req_Method r = "DELETE") then deletePeer (Account_Id account) peer r
        else if decide (Req_Method r = "PUT") then updatePeer (Account_Id account) peer r
        else if decide (Req_Method r = "GET") then
          resp ← toPeerResponse peer; writeJSONObject (JsonPeer resp)
        else http_Error "" 404)).

Definition GetPeers (r : Request) : MX unit :=
  if decide (Req_Method r = "GET") then
    or_redirect r getPeerAccount (λ account,
      peers ← on_world (range (Account_Peers account));
      respBody ← map_each peers (λ p, toPeerResponse p.2);
      writeJSONObject (JsonPeers respBody))
  else http_Error "" 404.

(** *** setupkeys.go *)
Definition writeSuccess (key : SetupKey) : MX unit :=
  body ← on_world (toResponseBody key);
  writeKeyJSON (JsonKey body).

(** Revoking, then renaming, each when asked for; without either, nothing is
    written. *)
Definition updateKey (accountId keyId : string) (r : Request) : MX unit :=
  decode_body r decode_SetupKeyRequest (λ o,
    req ← deref o;
    let rename (key : option SetupKey) : MX unit :=
      if decide (KeyReq_Name req = "") then
        match key with Some key => writeSuccess key | None => mret tt end
      else
        or_http_Error (on_world (RenameSetupKey accountId keyId (KeyReq_Name req)))
          "failed renaming key" 500 writeSuccess in
    if KeyReq_Revoked req then
      or_http_Error (on_world (RevokeSetupKey accountId keyId)) "failed revoking key" 500
        (λ key, rename (Some key))
    else rename None).

Definition getKey (accountId keyId : string) (r : Request) : MX unit :=
  or_http_Error (on_world (GetAccountById accountId)) "account doesn't exist" 500 (λ account,
    keys ← on_world (range (Account_SetupKeys account));
    match find (λ kv, bool_decide (SetupKey_Id kv.2 = keyId)) keys with
    | Some kv => writeSuccess kv.2
    | None => http_Error "setup key not found" 404
    end).

Definition createKey (accountId : string) (r : Request) : MX unit :=
  decode_body r decode_SetupKeyRequest (λ o,
    req ← deref o;
    if decide (KeyReq_Type req = SetupKeyReusable ∨ KeyReq_Type req = SetupKeyOneOff) then
      x ← try (on_world (AddSetupKey accountId (KeyReq_Name req) (KeyReq_Type req) (KeyReq_ExpiresIn req)));
      match x with
      | inl err =>
          if decide (from_error (Some err) = (NotFound, true)) then http_Error "account not found" 404
          else http_Error "failed adding setup key" 500
      | inr setupKey => writeSuccess setupKey
      end
    else http_Error ("unknown setup key type " +:+ KeyReq_Type req) 400).

Definition HandleKey (r : Request) : MX unit :=
  or_redirect r getSetupKeyAccount (λ account,
    let keyId := var_id r in
    if decide (keyId = "") then http_Error "invalid key Id" 400
    else if decide (Req_Method r = "PUT") then updateKey (Account_Id account) keyId r
    else if decide (Req_Method r = "GET") then getKey (Account_Id account) keyId r
    else http_Error "" 404).

Definition GetKeys (r : Request) : MX unit :=
  or_redirect r getSetupKeyAccount (λ account,
    if decide (Req_Method r = "POST") then createKey (Account_Id account) r
    else if decide (Req_Method r = "GET") then
      _ ← WriteHeader 200;
      _ ← Header_Set "Content-Type" "application/json";
      keys ← on_world (range (Account_SetupKeys account));
      respBody ← map_each keys (λ kv, on_world (toResponseBody kv.2));
      Write_ (JsonKeys respBody)
    else http_Error "" 404).

(** *** users.go: neither failure returns, and the account is dereferenced. *)
Definition GetUsers (r : Request) : MX unit :=
  _ ← when (bool_decide (Req_Method r ≠ "GET")) (http_Error "" 400);
  x ← try getAccountId;
  account ← deref (match x with inl _ => None | inr a => Some a end);
  or_redirect r (on_world (GetUsersFromAccount (Account_Id account))) (λ data,
    writeJSONObject (JsonUsers (toUserResponse <$> data))).
End handlers.

(* ------------------------------------------------------------------ *)
(** ** The server (server.go) *)

Record Route := mkRoute {
  Route_Path : string; Route_Methods : list string; Route_Handler : Request → MX unit }.

(** The routes [Start] registers, in its order. *)
Definition routes `{Runtime} `{Durations} (authAudience : string) : list Route := [
  mkRoute "/api/peers" ["GET"; "OPTIONS"] (GetPeers authAudience);
  mkRoute "/api/peers/{id}" ["GET"; "PUT"; "DELETE"; "OPTIONS"] (HandlePeer authAudience);
  mkRoute "/api/users" ["GET"; "OPTIONS"] (GetUsers authAudience);
  mkRoute "/api/setup-keys" ["GET"; "POST"; "OPTIONS"] (GetKeys authAudience);
  mkRoute "/api/setup-keys/{id}" ["GET"; "PUT"; "OPTIONS"] (HandleKey authAudience);
  mkRoute "/api/setup-keys" ["POST"; "OPTIONS"] (GetKeys authAudience);
  mkRoute "/api/setup-keys/{id}" ["GET"; "PUT"; "DELETE"; "OPTIONS"] (HandleKey authAudience);
  mkRoute "/api/rules" ["GET"; "OPTIONS"] (GetAllRulesHandler authAudience);
  mkRoute "/api/rules" ["POST"; "PUT"; "OPTIONS"] (CreateOrUpdateRuleHandler authAudience);
  mkRoute "/api/rules/{id}" ["GET"; "OPTIONS"] (GetRuleHandler authAudience);
  mkRoute "/api/rules/{id}" ["DELETE"; "OPTIONS"] (DeleteRuleHandler authAudience);
  mkRoute "/api/groups" ["GET"; "OPTIONS"] (GetAllGroupsHandler authAudience);
  mkRoute "/api/groups" ["POST"; "PUT"; "OPTIONS"] (CreateOrUpdateGroupHandler authAudience);
  mkRoute "/api/groups/{id}" ["GET"; "OPTIONS"] (GetGroupHandler authAudience);
  mkRoute "/api/groups/{id}" ["DELETE"; "OPTIONS"] (DeleteGroupHandler authAudience)
].

(** github.com/gorilla/mux: the first route that matches, with the variables
    of its path; and the answer when none does. *)
Class Mux := {
  mux_Match : list (string * list string) → string → string → option (nat * gmap string string);
  mux_NotFound : Request → MX unit }.

(** github.com/rs/cors: [cors.AllowAll().Handler]. *)
Class Cors := { cors_Handler : (Request → MX unit) → Request → MX unit }.

Section server.
Context `{Runtime} `{Durations} `{JwtLib} `{Mux} `{Cors}.
Context (jwt : JWTMiddleware).

(** The middlewares of [Start] around a handler, the first one outermost. *)
Definition protect (h : Request → MX unit) : Request → MX unit :=
  JWTMiddleware_Handler jwt
    (cors_Handler (AccessControll_Handler (Jwt_Audience jwt) IsUserAdmin h)).

(** One request: the middlewares run for a request that matches a route. *)
Definition ServeHTTP (r : Request) : MX unit :=
  let rs := routes (Jwt_Audience jwt) in
  match mux_Match ((λ t, (Route_Path t, Route_Methods t)) <$> rs) (Req_Method r) (Req_Path r) with
  | None => mux_NotFound r
  | Some (i, vars) =>
      match rs !! i with
      | None => mux_NotFound r
      | Some t => protect (Route_Handler t)
                    (mkRequest (Req_Method r) (Req_Path r) (Req_Authorization r) vars (Req_Body r))
      end
  end.
End server.

(* ------------------------------------------------------------------ *)
(** ** Specifications *)

(** What documented behaviour of rs/cors the server relies on: a request that
    is not a preflight is passed on, with headers added to its response. *)
Class CorsLaws `{Cors} := {
  cors_passes_on : ∀ r, Req_Method r ≠ "OPTIONS" →
    ∃ f : gmap string string → gmap string string, ∀ h x,
      cors_Handler h r x = h r (mkExchange (Ex_World x) (Ex_User x)
        (mkResponse (f (Resp_Header (Ex_Resp x))) (Resp_Sent (Ex_Resp x)) (Resp_Body (Ex_Resp x)))) }.

(** The status of a response that was not begun before. *)
Lemma http_Error_status msg code x :
  Resp_Sent (Ex_Resp x) = None →
  wp (http_Error msg code) (λ r x', r = Ok tt ∧ Resp_Status (Ex_Resp x') = code ∧
    Ex_World x' = Ex_World x ∧ Ex_User x' = Ex_User x) x.
Proof.
  intros Hs. unfold http_Error, Header_Set, WriteHeader, Write_, WriteHeader, on_resp.
  wp_go. all: by rewrite ?Hs.
Qed.

Lemma http_Redirect_status r url code x :
  Resp_Sent (Ex_Resp x) = None →
  wp (http_Redirect r url code) (λ res x', res = Ok tt ∧ Resp_Status (Ex_Resp x') = code ∧
    Ex_World x' = Ex_World x ∧ Ex_User x' = Ex_User x) x.
Proof.
  intros Hs. unfold http_Redirect, Header_Set, WriteHeader, Write_, WriteHeader, on_resp.
  wp_go; by rewrite ?Hs.
Qed.

(** util.go's answer: 200, one object, and the headers of before: the content
    type does not go out. *)
Lemma writeJSONObject_sent obj x :
  Resp_Sent (Ex_Resp x) = None →
  wp (writeJSONObject obj) (λ r x', r = Ok tt ∧
    Resp_Sent (Ex_Resp x') = Some (200%Z, Resp_Header (Ex_Resp x)) ∧
    Resp_Body (Ex_Resp x') = Resp_Body (Ex_Resp x) ++ [obj] ∧
    Ex_World x' = Ex_World x ∧ Ex_User x' = Ex_User x) x.
Proof.
  intros Hs. unfold writeJSONObject, Header_Set, WriteHeader, Write_, WriteHeader, on_resp.
  wp_go. all: by rewrite ?Hs.
Qed.

Section specs.
Context `{Runtime} `{Durations} `{JwtLib}.

(** The account of the request: as the account manager has it. *)
Lemma getPeerAccount_spec audience c x (Q : Res Account → Exchange → Prop) :
  ExtractClaimsFromRequestContext (Ex_User x) audience x = (Ok c, x) →
  wp (GetAccountWithAuthorizationClaims c) (λ r w',
    let x' := mkExchange w' (Ex_User x) (Ex_Resp x) in
    match r with
    | Err e => ∀ e', Q (Err e') x'
    | _ => Q r x'
    end) (Ex_World x) →
  wp (getPeerAccount audience) Q x.
Proof.
  intros Hc Hw. unfold getPeerAccount. wp_step. wp_step. simpl. wp_step.
  unfold wp at 1. rewrite Hc. simpl. apply wp_map_err, wp_on_world.
  eapply wp_mono; [exact Hw|]. intros [a|e|s|] w' HQ; simpl; auto.
Qed.

(** A request that is admitted runs its handler; the verdict on any other
    does not depend on the handler. *)
Definition admitted (jwt : JWTMiddleware) (r : Request) (w w' : World) (t : Token) : Prop :=
  ∃ token c w1 a u,
    FromAuthHeader (Req_Authorization r) = inr token ∧
    ValidateAndParse jwt token w = (Ok t, w1) ∧
    ExtractClaimsFromRequestContext (Some t) (Jwt_Audience jwt) w1 = (Ok c, w1) ∧
    GetAccountWithAuthorizationClaims c w1 = (Ok a, w') ∧
    Account_Users a !! Claims_UserId c = Some u ∧ User_Role u = UserRoleAdmin.

Lemma IsUserAdmin_true c w w' :
  IsUserAdmin c w = (Ok true, w') →
  ∃ a u, GetAccountWithAuthorizationClaims c w = (Ok a, w') ∧
    Account_Users a !! Claims_UserId c = Some u ∧ User_Role u = UserRoleAdmin.
Proof.
  unfold IsUserAdmin, map_err, or_fail. unfold mbind, M_bind.
  destruct (GetAccountWithAuthorizationClaims c w) as [[a|e|s|] w1]; try done. simpl.
  destruct (Account_Users a !! Claims_UserId c) as [u|] eqn:Hu; [|done].
  intros [= Ha%bool_decide_eq_true <-]. by exists a, u.
Qed.

Lemma ExtractClaims_state {W} user audience (w : W) r w' :
  ExtractClaimsFromRequestContext user audience w = (r, w') → w' = w.
Proof.
  assert (wp (ExtractClaimsFromRequestContext user audience) (λ _ w', w' = w) w) as Hw; [|intros Hr; by apply (wp_run _ _ _ _ _ Hr) in Hw].
  unfold ExtractClaimsFromRequestContext, ExtractClaimsWithToken, optional_claim, assert_string.
  wp_go; done.
Qed.

Lemma ExtractClaims_any_state {W W'} user audience (w : W) (w' : W') c :
  ExtractClaimsFromRequestContext user audience w = (Ok c, w) →
  ExtractClaimsFromRequestContext user audience w' = (Ok c, w').
Proof.
  unfold ExtractClaimsFromRequestContext, ExtractClaimsWithToken, optional_claim, mbind, M_bind.
  destruct user as [t|]; simpl; [|done].
  destruct (Token_Claims t !! UserIDClaim) as [[]|]; simpl; [|done..].
  destruct (Token_Claims t !! (audience +:+ AccountIDSuffix)) as [[]|]; simpl; [|done|done|];
  (destruct (Token_Claims t !! (audience +:+ DomainIDSuffix)) as [[]|]; simpl; [|done|done|]);
  (destruct (Token_Claims t !! (audience +:+ DomainCategorySuffix)) as [[]|]; simpl; first [done|by intros [= ->]]).
Qed.

(** Access control in front of two handlers. *)
Lemma AccessControll_outcome audience h h' r x :
  modifying (Req_Method r) = true → Resp_Sent (Ex_Resp x) = None →
  (∃ c w', ExtractClaimsFromRequestContext (Ex_User x) audience x = (Ok c, x) ∧
     IsUserAdmin c (Ex_World x) = (Ok true, w') ∧
     AccessControll_Handler audience IsUserAdmin h r x
       = h r (mkExchange w' (Ex_User x) (Ex_Resp x))) ∨
  (AccessControll_Handler audience IsUserAdmin h r x
     = AccessControll_Handler audience IsUserAdmin h' r x ∧
   wp (AccessControll_Handler audience IsUserAdmin h r) (λ res x',
     match res with
     | Ok _ => Resp_Status (Ex_Resp x') = 401%Z ∨ Resp_Status (Ex_Resp x') = 403%Z
     | Err _ => False
     | _ => True
     end) x).
Proof.
  intros Hm Hs. unfold AccessControll_Handler. unfold mbind, M_bind, gets. cbn.
  assert (∀ W (w : W) e, (ExtractClaimsFromRequestContext (Ex_User x) audience w).1 ≠ Err e) as Hne.
  { intros W w e. unfold ExtractClaimsFromRequestContext, ExtractClaimsWithToken, optional_claim, assert_string, mbind, M_bind.
    destruct (Ex_User x) as [t|]; simpl; [|done].
    destruct (Token_Claims t !! UserIDClaim) as [[]|]; simpl; [|done..].
    destruct (Token_Claims t !! (audience +:+ AccountIDSuffix)) as [[]|]; simpl; [|done|done|];
    (destruct (Token_Claims t !! (audience +:+ DomainIDSuffix)) as [[]|]; simpl; [|done|done|]);
    (by destruct (Token_Claims t !! (audience +:+ DomainCategorySuffix)) as [[]|]). }
  specialize (Hne _ x). unfold wp. cbn.
  destruct (ExtractClaimsFromRequestContext (Ex_User x) audience x) as [[c|e|s|] x1] eqn:Hc;
    apply ExtractClaims_state in Hc as Hx; subst x1; simpl.
  2:{ by destruct (Hne e). }
  2,3: by right.
  unfold try, on_world. destruct (IsUserAdmin c (Ex_World x)) as [[[]|e|s|] w1] eqn:Ha; simpl.
  - left. by exists c, w1.
  - right. rewrite Hm. split; [done|].
    right. exact (proj1 (proj2 (http_Error_status _ 403 (mkExchange w1 (Ex_User x) (Ex_Resp x)) Hs))).
  - right. split; [done|].
    left. exact (proj1 (proj2 (http_Error_status _ 401 (mkExchange w1 (Ex_User x) (Ex_Resp x)) Hs))).
  - by right.
  - by right.
Qed.
End specs.

Section request_specs.
Context `{Runtime} `{Durations} `{JwtLib}.

Lemma GetPeerByIP_spec id ip a w :
  Accounts (World_Store w) !! id = Some a →
  wp (GetPeerByIP id ip) (λ r w', same_state w w' ∧
    match r with
    | Ok p => ∃ pk, Account_Peers a !! pk = Some p ∧ IP_String (Peer_IP p) = ip
    | Err _ => ∀ pk p, Account_Peers a !! pk = Some p → IP_String (Peer_IP p) ≠ ip
    | _ => False
    end) w.
Proof.
  intros Ha. unfold GetPeerByIP. wp_step. wp_step. apply GetAccount_spec; [|intros; congruence].
  intros a' Ha'. assert (a' = a) as -> by congruence. simpl. wp_step. apply wp_range.
  intros l n Hl _. simpl. wp_step. wp_step; simpl.
  - match goal with Hf : find _ l = Some ?kp |- _ =>
      apply find_some in Hf as [Hin Heq%bool_decide_eq_true]; destruct kp as [pk p] end.
    wp_step. split; [done|]. exists pk. split; [|done]. by apply Hl, list_elem_of_In.
  - split; [done|]. intros pk p Hp%Hl%list_elem_of_In Heq.
    match goal with Hf : find _ l = None |- _ => eapply find_none in Hf; [|exact Hp];
      by apply bool_decide_eq_false in Hf end.
Qed.

Lemma or_redirect_spec {A} r (m : MX A) (k : A → MX unit) Q x :
  wp m (λ res x', match res with
    | Ok a => wp (k a) Q x'
    | Err _ => Resp_Sent (Ex_Resp x') = None ∧
        ∀ x'', Ex_World x'' = Ex_World x' → Resp_Status (Ex_Resp x'') = 500%Z → Q (Ok tt) x''
    | Panic s => Q (Panic s) x'
    | Blocked => Q Blocked x'
    end) x →
  wp (or_redirect r m k) Q x.
Proof.
  intros Hm. unfold or_redirect. wp_step. wp_step. eapply wp_mono; [exact Hm|].
  intros [a|e|s|] x' Hr; simpl; try done. destruct Hr as [Hs HQ].
  eapply wp_mono; [by apply http_Redirect_status|]. intros res x'' (-> & ? & ? & _). by apply HQ.
Qed.

Lemma or_http_Error_spec {A} (m : MX A) msg code (k : A → MX unit) Q x :
  wp m (λ res x', match res with
    | Ok a => wp (k a) Q x'
    | Err _ => Resp_Sent (Ex_Resp x') = None ∧
        ∀ x'', Ex_World x'' = Ex_World x' → Resp_Status (Ex_Resp x'') = code → Q (Ok tt) x''
    | Panic s => Q (Panic s) x'
    | Blocked => Q Blocked x'
    end) x →
  wp (or_http_Error m msg code k) Q x.
Proof.
  intros Hm. unfold or_http_Error. wp_step. wp_step. eapply wp_mono; [exact Hm|].
  intros [a|e|s|] x' Hr; simpl; try done. destruct Hr as [Hs HQ].
  eapply wp_mono; [by apply http_Error_status|]. intros res x'' (-> & ? & ? & _). by apply HQ.
Qed.
End request_specs.

(* ------------------------------------------------------------------ *)
(** ** Properties *)

(** C2: a request that modifies (DELETE, POST, PATCH or PUT) reaches its
    handler only with a token that validates, whose claims name a user whose
    role in the account is admin.  In every other case the outcome is the same
    whatever the handler is, and a response has the status 401 or 403. *)
Theorem modifying_request_needs_admin `{Runtime} `{JwtLib} `{CorsLaws} jwt h h' r x :
  modifying (Req_Method r) = true → Resp_Sent (Ex_Resp x) = None →
  (∃ w' t resp, admitted jwt r (Ex_World x) w' t ∧
     protect jwt h r x = h r (mkExchange w' (Some t) resp)) ∨
  (protect jwt h r x = protect jwt h' r x ∧
   wp (protect jwt h r) (λ res x',
     match res with
     | Ok _ => Resp_Status (Ex_Resp x') = 401%Z ∨ Resp_Status (Ex_Resp x') = 403%Z
     | Err _ => False
     | _ => True
     end) x).
Proof.
  intros Hm Hs. assert (Req_Method r ≠ "OPTIONS") as Hopt by (intros Ho; by rewrite Ho in Hm).
  destruct (cors_passes_on r Hopt) as [f Hf].
  unfold protect, JWTMiddleware_Handler, CheckJWTFromRequest. rewrite decide_False by done.
  destruct (FromAuthHeader (Req_Authorization r)) as [e|token] eqn:Hauth.
  { right. split; [done|]. wp_step. wp_step. wp_step. unfold OnError.
    eapply wp_mono; [by apply http_Error_status|]. intros res x' (-> & Hst & _). simpl.
    wp_step. wp_step. by left. }
  unfold wp, mbind, M_bind, try, on_world.
  destruct (ValidateAndParse jwt token (Ex_World x)) as [[t|e|s|] w1] eqn:Hval; simpl.
  - unfold set_User, modify. simpl. rewrite !Hf. simpl.
    set (x1 := mkExchange _ _ _).
    destruct (AccessControll_outcome (Jwt_Audience jwt) h h' r x1 Hm Hs)
      as [(c & w2 & Hc & Hadm & Heq)|[Heq Hw]]; [|by right].
    left. exists w2, t. eexists. split; [|exact Heq].
    apply IsUserAdmin_true in Hadm as (a & u & Ha & Hu & Hrole).
    exists token, c, w1, a, u. repeat (split; [done|]). split; [|done].
    by eapply ExtractClaims_any_state.
  - right. split; [done|].
    destruct (http_Error_status "The token isn't valid" 401 (mkExchange w1 (Ex_User x) (Ex_Resp x)) Hs) as (Hr & Hst & _).
    unfold OnError. by left.
  - by right.
  - by right.
Qed.

(** An office whose user [u] has the role [role]; the cross-origin middleware
    adds a header. *)
Definition office_account (role : string) : Account :=
  set_Domain "" (set_Users {["u" := mkUser "u" role]} acl_account).
Definition office_world (role : string) : World :=
  snd (@SaveAccount demo_runtime (office_account role) emptyWorld).
Definition office (role : string) (user : option Token) : Exchange :=
  mkExchange (office_world role) user emptyResponse.
Definition demo_cors : Cors := {|
  cors_Handler h r x := h r (mkExchange (Ex_World x) (Ex_User x)
    (mkResponse (<["Access-Control-Allow-Origin" := "*"]> (Resp_Header (Ex_Resp x)))
       (Resp_Sent (Ex_Resp x)) (Resp_Body (Ex_Resp x)))) |}.
Lemma demo_cors_laws : @CorsLaws demo_cors.
Proof. split. intros r _. by eexists. Qed.
Definition demo_durations : Durations := {| ParseDuration s := inl (Plain "time: invalid duration") |}.

Definition demo_request (method id : string) (body : error + Json) : Request :=
  mkRequest method "/api/peers" "Bearer good" {["id" := id]} body.
Definition reached (_ : Request) : MX unit := panic "handler reached".

Lemma modifying_request_needs_admin_witness :
  @wp Exchange unit (@protect demo_runtime demo_jwt_lib demo_cors demo_jwt reached
      (demo_request "DELETE" "100.64.0.1" (inr JNull)))
    (λ res x', match res with
      | Ok _ => Resp_Status (Ex_Resp x') = 401%Z ∨ Resp_Status (Ex_Resp x') = 403%Z
      | Err _ => False
      | _ => True
      end) (office "user" None).
Proof.
  destruct (@modifying_request_needs_admin demo_runtime demo_jwt_lib demo_cors demo_cors_laws demo_jwt
    reached reached (demo_request "DELETE" "100.64.0.1" (inr JNull)) (office "user" None)
    eq_refl eq_refl) as [(w' & t & resp & _ & Heq)|[_ Hw]]; [|exact Hw].
  exfalso. apply (f_equal fst) in Heq.
  assert (fst (@protect demo_runtime demo_jwt_lib demo_cors demo_jwt reached
    (demo_request "DELETE" "100.64.0.1" (inr JNull)) (office "user" None)) = Ok tt) as Hrun
    by (vm_compute; reflexivity).
  rewrite Hrun in Heq. discriminate Heq.
Defined.

(** The state [x'] after an answer with status [code]. *)
Definition answered (code : Z) (x' : Exchange) : Prop := Resp_Status (Ex_Resp x') = code.

(** DELETE on a peer acts on the account of the token only, and on the
    peer of that account that has the address in the path: 404 means that the
    account has no such peer, and nothing has changed; 200 means that this peer
    is removed and the others are told; the only other answer is 500. *)
Theorem delete_peer_request `{Runtime} audience r x c a w1 :
  Req_Method r = "DELETE" → var_id r ≠ "" → Resp_Sent (Ex_Resp x) = None →
  ExtractClaimsFromRequestContext (Ex_User x) audience x = (Ok c, x) →
  GetAccountWithAuthorizationClaims c (Ex_World x) = (Ok a, w1) →
  well_keyed (World_Store w1) → upd_wf (World_Upd w1) → peers_keyed a →
  Accounts (World_Store w1) !! Account_Id a = Some a →
  wp (HandlePeer audience r) (λ res x',
    match res with
    | Ok _ =>
        (answered 404 x' ∧ same_state w1 (Ex_World x') ∧
         ∀ pk p, Account_Peers a !! pk = Some p → IP_String (Peer_IP p) ≠ var_id r) ∨
        ∃ pk p, Account_Peers a !! pk = Some p ∧ IP_String (Peer_IP p) = var_id r ∧
          (answered 500 x' ∨ answered 200 x' ∧ peer_removed (Account_Id a) pk w1 (Ex_World x'))
    | Err _ => False
    | _ => True
    end) x.
Proof.
  intros Hm Hid Hs Hc Hget Hk Hu Hpk Ha. unfold HandlePeer. apply or_redirect_spec.
  eapply getPeerAccount_spec; [exact Hc|]. unfold wp at 1. rewrite Hget. simpl.
  rewrite decide_False by done. apply or_http_Error_spec, wp_on_world.
  eapply wp_mono; [by apply GetPeerByIP_spec|]. intros [p|e|s|] w2 [Hsame Hr]; simpl; try done.
  2:{ split; [done|]. intros x'' Hw Hst. left. rewrite Hw. done. }
  destruct Hr as (pk & Hp & Hip). rewrite decide_True by done. unfold deletePeer.
  apply Hpk in Hp as Hkey. rewrite Hkey. apply or_redirect_spec, wp_on_world. simpl.
  destruct Hsame as (Es & _ & Eu & _ & _). simpl in Es, Eu.
  assert (wp (DeletePeer (Account_Id a) pk) (λ r w', ∀ p, r = Ok p → peer_removed (Account_Id a) pk w2 w') w2) as Hdel.
  { apply DeletePeer_spec; [by rewrite Es|by rewrite Eu|]. rewrite Es. intros a' Ha'. by assert (a' = a) as -> by congruence. }
  eapply wp_mono; [exact Hdel|]. intros [p'|e|s|] w3 Hr; simpl; try done.
  2:{ split; [done|]. intros x'' _ Hst. right. exists pk, p. repeat (split; [done|]). by left. }
  specialize (Hr p' eq_refl). eapply wp_mono; [by apply writeJSONObject_sent|].
  intros res x' (-> & Hsent & _ & Hw & _). right. exists pk, p. repeat (split; [done|]). right.
  split; [unfold answered, Resp_Status; by rewrite Hsent|]. simpl in Hw. rewrite Hw.
  unfold peer_removed in *. by rewrite <-Es, <-Eu.
Qed.

Lemma office_accounts role : Accounts (World_Store (office_world role)) = {["A" := office_account role]}.
Proof. vm_compute. reflexivity. Defined.

Lemma delete_peer_request_witness :
  ∃ x', @HandlePeer demo_runtime "aud" (demo_request "DELETE" "100.64.0.1" (inr JNull))
      (office "admin" (Some (demo_token "k1"))) = (Ok tt, x') ∧ answered 200 x' ∧
    peer_removed "A" "p" (snd (@GetAccountWithAuthorizationClaims demo_runtime (mkClaims "u" "" "" "")
      (office_world "admin"))) (Ex_World x').
Proof.
  pose (r := demo_request "DELETE" "100.64.0.1" (inr JNull)).
  pose (x := office "admin" (Some (demo_token "k1"))).
  pose (w1 := snd (@GetAccountWithAuthorizationClaims demo_runtime (mkClaims "u" "" "" "") (office_world "admin"))).
  assert (@GetAccountWithAuthorizationClaims demo_runtime (mkClaims "u" "" "" "") (office_world "admin")
    = (Ok (office_account "admin"), w1)) as Hget by (vm_compute; reflexivity).
  assert (Accounts (World_Store w1) = {["A" := office_account "admin"]}) as Hacc by (vm_compute; reflexivity).
  assert (World_Upd w1 = mkUpd ∅ 0 ∅) as Hu by (vm_compute; reflexivity).
  assert (well_keyed (World_Store w1)) as Hk.
  { intros id a. rewrite Hacc. by intros [<- <-]%(lookup_singleton_Some "A" id (office_account "admin") a). }
  assert (upd_wf (World_Upd w1)) as Hwf by (rewrite Hu; apply emptyUpd_wf).
  assert (peers_keyed (office_account "admin")) as Hpk.
  { unfold peers_keyed. apply (map_get_all (λ i p, Peer_Key p = i) (Some (Account_Peers (office_account "admin")))).
    vm_compute. repeat constructor. }
  assert (Accounts (World_Store w1) !! "A" = Some (office_account "admin")) as Ha
    by (rewrite Hacc; apply lookup_singleton_eq).
  pose proof (@delete_peer_request demo_runtime "aud" r x (mkClaims "u" "" "" "") (office_account "admin") w1
    eq_refl ltac:(discriminate) eq_refl ltac:(vm_compute; reflexivity) Hget Hk Hwf Hpk Ha) as Hw.
  unfold wp in Hw. clear -Hw.
  assert (fst (@HandlePeer demo_runtime "aud" r x) = Ok tt) as Hok by (vm_compute; reflexivity).
  assert (Resp_Status (Ex_Resp (snd (@HandlePeer demo_runtime "aud" r x))) = 200%Z) as Hst
    by (vm_compute; reflexivity).
  fold r. fold x. fold w1. destruct (@HandlePeer demo_runtime "aud" r x) as [res x'].
  cbn [fst snd] in *. subst res. exists x'. split; [reflexivity|]. unfold answered in *.
  rewrite Hst in Hw. split; [exact Hst|].
  destruct Hw as [[? _]|(pk & p & Hp & Hip & [?|[_ Hrem]])]; [discriminate..|].
  assert (pk = "p") as ->; [|exact Hrem]. clear -Hp Hip.
  assert (∀ i q, Account_Peers (office_account "admin") !! i = Some q →
    IP_String (Peer_IP q) = "100.64.0.1" → i = "p") as Hone; [|exact (Hone pk p Hp Hip)].
  apply (map_get_all (λ i q, IP_String (Peer_IP q) = "100.64.0.1" → i = "p")
    (Some (Account_Peers (office_account "admin")))).
  vm_compute. repeat constructor; discriminate.
Defined.

(** A PUT on a setup key whose body asks for revocation (and no new name)
    answers 200 with a key that it shows as not valid, and that the account
    then holds revoked; the only other answer is 500. *)
Theorem revoke_request `{Runtime} `{Durations} id keyId r j req x :
  Req_Body r = inr j → decode_SetupKeyRequest j = Some (Some req) →
  KeyReq_Revoked req = true → KeyReq_Name req = "" → Resp_Sent (Ex_Resp x) = None →
  well_keyed (World_Store (Ex_World x)) →
  wp (updateKey id keyId r) (λ res x',
    match res with
    | Ok _ => answered 500 x' ∨
        answered 200 x' ∧ ∃ a k body, Accounts (World_Store (Ex_World x')) !! id = Some a ∧
          Account_SetupKeys a !! SetupKey_Key k = Some k ∧ SetupKey_Id k = keyId ∧
          (∀ now, IsValid now k = false) ∧
          Resp_Body (Ex_Resp x') = Resp_Body (Ex_Resp x) ++ [JsonKey body] ∧
          SKR_Id body = keyId ∧ SKR_Valid body = false ∧ SKR_State body ≠ "valid"
    | Err _ => False
    | Panic _ => ∃ a, Accounts (World_Store (Ex_World x)) !! id = Some a ∧ ¬ rules_resolve a
    | Blocked => False
    end) x.
Proof.
  intros Hb Hdec Hrev Hname Hs Hk. unfold updateKey, decode_body. rewrite Hb, Hdec.
  wp_step. unfold deref. wp_step. rewrite Hrev. apply or_http_Error_spec, wp_on_world. unfold RevokeSetupKey.
  eapply wp_mono; [apply (update_key_spec (λ k, Revoke (SetupKey_Copy k))); done|].
  intros [k'|e|s|] w' Hr; simpl; try done; [|split; [done|]; intros x'' _ Hst; by left].
  destruct Hr as (a & i & k & Ha & _ & Hid & -> & Hst). apply Hk in Ha as Hida. rewrite Hida in Hst.
  rewrite decide_True by done. unfold writeSuccess, toResponseBody. wp_step. apply wp_on_world.
  wp_step. apply wp_time_Now. intros now n. simpl. wp_step. apply wp_time_Now. intros now' n'. simpl.
  wp_step. unfold writeKeyJSON, Header_Set, Write_, WriteHeader, on_resp. wp_go. rewrite Hs.
  right. split; [done|]. simpl.
  eexists _, (Revoke (SetupKey_Copy k)), _. split; [exact Hst|].
  split; [apply lookup_insert_eq|]. split; [done|]. split; [done|]. split; [done|].
  simpl. split; [done|]. split; [done|]. unfold key_state. by case_match.
Qed.

Lemma revoke_request_witness :
  ∃ x', @updateKey demo_runtime demo_durations "A" "7"
      (demo_request "PUT" "7" (inr (JObject [("revoked", JBool true)])))
      (mkExchange keys_world None emptyResponse) = (Ok tt, x') ∧
    ∃ a k, Accounts (World_Store (Ex_World x')) !! "A" = Some a ∧
      Account_SetupKeys a !! SetupKey_Key k = Some k ∧ IsValid 5 k = false.
Proof.
  pose (r := demo_request "PUT" "7" (inr (JObject [("revoked", JBool true)]))).
  pose (x := mkExchange keys_world None emptyResponse).
  assert (well_keyed (World_Store keys_world)) as Hk.
  { intros id a. rewrite keys_world_accounts. by intros [<- <-]%(lookup_singleton_Some "A" id keys_account a). }
  pose proof (@revoke_request demo_runtime demo_durations "A" "7" r _ (mkSetupKeyRequest "" "" None true) x
    eq_refl eq_refl eq_refl eq_refl eq_refl Hk) as Hw.
  unfold wp in Hw. clear -Hw.
  assert (fst (@updateKey demo_runtime demo_durations "A" "7" r x) = Ok tt) as Hok by (vm_compute; reflexivity).
  assert (Resp_Status (Ex_Resp (snd (@updateKey demo_runtime demo_durations "A" "7" r x))) = 200%Z) as Hst
    by (vm_compute; reflexivity).
  fold r. fold x. destruct (@updateKey demo_runtime demo_durations "A" "7" r x) as [res x'].
  cbn [fst snd] in *. subst res. exists x'. split; [reflexivity|]. unfold answered in Hw.
  rewrite Hst in Hw. destruct Hw as [?|(_ & a & k & body & Ha & Hkey & _ & Hv & _)]; [discriminate|].
  exists a, k. split; [exact Ha|]. split; [exact Hkey|apply Hv].
Defined.

(** A PUT on a peer or on a setup key, or a POST of a setup key, whose body
    is the JSON value [null], panics: decoding makes the request pointer nil,
    which is not an error, and the pointer is dereferenced. *)
Theorem null_body_panics `{Runtime} `{Durations} id keyId peer r x :
  Req_Body r = inr JNull →
  let nil_panic := (Panic "invalid memory address or nil pointer dereference", x) in
  updatePeer id peer r x = nil_panic ∧ updateKey id keyId r x = nil_panic ∧
  createKey id r x = nil_panic.
Proof. intros Hb. unfold updatePeer, updateKey, createKey, decode_body. by rewrite Hb. Qed.

Lemma null_body_panics_witness :
  (@updatePeer demo_runtime "A" (demo_peer "p" 1) (demo_request "PUT" "100.64.0.1" (inr JNull))
    (office "admin" None)).1 = Panic "invalid memory address or nil pointer dereference".
Proof.
  destruct (@null_body_panics demo_runtime demo_durations "A" "7" (demo_peer "p" 1)
    (demo_request "PUT" "100.64.0.1" (inr JNull)) (office "admin" None) eq_refl) as [Hp _].
  exact (f_equal fst Hp).
Defined.

(** When the account of the token cannot be had, the user list does not
    answer: the handler goes on and dereferences a nil account.  The other
    lists answer 500. *)
Theorem users_without_account_panic `{Runtime} `{Durations} audience r x c e w' :
  Req_Method r = "GET" → Resp_Sent (Ex_Resp x) = None →
  ExtractClaimsFromRequestContext (Ex_User x) audience x = (Ok c, x) →
  GetAccountWithAuthorizationClaims c (Ex_World x) = (Err e, w') →
  wp (GetUsers audience r) (λ res _,
    res = Panic "invalid memory address or nil pointer dereference") x ∧
  ∀ h, h ∈ [GetPeers audience; GetAllGroupsHandler audience; GetAllRulesHandler audience;
             GetKeys audience] →
    wp (h r) (λ res x', res = Ok tt ∧ answered 500 x') x.
Proof.
  intros Hm Hs Hc Hget.
  assert (∀ Q : Res Account → Exchange → Prop,
    (∀ e', Q (Err e') (mkExchange w' (Ex_User x) (Ex_Resp x))) → wp (getPeerAccount audience) Q x) as Hacc.
  { intros Q HQ. eapply getPeerAccount_spec; [exact Hc|]. unfold wp. rewrite Hget. exact HQ. }
  split.
  - unfold GetUsers. wp_step. wp_step; [|].
    { exfalso. by rewrite bool_decide_eq_true in *. }
    simpl. wp_step. wp_step. apply Hacc. intros e'. by wp_step.
  - assert (∀ k, wp (or_redirect r (getPeerAccount audience) k)
      (λ res x', res = Ok tt ∧ answered 500 x') x) as Hred.
    { intros k. apply or_redirect_spec, Hacc. intros e'. done. }
    intros h Hh. repeat (apply elem_of_cons in Hh as [->|Hh]); [| | | |by apply not_elem_of_nil in Hh].
    + unfold GetPeers. rewrite decide_True by done. apply Hred.
    + apply Hred.
    + apply Hred.
    + apply Hred.
Qed.

Lemma users_without_account_panic_witness :
  (@GetUsers demo_runtime "aud" (demo_request "GET" "" (inr JNull))
     (mkExchange emptyWorld (Some (mkToken ∅ {["sub" := CString ""]} true)) emptyResponse)).1
  = Panic "invalid memory address or nil pointer dereference".
Proof.
  pose (x := mkExchange emptyWorld (Some (mkToken ∅ {["sub" := CString ""]} true)) emptyResponse).
  assert (@GetAccountWithAuthorizationClaims demo_runtime (mkClaims "" "" "" "") emptyWorld
    = (Err (Status NotFound "no valid user or account Id provided"), emptyWorld)) as Hget
    by (vm_compute; reflexivity).
  exact (proj1 (@users_without_account_panic demo_runtime demo_durations "aud" (demo_request "GET" "" (inr JNull)) x
    (mkClaims "" "" "" "") _ _ eq_refl eq_refl ltac:(vm_compute; reflexivity) Hget)).
Defined.
