(* ===== verification/Auth0.v ===== *)
(** * Auth0: the client of the identity provider (management/server/idp)

    The management service keeps a token for the provider's management API and
    asks it for the users of an account, for one user, and to write the
    account into a user's metadata.  The HTTP client, the encodings and the
    clock are parameters, by the class [IdpHttp]; the state is the cached
    token, the number of response bodies that are open, and the outside [X]. *)

From S2P Require Import Prelude GoLib Model Turn Http.

(** [expiresInTime] is in nanoseconds since 1970. *)
Record JWTToken := mkJWTToken {
  JWT_AccessToken : string; JWT_ExpiresIn : Z; JWT_expiresInTime : Z;
  JWT_Scope : string; JWT_TokenType : string }.
Definition set_JWT_expiresInTime (t : Z) (j : JWTToken) : JWTToken :=
  mkJWTToken (JWT_AccessToken j) (JWT_ExpiresIn j) t (JWT_Scope j) (JWT_TokenType j).

(** The zero [time.Time], and [time.Unix(sec, 0)]: the seconds are kept since
    the year 1, in 64 bits. *)
Definition unixToInternal : Z := 62135596800.
Definition time_zero : Z := - unixToInternal * 1000000000.
Definition time_Unix (sec : Z) : Z := (wrap_i64 (sec + unixToInternal) - unixToInternal) * 1000000000.
Definition zero_JWTToken : JWTToken := mkJWTToken "" 0 time_zero "" "".

Definition zero_UserData : UserData := mkUserData "" "" "".

(* ------------------------------------------------------------------ *)
(** ** Decoding *)

Definition assign_JWTToken (key : string) (v : Json) (t : JWTToken) : option JWTToken :=
  let '(mkJWTToken a e x s y) := t in
  if is_field "access_token" key then (λ b, mkJWTToken b e x s y) <$> decode_string a v
  else if is_field "expires_in" key then (λ b, mkJWTToken a b x s y) <$> decode_int e v
  else if is_field "scope" key then (λ b, mkJWTToken a e x b y) <$> decode_string s v
  else if is_field "token_type" key then (λ b, mkJWTToken a e x s b) <$> decode_string y v
  else Some t.

Definition assign_IssuedAt (key : string) (v : Json) (exp : Z) : option Z :=
  if is_field "Exp" key then decode_int exp v else Some exp.

Definition assign_UserData (key : string) (v : Json) (u : UserData) : option UserData :=
  let '(mkUserData e n i) := u in
  if is_field "email" key then (λ b, mkUserData b n i) <$> decode_string e v
  else if is_field "name" key then (λ b, mkUserData e b i) <$> decode_string n v
  else if is_field "user_id" key then (λ b, mkUserData e n b) <$> decode_string i v
  else Some u.

Definition decode_UserData (j : Json) : option UserData := decode_struct assign_UserData zero_UserData j.

(** [var batch []UserData]: [null] leaves it nil. *)
Definition decode_batch (j : Json) : option (list UserData) :=
  match j with JNull => Some [] | JArray l => mapM decode_UserData l | _ => None end.

(* ------------------------------------------------------------------ *)
(** ** Query strings *)

Definition hex_digit (n : nat) : ascii := ascii_of_nat (if n <? 10 then 48 + n else 55 + n).
Definition is_unreserved (a : ascii) : bool :=
  let n := nat_of_ascii a in
  ((65 <=? n) && (n <=? 90)) || ((97 <=? n) && (n <=? 122)) || ((48 <=? n) && (n <=? 57)) ||
  (n =? 45) || (n =? 46) || (n =? 95) || (n =? 126).

(** [url.QueryEscape]. *)
Fixpoint QueryEscape (s : string) : string :=
  match s with
  | EmptyString => ""
  | String a s' =>
      if is_unreserved a then String a (QueryEscape s')
      else if decide (a = " "%char) then String "+" (QueryEscape s')
      else String "%" (String (hex_digit (nat_of_ascii a / 16))
             (String (hex_digit (nat_of_ascii a mod 16)) (QueryEscape s')))
  end.

(** [url.Values], in the order of the keys. *)
Definition Values := list (string * list string).
Fixpoint Values_Set (key value : string) (q : Values) : Values :=
  match q with
  | [] => [(key, [value])]
  | (k, vs) :: q' =>
      if decide (k = key) then (key, [value]) :: q'
      else if String.ltb key k then (key, [value]) :: q
      else (k, vs) :: Values_Set key value q'
  end.
Definition Values_Encode (q : Values) : string :=
  Join (q ≫= λ kv, (λ v, QueryEscape kv.1 +:+ "=" +:+ QueryEscape v) <$> kv.2) "&".

(* ------------------------------------------------------------------ *)
(** ** HTTP *)

Record HttpReq := mkHttpReq {
  HQ_Method : string; HQ_URL : string; HQ_Authorization : option string; HQ_Payload : option string }.

(** A response: reading the body fails or gives its bytes, and closing it may
    fail. *)
Record HttpResp := mkHttpResp { HP_StatusCode : Z; HP_Body : error + string; HP_Close : option error }.

(** [url_Parse] gives the text of the URL without its query, and the query. *)
Class IdpHttp (X : Type) := {
  idp_NewRequest : string → string → option error;   (** method, URL *)
  idp_Do : HttpReq → M X HttpResp;
  idp_now : X → Z;
  idp_Marshal : Json → error + string;
  idp_Unmarshal : string → error + Json;
  jwt_DecodeSegment : string → error + string;
  url_Parse : string → error + (string * Values)
}.

Record IdpState (X : Type) := mkIdp { Idp_jwtToken : JWTToken; Idp_open : nat; Idp_out : X }.
Arguments mkIdp {X} _ _ _.
Arguments Idp_jwtToken {X} _.
Arguments Idp_open {X} _.
Arguments Idp_out {X} _.
Definition set_Idp_jwtToken {X} (t : JWTToken) (w : IdpState X) : IdpState X := mkIdp t (Idp_open w) (Idp_out w).

Section auth0.
Context {X : Type} `{IdpHttp X}.
Abbreviation MA := (M (IdpState X)).

Definition of_sum {A} (s : error + A) : MA A := match s with inl e => fail e | inr a => mret a end.
Definition of_error (o : option error) : MA unit := match o with Some e => fail e | None => mret tt end.

(** [httpClient.Do]: with a response there is a body to close. *)
Definition Client_Do (req : HttpReq) : MA HttpResp := λ w,
  match idp_Do req (Idp_out w) with
  | (Ok res, x) => (Ok res, mkIdp (Idp_jwtToken w) (S (Idp_open w)) x)
  | (Err e, x) => (Err e, mkIdp (Idp_jwtToken w) (Idp_open w) x)
  | (Panic s, x) => (Panic s, mkIdp (Idp_jwtToken w) (Idp_open w) x)
  | (Blocked, x) => (Blocked, mkIdp (Idp_jwtToken w) (Idp_open w) x)
  end.
Definition Body_Close : MA unit :=
  modify (λ w, mkIdp (Idp_jwtToken w) (pred (Idp_open w)) (Idp_out w)).

(** [defer func() { err = res.Body.Close(); log }()]: also when the rest
    panics. *)
Definition defer_close {A} (m : MA A) : MA A := λ w,
  let '(r, w') := m w in (r, (Body_Close w').2).

Definition json_type_error : error := Plain "json: cannot unmarshal".
Definition decoded {A} (decode : Json → option A) (body : string) : MA A :=
  j ← of_sum (idp_Unmarshal body); or_fail (decode j) json_type_error.

(* ------------------------------------------------------------------ *)
(** ** Configuration *)

Definition NewAuth0Manager (config : Auth0ClientConfig) : error + Auth0ClientConfig :=
  if bool_decide (A0C_ClientID config = "") || bool_decide (A0C_ClientSecret config = "") ||
     bool_decide (A0C_GrantType config = "") || bool_decide (A0C_Audience config = "") ||
     bool_decide (A0C_AuthIssuer config = "")
  then inl (Plain "auth0 idp configuration is not complete")
  else if decide (A0C_GrantType config ≠ "client_credentials") then
    inl (Plain "auth0 idp configuration failed. Grant Type should be client_credentials")
  else if negb (String.prefix "https://" (ToLower (A0C_AuthIssuer config))) then
    inl (Plain "auth0 idp configuration failed. AuthIssuer should contain https://")
  else inr config.

(** [NewManager]: no manager, or the Auth0 manager of the configuration. *)
Definition NewManager (config : IdpConfig) : error + option Auth0ClientConfig :=
  let t := ToLower (IdpC_ManagerType config) in
  if decide (t = "none" ∨ t = "") then inr None
  else if decide (t = "auth0") then
    match NewAuth0Manager (IdpC_Auth0ClientCredentials config) with inl e => inl e | inr c => inr (Some c) end
  else inl (Plain ("invalid manager type: " +:+ IdpC_ManagerType config)).

(* ------------------------------------------------------------------ *)
(** ** Credentials *)

Definition jwtStillValid : MA bool := gets (λ w,
  let t := JWT_expiresInTime (Idp_jwtToken w) in
  bool_decide (t ≠ time_zero) && (idp_now (Idp_out w) + 5 * 1000000000 <? t)%Z).

Definition auth0JWTRequest (c : Auth0ClientConfig) : Json :=
  JObject [("audience", JString (A0C_Audience c)); ("auth_issuer", JString (A0C_AuthIssuer c));
           ("client_id", JString (A0C_ClientID c)); ("client_secret", JString (A0C_ClientSecret c));
           ("grant_type", JString (A0C_GrantType c))].

Definition requestJWTToken (c : Auth0ClientConfig) : MA HttpResp :=
  let reqURL := A0C_AuthIssuer c +:+ "/oauth/token" in
  p ← of_sum (idp_Marshal (auth0JWTRequest c));
  _ ← of_error (idp_NewRequest "POST" reqURL);
  res ← Client_Do (mkHttpReq "POST" reqURL None (Some p));
  if decide (HP_StatusCode res ≠ 200)%Z then
    fail (Plain ("unable to get token, statusCode " +:+ Itoa (HP_StatusCode res)))
  else mret res.

(** The part of the token between its first dots; without a dot the index is
    out of range. *)
Definition token_payload (accessToken : string) : MA string :=
  match Split accessToken "."%char !! 1 with
  | None => panic "index out of range [1] with length 1"
  | Some s => of_sum (jwt_DecodeSegment s)
  end.

Definition parseRequestJWTResponse (rawBody : error + string) : MA JWTToken :=
  body ← of_sum rawBody;
  jwtToken ← decoded (decode_struct assign_JWTToken zero_JWTToken) body;
  if bool_decide (JWT_ExpiresIn jwtToken = 0%Z) && bool_decide (JWT_AccessToken jwtToken = "") then
    fail (Plain ("error while reading response body, expires_in: " +:+ Itoa (JWT_ExpiresIn jwtToken) +:+
                 " and access_token: " +:+ JWT_AccessToken jwtToken))
  else
    data ← token_payload (JWT_AccessToken jwtToken);
    exp ← decoded (decode_struct assign_IssuedAt 0%Z) data;
    mret (set_JWT_expiresInTime (time_Unix exp) jwtToken).

(** The lock is held throughout. *)
Definition Authenticate (c : Auth0ClientConfig) : MA JWTToken :=
  valid ← jwtStillValid;
  if valid : bool then gets Idp_jwtToken
  else
    res ← requestJWTToken c;
    defer_close (
      jwtToken ← parseRequestJWTResponse (HP_Body res);
      _ ← modify (set_Idp_jwtToken jwtToken);
      mret jwtToken).

(* ------------------------------------------------------------------ *)
(** ** The management API *)

Definition batchRequestUsersUrl (authIssuer accountId : string) (page : nat) : error + (string * Values) :=
  match url_Parse (authIssuer +:+ "/api/v2/users") with
  | inl e => inl e
  | inr (u, query) =>
      let q := Values_Set "q" ("app_metadata.wt_account_id:" +:+ accountId)
                 (Values_Set "search_engine" "v3" (Values_Set "page" (Itoa (Z.of_nat page)) query)) in
      inr (u +:+ "?" +:+ Values_Encode q, q)
  end.

Definition requestByUserIdUrl (authIssuer userId : string) : string := authIssuer +:+ "/api/v2/users/" +:+ userId.

Definition bearer (t : JWTToken) : option string := Some ("Bearer " +:+ JWT_AccessToken t).

(** A turn of the loop of [GetBatchedUserData]. *)
Definition request_batch (c : Auth0ClientConfig) (t : JWTToken) (accountId : string) (page : nat) : MA (list UserData) :=
  uq ← of_sum (batchRequestUsersUrl (A0C_AuthIssuer c) accountId page);
  let '(reqURL, query) := uq in
  _ ← of_error (idp_NewRequest "GET" reqURL);
  res ← Client_Do (mkHttpReq "GET" reqURL (bearer t) (Some (Values_Encode query)));
  body ← of_sum (HP_Body res);
  batch ← decoded decode_batch body;
  _ ← Body_Close;
  _ ← of_error (HP_Close res);
  if decide (HP_StatusCode res ≠ 200)%Z then
    fail (Plain ("unable to request UserData from auth0, statusCode " +:+ Itoa (HP_StatusCode res)))
  else mret batch.

(** [for page := 0; page < 20; page++]: [n] pages are left. *)
Fixpoint request_batches (c : Auth0ClientConfig) (t : JWTToken) (accountId : string) (n page : nat) (list' : list UserData)
    : MA (list UserData) :=
  match n with
  | 0 => mret list'
  | S n' =>
      batch ← request_batch c t accountId page;
      if decide (batch = []) then mret list'
      else request_batches c t accountId n' (S page) (list' ++ batch)
  end.

Definition max_pages : nat := 20.
Definition Auth0_GetBatchedUserData (c : Auth0ClientConfig) (accountId : string) : MA (list UserData) :=
  jwtToken ← Authenticate c;
  request_batches c jwtToken accountId max_pages 0 [].

Definition Auth0_GetUserDataByID (c : Auth0ClientConfig) (userId : string) : MA UserData :=
  jwtToken ← Authenticate c;
  let reqURL := requestByUserIdUrl (A0C_AuthIssuer c) userId in
  _ ← of_error (idp_NewRequest "GET" reqURL);
  res ← Client_Do (mkHttpReq "GET" reqURL (bearer jwtToken) None);
  body ← of_sum (HP_Body res);
  userData ← decoded decode_UserData body;
  defer_close (
    if decide (HP_StatusCode res ≠ 200)%Z then
      fail (Plain ("unable to get UserData, statusCode " +:+ Itoa (HP_StatusCode res)))
    else mret userData).

Definition AppMetadata_json (wtAccountId : string) : Json := JObject [("wt_account_id", JString wtAccountId)].

(** A double quote. *)
Definition quote_char : string := String (ascii_of_nat 34) "".

Definition Auth0_UpdateUserAppMetadata (c : Auth0ClientConfig) (userId wtAccountId : string) : MA unit :=
  jwtToken ← Authenticate c;
  let reqURL := A0C_AuthIssuer c +:+ "/api/v2/users/" +:+ userId in
  data ← of_sum (idp_Marshal (AppMetadata_json wtAccountId));
  let payload := "{" +:+ quote_char +:+ "app_metadata" +:+ quote_char +:+ ": " +:+ data +:+ "}" in
  _ ← of_error (idp_NewRequest "PATCH" reqURL);
  res ← Client_Do (mkHttpReq "PATCH" reqURL (bearer jwtToken) (Some payload));
  defer_close (
    if decide (HP_StatusCode res ≠ 200)%Z then
      fail (Plain ("unable to update the appMetadata, statusCode " +:+ Itoa (HP_StatusCode res)))
    else mret tt).
End auth0.

(* ------------------------------------------------------------------ *)
(** ** Properties *)

Section spec.
Context {X : Type} `{IdpHttp X}.
Implicit Types w : IdpState X.

(** The claims part of the token decodes, and its expiry is [exp]. *)
Definition carries_exp (accessToken : string) (exp : Z) : Prop :=
  ∃ seg data j, Split accessToken "."%char !! 1 = Some seg ∧ jwt_DecodeSegment seg = inr data ∧
    idp_Unmarshal data = inr j ∧ decode_struct assign_IssuedAt 0%Z j = Some exp.

(** The token is cached with the expiry it carries. *)
Definition dated (t : JWTToken) : Prop :=
  ∃ exp, carries_exp (JWT_AccessToken t) exp ∧ JWT_expiresInTime t = time_Unix exp.
Definition cache_ok (w : IdpState X) : Prop := Idp_jwtToken w = zero_JWTToken ∨ dated (Idp_jwtToken w).

(** There are more than five seconds left. *)
Definition still_valid (w : IdpState X) : Prop :=
  JWT_expiresInTime (Idp_jwtToken w) ≠ time_zero ∧
  (idp_now (Idp_out w) + 5 * 1000000000 < JWT_expiresInTime (Idp_jwtToken w))%Z.

Lemma jwtStillValid_spec w :
  wp jwtStillValid (λ r w', w' = w ∧ ∃ b : bool, r = Ok b ∧ (b = true ↔ still_valid w)) w.
Proof.
  unfold jwtStillValid. wp_step. split; [done|]. eexists; split; [done|].
  unfold still_valid. rewrite andb_true_iff, bool_decide_eq_true, Z.ltb_lt. done.
Qed.

Lemma wp_of_sum {A} (s : error + A) (Q : Res A → IdpState X → Prop) w :
  (∀ e, s = inl e → Q (Err e) w) → (∀ a, s = inr a → Q (Ok a) w) → wp (of_sum s) Q w.
Proof. destruct s; unfold wp; simpl; auto. Qed.

Lemma wp_of_error (o : option error) (Q : Res unit → IdpState X → Prop) w :
  (∀ e, o = Some e → Q (Err e) w) → (o = None → Q (Ok tt) w) → wp (of_error o) Q w.
Proof. destruct o; unfold wp; simpl; auto. Qed.

Lemma wp_decoded {A} (decode : Json → option A) body (Q : Res A → IdpState X → Prop) w :
  (∀ j a, idp_Unmarshal body = inr j → decode j = Some a → Q (Ok a) w) →
  (∀ e, Q (Err e) w) → wp (decoded decode body) Q w.
Proof.
  intros Hok Herr. unfold decoded. wp_step. apply wp_of_sum; [intros; apply Herr|]. intros j Hj. simpl.
  wp_step; [by eapply Hok|apply Herr].
Qed.

Lemma wp_Client_Do req (Q : Res HttpResp → IdpState X → Prop) w :
  (∀ r x, idp_Do req (Idp_out w) = (r, x) →
     Q r (mkIdp (Idp_jwtToken w) (match r with Ok _ => S (Idp_open w) | _ => Idp_open w end) x)) →
  wp (Client_Do req) Q w.
Proof. intros HQ. unfold wp, Client_Do. destruct (idp_Do req (Idp_out w)) as [[] x] eqn:E; simpl; exact (HQ _ _ eq_refl). Qed.

Lemma wp_defer_close {A} (m : M (IdpState X) A) (Q : Res A → IdpState X → Prop) w :
  wp m (λ r w', Q r (mkIdp (Idp_jwtToken w') (pred (Idp_open w')) (Idp_out w'))) w → wp (defer_close m) Q w.
Proof. unfold wp, defer_close. by destruct (m w). Qed.

(** What [parseRequestJWTResponse] gives has the expiry it carries; it does not
    touch the state. *)
Lemma parseRequestJWTResponse_spec rawBody w :
  wp (parseRequestJWTResponse rawBody) (λ r w', w' = w ∧
    match r with
    | Ok t => dated t
    | Panic _ => ∃ body j t, rawBody = inr body ∧ idp_Unmarshal body = inr j ∧
        decode_struct assign_JWTToken zero_JWTToken j = Some t ∧ Split (JWT_AccessToken t) "."%char !! 1 = None
    | Blocked => False
    | Err _ => True
    end) w.
Proof.
  unfold parseRequestJWTResponse. wp_step. apply wp_of_sum; [done|]. intros body ->. simpl.
  wp_step. apply wp_decoded; [|done]. intros j t Hj Ht. simpl. wp_step; [by wp_step|].
  unfold token_payload. wp_step. destruct (Split _ _ !! 1) as [seg|] eqn:Hseg.
  - apply wp_of_sum; [done|]. intros data Hdata. simpl. wp_step. apply wp_decoded; [|done].
    intros j' exp Hj' Hexp. simpl. wp_step. split; [done|]. exists exp. split; [|by destruct t].
    exists seg, data, j'. by destruct t.
  - wp_step. split; [done|]. by exists body, j, t.
Qed.

Lemma requestJWTToken_spec c w :
  wp (requestJWTToken c) (λ r w', Idp_jwtToken w' = Idp_jwtToken w ∧
    match r with
    | Ok res => Idp_open w' = S (Idp_open w) ∧ HP_StatusCode res = 200%Z
    | Err _ => Idp_open w ≤ Idp_open w' ≤ S (Idp_open w)
    | _ => Idp_open w' = Idp_open w
    end) w.
Proof.
  unfold requestJWTToken. wp_step. apply wp_of_sum; [simpl; split; [done|lia]|]. intros p _. simpl.
  wp_step. apply wp_of_error; [simpl; split; [done|lia]|]. intros _. simpl.
  wp_step. apply wp_Client_Do. intros [res|e|s|] x Hx; simpl; [|split; [done|lia]..].
  case_decide; wp_step; (split; [done|]); simpl; [lia|done].
Qed.

(** [Authenticate] in full: the cached token while it lasts, otherwise the
    provider's, dated and cached; a failure leaves the cache. *)
Lemma Authenticate_spec c w :
  wp (Authenticate c) (λ r w',
    (still_valid w ∧ r = Ok (Idp_jwtToken w) ∧ w' = w) ∨
    (¬ still_valid w ∧
     match r with
     | Ok t => Idp_jwtToken w' = t ∧ dated t ∧ Idp_open w' = Idp_open w
     | Err _ => Idp_jwtToken w' = Idp_jwtToken w ∧ Idp_open w ≤ Idp_open w' ≤ S (Idp_open w)
     | _ => Idp_jwtToken w' = Idp_jwtToken w ∧ Idp_open w' = Idp_open w
     end)) w.
Proof.
  unfold Authenticate. wp_step. eapply wp_mono; [apply jwtStillValid_spec|].
  intros r w0 (-> & b & -> & Hb). simpl. destruct b.
  { wp_step. left. split; [by apply Hb|done]. }
  assert (¬ still_valid w) as Hnv by (rewrite <- Hb; done).
  wp_step. eapply wp_mono; [apply requestJWTToken_spec|]. intros [res|e|s|] w1 [Ht Hr]; simpl; [|by right..].
  destruct Hr as [Hopen _]. apply wp_defer_close. wp_step.
  eapply wp_mono; [apply parseRequestJWTResponse_spec|].
  intros [t|e|s|] w2 [-> Hp]; simpl; try done; [|right; rewrite Hopen; split; [done|]; simpl..].
  - wp_step. wp_step. wp_step. right. split; [done|]. rewrite Hopen. done.
  - split; [done|lia].
  - done.
Qed.
End spec.

Section properties.
Context {X : Type} `{IdpHttp X}.
Implicit Types w : IdpState X.

Lemma Authenticate_cache c w : cache_ok w → wp (Authenticate c) (λ _ w', cache_ok w') w.
Proof.
  intros Hw. eapply wp_mono; [apply Authenticate_spec|]. unfold cache_ok.
  intros r w' [(_ & _ & ->)|[_ Hr]]; [done|].
  destruct r as [t|e|s|]; destruct Hr as [Ht Hr]; rewrite Ht; [right; apply Hr|done..].
Qed.

(** A part of an operation that does not touch the cached token. *)
Definition leaves_token {A} (m : M (IdpState X) A) : Prop := ∀ w, wp m (λ _ w', Idp_jwtToken w' = Idp_jwtToken w) w.

Lemma leaves_bind {A B} (m : M (IdpState X) A) (f : A → M (IdpState X) B) :
  leaves_token m → (∀ a, leaves_token (f a)) → leaves_token (m ≫= f).
Proof.
  intros Hm Hf w. wp_step. eapply wp_mono; [apply Hm|]. intros [a|e|s|] w' Hw'; simpl; try done.
  eapply wp_mono; [apply Hf|]. by intros _ w'' ->.
Qed.
Lemma leaves_of_sum {A} (s : error + A) : leaves_token (of_sum s).
Proof. intros w. by apply wp_of_sum. Qed.
Lemma leaves_of_error o : leaves_token (of_error o).
Proof. intros w. by apply wp_of_error. Qed.
Lemma leaves_decoded {A} (decode : Json → option A) body : leaves_token (decoded decode body).
Proof. intros w. by apply wp_decoded. Qed.
Lemma leaves_or_fail {A} (o : option A) e : leaves_token (or_fail o e).
Proof. by destruct o. Qed.
Lemma leaves_Do req : leaves_token (Client_Do req).
Proof. intros w. by apply wp_Client_Do. Qed.
Lemma leaves_close : leaves_token Body_Close.
Proof. done. Qed.
Lemma leaves_defer {A} (m : M (IdpState X) A) : leaves_token m → leaves_token (defer_close m).
Proof. intros Hm w. by apply wp_defer_close, Hm. Qed.
Lemma leaves_ret {A} (a : A) : leaves_token (mret a).
Proof. done. Qed.
Lemma leaves_fail {A} e : leaves_token (fail (A := A) e).
Proof. done. Qed.

Create HintDb leaves discriminated.
#[local] Hint Resolve leaves_bind leaves_of_sum leaves_of_error leaves_decoded leaves_Do leaves_close leaves_defer
  leaves_ret leaves_fail leaves_or_fail : leaves.
Ltac leaves := repeat first [apply leaves_bind; [|intros ?]|apply leaves_defer|case_decide|case_match]; auto with leaves.

Lemma leaves_request_batch c t accountId page : leaves_token (request_batch c t accountId page).
Proof. unfold request_batch. leaves. Qed.

Lemma leaves_request_batches c t accountId n page l : leaves_token (request_batches c t accountId n page l).
Proof.
  revert page l. induction n as [|n IH]; intros page l; simpl; [by leaves|].
  apply leaves_bind; [apply leaves_request_batch|]. intros batch. case_decide; [by leaves|apply IH].
Qed.

(** After [Authenticate], the rest of an operation keeps the cache. *)
Lemma api_keeps_cache {A} c (f : JWTToken → M (IdpState X) A) w :
  (∀ t, leaves_token (f t)) → cache_ok w → wp (Authenticate c ≫= f) (λ _ w', cache_ok w') w.
Proof.
  intros Hf Hw. wp_step. eapply wp_mono; [by apply Authenticate_cache|]. intros [t|e|s|] w' Hw'; simpl; try done.
  eapply wp_mono; [apply Hf|]. unfold cache_ok. by intros _ w'' ->.
Qed.

(** The cached token is always dated with the expiry it carries itself,
    whatever the provider answers and whichever operation fails; a token is
    used from the cache only with more than five seconds left, and one that has
    been fetched is dated by its own claims; a failure to get one leaves the
    cache as it was. *)
Theorem auth0_token_dated c userId metadata accountId w :
  cache_ok w →
  wp (Authenticate c) (λ r w', cache_ok w' ∧
    match r with
    | Ok t => t = Idp_jwtToken w' ∧
        ((still_valid w ∧ w' = w) ∨ (¬ still_valid w ∧ dated t ∧ Idp_open w' = Idp_open w))
    | _ => Idp_jwtToken w' = Idp_jwtToken w
    end) w ∧
  wp (Auth0_UpdateUserAppMetadata c userId metadata) (λ _ w', cache_ok w') w ∧
  wp (Auth0_GetUserDataByID c userId) (λ _ w', cache_ok w') w ∧
  wp (Auth0_GetBatchedUserData c accountId) (λ _ w', cache_ok w') w.
Proof.
  intros Hw. split_and!.
  - eapply wp_mono; [apply wp_and; [apply Authenticate_spec|by apply Authenticate_cache]|].
    intros r w' [[(? & -> & ->)|[? Hr]] Hc]; (split; [done|]); [by eauto|]. destruct r; destruct_and?; eauto.
  - apply api_keeps_cache; [|done]. intros t. leaves.
  - apply api_keeps_cache; [|done]. intros t. leaves.
  - apply api_keeps_cache; [|done]. intros t. apply leaves_request_batches.
Qed.

(** The request for a page. *)
Definition page_request (c : Auth0ClientConfig) (t : JWTToken) (u : string) (q : Values) (accountId : string) (page : nat) : HttpReq :=
  let v := Values_Set "q" ("app_metadata.wt_account_id:" +:+ accountId)
             (Values_Set "search_engine" "v3" (Values_Set "page" (Itoa (Z.of_nat page)) q)) in
  mkHttpReq "GET" (u +:+ "?" +:+ Values_Encode v) (bearer t) (Some (Values_Encode v)).

(** The provider answers the first [k] pages with users, and then an empty one,
    unless twenty have been asked for. *)
Section provider.
Context (c : Auth0ClientConfig) (t : JWTToken) (u : string) (q : Values) (accountId : string).
Context (k : nat) (pages : nat → list UserData) (bodies : nat → string).
Hypothesis Hurl : url_Parse (A0C_AuthIssuer c +:+ "/api/v2/users") = inr (u, q).
Hypothesis Hreq : ∀ url, idp_NewRequest "GET" url = None.
Hypothesis Hdo : ∀ page x, page ≤ k → page < 20 → ∃ x', idp_Do (page_request c t u q accountId page) x = (Ok (mkHttpResp 200 (inr (bodies page)) None), x').
Hypothesis Hbody : ∀ page, page ≤ k → page < 20 → ∃ j, idp_Unmarshal (bodies page) = inr j ∧ decode_batch j = Some (pages page).
Hypothesis Hfull : ∀ page, page < k → pages page ≠ [].
Hypothesis Hlast : k < 20 → pages k = [].

Lemma request_batch_page page w :
  page ≤ k → page < 20 →
  ∃ x', request_batch c t accountId page w = (Ok (pages page), mkIdp (Idp_jwtToken w) (Idp_open w) x').
Proof using Hurl Hreq Hdo Hbody.
  intros Hp Hp'. destruct (Hdo page (Idp_out w) Hp Hp') as [x' Hx]. destruct (Hbody page Hp Hp') as (j & Hj & Hb). exists x'.
  unfold request_batch, batchRequestUsersUrl, mbind, M_bind. rewrite Hurl. simpl. rewrite Hreq. simpl.
  unfold Client_Do. unfold page_request in Hx. rewrite Hx. simpl. unfold decoded, mbind, M_bind. rewrite Hj. simpl. rewrite Hb.
  done.
Qed.

(** Reading on from [page]. *)
Lemma request_batches_pages n page l w :
  page + n = 20 → page ≤ k → k ≤ 20 →
  ∃ x', request_batches c t accountId n page l w =
    (Ok (l ++ mjoin (pages <$> seq page (k - page))), mkIdp (Idp_jwtToken w) (Idp_open w) x').
Proof using All.
  revert page l w. induction n as [|n IH]; intros page l w Hn Hk Hk'; simpl.
  { exists (Idp_out w). replace (k - page) with 0 by lia. simpl. rewrite app_nil_r. by destruct w. }
  destruct (request_batch_page page w Hk ltac:(lia)) as [x1 Hx1]. erewrite bind_run by exact Hx1. case_decide as Hempty.
  - exists x1. assert (k = page) as ->; [|rewrite Nat.sub_diag; simpl; by rewrite app_nil_r].
    destruct (decide (page < k)) as [Hlt|]; [by destruct (Hfull page Hlt)|lia].
  - assert (page < k) as Hlt by (destruct (decide (page = k)) as [->|]; [by rewrite Hlast in Hempty by lia|lia]).
    destruct (IH (S page) (l ++ pages page) (mkIdp (Idp_jwtToken w) (Idp_open w) x1) ltac:(lia) ltac:(lia) Hk') as [x2 Hx2].
    exists x2. rewrite Hx2. simpl. do 2 f_equal. rewrite <- app_assoc. f_equal.
    replace (k - page) with (S (k - S page)) by lia. done.
Qed.
End provider.
End properties.

Section results.
Context {X : Type} `{IdpHttp X}.
Implicit Types w : IdpState X.

(** C20: [GetBatchedUserData], once authenticated, whether with a cached token
    or with one just requested, asks for page after page until one is empty, and
    for twenty at most, and returns the users of these pages in order, however
    many there are on each; it closes every body and keeps the token.  Without a
    token it asks for nothing and fails with the error of the request for it. *)
Theorem batched_users_complete c t u q accountId k pages bodies w w1 :
  Authenticate c w = (Ok t, w1) →
  url_Parse (A0C_AuthIssuer c +:+ "/api/v2/users") = inr (u, q) →
  (∀ url, idp_NewRequest "GET" url = None) →
  k ≤ 20 → (∀ page, page < k → pages page ≠ []) → (k < 20 → pages k = []) →
  (∀ page x, page ≤ k → page < 20 → ∃ x', idp_Do (page_request c t u q accountId page) x =
     (Ok (mkHttpResp 200 (inr (bodies page)) None), x')) →
  (∀ page, page ≤ k → page < 20 → ∃ j, idp_Unmarshal (bodies page) = inr j ∧ decode_batch j = Some (pages page)) →
  (∃ x', Auth0_GetBatchedUserData c accountId w =
    (Ok (mjoin (pages <$> seq 0 k)), mkIdp (Idp_jwtToken w1) (Idp_open w1) x')) ∧
  ∀ e w0 w0', Authenticate c w0 = (Err e, w0') → Auth0_GetBatchedUserData c accountId w0 = (Err e, w0').
Proof.
  intros Ha Hurl Hreq Hk Hfull Hlast Hdo Hbody. split.
  - destruct (request_batches_pages c t u q accountId k pages bodies Hurl Hreq Hdo Hbody Hfull Hlast 20 0 [] w1 eq_refl ltac:(lia) Hk) as [x' Hx].
    exists x'. unfold Auth0_GetBatchedUserData, max_pages. erewrite bind_run by exact Ha. rewrite Hx. by rewrite Nat.sub_0_r.
  - intros e w0 w0' He. unfold Auth0_GetBatchedUserData, mbind, M_bind. by rewrite He.
Qed.

(** An answer to the request for users that is a JSON object, as the
    provider's errors are, is reported as a decoding error whatever its status,
    and its body stays open. *)
Theorem error_answer_leaks_body c t u q accountId page status body close fields w x' :
  url_Parse (A0C_AuthIssuer c +:+ "/api/v2/users") = inr (u, q) →
  idp_NewRequest "GET" (HQ_URL (page_request c t u q accountId page)) = None →
  idp_Do (page_request c t u q accountId page) (Idp_out w) = (Ok (mkHttpResp status (inr body) close), x') →
  idp_Unmarshal body = inr (JObject fields) →
  request_batch c t accountId page w = (Err json_type_error, mkIdp (Idp_jwtToken w) (S (Idp_open w)) x').
Proof.
  intros Hurl Hreq Hx Hj. unfold request_batch, batchRequestUsersUrl, mbind, M_bind. rewrite Hurl. simpl.
  unfold page_request in Hreq, Hx. simpl in Hreq. rewrite Hreq. simpl. unfold Client_Do. rewrite Hx. simpl.
  unfold decoded, mbind, M_bind. rewrite Hj. done.
Qed.

(** A refused request for a token leaves its body open. *)
Theorem refused_token_leaks_body c p status body close w x' :
  ¬ still_valid w →
  idp_Marshal (auth0JWTRequest c) = inr p →
  idp_NewRequest "POST" (A0C_AuthIssuer c +:+ "/oauth/token") = None →
  idp_Do (mkHttpReq "POST" (A0C_AuthIssuer c +:+ "/oauth/token") None (Some p)) (Idp_out w) =
    (Ok (mkHttpResp status body close), x') →
  status ≠ 200%Z →
  Authenticate c w = (Err (Plain ("unable to get token, statusCode " +:+ Itoa status)),
                      mkIdp (Idp_jwtToken w) (S (Idp_open w)) x').
Proof.
  intros Hnv Hp Hreq Hx Hs. unfold Authenticate.
  pose proof (jwtStillValid_spec w) as Hw. unfold wp in Hw. destruct (jwtStillValid w) as [r w0] eqn:E.
  simpl in Hw. destruct Hw as (-> & b & -> & Hb). erewrite bind_run by exact E.
  destruct b; [by destruct Hnv; apply Hb|]. unfold requestJWTToken, mbind, M_bind. rewrite Hp. simpl. rewrite Hreq. simpl.
  unfold Client_Do. rewrite Hx. simpl. by case_decide.
Qed.

(** An access token without a dot ends the management service. *)
Theorem opaque_token_panics c p body j t close w x' :
  ¬ still_valid w →
  idp_Marshal (auth0JWTRequest c) = inr p →
  idp_NewRequest "POST" (A0C_AuthIssuer c +:+ "/oauth/token") = None →
  idp_Do (mkHttpReq "POST" (A0C_AuthIssuer c +:+ "/oauth/token") None (Some p)) (Idp_out w) =
    (Ok (mkHttpResp 200 (inr body) close), x') →
  idp_Unmarshal body = inr j →
  decode_struct assign_JWTToken zero_JWTToken j = Some t →
  JWT_AccessToken t ≠ "" →
  has_byte "." (JWT_AccessToken t) = false →
  ∃ s w', Authenticate c w = (Panic s, w').
Proof.
  intros Hnv Hp Hreq Hx Hj Ht Hne Hdot. unfold Authenticate.
  pose proof (jwtStillValid_spec w) as Hw. unfold wp in Hw. destruct (jwtStillValid w) as [r w0] eqn:E.
  simpl in Hw. destruct Hw as (-> & b & -> & Hb). erewrite bind_run by exact E.
  destruct b; [by destruct Hnv; apply Hb|]. unfold requestJWTToken, mbind, M_bind. rewrite Hp. simpl. rewrite Hreq. simpl.
  unfold Client_Do. rewrite Hx. simpl. unfold defer_close, parseRequestJWTResponse, decoded, mbind, M_bind. simpl.
  rewrite Hj. simpl. rewrite Ht. simpl. rewrite (bool_decide_eq_false_2 (JWT_AccessToken t = "")), andb_false_r by done.
  unfold token_payload. rewrite Split_no_sep by done. simpl. eauto.
Qed.

(** What the configuration of the manager promises. *)
Theorem NewManager_outcomes config :
  let managerType := IdpC_ManagerType config in
  match NewManager config with
  | inr None => ToLower managerType = "none" ∨ managerType = ""
  | inr (Some c) => c = IdpC_Auth0ClientCredentials config ∧ ToLower managerType = "auth0" ∧
      A0C_GrantType c = "client_credentials" ∧ String.prefix "https://" (ToLower (A0C_AuthIssuer c)) = true ∧
      A0C_ClientID c ≠ "" ∧ A0C_ClientSecret c ≠ "" ∧ A0C_Audience c ≠ ""
  | inl _ => ToLower managerType ≠ "none" ∧ managerType ≠ ""
  end.
Proof.
  intros managerType. unfold NewManager. fold managerType. case_decide as Hn0; [destruct Hn0 as [?|?]; [by left|right; by apply ToLower_empty]|].
  assert (ToLower managerType ≠ "none" ∧ managerType ≠ "") as Hn.
  { split; [naive_solver|]. intros ->. apply Hn0. by right. }
  case_decide; [|done]. unfold NewAuth0Manager. repeat case_bool_decide; simpl; try done.
  case_decide as Hg; [done|]. destruct (String.prefix _ _) eqn:?; simpl; [|done].
  by split_and!.
Qed.
End results.

(* ------------------------------------------------------------------ *)
(** ** A concrete provider *)

(** Bodies are named; [X] counts the requests and is the time in seconds.  There
    are three users, two to a page; a token lasts until second 100. *)
Definition demo_users : list UserData :=
  [mkUserData "a@x" "A" "auth0|a"; mkUserData "b@x" "B" "auth0|b"; mkUserData "c@x" "C" "auth0|c"].
Definition demo_user_json (u : UserData) : Json :=
  JObject [("email", JString (UserData_Email u)); ("name", JString (UserData_Name u)); ("user_id", JString (UserData_ID u))].
Definition demo_page_body (page : nat) : string := if decide (page = 0) then "p0" else if decide (page = 1) then "p1" else "none".
Definition demo_idp_bodies : list (string * Json) :=
  [("token", JObject [("access_token", JString "h.claims.s"); ("expires_in", JNumber 60)]);
   ("claims", JObject [("exp", JNumber 100)]);
   ("p0", JArray (demo_user_json <$> take 2 demo_users)); ("p1", JArray (demo_user_json <$> drop 2 demo_users));
   ("none", JArray []); ("refused", JObject [("statusCode", JNumber 429)]);
   ("opaque", JObject [("access_token", JString "opaque"); ("expires_in", JNumber 60)])].
Definition demo_idp_config : Auth0ClientConfig := mkAuth0Config "aud" "https://idp" "id" "secret" "client_credentials".

(** The page a URL asks for, by its fifth last byte and on. *)
Definition demo_auth0 (token_body : string) (token_status : Z) (users_body : string → string) : IdpHttp Z := {|
  idp_NewRequest _ _ := None;
  idp_Do r x := (Ok (if decide (HQ_Method r = "POST") then mkHttpResp token_status (inr token_body) None
                     else mkHttpResp 200 (inr (users_body (HQ_URL r))) None), (x + 1)%Z);
  idp_now x := (x * 1000000000)%Z;
  idp_Marshal _ := inr "json";
  idp_Unmarshal s := match list_find (λ b, b.1 = s) demo_idp_bodies with
                     | Some (_, b) => inr b.2 | None => inl (Plain "invalid character") end;
  jwt_DecodeSegment s := inr s;
  url_Parse s := inr (s, []) |}.
Definition demo_page_url (page : nat) : string :=
  "https://idp/api/v2/users?page=" +:+ Itoa (Z.of_nat page) +:+ "&q=app_metadata.wt_account_id%3Aacc&search_engine=v3".
Definition demo_users_body (url : string) : string :=
  if decide (url = demo_page_url 0) then "p0" else if decide (url = demo_page_url 1) then "p1" else "none".
Abbreviation demo_good := (demo_auth0 "token" 200 demo_users_body).
Definition demo_token : JWTToken := mkJWTToken "h.claims.s" 60 (time_Unix 100) "" "".

Example demo_all_users :
  @Auth0_GetBatchedUserData Z demo_good demo_idp_config "acc" (mkIdp zero_JWTToken 0 7%Z) =
    (Ok demo_users, mkIdp demo_token 0 11%Z).
Proof. vm_compute. reflexivity. Qed.

Lemma auth0_token_dated_witness :
  @cache_ok Z demo_good (mkIdp zero_JWTToken 0 7%Z) ∧
  @Authenticate Z demo_good demo_idp_config (mkIdp zero_JWTToken 0 7%Z) = (Ok demo_token, mkIdp demo_token 0 8%Z) ∧
  @cache_ok Z demo_good (mkIdp demo_token 0 8%Z).
Proof.
  assert (@cache_ok Z demo_good (mkIdp zero_JWTToken 0 7%Z)) as Hc by (left; reflexivity).
  split; [exact Hc|].
  assert (@Authenticate Z demo_good demo_idp_config (mkIdp zero_JWTToken 0 7%Z) = (Ok demo_token, mkIdp demo_token 0 8%Z)) as Hr
    by (vm_compute; reflexivity).
  split; [exact Hr|].
  destruct (@auth0_token_dated Z demo_good demo_idp_config "" "" "" _ Hc) as [Hw _].
  unfold wp in Hw. rewrite Hr in Hw. apply Hw.
Defined.

(** The pages, the third one empty; the token is requested first. *)
Definition demo_pages (page : nat) : list UserData := match page with 0 => take 2 demo_users | 1 => drop 2 demo_users | _ => [] end.
Lemma demo_pages_decode page :
  page ≤ 2 → page < 20 → ∃ j, @idp_Unmarshal Z demo_good (demo_page_body page) = inr j ∧ decode_batch j = Some (demo_pages page).
Proof. intros Hp _. destruct page as [|[|[|page]]]; [eexists; split; vm_compute; reflexivity..|lia]. Qed.

Lemma batched_users_complete_witness :
  ∃ x', @Auth0_GetBatchedUserData Z demo_good demo_idp_config "acc" (mkIdp zero_JWTToken 0 7%Z) = (Ok demo_users, mkIdp demo_token 0 x').
Proof.
  assert (@Authenticate Z demo_good demo_idp_config (mkIdp zero_JWTToken 0 7%Z) = (Ok demo_token, mkIdp demo_token 0 8%Z)) as Ha
    by (vm_compute; reflexivity).
  apply (@batched_users_complete Z demo_good demo_idp_config demo_token "https://idp/api/v2/users" [] "acc" 2 demo_pages demo_page_body
    (mkIdp zero_JWTToken 0 7%Z) (mkIdp demo_token 0 8%Z) Ha).
  - reflexivity.
  - reflexivity.
  - lia.
  - intros [|[|page]] Hp; [discriminate..|lia].
  - reflexivity.
  - intros page x Hp _. exists (x + 1)%Z. destruct page as [|[|[|page]]]; [vm_compute; reflexivity..|lia].
  - exact demo_pages_decode.
Defined.

Abbreviation demo_refused := (demo_auth0 "token" 200 (λ _, "refused")).
Lemma error_answer_leaks_body_witness :
  @request_batch Z demo_refused demo_idp_config demo_token "acc" 0 (mkIdp demo_token 0 7%Z) =
    (Err json_type_error, mkIdp demo_token 1 8%Z).
Proof.
  apply (@error_answer_leaks_body Z demo_refused demo_idp_config demo_token "https://idp/api/v2/users" [] "acc" 0 200 "refused" None
    [("statusCode", JNumber 429)] (mkIdp demo_token 0 7%Z)); vm_compute; reflexivity.
Defined.

Abbreviation demo_denied := (demo_auth0 "refused" 403 demo_users_body).
Lemma refused_token_leaks_body_witness :
  ∃ e, @Authenticate Z demo_denied demo_idp_config (mkIdp zero_JWTToken 0 7%Z) = (Err e, mkIdp zero_JWTToken 1 8%Z).
Proof.
  eexists. apply (@refused_token_leaks_body Z demo_denied demo_idp_config "json" 403 (inr "refused") None (mkIdp zero_JWTToken 0 7%Z) 8%Z).
  - intros [Hz _]. by apply Hz.
  - reflexivity.
  - reflexivity.
  - reflexivity.
  - done.
Defined.

Abbreviation demo_opaque := (demo_auth0 "opaque" 200 demo_users_body).
Lemma opaque_token_panics_witness :
  ∃ s w', @Authenticate Z demo_opaque demo_idp_config (mkIdp zero_JWTToken 0 7%Z) = (Panic s, w').
Proof.
  apply (@opaque_token_panics Z demo_opaque demo_idp_config "json" "opaque"
    (JObject [("access_token", JString "opaque"); ("expires_in", JNumber 60)])
    (mkJWTToken "opaque" 60 time_zero "" "") None (mkIdp zero_JWTToken 0 7%Z) 8%Z); try (vm_compute; reflexivity).
  - intros [Hz _]. by apply Hz.
  - discriminate.
Defined.
