(* ===== verification/Signal.v ===== *)
(** * Signal: the signal exchange (signal/peer/peer.go, signal/server/signal.go)

    Peers that want to connect to each other exchange sealed messages through
    the signal server, which keeps a registry of the peers that have a stream
    open and forwards each message to the stream of the peer it is addressed
    to.  The handlers of the streams and the unary calls interleave; the system
    is a step relation over the operations of the server. *)

From S2P Require Import Prelude GoLib.

(* ------------------------------------------------------------------ *)
(** ** Messages and state *)

(** signalexchange.proto *)
Record SigEncrypted := mkSigEncrypted {
  SigEnc_Key : string; SigEnc_RemoteKey : string; SigEnc_Body : list Z }.

#[export] Instance SigEncrypted_eq_dec : EqDecision SigEncrypted.
Proof. solve_decision. Defined.

(** constants.go *)
Definition HeaderId : string := "x-wiretrustee-peer-id".

(** peer.go: a connected peer; a stream is referred to by its identity. *)
Record SigPeer := mkSigPeer { SigPeer_Id : string; SigPeer_Stream : nat }.

(** The server's end of a stream: what has been sent on it, and whether
    sending still works. *)
Record SigStream := mkSigStream {
  SigStream_Registered : bool;       (** the registration header has been sent *)
  SigStream_Out : list SigEncrypted;
  SigStream_Broken : bool }.

Record SigState := mkSigState {
  Sig_Registry : gmap string SigPeer;
  Sig_Streams : gmap nat SigStream }.
Abbreviation MSig := (M SigState).

Definition set_Registry (v : gmap string SigPeer) (s : SigState) : SigState :=
  mkSigState v (Sig_Streams s).
Definition set_Stream (i : nat) (v : SigStream) (s : SigState) : SigState :=
  mkSigState (Sig_Registry s) (<[i := v]> (Sig_Streams s)).

(** [stream.Send] and [stream.SendHeader]. *)
Definition errTransport : error := Status Unavailable "transport is closing".
Definition on_stream (i : nat) (f : SigStream → SigStream) : MSig unit :=
  streams ← gets Sig_Streams;
  match streams !! i with
  | Some st => if SigStream_Broken st then fail errTransport else modify (set_Stream i (f st))
  | None => fail errTransport
  end.
Definition stream_Send (i : nat) (msg : SigEncrypted) : MSig unit :=
  on_stream i (λ st, mkSigStream (SigStream_Registered st) (SigStream_Out st ++ [msg]) false).
Definition stream_SendHeader (i : nat) : MSig unit :=
  on_stream i (λ st, mkSigStream true (SigStream_Out st) false).

(* ------------------------------------------------------------------ *)
(** ** The registry (peer.go) *)

Definition Registry_Get (peerId : string) : MSig (option SigPeer) :=
  gets (λ s, Sig_Registry s !! peerId).

Definition IsPeerRegistered (peerId : string) : MSig bool :=
  gets (λ s, bool_decide (is_Some (Sig_Registry s !! peerId))).

(** A peer that is there already is replaced. *)
Definition Register (peer : SigPeer) : MSig unit :=
  modify (λ s, set_Registry (<[SigPeer_Id peer := peer]> (Sig_Registry s)) s).

(** Whatever is registered under the identifier goes. *)
Definition Deregister (peer : SigPeer) : MSig unit :=
  modify (λ s, set_Registry (delete (SigPeer_Id peer) (Sig_Registry s)) s).

(* ------------------------------------------------------------------ *)
(** ** The server (signal.go) *)

(** Forwarding, in [Send] and in [ConnectStream]: a failure is only logged. *)
Definition forward (msg : SigEncrypted) : MSig unit :=
  o ← Registry_Get (SigEnc_RemoteKey msg);
  match o with
  | Some dstPeer => _ ← try (stream_Send (SigPeer_Stream dstPeer) msg); mret tt
  | None => mret tt
  end.

(** [Send] *)
Definition Signal_Send (msg : SigEncrypted) : MSig SigEncrypted :=
  registered ← IsPeerRegistered (SigEnc_Key msg);
  if (registered : bool) then _ ← forward msg; mret (mkSigEncrypted "" "" [])
  else fail (Plain ("peer " +:+ SigEnc_Key msg +:+ " is not registered")).

(** The metadata of a stream's context: none, or headers with their values. *)
Definition connectPeer (meta : option (gmap string (list string))) (stream : nat) : MSig SigPeer :=
  match meta with
  | None => fail (Status FailedPrecondition "missing connection stream meta")
  | Some m =>
      match m !! HeaderId with
      | None => fail (Status FailedPrecondition ("missing connection header: " +:+ HeaderId))
      | Some [] => panic "index out of range [0] with length 0"
      | Some (id :: _) =>
          let p := mkSigPeer id stream in
          _ ← Register p;
          mret p
      end
  end.

(** [ConnectStream] up to its loop; [Deregister] is deferred. *)
Definition connect_start (meta : option (gmap string (list string))) (stream : nat) : MSig SigPeer :=
  p ← connectPeer meta stream;
  r ← try (stream_SendHeader stream);
  match r with
  | inr _ => mret p
  | inl e => _ ← Deregister p; fail e
  end.

(** One turn of the loop, and the end of the stream. *)
Definition connect_recv (p : SigPeer) (msg : SigEncrypted) : MSig unit := forward msg.
Definition connect_end (p : SigPeer) : MSig unit := Deregister p.

(* ------------------------------------------------------------------ *)
(** ** The system *)

(** The server and the handlers that are running, by their stream. *)
Record SigSystem := mkSigSystem {
  Sys_State : SigState; Sys_Handlers : gmap nat SigPeer }.
Definition emptySystem : SigSystem := mkSigSystem (mkSigState ∅ ∅) ∅.

Inductive sig_label :=
  | LConnect (meta : option (gmap string (list string))) (stream : nat) (broken : bool)
  | LRecv (stream : nat) (msg : SigEncrypted)
  | LEnd (stream : nat)
  | LSend (msg : SigEncrypted)
  | LBreak (stream : nat).

(** What a step does; [None] when the label is not enabled: a connection comes
    on a new stream (which may have failed already), messages come on a stream whose handler runs. *)
Definition sig_exec (l : sig_label) (sys : SigSystem) : option SigSystem :=
  let s := Sys_State sys in
  let hs := Sys_Handlers sys in
  match l with
  | LConnect meta i broken =>
      match Sig_Streams s !! i with
      | Some _ => None
      | None =>
          let '(r, s') := connect_start meta i (set_Stream i (mkSigStream false [] broken) s) in
          Some (mkSigSystem s' (match r with Ok p => <[i := p]> hs | _ => hs end))
      end
  | LRecv i msg => p ← hs !! i; Some (mkSigSystem (connect_recv p msg s).2 hs)
  | LEnd i => p ← hs !! i; Some (mkSigSystem (connect_end p s).2 (delete i hs))
  | LSend msg => Some (mkSigSystem (Signal_Send msg s).2 hs)
  | LBreak i =>
      st ← Sig_Streams s !! i;
      Some (mkSigSystem (set_Stream i (mkSigStream (SigStream_Registered st) (SigStream_Out st) true) s) hs)
  end.

Inductive sig_step : SigSystem → sig_label → SigSystem → Prop :=
  | sig_step_exec sys l sys' : sig_exec l sys = Some sys' → sig_step sys l sys'.

Inductive sig_steps : SigSystem → list sig_label → SigSystem → Prop :=
  | sig_steps_nil sys : sig_steps sys [] sys
  | sig_steps_cons sys1 l sys2 ls sys3 :
      sig_step sys1 l sys2 → sig_steps sys2 ls sys3 → sig_steps sys1 (l :: ls) sys3.

Definition sig_reachable (sys : SigSystem) : Prop := ∃ ls, sig_steps emptySystem ls sys.

(* ------------------------------------------------------------------ *)
(** ** Specifications *)

(** Sending on a stream appends to what it has sent, or fails without a trace. *)
Lemma stream_Send_spec i msg s :
  wp (stream_Send i msg) (λ r s',
    match r with
    | Ok _ => ∃ st, Sig_Streams s !! i = Some st ∧ SigStream_Broken st = false ∧
        s' = set_Stream i (mkSigStream (SigStream_Registered st) (SigStream_Out st ++ [msg]) false) s
    | Err _ => s' = s ∧ ∀ st, Sig_Streams s !! i = Some st → SigStream_Broken st = true
    | _ => False
    end) s.
Proof.
  unfold stream_Send, on_stream. wp_step. wp_step. simpl.
  destruct (Sig_Streams s !! i) as [st|] eqn:Hi; [|by wp_step].
  destruct (SigStream_Broken st) eqn:Hb; wp_step; [|by exists st].
  split; [done|]. intros st' Hst'. congruence.
Qed.

(** What forwarding does to the state. *)
Definition forwarded (msg : SigEncrypted) (s : SigState) : SigState :=
  match Sig_Registry s !! SigEnc_RemoteKey msg with
  | Some p =>
      match Sig_Streams s !! SigPeer_Stream p with
      | Some st =>
          if SigStream_Broken st then s
          else set_Stream (SigPeer_Stream p)
                 (mkSigStream (SigStream_Registered st) (SigStream_Out st ++ [msg]) false) s
      | None => s
      end
  | None => s
  end.

Lemma forward_run msg s : forward msg s = (Ok tt, forwarded msg s).
Proof.
  unfold forward, forwarded, Registry_Get, gets, try, stream_Send, on_stream, modify, mbind, M_bind.
  simpl. destruct (Sig_Registry s !! _) as [p|]; [|done]. simpl.
  destruct (Sig_Streams s !! _) as [st|]; simpl; [|done].
  by destruct (SigStream_Broken st).
Qed.

(** The messages a label gives the server to forward. *)
Definition relayed (l : sig_label) (s : SigState) : list SigEncrypted :=
  match l with
  | LRecv _ msg => [msg]
  | LSend msg => if decide (is_Some (Sig_Registry s !! SigEnc_Key msg)) then [msg] else []
  | _ => []
  end.

Lemma Signal_Send_state msg s :
  (Signal_Send msg s).2 = foldr forwarded s (relayed (LSend msg) s).
Proof.
  unfold Signal_Send, IsPeerRegistered, gets, mbind, M_bind. simpl.
  destruct (decide (is_Some (Sig_Registry s !! SigEnc_Key msg))) as [Hr|Hr].
  - rewrite bool_decide_eq_true_2 by done. by rewrite forward_run.
  - by rewrite bool_decide_eq_false_2 by done.
Qed.

Lemma forwarded_registry msg s : Sig_Registry (forwarded msg s) = Sig_Registry s.
Proof. unfold forwarded. by repeat case_match. Qed.

Lemma forwarded_streams msg s i :
  Sig_Streams (forwarded msg s) !! i = Sig_Streams s !! i ∨
  ∃ p st, Sig_Registry s !! SigEnc_RemoteKey msg = Some p ∧ SigPeer_Stream p = i ∧
    Sig_Streams s !! i = Some st ∧ SigStream_Broken st = false ∧
    Sig_Streams (forwarded msg s) !! i
      = Some (mkSigStream (SigStream_Registered st) (SigStream_Out st ++ [msg]) false).
Proof.
  unfold forwarded. destruct (Sig_Registry s !! _) as [p|] eqn:Hp; [|by left].
  destruct (Sig_Streams s !! SigPeer_Stream p) as [st|] eqn:Hst; [|by left].
  destruct (SigStream_Broken st) eqn:Hb; [by left|].
  destruct (decide (SigPeer_Stream p = i)) as [<-|Hne].
  - right. exists p, st. simpl. by rewrite lookup_insert_eq.
  - left. simpl. by rewrite lookup_insert_ne.
Qed.

(** The outcome of a connection on a new stream. *)
Lemma connect_start_spec meta i s :
  wp (connect_start meta i) (λ r s',
    match r with
    | Ok p => SigPeer_Stream p = i ∧
        (∃ m ids, meta = Some m ∧ m !! HeaderId = Some (SigPeer_Id p :: ids)) ∧
        Sig_Registry s' = <[SigPeer_Id p := p]> (Sig_Registry s) ∧
        ∃ st, Sig_Streams s !! i = Some st ∧
          Sig_Streams s' = <[i := mkSigStream true (SigStream_Out st) false]> (Sig_Streams s)
    | Err _ => Sig_Streams s' = Sig_Streams s ∧
        (Sig_Registry s' = Sig_Registry s ∨
         ∃ id m ids, meta = Some m ∧ m !! HeaderId = Some (id :: ids) ∧
           Sig_Registry s' = delete id (Sig_Registry s))
    | Panic _ => s' = s
    | Blocked => False
    end) s.
Proof.
  unfold connect_start, connectPeer. wp_step. destruct meta as [m|]; [|wp_step; split; [done|by left]].
  destruct (m !! HeaderId) as [[|id ids]|] eqn:Hm; [by wp_step| |wp_step; split; [done|by left]].
  unfold Register. wp_go. unfold stream_SendHeader, on_stream. wp_step. wp_step. simpl.
  destruct (Sig_Streams s !! i) as [st|] eqn:Hst.
  - destruct (SigStream_Broken st) eqn:Hb.
    + wp_go. unfold Deregister. wp_go. simpl. rewrite delete_insert_eq. split; [done|]. right. by exists id, m, ids.
    + wp_go. simpl. split; [done|]. split; [by exists m, ids|]. split; [done|]. by exists st.
  - wp_go. unfold Deregister. wp_go. simpl. rewrite delete_insert_eq. split; [done|]. right. by exists id, m, ids.
Qed.

(** What holds of every reachable system: the registry leads from each
    identifier to a running handler of a peer with that identifier; and each
    running handler's stream carries only messages for its peer. *)
Record sig_inv (sys : SigSystem) : Prop := {
  si_registry : ∀ id p, Sig_Registry (Sys_State sys) !! id = Some p →
    SigPeer_Id p = id ∧ Sys_Handlers sys !! SigPeer_Stream p = Some p;
  si_handler : ∀ i p, Sys_Handlers sys !! i = Some p → SigPeer_Stream p = i ∧
    ∃ st, Sig_Streams (Sys_State sys) !! i = Some st ∧
      ∀ msg, msg ∈ SigStream_Out st → SigEnc_RemoteKey msg = SigPeer_Id p;
}.

Lemma empty_sig_inv : sig_inv emptySystem.
Proof. split; simpl; intros ? ? H; by rewrite lookup_empty in H. Qed.

Lemma forwarded_inv msg sys :
  sig_inv sys → sig_inv (mkSigSystem (forwarded msg (Sys_State sys)) (Sys_Handlers sys)).
Proof.
  intros [Hr Hh]. split; simpl.
  - intros id p. rewrite forwarded_registry. apply Hr.
  - intros i p Hi. destruct (Hh i p Hi) as (Hpi & st & Hst & Hout). split; [done|].
    destruct (forwarded_streams msg (Sys_State sys) i) as [->|(p' & st' & Hp' & Hi' & Hst' & _ & ->)].
    { by exists st. }
    eexists. split; [done|]. simpl. intros m [Hm|Hm%list_elem_of_singleton]%elem_of_app.
    + apply Hout. congruence.
    + subst m. destruct (Hr _ _ Hp') as [Hid Hh']. congruence.
Qed.

(** A handler that runs is not on a new stream. *)
Lemma handlers_not_new sys i j p :
  sig_inv sys → Sig_Streams (Sys_State sys) !! i = None →
  Sys_Handlers sys !! j = Some p → i ≠ j.
Proof. intros Hinv Hnew Hj ->. destruct (si_handler _ Hinv j p Hj) as (_ & st & Hst & _). congruence. Qed.

(** A change that touches no running handler's stream and registers nobody. *)
Lemma sig_inv_shrink sys s' :
  sig_inv sys →
  (∀ id q, Sig_Registry s' !! id = Some q → Sig_Registry (Sys_State sys) !! id = Some q) →
  (∀ j q, Sys_Handlers sys !! j = Some q → Sig_Streams s' !! j = Sig_Streams (Sys_State sys) !! j) →
  sig_inv (mkSigSystem s' (Sys_Handlers sys)).
Proof.
  intros [Hr Hh] Hreg Hstr. split; simpl; [by auto|].
  intros j q Hq. rewrite (Hstr j q Hq). by apply Hh.
Qed.

Lemma sig_connect_inv meta i broken sys sys' :
  sig_exec (LConnect meta i broken) sys = Some sys' → sig_inv sys → sig_inv sys'.
Proof.
  simpl. intros Hex Hinv. destruct (Sig_Streams (Sys_State sys) !! i) eqn:Hnew; [done|].
  set (s1 := set_Stream i (mkSigStream false [] broken) (Sys_State sys)) in *.
  pose proof (connect_start_spec meta i s1) as Hw. unfold wp in Hw.
  destruct (connect_start meta i s1) as [r s']. simpl in Hw. injection Hex as <-.
  pose proof (λ j q, handlers_not_new sys i j q Hinv Hnew) as Hne.
  assert (∀ j q, Sys_Handlers sys !! j = Some q →
    Sig_Streams s1 !! j = Sig_Streams (Sys_State sys) !! j) as Hs1.
  { intros j q Hq. simpl. rewrite lookup_insert_ne; [done|by eapply Hne]. }
  destruct r as [p|e|m|]; simpl in Hw; [| | |done].
  - destruct Hw as (Hpi & _ & Hreg & st & Hst & Hstr). subst i. destruct Hinv as [Hr Hh]. split; simpl.
    + intros id q. rewrite Hreg. intros [[<- <-]|[Hid Hq]]%lookup_insert_Some; [by rewrite lookup_insert_eq|].
      destruct (Hr id q Hq) as [? Hh']. split; [done|]. rewrite lookup_insert_ne; [done|by eapply Hne].
    + intros j q [[<- <-]|[Hj Hq]]%lookup_insert_Some; rewrite Hstr.
      * split; [done|]. eexists. split; [apply lookup_insert_eq|].
        unfold s1 in Hst. simpl in Hst. rewrite lookup_insert_eq in Hst. injection Hst as <-.
        intros m Hm. by apply not_elem_of_nil in Hm.
      * destruct (Hh j q Hq) as (? & st' & Hst' & Hout). split; [done|]. exists st'. split; [|done].
        rewrite lookup_insert_ne by done. etransitivity; [apply (Hs1 j q Hq)|done].
  - destruct Hw as [Hstr Hreg]. apply sig_inv_shrink; [done| |by rewrite Hstr].
    intros id q. destruct Hreg as [->|(id' & m & ids & _ & _ & ->)]; [done|]. by intros [_ ?]%lookup_delete_Some.
  - subst s'. by apply sig_inv_shrink.
Qed.

Lemma sig_exec_inv l sys sys' : sig_exec l sys = Some sys' → sig_inv sys → sig_inv sys'.
Proof.
  destruct l as [meta i broken|i msg|i|msg|i]; [apply sig_connect_inv|..]; simpl; intros Hex Hinv.
  - apply bind_Some in Hex as (p & _ & [= <-]). unfold connect_recv. rewrite forward_run.
    by apply forwarded_inv.
  - apply bind_Some in Hex as (p & Hp & [= <-]). destruct Hinv as [Hr Hh]. split; simpl.
    + intros id q [Hne Hq]%lookup_delete_Some. destruct (Hr id q Hq) as [Hid Hh']. split; [done|].
      rewrite lookup_delete_ne; [done|]. intros Heq. rewrite <-Heq in Hh'. congruence.
    + intros j q [Hne Hq]%lookup_delete_Some. by apply Hh.
  - injection Hex as <-. rewrite Signal_Send_state. unfold relayed. destruct (decide _); simpl.
    + by apply forwarded_inv.
    + by destruct sys.
  - apply bind_Some in Hex as (st & Hst & [= <-]). destruct Hinv as [Hr Hh]. split; simpl; [done|].
    intros j q Hq. destruct (Hh j q Hq) as (? & st' & Hst' & Hout). split; [done|].
    destruct (decide (i = j)) as [<-|Hne]; [|rewrite lookup_insert_ne by done; by exists st'].
    rewrite lookup_insert_eq. eexists. split; [done|]. simpl. assert (st' = st) as -> by congruence. done.
Qed.

Lemma sig_steps_inv sys ls sys' : sig_steps sys ls sys' → sig_inv sys → sig_inv sys'.
Proof.
  intros Hs. induction Hs as [|sys1 l sys2 ls sys3 Hstep _ IH]; [done|].
  intros Hinv. apply IH. destruct Hstep. by eapply sig_exec_inv.
Qed.

Lemma sig_reachable_inv sys : sig_reachable sys → sig_inv sys.
Proof. intros [ls Hls]. eapply sig_steps_inv; [done|apply empty_sig_inv]. Qed.

(** ** Properties *)

(** A running handler's stream has received only messages addressed to the
    peer that opened it: whatever connections, disconnections and messages came
    before, the server never hands a peer somebody else's message. *)
Theorem no_misdelivery sys i p st msg :
  sig_reachable sys →
  Sys_Handlers sys !! i = Some p → Sig_Streams (Sys_State sys) !! i = Some st →
  msg ∈ SigStream_Out st → SigEnc_RemoteKey msg = SigPeer_Id p.
Proof.
  intros Hreach Hi Hst Hmsg. apply sig_reachable_inv in Hreach.
  destruct (si_handler _ Hreach i p Hi) as (_ & st' & Hst' & Hout). apply Hout. congruence.
Qed.

(** The messages that are given to the server along a run. *)
Fixpoint sig_relayed (ls : list sig_label) (sys : SigSystem) : list SigEncrypted :=
  match ls with
  | [] => []
  | l :: ls' => relayed l (Sys_State sys) ++
      match sig_exec l sys with Some sys' => sig_relayed ls' sys' | None => [] end
  end.

(** A label that leaves peer [id]'s stream [i] alone: no other connection of
    the peer, and neither an end nor a failure of the stream. *)
Definition quiet (id : string) (i : nat) (l : sig_label) : bool :=
  match l with
  | LConnect (Some m) _ _ =>
      match m !! HeaderId with Some (id' :: _) => bool_decide (id' ≠ id) | _ => true end
  | LEnd j | LBreak j => bool_decide (j ≠ i)
  | _ => true
  end.

(** Peer [id] is served on stream [i] alone, which has carried [out]. *)
Definition serves (id : string) (i : nat) (out : list SigEncrypted) (sys : SigSystem) : Prop :=
  Sig_Registry (Sys_State sys) !! id = Some (mkSigPeer id i) ∧
  (∀ j q, Sys_Handlers sys !! j = Some q → SigPeer_Id q = id → j = i) ∧
  ∃ reg, Sig_Streams (Sys_State sys) !! i = Some (mkSigStream reg out false).

Lemma forwarded_serves id i out msg sys :
  serves id i out sys → sig_inv sys →
  serves id i (out ++ filter (λ m, SigEnc_RemoteKey m = id) [msg])
    (mkSigSystem (forwarded msg (Sys_State sys)) (Sys_Handlers sys)).
Proof.
  intros (Hreg & Hsole & reg & Hst) Hinv. split_and!; simpl; [by rewrite forwarded_registry|done|].
  exists reg. rewrite filter_cons, filter_nil. case_decide as Hid.
  - unfold forwarded. rewrite Hid, Hreg. simpl. rewrite Hst. simpl. by rewrite lookup_insert_eq.
  - rewrite app_nil_r.
    destruct (forwarded_streams msg (Sys_State sys) i) as [->|(q & st & Hq & Hqi & _)]; [done|].
    destruct (si_registry _ Hinv _ _ Hq) as [Hqid Hq']. destruct (si_registry _ Hinv _ _ Hreg) as [_ Hp'].
    simpl in Hp'. rewrite Hqi in Hq'. rewrite Hp' in Hq'. injection Hq' as <-. done.
Qed.

Lemma connect_serves id i out meta j b sys sys' :
  sig_exec (LConnect meta j b) sys = Some sys' → quiet id i (LConnect meta j b) = true →
  serves id i out sys → serves id i out sys'.
Proof.
  simpl. intros Hex Hq (Hreg & Hsole & reg & Hst).
  destruct (Sig_Streams (Sys_State sys) !! j) eqn:Hnew; [done|].
  assert (i ≠ j) as Hij by congruence.
  set (s1 := set_Stream j (mkSigStream false [] b) (Sys_State sys)) in *.
  pose proof (connect_start_spec meta j s1) as Hw. unfold wp in Hw.
  destruct (connect_start meta j s1) as [r s']. simpl in Hw. injection Hex as <-.
  assert (Sig_Streams s1 !! i = Some (mkSigStream reg out false)) as Hst1
    by (unfold s1; simpl; by rewrite lookup_insert_ne).
  destruct r as [p|e|m|]; [| | |done].
  - destruct Hw as (Hpi & (m & ids & -> & Hm) & Hreg' & st & _ & Hstr). rewrite Hm in Hq.
    apply bool_decide_eq_true_1 in Hq. split_and!; simpl.
    + by rewrite Hreg', lookup_insert_ne.
    + intros k q [[<- <-]|[Hk Hq']]%lookup_insert_Some; [done|]. by apply Hsole.
    + exists reg. by rewrite Hstr, lookup_insert_ne.
  - destruct Hw as [Hstr Hreg']. split_and!; simpl; [|done|exists reg; by rewrite Hstr].
    destruct Hreg' as [->|(id' & m & ids & -> & Hm & ->)]; [done|]. rewrite Hm in Hq.
    apply bool_decide_eq_true_1 in Hq. by rewrite lookup_delete_ne.
  - subst s'. split_and!; simpl; [done..|by exists reg].
Qed.

Lemma quiet_serves id i out l sys sys' :
  sig_exec l sys = Some sys' → quiet id i l = true → sig_inv sys → serves id i out sys →
  serves id i (out ++ filter (λ m, SigEnc_RemoteKey m = id) (relayed l (Sys_State sys))) sys'.
Proof.
  destruct l as [meta j b|j msg|j|msg|j]; intros Hex Hq Hinv Hs.
  - simpl. rewrite filter_nil, app_nil_r. by eapply connect_serves.
  - simpl in Hex. apply bind_Some in Hex as (p & _ & [= <-]). unfold connect_recv. rewrite forward_run.
    by apply forwarded_serves.
  - simpl in *. rewrite filter_nil, app_nil_r. apply bind_Some in Hex as (p & Hp & [= <-]).
    apply bool_decide_eq_true_1 in Hq. destruct Hs as (Hreg & Hsole & Hst).
    destruct (decide (SigPeer_Id p = id)) as [Hid|Hid]; [by destruct Hq; eapply Hsole|].
    split_and!; simpl; [by rewrite lookup_delete_ne| |done].
    intros k q [_ Hk]%lookup_delete_Some. by apply Hsole.
  - simpl in Hex. injection Hex as <-. rewrite Signal_Send_state. unfold relayed. destruct (decide _).
    + by apply forwarded_serves.
    + rewrite filter_nil, app_nil_r. by destruct sys.
  - simpl in *. rewrite filter_nil, app_nil_r. apply bind_Some in Hex as (st & Hst' & [= <-]).
    apply bool_decide_eq_true_1 in Hq. destruct Hs as (Hreg & Hsole & reg & Hst).
    split_and!; simpl; [done..|]. exists reg. by rewrite lookup_insert_ne.
Qed.

(** C16: while a peer keeps its one connection to the signal server, every
    message for it that reaches the server, over a stream or by a call, is put
    on its stream, in the order in which the server takes them, and nothing
    else is. *)
Theorem relay_in_order sys ls sys' id i out :
  sig_reachable sys → serves id i out sys →
  sig_steps sys ls sys' → forallb (quiet id i) ls = true →
  serves id i (out ++ filter (λ m, SigEnc_RemoteKey m = id) (sig_relayed ls sys)) sys'.
Proof.
  intros Hreach%sig_reachable_inv Hs Hsteps. revert out Hs.
  induction Hsteps as [sys|sys1 l sys2 ls sys3 Hstep Hsteps IH]; intros out Hs Hq.
  - simpl. by rewrite filter_nil, app_nil_r.
  - simpl in Hq. apply andb_true_iff in Hq as [Hq Hqs]. destruct Hstep as [sys1 l sys2 Hex]. simpl.
    rewrite Hex, filter_app, (assoc_L (++)). apply IH; [by eapply sig_exec_inv| |done].
    by apply quiet_serves.
Qed.

(** When a peer has opened a second stream, the end of the first one takes
    the peer out of the registry although the handler of the second runs on:
    the peer looks connected to itself, and messages for it are dropped. *)
Theorem stale_end_deregisters sys sys' i j p q msg :
  Sys_Handlers sys !! i = Some p → Sys_Handlers sys !! j = Some q → i ≠ j →
  SigPeer_Id p = SigPeer_Id q →
  sig_step sys (LEnd i) sys' →
  Sys_Handlers sys' !! j = Some q ∧
  Sig_Registry (Sys_State sys') !! SigPeer_Id q = None ∧
  (SigEnc_RemoteKey msg = SigPeer_Id q → (Signal_Send msg (Sys_State sys')).2 = Sys_State sys').
Proof.
  intros Hi Hj Hij Hid Hstep. inversion Hstep as [? ? ? Hex]; subst. simpl in Hex.
  rewrite Hi in Hex. injection Hex as <-. simpl. rewrite Hid.
  split; [by rewrite lookup_delete_ne|]. split; [by rewrite lookup_delete_eq|].
  intros Hmsg. rewrite Signal_Send_state. unfold relayed. destruct (decide _); [|done]. simpl.
  unfold forwarded. simpl. by rewrite Hmsg, lookup_delete_eq.
Qed.

(* ------------------------------------------------------------------ *)
(** ** A concrete exchange *)

Fixpoint sig_run (ls : list sig_label) (sys : SigSystem) : option SigSystem :=
  match ls with
  | [] => Some sys
  | l :: ls' => sys' ← sig_exec l sys; sig_run ls' sys'
  end.

Lemma sig_run_steps ls sys sys' : sig_run ls sys = Some sys' → sig_steps sys ls sys'.
Proof.
  revert sys. induction ls as [|l ls IH]; intros sys; simpl; [intros [= ->]; constructor|].
  intros (sys1 & Hex & Hrun)%bind_Some. econstructor; [by constructor|by apply IH].
Qed.

Definition demo_meta (id : string) : option (gmap string (list string)) :=
  Some {[ HeaderId := [id] ]}.
Definition demo_offer : SigEncrypted := mkSigEncrypted "alice" "bob" [1; 2]%Z.
Definition demo_answer : SigEncrypted := mkSigEncrypted "bob" "alice" [3]%Z.

(** Two peers are connected; the second has opened a second stream. *)
Definition demo_connected : list sig_label :=
  [LConnect (demo_meta "alice") 0 false; LConnect (demo_meta "bob") 1 false].
Definition demo_exchange : list sig_label :=
  [LRecv 1 demo_answer; LRecv 0 demo_offer; LConnect None 2 false; LSend demo_offer; LEnd 0; LRecv 1 demo_answer].

Definition run_from (ls : list sig_label) (sys : SigSystem) : SigSystem :=
  default emptySystem (sig_run ls sys).

Lemma no_misdelivery_witness :
  let sys := run_from (demo_connected ++ demo_exchange) emptySystem in
  sig_reachable sys ∧ demo_offer ∈ [demo_offer; demo_offer] ∧
  SigEnc_RemoteKey demo_offer = SigPeer_Id (mkSigPeer "bob" 1).
Proof.
  intros sys.
  assert (sig_reachable sys) as Hreach.
  { exists (demo_connected ++ demo_exchange). apply sig_run_steps. by vm_compute. }
  split; [done|]. split; [by left|].
  apply (no_misdelivery sys 1 (mkSigPeer "bob" 1) (mkSigStream true [demo_offer; demo_offer] false)).
  - done.
  - by vm_compute.
  - by vm_compute.
  - by left.
Defined.

Lemma relay_in_order_witness :
  let sys := run_from demo_connected emptySystem in
  serves "bob" 1 ([] ++ [demo_offer; demo_offer]) (run_from demo_exchange sys).
Proof.
  intros sys.
  assert (filter (λ m, SigEnc_RemoteKey m = "bob") (sig_relayed demo_exchange sys) = [demo_offer; demo_offer])
    as <- by (vm_compute; reflexivity).
  apply relay_in_order.
  - exists demo_connected. apply sig_run_steps. by vm_compute.
  - split; [by vm_compute|]. split; [|exists true; by vm_compute].
    assert (Sys_Handlers sys = {[ 0 := mkSigPeer "alice" 0; 1 := mkSigPeer "bob" 1 ]}) as ->
      by (vm_compute; reflexivity).
    intros j q [[<- <-]|[_ [<- <-]%lookup_singleton_Some]]%lookup_insert_Some; done.
  - apply sig_run_steps. by vm_compute.
  - by vm_compute.
Defined.

Lemma stale_end_deregisters_witness :
  let sys := run_from (demo_connected ++ [LConnect (demo_meta "bob") 2 false]) emptySystem in
  let sys' := run_from [LEnd 1] sys in
  Sys_Handlers sys' !! 2 = Some (mkSigPeer "bob" 2) ∧
  (Signal_Send demo_offer (Sys_State sys')).2 = Sys_State sys'.
Proof.
  intros sys sys'.
  destruct (stale_end_deregisters sys sys' 1 2 (mkSigPeer "bob" 1) (mkSigPeer "bob" 2) demo_offer)
    as (Hh & _ & Hsend).
  - by vm_compute.
  - by vm_compute.
  - done.
  - done.
  - constructor. by vm_compute.
  - split; [exact Hh|by apply Hsend].
Defined.
