(* ===== verification/Util.v ===== *)
(** * Util: the helpers of util/retry.go and util/common.go

    [Retry] calls a function until it succeeds, at most as often as it is told
    to; [SliceDiff] is the difference of two slices, in the order of the
    first. *)

From S2P Require Import Prelude GoLib.

(* ------------------------------------------------------------------ *)
(** ** [Retry] *)

(** An error that stops the retries (the type [stop] of retry.go), or any
    other. *)
Inductive retry_error := Stop (e : error) | Failed (e : error).

Section retry.
Context {W : Type}.
Variable rand_Int63n : Z → M W Z.       (** math/rand, for a positive bound *)
Variable time_Sleep : Z → M W unit.
Variable toExec : M W (option retry_error).
Variable onError : error → M W unit.

Definition Int63n (n : Z) : M W Z :=
  if (n <=? 0)%Z then panic "invalid argument to Int63n" else rand_Int63n n.

(** The recursion of [Retry]; [more] bounds the calls still to come. *)
Fixpoint Retry_loop (more : nat) (attempts sleep : Z) : M W (option error) :=
  r ← toExec;
  match r with
  | None => mret None
  | Some (Stop e) => mret (Some e)
  | Some (Failed e) =>
      let attempts := wrap_i64 (attempts - 1) in
      if (0 <? attempts)%Z then
        jitter ← Int63n sleep;
        let sleep := wrap_i64 (sleep + Z.quot jitter 2) in
        _ ← onError e;
        _ ← time_Sleep sleep;
        match more with
        | S more' => Retry_loop more' attempts (wrap_i64 (2 * sleep))
        | O => blocked
        end
      else mret (Some e)
  end.

Definition Retry (attempts sleep : Z) : M W (option error) :=
  Retry_loop (Z.to_nat (wrap_i64 (attempts - 1))) attempts sleep.

(** What the calls do to the number of runs of [toExec]. *)
Variable runs : W → nat.
Hypothesis toExec_runs : ∀ w,
  wp toExec (λ r w', runs w' = S (runs w) ∧ ∃ o, r = Ok o) w.
Hypothesis onError_runs : ∀ e w, wp (onError e) (λ r w', runs w' = runs w ∧ r = Ok tt) w.
Hypothesis sleep_runs : ∀ d w, wp (time_Sleep d) (λ r w', runs w' = runs w ∧ r = Ok tt) w.
Hypothesis rand_runs : ∀ n w, (0 < n)%Z →
  wp (rand_Int63n n) (λ r w', runs w' = runs w ∧ ∃ j, r = Ok j ∧ (0 ≤ j < n)%Z) w.

(** The pause may at most triple from one attempt to the next. *)
Lemma Retry_loop_spec more attempts sleep w :
  (- 2 ^ 63 < attempts < 2 ^ 63)%Z → Z.to_nat (attempts - 1) = more →
  (0 < sleep)%Z → (sleep * 3 ^ Z.of_nat more < 2 ^ 63)%Z →
  wp (Retry_loop more attempts sleep) (λ r w',
    S (runs w) ≤ runs w' ≤ runs w + S more ∧
    ∃ o, r = Ok o) w.
Proof.
  revert attempts sleep w. induction more as [|more IH]; intros attempts sleep w Ha Hm Hs Hb;
    simpl; wp_step; (eapply wp_mono; [apply toExec_runs|]); intros r1 w1 [Hr1 [o ->]]; simpl.
  all: destruct o as [[e|e]|]; [wp_step; split; [lia|by eexists]| |wp_step; split; [lia|by eexists]].
  all: rewrite (wrap_i64_small (attempts - 1)) by lia.
  - rewrite (proj2 (Z.ltb_ge 0 (attempts - 1))) by lia. wp_step. split; [lia|by eexists].
  - rewrite (proj2 (Z.ltb_lt 0 (attempts - 1))) by lia.
    assert (sleep * 3 < 2 ^ 63)%Z as Hb3.
    { rewrite Nat2Z.inj_succ, Z.pow_succ_r in Hb by lia.
      assert (1 ≤ 3 ^ Z.of_nat more)%Z by (apply Z.lt_pred_le, Z.pow_pos_nonneg; lia). nia. }
    unfold Int63n. rewrite (proj2 (Z.leb_gt sleep 0)) by lia.
    wp_step. eapply wp_mono; [by apply rand_runs|]. intros r2 w2 [Hr2 (j & -> & Hj)]. simpl.
    pose proof (Z.quot_pos j 2).
    assert (2 * (j ÷ 2) ≤ j)%Z by (apply Z.mul_quot_le; lia).
    rewrite (wrap_i64_small (sleep + _)) by lia.
    wp_step. eapply wp_mono; [apply onError_runs|]. intros r3 w3 [Hr3 ->]. simpl.
    wp_step. eapply wp_mono; [apply sleep_runs|]. intros r4 w4 [Hr4 ->]. simpl.
    rewrite wrap_i64_small by lia. eapply wp_mono; [apply IH|]; [lia..| |].
    + rewrite Nat2Z.inj_succ, Z.pow_succ_r in Hb by lia.
      assert (0 < 3 ^ Z.of_nat more)%Z by (apply Z.pow_pos_nonneg; lia). nia.
    + intros r w' [Hruns Hr]. split; [lia|done].
Qed.
End retry.

(** [Retry] ends after at most the given number of attempts (and after
    one if it is given none), by returning and not by a panic, as long as the pause, which at most triples between attempts, stays
    within 63 bits. *)
Theorem Retry_terminates {W} (rand : Z → M W Z) (pause : Z → M W unit) (toExec : M W (option retry_error))
    (onError : error → M W unit) (runs : W → nat) attempts sleep w :
  (∀ w, wp toExec (λ r w', runs w' = S (runs w) ∧ ∃ o, r = Ok o) w) →
  (∀ e w, wp (onError e) (λ r w', runs w' = runs w ∧ r = Ok tt) w) →
  (∀ d w, wp (pause d) (λ r w', runs w' = runs w ∧ r = Ok tt) w) →
  (∀ n w, (0 < n)%Z → wp (rand n) (λ r w', runs w' = runs w ∧ ∃ j, r = Ok j ∧ (0 ≤ j < n)%Z) w) →
  (- 2 ^ 63 < attempts < 2 ^ 63)%Z → (0 < sleep)%Z →
  (sleep * 3 ^ (Z.max 1 attempts - 1) < 2 ^ 63)%Z →
  wp (Retry rand pause toExec onError attempts sleep) (λ r w',
    (Z.of_nat (runs w') ≤ Z.of_nat (runs w) + Z.max 1 attempts)%Z ∧ ∃ o, r = Ok o) w.
Proof.
  intros Hx Ho Hp Hr Ha Hs Hb. unfold Retry. rewrite wrap_i64_small by lia.
  eapply wp_mono; [eapply Retry_loop_spec; try done|].
  - replace (Z.of_nat (Z.to_nat (attempts - 1))) with (Z.max 1 attempts - 1)%Z by lia. exact Hb.
  - intros r w' [Hruns Hres]. split; [lia|done].
Qed.

(** Two failures, then success: three attempts of five. *)
Definition demo_exec : M nat (option retry_error) :=
  λ n, (Ok (if decide (n < 2) then Some (Failed (Plain "not yet")) else None), S n).

Lemma Retry_terminates_witness :
  let run := Retry (λ n, mret (n - 1)%Z) (λ _, mret tt) demo_exec (λ _, mret tt) 5 1000000000 0 in
  run = (Ok None, 3) ∧ (Z.of_nat run.2 ≤ 5)%Z.
Proof.
  intros run. split; [by vm_compute|].
  destruct (Retry_terminates (λ n, mret (n - 1)%Z) (λ _, mret tt) demo_exec (λ _, mret tt) id 5 1000000000 0)
    as [Hruns _]; [..|exact Hruns].
  - intros w. by split; [|eexists].
  - done.
  - done.
  - intros n w Hn. split; [done|]. eexists. split; [done|lia].
  - lia.
  - lia.
  - vm_compute. done.
Defined.

(* ------------------------------------------------------------------ *)
(** ** [SliceDiff] *)

(** The keys of [mapY], as a set. *)
Definition SliceDiff (x y : list string) : list string :=
  let mapY : gset string := foldl (λ m val, {[val]} ∪ m) ∅ y in
  foldl (λ diff val, if decide (val ∈ mapY) then diff else diff ++ [val]) [] x.

Lemma SliceDiff_filter x y : SliceDiff x y = filter (.∉ y) x.
Proof.
  unfold SliceDiff.
  assert (∀ (m : gset string) val, val ∈ foldl (λ m val, {[val]} ∪ m) m y ↔ val ∈ m ∨ val ∈ y) as Hm.
  { induction y as [|v y IH]; intros m val; simpl; [set_solver|]. rewrite IH. set_solver. }
  assert (∀ acc, foldl (λ diff val, if decide (val ∈ foldl (λ m val, {[val]} ∪ m) (∅ : gset string) y)
    then diff else diff ++ [val]) acc x = acc ++ filter (.∉ y) x) as Hx; [|by rewrite Hx].
  induction x as [|v x IH]; intros acc; simpl; [by rewrite app_nil_r|].
  rewrite IH, filter_cons. case_decide as Hv; rewrite Hm in Hv.
  - rewrite decide_False by set_solver. done.
  - rewrite decide_True by set_solver. by rewrite <-(assoc_L (++)).
Qed.

Lemma elem_of_SliceDiff x y k : k ∈ SliceDiff x y ↔ k ∈ x ∧ k ∉ y.
Proof. rewrite SliceDiff_filter, list_elem_of_filter. tauto. Qed.
