(* ===== verification/SignalClient.v ===== *)
(** * SignalClient: the client of the signal exchange (signal/client/client.go, grpc.go)

    Credentials are put into messages, messages are sealed for the remote peer
    and handed to the signal server; the receive loop opens what comes back
    and gives it to a handler.  The gRPC connection and the retries of
    cenkalti/backoff are parameters, by classes. *)

From S2P Require Import Prelude GoLib Model Encryption Signal.

(* ------------------------------------------------------------------ *)
(** ** Messages and credentials (client.go) *)

(** The type of a body is an open enumeration of the protocol. *)
Definition Body_OFFER : Z := 0.
Definition Body_ANSWER : Z := 1.
Definition Body_CANDIDATE : Z := 2.
Record SigBody := mkSigBody { Body_Type : Z; Body_Payload : string }.
Record SigMessage := mkSigMessage {
  SigMsg_Key : string; SigMsg_RemoteKey : string; SigMsg_Body : option SigBody }.
Record Credential := mkCredential { Cred_UFrag : string; Cred_Pwd : string }.

Definition colon : ascii := ":"%char.

(** The [%s] of a body in an error text is left to the formatter. *)
Definition UnMarshalCredential {W} (msg : SigMessage) : M W Credential :=
  match Split (from_option Body_Payload "" (SigMsg_Body msg)) colon with
  | [uFrag; pwd] => mret (mkCredential uFrag pwd)
  | _ => fail (Plain "error parsing message body")
  end.

Definition MarshalCredential `{Crypto} (myKey remoteKey : Key) (credential : Credential) (t : Z) : SigMessage :=
  mkSigMessage (Key_String (PublicKey myKey)) (Key_String remoteKey)
    (Some (mkSigBody t (Cred_UFrag credential +:+ String colon (Cred_Pwd credential)))).

(* ------------------------------------------------------------------ *)
(** ** The client (grpc.go) *)

Inductive ClientStatus := StreamConnected_ | StreamDisconnected_.

#[export] Instance ClientStatus_eq_dec : EqDecision ClientStatus.
Proof. solve_decision. Defined.

(** [connectedCh] and [stream] are identities; [None] is nil. *)
Record GrpcClient := mkGrpcClient {
  Cl_Key : Key; Cl_Stream : option nat; Cl_ConnectedCh : option nat; Cl_Status : ClientStatus }.

(** The state of a call: the client, the channels made and closed, the
    messages that went out by a call and on the stream, the number of external
    calls, and the state of the message handler. *)
Record SigWorld (X : Type) := mkSigWorld {
  SW_Client : GrpcClient; SW_NextCh : nat; SW_Closed : gset nat;
  SW_Called : list SigEncrypted; SW_Streamed : list SigEncrypted;
  SW_Tick : nat; SW_Handler : X }.
Arguments mkSigWorld {X}.
Arguments SW_Client {X}.
Arguments SW_NextCh {X}.
Arguments SW_Closed {X}.
Arguments SW_Called {X}.
Arguments SW_Streamed {X}.
Arguments SW_Tick {X}.
Arguments SW_Handler {X}.

Inductive connectivity := conn_Idle | conn_Connecting | conn_Ready | conn_TransientFailure | conn_Shutdown.

#[export] Instance connectivity_eq_dec : EqDecision connectivity.
Proof. solve_decision. Defined.

(** google.golang.org/grpc: the connection and its streams, by the number of
    external calls made before. *)
Class GrpcConn := {
  conn_GetState : nat → connectivity;
  conn_ConnectStream : nat → option error;
  conn_Header : nat → error + gmap string (list string);
  conn_Recv : nat → list (error + SigEncrypted);  (** what arrives on the stream opened then *)
  conn_StreamSend : nat → option error;
  conn_Send : nat → option error
}.

Definition HeaderRegistered : string := "x-wiretrustee-peer-registered".

Section client.
Context `{Crypto} `{Wire SigBody} `{GrpcConn} {X : Type}.
Abbreviation MC := (M (SigWorld X)).

Definition set_Client (f : GrpcClient → GrpcClient) (w : SigWorld X) : SigWorld X :=
  mkSigWorld (f (SW_Client w)) (SW_NextCh w) (SW_Closed w) (SW_Called w) (SW_Streamed w) (SW_Tick w) (SW_Handler w).
Definition set_Chans (n : nat) (cl : gset nat) (w : SigWorld X) : SigWorld X :=
  mkSigWorld (SW_Client w) n cl (SW_Called w) (SW_Streamed w) (SW_Tick w) (SW_Handler w).
Definition add_Called (m : SigEncrypted) (w : SigWorld X) : SigWorld X :=
  mkSigWorld (SW_Client w) (SW_NextCh w) (SW_Closed w) (SW_Called w ++ [m]) (SW_Streamed w) (SW_Tick w) (SW_Handler w).
Definition add_Streamed (m : SigEncrypted) (w : SigWorld X) : SigWorld X :=
  mkSigWorld (SW_Client w) (SW_NextCh w) (SW_Closed w) (SW_Called w) (SW_Streamed w ++ [m]) (SW_Tick w) (SW_Handler w).
Definition set_SigTick (t : nat) (w : SigWorld X) : SigWorld X :=
  mkSigWorld (SW_Client w) (SW_NextCh w) (SW_Closed w) (SW_Called w) (SW_Streamed w) t (SW_Handler w).
Definition set_SigHandler (h : X) (w : SigWorld X) : SigWorld X :=
  mkSigWorld (SW_Client w) (SW_NextCh w) (SW_Closed w) (SW_Called w) (SW_Streamed w) (SW_Tick w) h.

Definition set_Cl_Stream (v : option nat) c := mkGrpcClient (Cl_Key c) v (Cl_ConnectedCh c) (Cl_Status c).
Definition set_Cl_Ch (v : option nat) c := mkGrpcClient (Cl_Key c) (Cl_Stream c) v (Cl_Status c).
Definition set_Cl_Status (v : ClientStatus) c := mkGrpcClient (Cl_Key c) (Cl_Stream c) (Cl_ConnectedCh c) v.

Definition sig_tick : MC nat := λ w, (Ok (SW_Tick w), set_SigTick (S (SW_Tick w)) w).
Definition sig_ext (f : nat → option error) : MC unit :=
  t ← sig_tick; match f t with None => mret tt | Some e => fail e end.

(** A cryptographic operation: it uses the random source only. *)
Definition sig_crypto {A} (m : MW A) : MC A := λ w,
  let '(r, w') := m (set_Tick (SW_Tick w) emptyWorld) in (r, set_SigTick (World_Tick w') w).

Definition StreamConnected : MC bool := gets (λ w, bool_decide (Cl_Status (SW_Client w) = StreamConnected_)).
Definition GetStatus : MC ClientStatus := gets (λ w, Cl_Status (SW_Client w)).

Definition notifyStreamDisconnected : MC unit := modify (set_Client (set_Cl_Status StreamDisconnected_)).

(** Closing a closed channel panics. *)
Definition close_chan (ch : nat) : MC unit :=
  closed ← gets SW_Closed;
  if decide (ch ∈ closed) then panic "close of closed channel"
  else modify (λ w, set_Chans (SW_NextCh w) ({[ch]} ∪ SW_Closed w) w).

Definition notifyStreamConnected : MC unit :=
  _ ← modify (set_Client (set_Cl_Status StreamConnected_));
  c ← gets SW_Client;
  match Cl_ConnectedCh c with
  | Some ch => _ ← close_chan ch; modify (set_Client (set_Cl_Ch None))
  | None => mret tt
  end.

Definition getStreamStatusChan : MC nat :=
  c ← gets SW_Client;
  match Cl_ConnectedCh c with
  | Some ch => mret ch
  | None =>
      ch ← gets SW_NextCh;
      _ ← modify (λ w, set_Chans (S ch) (SW_Closed w) (set_Client (set_Cl_Ch (Some ch)) w));
      mret ch
  end.

(** On an error the stub returns a nil stream. *)
Definition connect (key : string) : MC nat :=
  _ ← modify (set_Client (set_Cl_Stream None));
  t ← gets SW_Tick;
  _ ← sig_ext conn_ConnectStream;
  _ ← modify (set_Client (set_Cl_Stream (Some t)));
  t' ← sig_tick;
  match conn_Header t' with
  | inl e => fail e
  | inr header =>
      if decide (default [] (header !! HeaderRegistered) = [])
      then fail (Plain "didn't receive a registration header from the Signal server whille connecting to the streams")
      else mret t
  end.

Definition Ready : MC bool :=
  t ← sig_tick;
  if decide (conn_GetState t = conn_Ready) then mret true
  else (t' ← sig_tick; mret (bool_decide (conn_GetState t' = conn_Idle))).

(** The two halves of [WaitStreamConnected]: the status is read without the
    lock; then the channel is asked for.  [Some ch]: it waits for [ch]. *)
Definition WaitStreamConnected : MC (option nat) :=
  connected ← StreamConnected;
  if (connected : bool) then mret None
  else (ch ← getStreamStatusChan; mret (Some ch)).

Definition SendToStream (msg : SigEncrypted) : MC unit :=
  ready ← Ready;
  if (ready : bool) then
    c ← gets SW_Client;
    match Cl_Stream c with
    | None => fail (Plain "connection to the Signal Exchnage has not been established yet. Please call GrpcClient.Receive before sending messages")
    | Some _ => _ ← sig_ext conn_StreamSend; modify (add_Streamed msg)
    end
  else fail (Plain "no connection to signal").

Definition decryptMessage (msg : SigEncrypted) : MC SigMessage :=
  c ← gets SW_Client;
  remoteKey ← sig_crypto (of_result (ParseKey (SigEnc_Key msg)));
  body ← sig_crypto (DecryptMessage remoteKey (Cl_Key c) (SigEnc_Body msg));
  mret (mkSigMessage (SigEnc_Key msg) (SigEnc_RemoteKey msg) (Some body)).

Definition encryptMessage (msg : SigMessage) : MC SigEncrypted :=
  c ← gets SW_Client;
  remoteKey ← sig_crypto (of_result (ParseKey (SigMsg_RemoteKey msg)));
  body ← or_fail (SigMsg_Body msg) (Plain "proto: Marshal called with nil");
  encryptedBody ← sig_crypto (EncryptMessage remoteKey (Cl_Key c) body);
  mret (mkSigEncrypted (SigMsg_Key msg) (SigMsg_RemoteKey msg) encryptedBody).

Definition Send (msg : SigMessage) : MC unit :=
  ready ← Ready;
  if (ready : bool) then
    encryptedMessage ← encryptMessage msg;
    _ ← sig_ext conn_Send;
    modify (add_Called encryptedMessage)
  else fail (Plain "no connection to signal").

(** Every error ends the loop.  A message that does not decrypt is logged, and
    given to the handler as nil; an error of the handler is logged. *)
Section receive.
Variable msgHandler : option SigMessage → M X unit.

Definition run_handler (m : option SigMessage) : MC unit := λ w,
  let '(r, h) := msgHandler m (SW_Handler w) in (r, set_SigHandler h w).

Fixpoint receive (recv : list (error + SigEncrypted)) : MC unit :=
  match recv with
  | [] => blocked
  | inl err :: _ => fail err
  | inr msg :: recv' =>
      d ← try (decryptMessage msg);
      _ ← try (run_handler (match d with inr m => Some m | inl _ => None end));
      receive recv'
  end.

(** One attempt of [Receive]. *)
Definition operation : MC unit :=
  _ ← notifyStreamDisconnected;
  ready ← Ready;
  if (ready : bool) then
    c ← gets SW_Client;
    stream ← connect (Key_String (PublicKey (Cl_Key c)));
    _ ← notifyStreamConnected;
    receive (conn_Recv stream)
  else fail (Plain "no connection to signal").
End receive.
End client.

(** cenkalti/backoff: [Retry] runs an operation until it succeeds or the
    policy gives up, whose error it returns. *)
Class Backoff (W : Type) := { backoff_Retry : M W unit → M W unit }.

Inductive retries {W} (op : M W unit) : W → Res unit → W → Prop :=
  | retries_last w r w' : op w = (r, w') → retries op w r w'
  | retries_again w e w1 r w2 : op w = (Err e, w1) → retries op w1 r w2 → retries op w r w2.

Class BackoffLaws (W : Type) `{Backoff W} := {
  Retry_retries op w r w' : backoff_Retry op w = (r, w') → retries op w r w' }.

Definition Receive `{Crypto} `{Wire SigBody} `{GrpcConn} {X} `{Backoff (SigWorld X)}
    (msgHandler : option SigMessage → M X unit) : M (SigWorld X) unit :=
  backoff_Retry (operation msgHandler).

(* ------------------------------------------------------------------ *)
(** ** Specifications *)

Section specs.
Context `{Crypto} `{Wire SigBody} `{GrpcConn} {X : Type}.
Implicit Types w : SigWorld X.

Definition newClient (key : Key) (x : X) : SigWorld X :=
  mkSigWorld (mkGrpcClient key None None StreamDisconnected_) 0 ∅ [] [] 0 x.

(** Every channel handed out is closed, or is the one the client holds. *)
Definition chans_inv w : Prop :=
  (∀ ch, ch < SW_NextCh w → (ch ∈ SW_Closed w) ∨ (Cl_ConnectedCh (SW_Client w) = Some ch)) ∧
  (∀ ch, Cl_ConnectedCh (SW_Client w) = Some ch → (ch ∉ SW_Closed w) ∧ ch < SW_NextCh w) ∧
  (∀ ch, ch ∈ SW_Closed w → ch < SW_NextCh w).

(** Nothing of the channels changes. *)
Definition chans_same w w' : Prop :=
  SW_NextCh w' = SW_NextCh w ∧ SW_Closed w' = SW_Closed w ∧
  Cl_ConnectedCh (SW_Client w') = Cl_ConnectedCh (SW_Client w).

#[local] Instance chans_same_preorder : PreOrder chans_same.
Proof. split; [done|]. intros w1 w2 w3 (?&?&?) (?&?&?). repeat split; congruence. Qed.

Lemma chans_same_inv w w' : chans_same w w' → chans_inv w → chans_inv w'.
Proof. unfold chans_inv. by intros (-> & -> & ->). Qed.

Lemma wp_sig_ext f (Q : Res unit → SigWorld X → Prop) w :
  (∀ r, (∀ s, r ≠ Panic s) → Q r (set_SigTick (S (SW_Tick w)) w)) → wp (sig_ext f) Q w.
Proof. intros HQ. unfold wp, sig_ext, sig_tick, mbind, M_bind. simpl. destruct (f _); by apply HQ. Qed.

Lemma wp_sig_crypto {A} (m : MW A) (P : Res A → Prop) (Q : Res A → SigWorld X → Prop) w :
  (∀ w0 : World, wp m (λ r _, P r) w0) →
  (∀ r n, P r → Q r (set_SigTick n w)) → wp (sig_crypto m) Q w.
Proof.
  intros Hm HQ. unfold wp, sig_crypto. specialize (Hm (set_Tick (SW_Tick w) emptyWorld)). unfold wp in Hm.
  destruct (m _) as [r w']. by apply HQ.
Qed.

Lemma wp_Ready (Q : Res bool → SigWorld X → Prop) w :
  (∀ b n, Q (Ok b) (set_SigTick n w)) → wp Ready Q w.
Proof.
  intros HQ. unfold Ready. wp_step. unfold sig_tick at 1, wp. simpl. case_decide; apply HQ.
Qed.

(** A message received is opened with the key it names and the client's own. *)
Lemma decryptMessage_spec msg w :
  wp (decryptMessage msg) (λ r w', (∃ n, w' = set_SigTick n w) ∧
    match r with
    | Ok m => SigMsg_Key m = SigEnc_Key msg ∧ SigMsg_RemoteKey m = SigEnc_RemoteKey msg ∧ is_Some (SigMsg_Body m)
    | Err _ => True
    | Panic _ => length (SigEnc_Body msg) < 24
    | Blocked => False
    end) w.
Proof.
  unfold decryptMessage. wp_step. wp_step. wp_step.
  apply (wp_sig_crypto _ (λ r, r = match ParseKey (SigEnc_Key msg) with inl e => Err e | inr k => Ok k end)).
  { intros w0. unfold of_result. by destruct (ParseKey _). }
  intros r n ->. destruct (ParseKey (SigEnc_Key msg)) as [e|k]; simpl; [split; [by eexists|done]|].
  wp_step.
  apply (wp_sig_crypto _ (λ r, match r with Panic _ => length (SigEnc_Body msg) < 24 | Blocked => False | _ => True end)).
  { intros w0. eapply wp_mono; [apply DecryptMessage_run|]. intros [] w1; simpl; tauto. }
  intros [] n' Hr; simpl; [wp_step|..]; (split; [by exists n'|done]).
Qed.

Lemma encryptMessage_frame msg w :
  wp (encryptMessage msg) (λ r w', (∃ n, w' = set_SigTick n w) ∧
    match r with
    | Ok m => SigEnc_Key m = SigMsg_Key msg ∧ SigEnc_RemoteKey m = SigMsg_RemoteKey msg ∧
        ∃ pk body t n plain, ParseKey (SigMsg_RemoteKey msg) = inr pk ∧ SigMsg_Body msg = Some body ∧
          rand_Read t = inr n ∧ pb_Marshal body = inr plain ∧
          SigEnc_Body m = n ++ box_Seal plain n pk (Cl_Key (SW_Client w))
    | Err _ => True
    | _ => False
    end) w.
Proof.
  unfold encryptMessage. wp_step. wp_step. wp_step.
  apply (wp_sig_crypto _ (λ r, r = match ParseKey (SigMsg_RemoteKey msg) with inl e => Err e | inr k => Ok k end)).
  { intros w0. unfold of_result. by destruct (ParseKey _). }
  intros r n ->. destruct (ParseKey (SigMsg_RemoteKey msg)) as [e|k]; simpl; [split; [by eexists|done]|].
  wp_step. wp_step; [|split; [by exists n|done]]. wp_step.
  eapply wp_sig_crypto. { intros w0. eapply wp_mono; [apply EncryptMessage_run|]. intros r w1 [_ Hr]. exact Hr. }
  intros [b|e|s|] n' Hr; simpl; try done; [|split; [by exists n'|done]].
  wp_step. split; [by exists n'|]. simpl. split; [done|]. split; [done|].
  destruct Hr as (t & nc & plain & ? & ? & ?). by exists k, a, t, nc, plain.
Qed.
End specs.

(* ------------------------------------------------------------------ *)
(** ** Waiting for the stream *)

(** The sections that the goroutines of the client run one after the other, in
    any order. *)
Inductive cl_op :=
  | ODisconnected | OConnected | OChan | OConnect | OReceived (msg : SigEncrypted)
  | OSend (msg : SigMessage) | OSendToStream (msg : SigEncrypted).

Section waiting.
Context `{Crypto} `{Wire SigBody} `{GrpcConn} {X : Type}.
Implicit Types w : SigWorld X.

Definition cl_do (op : cl_op) : M (SigWorld X) unit :=
  match op with
  | ODisconnected => notifyStreamDisconnected
  | OConnected => notifyStreamConnected
  | OChan => _ ← getStreamStatusChan; mret tt
  | OConnect => c ← gets SW_Client; _ ← connect (Key_String (PublicKey (Cl_Key c))); mret tt
  | OReceived msg => _ ← decryptMessage msg; mret tt
  | OSend msg => Send msg
  | OSendToStream msg => SendToStream msg
  end.

Definition cl_run (ops : list cl_op) (w : SigWorld X) : SigWorld X :=
  foldl (λ w op, (cl_do op w).2) w ops.

Lemma connect_frame key w : wp (connect key) (λ _ w', chans_same w w') w.
Proof.
  unfold connect. wp_go. apply wp_sig_ext. intros r _. destruct r; simpl; [|done..].
  wp_go. unfold sig_tick at 1, wp. simpl. destruct (conn_Header _); simpl; [done|]. by case_decide.
Qed.

Lemma Send_frame msg w : wp (Send msg) (λ _ w', chans_same w w') w.
Proof.
  unfold Send. wp_step. apply wp_Ready. intros [] n; simpl; [|by wp_step]. wp_step.
  eapply wp_mono; [apply encryptMessage_frame|]. intros [m|e|s|] w1 [[n1 ->] _]; simpl; try done.
  wp_step. apply wp_sig_ext. intros [] _; simpl; [|done..]. by wp_go.
Qed.

Lemma SendToStream_frame msg w : wp (SendToStream msg) (λ _ w', chans_same w w') w.
Proof.
  unfold SendToStream. wp_step. apply wp_Ready. intros [] n; simpl; [|by wp_step]. wp_step. wp_step. simpl.
  destruct (Cl_Stream _); [|by wp_step]. wp_step. apply wp_sig_ext. intros [] _; simpl; [|done..]. by wp_go.
Qed.

Lemma notifyStreamConnected_spec w :
  chans_inv w →
  wp notifyStreamConnected (λ r w', r = Ok tt ∧ chans_inv w' ∧
    Cl_Status (SW_Client w') = StreamConnected_ ∧
    SW_NextCh w' = SW_NextCh w ∧ ∀ ch, ch < SW_NextCh w → ch ∈ SW_Closed w') w.
Proof.
  intros (Hall & Hopen & Hlt). unfold notifyStreamConnected, close_chan. wp_step. wp_step. simpl. wp_step. wp_step.
  simpl. destruct (Cl_ConnectedCh (SW_Client w)) as [ch|] eqn:Hch.
  - destruct (Hopen ch eq_refl) as [Hopen' Hlt'].
    wp_step. wp_step. wp_step. simpl. rewrite decide_False by done. wp_step. wp_step. simpl.
    assert (∀ c, c < SW_NextCh w → c ∈ {[ch]} ∪ SW_Closed w) as Hc.
    { intros c Hc. destruct (Hall c Hc) as [?|[= ->]]; set_solver. }
    do 2 (split; [try done|]); [|done]. split_and!; simpl; [by auto|done|].
    intros c [->%elem_of_singleton|?]%elem_of_union; auto.
  - wp_step. assert (∀ c, c < SW_NextCh w → c ∈ SW_Closed w) as Hc.
    { intros c Hc. by destruct (Hall c Hc). }
    do 2 (split; [try done|]); [|done]. split_and!; simpl; [by auto|by rewrite Hch|done].
Qed.

Lemma getStreamStatusChan_spec w :
  chans_inv w →
  wp getStreamStatusChan (λ r w', ∃ ch, r = Ok ch ∧ chans_inv w' ∧ (ch ∉ SW_Closed w') ∧ ch < SW_NextCh w' ∧
    Cl_Status (SW_Client w') = Cl_Status (SW_Client w)) w.
Proof.
  intros Hinv. pose proof Hinv as (Hall & Hopen & Hlt). unfold getStreamStatusChan. wp_step. wp_step. simpl.
  destruct (Cl_ConnectedCh (SW_Client w)) as [ch|] eqn:Hch.
  - wp_step. destruct (Hopen ch eq_refl). by exists ch.
  - wp_go. exists (SW_NextCh w). assert (SW_NextCh w ∉ SW_Closed w) as Hnew by (intros Hin%Hlt; lia).
    split; [done|]. split; [|split; [done|split; [simpl; lia|done]]]. split_and!; simpl.
    + intros c Hc. destruct (decide (c = SW_NextCh w)) as [->|Hne]; [by right|]. left.
      by destruct (Hall c ltac:(lia)).
    + intros c [= <-]. split; [done|lia].
    + intros c Hc%Hlt. lia.
Qed.

Lemma cl_do_inv op w : chans_inv w → chans_inv (cl_do op w).2.
Proof.
  intros Hinv.
  enough (wp (cl_do op) (λ _ w', chans_inv w') w) as Hw by exact Hw.
  assert (∀ {A} (m : M (SigWorld X) A), wp m (λ _ w', chans_same w w') w → wp m (λ _ w', chans_inv w') w) as Hfr.
  { intros A m Hm. eapply wp_mono; [apply Hm|]. intros r w' Hs. exact (chans_same_inv _ _ Hs Hinv). }
  destruct op as [| | | |msg|msg|msg]; simpl.
  - by apply wp_modify.
  - eapply wp_mono; [by apply notifyStreamConnected_spec|]. by intros r w' (_ & ? & _).
  - wp_step. eapply wp_mono; [by apply getStreamStatusChan_spec|].
    by intros r w' (ch & -> & ? & _).
  - wp_step. wp_step. wp_step. eapply wp_mono; [apply Hfr, connect_frame|]. by intros [] w'.
  - wp_step. eapply wp_mono; [apply decryptMessage_spec|]. by intros [] w' [[n ->] _].
  - apply Hfr, Send_frame.
  - apply Hfr, SendToStream_frame.
Qed.

Lemma cl_run_inv ops w : chans_inv w → chans_inv (cl_run ops w).
Proof. revert w. induction ops as [|op ops IH]; intros w Hinv; [done|]. by apply IH, cl_do_inv. Qed.

Lemma newClient_inv key (x : X) : chans_inv (newClient key x).
Proof. split_and!; simpl; [lia|done|set_solver]. Qed.

(** C34: whatever the goroutines of the client have done before, a connection
    to the signal stream does not panic (no channel is closed twice) and
    releases everyone who waits: each channel handed out so far is closed. *)
Theorem connected_releases_waiters key (x : X) ops :
  let w := cl_run ops (newClient key x) in
  (notifyStreamConnected w).1 = Ok tt ∧
  ∀ ch, ch < SW_NextCh w → ch ∈ SW_Closed (notifyStreamConnected w).2.
Proof.
  intros w. assert (chans_inv w) as Hinv by apply cl_run_inv, newClient_inv.
  pose proof (notifyStreamConnected_spec w Hinv) as Hw. unfold wp in Hw.
  destruct (notifyStreamConnected w) as [r w']. simpl in *. by destruct Hw as (? & _ & _ & _ & ?).
Qed.

(** The status is read without the lock: when the stream connects after a
    goroutine has read "not connected" and before it asks for the channel, it
    gets a fresh channel, and waits although the client is connected. *)
Theorem lost_wakeup key (x : X) ops :
  let w := cl_run ops (newClient key x) in
  Cl_Status (SW_Client w) = StreamDisconnected_ →
  (StreamConnected w).1 = Ok false ∧
  wp (_ ← notifyStreamConnected; getStreamStatusChan) (λ r w',
    ∃ ch, r = Ok ch ∧ (ch ∉ SW_Closed w') ∧ Cl_Status (SW_Client w') = StreamConnected_) w.
Proof.
  intros w Hst. assert (chans_inv w) as Hinv by apply cl_run_inv, newClient_inv.
  split. { unfold StreamConnected, gets. simpl. by rewrite bool_decide_eq_false_2 by congruence. }
  wp_step. eapply wp_mono; [by apply notifyStreamConnected_spec|].
  intros r w1 (-> & Hinv1 & Hst1 & _). simpl.
  eapply wp_mono; [by apply getStreamStatusChan_spec|].
  intros r w2 (ch & -> & _ & Hopen & _ & Hst2). exists ch. split; [done|]. split; [done|]. congruence.
Qed.
End waiting.

(* ------------------------------------------------------------------ *)
(** ** What goes through the exchange *)

(** [em] is message [m], sealed for the owner of [sk2] by the owner of the key
    that it names as its sender. *)
Definition sealed_for `{Crypto} `{Wire SigBody} (sk2 : Key) (m : SigMessage) (em : SigEncrypted) : Prop :=
  ∃ sk1 body, SigMsg_Key m = Key_String (PublicKey sk1) ∧
    ParseKey (SigMsg_Key m) = inr (PublicKey sk1) ∧
    SigMsg_Body m = Some body ∧
    SigEnc_Key em = SigMsg_Key m ∧ SigEnc_RemoteKey em = SigMsg_RemoteKey m ∧
    sealed sk1 sk2 body (SigEnc_Body em).

(** The random source never fails. *)
Definition random_works `{Crypto} : Prop := ∀ t, ∃ n, rand_Read t = inr n.

Section exchange.
Context `{CryptoLaws} `{WireLaws SigBody} `{GrpcConn} {X : Type}.
Implicit Types w : SigWorld X.

Lemma encryptMessage_sealed msg sk2 w :
  SigMsg_Key msg = Key_String (PublicKey (Cl_Key (SW_Client w))) →
  ParseKey (SigMsg_Key msg) = inr (PublicKey (Cl_Key (SW_Client w))) →
  ParseKey (SigMsg_RemoteKey msg) = inr (PublicKey sk2) →
  wp (encryptMessage msg) (λ r w', (∃ n, w' = set_SigTick n w) ∧
    match r with Ok em => sealed_for sk2 msg em | Err _ => True | _ => False end) w.
Proof.
  intros Hk Hk1 Hk2. eapply wp_mono; [apply encryptMessage_frame|].
  intros [em|e|s|] w' [Hw Hr]; (split; [done|]); try done.
  destruct Hr as (? & ? & pk & body & t & n & plain & Hpk & Hb & Hn & Hm & Heq).
  exists (Cl_Key (SW_Client w)), body. split_and!; try done.
  exists t, n, plain. split; [done|]. split; [done|]. congruence.
Qed.

(** The receiver recovers the message, unless its random source fails. *)
Lemma decryptMessage_sealed sk2 m em w :
  sealed_for sk2 m em → Cl_Key (SW_Client w) = sk2 →
  wp (decryptMessage em) (λ r w', (∃ n, w' = set_SigTick n w) ∧
    (r = Ok m ∨ ∃ e t, r = Err e ∧ rand_Read t = inl e)) w.
Proof.
  intros (sk1 & body & Hk & Hk1 & Hb & HkE & HrE & Hsealed) Hkey.
  unfold decryptMessage. wp_step. wp_step. wp_step.
  apply (wp_sig_crypto _ (λ r, r = Ok (PublicKey sk1))).
  { intros w0. unfold of_result, wp. by rewrite HkE, Hk1. }
  intros r n ->. simpl. wp_step. apply sealed_opens in Hsealed. rewrite Hkey.
  eapply wp_sig_crypto. { intros w0. eapply wp_mono; [apply Hsealed|]. intros r w1 [_ Hr]. exact Hr. }
  intros r n' [->|(e & -> & t & Ht)]; simpl.
  - wp_step. split; [by exists n'|]. left. rewrite HkE, HrE. destruct m as [k rk b]; simpl in *. by rewrite Hb.
  - split; [by exists n'|]. right. eauto.
Qed.

Lemma Send_sealed msg sk2 w :
  SigMsg_Key msg = Key_String (PublicKey (Cl_Key (SW_Client w))) →
  ParseKey (SigMsg_Key msg) = inr (PublicKey (Cl_Key (SW_Client w))) →
  ParseKey (SigMsg_RemoteKey msg) = inr (PublicKey sk2) →
  wp (Send msg) (λ r w', match r with
    | Ok _ => ∃ em, SW_Called w' = SW_Called w ++ [em] ∧ sealed_for sk2 msg em
    | Err _ => SW_Called w' = SW_Called w
    | _ => False
    end) w.
Proof.
  intros Hk Hk1 Hk2. unfold Send. wp_step. apply wp_Ready. intros [] n; simpl; [|by wp_step]. wp_step.
  eapply wp_mono; [by apply encryptMessage_sealed|]. intros [em|e|s|] w1 [[n1 ->] Hem]; simpl; try done.
  wp_step. unfold sig_ext. wp_step. unfold sig_tick at 1, wp. simpl.
  destruct (conn_Send _); simpl; [done|]. by exists em.
Qed.

(** What one client sends, the other one's client opens: after a
    successful [Send] the message handed to the server, which forwards it as it
    is, is opened by the client of the peer it is addressed to into the same
    message, with its sender, type and payload, whenever that client's random
    source works. *)
Theorem send_then_decrypt msg sk2 w1 w1' w2 :
  SigMsg_Key msg = Key_String (PublicKey (Cl_Key (SW_Client w1))) →
  ParseKey (SigMsg_Key msg) = inr (PublicKey (Cl_Key (SW_Client w1))) →
  ParseKey (SigMsg_RemoteKey msg) = inr (PublicKey sk2) →
  Cl_Key (SW_Client w2) = sk2 →
  Send msg w1 = (Ok tt, w1') →
  ∃ em, SW_Called w1' = SW_Called w1 ++ [em] ∧ SigEnc_RemoteKey em = SigMsg_RemoteKey msg ∧
    wp (decryptMessage (X := X) em) (λ r _, r = Ok msg ∨ ∃ e t, r = Err e ∧ rand_Read t = inl e) w2.
Proof.
  intros Hk Hk1 Hk2 Hsk2 Hsend. pose proof (Send_sealed msg sk2 w1 Hk Hk1 Hk2) as Hw.
  unfold wp in Hw. rewrite Hsend in Hw. destruct Hw as (em & Hcalled & Hem). exists em.
  split; [done|]. split; [by destruct Hem as (? & ? & _ & _ & _ & _ & ? & _)|].
  eapply wp_mono; [by apply (decryptMessage_sealed sk2)|]. by intros r w' [_ Hr].
Qed.

(** A handler that returns on every message. *)
Definition returns (h : option SigMessage → M X unit) : Prop :=
  ∀ m x, match (h m x).1 with Ok _ | Err _ => True | _ => False end.

Lemma run_handler_returns h m w :
  returns h → wp (try (run_handler h m)) (λ r w',
    (∃ b, r = Ok b) ∧ w' = set_SigHandler (h m (SW_Handler w)).2 w) w.
Proof.
  intros Hh. wp_step. unfold wp, run_handler. specialize (Hh m (SW_Handler w)).
  destruct (h m (SW_Handler w)) as [[] x]; simpl in *; try done; eauto.
Qed.

(** The receive loop gives the messages that arrive to the handler, each
    once, opened, in the order of their arrival, whatever the handler answers,
    until the stream ends, and then returns the stream's error. *)
Theorem receive_in_order h ms ems err rest w :
  Forall2 (sealed_for (Cl_Key (SW_Client w))) ms ems → returns h → random_works →
  wp (receive h ((inr <$> ems) ++ inl err :: rest)) (λ r w', r = Err err ∧
    SW_Handler w' = foldl (λ x m, (h (Some m) x).2) (SW_Handler w) ms) w.
Proof.
  intros Hms Hh Hrand. remember (Cl_Key (SW_Client w)) as sk2 eqn:Hk. revert w Hk.
  induction Hms as [|m em ms ems Hm _ IH]; intros w Hk; simpl; [by wp_step|].
  wp_step. wp_step. eapply wp_mono; [by apply (decryptMessage_sealed sk2)|].
  intros r w1 [[n ->] [->|(e & t & -> & Ht)]].
  2: { destruct (Hrand t). congruence. }
  simpl. wp_step. eapply wp_mono; [by apply run_handler_returns|].
  intros r w2 [[b ->] ->]. simpl. eapply wp_mono; [by apply IH|]. done.
Qed.
End exchange.

Section bad_messages.
Context `{Crypto} `{Wire SigBody} `{GrpcConn} {X : Type}.
Implicit Types w : SigWorld X.

(** A message that does not decrypt is not dropped: after the failure is
    logged the handler is called all the same, with the nil message. *)
Theorem undecryptable_reaches_handler h em rest e w w1 :
  decryptMessage em w = (Err e, w1) →
  receive h (inr em :: rest) w =
    (_ ← try (run_handler h None); receive h rest) w1.
Proof.
  intros Hd. simpl. rewrite (bind_run _ _ w (inl e) w1); [done|]. unfold try. by rewrite Hd.
Qed.

(** A message shorter than a nonce, under any well-formed sender key,
    makes the client panic: the server does not check who sends what, so any
    registered peer can end the process of another. *)
Theorem short_message_crashes_client h em rest k w :
  ParseKey (SigEnc_Key em) = inr k → length (SigEnc_Body em) < 24 → random_works →
  ∃ s, (receive h (inr em :: rest) w).1 = Panic s.
Proof.
  intros Hk Hlen Hrand.
  assert (∃ s w', decryptMessage em w = (Panic s, w')) as (s & w' & Hd).
  { unfold decryptMessage, gets, sig_crypto, of_result, DecryptMessage, Decrypt, genNonce, mbind, M_bind. simpl.
    rewrite Hk. simpl. destruct (Hrand (SW_Tick w)) as [n Hn]. rewrite Hn. simpl. rewrite decide_True by done. eauto. }
  exists s. simpl. unfold mbind, M_bind, try at 1. by rewrite Hd.
Qed.
End bad_messages.

(** A separator more is a part more. *)
Lemma Split_length_app x y sep :
  length (Split (x +:+ String sep y) sep) = length (Split x sep) + length (Split y sep).
Proof.
  induction x as [|a x IH]; simpl; [by rewrite decide_True|].
  case_decide; simpl; [by rewrite IH|].
  pose proof (Split_nonempty x sep). destruct (Split x sep) as [|p l]; [done|].
  destruct (Split (x +:+ String sep y) sep); simpl in *; lia.
Qed.

Lemma Split_length_1 x sep : length (Split x sep) = 1 ↔ has_byte sep x = false.
Proof.
  induction x as [|a x IH]; simpl; [done|]. pose proof (Split_nonempty x sep).
  case_decide; simpl; [destruct (Split x sep); [done|]; simpl; split; [lia|done]|].
  rewrite <-IH. by destruct (Split x sep).
Qed.

(** Credentials survive the exchange exactly when neither part has a
    colon; otherwise the receiver reports an error and never takes a part of
    them for the whole. *)
Theorem credential_roundtrip `{Crypto} {W} (k r : Key) c t (w : W) :
  UnMarshalCredential (MarshalCredential k r c t) w =
    (if has_byte colon (Cred_UFrag c) || has_byte colon (Cred_Pwd c)
     then Err (Plain "error parsing message body") else Ok c, w).
Proof.
  destruct c as [u p]. unfold MarshalCredential, UnMarshalCredential. simpl.
  pose proof (Split_length_app u p colon) as Hlen.
  pose proof (Split_length_1 u colon) as Hu. pose proof (Split_length_1 p colon) as Hp.
  pose proof (Split_nonempty u colon) as Hu0. pose proof (Split_nonempty p colon) as Hp0.
  destruct (has_byte colon u) eqn:Hbu; [|destruct (has_byte colon p) eqn:Hbp]; simpl.
  - destruct (Split u colon) as [|? [|? ?]], (Split p colon) as [|? ?]; simpl in *; try done; [by destruct Hu as [Hu _]; specialize (Hu eq_refl)|].
    by destruct (Split _ colon) as [|? [|? [|? ?]]]; simpl in Hlen; try lia.
  - destruct (Split u colon) as [|? ?], (Split p colon) as [|? [|? ?]]; simpl in *; try done; [by destruct Hp as [Hp _]; specialize (Hp eq_refl)|].
    by destruct (Split _ colon) as [|? [|? [|? ?]]]; simpl in Hlen; try lia.
  - by rewrite Split_app, Split_no_sep.
Qed.

(* ------------------------------------------------------------------ *)
(** ** A concrete exchange *)

Definition demo_body_wire : Wire SigBody := {|
  pb_Marshal b := inr (Body_Type b :: string_bytes (Body_Payload b));
  pb_Unmarshal b := match b with
    | t :: p => inr (mkSigBody t (bytes_string p))
    | [] => inl (Plain "unexpected EOF")
    end |}.
#[export] Instance demo_body_wire_laws : @WireLaws SigBody demo_body_wire.
Proof.
  split. intros [t p] b [= <-]. simpl. by rewrite bytes_string_bytes.
Defined.

Definition demo_conn : GrpcConn := {|
  conn_GetState _ := conn_Ready; conn_ConnectStream _ := None;
  conn_Header _ := inr {[ HeaderRegistered := ["1"] ]}; conn_Recv _ := [];
  conn_StreamSend _ := None; conn_Send _ := None |}.

(** The handler's state is the list of what it was given. *)
Definition demo_handler : option SigMessage → M (list (option SigMessage)) unit :=
  λ m l, (Ok tt, l ++ [m]).
Definition demo_client (k : Key) : SigWorld (list (option SigMessage)) := newClient k [].

Definition demo_msg : SigMessage :=
  @MarshalCredential demo_crypto [65]%Z [66]%Z (mkCredential "ufrag" "pwd") Body_OFFER.
Definition demo_sealed : SigEncrypted :=
  mkSigEncrypted "A" "B" (replicate 24 0%Z ++ [66; 65; 0]%Z ++ string_bytes "ufrag:pwd").

Lemma demo_sealed_for : @sealed_for demo_crypto demo_body_wire [66]%Z demo_msg demo_sealed.
Proof.
  exists [65]%Z, (mkSigBody 0 "ufrag:pwd"). split_and!; try (by vm_compute).
  exists 0, (replicate 24 0%Z), (0%Z :: string_bytes "ufrag:pwd"). by vm_compute.
Defined.

Lemma connected_releases_waiters_witness :
  let w := @cl_run demo_crypto demo_body_wire demo_conn _ [OChan; OConnected; ODisconnected; OChan; OConnect] (demo_client [65]%Z) in
  SW_NextCh w = 2 ∧ 1 ∈ SW_Closed (notifyStreamConnected w).2.
Proof.
  intros w. split; [by vm_compute|].
  destruct (@connected_releases_waiters demo_crypto demo_body_wire demo_conn (list (option SigMessage)) [65]%Z []
    [OChan; OConnected; ODisconnected; OChan; OConnect]) as [_ Hc].
  apply Hc. apply Nat.ltb_lt. by vm_compute.
Defined.

Lemma lost_wakeup_witness :
  let w := demo_client [65]%Z in
  (StreamConnected w).1 = Ok false ∧
  ∃ ch, ((_ ← notifyStreamConnected; getStreamStatusChan) w).1 = Ok ch.
Proof.
  intros w. destruct (@lost_wakeup demo_crypto demo_body_wire demo_conn (list (option SigMessage)) [65]%Z [] [] eq_refl) as [Hc Hw].
  split; [exact Hc|]. unfold wp in Hw. destruct Hw as (ch & Hch & _). exists ch. exact Hch.
Defined.

Lemma send_then_decrypt_witness :
  let w := demo_client [65]%Z in
  SW_Called (@Send demo_crypto demo_body_wire demo_conn _ demo_msg w).2 = [demo_sealed] ∧
  (@decryptMessage demo_crypto demo_body_wire _ demo_sealed (demo_client [66]%Z)).1 = Ok demo_msg.
Proof.
  intros w. split; [by vm_compute|].
  destruct (@send_then_decrypt demo_crypto _ demo_body_wire _ demo_conn _ demo_msg [66]%Z w
    (@Send demo_crypto demo_body_wire demo_conn _ demo_msg w).2 (demo_client [66]%Z)) as (em & Hem & _ & Hd);
    [by vm_compute..|].
  assert (em = demo_sealed) as ->.
  { assert (SW_Called (@Send demo_crypto demo_body_wire demo_conn _ demo_msg w).2 = [demo_sealed]) as Hs by (by vm_compute).
    rewrite Hs in Hem. by injection Hem. }
  unfold wp in Hd. destruct Hd as [Hd|(e & t & _ & Ht)]; [exact Hd|discriminate Ht].
Defined.

Lemma receive_in_order_witness :
  let w := demo_client [66]%Z in
  let run := @receive demo_crypto demo_body_wire _ demo_handler [inr demo_sealed; inr demo_sealed; inl (Plain "EOF")] w in
  run.1 = Err (Plain "EOF") ∧ SW_Handler run.2 = [Some demo_msg; Some demo_msg].
Proof.
  intros w run.
  apply (@receive_in_order demo_crypto _ demo_body_wire _ _ demo_handler [demo_msg; demo_msg] [demo_sealed; demo_sealed]
    (Plain "EOF") [] w).
  - repeat constructor; apply demo_sealed_for.
  - done.
  - intros t. by eexists.
Defined.

Lemma undecryptable_reaches_handler_witness :
  let w := demo_client [66]%Z in
  let bad := mkSigEncrypted "A" "B" (replicate 30 9%Z) in
  SW_Handler (@receive demo_crypto demo_body_wire _ demo_handler [inr bad] w).2 = [None].
Proof.
  intros w bad.
  assert (∃ e w1, @decryptMessage demo_crypto demo_body_wire _ bad w = (Err e, w1) ∧ SW_Handler w1 = []) as (e & w1 & Hd & Hw1).
  { eexists _, _. split; [by vm_compute|done]. }
  rewrite (@undecryptable_reaches_handler demo_crypto demo_body_wire _ demo_handler bad [] e w w1 Hd).
  unfold run_handler, try, mbind, M_bind. simpl. by rewrite Hw1.
Defined.

Lemma short_message_crashes_client_witness :
  ∃ s, (@receive demo_crypto demo_body_wire _ demo_handler
          [inr (mkSigEncrypted "anyone" "B" [1; 2; 3]%Z)] (demo_client [66]%Z)).1 = Panic s.
Proof.
  apply (@short_message_crashes_client demo_crypto demo_body_wire _ demo_handler _ [] (string_bytes "anyone")).
  - by vm_compute.
  - simpl. lia.
  - intros t. by eexists.
Defined.
