(* ===== verification/MgmClient.v ===== *)
(** * MgmClient: the client of the management service (management/client/grpc.go)

    Login, registration and the update stream, as the peer sees them.  The
    client runs against a service given as a record of its calls; [served]
    is the server of [GrpcServer] behind a network that may fail, so that the
    theorems about login are about both ends. *)

From S2P Require Import Prelude GoLib Model Network UpdateChannel FileStore Account Groups Peers Turn Encryption Jwt GrpcServer Util Signal SignalClient.

(* ------------------------------------------------------------------ *)
(** ** The service, as a record of calls *)

Record MgmService := mkService {
  rpc_GetServerKey : MW ServerKeyResponse;
  rpc_Login : EncryptedMessage → MW EncryptedMessage;
  rpc_GetDeviceAuthorizationFlow : EncryptedMessage → MW EncryptedMessage;
  rpc_Sync : EncryptedMessage → MW (list (error + EncryptedMessage)) }.

(** The error of a call, as it reaches the client: always a status. *)
Definition rpc_error (e : error) : error :=
  match e with Plain m => Status Unknown m | Status _ _ => e end.

(** client/system/info.go *)
Record Info := mkInfo {
  Info_GoOS : string; Info_Kernel : string; Info_Core : string; Info_Platform : string;
  Info_OS : string; Info_OSVersion : string; Info_Hostname : string; Info_CPUs : Z;
  Info_WiretrusteeVersion : string; Info_UIVersion : string }.

Definition infoToMetaData (info : option Info) : option PbPeerSystemMeta :=
  match info with
  | None => None
  | Some i => Some (mkPbMeta (Info_Hostname i) (Info_GoOS i) (Info_Kernel i) (Info_OSVersion i)
                (Info_Platform i) (Info_OS i) (Info_WiretrusteeVersion i) (Info_UIVersion i))
  end.

(* ------------------------------------------------------------------ *)
(** ** Calls *)

Section client.
Context `{Runtime} `{Crypto} `{GrpcConn} `{Wires}.
Context (c_key : Key) (svc : MgmService).

Definition ready : MW bool :=
  t ← tick;
  if decide (conn_GetState t = conn_Ready) then mret true
  else (t' ← tick; mret (bool_decide (conn_GetState t' = conn_Idle))).

Definition GetServerPublicKey : MW Key :=
  r ← ready;
  if (r : bool) then
    resp ← rpc_GetServerKey svc;
    of_result (ParseKey (SK_Key resp))
  else fail (Plain "no connection to management").

Definition login (serverKey : Key) (req : LoginRequest) : MW LoginResponse :=
  r ← ready;
  if (r : bool) then
    loginReq ← EncryptMessage serverKey c_key req;
    resp ← rpc_Login svc (mkEncryptedMessage (Key_String (PublicKey c_key)) loginReq);
    DecryptMessage (A := LoginResponse) serverKey c_key (EM_Body resp)
  else fail (Plain "no connection to management").

Definition Client_Register (serverKey : Key) (setupKey jwtToken : string) (sysInfo : option Info) : MW LoginResponse :=
  login serverKey (mkLoginRequest setupKey (infoToMetaData sysInfo) jwtToken).

Definition Client_Login (serverKey : Key) (sysInfo : option Info) : MW LoginResponse :=
  login serverKey (mkLoginRequest "" (infoToMetaData sysInfo) "").

Definition Client_GetDeviceAuthorizationFlow (serverKey : Key) : MW PbDeviceAuthorizationFlow :=
  r ← ready;
  if (r : bool) then
    encryptedMSG ← EncryptMessage serverKey c_key mkFlowRequest;
    resp ← rpc_GetDeviceAuthorizationFlow svc (mkEncryptedMessage (Key_String (PublicKey c_key)) encryptedMSG);
    map_err (λ e, Plain ("failed to decrypt device authorization flow message: " +:+ error_text e))
      (DecryptMessage (A := PbDeviceAuthorizationFlow) serverKey c_key (EM_Body resp))
  else fail (Plain "no connection to management in order to get device authorization flow").

Definition connectToStream (serverPubKey : Key) : MW (list (error + EncryptedMessage)) :=
  encryptedReq ← EncryptMessage serverPubKey c_key mkSyncRequest;
  rpc_Sync svc (mkEncryptedMessage (Key_String (PublicKey c_key)) encryptedReq).
End client.

(* ------------------------------------------------------------------ *)
(** ** The update stream *)

(** The state of a stream: the world and the state of the message handler. *)
Record SyncWorld (X : Type) := mkSyncWorld { Sy_World : World; Sy_Handler : X }.
Arguments mkSyncWorld {X}.
Arguments Sy_World {X}.
Arguments Sy_Handler {X}.

Section sync.
Context `{Runtime} `{Crypto} `{GrpcConn} `{Wires} {X : Type}.
Context (c_key : Key) (svc : MgmService) (msgHandler : SyncResponse → M X unit).
Abbreviation MY := (M (SyncWorld X)).

Definition on_world {A} (m : MW A) : MY A := λ s,
  let '(r, w) := m (Sy_World s) in (r, mkSyncWorld w (Sy_Handler s)).
Definition handle (u : SyncResponse) : MY unit := λ s,
  let '(r, x) := msgHandler u (Sy_Handler s) in (r, mkSyncWorld (Sy_World s) x).

(** Every error ends the loop, also the handler's. *)
Fixpoint receiveEvents (serverPubKey : Key) (recv : list (error + EncryptedMessage)) : MY unit :=
  match recv with
  | [] => blocked
  | inl err :: _ => fail err
  | inr update :: recv' =>
      decryptedResp ← on_world (DecryptMessage (A := SyncResponse) serverPubKey c_key (EM_Body update));
      _ ← handle decryptedResp;
      receiveEvents serverPubKey recv'
  end.

(** Which errors of the stream end the retries. *)
Definition is_permanent (e : error) : bool :=
  let '(c, ok) := from_error (Some e) in
  ok && (bool_decide (c = InvalidArgument) || bool_decide (c = PermissionDenied)).

Definition fetch_stream : MY (Key * list (error + EncryptedMessage)) :=
  r ← on_world ready;
  if (r : bool) then
    serverPubKey ← on_world (GetServerPublicKey svc);
    stream ← on_world (connectToStream c_key svc serverPubKey);
    mret (serverPubKey, stream)
  else fail (Plain "no connection to management").

(** One attempt of [Sync]. *)
Definition sync_operation : MY (option retry_error) :=
  r ← try fetch_stream;
  match r with
  | inl e => mret (Some (Failed e))
  | inr (serverPubKey, stream) =>
      r2 ← try (receiveEvents serverPubKey stream);
      match r2 with
      | inl e => if is_permanent e then mret (Some (Stop e)) else mret (Some (Failed e))
      | inr _ => mret None
      end
  end.
End sync.

(** cenkalti/backoff: [Retry] runs an operation until it succeeds, fails
    permanently or the policy gives up. *)
Class BackoffP (W : Type) := { backoff_RetryP : M W (option retry_error) → M W unit }.

Inductive retriesP {W} (op : M W (option retry_error)) : W → Res unit → W → Prop :=
  | retriesP_ok w w' : op w = (Ok None, w') → retriesP op w (Ok tt) w'
  | retriesP_stop w e w' : op w = (Ok (Some (Stop e)), w') → retriesP op w (Err e) w'
  | retriesP_give_up w e w' : op w = (Ok (Some (Failed e)), w') → retriesP op w (Err e) w'
  | retriesP_again w e w1 r w2 : op w = (Ok (Some (Failed e)), w1) → retriesP op w1 r w2 → retriesP op w r w2
  | retriesP_err w e w' : op w = (Err e, w') → retriesP op w (Err e) w'
  | retriesP_panic w s w' : op w = (Panic s, w') → retriesP op w (Panic s) w'
  | retriesP_blocked w w' : op w = (Blocked, w') → retriesP op w Blocked w'.

Class BackoffPLaws (W : Type) `{BackoffP W} := {
  RetryP_retries op w r w' : backoff_RetryP op w = (r, w') → retriesP op w r w' }.

Definition Client_Sync `{Crypto} `{GrpcConn} `{Wires} {X} `{BackoffP (SyncWorld X)}
    (c_key : Key) (svc : MgmService) (msgHandler : SyncResponse → M X unit) : M (SyncWorld X) unit :=
  backoff_RetryP (sync_operation c_key svc msgHandler).

(* ------------------------------------------------------------------ *)
(** ** The server behind a network *)

(** Requests and answers may be lost. *)
Definition over_network `{Runtime} {A} (m : MW A) : MW A :=
  _ ← os_call;
  a ← map_err rpc_error m;
  _ ← os_call;
  mret a.

Definition served `{Runtime} `{Crypto} `{JwtLib} `{Wires} (s : Server)
    (sync : EncryptedMessage → MW (list (error + EncryptedMessage))) : MgmService := {|
  rpc_GetServerKey := over_network (GetServerKey s);
  rpc_Login req := over_network (Login s req);
  rpc_GetDeviceAuthorizationFlow req := over_network (GetDeviceAuthorizationFlow s req);
  rpc_Sync := sync |}.

(* ------------------------------------------------------------------ *)
(** ** Specifications *)

Lemma wp_ready `{Runtime} `{GrpcConn} (Q : Res bool → World → Prop) w :
  (∀ b n, Q (Ok b) (set_Tick n w)) → wp ready Q w.
Proof. intros HQ. unfold ready. wp_step. unfold tick at 1, wp. simpl. case_decide; apply HQ. Qed.

(** A call over the network: it is made or not, and its answer may be lost. *)
Lemma wp_over_network `{Runtime} {A} (m : MW A) (Q : Res A → World → Prop) w :
  (∀ e n, Q (Err e) (set_Tick n w)) →
  (∀ n, wp m (λ r w', (∀ e, r = Err e → Q (Err (rpc_error e)) w') ∧
     (∀ a n', r = Ok a → Q (Ok a) (set_Tick n' w') ∧ ∀ e, Q (Err e) (set_Tick n' w')) ∧
     (∀ s, r = Panic s → Q (Panic s) w') ∧ (r = Blocked → Q Blocked w')) (set_Tick n w)) →
  wp (over_network m) Q w.
Proof.
  intros Hlost Hm. unfold over_network. wp_step. apply wp_os_call; intros; simpl; [|apply Hlost].
  wp_step. wp_step. eapply wp_mono; [apply Hm|]. intros r w' (He & Ha & Hp & Hb).
  destruct r as [a|e|s|]; simpl; [|by apply He|by apply Hp|by apply Hb].
  wp_step. apply wp_os_call; intros; simpl; [wp_step|]; by eapply Ha.
Qed.

(** Running a sealed request through [DecryptMessage]. *)
Lemma opens_to_run `{CryptoLaws} {A} `{Wire A} sk1 sk2 (m : A) b w :
  opens_to sk1 sk2 m b → random_works → (DecryptMessage (PublicKey sk1) sk2 b w).1 = Ok m.
Proof.
  intros Ho Hr. destruct (Ho w) as [_ [Hm|(e & _ & t & Ht)]]; [done|].
  destruct (Hr t). congruence.
Qed.

Section login.
Context `{Runtime} `{CryptoLaws} `{JwtLib} `{GrpcConn} `{Wires}
  `{!WireLaws LoginRequest} `{!WireLaws LoginResponse}.
Context (c_key : Key) (s : Server) (sync : EncryptedMessage → MW (list (error + EncryptedMessage))).

(** What [login] leaves behind, when it answers. *)
Lemma login_spec req w :
  random_works →
  ParseKey (Key_String (PublicKey c_key)) = inr (PublicKey c_key) →
  well_keyed (World_Store w) → networks_ok (World_Store w) → upd_wf (World_Upd w) →
  (∀ id a, Accounts (World_Store w) !! id = Some a → peers_keyed a) →
  LR_JwtToken req = "" →
  wp (login c_key (served s sync) (PublicKey (Srv_wgKey s)) req) (λ r w', ∀ x, r = Ok x →
    ∃ id p wc, stored_peer (Key_String (PublicKey c_key)) id p (World_Store w') ∧
      x = mkLoginResponse (Some wc) (Some (toPeerConfig p))) w.
Proof.
  intros Hrand Hpk Hk Hn Hwf Hkeyed Hjwt. unfold login. wp_step. apply wp_ready. intros [] t; simpl; [|by wp_step].
  wp_step. eapply wp_mono; [apply EncryptMessage_run|].
  intros [b|e|m|] w1 [Hs1 Hb]; simpl; try done. wp_step. simpl.
  destruct Hs1 as (Es & _ & Eu & _). simpl in Es, Eu.
  apply wp_over_network; [done|]. intros n1.
  assert (opens s (mkEncryptedMessage (Key_String (PublicKey c_key)) b) (PublicKey c_key) req (set_Tick n1 w1)) as Hop.
  { split; [done|]. apply opens_to_run; [|done]. by apply sealed_opens. }
  eapply wp_mono.
  { apply (Login_registers_spec s _ (PublicKey c_key) req); simpl; rewrite ?Es, ?Eu; done. }
  intros r w2 Hr. split_and!; [done| |done|done].
  intros em n2 ->. split; [|done]. simpl. destruct (Hr em eq_refl) as (id & p & Hst & Hans).
  destruct Hans as (wc & t2 & nonce & plain & Hn2 & Hm & ->). simpl.
  eapply wp_mono; [apply (sealed_opens (Srv_wgKey s) c_key); by exists t2, nonce, plain|].
  intros r w3 [Hs3 Hr3] x ->. destruct Hr3 as [[= ->]|(e & ? & _)]; [|done].
  exists id, p, wc. rewrite (same_state_store _ _ Hs3). done.
Qed.

(** Registration, from one end to the other: when the client's [Register]
    with a setup key returns an answer, the peer with the client's public key
    is registered in some account at the server, and the address in the answer
    is the one stored there for it. *)
Theorem client_register_registers setupKey info resp w w' :
  random_works →
  ParseKey (Key_String (PublicKey c_key)) = inr (PublicKey c_key) →
  well_keyed (World_Store w) → networks_ok (World_Store w) → upd_wf (World_Upd w) →
  (∀ id a, Accounts (World_Store w) !! id = Some a → peers_keyed a) →
  Client_Register c_key (served s sync) (PublicKey (Srv_wgKey s)) setupKey "" info w = (Ok resp, w') →
  ∃ id p, stored_peer (Key_String (PublicKey c_key)) id p (World_Store w') ∧
    LoginR_PeerConfig resp = Some (toPeerConfig p).
Proof.
  intros Hrand Hpk Hk Hn Hwf Hkeyed Hrun.
  pose proof (login_spec (mkLoginRequest setupKey (infoToMetaData info) "") w Hrand Hpk Hk Hn Hwf Hkeyed eq_refl) as Hw.
  apply (wp_run _ _ _ _ _ Hrun) in Hw. destruct (Hw _ eq_refl) as (id & p & wc & Hst & ->). by exists id, p.
Qed.
End login.

Section stream.
Context `{Runtime} `{CryptoLaws} `{GrpcConn} `{Wires} {X : Type}.
Implicit Types sw : SyncWorld X.

(** The updates a stream delivers, sealed for this client, are handled
    one by one, each once and in order, and the first error of the handler ends
    the stream: the loop does what running the handler over the updates does,
    and then returns the error the stream ends with. *)
Theorem updates_handled_in_order c_key (h : SyncResponse → M X unit) srv us ems err rest sw :
  random_works → Forall2 (λ u em, opens_to srv c_key u (EM_Body em)) us ems →
  wp (receiveEvents c_key h (PublicKey srv) ((inr <$> ems) ++ inl err :: rest)) (λ r sw',
    r = (match (for_each us h (Sy_Handler sw)).1 with Ok _ => Err err | r => r end) ∧
    Sy_Handler sw' = (for_each us h (Sy_Handler sw)).2) sw.
Proof.
  intros Hrand Hus. revert sw. induction Hus as [|u em us ems Hu _ IH]; intros sw; simpl; [by wp_step|].
  pose proof (opens_to_run srv c_key u (EM_Body em) (Sy_World sw) Hu Hrand) as Hd.
  unfold wp, mbind, M_bind, on_world, handle.
  destruct (DecryptMessage (PublicKey srv) c_key (EM_Body em) (Sy_World sw)) as [r w1]. simpl in Hd. subst r. simpl.
  destruct (h u (Sy_Handler sw)) as [[[]|e|s|] x]; simpl; try done.
  specialize (IH (mkSyncWorld w1 x)). exact IH.
Qed.

(** One attempt, over a stream that delivers updates and then an error. *)
Lemma sync_operation_ends c_key svc (h : SyncResponse → M X unit) srv us ems e rest sw sw1 x :
  random_works → fetch_stream c_key svc sw = (Ok (PublicKey srv, (inr <$> ems) ++ inl e :: rest), sw1) →
  Forall2 (λ u em, opens_to srv c_key u (EM_Body em)) us ems →
  for_each us h (Sy_Handler sw1) = (Ok tt, x) →
  ∃ sw2, Sy_Handler sw2 = x ∧
    sync_operation c_key svc h sw = (Ok (Some ((if is_permanent e then Stop else Failed) e)), sw2).
Proof.
  intros Hrand Hf Hus Hh. pose proof (updates_handled_in_order c_key h srv us ems e rest sw1 Hrand Hus) as Hw.
  unfold wp in Hw. rewrite Hh in Hw. simpl in Hw.
  destruct (receiveEvents _ _ _ _ sw1) as [r sw2] eqn:Hr. simpl in Hw. destruct Hw as [-> <-].
  exists sw2. split; [done|]. unfold sync_operation, try, mbind, M_bind. rewrite Hf. simpl. rewrite Hr. simpl.
  by destruct (is_permanent e).
Qed.

(** C35: the refusal of a peer ends its client's synchronisation: when the
    stream, after any number of updates that were handled, ends with the code
    permission denied (the peer is not registered) or invalid argument, [Sync]
    returns that error without another attempt; when it ends with another
    code, or with an error that has none, the attempt counts as one to be
    repeated. *)
Theorem refusal_ends_sync `{BackoffP (SyncWorld X)} `{!BackoffPLaws (SyncWorld X)}
    c_key svc (h : SyncResponse → M X unit) srv us ems e rest sw sw1 x :
  random_works → fetch_stream c_key svc sw = (Ok (PublicKey srv, (inr <$> ems) ++ inl e :: rest), sw1) →
  Forall2 (λ u em, opens_to srv c_key u (EM_Body em)) us ems →
  for_each us h (Sy_Handler sw1) = (Ok tt, x) →
  ∃ sw2, Sy_Handler sw2 = x ∧
    match e with
    | Status PermissionDenied _ | Status InvalidArgument _ => Client_Sync c_key svc h sw = (Err e, sw2)
    | _ => sync_operation c_key svc h sw = (Ok (Some (Failed e)), sw2)
    end.
Proof.
  intros Hrand Hf Hus Hh.
  destruct (sync_operation_ends c_key svc h srv us ems e rest sw sw1 x Hrand Hf Hus Hh) as (sw2 & Hx & Hop).
  exists sw2. split; [done|]. destruct e as [[] m|m]; try exact Hop; simpl in Hop;
    (destruct (Client_Sync c_key svc h sw) as [r sw3] eqn:Hrun; apply RetryP_retries in Hrun;
     inversion Hrun; subst; congruence).
Qed.
End stream.

(* ------------------------------------------------------------------ *)
(** ** A concrete registration and stream *)

#[export] Instance PbPeerSystemMeta_eq_dec : EqDecision PbPeerSystemMeta.
Proof. solve_decision. Defined.
#[export] Instance LoginRequest_eq_dec : EqDecision LoginRequest.
Proof. solve_decision. Defined.
#[export] Instance LoginResponse_eq_dec : EqDecision LoginResponse.
Proof. solve_decision. Defined.

(** Encodings of the messages of one form, by the string that varies. *)
Definition form_wire {A} `{EqDecision A} (form : string → A) (hole : A → string) : Wire A := {|
  pb_Marshal m := if decide (m = form (hole m)) then inr (string_bytes (hole m)) else inl (Plain "proto: cannot marshal");
  pb_Unmarshal b := inr (form (bytes_string b)) |}.
Lemma form_wire_laws {A} `{EqDecision A} form hole : @WireLaws A (form_wire form hole).
Proof.
  split. intros m b. simpl. case_decide as Hm; [|done]. intros [= <-]. by rewrite bytes_string_bytes, <-Hm.
Defined.

Definition demo_info : Info := mkInfo "linux" "k" "" "p" "o" "c" "host" 0 "v" "".
Definition demo_request (setupKey : string) : LoginRequest := mkLoginRequest setupKey (infoToMetaData (Some demo_info)) "".
Definition demo_wc : WiretrusteeConfig :=
  match (toWiretrusteeConfig demo_config None ()).1 with Ok c => c | _ => mkWiretrusteeConfig [] [] None end.
Definition demo_response (addr : string) : LoginResponse := mkLoginResponse (Some demo_wc) (Some (mkPeerConfig addr)).

Definition client_wires : Wires := {|
  wire_login_request := form_wire demo_request LR_SetupKey;
  wire_login_response := form_wire demo_response (λ m, from_option PeerConfig_Address "" (LoginR_PeerConfig m));
  wire_sync_request := @wire_sync_request demo_wires;
  wire_sync_response := @wire_sync_response demo_wires;
  wire_flow_request := @wire_flow_request demo_wires;
  wire_flow := @wire_flow demo_wires |}.

Definition demo_service (sync : EncryptedMessage → MW (list (error + EncryptedMessage))) : MgmService :=
  @served demo_runtime demo_crypto demo_jwt_lib client_wires demo_server sync.
Definition run_register (w : World) : Res LoginResponse * World :=
  @Client_Register demo_crypto demo_conn client_wires [120]%Z (demo_service (λ _, mret []))
    (@PublicKey demo_crypto (Srv_wgKey demo_server)) "k" ""
    (Some demo_info) w.

Lemma demo_random_works : @random_works demo_crypto.
Proof. intros t. by eexists. Defined.

Lemma client_register_registers_witness :
  ∃ resp w', run_register shop_world = (Ok resp, w') ∧
    ∃ id p, stored_peer (@Key_String demo_crypto [120]%Z) id p (World_Store w') ∧ LoginR_PeerConfig resp = Some (toPeerConfig p).
Proof.
  pose (w' := snd (run_register shop_world)).
  assert (∃ resp, run_register shop_world = (Ok resp, w')) as [resp Hrun]
    by (eexists; vm_compute; reflexivity).
  clearbody w'. exists resp, w'. split; [exact Hrun|]. unfold run_register, demo_service in Hrun.
  exact (@client_register_registers demo_runtime demo_crypto demo_crypto_laws demo_jwt_lib demo_conn client_wires
    (form_wire_laws _ _) (form_wire_laws _ _) [120]%Z demo_server (λ _, mret []) "k" (Some demo_info) resp shop_world w'
    demo_random_works eq_refl shop_well_keyed shop_networks_ok shop_upd_wf shop_peers_keyed Hrun).
Defined.

(** The handler refuses the second update; the third is not handled. *)
Definition demo_sync_handler (u : SyncResponse) : M nat unit := λ n,
  if decide (n < 1) then (Ok tt, S n) else (Err (Plain "no"), S n).
Definition empty_update : SyncResponse := peers_update 0 [].
Definition demo_update_message : EncryptedMessage := mkEncryptedMessage "9" (replicate 24 0%Z ++ [120; 9]%Z).

Definition sync_wires : Wires := {|
  wire_login_request := @wire_login_request client_wires;
  wire_login_response := @wire_login_response client_wires;
  wire_sync_request := @wire_sync_request demo_wires;
  wire_sync_response := form_wire (λ _, empty_update) (λ _, "");
  wire_flow_request := @wire_flow_request demo_wires;
  wire_flow := @wire_flow demo_wires |}.

Lemma demo_update_opens :
  @opens_to demo_crypto _ (@wire_sync_response sync_wires) [9]%Z [120]%Z empty_update (EM_Body demo_update_message).
Proof.
  apply (@sealed_opens demo_crypto demo_crypto_laws SyncResponse _ (form_wire_laws _ _)).
  exists 0, (replicate 24 0%Z), []. by vm_compute.
Defined.

Lemma updates_handled_in_order_witness :
  let run := @receiveEvents demo_crypto sync_wires _ [120]%Z demo_sync_handler [9]%Z
    [inr demo_update_message; inr demo_update_message; inr demo_update_message; inl (Plain "EOF")]
    (mkSyncWorld emptyWorld 0) in
  run.1 = Err (Plain "no") ∧ Sy_Handler run.2 = 2.
Proof.
  intros run.
  destruct (@updates_handled_in_order demo_crypto demo_crypto_laws sync_wires _ [120]%Z demo_sync_handler [9]%Z
    [empty_update; empty_update; empty_update] [demo_update_message; demo_update_message; demo_update_message]
    (Plain "EOF") [] (mkSyncWorld emptyWorld 0)) as [Hr Hx].
  - exact demo_random_works.
  - repeat constructor; apply demo_update_opens.
  - split; [exact Hr|exact Hx].
Defined.

(** A policy that gives up after one attempt. *)
Definition once {W} : BackoffP W := {| backoff_RetryP op := λ w,
  match op w with
  | (Ok None, w') => (Ok tt, w')
  | (Ok (Some (Stop e)), w') | (Ok (Some (Failed e)), w') => (Err e, w')
  | (Err e, w') => (Err e, w')
  | (Panic s, w') => (Panic s, w')
  | (Blocked, w') => (Blocked, w')
  end |}.
Definition refusing : MgmService :=
  demo_service (λ _, mret [inr demo_update_message; inl (Status PermissionDenied "not registered")]).

Definition demo_policy : BackoffP (SyncWorld nat) := once.
Lemma demo_policy_laws : @BackoffPLaws (SyncWorld nat) demo_policy.
Proof.
  split. intros op w r w'. unfold backoff_RetryP, demo_policy, once.
  destruct (op w) as [[[[e|e]|]|e|s|] w1] eqn:Hop; intros [= <- <-].
  - by apply retriesP_stop.
  - by apply retriesP_give_up.
  - by apply retriesP_ok.
  - by apply retriesP_err.
  - by apply retriesP_panic.
  - by apply retriesP_blocked.
Defined.

(** An update, and then the refusal. *)
Lemma refusal_ends_sync_witness :
  let sw := mkSyncWorld emptyWorld 0 in
  ∃ sw2, Sy_Handler sw2 = 1 ∧
    @Client_Sync demo_crypto demo_conn sync_wires nat demo_policy [120]%Z refusing demo_sync_handler sw
      = (Err (Status PermissionDenied "not registered"), sw2).
Proof.
  intros sw.
  pose (sw1 := (@fetch_stream demo_crypto demo_conn sync_wires nat [120]%Z refusing sw).2).
  assert (@fetch_stream demo_crypto demo_conn sync_wires nat [120]%Z refusing sw
    = (Ok ([9]%Z, (inr <$> [demo_update_message]) ++ [inl (Status PermissionDenied "not registered")]), sw1))
    as Hf by (vm_compute; reflexivity).
  refine (@refusal_ends_sync demo_crypto demo_crypto_laws demo_conn sync_wires nat demo_policy demo_policy_laws [120]%Z refusing
    demo_sync_handler [9]%Z [empty_update] [demo_update_message]
    (Status PermissionDenied "not registered") [] sw sw1 1 demo_random_works Hf _ _).
  - repeat constructor; apply demo_update_opens.
  - vm_compute; reflexivity.
Defined.
