(* ===== verification/SystemInfo.v ===== *)
(** * SystemInfo: the description of the machine (client/system)

    What the client tells the management service of the machine it runs on.
    The outputs of the commands that are run, in turn, are parameters; the
    state counts them. *)

From S2P Require Import Prelude GoLib Model Encryption MgmClient.

(** The standard output of a command, and what the runtime knows. *)
Class MachineInfo := {
  cmd_output : nat → list string → string;
  cmd_fails : nat → list string → bool;
  goos : string; goarch : string; num_cpu : Z; hostname : string }.

(* ------------------------------------------------------------------ *)
(** ** [strings] *)

Fixpoint HasPrefix (s prefix : string) : bool :=
  match prefix, s with
  | "", _ => true
  | String p prefix', String a s' => if decide (a = p) then HasPrefix s' prefix' else false
  | _, "" => false
  end.
(** [strings.Index], [strings.Contains]. *)
Fixpoint Index (s sub : string) : option nat :=
  if HasPrefix s sub then Some 0
  else match s with "" => None | String _ s' => S <$> Index s' sub end.
Definition Contains (s sub : string) : bool := bool_decide (is_Some (Index s sub)).
(** [strings.ReplaceAll(s, c, "")] for one byte and for two. *)
Fixpoint remove_byte (c : ascii) (s : string) : string :=
  match s with "" => "" | String a s' => if decide (a = c) then remove_byte c s' else String a (remove_byte c s') end.
Fixpoint remove_two (c d : ascii) (s : string) : string :=
  match s with
  | String a (String b s' as t) => if decide (a = c ∧ b = d) then remove_two c d s' else String a (remove_two c d t)
  | _ => s
  end.
(** [s[from:to]]. *)
Definition slice {W} (s : string) (from to : nat) : M W string :=
  if decide (from ≤ to ∧ to ≤ String.length s) then mret (String.substring from (to - from) s)
  else panic "slice bounds out of range".
Definition index {W A} (l : list A) (i : nat) : M W A :=
  match l !! i with Some x => mret x | None => panic "index out of range" end.

Definition newline : ascii := "010"%char.
Definition return_byte : ascii := "013"%char.
Definition quote : ascii := "034"%char.

(* ------------------------------------------------------------------ *)
(** ** info.go *)

Definition version : string := "development".
Definition NetbirdVersion : string := version.
Definition GetDesktopUIUserAgent : string := "netbird-desktop-ui/" +:+ NetbirdVersion.

(** The metadata of the context: the values of the key "user-agent", if it has
    metadata and the key. *)
Definition extractUserAgent {W} (ctx : option (option (list string))) : M W string :=
  match ctx with
  | Some (Some agent) =>
      a ← index agent 0;
      nbAgent ← index (Split a " ") 0;
      mret (if HasPrefix nbAgent "netbird" then nbAgent else "")
  | _ => mret ""
  end.

Section info.
Context `{MachineInfo} (ctx : option (option (list string))).
Abbreviation MI := (M nat).

(** An error of the command is printed and its output is used. *)
Definition run (args : list string) : MI string := λ n, (Ok (cmd_output n args), S n).
(** [for strings.Contains(info, "broken pipe") { info = get() }]. *)
Fixpoint while_broken (fuel : nat) (get : MI string) (info : string) : MI string :=
  if Contains info "broken pipe" then
    match fuel with 0 => blocked | S fuel' => i ← get; while_broken fuel' get i end
  else mret info.
(** The loop of info_linux.go that asks again for the release: its condition is
    on [info]. *)
Fixpoint while_other_broken (fuel : nat) (get : MI string) (info rel : string) : MI string :=
  if Contains info "broken pipe" then
    match fuel with 0 => blocked | S fuel' => r ← get; while_other_broken fuel' get info r end
  else mret rel.

(** [strings.Replace] of line ends, in the order of the code. *)
Definition one_line (s : string) : string := remove_two return_byte newline (remove_byte newline s).

(** info_linux.go *)
Definition release_line (s : string) (nv : string * string) : MI (string * string) :=
  if HasPrefix s "NAME=" then v ← index (Split s "=") 1; mret (remove_byte quote v, nv.2)
  else if HasPrefix s "VERSION_ID=" then v ← index (Split s "=") 1; mret (nv.1, remove_byte quote v)
  else mret nv.
Fixpoint release_lines (l : list string) (nv : string * string) : MI (string * string) :=
  match l with [] => mret nv | s :: l' => nv' ← release_line s nv; release_lines l' nv' end.

Definition linux_getInfo : MI string := run ["uname"; "-srio"].
Definition linux_getReleaseInfo : MI string := run ["cat"; "/etc/os-release"].
Definition GetInfo_linux (fuel : nat) : MI Info :=
  info ← linux_getInfo;
  info ← while_broken fuel linux_getInfo info;
  releaseInfo ← linux_getReleaseInfo;
  releaseInfo ← while_other_broken fuel linux_getReleaseInfo info releaseInfo;
  nv ← release_lines (Split releaseInfo newline) ("", "");
  let osInfo := Split (one_line info) " " in
  osName ← (if decide (nv.1 = "") then index osInfo 3 else mret nv.1);
  kernel ← index osInfo 0; core ← index osInfo 1; platform ← index osInfo 2;
  ui ← extractUserAgent ctx;
  mret (mkInfo goos kernel core platform osName nv.2 hostname num_cpu NetbirdVersion ui).

(** info_darwin.go *)
Definition darwin_getInfo : MI string := run ["uname"; "-srm"].
Definition GetInfo_darwin (fuel : nat) : MI Info :=
  out ← darwin_getInfo;
  out ← while_broken fuel darwin_getInfo out;
  let osInfo := Split (one_line out) " " in
  i0 ← index osInfo 0; i1 ← index osInfo 1; i2 ← index osInfo 2;
  ui ← extractUserAgent ctx;
  mret (mkInfo goos i0 i1 i2 i0 i1 hostname num_cpu NetbirdVersion ui).

(** info_freebsd.go *)
Definition freebsd_getInfo : MI string := run ["uname"; "-sri"].
Definition GetInfo_freebsd (fuel : nat) : MI Info :=
  out ← freebsd_getInfo;
  out ← while_broken fuel freebsd_getInfo out;
  let osInfo := Split (one_line out) " " in
  i0 ← index osInfo 0; i1 ← index osInfo 1; i2 ← index osInfo 2;
  ui ← extractUserAgent ctx;
  mret (mkInfo goos i0 i1 goarch i2 "" hostname num_cpu NetbirdVersion ui).

(** info_windows.go *)
Definition GetInfo_windows : MI Info :=
  n ← gets id;
  out ← run ["cmd"; "ver"];
  if cmd_fails n ["cmd"; "ver"] then panic "exit status" else
  let osStr := one_line out in
  ver ← (match Index osStr "[Version", Index osStr "]" with
         | Some tmp1, Some tmp2 => slice osStr (tmp1 + 9) tmp2
         | _, _ => mret "unknown"
         end);
  ui ← extractUserAgent ctx;
  mret (mkInfo goos "windows" ver "unknown" "windows" ver hostname num_cpu NetbirdVersion ui).
End info.

(* ------------------------------------------------------------------ *)
(** ** Properties *)

Section properties.
Context `{MachineInfo}.

(** The loop over broken outputs ends with the first one that is whole, and
    the number of outputs before it is fuel enough. *)
Lemma while_broken_runs fuel args n k :
  (∀ j, j < k → Contains (cmd_output (n + j) args) "broken pipe" = true) →
  Contains (cmd_output (n + k) args) "broken pipe" = false → k ≤ fuel →
  (i ← run args; while_broken fuel (run args) i) n = (Ok (cmd_output (n + k) args), S (n + k)).
Proof.
  revert n k. induction fuel as [|fuel IH]; intros n k Hj Hk Hle; (erewrite bind_run; [|reflexivity]).
  - assert (k = 0) as -> by lia. rewrite Nat.add_0_r in *. simpl. by rewrite Hk.
  - destruct k as [|k]; [rewrite Nat.add_0_r in *; simpl; by rewrite Hk|].
    pose proof (Hj 0 ltac:(lia)) as H0. rewrite Nat.add_0_r in H0. simpl. rewrite H0.
    assert (n + S k = S n + k) as Hn by lia. rewrite Hn in *. rewrite (IH (S n) k); [done| |done|lia].
    intros j Hlt. specialize (Hj (S j) ltac:(lia)). by rewrite Nat.add_succ_r in Hj.
Qed.

(** The second loop of info_linux.go never runs, whatever the release. *)
Lemma release_not_repeated fuel get info rel n :
  Contains info "broken pipe" = false → while_other_broken fuel get info rel n = (Ok rel, n).
Proof. intros Hi. destruct fuel; simpl; by rewrite Hi. Qed.

(** Reading os-release never fails: every line that is looked into has an
    equals sign. *)
Lemma HasPrefix_app s p : HasPrefix s p = true → ∃ t, s = p +:+ t.
Proof.
  revert s. induction p as [|a p IH]; intros s Hs; [by exists s|]. destruct s as [|b s]; [done|]. simpl in Hs.
  case_decide; [|done]. subst. destruct (IH s Hs) as [t ->]. by exists t.
Qed.
Lemma release_line_ok s nv : ∃ nv', ∀ n, release_line s nv n = (Ok nv', n).
Proof.
  unfold release_line. destruct (HasPrefix s "NAME=") eqn:E1.
  { destruct (HasPrefix_app _ _ E1) as [t ->]. change ("NAME=" +:+ t) with ("NAME" +:+ String "=" t).
    rewrite Split_app by done. destruct (Split t "=") as [|v l] eqn:Et; [by apply Split_nonempty in Et|]. by eexists. }
  destruct (HasPrefix s "VERSION_ID=") eqn:E2; [|by eexists].
  destruct (HasPrefix_app _ _ E2) as [t ->]. change ("VERSION_ID=" +:+ t) with ("VERSION_ID" +:+ String "=" t).
  rewrite Split_app by done. destruct (Split t "=") as [|v l] eqn:Et; [by apply Split_nonempty in Et|]. by eexists.
Qed.
Lemma release_lines_ok l nv : ∃ nv', ∀ n, release_lines l nv n = (Ok nv', n).
Proof.
  revert nv. induction l as [|s l IH]; intros nv; [by eexists|]. destruct (release_line_ok s nv) as [nv1 E1].
  destruct (IH nv1) as [nv2 E2]. exists nv2. intros n. simpl. erewrite bind_run by apply E1. apply E2.
Qed.
(** The user agent is found, or is the empty text. *)
Lemma extractUserAgent_ok {W} agents (w : W) : agents ≠ Some (Some []) → ∃ ui, extractUserAgent agents w = (Ok ui, w).
Proof.
  intros Ha. destruct agents as [[[|a l]|]|]; [done| |by eexists..]. unfold extractUserAgent, index.
  destruct (Split a " ") as [|x xs] eqn:E; [by apply Split_nonempty in E|]. simpl. erewrite bind_run by reflexivity.
  rewrite E. by eexists.
Qed.
Lemma wp_then {W A B} (m : M W A) (f : A → M W B) Q w a w' : m w = (Ok a, w') → wp (f a) Q w' → wp (m ≫= f) Q w.
Proof. intros Hm Hf. unfold wp. erewrite bind_run by exact Hm. exact Hf. Qed.
Lemma wp_index {W A} (l : list A) i (Q : Res A → W → Prop) w :
  (∀ x, l !! i = Some x → Q (Ok x) w) → (l !! i = None → ∃ s, Q (Panic s) w ∧ s = "index out of range") → wp (index l i) Q w.
Proof. unfold index. destruct (l !! i); intros Ho Hp; [by apply Ho|]. by destruct Hp as (? & ? & ->). Qed.

(** Three words, or four when the system has no name. *)
Definition enough_words (osName : string) (osInfo : list string) : bool :=
  bool_decide ((if decide (osName = "") then 4 else 3) ≤ length osInfo).

(** On Linux the description is made, and not a panic, exactly when the
    first whole output of uname has enough words: three, or four when the name
    of the system is not in os-release; its words are the kernel, the release
    and the platform. *)
Theorem GetInfo_linux_outcome agents fuel n k :
  let uname := ["uname"; "-srio"] in
  (∀ j, j < k → Contains (cmd_output (n + j) uname) "broken pipe" = true) →
  Contains (cmd_output (n + k) uname) "broken pipe" = false → k ≤ fuel → agents ≠ Some (Some []) →
  let osInfo := Split (one_line (cmd_output (n + k) uname)) " " in
  ∃ nv, (∀ m, release_lines (Split (cmd_output (S (n + k)) ["cat"; "/etc/os-release"]) newline) ("", "") m = (Ok nv, m)) ∧
  wp (GetInfo_linux agents fuel) (λ r n', n' = S (S (n + k)) ∧
    if enough_words nv.1 osInfo then
      ∃ i, r = Ok i ∧ Some (Info_Kernel i) = osInfo !! 0 ∧ Some (Info_Core i) = osInfo !! 1 ∧ Some (Info_Platform i) = osInfo !! 2 ∧
        Info_OSVersion i = nv.2 ∧ (nv.1 ≠ "" → Info_OS i = nv.1) ∧ Info_Hostname i = hostname
    else ∃ s, r = Panic s) n.
Proof.
  intros uname Hj Hk Hle Ha osInfo.
  destruct (release_lines_ok (Split (cmd_output (S (n + k)) ["cat"; "/etc/os-release"]) newline) ("", "")) as [nv Hnv].
  exists nv. split; [exact Hnv|]. unfold GetInfo_linux, linux_getInfo, linux_getReleaseInfo.
  pose proof (while_broken_runs fuel uname n k Hj Hk Hle) as Hrun. apply bind_ok_inv in Hrun as (i & n1 & H1 & H2).
  eapply wp_then; [exact H1|]. eapply wp_then; [exact H2|]. eapply wp_then; [reflexivity|].
  eapply wp_then; [by apply release_not_repeated|]. eapply wp_then; [apply Hnv|]. fold osInfo.
  destruct (extractUserAgent_ok agents (S (S (n + k))) Ha) as [ui Hui].
  assert (∀ osName, (nv.1 ≠ "" → osName = nv.1) → ∀ o0 o1 o2 rest, osInfo = o0 :: o1 :: o2 :: rest →
    wp (kernel ← index osInfo 0; core ← index osInfo 1; platform ← index osInfo 2;
        ui ← extractUserAgent agents; mret (mkInfo goos kernel core platform osName nv.2 hostname num_cpu NetbirdVersion ui))
      (λ r n', n' = S (S (n + k)) ∧ ∃ i, r = Ok i ∧ Some (Info_Kernel i) = osInfo !! 0 ∧ Some (Info_Core i) = osInfo !! 1 ∧
        Some (Info_Platform i) = osInfo !! 2 ∧ Info_OSVersion i = nv.2 ∧ (nv.1 ≠ "" → Info_OS i = nv.1) ∧ Info_Hostname i = hostname)
      (S (S (n + k)))) as Hmake.
  { intros osName Hname o0 o1 o2 rest ->. do 3 (eapply wp_then; [reflexivity|]). eapply wp_then; [exact Hui|]. wp_step.
    split; [done|]. eexists. by split_and!. }
  destruct osInfo as [|o0 [|o1 [|o2 rest]]] eqn:Eo; [by apply Split_nonempty in Eo|..].
  all: unfold enough_words; destruct (decide (nv.1 = "")) as [E|E].
  1,2,3,4: rewrite bool_decide_false by (simpl; lia); try (eapply wp_then; [reflexivity|]); unfold wp; simpl; by eauto.
  - destruct rest as [|o3 rest]; [rewrite bool_decide_false by (simpl; lia); unfold wp; simpl; by eauto|].
    rewrite bool_decide_true by (simpl; lia). eapply wp_then; [reflexivity|]. by eapply Hmake.
  - rewrite bool_decide_true by (simpl; lia). eapply wp_then; [reflexivity|]. by eapply Hmake.
Qed.
End properties.

(* ------------------------------------------------------------------ *)
(** ** Examples *)

Definition demo_release : string := "NAME=" +:+ String quote ("Ubuntu" +:+ String quote (String newline ("VERSION_ID=20.04" +:+ String newline ""))).
Definition demo_machine_info (uname : nat → string) (release : string) : MachineInfo := {|
  cmd_output n args := match args with "uname" :: _ => uname n | "cat" :: _ => release | _ => "Microsoft Windows [Version 10.0.19]" end;
  cmd_fails n args := false; goos := "linux"; goarch := "amd64"; num_cpu := 8; hostname := "box" |}.
Definition good_uname (n : nat) : string :=
  if decide (n = 0) then "write: broken pipe" else "Linux 5.4 x86_64 GNU/Linux" +:+ String newline "".

Example GetInfo_linux_run :
  GetInfo_linux (H := demo_machine_info good_uname demo_release) (Some (Some ["netbird-desktop-ui/0.9 grpc-go/1.43"])) 1 0 =
    (Ok (mkInfo "linux" "Linux" "5.4" "x86_64" "Ubuntu" "20.04" "box" 8 "development" "netbird-desktop-ui/0.9"), 3) ∧
  (GetInfo_linux (H := demo_machine_info good_uname "") None 1 0).1 =
    Ok (mkInfo "linux" "Linux" "5.4" "x86_64" "GNU/Linux" "" "box" 8 "development" "") ∧
  (GetInfo_windows (H := demo_machine_info good_uname "") None 0).1 =
    Ok (mkInfo "linux" "windows" "10.0.19" "unknown" "windows" "10.0.19" "box" 8 "development" "").
Proof. split_and!; vm_compute; reflexivity. Qed.

(** A machine without uname: the error of the command is only printed, and the
    words of its empty output are not there. *)
Example GetInfo_no_uname :
  (GetInfo_linux (H := demo_machine_info (λ _, "") demo_release) None 1 0).1 = Panic "index out of range" ∧
  (GetInfo_darwin (H := demo_machine_info (λ _, "") "") None 1 0).1 = Panic "index out of range".
Proof. split; vm_compute; reflexivity. Qed.

(** The two line ends of Windows: the newlines are removed first, so the
    carriage return of the pair stays. *)
Example one_line_keeps_return :
  one_line ("a" +:+ String return_byte (String newline "b")) = "a" +:+ String return_byte "b".
Proof. reflexivity. Qed.

Lemma GetInfo_linux_outcome_witness :
  let M := demo_machine_info good_uname demo_release in
  ∃ nv, (∀ m, release_lines (Split demo_release newline) ("", "") m = (Ok nv, m)) ∧
  wp (GetInfo_linux (H := M) None 1) (λ r n', n' = 3 ∧
    if enough_words nv.1 ["Linux"; "5.4"; "x86_64"; "GNU/Linux"] then
      ∃ i, r = Ok i ∧ Some (Info_Kernel i) = Some "Linux" ∧ Some (Info_Core i) = Some "5.4" ∧ Some (Info_Platform i) = Some "x86_64" ∧
        Info_OSVersion i = nv.2 ∧ (nv.1 ≠ "" → Info_OS i = nv.1) ∧ Info_Hostname i = "box"
    else ∃ s, r = Panic s) 0.
Proof.
  apply (GetInfo_linux_outcome (H := demo_machine_info good_uname demo_release) None 1 0 1).
  - intros j Hj. assert (j = 0) as -> by lia. vm_compute. reflexivity.
  - vm_compute. reflexivity.
  - lia.
  - discriminate.
Defined.
