(* ===== verification/Dial.v ===== *)
(** * Dial: connections to the services and the policies of retrying
    (NewClient and defaultBackoff of management/client/grpc.go and
    signal/client/grpc.go, and the other places that dial or retry)

    google.golang.org/grpc makes the connection, cenkalti/backoff keeps the
    time; here is what they are asked for.  Times are in millisec. *)

From S2P Require Import Prelude GoLib Model Encryption SignalClient SystemInfo.

(** The options of [grpc.DialContext], and the deadline of its context. *)
Record DialOptions := mkDialOptions {
  Dial_TLS : bool; Dial_Block : bool; Dial_Keepalive : option (Z * Z); Dial_UserAgent : string; Dial_Timeout : Z }.

(** The connections of gRPC. *)
Class Grpc (W : Type) := {
  Conn : Type;
  grpc_DialContext : string → DialOptions → M W Conn;
  conn_Close : Conn → M W unit }.

(** [backoff.ExponentialBackOff]; the factor of the randomization and the
    multiplier are the defaults of the library everywhere. *)
Record ExponentialBackOff := mkBackOff { BO_InitialInterval : Z; BO_MaxInterval : Z; BO_MaxElapsedTime : Z }.
Definition sec (n : Z) : Z := n * 1000.
Definition minutes (n : Z) : Z := sec (60 * n).
Definition hours (n : Z) : Z := minutes (60 * n).

(** management/client/grpc.go *)
Definition mgm_defaultBackoff : ExponentialBackOff := mkBackOff 800 (sec 10) (hours 12).
(** signal/client/grpc.go *)
Definition sig_defaultBackoff : ExponentialBackOff := mkBackOff 800 (sec 10) (hours 12).
(** client/internal/connect.go *)
Definition RunClient_backOff : ExponentialBackOff := mkBackOff (sec 1) (sec 10) (hours (24 * 3)).
(** client/cmd/root.go *)
Definition CLIBackOffSettings : ExponentialBackOff := mkBackOff (sec 1) (sec 10) (sec 30).
(** client/ui/client_ui.go, [updateStatus] *)
Definition updateStatus_backOff : ExponentialBackOff := mkBackOff (sec 1) 300 (sec 2).

(** The two services are dialled in the same way. *)
Definition service_options (tlsEnabled : bool) : DialOptions :=
  mkDialOptions tlsEnabled true (Some (sec 15, sec 10)) "" (sec 3).
(** client/cmd/root.go, [DialClientGRPCServer], and client/ui/client_ui.go,
    [getSrvClient]. *)
Definition daemon_options : DialOptions := mkDialOptions false true None "" (sec 3).
Definition ui_options (timeout : Z) : DialOptions := mkDialOptions false true None GetDesktopUIUserAgent timeout.
Definition defaultFailTimeout : Z := sec 3.
Definition failFastTimeout : Z := sec 1.

Section clients.
Context {W : Type} `{Grpc W}.

Record MgmGrpcClient := mkMgmGrpcClient { Mgm_key : Key; Mgm_conn : Conn }.
Definition mgm_NewClient (addr : string) (ourPrivateKey : Key) (tlsEnabled : bool) : M W MgmGrpcClient :=
  conn ← grpc_DialContext addr (service_options tlsEnabled);
  mret (mkMgmGrpcClient ourPrivateKey conn).
Definition mgm_Close (c : MgmGrpcClient) : M W unit := conn_Close (Mgm_conn c).

Record SigGrpcClient := mkSigGrpcClient { Sig_conn : Conn; Sig_client : GrpcClient }.
Definition sig_NewClient (addr : string) (key : Key) (tlsEnabled : bool) : M W SigGrpcClient :=
  conn ← grpc_DialContext addr (service_options tlsEnabled);
  mret (mkSigGrpcClient conn (mkGrpcClient key None None StreamDisconnected_)).
Definition sig_Close (c : SigGrpcClient) : M W unit := conn_Close (Sig_conn c).

(** The daemon's address is a path or follows "tcp://". *)
Definition TrimPrefix (s prefix : string) : string :=
  if HasPrefix s prefix then String.substring (String.length prefix) (String.length s - String.length prefix) s else s.
Definition DialDaemon (addr : string) : M W Conn := grpc_DialContext (TrimPrefix addr "tcp://") daemon_options.
Definition ui_DialDaemon (addr : string) (timeout : Z) : M W Conn :=
  map_err (λ e, Plain ("dial service: " +:+ error_text e)) (grpc_DialContext (TrimPrefix addr "tcp://") (ui_options timeout)).

(* ------------------------------------------------------------------ *)
(** ** Properties *)

(** A client of the signal server starts in the state the theorems about it
    start from, whatever the connection. *)
Lemma sig_NewClient_starts {X} (x : X) addr key tls w c w' :
  sig_NewClient addr key tls w = (Ok c, w') → Sig_client c = SW_Client (newClient key x).
Proof. intros (conn & w1 & _ & Hr)%bind_ok_inv. by injection Hr as <-. Qed.

(** A client that was made is on a connection dialled with the credentials
    asked for; without a connection there is no client, and the error is that
    of dialling. *)
Lemma mgm_NewClient_dials addr key tls w :
  wp (mgm_NewClient addr key tls) (λ r w', (∀ c, r = Ok c →
      grpc_DialContext addr (service_options tls) w = (Ok (Mgm_conn c), w') ∧ Mgm_key c = key) ∧
    (∀ e, r = Err e ↔ ∃ w1, grpc_DialContext addr (service_options tls) w = (Err e, w1))) w.
Proof.
  unfold wp, mgm_NewClient, mbind, M_bind. destruct (grpc_DialContext _ _ w) as [[conn|e|s|] w1]; simpl; split; try done;
    try (intros e'; split; [by try (intros [= <-]; eauto)|by intros [? [=]]]).
  - by intros c [= <-].
  - intros e'. split; [intros [= <-]; eauto|]. by intros [? [= ->]].
Qed.
End clients.

(** Who waits for a service waits for a bounded time. *)
Lemma dials_have_deadlines tls t :
  Forall (λ o, Dial_Block o = true ∧ (0 < Dial_Timeout o ≤ sec 3)%Z)
    [service_options tls; daemon_options; ui_options defaultFailTimeout; ui_options failFastTimeout] ∧ Dial_Timeout (ui_options t) = t.
Proof. split; [|done]. rewrite !Forall_cons, Forall_nil. unfold defaultFailTimeout, failFastTimeout, sec. simpl. split_and!; (done || lia). Qed.

(** The comment of [Receive] promises half an hour of retries. *)
Example receive_retries_longer : (minutes 30 < BO_MaxElapsedTime sig_defaultBackoff)%Z.
Proof. reflexivity. Qed.
(** The first interval of the tray is longer than the longest one. *)
Example tray_intervals : (BO_MaxInterval updateStatus_backOff < BO_InitialInterval updateStatus_backOff)%Z.
Proof. reflexivity. Qed.
