(* ===== verification/Mocks.v ===== *)
(** * Mocks: the account manager as an interface, and the mocks
    (management/server: the interface AccountManager, mock_server;
    management/client/mock.go; signal/client/mock.go)

    The handlers of both servers only know the interface of the account
    manager.  The mocks implement the interfaces with functions that may be
    missing; a missing function of a server is an Unimplemented error, one of a
    client gives zero values. *)

From S2P Require Import Prelude GoLib Model Network UpdateChannel SetupKey FileStore Account Groups Peers Encryption Jwt GrpcServer Signal SignalClient MgmClient.

(* ------------------------------------------------------------------ *)
(** ** account.go: the interface *)

Record AccountManager := mkAccountManager {
  AM_GetOrCreateAccountByUser : string → string → MW Account;
  AM_GetAccountByUser : string → MW Account;
  AM_AddSetupKey : string → string → string → (option Z) → MW SetupKey;
  AM_RevokeSetupKey : string → string → MW SetupKey;
  AM_RenameSetupKey : string → string → string → MW SetupKey;
  AM_GetAccountById : string → MW Account;
  AM_GetAccountByUserOrAccountId : string → string → string → MW Account;
  AM_GetAccountWithAuthorizationClaims : AuthorizationClaims → MW Account;
  AM_IsUserAdmin : AuthorizationClaims → MW bool;
  AM_AccountExists : string → MW bool;
  AM_AddAccount : string → string → string → MW Account;
  AM_GetPeer : string → MW Peer;
  AM_MarkPeerConnected : string → bool → MW unit;
  AM_RenamePeer : string → string → string → MW Peer;
  AM_DeletePeer : string → string → MW Peer;
  AM_GetPeerByIP : string → string → MW Peer;
  AM_GetNetworkMap : string → MW NetworkMap;
  AM_AddPeer : string → string → Peer → MW Peer;
  AM_UpdatePeerMeta : string → PeerSystemMeta → MW unit;
  AM_GetUsersFromAccount : string → MW (list UserInfo);
  AM_GetGroup : string → string → MW Group;
  AM_SaveGroup : string → Group → MW unit;
  AM_DeleteGroup : string → string → MW unit;
  AM_ListGroups : string → MW (list Group);
  AM_GroupAddPeer : string → string → string → MW unit;
  AM_GroupDeletePeer : string → string → string → MW unit;
  AM_GroupListPeers : string → string → MW (list Peer);
  AM_GetRule : string → string → MW Rule;
  AM_SaveRule : string → Rule → MW unit;
  AM_DeleteRule : string → string → MW unit;
  AM_ListRules : string → MW (list Rule) }.

(** [DefaultAccountManager]. *)
Definition DefaultAccountManager `{Runtime} : AccountManager := {|
  AM_GetOrCreateAccountByUser := GetOrCreateAccountByUser;
  AM_GetAccountByUser := GetAccountByUser;
  AM_AddSetupKey := AddSetupKey;
  AM_RevokeSetupKey := RevokeSetupKey;
  AM_RenameSetupKey := RenameSetupKey;
  AM_GetAccountById := GetAccountById;
  AM_GetAccountByUserOrAccountId := GetAccountByUserOrAccountId;
  AM_GetAccountWithAuthorizationClaims := GetAccountWithAuthorizationClaims;
  AM_IsUserAdmin := IsUserAdmin;
  AM_AccountExists := AccountExists;
  AM_AddAccount := AddAccount;
  AM_GetPeer := GetPeer;
  AM_MarkPeerConnected := MarkPeerConnected;
  AM_RenamePeer := RenamePeer;
  AM_DeletePeer := DeletePeer;
  AM_GetPeerByIP := GetPeerByIP;
  AM_GetNetworkMap := GetNetworkMap;
  AM_AddPeer := AddPeer;
  AM_UpdatePeerMeta := UpdatePeerMeta;
  AM_GetUsersFromAccount := GetUsersFromAccount;
  AM_GetGroup := GetGroup;
  AM_SaveGroup := SaveGroup;
  AM_DeleteGroup := DeleteGroup;
  AM_ListGroups := ListGroups;
  AM_GroupAddPeer := GroupAddPeer;
  AM_GroupDeletePeer := GroupDeletePeer;
  AM_GroupListPeers := GroupListPeers;
  AM_GetRule := GetRule;
  AM_SaveRule := SaveRule;
  AM_DeleteRule := DeleteRule;
  AM_ListRules := ListRules |}.

(* ------------------------------------------------------------------ *)
(** ** mock_server/account_mock.go *)

Record MockAccountManager := mkMockAccountManager {
  GetOrCreateAccountByUserFunc : option (string → string → MW Account);
  GetAccountByUserFunc : option (string → MW Account);
  AddSetupKeyFunc : option (string → string → string → (option Z) → MW SetupKey);
  RevokeSetupKeyFunc : option (string → string → MW SetupKey);
  RenameSetupKeyFunc : option (string → string → string → MW SetupKey);
  GetAccountByIdFunc : option (string → MW Account);
  GetAccountByUserOrAccountIdFunc : option (string → string → string → MW Account);
  GetAccountWithAuthorizationClaimsFunc : option (AuthorizationClaims → MW Account);
  IsUserAdminFunc : option (AuthorizationClaims → MW bool);
  AccountExistsFunc : option (string → MW bool);
  AddAccountFunc : option (string → string → string → MW Account);
  GetPeerFunc : option (string → MW Peer);
  MarkPeerConnectedFunc : option (string → bool → MW unit);
  RenamePeerFunc : option (string → string → string → MW Peer);
  DeletePeerFunc : option (string → string → MW Peer);
  GetPeerByIPFunc : option (string → string → MW Peer);
  GetNetworkMapFunc : option (string → MW NetworkMap);
  AddPeerFunc : option (string → string → Peer → MW Peer);
  UpdatePeerMetaFunc : option (string → PeerSystemMeta → MW unit);
  GetUsersFromAccountFunc : option (string → MW (list UserInfo));
  GetGroupFunc : option (string → string → MW Group);
  SaveGroupFunc : option (string → Group → MW unit);
  DeleteGroupFunc : option (string → string → MW unit);
  ListGroupsFunc : option (string → MW (list Group));
  GroupAddPeerFunc : option (string → string → string → MW unit);
  GroupDeletePeerFunc : option (string → string → string → MW unit);
  GroupListPeersFunc : option (string → string → MW (list Peer));
  GetRuleFunc : option (string → string → MW Rule);
  SaveRuleFunc : option (string → Rule → MW unit);
  DeleteRuleFunc : option (string → string → MW unit);
  ListRulesFunc : option (string → MW (list Rule)) }.

Definition unimplemented {W A} (method : string) : M W A := fail (Status Unimplemented ("method " +:+ method +:+ " not implemented")).

Section mock.
Context (am : MockAccountManager).
Definition Mock_GetOrCreateAccountByUser (userId : string) (domain : string) : MW Account :=
  match GetOrCreateAccountByUserFunc am with Some f => f userId domain | None => unimplemented "GetOrCreateAccountByUser" end.
Definition Mock_GetAccountByUser (userId : string) : MW Account :=
  match GetAccountByUserFunc am with Some f => f userId | None => unimplemented "GetAccountByUser" end.
Definition Mock_AddSetupKey (accountId : string) (keyName : string) (keyType : string) (expiresIn : option Z) : MW SetupKey :=
  match AddSetupKeyFunc am with Some f => f accountId keyName keyType expiresIn | None => unimplemented "AddSetupKey" end.
Definition Mock_RevokeSetupKey (accountId : string) (keyId : string) : MW SetupKey :=
  match RevokeSetupKeyFunc am with Some f => f accountId keyId | None => unimplemented "RevokeSetupKey" end.
Definition Mock_RenameSetupKey (accountId : string) (keyId : string) (newName : string) : MW SetupKey :=
  match RenameSetupKeyFunc am with Some f => f accountId keyId newName | None => unimplemented "RenameSetupKey" end.
Definition Mock_GetAccountById (accountId : string) : MW Account :=
  match GetAccountByIdFunc am with Some f => f accountId | None => unimplemented "GetAccountById" end.
Definition Mock_GetAccountByUserOrAccountId (userId : string) (accountId : string) (domain : string) : MW Account :=
  match GetAccountByUserOrAccountIdFunc am with Some f => f userId accountId domain | None => unimplemented "GetAccountByUserOrAccountId" end.
Definition Mock_GetAccountWithAuthorizationClaims (claims : AuthorizationClaims) : MW Account :=
  match GetAccountWithAuthorizationClaimsFunc am with Some f => f claims | None => unimplemented "GetAccountWithAuthorizationClaims" end.
Definition Mock_IsUserAdmin (claims : AuthorizationClaims) : MW bool :=
  match IsUserAdminFunc am with Some f => f claims | None => unimplemented "IsUserAdmin" end.
Definition Mock_AccountExists (accountId : string) : MW bool :=
  match AccountExistsFunc am with Some f => f accountId | None => unimplemented "AccountExists" end.
Definition Mock_AddAccount (accountId : string) (userId : string) (domain : string) : MW Account :=
  match AddAccountFunc am with Some f => f accountId userId domain | None => unimplemented "AddAccount" end.
Definition Mock_GetPeer (peerKey : string) : MW Peer :=
  match GetPeerFunc am with Some f => f peerKey | None => unimplemented "GetPeer" end.
Definition Mock_MarkPeerConnected (peerKey : string) (connected : bool) : MW unit :=
  match MarkPeerConnectedFunc am with Some f => f peerKey connected | None => unimplemented "MarkPeerConnected" end.
Definition Mock_RenamePeer (accountId : string) (peerKey : string) (newName : string) : MW Peer :=
  match RenamePeerFunc am with Some f => f accountId peerKey newName | None => unimplemented "RenamePeer" end.
Definition Mock_DeletePeer (accountId : string) (peerKey : string) : MW Peer :=
  match DeletePeerFunc am with Some f => f accountId peerKey | None => unimplemented "DeletePeer" end.
Definition Mock_GetPeerByIP (accountId : string) (peerIP : string) : MW Peer :=
  match GetPeerByIPFunc am with Some f => f accountId peerIP | None => unimplemented "GetPeerByIP" end.
Definition Mock_GetNetworkMap (peerKey : string) : MW NetworkMap :=
  match GetNetworkMapFunc am with Some f => f peerKey | None => unimplemented "GetNetworkMap" end.
Definition Mock_AddPeer (setupKey : string) (userId : string) (peer : Peer) : MW Peer :=
  match AddPeerFunc am with Some f => f setupKey userId peer | None => unimplemented "AddPeer" end.
Definition Mock_UpdatePeerMeta (peerKey : string) (meta : PeerSystemMeta) : MW unit :=
  match UpdatePeerMetaFunc am with Some f => f peerKey meta | None => unimplemented "UpdatePeerMetaFunc" end.
Definition Mock_GetUsersFromAccount (accountID : string) : MW (list UserInfo) :=
  match GetUsersFromAccountFunc am with Some f => f accountID | None => unimplemented "GetUsersFromAccount" end.
Definition Mock_GetGroup (accountID : string) (groupID : string) : MW Group :=
  match GetGroupFunc am with Some f => f accountID groupID | None => unimplemented "GetGroup" end.
Definition Mock_SaveGroup (accountID : string) (group : Group) : MW unit :=
  match SaveGroupFunc am with Some f => f accountID group | None => unimplemented "SaveGroup" end.
Definition Mock_DeleteGroup (accountID : string) (groupID : string) : MW unit :=
  match DeleteGroupFunc am with Some f => f accountID groupID | None => unimplemented "DeleteGroup" end.
Definition Mock_ListGroups (accountID : string) : MW (list Group) :=
  match ListGroupsFunc am with Some f => f accountID | None => unimplemented "ListGroups" end.
Definition Mock_GroupAddPeer (accountID : string) (groupID : string) (peerKey : string) : MW unit :=
  match GroupAddPeerFunc am with Some f => f accountID groupID peerKey | None => unimplemented "GroupAddPeer" end.
Definition Mock_GroupDeletePeer (accountID : string) (groupID : string) (peerKey : string) : MW unit :=
  match GroupDeletePeerFunc am with Some f => f accountID groupID peerKey | None => unimplemented "GroupDeletePeer" end.
Definition Mock_GroupListPeers (accountID : string) (groupID : string) : MW (list Peer) :=
  match GroupListPeersFunc am with Some f => f accountID groupID | None => unimplemented "GroupListPeers" end.
Definition Mock_GetRule (accountID : string) (ruleID : string) : MW Rule :=
  match GetRuleFunc am with Some f => f accountID ruleID | None => unimplemented "GetRule" end.
Definition Mock_SaveRule (accountID : string) (rule : Rule) : MW unit :=
  match SaveRuleFunc am with Some f => f accountID rule | None => unimplemented "SaveRule" end.
Definition Mock_DeleteRule (accountID : string) (ruleID : string) : MW unit :=
  match DeleteRuleFunc am with Some f => f accountID ruleID | None => unimplemented "DeleteRule" end.
Definition Mock_ListRules (accountID : string) : MW (list Rule) :=
  match ListRulesFunc am with Some f => f accountID | None => unimplemented "ListRules" end.

(** The mock as an account manager. *)
Definition mock_manager : AccountManager := {|
  AM_GetOrCreateAccountByUser := Mock_GetOrCreateAccountByUser;
  AM_GetAccountByUser := Mock_GetAccountByUser;
  AM_AddSetupKey := Mock_AddSetupKey;
  AM_RevokeSetupKey := Mock_RevokeSetupKey;
  AM_RenameSetupKey := Mock_RenameSetupKey;
  AM_GetAccountById := Mock_GetAccountById;
  AM_GetAccountByUserOrAccountId := Mock_GetAccountByUserOrAccountId;
  AM_GetAccountWithAuthorizationClaims := Mock_GetAccountWithAuthorizationClaims;
  AM_IsUserAdmin := Mock_IsUserAdmin;
  AM_AccountExists := Mock_AccountExists;
  AM_AddAccount := Mock_AddAccount;
  AM_GetPeer := Mock_GetPeer;
  AM_MarkPeerConnected := Mock_MarkPeerConnected;
  AM_RenamePeer := Mock_RenamePeer;
  AM_DeletePeer := Mock_DeletePeer;
  AM_GetPeerByIP := Mock_GetPeerByIP;
  AM_GetNetworkMap := Mock_GetNetworkMap;
  AM_AddPeer := Mock_AddPeer;
  AM_UpdatePeerMeta := Mock_UpdatePeerMeta;
  AM_GetUsersFromAccount := Mock_GetUsersFromAccount;
  AM_GetGroup := Mock_GetGroup;
  AM_SaveGroup := Mock_SaveGroup;
  AM_DeleteGroup := Mock_DeleteGroup;
  AM_ListGroups := Mock_ListGroups;
  AM_GroupAddPeer := Mock_GroupAddPeer;
  AM_GroupDeletePeer := Mock_GroupDeletePeer;
  AM_GroupListPeers := Mock_GroupListPeers;
  AM_GetRule := Mock_GetRule;
  AM_SaveRule := Mock_SaveRule;
  AM_DeleteRule := Mock_DeleteRule;
  AM_ListRules := Mock_ListRules |}.
End mock.

(** The mock that has all functions of a manager, and the one that has none. *)
Definition mock_of (m : AccountManager) : MockAccountManager := {|
  GetOrCreateAccountByUserFunc := Some (AM_GetOrCreateAccountByUser m);
  GetAccountByUserFunc := Some (AM_GetAccountByUser m);
  AddSetupKeyFunc := Some (AM_AddSetupKey m);
  RevokeSetupKeyFunc := Some (AM_RevokeSetupKey m);
  RenameSetupKeyFunc := Some (AM_RenameSetupKey m);
  GetAccountByIdFunc := Some (AM_GetAccountById m);
  GetAccountByUserOrAccountIdFunc := Some (AM_GetAccountByUserOrAccountId m);
  GetAccountWithAuthorizationClaimsFunc := Some (AM_GetAccountWithAuthorizationClaims m);
  IsUserAdminFunc := Some (AM_IsUserAdmin m);
  AccountExistsFunc := Some (AM_AccountExists m);
  AddAccountFunc := Some (AM_AddAccount m);
  GetPeerFunc := Some (AM_GetPeer m);
  MarkPeerConnectedFunc := Some (AM_MarkPeerConnected m);
  RenamePeerFunc := Some (AM_RenamePeer m);
  DeletePeerFunc := Some (AM_DeletePeer m);
  GetPeerByIPFunc := Some (AM_GetPeerByIP m);
  GetNetworkMapFunc := Some (AM_GetNetworkMap m);
  AddPeerFunc := Some (AM_AddPeer m);
  UpdatePeerMetaFunc := Some (AM_UpdatePeerMeta m);
  GetUsersFromAccountFunc := Some (AM_GetUsersFromAccount m);
  GetGroupFunc := Some (AM_GetGroup m);
  SaveGroupFunc := Some (AM_SaveGroup m);
  DeleteGroupFunc := Some (AM_DeleteGroup m);
  ListGroupsFunc := Some (AM_ListGroups m);
  GroupAddPeerFunc := Some (AM_GroupAddPeer m);
  GroupDeletePeerFunc := Some (AM_GroupDeletePeer m);
  GroupListPeersFunc := Some (AM_GroupListPeers m);
  GetRuleFunc := Some (AM_GetRule m);
  SaveRuleFunc := Some (AM_SaveRule m);
  DeleteRuleFunc := Some (AM_DeleteRule m);
  ListRulesFunc := Some (AM_ListRules m) |}.
Definition empty_mock : MockAccountManager := mkMockAccountManager None None None None None None None None None None None None None None None None None None None None None None None None None None None None None None None.

(* ------------------------------------------------------------------ *)
(** ** mock_server/management_server_mock.go *)

(** [M]: what a call of the server is; the stream is part of it. *)
Record ManagementServiceServerMock (W Empty Key' : Type) := mkServerMock {
  SM_LoginFunc : option (EncryptedMessage → M W EncryptedMessage);
  SM_SyncFunc : option (EncryptedMessage → M W unit);
  SM_GetServerKeyFunc : option (Empty → M W Key');
  SM_IsHealthyFunc : option (Empty → M W Empty);
  SM_GetDeviceAuthorizationFlowFunc : option (EncryptedMessage → M W EncryptedMessage) }.
Arguments SM_LoginFunc {W Empty Key'} _.
Arguments SM_SyncFunc {W Empty Key'} _.
Arguments SM_GetServerKeyFunc {W Empty Key'} _.
Arguments SM_IsHealthyFunc {W Empty Key'} _.
Arguments SM_GetDeviceAuthorizationFlowFunc {W Empty Key'} _.

Section server_mock.
Context {W Empty Key' : Type} (m : ManagementServiceServerMock W Empty Key').
Definition ServerMock_Login (req : EncryptedMessage) : M W EncryptedMessage :=
  match SM_LoginFunc m with Some f => f req | None => unimplemented "Login" end.
(** It calls itself, not the function; [calls] bounds the stack. *)
Fixpoint ServerMock_Sync (calls : nat) (msg : EncryptedMessage) : M W unit :=
  match SM_SyncFunc m with
  | Some _ => match calls with 0 => panic "stack overflow" | S calls' => ServerMock_Sync calls' msg end
  | None => unimplemented "Sync"
  end.
Definition ServerMock_GetServerKey (empty : Empty) : M W Key' :=
  match SM_GetServerKeyFunc m with Some f => f empty | None => unimplemented "GetServerKey" end.
Definition ServerMock_IsHealthy (empty : Empty) : M W Empty :=
  match SM_IsHealthyFunc m with Some f => f empty | None => unimplemented "IsHealthy" end.
Definition ServerMock_GetDeviceAuthorizationFlow (req : EncryptedMessage) : M W EncryptedMessage :=
  match SM_GetDeviceAuthorizationFlowFunc m with Some f => f req | None => unimplemented "GetDeviceAuthorizationFlow" end.
End server_mock.

(* ------------------------------------------------------------------ *)
(** ** management/client/mock.go *)

(** A result that is a pointer is nil when the function is missing.  The
    handler of [Sync] is given to the function. *)
Record MgmMockClient (W : Type) := mkMgmMock {
  MM_CloseFunc : option (M W unit);
  MM_SyncFunc : option ((SyncResponse → M W unit) → M W unit);
  MM_GetServerPublicKeyFunc : option (M W (option Key));
  MM_RegisterFunc : option (Key → string → string → option Info → M W (option LoginResponse));
  MM_LoginFunc : option (Key → option Info → M W (option LoginResponse));
  MM_GetDeviceAuthorizationFlowFunc : option (Key → M W (option PbDeviceAuthorizationFlow)) }.
Arguments MM_CloseFunc {W} _.
Arguments MM_SyncFunc {W} _.
Arguments MM_GetServerPublicKeyFunc {W} _.
Arguments MM_RegisterFunc {W} _.
Arguments MM_LoginFunc {W} _.
Arguments MM_GetDeviceAuthorizationFlowFunc {W} _.

Section mgm_mock.
Context {W : Type} (m : MgmMockClient W).
Definition MgmMock_Close : M W unit := match MM_CloseFunc m with None => mret tt | Some f => f end.
Definition MgmMock_Sync (msgHandler : SyncResponse → M W unit) : M W unit :=
  match MM_SyncFunc m with None => mret tt | Some f => f msgHandler end.
Definition MgmMock_GetServerPublicKey : M W (option Key) :=
  match MM_GetServerPublicKeyFunc m with None => mret None | Some f => f end.
Definition MgmMock_Register (serverKey : Key) (setupKey jwtToken : string) (info : option Info) : M W (option LoginResponse) :=
  match MM_RegisterFunc m with None => mret None | Some f => f serverKey setupKey jwtToken info end.
Definition MgmMock_Login (serverKey : Key) (info : option Info) : M W (option LoginResponse) :=
  match MM_LoginFunc m with None => mret None | Some f => f serverKey info end.
Definition MgmMock_GetDeviceAuthorizationFlow (serverKey : Key) : M W (option PbDeviceAuthorizationFlow) :=
  match MM_GetDeviceAuthorizationFlowFunc m with None => mret None | Some f => f serverKey end.
End mgm_mock.

(* ------------------------------------------------------------------ *)
(** ** signal/client/mock.go *)

Record SigMockClient (W : Type) := mkSigMock {
  SgM_CloseFunc : option (M W unit);
  SgM_GetStatusFunc : option (M W string);
  SgM_StreamConnectedFunc : option (M W bool);
  SgM_ReadyFunc : option (M W bool);
  SgM_WaitStreamConnectedFunc : option (M W unit);
  SgM_ReceiveFunc : option ((SigMessage → M W unit) → M W unit);
  SgM_SendToStreamFunc : option (SigEncrypted → M W unit);
  SgM_SendFunc : option (SigMessage → M W unit) }.
Arguments SgM_CloseFunc {W} _.
Arguments SgM_GetStatusFunc {W} _.
Arguments SgM_StreamConnectedFunc {W} _.
Arguments SgM_ReadyFunc {W} _.
Arguments SgM_WaitStreamConnectedFunc {W} _.
Arguments SgM_ReceiveFunc {W} _.
Arguments SgM_SendToStreamFunc {W} _.
Arguments SgM_SendFunc {W} _.

Section sig_mock.
Context {W : Type} (sm : SigMockClient W).
Definition SigMock_Close : M W unit := match SgM_CloseFunc sm with None => mret tt | Some f => f end.
Definition SigMock_GetStatus : M W string := match SgM_GetStatusFunc sm with None => mret "" | Some f => f end.
Definition SigMock_StreamConnected : M W bool := match SgM_StreamConnectedFunc sm with None => mret false | Some f => f end.
Definition SigMock_Ready : M W bool := match SgM_ReadyFunc sm with None => mret false | Some f => f end.
Definition SigMock_WaitStreamConnected : M W unit := match SgM_WaitStreamConnectedFunc sm with None => mret tt | Some f => f end.
Definition SigMock_Receive (msgHandler : SigMessage → M W unit) : M W unit :=
  match SgM_ReceiveFunc sm with None => mret tt | Some f => f msgHandler end.
Definition SigMock_SendToStream (msg : SigEncrypted) : M W unit :=
  match SgM_SendToStreamFunc sm with None => mret tt | Some f => f msg end.
Definition SigMock_Send (msg : SigMessage) : M W unit := match SgM_SendFunc sm with None => mret tt | Some f => f msg end.
End sig_mock.

(* ------------------------------------------------------------------ *)
(** ** Properties *)

(** The mock stands for any account manager: with the methods of a manager as
    its functions it is that manager, so what is proved of a client against the
    interface holds with the mock. *)
Theorem mock_manager_of (m : AccountManager) : mock_manager (mock_of m) = m.
Proof. by destruct m. Qed.

(** A manager none of whose methods does anything but say it is not
    implemented, and changes nothing. *)
Definition implements_nothing (m : AccountManager) : Prop :=
  (∀ userId domain w, ∃ s, AM_GetOrCreateAccountByUser m userId domain w = (Err (Status Unimplemented s), w)) ∧
  (∀ userId w, ∃ s, AM_GetAccountByUser m userId w = (Err (Status Unimplemented s), w)) ∧
  (∀ accountId keyName keyType expiresIn w, ∃ s, AM_AddSetupKey m accountId keyName keyType expiresIn w = (Err (Status Unimplemented s), w)) ∧
  (∀ accountId keyId w, ∃ s, AM_RevokeSetupKey m accountId keyId w = (Err (Status Unimplemented s), w)) ∧
  (∀ accountId keyId newName w, ∃ s, AM_RenameSetupKey m accountId keyId newName w = (Err (Status Unimplemented s), w)) ∧
  (∀ accountId w, ∃ s, AM_GetAccountById m accountId w = (Err (Status Unimplemented s), w)) ∧
  (∀ userId accountId domain w, ∃ s, AM_GetAccountByUserOrAccountId m userId accountId domain w = (Err (Status Unimplemented s), w)) ∧
  (∀ claims w, ∃ s, AM_GetAccountWithAuthorizationClaims m claims w = (Err (Status Unimplemented s), w)) ∧
  (∀ claims w, ∃ s, AM_IsUserAdmin m claims w = (Err (Status Unimplemented s), w)) ∧
  (∀ accountId w, ∃ s, AM_AccountExists m accountId w = (Err (Status Unimplemented s), w)) ∧
  (∀ accountId userId domain w, ∃ s, AM_AddAccount m accountId userId domain w = (Err (Status Unimplemented s), w)) ∧
  (∀ peerKey w, ∃ s, AM_GetPeer m peerKey w = (Err (Status Unimplemented s), w)) ∧
  (∀ peerKey connected w, ∃ s, AM_MarkPeerConnected m peerKey connected w = (Err (Status Unimplemented s), w)) ∧
  (∀ accountId peerKey newName w, ∃ s, AM_RenamePeer m accountId peerKey newName w = (Err (Status Unimplemented s), w)) ∧
  (∀ accountId peerKey w, ∃ s, AM_DeletePeer m accountId peerKey w = (Err (Status Unimplemented s), w)) ∧
  (∀ accountId peerIP w, ∃ s, AM_GetPeerByIP m accountId peerIP w = (Err (Status Unimplemented s), w)) ∧
  (∀ peerKey w, ∃ s, AM_GetNetworkMap m peerKey w = (Err (Status Unimplemented s), w)) ∧
  (∀ setupKey userId peer w, ∃ s, AM_AddPeer m setupKey userId peer w = (Err (Status Unimplemented s), w)) ∧
  (∀ peerKey meta w, ∃ s, AM_UpdatePeerMeta m peerKey meta w = (Err (Status Unimplemented s), w)) ∧
  (∀ accountID w, ∃ s, AM_GetUsersFromAccount m accountID w = (Err (Status Unimplemented s), w)) ∧
  (∀ accountID groupID w, ∃ s, AM_GetGroup m accountID groupID w = (Err (Status Unimplemented s), w)) ∧
  (∀ accountID group w, ∃ s, AM_SaveGroup m accountID group w = (Err (Status Unimplemented s), w)) ∧
  (∀ accountID groupID w, ∃ s, AM_DeleteGroup m accountID groupID w = (Err (Status Unimplemented s), w)) ∧
  (∀ accountID w, ∃ s, AM_ListGroups m accountID w = (Err (Status Unimplemented s), w)) ∧
  (∀ accountID groupID peerKey w, ∃ s, AM_GroupAddPeer m accountID groupID peerKey w = (Err (Status Unimplemented s), w)) ∧
  (∀ accountID groupID peerKey w, ∃ s, AM_GroupDeletePeer m accountID groupID peerKey w = (Err (Status Unimplemented s), w)) ∧
  (∀ accountID groupID w, ∃ s, AM_GroupListPeers m accountID groupID w = (Err (Status Unimplemented s), w)) ∧
  (∀ accountID ruleID w, ∃ s, AM_GetRule m accountID ruleID w = (Err (Status Unimplemented s), w)) ∧
  (∀ accountID rule w, ∃ s, AM_SaveRule m accountID rule w = (Err (Status Unimplemented s), w)) ∧
  (∀ accountID ruleID w, ∃ s, AM_DeleteRule m accountID ruleID w = (Err (Status Unimplemented s), w)) ∧
  (∀ accountID w, ∃ s, AM_ListRules m accountID w = (Err (Status Unimplemented s), w)).
Theorem empty_mock_implements_nothing : implements_nothing (mock_manager empty_mock).
Proof. repeat split; intros; by eexists. Qed.

(** The mock of the server never calls the function it is given for Sync: with
    one, a call is endless, however large the stack. *)
Theorem ServerMock_Sync_overflows {W Empty Key'} (m : ManagementServiceServerMock W Empty Key') calls msg w :
  (∃ f, SM_SyncFunc m = Some f) → ServerMock_Sync m calls msg w = (Panic "stack overflow", w).
Proof. intros [f Hf]. induction calls as [|calls IH]; simpl; by rewrite Hf. Qed.
