(* ===== verification/ClientModel.v ===== *)
(** * ClientModel: the state of the peer's client and its surroundings

    The structs of client/internal (engine.go), client/internal/peer (conn.go,
    status.go, error.go) and client/internal/proxy, the state [CWorld] their
    code runs in, and the classes of what is outside: ICE (pion/ice), the
    WireGuard device (wgctrl), sockets, and the interface of the signal
    client.  A [Conn] is referred to by its identity: the engine may make more
    than one for a peer. *)

From S2P Require Import Prelude GoLib Model Encryption Signal SignalClient.

(* ------------------------------------------------------------------ *)
(** ** WireGuard *)

Record UDPAddr := mkUDPAddr { Addr_IP : IP; Addr_Port : Z }.

(** wgtypes.PeerConfig and wgtypes.Config *)
Record WgPeerConfig := mkWgPeerConfig {
  WPC_PublicKey : Key; WPC_Remove : bool; WPC_PresharedKey : option Key;
  WPC_Endpoint : option UDPAddr; WPC_KeepAlive : option Z;
  WPC_ReplaceAllowedIPs : bool; WPC_AllowedIPs : list IPNet }.
Record WgConfig := mkWgConfig {
  WC_PrivateKey : option Key; WC_ListenPort : option Z; WC_FirewallMark : option Z;
  WC_ReplacePeers : bool; WC_Peers : list WgPeerConfig }.

(** A peer of the device. *)
Record WgPeer := mkWgPeer {
  WgPeer_PresharedKey : option Key; WgPeer_Endpoint : option UDPAddr;
  WgPeer_KeepAlive : option Z; WgPeer_AllowedIPs : list IPNet }.
Abbreviation WgPeers := (gmap Key WgPeer).

(** golang.zx2c4.com/wireguard/wgctrl: opening the control socket, finding
    the device, and configuring it, by the number of external calls. *)
Class WgCtrl := {
  wg_New : nat → option error;
  wg_Device : nat → option error;
  wg_ConfigureDevice : nat → WgConfig → WgPeers → error + WgPeers
}.

(** What a peer is after its configuration has been applied. *)
Definition apply_peer (c : WgPeerConfig) (old : option WgPeer) : WgPeer :=
  mkWgPeer
    (match WPC_PresharedKey c with Some k => Some k | None => old ≫= WgPeer_PresharedKey end)
    (match WPC_Endpoint c with Some a => Some a | None => old ≫= WgPeer_Endpoint end)
    (match WPC_KeepAlive c with Some k => Some k | None => old ≫= WgPeer_KeepAlive end)
    (if WPC_ReplaceAllowedIPs c then WPC_AllowedIPs c
     else from_option WgPeer_AllowedIPs [] old ++ WPC_AllowedIPs c).

(** The documented meaning of a configuration that names one peer, and of one
    that replaces all peers by none. *)
Class WgCtrlLaws `{WgCtrl} := {
  configure_remove t key psk ep ka rep ips d d' :
    wg_ConfigureDevice t (mkWgConfig None None None false [mkWgPeerConfig key true psk ep ka rep ips]) d = inr d' →
    d' = delete key d;
  configure_update t key psk ep ka rep ips d d' :
    wg_ConfigureDevice t (mkWgConfig None None None false [mkWgPeerConfig key false psk ep ka rep ips]) d = inr d' →
    d' = <[key := apply_peer (mkWgPeerConfig key false psk ep ka rep ips) (d !! key)]> d;
  configure_replace t k p m d d' :
    wg_ConfigureDevice t (mkWgConfig k p m true []) d = inr d' → d' = ∅
}.

(* ------------------------------------------------------------------ *)
(** ** ICE and sockets *)

(** ice.URL, ice.Candidate, ice.CandidatePair *)
Record IceURL := mkIceURL { IceURL_Text : string; IceURL_Username : string; IceURL_Password : string }.
Inductive CandidateType := CandHost | CandServerReflexive | CandPeerReflexive | CandRelay.
#[export] Instance CandidateType_eq_dec : EqDecision CandidateType.
Proof. solve_decision. Defined.
Record Candidate := mkCandidate { Cand_Type : CandidateType; Cand_Address : IP; Cand_Marshal : string }.
Record CandidatePair := mkPair { Pair_Local : Candidate; Pair_Remote : Candidate }.
Inductive IceState := IceNew | IceChecking | IceConnected | IceCompleted | IceFailed | IceDisconnected | IceClosed.
#[export] Instance IceState_eq_dec : EqDecision IceState.
Proof. solve_decision. Defined.

Class Ice := {
  ice_ParseURL : string → error + IceURL;
  ice_UnmarshalCandidate : string → error + Candidate;
  ice_NewAgent : nat → list IceURL → option error;
  ice_On : nat → option error;                        (** registering a callback *)
  ice_LocalCredentials : nat → error + (string * string);
  ice_Gather : nat → option error;
  ice_SelectedPair : nat → error + CandidatePair;
  ice_AddRemote : nat → option error;
  ice_Close : nat → option error
}.

(** A connection ICE has made: the address of the other side, as far as it
    resolves. *)
Record RemoteConn := mkRemoteConn { RC_RemoteAddr : error + UDPAddr }.

Class Net := {
  net_Dial : nat → error + UDPAddr;   (** a local socket to WireGuard: its own address *)
  net_Close : nat → option error;
  net_ListenUDP : nat → option error;
  net_CreateIface : nat → option error;  (** creating the tunnel interface *)
  net_CloseIface : nat → option error
}.

(** The signal client, as the engine sees it. *)
Class SignalAPI := {
  signal_Send : nat → SigMessage → option error;
  signal_Ready : nat → bool
}.

(* ------------------------------------------------------------------ *)
(** ** Connections (package peer, package proxy) *)

(** status.go: [iota] *)
Inductive ConnStatus := StatusConnected | StatusConnecting | StatusDisconnected.
#[export] Instance ConnStatus_eq_dec : EqDecision ConnStatus.
Proof. solve_decision. Defined.

(** error.go *)
Inductive ConnError :=
  | ConnectionTimeoutError (peer : string) (timeout : Z)
  | ConnectionClosedError (peer : string)
  | ConnectionDisconnectedError (peer : string)
  | ConnectionAlreadyClosedError (peer : string)
  | OtherError (e : error).

(** proxy.go: Config *)
Record ProxyConfig := mkProxyConfig {
  PxC_WgListenAddr : string; PxC_RemoteKey : string; PxC_AllowedIps : string;
  PxC_PreSharedKey : option Key }.

Inductive Proxy :=
  | NoProxy (config : ProxyConfig)
  | WireguardProxy (config : ProxyConfig) (cancelled : bool) (localConn : option UDPAddr).

Record ConnConfig := mkConnConfig {
  ConnC_Key : string; ConnC_LocalKey : string; ConnC_StunTurn : list IceURL;
  ConnC_InterfaceBlackList : list string; ConnC_Timeout : Z; ConnC_ProxyConfig : ProxyConfig }.

Record IceCredentials := mkIceCreds { Ice_UFrag : string; Ice_Pwd : string }.

(** Where the goroutine of a connection stands: between two attempts, at one
    of the places of [Open] where it waits, just after it has been given
    something there, or ended. *)
Inductive Phase :=
  | PhIdle
  | PhWait                                       (** for an offer, an answer, the timeout, [closeCh] *)
  | PhConfirmed (creds : IceCredentials) (offer : bool)
  | PhDial (creds : IceCredentials)              (** in [agent.Dial] or [agent.Accept] *)
  | PhConnected                                  (** for [closeCh] or the end of the context *)
  | PhClosed (dialled : bool)                    (** taken from [closeCh] *)
  | PhGone.

#[export] Instance IceCredentials_eq_dec : EqDecision IceCredentials.
Proof. solve_decision. Defined.
#[export] Instance Phase_eq_dec : EqDecision Phase.
Proof. solve_decision. Defined.

(** The signalling handlers are closures over the two keys; the context is
    there or not, and done or not; [notifyDisconnected] is its cancel function
    or nil. *)
Record Conn := mkConn {
  Conn_config : ConnConfig;
  Conn_signal : option (Key * Key);
  Conn_agent : option nat;
  Conn_status : ConnStatus;
  Conn_proxy : option Proxy;
  Conn_ctxDone : option bool;
  Conn_notify : bool;
  Conn_phase : Phase }.

Definition set_Conn_signal v c := mkConn (Conn_config c) v (Conn_agent c) (Conn_status c) (Conn_proxy c) (Conn_ctxDone c) (Conn_notify c) (Conn_phase c).
Definition set_Conn_agent v c := mkConn (Conn_config c) (Conn_signal c) v (Conn_status c) (Conn_proxy c) (Conn_ctxDone c) (Conn_notify c) (Conn_phase c).
Definition set_Conn_status v c := mkConn (Conn_config c) (Conn_signal c) (Conn_agent c) v (Conn_proxy c) (Conn_ctxDone c) (Conn_notify c) (Conn_phase c).
Definition set_Conn_proxy v c := mkConn (Conn_config c) (Conn_signal c) (Conn_agent c) (Conn_status c) v (Conn_ctxDone c) (Conn_notify c) (Conn_phase c).
Definition set_Conn_ctx v n c := mkConn (Conn_config c) (Conn_signal c) (Conn_agent c) (Conn_status c) (Conn_proxy c) v n (Conn_phase c).
Definition set_Conn_phase v c := mkConn (Conn_config c) (Conn_signal c) (Conn_agent c) (Conn_status c) (Conn_proxy c) (Conn_ctxDone c) (Conn_notify c) v.

(* ------------------------------------------------------------------ *)
(** ** The engine *)

Record EngineConfig := mkEngineConfig {
  EC_WgPort : Z; EC_WgIfaceName : string; EC_WgAddr : string; EC_WgPrivateKey : Key;
  EC_IFaceBlackList : gmap string unit; EC_PreSharedKey : option Key;
  EC_UDPMuxPort : Z; EC_UDPMuxSrflxPort : Z }.

(** The resources of the engine are nil, or open or closed: the tunnel
    interface, the two sockets and their muxes. *)
Record Engine := mkEngine {
  E_config : EngineConfig;
  E_peerConns : gmap string nat;
  E_STUNs : list IceURL;
  E_TURNs : list IceURL;
  E_networkSerial : Z;
  E_iface : option bool; E_udpMuxConn : option bool; E_udpMuxConnSrflx : option bool;
  E_udpMux : option bool; E_udpMuxSrflx : option bool }.

Definition set_peerConns v e := mkEngine (E_config e) v (E_STUNs e) (E_TURNs e) (E_networkSerial e) (E_iface e) (E_udpMuxConn e) (E_udpMuxConnSrflx e) (E_udpMux e) (E_udpMuxSrflx e).
Definition set_STUNs v e := mkEngine (E_config e) (E_peerConns e) v (E_TURNs e) (E_networkSerial e) (E_iface e) (E_udpMuxConn e) (E_udpMuxConnSrflx e) (E_udpMux e) (E_udpMuxSrflx e).
Definition set_TURNs v e := mkEngine (E_config e) (E_peerConns e) (E_STUNs e) v (E_networkSerial e) (E_iface e) (E_udpMuxConn e) (E_udpMuxConnSrflx e) (E_udpMux e) (E_udpMuxSrflx e).
Definition set_networkSerial v e := mkEngine (E_config e) (E_peerConns e) (E_STUNs e) (E_TURNs e) v (E_iface e) (E_udpMuxConn e) (E_udpMuxConnSrflx e) (E_udpMux e) (E_udpMuxSrflx e).
Definition set_iface (v : option bool) e := mkEngine (E_config e) (E_peerConns e) (E_STUNs e) (E_TURNs e) (E_networkSerial e) v (E_udpMuxConn e) (E_udpMuxConnSrflx e) (E_udpMux e) (E_udpMuxSrflx e).
Definition set_udpMuxConn (v : option bool) e := mkEngine (E_config e) (E_peerConns e) (E_STUNs e) (E_TURNs e) (E_networkSerial e) (E_iface e) v (E_udpMuxConnSrflx e) (E_udpMux e) (E_udpMuxSrflx e).
Definition set_udpMuxConnSrflx (v : option bool) e := mkEngine (E_config e) (E_peerConns e) (E_STUNs e) (E_TURNs e) (E_networkSerial e) (E_iface e) (E_udpMuxConn e) v (E_udpMux e) (E_udpMuxSrflx e).
Definition set_udpMux (v : option bool) e := mkEngine (E_config e) (E_peerConns e) (E_STUNs e) (E_TURNs e) (E_networkSerial e) (E_iface e) (E_udpMuxConn e) (E_udpMuxConnSrflx e) v (E_udpMuxSrflx e).
Definition set_udpMuxSrflx (v : option bool) e := mkEngine (E_config e) (E_peerConns e) (E_STUNs e) (E_TURNs e) (E_networkSerial e) (E_iface e) (E_udpMuxConn e) (E_udpMuxConnSrflx e) (E_udpMux e) v.

(** The state of the client: the engine, every connection ever made, the
    peers of the WireGuard device, the messages given to the signal client. *)
Record CWorld := mkCWorld {
  CW_Engine : Engine;
  CW_Conns : gmap nat Conn;
  CW_Next : nat;
  CW_Wg : WgPeers;
  CW_Sent : list SigMessage;
  CW_Tick : nat }.
Abbreviation MC := (M CWorld).

Definition set_Engine f w := mkCWorld (f (CW_Engine w)) (CW_Conns w) (CW_Next w) (CW_Wg w) (CW_Sent w) (CW_Tick w).
Definition set_Conns v w := mkCWorld (CW_Engine w) v (CW_Next w) (CW_Wg w) (CW_Sent w) (CW_Tick w).
Definition set_Next v w := mkCWorld (CW_Engine w) (CW_Conns w) v (CW_Wg w) (CW_Sent w) (CW_Tick w).
Definition set_Wg v w := mkCWorld (CW_Engine w) (CW_Conns w) (CW_Next w) v (CW_Sent w) (CW_Tick w).
Definition set_Sent v w := mkCWorld (CW_Engine w) (CW_Conns w) (CW_Next w) (CW_Wg w) v (CW_Tick w).
Definition set_CTick v w := mkCWorld (CW_Engine w) (CW_Conns w) (CW_Next w) (CW_Wg w) (CW_Sent w) v.

(* ------------------------------------------------------------------ *)
(** ** External calls *)

Definition cl_tick : MC nat := λ w, (Ok (CW_Tick w), set_CTick (S (CW_Tick w)) w).
Definition ext (f : nat → option error) : MC unit :=
  t ← cl_tick; match f t with None => mret tt | Some e => fail e end.
Definition ext_val {A} (f : nat → error + A) : MC A :=
  t ← cl_tick; match f t with inr a => mret a | inl e => fail e end.
Definition pure_val {A} (r : error + A) : MC A :=
  match r with inr a => mret a | inl e => fail e end.

Definition get_conn (i : nat) : MC Conn := cs ← gets CW_Conns; deref (cs !! i).
Definition mod_conn (i : nat) (f : Conn → Conn) : MC unit :=
  modify (λ w, set_Conns (alter f i (CW_Conns w)) w).
Definition engine : MC Engine := gets CW_Engine.
Definition mod_engine (f : Engine → Engine) : MC unit := modify (set_Engine f).

(** Worlds that differ in the number of external calls only. *)
Definition same_client (w w' : CWorld) : Prop := w' = set_CTick (CW_Tick w') w.

#[export] Instance same_client_preorder : PreOrder same_client.
Proof.
  split; [by intros []|]. unfold same_client, set_CTick. intros [] [] []; simpl.
  intros [= -> -> -> -> ->] [= -> -> -> -> ->]. done.
Qed.

Lemma wp_cl_tick (Q : Res nat → CWorld → Prop) w :
  Q (Ok (CW_Tick w)) (set_CTick (S (CW_Tick w)) w) → wp cl_tick Q w.
Proof. done. Qed.

Lemma wp_ext f (Q : Res unit → CWorld → Prop) w :
  (∀ n, f (CW_Tick w) = None → Q (Ok tt) (set_CTick n w)) →
  (∀ e n, f (CW_Tick w) = Some e → Q (Err e) (set_CTick n w)) → wp (ext f) Q w.
Proof.
  intros H1 H2. unfold wp, ext, mbind, M_bind, cl_tick. destruct (f (CW_Tick w)) eqn:Hf; [by apply H2|by apply H1].
Qed.

Lemma wp_ext_val {A} f (Q : Res A → CWorld → Prop) w :
  (∀ a n, f (CW_Tick w) = inr a → Q (Ok a) (set_CTick n w)) →
  (∀ e n, f (CW_Tick w) = inl e → Q (Err e) (set_CTick n w)) → wp (ext_val f) Q w.
Proof.
  intros H1 H2. unfold wp, ext_val, mbind, M_bind, cl_tick. destruct (f (CW_Tick w)) eqn:Hf; [by apply H2|by apply H1].
Qed.

Lemma wp_get_conn i (Q : Res Conn → CWorld → Prop) c w :
  CW_Conns w !! i = Some c → Q (Ok c) w → wp (get_conn i) Q w.
Proof. intros Hc HQ. unfold get_conn, wp, gets, mbind, M_bind. simpl. by rewrite Hc. Qed.

Lemma wp_mod_conn i f (Q : Res unit → CWorld → Prop) w :
  Q (Ok tt) (set_Conns (alter f i (CW_Conns w)) w) → wp (mod_conn i f) Q w.
Proof. done. Qed.
