(* ===== verification/WgIface.v ===== *)
(** * WgIface: the WireGuard interface (iface/iface.go, iface/configuration.go)

    Parsing of addresses, and the operations that put a peer on the device and
    take it off.  The device itself is wgctrl's ([ClientModel.WgCtrl]). *)

From S2P Require Import Prelude GoLib Model Encryption Peers Signal SignalClient ClientModel.

(* ------------------------------------------------------------------ *)
(** ** [net.ParseCIDR], for IPv4 *)

Definition digit_value (a : ascii) : option Z :=
  let n := Z.of_N (Ascii.N_of_ascii a) in
  if ((48 <=? n) && (n <=? 57))%Z then Some (n - 48)%Z else None.

(** The value of a string of decimal digits. *)
Fixpoint dec_value (acc : Z) (s : string) : option Z :=
  match s with
  | EmptyString => Some acc
  | String a s' => d ← digit_value a; dec_value (acc * 10 + d) s'
  end.

(** A number up to [limit]. *)
Definition parse_dec (limit : Z) (s : string) : option Z :=
  match s with
  | EmptyString => None
  | _ => n ← dec_value 0 s; if (n <=? limit)%Z then Some n else None
  end.

(** A byte of an address: no leading zero. *)
Definition parse_octet (s : string) : option Z :=
  match s with
  | String "0" (String _ _) => None
  | _ => parse_dec 255 s
  end.

Definition parseIPv4 (s : string) : option IP :=
  match Split s "."%char with
  | [a; b; c; d] =>
      a ← parse_octet a; b ← parse_octet b; c ← parse_octet c; d ← parse_octet d;
      Some [a; b; c; d]
  | _ => None
  end.

(** [net.CIDRMask(n, 32)] *)
Definition CIDRMask (n : Z) : list Z :=
  (λ i, let k := Z.min 8 (Z.max 0 (n - 8 * i)) in (256 - 2 ^ (8 - k))%Z) <$> [0; 1; 2; 3]%Z.

Definition ParseCIDR (s : string) : error + (IP * IPNet) :=
  let bad := inl (Plain ("invalid CIDR address: " +:+ s)) in
  match Split s "/"%char with
  | [addr; mask] =>
      match parseIPv4 addr, parse_dec 32 mask with
      | Some ip, Some n => inr (ip, mkIPNet (IP_Mask ip (CIDRMask n)) (CIDRMask n))
      | _, _ => bad
      end
  | _ => bad
  end.

Example ParseCIDR_ex : ParseCIDR "100.64.3.7/16" =
  inr ([100; 64; 3; 7]%Z, mkIPNet [100; 64; 0; 0]%Z [255; 255; 0; 0]%Z).
Proof. reflexivity. Qed.
Example ParseCIDR_bad : ParseCIDR "100.64.03.7/16" = inl (Plain "invalid CIDR address: 100.64.03.7/16").
Proof. reflexivity. Qed.

(* ------------------------------------------------------------------ *)
(** ** The interface *)

(** iface.go *)
Definition DefaultMTU : Z := 1280.
Definition DefaultWgPort : Z := 51820.

Record WGAddress := mkWGAddress { WGAddress_IP : IP; WGAddress_Network : IPNet }.
Record WGIface := mkWGIface { WGIface_Name : string; WGIface_MTU : Z; WGIface_Address : WGAddress }.

Definition parseAddress {W} (address : string) : M W WGAddress :=
  match ParseCIDR address with
  | inl err => fail err
  | inr (ip, network) => mret (mkWGAddress ip network)
  end.

Definition NewWGIface {W} (iface address : string) (mtu : Z) : M W WGIface :=
  wgAddress ← parseAddress address;
  mret (mkWGIface iface mtu wgAddress).

Section iface.
Context `{WgCtrl} `{Crypto}.

Definition configureDevice (config : WgConfig) : MC unit :=
  _ ← ext wg_New;
  _ ← ext wg_Device;
  t ← cl_tick;
  peers ← gets CW_Wg;
  match wg_ConfigureDevice t config peers with
  | inl e => fail e
  | inr peers' => modify (set_Wg peers')
  end.

Definition Configure (privateKey : string) (port : Z) : MC unit :=
  key ← pure_val (ParseKey privateKey);
  map_err (λ err, Plain ("received error " +:+ error_text err +:+ " while configuring interface"))
    (configureDevice (mkWgConfig (Some key) (Some port) (Some 0%Z) true [])).

Definition UpdatePeer (peerKey allowedIps : string) (keepAlive : Z) (endpoint : UDPAddr)
    (preSharedKey : option Key) : MC unit :=
  cidr ← pure_val (ParseCIDR allowedIps);
  peerKeyParsed ← pure_val (ParseKey peerKey);
  let peer := mkWgPeerConfig peerKeyParsed false preSharedKey (Some endpoint) (Some keepAlive) true [cidr.2] in
  map_err (λ err, Plain ("received error " +:+ error_text err +:+ " while updating peer on interface"))
    (configureDevice (mkWgConfig None None None false [peer])).

Definition RemovePeer (peerKey : string) : MC unit :=
  peerKeyParsed ← pure_val (ParseKey peerKey);
  let peer := mkWgPeerConfig peerKeyParsed true None None None false [] in
  map_err (λ err, Plain ("received error " +:+ error_text err +:+ " while removing peer " +:+ peerKey))
    (configureDevice (mkWgConfig None None None false [peer])).
End iface.

(* ------------------------------------------------------------------ *)
(** ** Specifications *)

Lemma parse_octet_pretty z : (0 ≤ z < 256)%Z → parse_octet (Itoa z) = Some z.
Proof.
  intros Hz.
  assert (forallb (λ n, bool_decide (parse_octet (Itoa (Z.of_nat n)) = Some (Z.of_nat n))) (seq 0 256) = true) as Hall
    by (vm_compute; reflexivity).
  rewrite forallb_forall in Hall. specialize (Hall (Z.to_nat z)). rewrite Z2Nat.id in Hall by lia.
  eapply bool_decide_eq_true_1, Hall. apply in_seq. lia.
Qed.

(** An IPv4 address: four bytes. *)
Definition is_ipv4 (ip : IP) : Prop := length ip = 4 ∧ Forall (λ z, 0 ≤ z < 256)%Z ip.

Lemma has_byte_app a x y : has_byte a (x +:+ y) = has_byte a x || has_byte a y.
Proof. induction x as [|b x IH]; simpl; [done|]. by case_decide. Qed.

Lemma IP_String_split ip : is_ipv4 ip →
  parseIPv4 (IP_String ip) = Some ip ∧ has_byte "/" (IP_String ip) = false.
Proof.
  intros [Hlen Hb]. destruct ip as [|a [|b [|c [|d [|]]]]]; try done. clear Hlen.
  rewrite !Forall_cons in Hb. destruct Hb as (Ha & Hb & Hc & Hd & _).
  assert (IP_String [a; b; c; d] = Itoa a +:+ String "." (Itoa b +:+ String "." (Itoa c +:+ String "." (Itoa d))))
    as -> by reflexivity. split.
  - unfold parseIPv4. rewrite !Split_app by (apply Itoa_no_byte; auto).
    rewrite Split_no_sep by (apply Itoa_no_byte; auto). rewrite !parse_octet_pretty by done. done.
  - do 3 (rewrite has_byte_app, Itoa_no_byte by auto; simpl). by apply Itoa_no_byte; auto.
Qed.

Lemma ParseCIDR_render ip n : is_ipv4 ip → (0 ≤ n ≤ 32)%Z →
  ParseCIDR (IP_String ip +:+ "/" +:+ Itoa n) = inr (ip, mkIPNet (IP_Mask ip (CIDRMask n)) (CIDRMask n)).
Proof.
  intros Hip Hn. destruct (IP_String_split ip Hip) as [Hparse Hno]. unfold ParseCIDR.
  change ("/" +:+ Itoa n) with (String "/"%char (Itoa n)).
  rewrite (Split_app (IP_String ip) (Itoa n) "/"%char Hno).
  rewrite Split_no_sep by (apply Itoa_no_byte; [lia|auto]). rewrite Hparse.
  assert (forallb (λ n, bool_decide (parse_dec 32 (Itoa (Z.of_nat n)) = Some (Z.of_nat n))) (seq 0 33) = true) as Hall
    by (vm_compute; reflexivity).
  rewrite forallb_forall in Hall. specialize (Hall (Z.to_nat n)). rewrite Z2Nat.id in Hall by lia.
  assert (In (Z.to_nat n) (seq 0 33)) as Hin by (apply in_seq; lia).
  by rewrite (bool_decide_eq_true_1 _ (Hall Hin)).
Qed.

Section specs.
Context `{WgCtrlLaws} `{Crypto}.

(** No operation on the device fails. *)
Definition device_works : Prop :=
  (∀ t, wg_New t = None) ∧ (∀ t, wg_Device t = None) ∧
  ∀ t config d, ∃ d', wg_ConfigureDevice t config d = inr d'.

Lemma configureDevice_spec config w :
  wp (configureDevice config) (λ r w', ∃ n,
    match r with
    | Ok _ => ∃ t d, wg_ConfigureDevice t config (CW_Wg w) = inr d ∧ w' = set_CTick n (set_Wg d w)
    | Err _ => w' = set_CTick n w ∧ ¬ device_works
    | _ => False
    end) w.
Proof.
  unfold configureDevice, device_works.
  wp_step. apply wp_ext; intros; simpl; [|eexists; split; [done|]; intros (Hn & _ & _); by rewrite Hn in *].
  wp_step. apply wp_ext; intros; simpl; [|eexists; split; [done|]; intros (_ & Hn & _); by rewrite Hn in *].
  wp_step. apply wp_cl_tick. simpl. wp_step. wp_step. simpl.
  destruct (wg_ConfigureDevice _ _ _) as [e|d] eqn:Hd; wp_step; eexists.
  - split; [done|]. intros (_ & _ & Hc). destruct (Hc n0 config (CW_Wg w)). congruence.
  - by exists n0, d.
Qed.

(** The peer is on the device with the address and the endpoint given, or the
    device is as it was. *)
Lemma UpdatePeer_spec peerKey allowedIps keepAlive endpoint psk w :
  wp (UpdatePeer peerKey allowedIps keepAlive endpoint psk) (λ r w', ∃ n,
    match r with
    | Ok _ => ∃ key ip net, ParseKey peerKey = inr key ∧ ParseCIDR allowedIps = inr (ip, net) ∧
        w' = set_CTick n (set_Wg (<[key := mkWgPeer
               (match psk with Some k => Some k | None => CW_Wg w !! key ≫= WgPeer_PresharedKey end)
               (Some endpoint) (Some keepAlive) [net]]> (CW_Wg w)) w)
    | Err _ => w' = set_CTick n w
    | _ => False
    end) w.
Proof.
  assert (w = set_CTick (CW_Tick w) w) as Hw by (by destruct w).
  unfold UpdatePeer, pure_val. wp_step. destruct (ParseCIDR allowedIps) as [e|[ip net]] eqn:Hc; wp_step; [by eexists|].
  wp_step. destruct (ParseKey peerKey) as [e|key] eqn:Hk; wp_step; [by eexists|]. wp_step.
  eapply wp_mono; [apply configureDevice_spec|]. intros [[]|e|s|] w' [n Hr]; try done; exists n; [|by destruct Hr].
  destruct Hr as (t & d & Hd & ->). apply configure_update in Hd as ->. by exists key, ip, net.
Qed.

Lemma RemovePeer_spec peerKey w :
  wp (RemovePeer peerKey) (λ r w', ∃ n,
    match r with
    | Ok _ => ∃ key, ParseKey peerKey = inr key ∧ w' = set_CTick n (set_Wg (delete key (CW_Wg w)) w)
    | Err _ => w' = set_CTick n w ∧ ¬ (device_works ∧ ∃ key, ParseKey peerKey = inr key)
    | _ => False
    end) w.
Proof.
  assert (w = set_CTick (CW_Tick w) w) as Hw by (by destruct w).
  unfold RemovePeer, pure_val. wp_step. destruct (ParseKey peerKey) as [e|key] eqn:Hk; wp_step.
  { eexists. split; [done|]. intros [_ [k Hk']]. congruence. }
  wp_step. eapply wp_mono; [apply configureDevice_spec|].
  intros [[]|e|s|] w' [n Hr]; try done; exists n.
  2: { destruct Hr as [-> Hr]. split; [done|]. by intros [? _]. }
  destruct Hr as (t & d & Hd & ->). apply configure_remove in Hd as ->. by exists key.
Qed.

(** Configuring the interface empties the device. *)
Lemma Configure_spec privateKey port w :
  wp (Configure privateKey port) (λ r w', ∃ n,
    match r with
    | Ok _ => w' = set_CTick n (set_Wg ∅ w)
    | Err _ => w' = set_CTick n w
    | _ => False
    end) w.
Proof.
  assert (w = set_CTick (CW_Tick w) w) as Hw by (by destruct w).
  unfold Configure, pure_val. wp_step. destruct (ParseKey privateKey) as [e|key] eqn:Hk; wp_step; [by eexists|].
  wp_step. eapply wp_mono; [apply configureDevice_spec|].
  intros [[]|e|s|] w' [n Hr]; try done; exists n; [|by destruct Hr].
  destruct Hr as (t & d & Hd & ->). by apply configure_replace in Hd as ->.
Qed.
End specs.

(* ------------------------------------------------------------------ *)
(** ** Properties *)

Lemma land_byte z : (0 ≤ z < 256)%Z → Z.land z 255 = z.
Proof. intros Hz. change 255%Z with (Z.ones 8). rewrite Z.land_ones by lia. by apply Z.mod_small. Qed.

Lemma IP_Mask_32 ip : is_ipv4 ip → IP_Mask ip (CIDRMask 32) = ip.
Proof.
  intros [Hlen Hb]. destruct ip as [|a [|b [|c [|d [|]]]]]; try done.
  rewrite !Forall_cons in Hb. destruct Hb as (Ha & Hb & Hc & Hd & _).
  unfold IP_Mask, CIDRMask. simpl. by rewrite !land_byte.
Qed.

(** The address of a peer survives its way from the server to the device
    of another peer: what the server writes into the allowed addresses of a
    peer, the client reads back as a network that contains that peer's address
    and no other. *)
Theorem allowed_ips_roundtrip ip :
  is_ipv4 ip → ∃ net, ParseCIDR (AllowedIPsFormat ip) = inr (ip, net) ∧
    ∀ ip', is_ipv4 ip' → (IPNet_Contains net ip' = true ↔ ip' = ip).
Proof.
  intros Hip. exists (mkIPNet (IP_Mask ip (CIDRMask 32)) (CIDRMask 32)). split.
  - apply (ParseCIDR_render ip 32 Hip). lia.
  - intros ip' Hip'. unfold IPNet_Contains. simpl. rewrite !(IP_Mask_32 ip), (IP_Mask_32 ip') by done.
    rewrite andb_true_iff, !bool_decide_eq_true. destruct Hip, Hip'. split; [by intros [_ ->]|intros ->; split; [congruence|done]].
Qed.

Lemma allowed_ips_roundtrip_witness :
  ∃ net, ParseCIDR (AllowedIPsFormat [100; 64; 0; 9]%Z) = inr ([100; 64; 0; 9]%Z, net) ∧
    IPNet_Contains net [100; 64; 0; 8]%Z ≠ true.
Proof.
  assert (∀ z, (0 ≤ z < 256)%Z → is_ipv4 [100; 64; 0; z]%Z) as Hip by (split; [done|]; repeat constructor; lia).
  destruct (allowed_ips_roundtrip [100; 64; 0; 9]%Z (Hip 9%Z ltac:(lia))) as (net & Hp & Hc).
  exists net. split; [exact Hp|]. intros Heq. apply (Hc _ (Hip 8%Z ltac:(lia))) in Heq. discriminate Heq.
Defined.
