(* ===== verification/Device.v ===== *)
(** * Device: making the tunnel interface (iface/iface.go, iface_linux.go,
    iface_unix.go, iface_darwin.go, iface_windows.go)

    The network interfaces of the machine are a map from names; the calls that
    change it belong to netlink, wireguard-go and the operating systems and are
    parameters, with what they are documented to do when they succeed. *)

From S2P Require Import Prelude GoLib Model Encryption Peers Signal SignalClient ClientModel WgIface.

(** An interface of the machine: its MTU, whether it is up, its addresses. *)
Record KLink := mkKLink { KLink_MTU : Z; KLink_Up : bool; KLink_Addrs : list string }.
Abbreviation Links := (gmap string KLink).

(** netlink.LinkAttrs, as far as it is set; [wgLink] of iface_linux.go. *)
Record LinkAttrs := mkAttrs { Attrs_Name : string; Attrs_MTU : Z }.
Record wgLink := mkWgLink { wgLink_attrs : LinkAttrs }.

(** What is behind [WGIface.Interface]. *)
Inductive NetInterface := KernelLink (l : wgLink) | UserTun (name : string) | Adapter (name : string).

Definition MaxInt : Z := 2 ^ 63 - 1.
Definition SysEINVAL : error := Plain "invalid argument".
Definition SysEEXIST : error := Plain "file exists".
(** netlink.LinkNotFoundError *)
Definition LinkNotFound : error := Plain "Link not found".

(** The calls, by the moment they are made: netlink on Linux; the userspace
    device of wireguard-go; commands; the driver on Windows. *)
Class Netlink := {
  nl_LinkByName : nat → string → Links → error + unit;
  nl_LinkAdd : nat → wgLink → Links → error + Links;
  nl_LinkDel : nat → string → Links → error + Links;
  nl_AddrList : nat → string → Links → error + list string;
  nl_AddrDel : nat → string → string → Links → error + Links;
  nl_AddrAdd : nat → string → string → Links → error + Links;
  nl_LinkSetMTU : nat → string → Z → Links → error + Links;
  nl_LinkSetUp : nat → string → Links → error + Links }.
Class Userspace := {
  tun_CreateTUN : nat → string → Z → Links → error + Links;
  device_Up : nat → option error;
  ipc_UAPIOpen : nat → string → option error;
  ipc_UAPIListen : nat → string → option error;
  tun_Close : nat → string → Links → error + Links }.
Class Machine := {
  runtime_GOOS : string;
  exec_Command : nat → list string → option error;
  remove_sock : nat → string → option (option error);   (** whether the file is there, and the outcome of removing it *)
  driver_CreateAdapter : nat → string → option error;
  adapter_SetUp : nat → option error;
  luid_SetIPAddresses : nat → list IPNet → option error;
  adapter_Close : nat → option error;
  wgctrl_New : nat → option error;
  wgctrl_Devices : nat → error + list string;
  wgctrl_Device : nat → string → error + Z   (** its port *) }.

(** What the calls do when they succeed, and that they do nothing else. *)
Class NetlinkLaws `{Netlink, Userspace} := {
  link_add t l fs fs' : nl_LinkAdd t l fs = inr fs' → fs' = <[Attrs_Name (wgLink_attrs l) := mkKLink (Attrs_MTU (wgLink_attrs l)) false []]> fs;
  link_add_exists t l fs : nl_LinkAdd t l fs = inl SysEEXIST → is_Some (fs !! Attrs_Name (wgLink_attrs l));
  link_add_mtu t name fs fs' : nl_LinkAdd t (mkWgLink (mkAttrs name MaxInt)) fs ≠ inr fs';
  link_del t name fs fs' : nl_LinkDel t name fs = inr fs' → fs' = delete name fs;
  addr_list t name fs l : nl_AddrList t name fs = inr l → KLink_Addrs <$> fs !! name = Some l;
  addr_del t name a fs fs' : nl_AddrDel t name a fs = inr fs' →
    fs' = alter (λ k, mkKLink (KLink_MTU k) (KLink_Up k) (filter (λ b, b ≠ a) (KLink_Addrs k))) name fs;
  addr_add t name a fs fs' : nl_AddrAdd t name a fs = inr fs' →
    fs' = alter (λ k, mkKLink (KLink_MTU k) (KLink_Up k) (KLink_Addrs k ++ [a])) name fs;
  addr_add_exists t name a fs k : nl_AddrAdd t name a fs = inl SysEEXIST → fs !! name = Some k → a ∈ KLink_Addrs k;
  link_set_mtu t name mtu fs fs' : nl_LinkSetMTU t name mtu fs = inr fs' →
    fs' = alter (λ k, mkKLink mtu (KLink_Up k) (KLink_Addrs k)) name fs;
  link_set_up t name fs fs' : nl_LinkSetUp t name fs = inr fs' →
    fs' = alter (λ k, mkKLink (KLink_MTU k) true (KLink_Addrs k)) name fs;
  create_tun t name mtu fs fs' : tun_CreateTUN t name mtu fs = inr fs' → fs' = <[name := mkKLink mtu false []]> fs;
  close_tun t name fs fs' : tun_Close t name fs = inr fs' → fs' = delete name fs }.

(** The interfaces of the machine, what the instance holds as its interface,
    and the number of calls so far. *)
Record NetWorld := mkNet { Net_Links : Links; Net_Interface : option NetInterface; Net_Tick : nat }.

Section iface.
Context `{Netlink, Userspace, Machine}.
Abbreviation MN := (M NetWorld).
Implicit Types w : WGIface.

Definition nl_tick : MN nat := λ s, (Ok (Net_Tick s), mkNet (Net_Links s) (Net_Interface s) (S (Net_Tick s))).
(** A call that may change the interfaces, one that reads them, one that only
    succeeds or fails. *)
Definition nl_change (f : nat → Links → error + Links) : MN unit :=
  t ← nl_tick; l ← gets Net_Links;
  match f t l with inl e => fail e | inr l' => modify (λ s, mkNet l' (Net_Interface s) (Net_Tick s)) end.
Definition nl_read {A} (f : nat → Links → error + A) : MN A :=
  t ← nl_tick; l ← gets Net_Links; match f t l with inl e => fail e | inr a => mret a end.
Definition nl_call (f : nat → option error) : MN unit :=
  t ← nl_tick; match f t with Some e => fail e | None => mret tt end.
Definition set_Interface (i : NetInterface) : MN unit := modify (λ s, mkNet (Net_Links s) (Some i) (Net_Tick s)).

(* ---------------------------------------------------------------- *)
(** ** iface_linux.go *)

(** [netlink.NewLinkAttrs] leaves the MTU 0, the default of the kernel. *)
Definition newWGLink (name : string) : wgLink := mkWgLink (mkAttrs name 0).
Definition wgLink_Attrs (l : wgLink) : LinkAttrs := wgLink_attrs l.
Definition wgLink_Type (l : wgLink) : string := "wireguard".
Definition wgLink_Close (l : wgLink) : MN unit := nl_change (λ t, nl_LinkDel t (Attrs_Name (wgLink_Attrs l))).

Definition WireguardModExists : MN bool :=
  let link := newWGLink "mustnotexist" in
  let link := mkWgLink (mkAttrs (Attrs_Name (wgLink_attrs link)) MaxInt) in
  err ← try (nl_change (λ t, nl_LinkAdd t link));
  mret (match err with inl e => bool_decide (e = SysEINVAL) | inr _ => false end).

(** [fmt.Sprintf] of the address and the ones of its mask. *)
Definition mask_size (mask : list Z) : Z := foldr (λ b n, (n + Z.of_nat (length (filter (λ i, Z.testbit b i = true) [0;1;2;3;4;5;6;7]%Z)))%Z) 0%Z mask.
Definition addr_text (a : WGAddress) : string := IP_String (WGAddress_IP a) +:+ "/" +:+ Itoa (mask_size (IPNet_Mask (WGAddress_Network a))).

Definition assignAddr_linux w : MN unit :=
  let address := addr_text (WGIface_Address w) in
  let link := newWGLink (WGIface_Name w) in
  let name := Attrs_Name (wgLink_Attrs link) in
  list ← nl_read (λ t, nl_AddrList t name);
  _ ← for_each list (λ a, nl_change (λ t, nl_AddrDel t name a));
  err ← try (nl_change (λ t, nl_AddrAdd t name address));
  _ ← (match err with
       | inl e => if decide (e = SysEEXIST) then mret tt else fail e
       | inr _ => mret tt
       end);
  nl_change (λ t, nl_LinkSetUp t name).

Definition CreateWithKernel w : MN unit :=
  let link := newWGLink (WGIface_Name w) in
  let name := Attrs_Name (wgLink_Attrs link) in
  l ← try (nl_read (λ t, nl_LinkByName t (WGIface_Name w)));
  _ ← (match l with
       | inl err => if decide (err = LinkNotFound) then mret tt else fail err
       | inr _ => nl_change (λ t, nl_LinkDel t name)
       end);
  err ← try (nl_change (λ t, nl_LinkAdd t link));
  _ ← (match err with
       | inl e => if decide (e = SysEEXIST) then mret tt else fail e
       | inr _ => mret tt
       end);
  _ ← set_Interface (KernelLink link);
  _ ← assignAddr_linux w;
  _ ← nl_change (λ t, nl_LinkSetMTU t name (WGIface_MTU w));
  nl_change (λ t, nl_LinkSetUp t name).

(* ---------------------------------------------------------------- *)
(** ** iface_unix.go; [assignAddr] is that of the system *)

Definition getUAPI (iface : string) : MN unit :=
  _ ← nl_call (λ t, ipc_UAPIOpen t iface);
  nl_call (λ t, ipc_UAPIListen t iface).

Definition CreateWithUserspace (assignAddr : WGIface → MN unit) w : MN unit :=
  _ ← nl_change (λ t, tun_CreateTUN t (WGIface_Name w) (WGIface_MTU w));
  _ ← set_Interface (UserTun (WGIface_Name w));
  _ ← nl_call device_Up;
  _ ← getUAPI (WGIface_Name w);
  assignAddr w.

(** The goroutine that takes connections: what it hands to the device, for the
    outcomes of [Accept] in turn; it goes on after an error. *)
Fixpoint accept_loop {C} (accepts : list (error + C)) : list C :=
  match accepts with
  | [] => []
  | inl _ :: l => accept_loop l
  | inr uapiConn :: l => uapiConn :: accept_loop l
  end.

Definition Create_linux w : MN unit :=
  kernel ← WireguardModExists;
  if kernel : bool then CreateWithKernel w else CreateWithUserspace assignAddr_linux w.

(* ---------------------------------------------------------------- *)
(** ** iface_darwin.go, iface_windows.go *)

Definition IPNet_String (n : IPNet) : string := IP_String (IPNet_IP n) +:+ "/" +:+ Itoa (mask_size (IPNet_Mask n)).
Definition assignAddr_darwin w : MN unit :=
  let a := WGIface_Address w in
  _ ← nl_call (λ t, exec_Command t ["ifconfig"; WGIface_Name w; "inet"; IP_String (WGAddress_IP a); IP_String (WGAddress_IP a)]);
  nl_call (λ t, exec_Command t ["route"; "add"; "-net"; IPNet_String (WGAddress_Network a); "-interface"; WGIface_Name w]).
Definition Create_darwin w : MN unit := CreateWithUserspace assignAddr_darwin w.

Definition assignAddr_windows w : MN unit :=
  let a := WGIface_Address w in
  nl_call (λ t, luid_SetIPAddresses t [mkIPNet (WGAddress_IP a) (IPNet_Mask (WGAddress_Network a))]).
Definition Create_windows w : MN unit :=
  _ ← map_err (λ err, Plain ("error creating adapter: " +:+ error_text err)) (nl_call (λ t, driver_CreateAdapter t (WGIface_Name w)));
  _ ← set_Interface (Adapter (WGIface_Name w));
  _ ← nl_call adapter_SetUp;
  assignAddr_windows w.

(* ---------------------------------------------------------------- *)
(** ** iface.go *)

Definition Exists (iface : string) : MN bool :=
  _ ← nl_call wgctrl_New;
  t ← nl_tick;
  match wgctrl_Devices t with
  | inl e => fail e
  | inr devices => mret (existsb (λ d, bool_decide (d = iface)) devices)
  end.

(** configuration.go *)
Definition GetListenPort w : MN Z :=
  _ ← nl_call wgctrl_New;
  t ← nl_tick;
  match wgctrl_Device t (WGIface_Name w) with inl e => fail e | inr port => mret port end.

Definition Interface_Close (i : NetInterface) : MN unit :=
  match i with
  | KernelLink l => wgLink_Close l
  | UserTun name => nl_change (λ t, tun_Close t name)
  | Adapter _ => nl_call adapter_Close
  end.
Definition Close w : MN unit :=
  i ← gets Net_Interface;
  i ← deref i;
  _ ← Interface_Close i;
  if decide (runtime_GOOS = "darwin") then
    t ← nl_tick;
    match remove_sock t ("/var/run/wireguard/" +:+ WGIface_Name w +:+ ".sock") with
    | Some (Some e) => fail e
    | _ => mret tt
    end
  else mret tt.
End iface.

(* ------------------------------------------------------------------ *)
(** ** Properties *)

Section properties.
Context `{NetlinkLaws, Machine}.
Implicit Types (w : WGIface) (s : NetWorld).

(** Everything but the interface of a name is as it was. *)
Definition only_link (name : string) (fs fs' : Links) : Prop := delete name fs' = delete name fs.
#[local] Instance only_link_equiv name : Equivalence (only_link name).
Proof. split; [done|by intros ???|]. intros ??? L1 L2. unfold only_link in *. congruence. Qed.
Lemma only_insert name k fs : only_link name fs (<[name := k]> fs).
Proof. unfold only_link. by rewrite delete_insert_eq. Qed.
Lemma only_alter name f fs : only_link name fs (alter f name fs).
Proof. unfold only_link. by rewrite delete_alter_eq. Qed.
Lemma only_delete name fs : only_link name fs (delete name fs).
Proof. unfold only_link. by rewrite delete_delete_eq. Qed.

Lemma wp_nl_change f (Q : Res unit → NetWorld → Prop) s :
  (∀ e t, f t (Net_Links s) = inl e → Q (Err e) (mkNet (Net_Links s) (Net_Interface s) (S (Net_Tick s)))) →
  (∀ t l', f t (Net_Links s) = inr l' → Q (Ok tt) (mkNet l' (Net_Interface s) (S (Net_Tick s)))) →
  wp (nl_change f) Q s.
Proof.
  intros He Ho. unfold wp, nl_change, nl_tick, gets, modify, fail, mret, M_ret, mbind, M_bind. simpl.
  destruct (f (Net_Tick s) (Net_Links s)) eqn:E; [by eapply He|by eapply Ho].
Qed.
Lemma wp_nl_read {A} (f : nat → Links → error + A) (Q : Res A → NetWorld → Prop) s :
  (∀ e t, f t (Net_Links s) = inl e → Q (Err e) (mkNet (Net_Links s) (Net_Interface s) (S (Net_Tick s)))) →
  (∀ t a, f t (Net_Links s) = inr a → Q (Ok a) (mkNet (Net_Links s) (Net_Interface s) (S (Net_Tick s)))) →
  wp (nl_read f) Q s.
Proof.
  intros He Ho. unfold wp, nl_read, nl_tick, gets, modify, fail, mret, M_ret, mbind, M_bind. simpl.
  destruct (f (Net_Tick s) (Net_Links s)) eqn:E; [by eapply He|by eapply Ho].
Qed.
Lemma wp_nl_call f (Q : Res unit → NetWorld → Prop) s :
  (∀ r, (r = Ok tt ∨ ∃ e, r = Err e) → Q r (mkNet (Net_Links s) (Net_Interface s) (S (Net_Tick s)))) → wp (nl_call f) Q s.
Proof. intros HQ. unfold wp, nl_call, nl_tick, gets, modify, fail, mret, M_ret, mbind, M_bind. simpl. destruct (f (Net_Tick s)); apply HQ; eauto. Qed.

(** What a call on the interface [name] comes to: it returns, and other
    interfaces are as they were. *)
Definition returned {A} (name : string) s (P : NetWorld → Prop) (r : Res A) s' : Prop :=
  only_link name (Net_Links s) (Net_Links s') ∧ match r with Ok _ => P s' | Err _ => True | _ => False end.

Lemma clear_addrs name list s k :
  Net_Links s !! name = Some k →
  wp (for_each list (λ a, nl_change (λ t, nl_AddrDel t name a)))
    (returned name s (λ s', Net_Interface s' = Net_Interface s ∧
       Net_Links s' !! name = Some (mkKLink (KLink_MTU k) (KLink_Up k) (filter (λ b, b ∉ list) (KLink_Addrs k))))) s.
Proof.
  revert s k. induction list as [|a list IH]; intros s k Hk; simpl.
  - wp_step. split; [done|]. split; [done|]. rewrite Hk. clear Hk. destruct k as [m u l]. simpl. do 2 f_equal.
    induction l as [|x l IHl]; [done|]. rewrite filter_cons_True by set_solver. by f_equal.
  - wp_step. apply wp_nl_change; [intros e t _; by split|]. intros t l' ->%addr_del. simpl.
    eapply wp_mono; [apply IH; simpl; by rewrite lookup_alter_eq, Hk|]. intros r s' [Ho Hr]. simpl in Ho.
    split; [etrans; [apply only_alter|exact Ho]|]. destruct r as [[]|e|m|]; try done. destruct Hr as [Hi Hr].
    split; [done|]. rewrite Hr. simpl. do 2 f_equal. rewrite list_filter_filter. apply list_filter_iff. set_solver.
Qed.

Lemma assignAddr_spec w s k :
  Net_Links s !! WGIface_Name w = Some k →
  wp (assignAddr_linux w) (returned (WGIface_Name w) s (λ s', Net_Interface s' = Net_Interface s ∧
    Net_Links s' !! WGIface_Name w = Some (mkKLink (KLink_MTU k) true [addr_text (WGIface_Address w)]))) s.
Proof.
  intros Hk. unfold assignAddr_linux. simpl. wp_step. apply wp_nl_read; [intros e t _; by split|]. intros t list Hl%addr_list. simpl.
  rewrite Hk in Hl. injection Hl as Hl.
  wp_step. eapply wp_mono; [by apply clear_addrs|]. intros [[]|e|m|] s1 [Ho1 L1]; simpl in *; try done.
  destruct L1 as [Hi1 L1]. rewrite Hl in L1. assert (filter (λ b, b ∉ list) list = []) as Hf.
  { apply elem_of_nil_inv. intros x [Hx Hin]%list_elem_of_filter. by apply Hx. }
  rewrite Hf in L1. clear Hf.
  wp_step. wp_step. apply wp_nl_change.
  - intros e t2 He. wp_step. case_decide as Hex; wp_step; [|by split]. subst e. eapply addr_add_exists in He; [|exact L1]. set_solver.
  - intros t2 l2 ->%addr_add. do 2 wp_step. apply wp_nl_change; simpl.
    + intros e t3 _. split; [|done]. simpl. etrans; [exact Ho1|apply only_alter].
    + intros t3 l3 ->%link_set_up. split; simpl; [etrans; [exact Ho1|etrans; [apply only_alter|apply only_alter]]|].
      split; [done|]. by rewrite lookup_alter_eq, lookup_alter_eq, L1.
Qed.

(** The interface that is to be there. *)
Definition device_of w : KLink := mkKLink (WGIface_MTU w) true [addr_text (WGIface_Address w)].

Lemma Kernel_spec w s :
  wp (CreateWithKernel w) (returned (WGIface_Name w) s (λ s', Net_Interface s' = Some (KernelLink (newWGLink (WGIface_Name w))) ∧
    Net_Links s' !! WGIface_Name w = Some (device_of w))) s.
Proof.
  unfold CreateWithKernel. simpl. set (name := WGIface_Name w).
  assert (∀ s1, only_link name (Net_Links s) (Net_Links s1) →
    wp (err ← try (nl_change (λ t, nl_LinkAdd t (newWGLink name)));
        _ ← match err with inl e => if decide (e = SysEEXIST) then mret tt else fail e | inr _ => mret tt end;
        _ ← set_Interface (KernelLink (newWGLink name));
        _ ← assignAddr_linux w;
        _ ← nl_change (λ t, nl_LinkSetMTU t name (WGIface_MTU w));
        nl_change (λ t, nl_LinkSetUp t name))
      (returned name s (λ s', Net_Interface s' = Some (KernelLink (newWGLink name)) ∧
         Net_Links s' !! name = Some (device_of w))) s1) as Hrest.
  { intros s1 Ho1.
    assert (∀ s2 k, only_link name (Net_Links s) (Net_Links s2) → Net_Links s2 !! name = Some k →
      wp (_ ← set_Interface (KernelLink (newWGLink name));
          _ ← assignAddr_linux w;
          _ ← nl_change (λ t, nl_LinkSetMTU t name (WGIface_MTU w));
          nl_change (λ t, nl_LinkSetUp t name))
        (returned name s (λ s', Net_Interface s' = Some (KernelLink (newWGLink name)) ∧
           Net_Links s' !! name = Some (device_of w))) s2) as Hset.
    { intros s2 k Ho2 Hk. unfold set_Interface. do 3 wp_step. eapply wp_mono; [eapply assignAddr_spec; exact Hk|].
      intros [[]|e|m|] s3 [Ho3 Hs3]; simpl in *; try done; [|split; [by etrans|done]]. destruct Hs3 as [Hi3 Hl3].
      wp_step. apply wp_nl_change; [intros e t _; split; [by etrans|done]|]. intros t l ->%link_set_mtu. simpl.
      apply wp_nl_change; simpl.
      - intros e t' _. split; [|done]. etrans; [exact Ho2|]. etrans; [exact Ho3|apply only_alter].
      - intros t' l' ->%link_set_up. split; simpl.
        + etrans; [exact Ho2|]. etrans; [exact Ho3|]. etrans; apply only_alter.
        + split; [done|]. fold name in Hl3. by rewrite lookup_alter_eq, lookup_alter_eq, Hl3. }
    wp_step. wp_step. apply wp_nl_change.
    - intros e t He. wp_step. case_decide as Hex; wp_step; [|by split]. subst e. destruct (link_add_exists _ _ _ He) as [k Hk]. by eapply Hset.
    - intros t l' ->%link_add. do 2 wp_step. eapply Hset; simpl; [etrans; [exact Ho1|apply only_insert]|by rewrite lookup_insert_eq]. }
  wp_step. wp_step. apply wp_nl_read.
  - intros e t _. wp_step. case_decide; wp_step; [by apply Hrest|by split].
  - intros t _ _. wp_step. apply wp_nl_change; [intros e t' _; by split|]. intros t' l' ->%link_del. apply Hrest. apply only_delete.
Qed.

Lemma Userspace_spec w s :
  wp (CreateWithUserspace assignAddr_linux w) (returned (WGIface_Name w) s (λ s', Net_Interface s' = Some (UserTun (WGIface_Name w)) ∧
    Net_Links s' !! WGIface_Name w = Some (device_of w))) s.
Proof.
  unfold CreateWithUserspace, set_Interface, getUAPI. wp_step. apply wp_nl_change; [intros e t _; by split|].
  intros t l ->%create_tun. do 3 wp_step. simpl.
  assert (∀ fs, only_link (WGIface_Name w) fs (<[WGIface_Name w := mkKLink (WGIface_MTU w) false []]> fs)) as Ho by (intros; apply only_insert).
  wp_step. apply wp_nl_call. intros r [->|[e ->]]; simpl; [|by split; [apply Ho|]].
  wp_step. wp_step. apply wp_nl_call. intros r [->|[e ->]]; simpl; [|by split; [apply Ho|]].
  apply wp_nl_call. intros r [->|[e ->]]; simpl; [|by split; [apply Ho|]].
  eapply wp_mono; [eapply assignAddr_spec; simpl; by rewrite lookup_insert_eq|]. simpl. intros r s' [Ho' Hr]. simpl in *.
  split; [etrans; [apply Ho|exact Ho']|]. destruct r; done.
Qed.

(** Finding out whether the kernel has WireGuard changes nothing. *)
Lemma WireguardModExists_spec s :
  wp WireguardModExists (λ r s', Net_Links s' = Net_Links s ∧ Net_Interface s' = Net_Interface s ∧ ∃ b, r = Ok b) s.
Proof.
  unfold WireguardModExists. wp_step. wp_step. apply wp_nl_change; [|intros t l E; by apply link_add_mtu in E].
  intros e t _. wp_step. split_and!; [done..|by eexists].
Qed.

Lemma Create_spec w s :
  wp (Create_linux w) (returned (WGIface_Name w) s (λ s', Net_Links s' !! WGIface_Name w = Some (device_of w) ∧
    (Net_Interface s' = Some (KernelLink (newWGLink (WGIface_Name w))) ∨ Net_Interface s' = Some (UserTun (WGIface_Name w))))) s.
Proof.
  unfold Create_linux. wp_step. eapply wp_mono; [apply WireguardModExists_spec|]. intros r s1 (E1 & _ & b & ->). simpl.
  destruct b; (eapply wp_mono; [apply Kernel_spec || apply Userspace_spec|]); intros r s2 [Ho Hr]; rewrite E1 in Ho;
    (split; [exact Ho|]); destruct r; try done; destruct Hr as [-> Hr]; auto.
Qed.

(** C14: Creating the interface, by the kernel's module or in userspace,
    whatever interface of the name there was before: when it succeeds the
    interface is up, with the MTU and exactly the one address of the
    configuration; and however it ends, no other interface is touched. *)
Theorem Create_makes_device w s :
  wp (Create_linux w) (λ r s',
    delete (WGIface_Name w) (Net_Links s') = delete (WGIface_Name w) (Net_Links s) ∧
    (r = Ok tt ∨ ∃ e, r = Err e) ∧
    (r = Ok tt → Net_Links s' !! WGIface_Name w = Some (mkKLink (WGIface_MTU w) true [addr_text (WGIface_Address w)]))) s.
Proof.
  eapply wp_mono; [apply Create_spec|]. intros r s' [Ho Hr]. split; [exact Ho|].
  destruct r as [[]|e|m|]; try done; (split; [eauto|]); [|done]. intros _. by destruct Hr.
Qed.

(** Closing undoes creating: after both succeed the machine has the
    interfaces it had, without the one of the name. *)
Theorem Create_Close w s :
  wp (_ ← Create_linux w; Close w) (λ r s', r = Ok tt → Net_Links s' = delete (WGIface_Name w) (Net_Links s)) s.
Proof.
  wp_step. eapply wp_mono; [apply Create_spec|]. intros [[]|e|m|] s1 [Ho Hr]; simpl in *; try done.
  assert (∀ r s2, Net_Links s2 = delete (WGIface_Name w) (Net_Links s1) → r = Ok tt →
    wp (if decide (runtime_GOOS = "darwin") then
          t ← nl_tick; match remove_sock t ("/var/run/wireguard/" +:+ WGIface_Name w +:+ ".sock") with Some (Some e) => fail e | _ => mret tt end
        else mret tt) (λ r s', r = Ok tt → Net_Links s' = delete (WGIface_Name w) (Net_Links s)) s2) as Hend.
  { intros _ s2 E2 _. unfold only_link in Ho. rewrite Ho in E2. case_decide; [|by wp_step].
    unfold wp, nl_tick, mbind, M_bind. simpl. by destruct (remove_sock _ _) as [[]|]. }
  unfold Close, deref. wp_step. wp_step. wp_step. destruct Hr as [_ Hi].
  destruct Hi as [-> | ->]; wp_step; wp_step; unfold Interface_Close, wgLink_Close; (apply wp_nl_change; [done|]).
  - intros t l ->%link_del. simpl. by eapply Hend.
  - intros t l ->%close_tun. simpl. by eapply Hend.
Qed.
End properties.

(* ------------------------------------------------------------------ *)
(** ** Example: a machine with another interface *)

(** A kernel with or without the module; the call with the given number
    fails. *)
Definition demo_fails {A} (bad : option nat) (t : nat) (r : error + A) : error + A :=
  if decide (bad = Some t) then inl (Plain "operation not permitted") else r.
Definition demo_on {A} (name : string) (fs : Links) (f : KLink → A) : error + A :=
  match fs !! name with Some k => inr (f k) | None => inl LinkNotFound end.
Definition demo_nl (kmodule : bool) (bad : option nat) : Netlink := {|
  nl_LinkByName t name fs := demo_on name fs (λ _, tt);
  nl_LinkAdd t l fs :=
    if negb kmodule then inl (Plain "operation not supported")
    else if decide (Attrs_MTU (wgLink_attrs l) = MaxInt) then inl SysEINVAL
    else match fs !! Attrs_Name (wgLink_attrs l) with
         | Some _ => inl SysEEXIST
         | None => inr (<[Attrs_Name (wgLink_attrs l) := mkKLink (Attrs_MTU (wgLink_attrs l)) false []]> fs)
         end;
  nl_LinkDel t name fs := demo_on name fs (λ _, delete name fs);
  nl_AddrList t name fs := demo_on name fs KLink_Addrs;
  nl_AddrDel t name a fs := inr (alter (λ k, mkKLink (KLink_MTU k) (KLink_Up k) (filter (λ b, b ≠ a) (KLink_Addrs k))) name fs);
  nl_AddrAdd t name a fs := demo_fails bad t (inr (alter (λ k, mkKLink (KLink_MTU k) (KLink_Up k) (KLink_Addrs k ++ [a])) name fs));
  nl_LinkSetMTU t name mtu fs := inr (alter (λ k, mkKLink mtu (KLink_Up k) (KLink_Addrs k)) name fs);
  nl_LinkSetUp t name fs := inr (alter (λ k, mkKLink (KLink_MTU k) true (KLink_Addrs k)) name fs) |}.
#[local] Instance demo_userspace : Userspace := {|
  tun_CreateTUN t name mtu fs := inr (<[name := mkKLink mtu false []]> fs);
  device_Up t := None; ipc_UAPIOpen t name := None; ipc_UAPIListen t name := None;
  tun_Close t name fs := inr (delete name fs) |}.
#[local] Instance demo_machine : Machine := {|
  runtime_GOOS := "linux"; exec_Command t c := None; remove_sock t p := None; driver_CreateAdapter t n := None;
  adapter_SetUp t := None; luid_SetIPAddresses t l := None; adapter_Close t := None; wgctrl_New t := None;
  wgctrl_Devices t := inr ["wg0"];
  wgctrl_Device t name := if decide (name = "wg0") then inr 51820%Z else inl (Plain "no such device") |}.
#[local] Instance demo_nl_laws kmodule bad : NetlinkLaws (H := demo_nl kmodule bad).
Proof.
  split; intros *; simpl; unfold demo_on, demo_fails; repeat case_match; intros; simplify_eq/=; try done; by eexists.
Qed.

Abbreviation demo_iface := (mkWGIface "wt0" 1280 (mkWGAddress [100; 64; 0; 9]%Z (mkIPNet [100; 64; 0; 0]%Z [255; 255; 0; 0]%Z))).
Abbreviation demo_links := (mkNet {[ "eth0" := mkKLink 1500 true ["192.168.0.4/24"]; "wt0" := mkKLink 1420 true ["10.0.0.1/8"; "10.0.0.2/8"] ]} None 0).

(** By the kernel, in userspace; and when the address is refused, the interface
    stays without one. *)
Example Create_runs :
  (Create_linux (H := demo_nl true None) demo_iface demo_links).2.(Net_Links) !! "wt0" = Some (mkKLink 1280 true ["100.64.0.9/16"]) ∧
  (Create_linux (H := demo_nl false None) demo_iface demo_links).2.(Net_Links) !! "wt0" = Some (mkKLink 1280 true ["100.64.0.9/16"]) ∧
  (Create_linux (H := demo_nl true (Some 5)) demo_iface demo_links).1 = Err (Plain "operation not permitted") ∧
  (Create_linux (H := demo_nl true (Some 5)) demo_iface demo_links).2.(Net_Links) !! "wt0" = Some (mkKLink 0 false []).
Proof. split_and!; vm_compute; reflexivity. Qed.

Lemma Create_makes_device_witness :
  wp (Create_linux (H := demo_nl true None) demo_iface) (λ r s',
    delete "wt0" (Net_Links s') = delete "wt0" (Net_Links demo_links) ∧
    (r = Ok tt ∨ ∃ e, r = Err e) ∧ (r = Ok tt → Net_Links s' !! "wt0" = Some (mkKLink 1280 true ["100.64.0.9/16"]))) demo_links.
Proof. apply (Create_makes_device (H := demo_nl true None) demo_iface demo_links). Defined.

Lemma Create_Close_witness :
  (_ ← Create_linux (H := demo_nl true None) demo_iface; Close (H := demo_nl true None) demo_iface) demo_links =
    (Ok tt, mkNet {[ "eth0" := mkKLink 1500 true ["192.168.0.4/24"] ]} (Some (KernelLink (newWGLink "wt0"))) 10) ∧
  wp (_ ← Create_linux (H := demo_nl true None) demo_iface; Close (H := demo_nl true None) demo_iface)
    (λ r s', r = Ok tt → Net_Links s' = delete "wt0" (Net_Links demo_links)) demo_links.
Proof. split; [vm_compute; reflexivity|apply (Create_Close (H := demo_nl true None) demo_iface demo_links)]. Defined.

(** The loop that takes connections goes on after every error, so once its
    socket is closed it does not end and does nothing but fail. *)
Lemma accept_loop_errors {C} (l : list (error + C)) :
  Forall (λ a, ∃ e, a = inl e) l → accept_loop l = [].
Proof. by induction 1 as [|? l [e ->] _ IH]. Qed.
