(* ===== verification/Pump.v ===== *)
(** * Pump: moving packets between WireGuard and a peer
    (client/internal/proxy/wireguard.go, dummy.go)

    A proxied connection has two goroutines: one reads what WireGuard sends to
    the local socket and writes it to the connection with the peer, the other
    the reverse.  Each is a sequence of steps: the look at the context, the read,
    the write.  Packets arrive, writes fail, sockets are closed and the proxy is
    closed between any two of them. *)

From S2P Require Import Prelude GoLib Model.
From stdpp Require Import list.

(** A packet: its bytes. *)
Abbreviation packet := (list Z) (only parsing).

(** Where a goroutine stands. *)
Inductive PumpPhase := AtSelect | AtRead | AtWrite (buf : packet) | Returned.

(** One direction: the packets that wait to be read, what has been written,
    whether the socket that is read is closed; and, for the specification, all
    packets that ever arrived. *)
Record PumpState := mkPump {
  Pump_In : list packet; Pump_Out : list packet; Pump_Closed : bool; Pump_Phase : PumpPhase; Pump_Arrived : list packet }.

(** [buf := make([]byte, 1500)]: a read of a datagram leaves out what does not
    fit. *)
Definition buf_size : nat := 1500.
Definition Read_into (p : packet) : packet := take buf_size p.

Definition set_Phase v p := mkPump (Pump_In p) (Pump_Out p) (Pump_Closed p) v (Pump_Arrived p).

(** An iteration of the loop of [proxyToRemote] and [proxyToLocal], step by
    step; [io_ok]: the read or the write succeeds; a failed read of an open
    socket loses the packet it was for, if there is one.  Errors go on with the
    next iteration.  [None]: the read waits. *)
Definition pump_step (cancelled io_ok : bool) (p : PumpState) : option PumpState :=
  match Pump_Phase p with
  | AtSelect => Some (set_Phase (if cancelled then Returned else AtRead) p)
  | AtRead =>
      if Pump_Closed p then Some (set_Phase AtSelect p)
      else match Pump_In p with
           | [] => if io_ok then None else Some (set_Phase AtSelect p)
           | x :: l => Some (mkPump l (Pump_Out p) (Pump_Closed p)
                               (if io_ok then AtWrite (Read_into x) else AtSelect) (Pump_Arrived p))
           end
  | AtWrite b =>
      Some (mkPump (Pump_In p) (if io_ok then Pump_Out p ++ [b] else Pump_Out p) (Pump_Closed p) AtSelect (Pump_Arrived p))
  | Returned => None
  end.
Definition pump_arrive (x : packet) (p : PumpState) : PumpState :=
  mkPump (Pump_In p ++ [x]) (Pump_Out p) (Pump_Closed p) (Pump_Phase p) (Pump_Arrived p ++ [x]).
Definition pump_close (p : PumpState) : PumpState := mkPump (Pump_In p) (Pump_Out p) true (Pump_Phase p) (Pump_Arrived p).
Definition pump_start : PumpState := mkPump [] [] false AtSelect [].

(** The proxy: its context and the two goroutines. *)
Record ProxyState := mkProxy { PX_Cancelled : bool; PX_ToRemote : PumpState; PX_ToLocal : PumpState }.

Inductive proxy_label :=
  | WireguardSends (x : packet) | PeerSends (x : packet)
  | ProxyToRemote (io_ok : bool) | ProxyToLocal (io_ok : bool)
  | ProxyCancel | LocalClosed | RemoteClosed.

Definition proxyToRemote (io_ok : bool) (s : ProxyState) : option ProxyState :=
  p ← pump_step (PX_Cancelled s) io_ok (PX_ToRemote s); Some (mkProxy (PX_Cancelled s) p (PX_ToLocal s)).
Definition proxyToLocal (io_ok : bool) (s : ProxyState) : option ProxyState :=
  p ← pump_step (PX_Cancelled s) io_ok (PX_ToLocal s); Some (mkProxy (PX_Cancelled s) (PX_ToRemote s) p).
(** Both goroutines are started; [Close] cancels the context and closes the
    local socket; that of the peer is closed with its agent. *)
Definition proxy_started : ProxyState := mkProxy false pump_start pump_start.
Definition proxy_step (l : proxy_label) (s : ProxyState) : option ProxyState :=
  match l with
  | WireguardSends x => Some (mkProxy (PX_Cancelled s) (pump_arrive x (PX_ToRemote s)) (PX_ToLocal s))
  | PeerSends x => Some (mkProxy (PX_Cancelled s) (PX_ToRemote s) (pump_arrive x (PX_ToLocal s)))
  | ProxyToRemote ok => proxyToRemote ok s
  | ProxyToLocal ok => proxyToLocal ok s
  | ProxyCancel => Some (mkProxy true (PX_ToRemote s) (PX_ToLocal s))
  | LocalClosed => Some (mkProxy (PX_Cancelled s) (pump_close (PX_ToRemote s)) (PX_ToLocal s))
  | RemoteClosed => Some (mkProxy (PX_Cancelled s) (PX_ToRemote s) (pump_close (PX_ToLocal s)))
  end.
Inductive proxy_reachable : ProxyState → Prop :=
  | proxy_init : proxy_reachable proxy_started
  | proxy_next s l s' : proxy_reachable s → proxy_step l s = Some s' → proxy_reachable s'.

(** Running labels in turn. *)
Definition proxy_run (ls : list proxy_label) (s : ProxyState) : option ProxyState := foldl (λ o l, s ← o; proxy_step l s) (Some s) ls.

(* ------------------------------------------------------------------ *)
(** ** dummy.go *)

(** The dummy: one goroutine reads and forgets until a read fails, the other
    writes a ping every five seconds until a write fails. *)
Record DummyState := mkDummy { Dummy_Cancelled : bool; Dummy_Reader : bool; Dummy_Writer : bool; Dummy_Written : list string }.
Definition NewDummyProxy : DummyState := mkDummy false false false [].
Definition Dummy_Start (d : DummyState) : DummyState := mkDummy (Dummy_Cancelled d) true true (Dummy_Written d).
Definition Dummy_Close (d : DummyState) : DummyState := mkDummy true (Dummy_Reader d) (Dummy_Writer d) (Dummy_Written d).
Definition dummy_read (ok : bool) (d : DummyState) : option DummyState :=
  if Dummy_Reader d then Some (mkDummy (Dummy_Cancelled d) (negb (Dummy_Cancelled d) && ok) (Dummy_Writer d) (Dummy_Written d)) else None.
Definition dummy_write (ok : bool) (d : DummyState) : option DummyState :=
  if Dummy_Writer d then
    if Dummy_Cancelled d then Some (mkDummy true (Dummy_Reader d) false (Dummy_Written d))
    else Some (mkDummy false (Dummy_Reader d) ok (if ok then Dummy_Written d ++ ["hello"] else Dummy_Written d))
  else None.
Definition Dummy_Type : string := "Dummy".

(* ------------------------------------------------------------------ *)
(** ** Properties *)

Definition in_hand (p : PumpState) : list packet := match Pump_Phase p with AtWrite b => [b] | _ => [] end.
(** What was written, is in hand or waits is, in order, part of what arrived;
    what waits is the end of it. *)
Definition pump_ok (p : PumpState) : Prop :=
  ∃ read, Pump_Arrived p = read ++ Pump_In p ∧ (Pump_Out p ++ in_hand p) `sublist_of` (Read_into <$> read).

Lemma pump_step_ok c ok p p' : pump_ok p → pump_step c ok p = Some p' → pump_ok p'.
Proof.
  intros (read & Ha & Hs). unfold pump_step, in_hand in *. destruct (Pump_Phase p) as [| |b|] eqn:Hph.
  - intros [= <-]. exists read. simpl. unfold in_hand. simpl. split; [done|]. by destruct c.
  - destruct (Pump_Closed p).
    + intros [= <-]. by exists read.
    + destruct (Pump_In p) as [|x l] eqn:Hin.
      { destruct ok; [done|]. intros [= <-]. exists read. unfold in_hand. simpl. by rewrite Hin. }
      intros [= <-]. exists (read ++ [x]). simpl.
      split; [by rewrite <-app_assoc|]. unfold in_hand. simpl. rewrite app_nil_r in Hs. rewrite fmap_app. simpl.
      destruct ok; [by apply sublist_app|]. rewrite app_nil_r. etrans; [exact Hs|]. by apply sublist_inserts_r.
  - intros [= <-]. exists read. unfold in_hand. simpl. split; [done|]. rewrite app_nil_r. destruct ok; [done|].
    etrans; [|exact Hs]. by apply sublist_inserts_r.
  - done.
Qed.
Lemma pump_arrive_ok x p : pump_ok p → pump_ok (pump_arrive x p).
Proof. intros (read & Ha & Hs). exists read. unfold in_hand in *. simpl. rewrite Ha. by rewrite <-app_assoc. Qed.
Lemma pump_close_ok p : pump_ok p → pump_ok (pump_close p).
Proof. intros (read & Ha & Hs). by exists read. Qed.

Lemma proxy_ok s : proxy_reachable s → pump_ok (PX_ToRemote s) ∧ pump_ok (PX_ToLocal s).
Proof.
  induction 1 as [|s l s' _ [IH1 IH2] Hstep].
  - split; by exists [].
  - destruct l; simpl in Hstep; unfold proxyToRemote, proxyToLocal in Hstep;
      try (injection Hstep as <-; split; simpl; auto using pump_arrive_ok, pump_close_ok; fail).
    + destruct (pump_step _ _ _) as [p|] eqn:E; [|done]. injection Hstep as <-. split; [exact (pump_step_ok _ _ _ _ IH1 E)|done].
    + destruct (pump_step _ _ _) as [p|] eqn:E; [|done]. injection Hstep as <-. split; [done|exact (pump_step_ok _ _ _ _ IH2 E)].
Qed.

(** C15: However packets, failures, closing and the two goroutines interleave,
    what a proxied connection hands to the peer is part of what WireGuard sent
    to it, in the same order and none of it twice, and what it hands to
    WireGuard is such a part of what the peer sent; only what exceeds the
    buffer is cut off. *)
Theorem proxy_relays s :
  proxy_reachable s →
  Pump_Out (PX_ToRemote s) `sublist_of` (Read_into <$> Pump_Arrived (PX_ToRemote s)) ∧
  Pump_Out (PX_ToLocal s) `sublist_of` (Read_into <$> Pump_Arrived (PX_ToLocal s)).
Proof.
  intros Hs. assert (∀ p, pump_ok p → Pump_Out p `sublist_of` (Read_into <$> Pump_Arrived p)) as Hp.
  { intros p (read & -> & Hr). rewrite fmap_app. etrans; [|by apply sublist_inserts_r, Hr]. by apply sublist_inserts_r. }
  destruct (proxy_ok s Hs). auto.
Qed.

(** While no socket is closed, no write fails and the proxy is not closed, three
    steps of its goroutine take a packet through. *)
Lemma pump_three p x l :
  Pump_Phase p = AtSelect → Pump_Closed p = false → Pump_In p = x :: l →
  (p ← pump_step false true p; p ← pump_step false true p; pump_step false true p) =
    Some (mkPump l (Pump_Out p ++ [Read_into x]) false AtSelect (Pump_Arrived p)).
Proof. intros Hp Hc Hi. unfold pump_step. rewrite Hp. simpl. by rewrite Hc, Hi. Qed.

Fixpoint pump_all (n : nat) (p : PumpState) : option PumpState :=
  match n with 0 => Some p | S n' => p ← pump_step false true p; p ← pump_step false true p; p ← pump_step false true p; pump_all n' p end.
Theorem pump_delivers p :
  Pump_Phase p = AtSelect → Pump_Closed p = false →
  pump_all (length (Pump_In p)) p = Some (mkPump [] (Pump_Out p ++ (Read_into <$> Pump_In p)) false AtSelect (Pump_Arrived p)).
Proof.
  intros Hp Hc. remember (Pump_In p) as l eqn:Hl. symmetry in Hl. revert p Hp Hc Hl.
  induction l as [|x l IH]; intros p Hp Hc Hl; simpl.
  - destruct p. simpl in *. by rewrite app_nil_r, Hp, Hc, Hl.
  - pose proof (pump_three p x l Hp Hc Hl) as H3. destruct (pump_step false true p) as [p1|]; [|done]. simpl in *.
    destruct (pump_step false true p1) as [p2|]; [|done]. simpl in *. rewrite H3. simpl. rewrite IH by done.
    simpl. by rewrite <-app_assoc.
Qed.

(** C29: The goroutines end: once the proxy has been closed and both sockets
    are, each of them is through after at most three more steps of its own,
    whatever it was doing. *)
Theorem proxy_ends p ok1 ok2 ok3 :
  Pump_Closed p = true → Pump_Phase p ≠ Returned →
  ∃ n p', n ≤ 3 ∧ foldl (λ o ok, p ← o; pump_step true ok p) (Some p) (take n [ok1; ok2; ok3]) = Some p' ∧ Pump_Phase p' = Returned.
Proof.
  intros Hc Hp. unfold pump_step. destruct p as [i o c ph a]. simpl in *. subst c. destruct ph; [exists 1|exists 2|exists 2|done];
    simpl; eexists; (split; [lia|]); done.
Qed.

(** A goroutine of which the socket is closed while the proxy is not goes
    round and round: it does not wait and is never through. *)
Lemma pump_spins n ok p : Pump_Closed p = true → Pump_Phase p = AtSelect →
  foldl (λ o ok, p ← o; pump_step false ok p) (Some p) (replicate (n + n) ok) = Some p.
Proof.
  intros Hc Hp. induction n as [|n IH]; [done|]. rewrite Nat.add_succ_r. simpl.
  destruct p as [i o c ph a]. simpl in *. subst. simpl. exact IH.
Qed.

(* ------------------------------------------------------------------ *)
(** ** Example *)

Abbreviation demo_labels := [WireguardSends [1; 2]; ProxyToRemote true; WireguardSends [3]; ProxyToRemote true; PeerSends [9];
  ProxyToRemote true; ProxyToLocal true; ProxyToRemote true; ProxyToRemote true; ProxyToRemote false; ProxyToLocal true; ProxyToLocal true]%Z.
Abbreviation demo_proxy := (default proxy_started (proxy_run demo_labels proxy_started)).

Lemma run_reachable ls s s' : proxy_reachable s → proxy_run ls s = Some s' → proxy_reachable s'.
Proof.
  revert s. induction ls as [|l ls IH]; intros s Hs Hrun; [by injection Hrun as <-|]. unfold proxy_run in *. simpl in Hrun.
  destruct (proxy_step l s) as [s1|] eqn:E.
  - eapply IH; [|exact Hrun]. by eapply proxy_next.
  - exfalso. clear -Hrun. induction ls as [|l0 ls IHl]; [discriminate Hrun|exact (IHl Hrun)].
Qed.

Lemma proxy_relays_witness :
  Pump_Out (PX_ToRemote demo_proxy) = [[1; 2]]%Z ∧ Pump_Out (PX_ToLocal demo_proxy) = [[9]]%Z ∧
  Pump_Out (PX_ToRemote demo_proxy) `sublist_of` (Read_into <$> Pump_Arrived (PX_ToRemote demo_proxy)) ∧
  Pump_Out (PX_ToLocal demo_proxy) `sublist_of` (Read_into <$> Pump_Arrived (PX_ToLocal demo_proxy)).
Proof.
  split; [vm_compute; reflexivity|]. split; [vm_compute; reflexivity|]. apply proxy_relays.
  eapply (run_reachable demo_labels proxy_started); [constructor|vm_compute; reflexivity].
Defined.

Lemma pump_delivers_witness :
  pump_all 2 (mkPump [[1]; [2]] [[7]] false AtSelect [[7]; [1]; [2]])%Z = Some (mkPump [] [[7]; [1]; [2]] false AtSelect [[7]; [1]; [2]])%Z.
Proof. apply (pump_delivers (mkPump [[1]; [2]] [[7]] false AtSelect [[7]; [1]; [2]])%Z); reflexivity. Defined.

Lemma proxy_ends_witness :
  ∃ n p', n ≤ 3 ∧ foldl (λ o ok, p ← o; pump_step true ok p) (Some (mkPump [[4]] [] true (AtWrite [3]) [[3]; [4]]))%Z (take n [true; false; true]) = Some p' ∧
    Pump_Phase p' = Returned.
Proof. apply proxy_ends; [reflexivity|discriminate]. Defined.
