(* ===== verification/PeerConn.v ===== *)
(** * PeerConn: a connection to a peer (client/internal/peer/conn.go, client/internal/proxy)

    The goroutine of a connection runs [Open] over and over.  [Open] waits at
    three places: for the remote peer's confirmation, in ICE's [Dial] or
    [Accept], and for the end of the connection; it is modelled as the code
    between these places, one definition each, and the [Phase] of the connection
    says where it stands.  The methods other goroutines call ([Close],
    [OnRemoteOffer], [Status], ...) run between them. *)

From S2P Require Import Prelude GoLib Model Encryption Signal SignalClient ClientModel WgIface.

(* ------------------------------------------------------------------ *)
(** ** Proxies (package proxy) *)

Definition DefaultWgKeepAlive : Z := 25 * 1000000000.

Section conn.
Context `{WgCtrl} `{Crypto} `{Ice} `{Net} `{SignalAPI}.

(** [Start]; the second component is the proxy as it has been changed. *)
Definition NoProxy_Start (config : ProxyConfig) (remoteConn : RemoteConn) : MC unit :=
  addr ← pure_val (RC_RemoteAddr remoteConn);
  UpdatePeer (PxC_RemoteKey config) (PxC_AllowedIps config) DefaultWgKeepAlive
    (mkUDPAddr (Addr_IP addr) DefaultWgPort) (PxC_PreSharedKey config).

Definition NoProxy_Close (config : ProxyConfig) : MC unit := RemovePeer (PxC_RemoteKey config).

Definition updateEndpoint (config : ProxyConfig) (localAddr : UDPAddr) : MC unit :=
  UpdatePeer (PxC_RemoteKey config) (PxC_AllowedIps config) DefaultWgKeepAlive localAddr
    (PxC_PreSharedKey config).

Definition WireguardProxy_Close (config : ProxyConfig) (localConn : option UDPAddr) : MC unit :=
  _ ← match localConn with Some _ => ext net_Close | None => mret tt end;
  RemovePeer (PxC_RemoteKey config).

Definition Proxy_Type (p : Proxy) : string :=
  match p with NoProxy _ => "NoProxy" | WireguardProxy _ _ _ => "Wireguard" end.

(** [proxy.Close]: the proxy's context is cancelled first. *)
Definition Proxy_Close (i : nat) (p : Proxy) : MC unit :=
  match p with
  | NoProxy config => NoProxy_Close config
  | WireguardProxy config _ localConn =>
      _ ← mod_conn i (set_Conn_proxy (Some (WireguardProxy config true localConn)));
      WireguardProxy_Close config localConn
  end.

(** [proxy.Start] of connection [i]'s proxy. *)
Definition Proxy_Start (i : nat) (p : Proxy) (remoteConn : RemoteConn) : MC unit :=
  match p with
  | NoProxy config => NoProxy_Start config remoteConn
  | WireguardProxy config c _ =>
      localAddr ← ext_val net_Dial;
      _ ← mod_conn i (set_Conn_proxy (Some (WireguardProxy config c (Some localAddr))));
      updateEndpoint config localAddr
  end.

(* ------------------------------------------------------------------ *)
(** ** Choosing the proxy *)

(** [net.IP.IsLoopback], [IsLinkLocalUnicast], [IsLinkLocalMulticast] and
    [IsPrivate], of IPv4. *)
Definition IsLoopback (ip : IP) : bool := bool_decide (ip !! 0 = Some 127%Z).
Definition IsLinkLocalUnicast (ip : IP) : bool := bool_decide (ip !! 0 = Some 169%Z ∧ ip !! 1 = Some 254%Z).
Definition IsLinkLocalMulticast (ip : IP) : bool :=
  bool_decide (ip !! 0 = Some 224%Z ∧ ip !! 1 = Some 0%Z ∧ ip !! 2 = Some 0%Z).
Definition IsPrivate (ip : IP) : bool :=
  bool_decide (ip !! 0 = Some 10%Z) ||
  bool_decide (ip !! 0 = Some 172%Z ∧ (λ b, Z.land b 240) <$> ip !! 1 = Some 16%Z) ||
  bool_decide (ip !! 0 = Some 192%Z ∧ ip !! 1 = Some 168%Z).

Definition IsPublicIP (ip : IP) : bool :=
  if IsLoopback ip || IsLinkLocalUnicast ip || IsLinkLocalMulticast ip || IsPrivate ip then false else true.

Definition is_host (c : Candidate) : bool := bool_decide (Cand_Type c = CandHost).

Definition shouldUseProxy (pair : CandidatePair) : bool :=
  let remoteIsPublic := IsPublicIP (Cand_Address (Pair_Remote pair)) in
  let myIsPublic := IsPublicIP (Cand_Address (Pair_Local pair)) in
  if remoteIsPublic && is_host (Pair_Remote pair) then false
  else if myIsPublic && is_host (Pair_Local pair) then false
  else if is_host (Pair_Local pair) && is_host (Pair_Remote pair) then
    if negb remoteIsPublic && negb myIsPublic then false else true
  else true.

(** [interfaceFilter]: interfaces ICE may use; [is_wg] says which are
    WireGuard devices. *)
Definition interfaceFilter (blackList : list string) (is_wg : string → bool) (iFace : string) : bool :=
  if decide (iFace ∈ blackList) then false else negb (is_wg iFace).

(* ------------------------------------------------------------------ *)
(** ** Signalling (engine.go: the closures of [createPeerConn]) *)

Definition signal_send (msg : SigMessage) : MC unit :=
  _ ← ext (λ t, signal_Send t msg);
  modify (λ w, set_Sent (CW_Sent w ++ [msg]) w).

Definition signalAuth (uFrag pwd : string) (myKey remoteKey : Key) (isAnswer : bool) : MC unit :=
  let t := if isAnswer then Body_ANSWER else Body_OFFER in
  signal_send (MarshalCredential myKey remoteKey (mkCredential uFrag pwd) t).

Definition signalCandidate (candidate : Candidate) (myKey remoteKey : Key) : MC unit :=
  signal_send (mkSigMessage (Key_String (PublicKey myKey)) (Key_String remoteKey)
    (Some (mkSigBody Body_CANDIDATE (Cand_Marshal candidate)))).

(* ------------------------------------------------------------------ *)
(** ** The parts of [Open] *)

Definition NewConn (config : ConnConfig) : Conn :=
  mkConn config None None StatusDisconnected None None false PhIdle.

(** A context's cancel function, and what is done to the context. *)
Definition cancel_ctx (c : Conn) : Conn :=
  set_Conn_ctx ((λ _, true) <$> Conn_ctxDone c) (Conn_notify c) c.

(** [NewAgent] returns a nil agent with an error. *)
Definition reCreateAgent (i : nat) : MC unit :=
  conn ← get_conn i;
  t ← cl_tick;
  match ice_NewAgent t (ConnC_StunTurn (Conn_config conn)) with
  | Some err => _ ← mod_conn i (set_Conn_agent None); fail err
  | None =>
      _ ← mod_conn i (set_Conn_agent (Some t));
      _ ← ext ice_On;
      _ ← ext ice_On;
      ext ice_On
  end.

(** The first half of [sendOffer] and [sendAnswer]; nil handlers panic. *)
Definition send_credentials (i : nat) (isAnswer : bool) : MC unit :=
  conn ← get_conn i;
  _ ← deref (Conn_agent conn);
  creds ← ext_val ice_LocalCredentials;
  keys ← deref (Conn_signal conn);
  signalAuth creds.1 creds.2 keys.1 keys.2 isAnswer.
Definition sendOffer (i : nat) : MC unit := send_credentials i false.
Definition sendAnswer (i : nat) : MC unit := send_credentials i true.

Definition startProxy (i : nat) (remoteConn : RemoteConn) : MC unit :=
  conn ← get_conn i;
  _ ← deref (Conn_agent conn);
  pair ← ext_val ice_SelectedPair;
  let config := ConnC_ProxyConfig (Conn_config conn) in
  let p := if shouldUseProxy pair then WireguardProxy config false None else NoProxy config in
  _ ← mod_conn i (set_Conn_proxy (Some p));
  _ ← Proxy_Start i p remoteConn;
  mod_conn i (set_Conn_status StatusConnected).

(** An error leaves what has not been closed yet as it is. *)
Definition cleanup (i : nat) : MC unit :=
  conn ← get_conn i;
  _ ← match Conn_agent conn with
      | Some _ => _ ← ext ice_Close; mod_conn i (set_Conn_agent None)
      | None => mret tt
      end;
  _ ← match Conn_proxy conn with
      | Some p => _ ← Proxy_Close i p; mod_conn i (set_Conn_proxy None)
      | None => mret tt
      end;
  _ ← (if Conn_notify conn
       then mod_conn i (λ c, set_Conn_ctx (Conn_ctxDone (cancel_ctx c)) false c)
       else mret tt);
  mod_conn i (set_Conn_status StatusDisconnected).

(** [return err] from [Open]: the deferred calls run, [notifyDisconnected]
    only when the context has been made; an error of [cleanup] is logged. *)
Definition open_return (i : nat) (dialled : bool) (err : ConnError) : MC (option ConnError) :=
  _ ← when dialled (mod_conn i cancel_ctx);
  _ ← try (cleanup i);
  _ ← mod_conn i (set_Conn_phase PhIdle);
  mret (Some err).

(** A part of [Open]: it returns on an error, or gets to the next place. *)
Definition open_part (i : nat) (dialled : bool) (m : MC unit) (next : Phase) : MC (option ConnError) :=
  r ← try m;
  match r with
  | inl e => open_return i dialled (OtherError e)
  | inr _ => _ ← mod_conn i (set_Conn_phase next); mret None
  end.

Definition open_begin (i : nat) : MC (option ConnError) :=
  open_part i false (_ ← reCreateAgent i; sendOffer i) PhWait.

(** The cases of the first [select] that are not a message. *)
Definition open_timeout (i : nat) : MC (option ConnError) :=
  conn ← get_conn i;
  open_return i false (ConnectionTimeoutError (ConnC_Key (Conn_config conn)) (ConnC_Timeout (Conn_config conn))).
Definition open_closed (i : nat) (dialled : bool) : MC (option ConnError) :=
  conn ← get_conn i;
  open_return i dialled (ConnectionClosedError (ConnC_Key (Conn_config conn))).

(** After the credentials have arrived, up to [Dial] or [Accept]: the answer
    to an offer, before the context is made; then gathering. *)
Definition open_confirm (i : nat) (creds : IceCredentials) (offer : bool) : MC (option ConnError) :=
  r ← try (if offer then sendAnswer i else mret tt);
  match r with
  | inl e => open_return i false (OtherError e)
  | inr _ =>
      _ ← mod_conn i (λ c, set_Conn_ctx (Some false) true (set_Conn_status StatusConnecting c));
      open_part i true (conn ← get_conn i; _ ← deref (Conn_agent conn); ext ice_Gather) (PhDial creds)
  end.

(** Which side dials: the one with the greater key. *)
Definition isControlling (config : ConnConfig) : bool :=
  match String.compare (ConnC_LocalKey config) (ConnC_Key config) with Gt => true | _ => false end.

(** [Dial] or [Accept] has returned. *)
Definition open_dialled (i : nat) (result : error + RemoteConn) : MC (option ConnError) :=
  open_part i true (remoteConn ← pure_val result; startProxy i remoteConn) PhConnected.

(** The context of a connection is done. *)
Definition open_disconnected (i : nat) : MC (option ConnError) :=
  conn ← get_conn i;
  open_return i true (ConnectionDisconnectedError (ConnC_Key (Conn_config conn))).

(* ------------------------------------------------------------------ *)
(** ** The methods *)

(** A send on [closeCh], or the default case. *)
Definition Conn_Close (i : nat) : MC (option ConnError) :=
  conn ← get_conn i;
  match Conn_phase conn with
  | PhWait => _ ← mod_conn i (set_Conn_phase (PhClosed false)); mret None
  | PhConnected => _ ← mod_conn i (set_Conn_phase (PhClosed true)); mret None
  | _ => mret (Some (ConnectionAlreadyClosedError (ConnC_Key (Conn_config conn))))
  end.

Definition Conn_Status (i : nat) : MC ConnStatus := conn ← get_conn i; mret (Conn_status conn).

(** A send on [remoteOffersCh] or [remoteAnswerCh]: taken when the connection
    waits, discarded otherwise. *)
Definition on_remote (i : nat) (remoteAuth : IceCredentials) (offer : bool) : MC bool :=
  conn ← get_conn i;
  match Conn_phase conn with
  | PhWait => _ ← mod_conn i (set_Conn_phase (PhConfirmed remoteAuth offer)); mret true
  | _ => mret false
  end.
Definition OnRemoteOffer (i : nat) (remoteAuth : IceCredentials) : MC bool := on_remote i remoteAuth true.
Definition OnRemoteAnswer (i : nat) (remoteAuth : IceCredentials) : MC bool := on_remote i remoteAuth false.

(** The candidate is added in a goroutine of its own; errors are logged. *)
Definition OnRemoteCandidate (i : nat) (candidate : Candidate) : MC unit :=
  conn ← get_conn i;
  match Conn_agent conn with
  | None => mret tt
  | Some _ => _ ← try (ext ice_AddRemote); mret tt
  end.

Definition onICECandidate (i : nat) (candidate : option Candidate) : MC unit :=
  match candidate with
  | None => mret tt
  | Some c =>
      conn ← get_conn i;
      keys ← deref (Conn_signal conn);
      _ ← try (signalCandidate c keys.1 keys.2);
      mret tt
  end.

(** Calling a nil [notifyDisconnected] panics. *)
Definition onICEConnectionStateChange (i : nat) (state : IceState) : MC unit :=
  conn ← get_conn i;
  if decide (state = IceFailed ∨ state = IceDisconnected) then
    if Conn_notify conn then mod_conn i cancel_ctx
    else panic "invalid memory address or nil pointer dereference"
  else mret tt.
End conn.

(* ------------------------------------------------------------------ *)
(** ** Symbolic execution on one connection *)

(** A world in which connection [i] is [c], the device has the peers [d],
    the messages [s] have been sent and [n] external calls been made; the rest
    is as in [w]. *)
Definition upd (i : nat) (c : Conn) (d : WgPeers) (s : list SigMessage) (n : nat) (w : CWorld) : CWorld :=
  mkCWorld (CW_Engine w) (<[i := c]> (CW_Conns w)) (CW_Next w) d s n.

Lemma upd_id i c w : CW_Conns w !! i = Some c → w = upd i c (CW_Wg w) (CW_Sent w) (CW_Tick w) w.
Proof. intros Hc. destruct w; unfold upd; simpl in *. by rewrite insert_id. Qed.

Lemma upd_upd i c d s n c' d' s' n' w : upd i c d s n (upd i c' d' s' n' w) = upd i c d s n w.
Proof. unfold upd. simpl. by rewrite insert_insert_eq. Qed.

Lemma upd_conn i c d s n w : CW_Conns (upd i c d s n w) !! i = Some c.
Proof. apply lookup_insert_eq. Qed.

Section upd_rules.
Context {A : Type} (i : nat) (c : Conn) (d : WgPeers) (s : list SigMessage) (n : nat) (w : CWorld).

Lemma wp_get_conn_upd (Q : Res Conn → CWorld → Prop) :
  Q (Ok c) (upd i c d s n w) → wp (get_conn i) Q (upd i c d s n w).
Proof. apply wp_get_conn, upd_conn. Qed.

Lemma wp_mod_conn_upd f (Q : Res unit → CWorld → Prop) :
  Q (Ok tt) (upd i (f c) d s n w) → wp (mod_conn i f) Q (upd i c d s n w).
Proof.
  intros HQ. apply wp_mod_conn. unfold set_Conns, upd in *. simpl. by rewrite alter_insert_eq.
Qed.

Lemma wp_ext_upd f (Q : Res unit → CWorld → Prop) :
  (∀ m, f n = None → Q (Ok tt) (upd i c d s m w)) → (∀ e m, f n = Some e → Q (Err e) (upd i c d s m w)) →
  wp (ext f) Q (upd i c d s n w).
Proof. intros Hok Herr. apply wp_ext; intros; unfold set_CTick; simpl; [by apply Hok|by apply Herr]. Qed.

Lemma wp_ext_val_upd (f : nat → error + A) (Q : Res A → CWorld → Prop) :
  (∀ a m, f n = inr a → Q (Ok a) (upd i c d s m w)) → (∀ e m, f n = inl e → Q (Err e) (upd i c d s m w)) →
  wp (ext_val f) Q (upd i c d s n w).
Proof. intros Hok Herr. apply wp_ext_val; intros; unfold set_CTick; simpl; [by apply Hok|by apply Herr]. Qed.

Lemma wp_cl_tick_upd (Q : Res nat → CWorld → Prop) :
  Q (Ok n) (upd i c d s (S n) w) → wp cl_tick Q (upd i c d s n w).
Proof. done. Qed.
End upd_rules.

Section upd_iface.
Context `{WgCtrlLaws} `{Crypto} `{SignalAPI}.
Context (i : nat) (c : Conn) (d : WgPeers) (s : list SigMessage) (n : nat) (w : CWorld).

Lemma wp_RemovePeer_upd key (Q : Res unit → CWorld → Prop) :
  (∀ k m, ParseKey key = inr k → Q (Ok tt) (upd i c (delete k d) s m w)) →
  (∀ e m, ¬ (device_works ∧ ∃ k, ParseKey key = inr k) → Q (Err e) (upd i c d s m w)) →
  wp (RemovePeer key) Q (upd i c d s n w).
Proof.
  intros Hok Herr. eapply wp_mono; [apply RemovePeer_spec|]. intros [[]|e|x|] w' [m Hr]; try done.
  - destruct Hr as (k & Hk & ->). by apply (Hok k m).
  - destruct Hr as [-> Hr]. by apply (Herr e m).
Qed.

Lemma wp_UpdatePeer_upd key ips ka ep psk (Q : Res unit → CWorld → Prop) :
  (∀ k ip net m, ParseKey key = inr k → ParseCIDR ips = inr (ip, net) →
    Q (Ok tt) (upd i c (<[k := mkWgPeer
               (match psk with Some p => Some p | None => d !! k ≫= WgPeer_PresharedKey end)
               (Some ep) (Some ka) [net]]> d) s m w)) →
  (∀ e m, Q (Err e) (upd i c d s m w)) → wp (UpdatePeer key ips ka ep psk) Q (upd i c d s n w).
Proof.
  intros Hok Herr. eapply wp_mono; [apply UpdatePeer_spec|]. intros [[]|e|x|] w' [m Hr]; try done.
  - destruct Hr as (k & ip & net & Hk & Hc & ->). by apply (Hok k ip net m).
  - subst w'. apply (Herr e m).
Qed.

Lemma wp_signal_send_upd msg (Q : Res unit → CWorld → Prop) :
  (∀ m, Q (Ok tt) (upd i c d (s ++ [msg]) m w)) → (∀ e m, Q (Err e) (upd i c d s m w)) →
  wp (signal_send msg) Q (upd i c d s n w).
Proof.
  intros Hok Herr. unfold signal_send. wp_step. apply wp_ext_upd; intros; simpl; [|by apply Herr].
  wp_step. apply Hok.
Qed.
End upd_iface.

(** One step on a world of the form [upd i c d s n w]. *)
Ltac c_step :=
  lazymatch goal with
  | |- wp (get_conn _) _ (upd _ _ _ _ _ _) => apply wp_get_conn_upd
  | |- wp (mod_conn _ _) _ (upd _ _ _ _ _ _) => apply wp_mod_conn_upd
  | |- wp (ext _) _ (upd _ _ _ _ _ _) => apply wp_ext_upd; [intros ? ?|intros ? ? ?]
  | |- wp (ext_val _) _ (upd _ _ _ _ _ _) => apply wp_ext_val_upd; intros ? ? ?
  | |- wp cl_tick _ (upd _ _ _ _ _ _) => apply wp_cl_tick_upd
  | |- wp (RemovePeer _) _ (upd _ _ _ _ _ _) => apply wp_RemovePeer_upd; [intros ? ? ?|intros ? ? ?]
  | |- wp (UpdatePeer _ _ _ _ _) _ (upd _ _ _ _ _ _) => apply wp_UpdatePeer_upd; [intros ? ? ? ? ? ?|intros ? ?]
  | |- wp (signal_send _) _ (upd _ _ _ _ _ _) => apply wp_signal_send_upd; [intros ?|intros ? ?]
  | |- wp (when true _) _ _ => unfold when
  | |- wp (when false _) _ _ => unfold when
  | _ => wp_step
  end; simpl.
Ltac c_go := repeat c_step.

(* ------------------------------------------------------------------ *)
(** ** Specifications *)

Definition Proxy_config (p : Proxy) : ProxyConfig :=
  match p with NoProxy config | WireguardProxy config _ _ => config end.

(** The same connection: configuration and handlers. *)
Definition ident (c c' : Conn) : Prop :=
  Conn_config c' = Conn_config c ∧ Conn_signal c' = Conn_signal c.

#[export] Instance ident_preorder : PreOrder ident.
Proof. split; [done|]. intros c1 c2 c3 [? ?] [? ?]. split; congruence. Qed.

(** What always holds of a connection the engine has set up: where [Open]
    uses the agent there is one, once it has dialled its context can be
    cancelled, and the proxy is the connection's own. *)
Definition needs_agent (p : Phase) : bool :=
  match p with PhWait | PhConfirmed _ _ | PhDial _ => true | _ => false end.
Definition has_dialled (p : Phase) : bool :=
  match p with PhDial _ | PhConnected | PhClosed true => true | _ => false end.
Record conn_wf (c : Conn) : Prop := {
  cw_signal : is_Some (Conn_signal c);
  cw_agent : needs_agent (Conn_phase c) = true → is_Some (Conn_agent c);
  cw_proxy : ∀ p, Conn_proxy c = Some p → Proxy_config p = ConnC_ProxyConfig (Conn_config c);
  cw_notify : has_dialled (Conn_phase c) = true → Conn_notify c = true }.

(** What holds of the fields at each place of [Open], when closing works. *)
Definition phase_ok (c : Conn) : Prop :=
  match Conn_phase c with
  | PhIdle | PhGone => Conn_agent c = None ∧ Conn_status c = StatusDisconnected ∧
      Conn_proxy c = None ∧ Conn_notify c = false
  | PhWait | PhConfirmed _ _ | PhClosed false =>
      Conn_status c = StatusDisconnected ∧ Conn_proxy c = None ∧ Conn_notify c = false
  | PhDial _ => Conn_status c = StatusConnecting ∧ Conn_proxy c = None ∧ Conn_notify c = true
  | PhConnected | PhClosed true =>
      Conn_status c = StatusConnected ∧ is_Some (Conn_proxy c) ∧ Conn_notify c = true
  end.

Section specs.
Context `{WgCtrlLaws} `{Crypto} `{Ice} `{Net} `{SignalAPI}.
Context (i : nat) (w : CWorld).

Definition remote_key (c : Conn) : string := PxC_RemoteKey (ConnC_ProxyConfig (Conn_config c)).

(** Closing agents, sockets and device peers of [c] works. *)
Definition closes_work (c : Conn) : Prop :=
  (∀ t, ice_Close t = None) ∧ (∀ t, net_Close t = None) ∧ device_works ∧
  ∃ k, ParseKey (remote_key c) = inr k.

(** Only the peer of [c] may change on the device. *)
Definition own_peer_only (c : Conn) (d d' : WgPeers) : Prop :=
  ∀ k, ParseKey (remote_key c) ≠ inr k → d' !! k = d !! k.

Lemma own_peer_refl c d : own_peer_only c d d.
Proof. done. Qed.
Lemma own_peer_delete c d k : ParseKey (remote_key c) = inr k → own_peer_only c d (delete k d).
Proof. intros Hk k' Hne. rewrite lookup_delete_ne; [done|]. congruence. Qed.
Lemma own_peer_insert c d k p : ParseKey (remote_key c) = inr k → own_peer_only c d (<[k := p]> d).
Proof. intros Hk k' Hne. rewrite lookup_insert_ne; [done|]. congruence. Qed.
Hint Resolve own_peer_refl own_peer_delete own_peer_insert : core.

Lemma Proxy_Close_spec c p d s n :
  Conn_proxy c = Some p → Proxy_config p = ConnC_ProxyConfig (Conn_config c) →
  wp (Proxy_Close i p) (λ r w', ∃ c' d' m, w' = upd i c' d' s m w ∧
    (∃ p', c' = set_Conn_proxy (Some p') c ∧ Proxy_config p' = Proxy_config p) ∧
    match r with
    | Ok _ => ∃ k, ParseKey (remote_key c) = inr k ∧ d' = delete k d
    | Err _ => d' = d ∧ ¬ closes_work c
    | _ => False
    end) (upd i c d s n w).
Proof.
  intros Hp Hcfg. unfold closes_work, remote_key. rewrite <-Hcfg.
  destruct p as [cfg|cfg can loc]; simpl.
  - unfold NoProxy_Close. c_step.
    + eexists _, _, _. split; [done|]. split; [|by exists k]. exists (NoProxy cfg). split; [|done].
      destruct c; simpl in *; by subst.
    + eexists _, _, _. split; [done|]. split; [|split; [done|tauto]]. exists (NoProxy cfg). split; [|done].
      destruct c; simpl in *; by subst.
  - unfold WireguardProxy_Close. c_step. c_step.
    assert (∀ n', wp (RemovePeer (PxC_RemoteKey cfg)) (λ r w', ∃ c' d' m, w' = upd i c' d' s m w ∧
      (∃ p', c' = set_Conn_proxy (Some p') c ∧ Proxy_config p' = cfg) ∧
      match r with
      | Ok _ => ∃ k, ParseKey (PxC_RemoteKey cfg) = inr k ∧ d' = delete k d
      | Err _ => d' = d ∧ ¬ ((∀ t, ice_Close t = None) ∧ (∀ t, net_Close t = None) ∧ device_works ∧
          ∃ k, ParseKey (PxC_RemoteKey cfg) = inr k)
      | _ => False
      end) (upd i (set_Conn_proxy (Some (WireguardProxy cfg true loc)) c) d s n' w)) as Hrem.
    { intros n'. c_step; eexists _, _, _; (split; [done|]); (split; [by eexists|]); [by exists k|split; [done|tauto]]. }
    destruct loc; simpl; c_step; [c_step; [apply Hrem|]|c_step; apply Hrem].
    eexists _, _, _. split; [done|]. split; [by eexists|]. split; [done|].
    intros (_ & Hn & _). by rewrite Hn in *.
Qed.

(** [cleanup] leaves nothing behind, or stops at what cannot be closed, with
    the status and the peer on the device as they were. *)
Definition cleaned (c : Conn) (d : WgPeers) (c' : Conn) (d' : WgPeers) (r : Res unit) : Prop :=
  ident c c' ∧ Conn_phase c' = Conn_phase c ∧
  (∀ p, Conn_proxy c' = Some p → Proxy_config p = ConnC_ProxyConfig (Conn_config c)) ∧
  match r with
  | Ok _ => Conn_agent c' = None ∧ Conn_proxy c' = None ∧ Conn_status c' = StatusDisconnected ∧
      Conn_notify c' = false ∧
      (Conn_proxy c = None ∧ d' = d ∨
       is_Some (Conn_proxy c) ∧ ∃ k, ParseKey (remote_key c) = inr k ∧ d' = delete k d)
  | Err _ => ¬ closes_work c ∧ Conn_status c' = Conn_status c ∧ d' = d
  | _ => False
  end.

Lemma wp_notify_tail c d s n (Q : Res unit → CWorld → Prop) :
  (∀ ctx, Q (Ok tt) (upd i (set_Conn_status StatusDisconnected (set_Conn_ctx ctx false c)) d s n w)) →
  wp (_ ← (if Conn_notify c
           then mod_conn i (λ c, set_Conn_ctx (Conn_ctxDone (cancel_ctx c)) false c)
           else mret tt);
      mod_conn i (set_Conn_status StatusDisconnected)) Q (upd i c d s n w).
Proof.
  intros HQ. wp_step. destruct (Conn_notify c) eqn:Hn.
  - c_step. c_step. apply HQ.
  - wp_step. c_step. specialize (HQ (Conn_ctxDone c)). rewrite <-Hn in HQ. by destruct c.
Qed.

Lemma cleanup_tail c d s n :
  conn_wf c →
  wp (_ ← match Conn_proxy c with
          | Some p => _ ← Proxy_Close i p; mod_conn i (set_Conn_proxy None)
          | None => mret tt
          end;
      _ ← (if Conn_notify c
           then mod_conn i (λ c, set_Conn_ctx (Conn_ctxDone (cancel_ctx c)) false c)
           else mret tt);
      mod_conn i (set_Conn_status StatusDisconnected))
    (λ r w', ∃ c' d' m, w' = upd i c' d' s m w ∧ cleaned c d c' d' r) (upd i (set_Conn_agent None c) d s n w).
Proof.
  intros Hwf. wp_step. destruct (Conn_proxy c) as [p|] eqn:Hp.
  - wp_step. eapply wp_mono.
    { apply (Proxy_Close_spec (set_Conn_agent None c) p d s n Hp), (cw_proxy c Hwf p Hp). }
    intros r w' (c' & d' & m & -> & (p' & -> & Hp') & Hr). destruct r as [[]|e|x|]; simpl; try done.
    + destruct Hr as (k & Hk & ->). c_step.
      apply (wp_notify_tail (set_Conn_proxy None (set_Conn_proxy (Some p') (set_Conn_agent None c)))). intros ctx.
      eexists _, _, _. split; [done|]. unfold cleaned. rewrite Hp. split; [done|]. split; [done|]. split; [done|].
      split_and!; try done. right. split; [by eexists|]. by exists k.
    + destruct Hr as [-> Hr]. eexists _, _, _. split; [done|]. unfold cleaned. split; [done|]. split; [done|].
      split; [|done]. intros q [= <-]. rewrite Hp'. apply (cw_proxy c Hwf p Hp).
  - wp_step. apply (wp_notify_tail (set_Conn_agent None c)). intros ctx.
    eexists _, _, _. split; [done|]. unfold cleaned. rewrite Hp. split; [done|]. split; [done|].
    split; [simpl; by rewrite Hp|]. split_and!; try done. by left.
Qed.

Lemma cleanup_spec c d s n :
  conn_wf c →
  wp (cleanup i) (λ r w', ∃ c' d' m, w' = upd i c' d' s m w ∧ cleaned c d c' d' r) (upd i c d s n w).
Proof.
  intros Hwf. unfold cleanup. c_step. c_step. wp_step. destruct (Conn_agent c) as [a|] eqn:Ha.
  - c_step. c_step; [c_step; by apply cleanup_tail|].
    eexists _, _, _. split; [done|]. split; [done|]. split; [done|]. split; [apply (cw_proxy c Hwf)|].
    split; [|done]. intros (Hc & _). congruence.
  - wp_step. assert (set_Conn_agent None c = c) as Hc by (rewrite <-Ha; by destruct c).
    pose proof (cleanup_tail c d s n Hwf) as Ht. rewrite Hc in Ht. exact Ht.
Qed.
(** What a return from [Open] leaves of a connection. *)
Definition returned (c : Conn) (d : WgPeers) (c' : Conn) (d' : WgPeers) : Prop :=
  ident c c' ∧ conn_wf c' ∧ Conn_phase c' = PhIdle ∧ own_peer_only c d d' ∧
  (Conn_proxy c = None → d' = d) ∧
  (closes_work c → phase_ok c' ∧
    ∀ k, is_Some (Conn_proxy c) → ParseKey (remote_key c) = inr k → d' !! k = None).

Lemma open_return_spec dialled err c d s n :
  conn_wf c →
  wp (open_return i dialled err) (λ r w', r = Ok (Some err) ∧
    ∃ c' d' m, w' = upd i c' d' s m w ∧ returned c d c' d') (upd i c d s n w).
Proof.
  intros Hwf. unfold open_return. wp_step.
  assert (∀ c1, c1 = c ∨ c1 = cancel_ctx c →
    wp (_ ← try (cleanup i); _ ← mod_conn i (set_Conn_phase PhIdle); mret (Some err))
      (λ r w', r = Ok (Some err) ∧ ∃ c' d' m, w' = upd i c' d' s m w ∧ returned c d c' d')
      (upd i c1 d s n w)) as Hrest.
  { intros c1 Hc1. assert (conn_wf c1) as Hwf1 by (destruct Hc1 as [-> | ->]; [done|]; by destruct Hwf).
    wp_step. wp_step. eapply wp_mono; [by apply cleanup_spec|].
    intros r w' (c2 & d2 & m & -> & Hid & Hph & Hpx & Hr).
    assert (ident c c2) as Hid' by (by destruct Hc1 as [-> | ->]).
    assert (Conn_proxy c1 = Conn_proxy c ∧ Conn_config c1 = Conn_config c) as [Epx Ecfg]
      by (by destruct Hc1 as [-> | ->]).
    unfold closes_work, remote_key in Hr. rewrite Epx, Ecfg in Hr. rewrite Ecfg in Hpx.
    assert (conn_wf (set_Conn_phase PhIdle c2)) as Hwf2.
    { destruct Hid' as [Ec Es]. split; simpl; [rewrite Es; apply Hwf|done| |done]. intros p Hp. rewrite Ec. by apply Hpx. }
    destruct r as [[]|e|x|]; simpl; try done.
    - destruct Hr as (Ha & Hp & Hst & Hn & Hd). c_step. c_step. c_step. split; [done|].
      eexists _, _, _. split; [done|]. split; [done|]. split; [done|]. split; [done|]. split_and!.
      + destruct Hd as [[_ ->]|(_ & k & Hk & ->)]; auto.
      + intros Hnone. destruct Hd as [[_ ->]|[[? ?] _]]; [done|congruence].
      + intros _. split; [done|]. intros k [p' Hp'] Hk.
        destruct Hd as [[? _]|(_ & k' & Hk' & ->)]; [congruence|].
        assert (k' = k) as -> by (unfold remote_key in Hk; congruence). apply lookup_delete_eq.
    - destruct Hr as (Hncl & Hst & ->). c_step. c_step. c_step. split; [done|].
      eexists _, _, _. split; [done|]. split; [done|]. split; [done|]. split; [done|]. split; [done|].
      split; [done|]. intros Hcl. by destruct Hncl. }
  destruct dialled; [c_step; c_step; apply Hrest; by right|].
  c_step. wp_step. apply Hrest. by left.
Qed.

(** A part of [Open] that has been carried out: it has got to [next], or has
    returned; the connection is well-formed, and if closing works its fields
    fit the place where it stands. *)
Definition part_post (next : Phase) (c : Conn) (d : WgPeers) (r : Res (option ConnError)) (w' : CWorld) : Prop :=
  ∃ o c' d' s' m, r = Ok o ∧ w' = upd i c' d' s' m w ∧ ident c c' ∧ conn_wf c' ∧
    Conn_phase c' = (match o with None => next | Some _ => PhIdle end) ∧
    own_peer_only c d d' ∧ (closes_work c → phase_ok c → phase_ok c').

Lemma returned_part next c d c1 d1 s err m c' d' :
  ident c c1 → own_peer_only c d d1 → returned c1 d1 c' d' →
  part_post next c d (Ok (Some err)) (upd i c' d' s m w).
Proof.
  intros [Ec Es] Hd (Hid & Hwf & Hph & Hd' & _ & Hok).
  exists (Some err), c', d', s, m. split; [done|]. split; [done|].
  assert (ident c c') as Hid' by (etransitivity; [by split|done]). split; [done|]. split; [done|].
  split; [done|]. unfold own_peer_only, closes_work, remote_key in *. rewrite Ec in *.
  split; [intros k Hk; by rewrite Hd', Hd|]. intros Hcl _. by apply Hok.
Qed.

Lemma reCreateAgent_spec c d s n :
  wp (reCreateAgent i) (λ r w', ∃ a m, w' = upd i (set_Conn_agent a c) d s m w ∧
    match r with Ok _ => is_Some a | Err _ => True | _ => False end) (upd i c d s n w).
Proof.
  unfold reCreateAgent. c_step. c_step. c_step. c_step. destruct (ice_NewAgent _ _) as [e|].
  - c_go. by exists None, (S n).
  - c_go; by eexists (Some _), _.
Qed.

Lemma send_credentials_spec b c d s n :
  is_Some (Conn_agent c) → is_Some (Conn_signal c) →
  wp (send_credentials i b) (λ r w', ∃ s' m, w' = upd i c d s' m w ∧
    match r with
    | Ok _ => ∃ keys creds, Conn_signal c = Some keys ∧
        s' = s ++ [MarshalCredential keys.1 keys.2 creds (if b then Body_ANSWER else Body_OFFER)]
    | Err _ => s' = s
    | _ => False
    end) (upd i c d s n w).
Proof.
  intros [a Ha] [keys Hk]. unfold send_credentials. c_step. c_step. rewrite Ha, Hk. unfold signalAuth, deref. c_go;
    eexists _, _; (split; [done|]); [|done..]. exists keys. by eexists (mkCredential _ _).
Qed.

Lemma open_begin_spec c d s n :
  conn_wf c → Conn_phase c = PhIdle →
  wp (open_begin i) (part_post PhWait c d) (upd i c d s n w).
Proof.
  intros Hwf Hph. unfold open_begin, open_part. wp_step. wp_step. wp_step.
  eapply wp_mono; [apply reCreateAgent_spec|]. intros r w1 (a & m & -> & Ha).
  assert (conn_wf (set_Conn_agent a c)) as Hwf1.
  { destruct Hwf. split; simpl; [done| |done|done]. by rewrite Hph. }
  destruct r as [[]|e|x|]; simpl; try done.
  - eapply wp_mono; [apply send_credentials_spec; [done|apply Hwf]|].
    intros r w2 (s' & m2 & -> & Hr). destruct r as [[]|e|x|]; simpl; try done.
    + c_step. c_step. c_step. eexists None, _, _, _, _. split; [done|]. split; [done|]. split; [done|].
      split; [split; [apply Hwf|done|apply Hwf|done]|]. split; [done|]. split; [done|].
      intros _. unfold phase_ok. rewrite Hph. simpl. tauto.
    + eapply wp_mono; [by apply open_return_spec|]. intros r w3 (-> & c' & d' & m' & -> & Hret).
      by eapply (returned_part _ _ _ (set_Conn_agent a c) d).
  - eapply wp_mono; [by apply open_return_spec|]. intros r w3 (-> & c' & d' & m' & -> & Hret).
    by eapply (returned_part _ _ _ (set_Conn_agent a c) d).
Qed.
(** Parts that only return. *)
Lemma open_return_part next dialled err c d s n :
  conn_wf c → wp (open_return i dialled err) (part_post next c d) (upd i c d s n w).
Proof.
  intros Hwf. eapply wp_mono; [by apply open_return_spec|]. intros r w1 (-> & c' & d' & m & -> & Hret).
  by eapply (returned_part _ _ _ c d).
Qed.

Lemma open_confirm_spec creds offer c d s n :
  conn_wf c → Conn_phase c = PhConfirmed creds offer →
  wp (open_confirm i creds offer) (part_post (PhDial creds) c d) (upd i c d s n w).
Proof.
  intros Hwf Hph. pose proof (cw_agent c Hwf) as Ha. rewrite Hph in Ha. specialize (Ha eq_refl).
  assert (∀ s' m, wp (_ ← mod_conn i (λ c, set_Conn_ctx (Some false) true (set_Conn_status StatusConnecting c));
      open_part i true (conn ← get_conn i; _ ← deref (Conn_agent conn); ext ice_Gather) (PhDial creds))
    (part_post (PhDial creds) c d) (upd i c d s' m w)) as Hrest.
  { intros s' m. c_step. c_step. unfold open_part.
    set (c1 := set_Conn_ctx (Some false) true (set_Conn_status StatusConnecting c)).
    assert (conn_wf c1) as Hwf1 by (destruct Hwf; by split).
    destruct Ha as [a Ha]. do 5 c_step. c_step; [|unfold c1 in *; simpl in *; congruence].
    c_step.
    - c_step. c_step. c_step. eexists None, _, _, _, _. split; [done|]. split; [done|]. split; [done|].
      split; [split; [apply Hwf|intros _; by eexists|apply Hwf|done]|]. split; [done|]. split; [done|].
      intros _. unfold phase_ok. rewrite Hph. simpl. tauto.
    - eapply wp_mono; [by apply open_return_spec|]. intros r w3 (-> & c' & d' & m' & -> & Hret).
      by eapply (returned_part _ _ _ c1 d). }
  unfold open_confirm. wp_step. wp_step. destruct offer.
  - eapply wp_mono; [apply send_credentials_spec; [done|apply Hwf]|].
    intros r w1 (s' & m & -> & Hr). destruct r as [[]|e|x|]; simpl; try done.
    by apply open_return_part.
  - wp_step. apply Hrest.
Qed.

(** Nothing but status and proxy changes. *)
Definition proxy_only (c c' : Conn) : Prop :=
  ident c c' ∧ Conn_agent c' = Conn_agent c ∧ Conn_notify c' = Conn_notify c ∧ Conn_phase c' = Conn_phase c.

Lemma startProxy_spec rc c d s n :
  is_Some (Conn_agent c) →
  wp (startProxy i rc) (λ r w', ∃ c' d' m,
    w' = upd i c' d' s m w ∧ proxy_only c c' ∧ own_peer_only c d d' ∧
    (Conn_proxy c' = Conn_proxy c ∨ ∃ p, Conn_proxy c' = Some p ∧ Proxy_config p = ConnC_ProxyConfig (Conn_config c)) ∧
    match r with
    | Ok _ => Conn_status c' = StatusConnected ∧ is_Some (Conn_proxy c') ∧
        ∃ k ip net p, ParseKey (remote_key c) = inr k ∧
          ParseCIDR (PxC_AllowedIps (ConnC_ProxyConfig (Conn_config c))) = inr (ip, net) ∧
          d' !! k = Some p ∧ WgPeer_AllowedIPs p = [net]
    | Err _ => True
    | _ => False
    end) (upd i c d s n w).
Proof.
  intros [a Ha]. unfold startProxy. c_step. c_step. rewrite Ha. simpl. wp_step. wp_step. c_step. c_step.
  2:{ eexists _, _, _. split; [done|]. split; [done|]. split; [done|]. split; [by left|done]. }
  c_step. c_step.
  destruct (shouldUseProxy _); simpl; unfold NoProxy_Start, updateEndpoint, pure_val; c_go.
  all: eexists _, _, _; (split; [done|]); (split; [done|]); (split; [eauto|]);
    (split; [right; by eexists|]); try done.
  all: split; [done|]; split; [by eexists|].
  all: eexists _, _, _, _; (split; [done|]); (split; [done|]); (split; [apply lookup_insert_eq|done]).
Qed.

Lemma open_dialled_spec result c d s n creds :
  conn_wf c → Conn_phase c = PhDial creds →
  wp (open_dialled i result) (λ r w', part_post PhConnected c d r w' ∧
    (r = Ok None → ∃ k ip net p, ParseKey (remote_key c) = inr k ∧
       ParseCIDR (PxC_AllowedIps (ConnC_ProxyConfig (Conn_config c))) = inr (ip, net) ∧
       CW_Wg w' !! k = Some p ∧ WgPeer_AllowedIPs p = [net])) (upd i c d s n w).
Proof.
  intros Hwf Hph. pose proof (cw_agent c Hwf) as Ha. rewrite Hph in Ha. specialize (Ha eq_refl).
  assert (∀ next err c1 d1 m, ident c c1 → conn_wf c1 → own_peer_only c d d1 →
    wp (open_return i true err) (λ r w', part_post next c d r w' ∧ (r = Ok None → ∃ k ip net p,
       ParseKey (remote_key c) = inr k ∧
       ParseCIDR (PxC_AllowedIps (ConnC_ProxyConfig (Conn_config c))) = inr (ip, net) ∧
       CW_Wg w' !! k = Some p ∧ WgPeer_AllowedIPs p = [net])) (upd i c1 d1 s m w)) as Hret.
  { intros next err c1 d1 m Hid Hwf1 Hd1. eapply wp_mono; [by apply open_return_spec|].
    intros r w3 (-> & c' & d' & m' & -> & Hret). split; [|done]. by eapply (returned_part _ _ _ c1 d1). }
  unfold open_dialled, open_part, pure_val. wp_step. wp_step. wp_step. destruct result as [e|rc]; wp_step; [by apply Hret|].
  eapply wp_mono; [by apply startProxy_spec|]. intros r w1 (c1 & d1 & m & -> & (Hid & Eag & En & Eph) & Hd1 & Hpx & Hr).
  assert (∀ p, Conn_proxy c1 = Some p → Proxy_config p = ConnC_ProxyConfig (Conn_config c1)) as Hpx'.
  { intros p Hp. rewrite (proj1 Hid). destruct Hpx as [Hpx|(q & Hq & Hcfg)]; [|congruence].
    apply (cw_proxy c Hwf). congruence. }
  destruct r as [[]|e|x|]; simpl; try done.
  - destruct Hr as (Hst & Hp & Hk). c_step. c_step. c_step. split; [|done].
    eexists None, _, _, _, _. split; [done|]. split; [done|]. split; [done|].
    split; [split; [simpl; rewrite (proj2 Hid); apply Hwf|done|apply Hpx'|]|].
    { intros _. simpl. rewrite En. apply (cw_notify c Hwf). by rewrite Hph. } split; [done|]. split; [done|].
    intros _. unfold phase_ok. rewrite Hph. simpl. rewrite En. intros (_ & _ & ->). done.
  - apply Hret; [done| |done]. split; [rewrite (proj2 Hid); apply Hwf| |apply Hpx'|].
    + rewrite Eph, Eag. apply Hwf.
    + rewrite Eph, En. apply Hwf.
Qed.

Lemma open_timeout_spec c d s n :
  conn_wf c → wp (open_timeout i) (part_post PhWait c d) (upd i c d s n w).
Proof. intros Hwf. unfold open_timeout. c_step. c_step. by apply open_return_part. Qed.

(** The end of an open connection: its peer leaves the device. *)
Lemma open_ends_spec (m : MC (option ConnError)) c d s n :
  conn_wf c → m = open_closed i true ∨ m = open_disconnected i →
  wp m (λ r w', part_post PhWait c d r w' ∧
    (closes_work c → is_Some (Conn_proxy c) → ∀ k, ParseKey (remote_key c) = inr k → CW_Wg w' !! k = None))
    (upd i c d s n w).
Proof.
  intros Hwf Hm.
  assert (∀ err, wp (open_return i true err) (λ r w', part_post PhWait c d r w' ∧
    (closes_work c → is_Some (Conn_proxy c) → ∀ k, ParseKey (remote_key c) = inr k → CW_Wg w' !! k = None))
    (upd i c d s n w)) as Hret.
  { intros err. eapply wp_mono; [by apply open_return_spec|].
    intros r w3 (-> & c' & d' & m' & -> & Hret). split; [by eapply (returned_part _ _ _ c d)|].
    intros Hcl Hp k Hk. destruct Hret as (_ & _ & _ & _ & _ & Hok). by apply Hok. }
  destruct Hm as [-> | ->]; [unfold open_closed|unfold open_disconnected]; c_step; c_step; apply Hret.
Qed.
End specs.

(* ------------------------------------------------------------------ *)
(** ** Properties *)

(** Of the two ends of a connection, whose keys differ, exactly one is the
    controlling one: one dials and the other accepts. *)
Theorem exactly_one_controls a b :
  ConnC_Key a = ConnC_LocalKey b → ConnC_Key b = ConnC_LocalKey a → ConnC_Key a ≠ ConnC_Key b →
  isControlling a = negb (isControlling b).
Proof.
  intros Ha Hb Hne. unfold isControlling. rewrite <-Ha, <-Hb.
  rewrite (String.compare_antisym (ConnC_Key a) (ConnC_Key b)). destruct (String.compare (ConnC_Key b) (ConnC_Key a)) eqn:Hc; simpl; try done.
  by apply String.compare_eq_iff in Hc.
Qed.

(** The two ends of a connection agree whether it needs the proxy: the
    choice does not depend on which candidate is the local one. *)
Theorem proxy_choice_symmetric l r :
  shouldUseProxy (mkPair l r) = shouldUseProxy (mkPair r l).
Proof.
  unfold shouldUseProxy. simpl.
  by destruct (is_host l), (is_host r), (IsPublicIP (Cand_Address l)), (IsPublicIP (Cand_Address r)).
Qed.

Section props.
Context `{WgCtrlLaws} `{Crypto} `{Ice} `{Net} `{SignalAPI}.

Lemma on_remote_run i creds offer c w :
  CW_Conns w !! i = Some c →
  on_remote i creds offer w =
    match Conn_phase c with
    | PhWait => (Ok true, upd i (set_Conn_phase (PhConfirmed creds offer) c) (CW_Wg w) (CW_Sent w) (CW_Tick w) w)
    | _ => (Ok false, w)
    end.
Proof.
  intros Hc. unfold on_remote, get_conn, mod_conn, modify, gets, deref, mbind, M_bind. simpl. rewrite Hc. simpl.
  destruct (Conn_phase c); try done. simpl. do 2 f_equal. unfold upd, set_Conns. destruct w; simpl in *.
  f_equal. apply map_eq. intros j. destruct (decide (j = i)) as [->|Hj].
  - by rewrite lookup_alter_eq, lookup_insert_eq, Hc.
  - by rewrite lookup_alter_ne, lookup_insert_ne by done.
Qed.

(** An offer or an answer is taken exactly when the connection waits for
    one, and then carries [Open] on with the credentials that came; at any
    other time it is discarded and changes nothing. *)
Theorem remote_credentials_taken i creds offer c w :
  CW_Conns w !! i = Some c →
  on_remote i creds offer w =
    match Conn_phase c with
    | PhWait => (Ok true, upd i (set_Conn_phase (PhConfirmed creds offer) c) (CW_Wg w) (CW_Sent w) (CW_Tick w) w)
    | _ => (Ok false, w)
    end.
Proof. apply on_remote_run. Qed.

(** A connection whose agent does not close is not cleaned up: [Open]
    returns, and the status still says connected, with the peer still on the
    device. *)
Theorem failed_close_keeps_peer i c e w :
  CW_Conns w !! i = Some c → conn_wf c → Conn_phase c = PhConnected → is_Some (Conn_agent c) →
  ice_Close (CW_Tick w) = Some e → Conn_status c = StatusConnected →
  wp (open_disconnected i) (λ r w', r = Ok (Some (ConnectionDisconnectedError (ConnC_Key (Conn_config c)))) ∧
    CW_Wg w' = CW_Wg w ∧ ∃ c', CW_Conns w' !! i = Some c' ∧ Conn_phase c' = PhIdle ∧
      Conn_status c' = StatusConnected) w.
Proof.
  intros Hc Hwf Hph [a Ha] Hclose Hst. rewrite (upd_id i c w Hc). unfold open_disconnected, open_return, cleanup, when.
  do 8 c_step. rewrite Ha. c_step. c_step. c_step; [congruence|]. c_go.
  split; [done|]. split; [done|]. eexists. split; [apply lookup_insert_eq|done].
Qed.
End props.

(* ------------------------------------------------------------------ *)
(** ** A concrete connection *)

Definition demo_wgctrl : WgCtrl := {|
  wg_New _ := None; wg_Device _ := None;
  wg_ConfigureDevice _ config d := inr (foldl (λ d p,
      if WPC_Remove p then delete (WPC_PublicKey p) d
      else <[WPC_PublicKey p := apply_peer p (d !! WPC_PublicKey p)]> d)
    (if WC_ReplacePeers config then ∅ else d) (WC_Peers config)) |}.
#[export] Instance demo_wgctrl_laws : @WgCtrlLaws demo_wgctrl.
Proof. by split; intros * [= <-]. Defined.

Definition demo_candidate (b : Z) : Candidate := mkCandidate CandHost [192; 168; 1; b]%Z "candidate".
(** Agents close, or fail to. *)
Definition demo_ice (close : option error) : Ice := {|
  ice_ParseURL s := if decide (s = "") then inl (Plain "missing scheme") else inr (mkIceURL s "" "");
  ice_UnmarshalCandidate _ := inr (demo_candidate 9);
  ice_NewAgent _ _ := None; ice_On _ := None;
  ice_LocalCredentials _ := inr ("ufrag", "pwd");
  ice_Gather _ := None;
  ice_SelectedPair _ := inr (mkPair (demo_candidate 1) (demo_candidate 2));
  ice_AddRemote _ := None; ice_Close _ := close |}.
Definition demo_net : Net := {|
  net_Dial _ := inr (mkUDPAddr [127; 0; 0; 1]%Z 40000); net_Close _ := None; net_ListenUDP _ := None;
  net_CreateIface _ := None; net_CloseIface _ := None |}.
Definition demo_signal : SignalAPI := {| signal_Send _ _ := None; signal_Ready _ := true |}.

Definition demo_engine_config : EngineConfig := mkEngineConfig 51820 "wt0" "100.64.0.1/16" [97]%Z ∅ None 0 0.
Definition demo_engine : Engine := mkEngine demo_engine_config ∅ [] [] 0 (Some true) (Some true) (Some true) (Some true) (Some true).
Definition demo_conn_config (remote loc : string) : ConnConfig :=
  mkConnConfig remote loc [] [] 30000 (mkProxyConfig "127.0.0.1:51820" remote "100.64.0.2/32" None).

(** A connection of [a] that is open to [b]. *)
Definition demo_open_conn : Conn :=
  mkConn (demo_conn_config "b" "a") (Some ([97]%Z, [98]%Z)) (Some 0) StatusConnected
    (Some (NoProxy (ConnC_ProxyConfig (demo_conn_config "b" "a")))) (Some false) true PhConnected.
Definition demo_wg_peer : WgPeer :=
  mkWgPeer None (Some (mkUDPAddr [192; 168; 1; 2]%Z 51820)) (Some DefaultWgKeepAlive)
    [mkIPNet [100; 64; 0; 2]%Z [255; 255; 255; 255]%Z].
Definition demo_open_world : CWorld :=
  mkCWorld demo_engine {[ 0 := demo_open_conn ]} 1 {[ [98]%Z := demo_wg_peer ]} [] 0.

Lemma demo_open_wf : conn_wf demo_open_conn.
Proof. split; [by eexists|done|by intros p [= <-]|done]. Defined.

Lemma exactly_one_controls_witness :
  isControlling (demo_conn_config "b" "a") = false ∧ isControlling (demo_conn_config "a" "b") = true.
Proof.
  assert (isControlling (demo_conn_config "a" "b") = negb (isControlling (demo_conn_config "b" "a"))) as Hc
    by (apply exactly_one_controls; done).
  split; [reflexivity|]. exact (eq_trans Hc eq_refl).
Defined.

Lemma remote_credentials_taken_witness :
  let creds := mkIceCreds "u" "p" in
  on_remote 0 creds true demo_open_world = (Ok false, demo_open_world).
Proof. exact (remote_credentials_taken 0 (mkIceCreds "u" "p") true demo_open_conn demo_open_world eq_refl). Defined.

Lemma failed_close_keeps_peer_witness :
  let run := @open_disconnected demo_wgctrl demo_crypto (demo_ice (Some (Plain "closed"))) demo_net 0 demo_open_world in
  run.1 = Ok (Some (ConnectionDisconnectedError "b")) ∧ CW_Wg run.2 = {[ [98]%Z := demo_wg_peer ]}.
Proof.
  destruct (@failed_close_keeps_peer demo_wgctrl demo_crypto (demo_ice (Some (Plain "closed"))) demo_net
    0 demo_open_conn (Plain "closed") demo_open_world eq_refl demo_open_wf eq_refl ltac:(by eexists) eq_refl eq_refl)
    as (Hr & Hwg & _).
  split; [exact Hr|exact Hwg].
Defined.
