(* ===== verification/Engine.v ===== *)
(** * Engine: the client's engine (client/internal/engine.go)

    The engine applies the network maps of the management service: it keeps a
    connection for each peer of the map, each with a worker that opens it over
    and over, and routes the messages of the signal exchange to them.  Calls,
    workers and callbacks interleave: a step relation over the operations
    here and the parts of [PeerConn.open]. *)

From S2P Require Import Prelude GoLib Model Encryption Util Signal SignalClient ClientModel WgIface PeerConn.

Definition PeerConnectionTimeoutMax : Z := 45000.
Definition PeerConnectionTimeoutMin : Z := 30000.

(** error.go: the text of the errors; a duration is formatted by [dur]. *)
Definition ConnError_Error (dur : Z → string) (e : ConnError) : error :=
  match e with
  | ConnectionTimeoutError peer timeout =>
      Plain ("connection to peer " +:+ peer +:+ " timed out after " +:+ dur timeout)
  | ConnectionClosedError peer => Plain ("connection to peer " +:+ peer +:+ " has been closed")
  | ConnectionDisconnectedError peer => Plain ("disconnected from peer " +:+ peer)
  | ConnectionAlreadyClosedError peer => Plain ("connection to peer " +:+ peer +:+ " has been already closed")
  | OtherError e => e
  end.

(** [time.Duration.String] *)
Class DurationText := { Duration_String : Z → string }.

Section engine.
Context `{Runtime} `{WgCtrl} `{Crypto} `{Ice} `{Net} `{SignalAPI} `{DurationText}.

(** A map of the engine, in the order of an iteration. *)
Definition cl_range {A} (m : gmap string A) : MC (list (string * A)) :=
  t ← cl_tick; mret (rt_range A t m).

(* ------------------------------------------------------------------ *)
(** ** Removing peers *)

Definition removePeer (peerKey : string) : MC unit :=
  e ← engine;
  match E_peerConns e !! peerKey with
  | None => mret tt
  | Some conn =>
      _ ← mod_engine (λ e, set_peerConns (delete peerKey (E_peerConns e)) e);
      r ← Conn_Close conn;
      match r with
      | None => mret tt
      | Some (ConnectionAlreadyClosedError _) => mret tt
      | Some err => fail (ConnError_Error Duration_String err)
      end
  end.

Definition removePeers (peersUpdate : list RemotePeerConfig) : MC unit :=
  e ← engine;
  currentPeers ← cl_range (E_peerConns e);
  let newPeers := RPC_WgPubKey <$> peersUpdate in
  let toRemove := SliceDiff currentPeers.*1 newPeers in
  for_each toRemove removePeer.

Definition removeAllPeers : MC unit :=
  e ← engine;
  peers ← cl_range (E_peerConns e);
  for_each peers.*1 removePeer.

(* ------------------------------------------------------------------ *)
(** ** Adding peers *)

(** The handlers of the connection are closures over our key and the peer's. *)
Definition createPeerConn (pubKey allowedIPs : string) : MC nat :=
  e ← engine;
  let config := E_config e in
  interfaceBlacklist ← cl_range (EC_IFaceBlackList config);
  let proxyConfig := mkProxyConfig ("127.0.0.1:" +:+ Itoa (EC_WgPort config)) pubKey allowedIPs
                       (EC_PreSharedKey config) in
  t ← cl_tick;
  let timeout := ((Z.of_nat (rt_intn t (Z.to_nat (PeerConnectionTimeoutMax - PeerConnectionTimeoutMin)))
                    + PeerConnectionTimeoutMin) * 1000000)%Z in
  let peerConn := NewConn (mkConnConfig pubKey (Key_String (PublicKey (EC_WgPrivateKey config)))
                    (E_STUNs e ++ E_TURNs e) interfaceBlacklist.*1 timeout proxyConfig) in
  wgPubKey ← pure_val (ParseKey pubKey);
  i ← gets CW_Next;
  _ ← modify (λ w, set_Next (S i) (set_Conns
        (<[i := set_Conn_signal (Some (EC_WgPrivateKey config, wgPubKey)) peerConn]> (CW_Conns w)) w));
  mret i.

(** [strings.Join(peerIPs, sep)] with a comma. *)
Definition addNewPeers (peersUpdate : list RemotePeerConfig) : MC unit :=
  for_each peersUpdate (λ p,
    let peerKey := RPC_WgPubKey p in
    e ← engine;
    match E_peerConns e !! peerKey with
    | Some _ => mret tt
    | None =>
        conn ← createPeerConn peerKey (Join (RPC_AllowedIps p) ",");
        mod_engine (λ e, set_peerConns (<[peerKey := conn]> (E_peerConns e)) e)
    end).

Definition updateNetworkMap (networkMap : PbNetworkMap) : MC unit :=
  let serial := PbNM_Serial networkMap in
  e ← engine;
  if (serial <? E_networkSerial e)%Z then mret tt
  else
    _ ← (if PbNM_RemotePeersIsEmpty networkMap then removeAllPeers
         else _ ← removePeers (PbNM_RemotePeers networkMap);
              addNewPeers (PbNM_RemotePeers networkMap));
    mod_engine (set_networkSerial serial).

(* ------------------------------------------------------------------ *)
(** ** Updates of the management service *)

Definition updateSTUNs (stuns : list HostConfig) : MC unit :=
  match stuns with
  | [] => mret tt
  | _ =>
      newSTUNs ← map_each stuns (λ stun, pure_val (ice_ParseURL (HostConfig_Uri stun)));
      mod_engine (set_STUNs newSTUNs)
  end.

Definition updateTURNs (turns : list ProtectedHostConfig) : MC unit :=
  match turns with
  | [] => mret tt
  | _ =>
      newTURNs ← map_each turns (λ turn,
        url ← pure_val (ice_ParseURL (HostConfig_Uri (PHC_HostConfig turn)));
        mret (mkIceURL (IceURL_Text url) (PHC_User turn) (PHC_Password turn)));
      mod_engine (set_TURNs newTURNs)
  end.

Definition handleSync (update : SyncResponse) : MC unit :=
  _ ← match SR_WiretrusteeConfig update with
      | Some c => _ ← updateTURNs (WC_Turns c); updateSTUNs (WC_Stuns c)
      | None => mret tt
      end;
  match SR_NetworkMap update with
  | Some networkMap => updateNetworkMap networkMap
  | None => mret tt
  end.

(* ------------------------------------------------------------------ *)
(** ** Queries *)

(** [None] is the status -1 of a peer that is not known. *)
Definition GetPeerConnectionStatus (peerKey : string) : MC (option ConnStatus) :=
  e ← engine;
  match E_peerConns e !! peerKey with
  | Some conn => s ← Conn_Status conn; mret (Some s)
  | None => mret None
  end.

Definition GetPeers : MC (list string) :=
  e ← engine;
  peers ← cl_range (E_peerConns e);
  mret peers.*1.

Definition GetConnectedPeers : MC (list string) :=
  e ← engine;
  peers ← cl_range (E_peerConns e);
  l ← map_each peers (λ p, s ← Conn_Status p.2; mret (p.1, s));
  mret (filter (λ p, p.2 = StatusConnected) l).*1.

Definition peerExists (peerKey : string) : MC bool :=
  e ← engine; mret (bool_decide (is_Some (E_peerConns e !! peerKey))).

(* ------------------------------------------------------------------ *)
(** ** Workers and messages *)

(** A turn of [connWorker], up to where [Open] waits. *)
Definition connWorker_turn (conn : nat) (peerKey : string) : MC unit :=
  exist ← peerExists peerKey;
  if (exist : bool) then
    t ← cl_tick;
    if signal_Ready t then (_ ← open_begin conn; mret tt) else mret tt
  else mod_conn conn (set_Conn_phase PhGone).

(** The handler of [receiveSignalEvents]; a nil message or body panics. *)
Definition signal_handler (msg : option SigMessage) : MC unit :=
  msg ← deref msg;
  e ← engine;
  match E_peerConns e !! SigMsg_Key msg with
  | None => fail (Plain ("wrongly addressed message " +:+ SigMsg_Key msg))
  | Some conn =>
      body ← deref (SigMsg_Body msg);
      if decide (Body_Type body = Body_OFFER) then
        remoteCred ← UnMarshalCredential msg;
        _ ← OnRemoteOffer conn (mkIceCreds (Cred_UFrag remoteCred) (Cred_Pwd remoteCred));
        mret tt
      else if decide (Body_Type body = Body_ANSWER) then
        remoteCred ← UnMarshalCredential msg;
        _ ← OnRemoteAnswer conn (mkIceCreds (Cred_UFrag remoteCred) (Cred_Pwd remoteCred));
        mret tt
      else if decide (Body_Type body = Body_CANDIDATE) then
        candidate ← pure_val (ice_UnmarshalCandidate (Body_Payload body));
        OnRemoteCandidate conn candidate
      else mret tt
  end.

(* ------------------------------------------------------------------ *)
(** ** Start and Stop *)

(** Up to the two goroutines that receive events. *)
Definition Start : MC unit :=
  e ← engine;
  let config := E_config e in
  _ ← NewWGIface (EC_WgIfaceName config) (EC_WgAddr config) DefaultMTU;
  _ ← ext net_ListenUDP;
  _ ← mod_engine (set_udpMuxConn (Some true));
  _ ← ext net_ListenUDP;
  _ ← mod_engine (set_udpMuxConnSrflx (Some true));
  _ ← mod_engine (λ e, set_udpMux (Some true) (set_udpMuxSrflx (Some true) e));
  _ ← ext net_CreateIface;
  _ ← mod_engine (set_iface (Some true));
  Configure (Key_String (EC_WgPrivateKey config)) (EC_WgPort config).

(** Closing a mux or a socket; its error is logged. *)
Definition close_logged (get : Engine → option bool) (set : option bool → Engine → Engine) : MC unit :=
  e ← engine;
  match get e with
  | None => mret tt
  | Some _ =>
      r ← try (ext net_Close);
      match r with inr _ => mod_engine (set (Some false)) | inl _ => mret tt end
  end.

Definition Stop : MC unit :=
  _ ← removeAllPeers;
  e ← engine;
  _ ← match E_iface e with
      | Some _ => _ ← ext net_CloseIface; mod_engine (set_iface (Some false))
      | None => mret tt
      end;
  _ ← close_logged E_udpMux set_udpMux;
  _ ← close_logged E_udpMuxSrflx set_udpMuxSrflx;
  _ ← close_logged E_udpMuxConn set_udpMuxConn;
  close_logged E_udpMuxConnSrflx set_udpMuxConnSrflx.
End engine.

(* ------------------------------------------------------------------ *)
(** ** Invariant *)

Abbreviation peerConns w := (E_peerConns (CW_Engine w)).

Section spec.
Context `{Runtime} `{WgCtrlLaws} `{Crypto} `{Ice} `{Net} `{SignalAPI} `{DurationText}.
Implicit Types w : CWorld.

(** The map leads from each key to a connection for that key, whose worker has
    not ended; every connection ever made is well-formed. *)
Record eng_inv w : Prop := {
  ei_conn : ∀ key i, peerConns w !! key = Some i →
    ∃ c, CW_Conns w !! i = Some c ∧ ConnC_Key (Conn_config c) = key ∧ Conn_phase c ≠ PhGone;
  ei_wf : ∀ i c, CW_Conns w !! i = Some c → i < CW_Next w ∧ conn_wf c ∧
    remote_key c = ConnC_Key (Conn_config c) ∧ ∃ k, ParseKey (ConnC_Key (Conn_config c)) = inr k }.

Lemma ei_inj w key key' i :
  eng_inv w → peerConns w !! key = Some i → peerConns w !! key' = Some i → key = key'.
Proof.
  intros Hi Ha Hb. destruct (ei_conn w Hi _ _ Ha) as (c & Hc & <- & _).
  destruct (ei_conn w Hi _ _ Hb) as (c' & Hc' & <- & _). congruence.
Qed.

(* ------------------------------------------------------------------ *)
(** ** Removing peers *)

(** What [Close] does to a connection. *)
Definition closing (c : Conn) : Conn :=
  match Conn_phase c with
  | PhWait => set_Conn_phase (PhClosed false) c
  | PhConnected => set_Conn_phase (PhClosed true) c
  | _ => c
  end.

Lemma closing_wf c : conn_wf c → conn_wf (closing c).
Proof.
  intros Hwf. unfold closing. destruct (Conn_phase c) eqn:Hph; try done.
  - split; [apply Hwf|done|apply Hwf|done].
  - split; [apply Hwf|done|apply Hwf|]. intros _. apply (cw_notify c Hwf). by rewrite Hph.
Qed.

Lemma closing_config c : Conn_config (closing c) = Conn_config c.
Proof. unfold closing. by destruct (Conn_phase c). Qed.
Lemma closing_gone c : Conn_phase c ≠ PhGone → Conn_phase (closing c) ≠ PhGone.
Proof. unfold closing. destruct (Conn_phase c) eqn:Hph; simpl; congruence. Qed.

(** [Close] never fails other than by finding the connection not open. *)
Lemma Conn_Close_spec i c w :
  CW_Conns w !! i = Some c →
  wp (Conn_Close i) (λ r w', w' = set_Conns (alter closing i (CW_Conns w)) w ∧
    (r = Ok None ∨ r = Ok (Some (ConnectionAlreadyClosedError (ConnC_Key (Conn_config c)))))) w.
Proof.
  intros Hc. unfold Conn_Close. wp_step. eapply wp_get_conn; [done|]. simpl.
  assert (∀ c', closing c = c' → w = set_Conns (<[i := c]> (CW_Conns w)) w) as Hid.
  { intros _ _. destruct w; unfold set_Conns; simpl in *. by rewrite insert_id. }
  assert (∀ c', closing c = c' → set_Conns (alter closing i (CW_Conns w)) w = set_Conns (<[i := c']> (CW_Conns w)) w) as Halt.
  { intros c' <-. unfold set_Conns. f_equal. apply map_eq. intros j. destruct (decide (j = i)) as [->|Hj].
    - by rewrite lookup_alter_eq, lookup_insert_eq, Hc.
    - by rewrite lookup_alter_ne, lookup_insert_ne by done. }
  assert (∀ f, f c = closing c → set_Conns (alter f i (CW_Conns w)) w = set_Conns (alter closing i (CW_Conns w)) w) as Hf.
  { intros f Hf. rewrite (Halt (f c)) by done. unfold set_Conns. f_equal. apply map_eq. intros j.
    destruct (decide (j = i)) as [->|Hj].
    - by rewrite lookup_alter_eq, lookup_insert_eq, Hc.
    - by rewrite lookup_alter_ne, lookup_insert_ne by done. }
  destruct (Conn_phase c) eqn:Hph; simpl.
  2,5: wp_step; apply wp_mod_conn; simpl; wp_step; split; [apply Hf; unfold closing; by rewrite Hph|by left].
  all: wp_step; split; [|by right]; rewrite (Halt c) by (unfold closing; by rewrite Hph); by eapply Hid.
Qed.

(** The peers [ks] have been removed. *)
Record removed (ks : list string) w w' : Prop := {
  rm_engine : CW_Engine w' = set_peerConns (filter (λ kv, kv.1 ∉ ks) (peerConns w)) (CW_Engine w);
  rm_kept : ∀ i, (∀ key, key ∈ ks → peerConns w !! key ≠ Some i) → CW_Conns w' !! i = CW_Conns w !! i;
  rm_closed : ∀ key i, key ∈ ks → peerConns w !! key = Some i → CW_Conns w' !! i = closing <$> CW_Conns w !! i;
  rm_rest : CW_Next w' = CW_Next w ∧ CW_Wg w' = CW_Wg w ∧ CW_Sent w' = CW_Sent w }.

Lemma removed_nil w : removed [] w w.
Proof.
  split; [|done|intros ? ? []%not_elem_of_nil|done].
  rewrite map_filter_id by (intros; apply not_elem_of_nil). by destruct w as [[] ? ? ? ? ?].
Qed.

Lemma removed_conns ks w w' i c' :
  eng_inv w → removed ks w w' → CW_Conns w' !! i = Some c' →
  ∃ c, CW_Conns w !! i = Some c ∧ (c' = c ∨ c' = closing c).
Proof.
  intros Hi Hr Hc'.
  destruct (decide (Exists (λ key, peerConns w !! key = Some i) ks)) as [Hex|Hno].
  - apply Exists_exists in Hex as (key & Hkey & Hk). rewrite (rm_closed ks w w' Hr key i Hkey Hk) in Hc'.
    apply fmap_Some in Hc' as (c & Hc & ->). by exists c; auto.
  - rewrite (rm_kept ks w w' Hr) in Hc'; [by exists c'; auto|].
    intros key Hkey Hk. apply Hno, Exists_exists. by exists key.
Qed.

Lemma removed_inv ks w w' : eng_inv w → removed ks w w' → eng_inv w'.
Proof.
  intros Hi Hr. split.
  - intros key i. rewrite (rm_engine ks w w' Hr). simpl. intros [Hk Hnk]%map_lookup_filter_Some. simpl in Hnk.
    destruct (ei_conn w Hi key i Hk) as (c & Hc & Hkey & Hg). exists c. split; [|done].
    rewrite (rm_kept ks w w' Hr); [done|]. intros key' Hkey' Hk'. assert (key' = key) as -> by by eapply ei_inj. done.
  - intros i c' Hc'. destruct (removed_conns ks w w' i c' Hi Hr Hc') as (c & Hc & Hor).
    destruct (rm_rest ks w w' Hr) as [-> _]. destruct (ei_wf w Hi i c Hc) as (Hlt & Hwf & Hkey & Hpk).
    unfold remote_key in *. destruct Hor as [-> | ->]; [done|]. rewrite closing_config.
    split_and!; try done. by apply closing_wf.
Qed.

Lemma removePeer_spec key w :
  eng_inv w → wp (removePeer key) (λ r w', r = Ok tt ∧ removed [key] w w') w.
Proof.
  intros Hi. unfold removePeer, engine, mod_engine. wp_step. wp_step. simpl.
  destruct (peerConns w !! key) as [i|] eqn:Hk.
  - destruct (ei_conn w Hi key i Hk) as (c & Hc & Hkey & _). wp_step. wp_step. simpl. wp_step.
    eapply wp_mono; [apply (Conn_Close_spec i c); done|]. intros r w' [-> Hr].
    assert (removed [key] w (set_Conns (alter closing i (CW_Conns w))
       (set_Engine (λ e, set_peerConns (delete key (E_peerConns e)) e) w))) as Hrm.
    { split; simpl; [|intros j Hj|intros key' j ->%list_elem_of_singleton Hj|done].
      - f_equal. apply map_eq. intros k. rewrite map_lookup_filter. destruct (decide (k = key)) as [->|Hne].
        + rewrite lookup_delete_eq, Hk. simpl. rewrite option_guard_False by (intros Hn; apply Hn; by left). done.
        + rewrite lookup_delete_ne by done. destruct (peerConns w !! k); simpl; [|done].
          by rewrite option_guard_True by (by rewrite list_elem_of_singleton).
      - apply lookup_alter_ne. intros ->. by apply (Hj key); [left|].
      - assert (j = i) as -> by congruence. apply lookup_alter_eq. }
    destruct Hr as [-> | ->]; simpl; wp_step; done.
  - wp_step. split; [done|]. split; [|done|intros key' j ->%list_elem_of_singleton; congruence|done].
    rewrite map_filter_id; [by destruct w as [[] ? ? ? ? ?]|].
    intros k j Hkj. simpl. rewrite list_elem_of_singleton. congruence.
Qed.

Lemma removed_cons key ks w w1 w2 :
  eng_inv w → removed [key] w w1 → removed ks w1 w2 → removed (key :: ks) w w2.
Proof.
  intros Hi Ha Hb. pose proof (rm_engine _ _ _ Ha) as He1.
  assert (∀ k i, peerConns w1 !! k = Some i ↔ peerConns w !! k = Some i ∧ k ≠ key) as Hpc.
  { intros k i. rewrite He1. simpl. rewrite map_lookup_filter_Some. simpl. by rewrite list_elem_of_singleton. }
  split.
  - rewrite (rm_engine _ _ _ Hb), He1. simpl. unfold set_peerConns. simpl. f_equal.
    rewrite map_filter_filter. apply map_filter_ext. intros k i _. simpl. set_solver.
  - intros i Hno. rewrite (rm_kept _ _ _ Hb), (rm_kept _ _ _ Ha); [done|..].
    + intros k ->%list_elem_of_singleton. apply Hno. by left.
    + intros k Hk [Hki _]%Hpc. by apply (Hno k); [right|].
  - intros k i Hk Hki. destruct (decide (k = key)) as [->|Hne].
    + rewrite (rm_kept _ _ _ Hb), (rm_closed _ _ _ Ha key i); [done|by left|done|].
      intros k Hk' [Hki' Hne]%Hpc. by destruct Hne; eapply ei_inj.
    + apply elem_of_cons in Hk as [->|Hk]; [done|].
      rewrite (rm_closed _ _ _ Hb k i Hk) by (by apply Hpc). f_equal. apply (rm_kept _ _ _ Ha).
      intros k' ->%list_elem_of_singleton Hk'. by destruct Hne; eapply ei_inj.
  - destruct (rm_rest _ _ _ Ha) as (? & ? & ?), (rm_rest _ _ _ Hb) as (? & ? & ?). split_and!; congruence.
Qed.

Lemma for_each_removePeer ks w :
  eng_inv w → wp (for_each ks removePeer) (λ r w', r = Ok tt ∧ removed ks w w') w.
Proof.
  revert w. induction ks as [|key ks IH]; intros w Hi; simpl.
  - wp_step. split; [done|apply removed_nil].
  - wp_step. eapply wp_mono; [by apply removePeer_spec|]. intros r w1 [-> Ha]. simpl.
    eapply wp_mono; [by eapply IH, removed_inv|]. intros r w2 [-> Hb]. split; [done|].
    by eapply removed_cons.
Qed.

(** The number of external calls does not matter to the engine. *)
Lemma eng_inv_tick n w : eng_inv w → eng_inv (set_CTick n w).
Proof. intros [Ha Hb]. by split. Qed.
Lemma removed_tick ks n w w' : removed ks (set_CTick n w) w' → removed ks w w'.
Proof. intros [Ha Hb Hc Hd]. by split. Qed.

Lemma wp_cl_range {A} (m : gmap string A) (Q : Res (list (string * A)) → CWorld → Prop) w :
  (∀ l n, (∀ k v, (k, v) ∈ l ↔ m !! k = Some v) → l ≡ₚ map_to_list m → Q (Ok l) (set_CTick n w)) →
  wp (cl_range m) Q w.
Proof.
  intros HQ. apply HQ; [|apply rt_range_perm]. intros k v. rewrite rt_range_perm. apply elem_of_map_to_list.
Qed.

Lemma range_keys {A} (m : gmap string A) l :
  (∀ k v, (k, v) ∈ l ↔ m !! k = Some v) → ∀ k, k ∈ l.*1 ↔ k ∈ dom m.
Proof.
  intros Hl k. rewrite list_elem_of_fmap, elem_of_dom. split.
  - intros ([k' v] & -> & Hv). exists v. by apply Hl.
  - intros [v Hv]. exists (k, v). split; [done|]. by apply Hl.
Qed.

Lemma removed_equiv ks ks' w w' :
  (∀ k, k ∈ dom (peerConns w) → k ∈ ks ↔ k ∈ ks') → removed ks w w' → removed ks' w w'.
Proof.
  intros Heq [Ha Hb Hc Hd].
  assert (∀ k i, peerConns w !! k = Some i → k ∈ ks ↔ k ∈ ks') as Heq'
    by (intros k i Hk; apply Heq, elem_of_dom; by eexists).
  split; [|intros i Hno; apply Hb|intros k i Hk Hki; eapply Hc|done].
  - rewrite Ha. f_equal. apply map_filter_ext. intros k i Hk. simpl. by rewrite (Heq' k i Hk).
  - intros key Hkey Hki. apply (Hno key); [by eapply Heq'|done].
  - by eapply Heq'.
  - done.
Qed.

Lemma removeAllPeers_spec w :
  eng_inv w → wp removeAllPeers (λ r w', r = Ok tt ∧
    ∃ ks, removed ks w w' ∧ ∀ k, k ∈ dom (peerConns w) → k ∈ ks) w.
Proof.
  intros Hi. unfold removeAllPeers, engine. wp_step. wp_step. wp_step. apply wp_cl_range. intros l n Hl _. simpl.
  eapply wp_mono; [by apply for_each_removePeer, eng_inv_tick|]. intros r w' [-> Hr]. split; [done|].
  exists l.*1. split; [by eapply removed_tick|]. intros k. by apply range_keys.
Qed.

Lemma removePeers_spec ps w :
  eng_inv w → wp (removePeers ps) (λ r w', r = Ok tt ∧
    ∃ ks, removed ks w w' ∧ ∀ k, k ∈ dom (peerConns w) → k ∈ ks ↔ k ∉ RPC_WgPubKey <$> ps) w.
Proof.
  intros Hi. unfold removePeers, engine. wp_step. wp_step. wp_step. apply wp_cl_range. intros l n Hl _. simpl.
  eapply wp_mono; [by apply for_each_removePeer, eng_inv_tick|]. intros r w' [-> Hr]. split; [done|].
  eexists. split; [by eapply removed_tick|]. intros k Hk. rewrite elem_of_SliceDiff, (range_keys _ _ Hl). tauto.
Qed.

(* ------------------------------------------------------------------ *)
(** ** Adding peers *)

(** Connections have been added for some of the keys [ks]; what was there is
    as it was. *)
Record added (ks : list string) w w' : Prop := {
  ad_old : peerConns w ⊆ peerConns w';
  ad_keys : ∀ k, k ∈ dom (peerConns w') → k ∈ dom (peerConns w) ∨ k ∈ ks;
  ad_conns : CW_Conns w ⊆ CW_Conns w';
  ad_engine : E_networkSerial (CW_Engine w') = E_networkSerial (CW_Engine w) ∧
    E_config (CW_Engine w') = E_config (CW_Engine w) ∧
    E_STUNs (CW_Engine w') = E_STUNs (CW_Engine w) ∧ E_TURNs (CW_Engine w') = E_TURNs (CW_Engine w);
  ad_rest : CW_Next w ≤ CW_Next w' ∧ CW_Wg w' = CW_Wg w ∧ CW_Sent w' = CW_Sent w;
  ad_new : ∀ i c, CW_Conns w' !! i = Some c → CW_Conns w !! i = Some c ∨ phase_ok c }.

Lemma added_refl ks w n : added ks w (set_CTick n w).
Proof. split; simpl; auto. Qed.

Lemma added_trans ks w1 w2 w3 : added ks w1 w2 → added ks w2 w3 → added ks w1 w3.
Proof.
  intros [A1 A2 A3 A4 A5 A6] [B1 B2 B3 B4 B5 B6]. split.
  - by etransitivity.
  - intros k Hk. destruct (B2 k Hk) as [Hk'|]; [by apply A2|by right].
  - by etransitivity.
  - destruct A4 as (?&?&?&?), B4 as (?&?&?&?). split_and!; congruence.
  - destruct A5 as (?&?&?), B5 as (?&?&?). split_and!; [lia|congruence..].
  - intros i c Hc. destruct (B6 i c Hc) as [Hc'|]; [by apply A6|by right].
Qed.

Lemma added_mono ks ks' w w' : (∀ k, k ∈ ks → k ∈ ks') → added ks w w' → added ks' w w'.
Proof. intros Hs [A1 A2 A3 A4 A5 A6]. split; try done. intros k Hk. destruct (A2 k Hk); auto. Qed.

(** The connection made for a peer of the map. *)
Definition fresh_conn w (pubKey ips : string) (c : Conn) : Prop :=
  ConnC_Key (Conn_config c) = pubKey ∧
  ConnC_LocalKey (Conn_config c) = Key_String (PublicKey (EC_WgPrivateKey (E_config (CW_Engine w)))) ∧
  ConnC_StunTurn (Conn_config c) = E_STUNs (CW_Engine w) ++ E_TURNs (CW_Engine w) ∧
  PxC_RemoteKey (ConnC_ProxyConfig (Conn_config c)) = pubKey ∧
  PxC_AllowedIps (ConnC_ProxyConfig (Conn_config c)) = ips ∧
  is_Some (Conn_signal c) ∧ Conn_phase c = PhIdle ∧ Conn_agent c = None ∧ Conn_proxy c = None ∧
  Conn_status c = StatusDisconnected ∧ Conn_notify c = false.

Lemma fresh_conn_wf w k ips c : fresh_conn w k ips c → conn_wf c.
Proof.
  intros (_ & _ & _ & _ & _ & Hs & Hph & Ha & Hp & _). split; [done|rewrite Hph; done|rewrite Hp; done|rewrite Hph; done].
Qed.

Lemma createPeerConn_spec pubKey ips w :
  wp (createPeerConn pubKey ips) (λ r w', ∃ n,
    match r with
    | Ok i => i = CW_Next w ∧ (∃ k, ParseKey pubKey = inr k) ∧ ∃ c, fresh_conn w pubKey ips c ∧
        w' = set_CTick n (set_Next (S i) (set_Conns (<[i := c]> (CW_Conns w)) w))
    | Err e => ParseKey pubKey = inl e ∧ w' = set_CTick n w
    | _ => False
    end) w.
Proof.
  unfold createPeerConn, engine, pure_val. wp_step. wp_step. wp_step. apply wp_cl_range. intros l n _ _. simpl.
  wp_step. apply wp_cl_tick. simpl. wp_step. destruct (ParseKey pubKey) as [e|k]; wp_step; [by exists (S n)|].
  wp_go. exists (S n). split; [done|]. split; [by eexists|]. eexists. split; [|done].
  by repeat split.
Qed.

(** One turn of the loop of [addNewPeers]. *)
Lemma add_one_spec p w :
  eng_inv w →
  wp (let peerKey := RPC_WgPubKey p in
      e ← engine;
      match E_peerConns e !! peerKey with
      | Some _ => mret tt
      | None =>
          conn ← createPeerConn peerKey (Join (RPC_AllowedIps p) ",");
          mod_engine (λ e, set_peerConns (<[peerKey := conn]> (E_peerConns e)) e)
      end) (λ r w', eng_inv w' ∧ added [RPC_WgPubKey p] w w' ∧
    match r with
    | Ok _ => RPC_WgPubKey p ∈ dom (peerConns w')
    | Err e => ParseKey (RPC_WgPubKey p) = inl e ∧ peerConns w' = peerConns w
    | _ => False
    end) w.
Proof.
  intros Hi. simpl. unfold engine, mod_engine. wp_step. wp_step. simpl.
  destruct (peerConns w !! RPC_WgPubKey p) as [i|] eqn:Hk.
  { wp_step. split; [done|]. split; [|by apply elem_of_dom_2 in Hk].
    pose proof (added_refl [RPC_WgPubKey p] w (CW_Tick w)) as Ha. by destruct w. }
  wp_step. eapply wp_mono; [apply createPeerConn_spec|]. intros r w1 [n Hr].
  destruct r as [i|e|x|]; simpl; try done.
  2: { destruct Hr as [Hp ->]. split; [by apply eng_inv_tick|]. split; [apply added_refl|done]. }
  destruct Hr as (-> & [k Hpk] & c & Hfresh & ->). wp_step. simpl.
  assert (CW_Conns w !! CW_Next w = None) as Hnew.
  { destruct (CW_Conns w !! CW_Next w) as [c'|] eqn:Hc'; [|done]. destruct (ei_wf w Hi _ _ Hc'). lia. }
  split; [|split; [|rewrite dom_insert; set_solver]].
  - split; simpl.
    + intros key i [[<- <-]|[Hne Hki]]%lookup_insert_Some.
      * exists c. split; [apply lookup_insert_eq|]. destruct Hfresh as (? & _ & _ & _ & _ & _ & -> & _). done.
      * destruct (ei_conn w Hi key i Hki) as (c' & Hc' & ?). exists c'. split; [|done].
        rewrite lookup_insert_ne; [done|]. congruence.
    + intros i c' [[<- <-]|[Hne Hc']]%lookup_insert_Some.
      * split; [lia|]. split; [by eapply fresh_conn_wf|].
        destruct Hfresh as (Hkey & _ & _ & Hrem & _). unfold remote_key. rewrite Hkey, Hrem. split; [done|by eexists].
      * destruct (ei_wf w Hi i c' Hc') as (? & ?). split; [lia|done].
  - split; simpl; [by apply insert_subseteq|intros key; rewrite dom_insert; set_solver|by apply insert_subseteq|done|split; [lia|done]|].
    intros i c' [[<- <-]|[_ ?]]%lookup_insert_Some; [right|by left].
    destruct Hfresh as (_ & _ & _ & _ & _ & _ & Hph & ? & ? & ? & ?). unfold phase_ok. by rewrite Hph.
Qed.

Lemma addNewPeers_spec ps w :
  eng_inv w → wp (addNewPeers ps) (λ r w', eng_inv w' ∧ added (RPC_WgPubKey <$> ps) w w' ∧
    match r with
    | Ok _ => ∀ k, k ∈ RPC_WgPubKey <$> ps → k ∈ dom (peerConns w')
    | Err e => ∃ p, p ∈ ps ∧ ParseKey (RPC_WgPubKey p) = inl e ∧ RPC_WgPubKey p ∉ dom (peerConns w')
    | _ => False
    end) w.
Proof.
  revert w. induction ps as [|p ps IH]; intros w Hi; unfold addNewPeers; simpl.
  { wp_step. split; [done|]. pose proof (added_refl [] w (CW_Tick w)) as Ha. destruct w. split; [exact Ha|].
    intros k []%not_elem_of_nil. }
  wp_step. eapply wp_mono; [by apply (add_one_spec p)|]. intros r w1 (Hi1 & Ha1 & Hr1).
  assert (added (RPC_WgPubKey <$> p :: ps) w w1) as Ha1' by (eapply added_mono; [|done]; simpl; set_solver).
  destruct r as [[]|e|x|]; simpl; try done.
  - eapply wp_mono; [by apply IH|]. intros r w2 (Hi2 & Ha2 & Hr2). split; [done|].
    assert (added (RPC_WgPubKey <$> p :: ps) w w2) as Ha by
      (eapply added_trans; [done|]; eapply added_mono; [|done]; simpl; set_solver).
    split; [done|]. destruct r as [[]|e|x|]; try done.
    + intros k [->|Hk]%elem_of_cons; [|by apply Hr2]. eapply subseteq_dom; [apply Ha2|done].
    + destruct Hr2 as (q & Hq & ?). exists q. split; [by right|done].
  - split; [done|]. split; [done|]. destruct Hr1 as [Hp Hpc]. exists p. split; [by left|]. split; [done|].
    rewrite Hpc. intros [i Hki]%elem_of_dom. destruct (ei_conn w Hi _ _ Hki) as (c & Hc & Hkey & _).
    destruct (ei_wf w Hi i c Hc) as (_ & _ & _ & k & Hk). rewrite Hkey in Hk. congruence.
Qed.

(* ------------------------------------------------------------------ *)
(** ** Network maps *)

(** What the engine promises: the serial of the last map it has applied, and
    the peers of that map. *)
Record NetView := mkView { View_Serial : Z; View_Keys : gset string }.
Definition view w : NetView := mkView (E_networkSerial (CW_Engine w)) (dom (peerConns w)).

Definition map_keys (nm : PbNetworkMap) : gset string :=
  if PbNM_RemotePeersIsEmpty nm then ∅ else list_to_set (RPC_WgPubKey <$> PbNM_RemotePeers nm).
Definition apply_map (nm : PbNetworkMap) (v : NetView) : NetView :=
  if (PbNM_Serial nm <? View_Serial v)%Z then v else mkView (PbNM_Serial nm) (map_keys nm).

(** Connections to peers that stay are not touched. *)
Definition keeps w w' : Prop :=
  ∀ key i, peerConns w !! key = Some i → key ∈ dom (peerConns w') →
    peerConns w' !! key = Some i ∧ CW_Conns w' !! i = CW_Conns w !! i.
(** Connections to peers that go are closed. *)
Definition closes_gone w w' : Prop :=
  ∀ key i, peerConns w !! key = Some i → key ∉ dom (peerConns w') →
    CW_Conns w' !! i = closing <$> CW_Conns w !! i.

(** If the fields of all connections fit their places, they still do. *)
Definition phases_ok w : Prop := ∀ i c, CW_Conns w !! i = Some c → phase_ok c.
Definition steady w w' : Prop :=
  keeps w w' ∧ closes_gone w w' ∧ (phases_ok w → phases_ok w').

Lemma closing_phase_ok c : phase_ok c → phase_ok (closing c).
Proof. unfold phase_ok, closing. destruct (Conn_phase c) eqn:Hph; rewrite ?Hph; simpl; tauto. Qed.

Lemma removed_dom ks w w' k :
  removed ks w w' → k ∈ dom (peerConns w') ↔ k ∈ dom (peerConns w) ∧ k ∉ ks.
Proof.
  intros Hr. rewrite (rm_engine _ _ _ Hr). simpl. rewrite !elem_of_dom. split.
  - intros [i [Hk Hn]%map_lookup_filter_Some]. split; [by eexists|done].
  - intros [[i Hk] Hn]. exists i. by apply map_lookup_filter_Some.
Qed.

(** Removing, then adding peers that have not been removed. *)
Lemma remove_add_keeps ks ks' w w1 w2 :
  eng_inv w → removed ks w w1 → added ks' w1 w2 → (∀ k, k ∈ ks → k ∈ ks' → k ∉ dom (peerConns w)) →
  steady w w2.
Proof.
  intros Hi Hr Ha Hdisj.
  assert (∀ i c, CW_Conns w1 !! i = Some c → CW_Conns w2 !! i = Some c) as Hc12
    by (intros i c Hc; eapply lookup_weaken; [done|apply Ha]).
  assert (∀ key i, peerConns w !! key = Some i → is_Some (CW_Conns w1 !! i)) as Hsome.
  { intros key i Hk. destruct (ei_conn w Hi key i Hk) as (c & Hc & _).
    destruct (decide (key ∈ ks)) as [Hin|Hout].
    - rewrite (rm_closed _ _ _ Hr key i Hin Hk), Hc. by eexists.
    - rewrite (rm_kept _ _ _ Hr), Hc; [by eexists|].
      intros k' Hk' Hki'. destruct Hout. by rewrite (ei_inj w key k' i Hi Hk Hki'). }
  assert (∀ key i, peerConns w !! key = Some i → CW_Conns w2 !! i = CW_Conns w1 !! i) as Heq.
  { intros key i Hk. destruct (Hsome key i Hk) as [c Hc]. rewrite Hc. by apply Hc12. }
  split; [|split]; [intros key i Hk Hdom; rewrite (Heq key i Hk)..|].
  - assert (key ∉ ks) as Hout.
    { intros Hin. apply (ad_keys _ _ _ Ha) in Hdom as [Hd%(removed_dom _ _ _ _ Hr)|Hd]; [tauto|].
      apply (Hdisj key Hin Hd), elem_of_dom. by eexists. }
    split.
    + eapply lookup_weaken; [|apply Ha]. rewrite (rm_engine _ _ _ Hr). simpl. by apply map_lookup_filter_Some.
    + apply (rm_kept _ _ _ Hr). intros k' Hk' Hki'. destruct Hout. by rewrite (ei_inj w key k' i Hi Hk Hki').
  - apply (rm_closed _ _ _ Hr key i); [|done]. destruct (decide (key ∈ ks)) as [|Hout]; [done|]. destruct Hdom.
    eapply subseteq_dom; [apply Ha|]. apply (removed_dom _ _ _ _ Hr). split; [by apply elem_of_dom_2 in Hk|done].
  - intros Hok i c Hc. destruct (ad_new _ _ _ Ha i c Hc) as [Hc1|]; [|done].
    destruct (removed_conns ks w w1 i c Hi Hr Hc1) as (c0 & Hc0 & [-> | ->]); [by eapply Hok|].
    by eapply closing_phase_ok, Hok.
Qed.

Lemma steady_refl w : steady w w.
Proof.
  split; [|split; [|done]]; intros key i Hk Hd; [done|]. destruct Hd. by apply elem_of_dom_2 in Hk.
Qed.

Lemma updateNetworkMap_spec nm w :
  eng_inv w → wp (updateNetworkMap nm) (λ r w', eng_inv w' ∧ steady w w' ∧
    match r with
    | Ok _ => view w' = apply_map nm (view w)
    | Err e => PbNM_RemotePeersIsEmpty nm = false ∧ View_Serial (view w') = View_Serial (view w) ∧
        ∃ p, p ∈ PbNM_RemotePeers nm ∧ ParseKey (RPC_WgPubKey p) = inl e ∧ RPC_WgPubKey p ∉ View_Keys (view w')
    | _ => False
    end) w.
Proof.
  intros Hi. unfold updateNetworkMap, engine, mod_engine, apply_map. wp_step. wp_step. simpl.
  destruct (PbNM_Serial nm <? E_networkSerial (CW_Engine w))%Z eqn:Hser.
  { wp_step. split; [done|]. split; [apply steady_refl|done]. }
  wp_step. unfold map_keys. destruct (PbNM_RemotePeersIsEmpty nm) eqn:Hempty.
  - eapply wp_mono; [by apply removeAllPeers_spec|]. intros r w1 (-> & ks & Hr & Hall). simpl. wp_step.
    pose proof (remove_add_keeps ks [] w w1 (set_CTick (CW_Tick w1) w1) Hi Hr (added_refl _ _ _)
      (λ k _ Hk, match not_elem_of_nil _ Hk with end)) as Hst.
    pose proof (removed_inv ks w w1 Hi Hr) as Hi1. split; [|split; [exact Hst|]].
    { destruct Hi1 as [Ha Hb]. by split. }
    unfold view. simpl. f_equal. apply set_eq. intros k. rewrite (removed_dom _ _ _ _ Hr). set_solver.
  - wp_step. eapply wp_mono; [by apply removePeers_spec|]. intros r w1 (-> & ks & Hr & Hks). simpl.
    pose proof (removed_inv ks w w1 Hi Hr) as Hi1.
    eapply wp_mono; [by apply (addNewPeers_spec (PbNM_RemotePeers nm))|]. intros r w2 (Hi2 & Ha & Hr2).
    assert (steady w w2) as Hst.
    { apply (remove_add_keeps ks _ w w1 w2 Hi Hr Ha). intros k Hk Hk' Hd. by apply (Hks k Hd) in Hk. }
    destruct r as [[]|e|x|]; simpl; try done.
    + wp_step. split; [destruct Hi2 as [Hx Hy]; by split|]. split; [exact Hst|].
      unfold view. simpl. f_equal. apply set_eq. intros k. rewrite elem_of_list_to_set. split; [|apply Hr2].
      intros [Hd|Hd]%(ad_keys _ _ _ Ha); [|done]. apply (removed_dom _ _ _ _ Hr) in Hd as [Hd Hn].
      destruct (decide (k ∈ RPC_WgPubKey <$> PbNM_RemotePeers nm)) as [|Hno]; [done|]. by apply (Hks k Hd) in Hno.
    + split; [done|]. split; [done|]. split; [done|]. split; [|done].
      destruct (ad_engine _ _ _ Ha) as [-> _]. by rewrite (rm_engine _ _ _ Hr).
Qed.

(* ------------------------------------------------------------------ *)
(** ** Updates *)

(** The URLs of servers that do not parse. *)
Definition bad_url (c : WiretrusteeConfig) (e : error) : Prop :=
  (∃ t, t ∈ WC_Turns c ∧ ice_ParseURL (HostConfig_Uri (PHC_HostConfig t)) = inl e) ∨
  (∃ s, s ∈ WC_Stuns c ∧ ice_ParseURL (HostConfig_Uri s) = inl e).

(** Mapping with a body that may fail and changes nothing. *)
Lemma wp_map_each_pure {A B} (good : A → Prop) (bad : A → error → Prop) (l : list A) (body : A → MC B) w :
  (∀ x, x ∈ l → wp (body x) (λ r w', w' = w ∧
     match r with Ok _ => good x | Err e => bad x e | _ => False end) w) →
  wp (map_each l body) (λ r w', w' = w ∧
    match r with Ok _ => ∀ x, x ∈ l → good x | Err e => ∃ x, x ∈ l ∧ bad x e | _ => False end) w.
Proof.
  induction l as [|x l IH]; intros Hbody; simpl; [wp_step; split; [done|]; intros ? []%not_elem_of_nil|].
  wp_step. eapply wp_mono; [apply Hbody; by left|]. intros r w1 [-> Hr].
  destruct r as [y|e|s|]; simpl; try done; [|split; [done|]; exists x; split; [by left|done]].
  wp_step. eapply wp_mono; [apply IH; intros; apply Hbody; by right|]. intros r w1 [-> Hr2].
  destruct r as [ys|e|s|]; simpl; try done.
  - wp_step. split; [done|]. intros x' [->|Hx]%elem_of_cons; auto.
  - split; [done|]. destruct Hr2 as (x' & ? & ?). exists x'. split; [by right|done].
Qed.

(** Only the servers change. *)
Definition urls_only w w' : Prop :=
  ∃ stuns turns, w' = set_Engine (λ e, set_STUNs stuns (set_TURNs turns e)) w.

Lemma urls_only_refl w : urls_only w w.
Proof. exists (E_STUNs (CW_Engine w)), (E_TURNs (CW_Engine w)). by destruct w as [[]]. Qed.

Lemma updateTURNs_spec turns w :
  wp (updateTURNs turns) (λ r w', urls_only w w' ∧
    match r with
    | Ok _ => ∀ t, t ∈ turns → ∃ u, ice_ParseURL (HostConfig_Uri (PHC_HostConfig t)) = inr u
    | Err e => w' = w ∧ ∃ t, t ∈ turns ∧ ice_ParseURL (HostConfig_Uri (PHC_HostConfig t)) = inl e
    | _ => False
    end) w.
Proof.
  unfold updateTURNs, mod_engine. destruct turns as [|x0 xs] eqn:Hl.
  { wp_step. split; [apply urls_only_refl|]. intros ? []%not_elem_of_nil. }
  cbv iota. rewrite <-Hl. clear Hl.
  wp_step. eapply wp_mono.
  { apply (wp_map_each_pure (λ t, ∃ u, ice_ParseURL (HostConfig_Uri (PHC_HostConfig t)) = inr u) (λ t e, ice_ParseURL (HostConfig_Uri (PHC_HostConfig t)) = inl e)).
    intros x _. wp_step. unfold pure_val. destruct (ice_ParseURL _) eqn:Hp; simpl; wp_go; eauto. }
  intros r w1 [-> Hr]. destruct r as [urls|e|s|]; simpl; try done; [|split; [apply urls_only_refl|done]].
  wp_step. split; [|exact Hr]. exists (E_STUNs (CW_Engine w)), urls. by destruct w as [[]].
Qed.

Lemma updateSTUNs_spec stuns w :
  wp (updateSTUNs stuns) (λ r w', urls_only w w' ∧
    match r with
    | Ok _ => ∀ s, s ∈ stuns → ∃ u, ice_ParseURL (HostConfig_Uri s) = inr u
    | Err e => w' = w ∧ ∃ s, s ∈ stuns ∧ ice_ParseURL (HostConfig_Uri s) = inl e
    | _ => False
    end) w.
Proof.
  unfold updateSTUNs, mod_engine. destruct stuns as [|x0 xs] eqn:Hl.
  { wp_step. split; [apply urls_only_refl|]. intros ? []%not_elem_of_nil. }
  cbv iota. rewrite <-Hl. clear Hl.
  wp_step. eapply wp_mono.
  { apply (wp_map_each_pure (λ s, ∃ u, ice_ParseURL (HostConfig_Uri s) = inr u) (λ s e, ice_ParseURL (HostConfig_Uri s) = inl e)).
    intros x _. unfold pure_val. destruct (ice_ParseURL _) eqn:Hp; simpl; wp_go; eauto. }
  intros r w1 [-> Hr]. destruct r as [urls|e|s|]; simpl; try done; [|split; [apply urls_only_refl|done]].
  wp_step. split; [|exact Hr]. exists urls, (E_TURNs (CW_Engine w)). by destruct w as [[]].
Qed.

Lemma urls_only_inv w w' : urls_only w w' → eng_inv w → eng_inv w' ∧ view w' = view w ∧ peerConns w' = peerConns w ∧ CW_Conns w' = CW_Conns w.
Proof. intros (s & t & ->) [Ha Hb]. split; [by split|done]. Qed.

Lemma steady_via w w1 w2 : peerConns w1 = peerConns w → CW_Conns w1 = CW_Conns w →
  steady w1 w2 → steady w w2.
Proof. unfold steady, keeps, closes_gone, phases_ok. by intros -> ->. Qed.

Definition apply_update (u : SyncResponse) (v : NetView) : NetView :=
  match SR_NetworkMap u with Some nm => apply_map nm v | None => v end.

(** What makes an update fail: a server URL, or a peer key, that does not
    parse. *)
Definition update_error (u : SyncResponse) (e : error) : Prop :=
  (∃ c, SR_WiretrusteeConfig u = Some c ∧ bad_url c e) ∨
  (∃ nm p, SR_NetworkMap u = Some nm ∧ p ∈ PbNM_RemotePeers nm ∧ ParseKey (RPC_WgPubKey p) = inl e).

Lemma handleSync_spec u w :
  eng_inv w → wp (handleSync u) (λ r w', eng_inv w' ∧ steady w w' ∧
    match r with
    | Ok _ => view w' = apply_update u (view w)
    | Err e => update_error u e ∧ View_Serial (view w') = View_Serial (view w)
    | _ => False
    end) w.
Proof.
  intros Hi. unfold handleSync, apply_update. wp_step.
  assert (∀ w1, urls_only w w1 →
    wp (match SR_NetworkMap u with Some networkMap => updateNetworkMap networkMap | None => mret tt end)
      (λ r w', eng_inv w' ∧ steady w w' ∧
    match r with
    | Ok _ => view w' = apply_update u (view w)
    | Err e => update_error u e ∧ View_Serial (view w') = View_Serial (view w)
    | _ => False
    end) w1) as Hrest.
  { intros w1 Hu. destruct (urls_only_inv w w1 Hu Hi) as (Hi1 & Hv & Hp & Hc). unfold apply_update, update_error.
    destruct (SR_NetworkMap u) as [nm|] eqn:Hnm.
    - eapply wp_mono; [by apply updateNetworkMap_spec|]. intros r w2 (Hi2 & Hst & Hr). rewrite Hv in Hr.
      split; [done|]. split; [by eapply steady_via|]. destruct r as [[]|e|s|]; try done.
      destruct Hr as (_ & Hser & p & Hin & Hpk & _). split; [right; by exists nm, p|done].
    - wp_step. split; [done|]. split; [|done]. eapply steady_via; [done..|apply steady_refl]. }
  destruct (SR_WiretrusteeConfig u) as [c|] eqn:Hcfg; [|wp_step; apply Hrest, urls_only_refl].
  wp_step. eapply wp_mono; [apply updateTURNs_spec|]. intros r w1 [Hu1 Hr1].
  destruct r as [[]|e|s|]; simpl; try done.
  2: { destruct Hr1 as [-> Hbad]. split; [done|]. split; [apply steady_refl|].
       split; [left; exists c; split; [done|by left]|done]. }
  eapply wp_mono; [apply updateSTUNs_spec|]. intros r w2 [Hu2 Hr2].
  assert (urls_only w w2) as Hu.
  { destruct Hu1 as (s1 & t1 & ->), Hu2 as (s2 & t2 & ->). exists s2, t2. by destruct w as [[]]. }
  destruct r as [[]|e|s|]; simpl; try done; [by apply Hrest|].
  destruct Hr2 as [-> Hbad]. destruct (urls_only_inv w w1 Hu Hi) as (Hi1 & Hv & Hp & Hc).
  split; [done|]. split; [eapply steady_via; [done..|apply steady_refl]|].
  split; [left; exists c; split; [done|by right]|exact (f_equal View_Serial Hv)].
Qed.

(* ------------------------------------------------------------------ *)
(** ** The system *)

(** What happens next: a message of the management service or of the signal
    exchange, a worker going on, the timeout, the end of ICE's attempt, a
    change of its state, or a candidate it has found. *)
Inductive eng_label :=
  | LSync (update : SyncResponse)
  | LMsg (msg : SigMessage)
  | LWorker (conn : nat)
  | LTimeout (conn : nat)
  | LDialled (conn : nat) (result : error + RemoteConn)
  | LIceState (conn : nat) (state : IceState)
  | LIceCandidate (conn : nat) (candidate : option Candidate).

(** The operation of a label, where it can happen.  ICE runs its callbacks in
    goroutines of its own, also after [Close] has returned: they may come at
    any time. *)
Definition eng_op (l : eng_label) w : option (MC unit) :=
  let ignore {A} (m : MC A) : MC unit := (_ ← m; mret tt) in
  match l with
  | LSync update => Some (handleSync update)
  | LMsg msg => Some (signal_handler (Some msg))
  | LWorker i =>
      c ← CW_Conns w !! i;
      match Conn_phase c with
      | PhIdle => Some (connWorker_turn i (ConnC_Key (Conn_config c)))
      | PhConfirmed creds offer => Some (ignore (open_confirm i creds offer))
      | PhClosed dialled => Some (ignore (open_closed i dialled))
      | PhConnected => if decide (Conn_ctxDone c = Some true) then Some (ignore (open_disconnected i)) else None
      | _ => None
      end
  | LTimeout i =>
      c ← CW_Conns w !! i;
      match Conn_phase c with PhWait => Some (ignore (open_timeout i)) | _ => None end
  | LDialled i result =>
      c ← CW_Conns w !! i;
      match Conn_phase c with PhDial _ => Some (ignore (open_dialled i result)) | _ => None end
  | LIceState i state => _ ← CW_Conns w !! i; Some (onICEConnectionStateChange i state)
  | LIceCandidate i candidate => _ ← CW_Conns w !! i; Some (onICECandidate i candidate)
  end.

(** What an operation may call or look into although it is nil: the cancel
    function of a connection, after [cleanup] has taken it away or before
    [Open] has made it, when ICE reports a failure; and the body of a message
    for a peer that is known. *)
Definition nil_at_boundary w (l : eng_label) : Prop :=
  match l with
  | LIceState i state => ∃ c, CW_Conns w !! i = Some c ∧ Conn_notify c = false ∧
      (state = IceFailed ∨ state = IceDisconnected)
  | LMsg msg => SigMsg_Body msg = None ∧ is_Some (peerConns w !! SigMsg_Key msg)
  | _ => False
  end.
Definition outcome w (l : eng_label) (r : Res unit) : Prop :=
  match r with
  | Ok _ | Err _ => ¬ nil_at_boundary w l
  | Panic _ => nil_at_boundary w l
  | Blocked => False
  end.

Inductive eng_step w (l : eng_label) : Res unit → CWorld → Prop :=
  | eng_step_run m r w' : eng_op l w = Some m → m w = (r, w') → eng_step w l r w'.

(** Runs in which every operation returns. *)
Inductive eng_reachable (w0 : CWorld) : CWorld → Prop :=
  | eng_reach_refl : eng_reachable w0 w0
  | eng_reach_step w l r w' :
      eng_reachable w0 w → eng_step w l r w' → (∃ o, r = Ok o) ∨ (∃ e, r = Err e) → eng_reachable w0 w'.

(** A new engine. *)
Definition newEngine (config : EngineConfig) : CWorld :=
  mkCWorld (mkEngine config ∅ [] [] 0 None None None None None) ∅ 0 ∅ [] 0.

Lemma newEngine_inv config : eng_inv (newEngine config).
Proof. split; simpl; intros ? ? Hk; by rewrite lookup_empty in Hk. Qed.

(** One connection has gone on. *)
Lemma eng_inv_upd i c c' d s m w :
  eng_inv w → CW_Conns w !! i = Some c → ident c c' → conn_wf c' →
  (Conn_phase c' = PhGone → ∀ key, peerConns w !! key ≠ Some i) → eng_inv (upd i c' d s m w).
Proof.
  intros Hi Hc [Ec _] Hwf Hg. split; simpl.
  - intros key j Hk. destruct (ei_conn w Hi key j Hk) as (c0 & Hc0 & Hkey & Hph).
    destruct (decide (j = i)) as [->|Hne]; [|rewrite lookup_insert_ne by done; by exists c0].
    rewrite lookup_insert_eq. exists c'. split; [done|]. assert (c0 = c) as -> by congruence. rewrite Ec.
    split; [done|]. intros Hp. by apply (Hg Hp key).
  - intros j c0 [[<- <-]|[Hne Hc0]]%lookup_insert_Some; [|by apply (ei_wf w Hi)].
    destruct (ei_wf w Hi i c Hc) as (Hlt & _ & Hrk & Hpk). unfold remote_key in *. rewrite Ec. done.
Qed.

(** Closing agents, sockets and the peers of the device never fails. *)
Definition closing_works : Prop :=
  (∀ t, ice_Close t = None) ∧ (∀ t, net_Close t = None) ∧ device_works.

(** The state of the engine and, if closing works, of every connection. *)
Definition sys_inv w : Prop := eng_inv w ∧ (closing_works → phases_ok w).

(** A step of anything but an update leaves the engine's own state alone. *)
Definition goes_on w w' : Prop := sys_inv w' ∧ CW_Engine w' = CW_Engine w.

Lemma goes_on_upd i c c' d s m w :
  sys_inv w → CW_Conns w !! i = Some c → ident c c' → conn_wf c' →
  (Conn_phase c' = PhGone → ∀ key, peerConns w !! key ≠ Some i) →
  (closing_works → phase_ok c → phase_ok c') → goes_on w (upd i c' d s m w).
Proof.
  intros [Hi Hok] Hc Hid Hwf Hg Hp. split; [|done]. split; [by eapply eng_inv_upd|].
  intros Hcl j c0. simpl. intros [[<- <-]|[_ Hc0]]%lookup_insert_Some; [|by eapply Hok].
  apply Hp; [done|]. by eapply Hok.
Qed.

Lemma part_post_inv next i c d w r w' :
  sys_inv w → CW_Conns w !! i = Some c → next ≠ PhGone →
  part_post i w next c d r w' → goes_on w w' ∧ ∃ o, r = Ok o.
Proof.
  intros Hi Hc Hn (o & c' & d' & s' & m & -> & -> & Hid & Hwf & Hph & _ & Hok). split; [|by eexists].
  eapply goes_on_upd; [done..| |].
  - intros Hg. destruct o; congruence.
  - intros Hcl. apply Hok. destruct Hcl as (? & ? & ?). destruct Hi as [Hi _].
    destruct (ei_wf w Hi i c Hc) as (_ & _ & Hrk & Hpk). split_and!; try done. by rewrite Hrk.
Qed.

Lemma wp_at {A} i c (m : MC A) Q w :
  CW_Conns w !! i = Some c → wp m Q (upd i c (CW_Wg w) (CW_Sent w) (CW_Tick w) w) → wp m Q w.
Proof. intros Hc. by rewrite <-(upd_id i c w Hc). Qed.

(** A part of [Open], run in a world where it is its turn. *)
Lemma run_part next i c w (m : MC (option ConnError)) :
  sys_inv w → CW_Conns w !! i = Some c → next ≠ PhGone →
  wp m (part_post i w next c (CW_Wg w)) (upd i c (CW_Wg w) (CW_Sent w) (CW_Tick w) w) →
  wp (_ ← m; mret tt) (λ r w', r = Ok tt ∧ goes_on w w') w.
Proof.
  intros Hi Hc Hn Hm. rewrite <-(upd_id i c w Hc) in Hm. wp_step. eapply wp_mono; [apply Hm|].
  intros r w' Hp. eapply (part_post_inv next i c (CW_Wg w)) in Hp as [Hi' [o ->]]; [|done..]. simpl. by wp_step.
Qed.

Lemma sys_inv_tick n w : sys_inv w → sys_inv (set_CTick n w).
Proof. intros [Hi Hok]. split; [by apply eng_inv_tick|done]. Qed.

Lemma goes_on_refl n w : sys_inv w → goes_on w (set_CTick n w).
Proof. intros Hi. split; [by apply sys_inv_tick|done]. Qed.
Lemma goes_on_same w : sys_inv w → goes_on w w.
Proof. done. Qed.
#[local] Hint Resolve goes_on_same goes_on_refl : core.

Lemma on_remote_inv i creds offer c w :
  sys_inv w → CW_Conns w !! i = Some c → Conn_phase c ≠ PhGone →
  wp (on_remote i creds offer) (λ r w', goes_on w w' ∧ ∃ b, r = Ok b) w.
Proof.
  intros Hi Hc Hg. unfold wp. rewrite (on_remote_run i creds offer c w Hc).
  destruct (Conn_phase c) eqn:Hph; simpl; try (split; [done|by eexists]).
  split; [|by eexists]. destruct (ei_wf w (proj1 Hi) i c Hc) as (_ & Hwf & _). eapply goes_on_upd; [done..| | |].
  - split; [apply Hwf| |apply Hwf|done]. intros _. apply (cw_agent c Hwf). by rewrite Hph.
  - done.
  - intros _. unfold phase_ok. by rewrite Hph.
Qed.

Lemma signal_handler_spec msg w :
  sys_inv w → wp (signal_handler (Some msg)) (λ r w', goes_on w w' ∧ outcome w (LMsg msg) r) w.
Proof.
  intros Hi. unfold signal_handler, engine. wp_step. wp_step.
  wp_step. wp_step. simpl.
  destruct (peerConns w !! SigMsg_Key msg) as [i|] eqn:Hk;
    [|wp_step; split; [done|]; unfold outcome; simpl; rewrite Hk; by intros [_ [? [=]]]].
  destruct (ei_conn w (proj1 Hi) _ _ Hk) as (c & Hc & _ & Hg).
  destruct (SigMsg_Body msg) as [body|] eqn:Hb; simpl;
    [|wp_step; apply wp_panic; split; [done|]; unfold outcome; simpl; rewrite Hk; split; [done|by eexists]].
  assert (¬ nil_at_boundary w (LMsg msg)) as Hnil by (simpl; rewrite Hb; by intros [[=] _]).
  wp_step. wp_step.
  assert (∀ offer, wp (remoteCred ← UnMarshalCredential msg;
        _ ← on_remote i (mkIceCreds (Cred_UFrag remoteCred) (Cred_Pwd remoteCred)) offer; mret tt)
      (λ r w', goes_on w w' ∧ outcome w (LMsg msg) r) w) as Hcred.
  { intros offer. wp_step. unfold UnMarshalCredential.
    destruct (Split _ _) as [|u [|p [|? ?]]]; wp_step; try (split; [done|exact Hnil]).
    wp_step. eapply wp_mono; [by eapply on_remote_inv|]. intros r w' [Hi' [b ->]]. simpl. wp_step.
    split; [done|exact Hnil]. }
  case_decide; [apply Hcred|]. case_decide; [apply Hcred|]. case_decide.
  - wp_step. unfold pure_val. destruct (ice_UnmarshalCandidate _) as [e|cand]; wp_step; [split; [done|exact Hnil]|].
    unfold OnRemoteCandidate. wp_step. eapply wp_get_conn; [done|]. simpl.
    destruct (Conn_agent c); wp_step; [|split; [done|exact Hnil]].
    wp_step. apply wp_ext; intros; simpl; wp_step; (split; [by apply goes_on_refl|exact Hnil]).
  - wp_step. split; [done|exact Hnil].
Qed.

Lemma phase_gone_unknown i c w :
  sys_inv w → CW_Conns w !! i = Some c → Conn_phase c = PhGone → ∀ key, peerConns w !! key ≠ Some i.
Proof.
  intros Hi Hc Hg key Hk. destruct (ei_conn w (proj1 Hi) key i Hk) as (c' & Hc' & _ & Hg'). congruence.
Qed.

(** ICE's callbacks. *)
Lemma onICEConnectionStateChange_spec i c state w :
  sys_inv w → CW_Conns w !! i = Some c →
  wp (onICEConnectionStateChange i state) (λ r w', goes_on w w' ∧ outcome w (LIceState i state) r) w.
Proof.
  intros Hi Hc. destruct (ei_wf w (proj1 Hi) i c Hc) as (_ & Hwf & _).
  apply (wp_at i c); [done|]. unfold onICEConnectionStateChange. c_step. c_step.
  case_decide as Hst; [|wp_step; rewrite <-(upd_id i c w Hc); split; [done|intros (? & ? & ? & ?); done]].
  destruct (Conn_notify c) eqn:Hn; simpl.
  - c_step. split; [|intros (c' & Hc' & Hf & _); congruence].
    eapply goes_on_upd; [done..| | |].
    + destruct Hwf. split; [done|done|done|by intros _].
    + exact (phase_gone_unknown i c w Hi Hc).
    + done.
  - apply wp_panic. rewrite <-(upd_id i c w Hc). split; [done|]. by exists c.
Qed.

Lemma onICECandidate_spec i c candidate w :
  sys_inv w → CW_Conns w !! i = Some c →
  wp (onICECandidate i candidate) (λ r w', goes_on w w' ∧ outcome w (LIceCandidate i candidate) r) w.
Proof.
  intros Hi Hc. destruct (ei_wf w (proj1 Hi) i c Hc) as (_ & Hwf & Hrk). unfold onICECandidate.
  destruct candidate as [cand|]; [|wp_step; split; [done|by intros []]].
  apply (wp_at i c); [done|]. c_step. c_step. destruct (cw_signal c Hwf) as [keys Hs]. rewrite Hs. simpl.
  unfold deref. wp_step. wp_step. wp_step. wp_step. unfold signalCandidate. c_go;
    (split; [|by intros []]); (eapply (goes_on_upd i c c); [done|done|reflexivity|done|exact (phase_gone_unknown i c w Hi Hc)|done]).
Qed.

Lemma connWorker_turn_spec i c w :
  sys_inv w → CW_Conns w !! i = Some c → Conn_phase c = PhIdle →
  wp (connWorker_turn i (ConnC_Key (Conn_config c))) (λ r w', r = Ok tt ∧ goes_on w w') w.
Proof.
  intros Hi Hc Hph. destruct (ei_wf w (proj1 Hi) i c Hc) as (_ & Hwf & _).
  unfold connWorker_turn, peerExists, engine. wp_step. wp_step. wp_step. simpl. wp_step.
  destruct (bool_decide _) eqn:Hex; simpl.
  - wp_step. apply wp_cl_tick. simpl. destruct (signal_Ready _).
    + eapply wp_mono; [apply (run_part PhWait i c); [by apply sys_inv_tick|done|done|]; by apply open_begin_spec|].
      intros r w' [-> [? He]]. by split.
    + wp_step. split; [done|by apply goes_on_refl].
  - apply bool_decide_eq_false_1 in Hex. apply (wp_at i c); [done|]. apply wp_mod_conn_upd. split; [done|].
    eapply goes_on_upd; [done..| | |].
    + split; [apply Hwf|done|apply Hwf|done].
    + intros _ key Hk. destruct Hex. destruct (ei_conn w (proj1 Hi) key i Hk) as (c0 & Hc0 & Hkey & _).
      exists i. assert (c0 = c) as -> by congruence. by rewrite Hkey.
    + intros _. unfold phase_ok. by rewrite Hph.
Qed.

Lemma eng_step_inv w l r w' :
  sys_inv w → eng_step w l r w' →
  sys_inv w' ∧ ((∃ u, l = LSync u) ∨ CW_Engine w' = CW_Engine w) ∧ outcome w l r.
Proof.
  intros Hi Hstep. destruct Hstep as [m r w' Hop Hrun].
  enough (wp m (λ r w', sys_inv w' ∧ ((∃ u, l = LSync u) ∨ CW_Engine w' = CW_Engine w) ∧ outcome w l r) w) as Hw by (eapply wp_run in Hw; done).
  assert (∀ m' : MC unit, wp m' (λ r w', goes_on w w' ∧ outcome w l r) w →
    wp m' (λ r w', sys_inv w' ∧ ((∃ u, l = LSync u) ∨ CW_Engine w' = CW_Engine w) ∧ outcome w l r) w) as Hgo.
  { intros m' Hm. eapply wp_mono; [apply Hm|]. intros r1 w1 [[? ?] ?]. split; [done|]. split; [by right|done]. }
  assert (∀ m' : MC unit, ¬ nil_at_boundary w l → wp m' (λ r w', r = Ok tt ∧ goes_on w w') w →
    wp m' (λ r w', sys_inv w' ∧ ((∃ u, l = LSync u) ∨ CW_Engine w' = CW_Engine w) ∧ outcome w l r) w) as Hok.
  { intros m' Hnil Hm. apply Hgo. eapply wp_mono; [apply Hm|]. by intros r1 w1 [-> ?]. }
  destruct l as [u|msg|i|i|i result|i st|i cand]; simpl in Hop.
  - injection Hop as <-. eapply wp_mono; [apply handleSync_spec, Hi|].
    intros r1 w1 (Hi1 & Hst & Hr). split; [split; [done|]|split; [left; by eexists|destruct r1; try done; by intros []]].
    intros Hcl. apply Hst, Hi, Hcl.
  - injection Hop as <-. by apply Hgo, signal_handler_spec.
  - apply bind_Some in Hop as (c & Hc & Hop). destruct (ei_wf w (proj1 Hi) i c Hc) as (_ & Hwf & _).
    destruct (Conn_phase c) eqn:Hph; try done.
    + injection Hop as <-. apply Hok; [by intros []|]. by apply connWorker_turn_spec.
    + injection Hop as <-. apply Hok; [by intros []|]. apply (run_part (PhDial creds) i c); [done..|]. by eapply open_confirm_spec.
    + case_decide; [|done]. injection Hop as <-. apply Hok; [by intros []|]. apply (run_part PhWait i c); [done..|].
      unfold open_disconnected. c_step. c_step. by apply open_return_part.
    + injection Hop as <-. apply Hok; [by intros []|]. apply (run_part PhWait i c); [done..|].
      unfold open_closed. c_step. c_step. by apply open_return_part.
  - apply bind_Some in Hop as (c & Hc & Hop). destruct (ei_wf w (proj1 Hi) i c Hc) as (_ & Hwf & _).
    destruct (Conn_phase c) eqn:Hph; try done. injection Hop as <-. apply Hok; [by intros []|].
    apply (run_part PhWait i c); [done..|]. by apply open_timeout_spec.
  - apply bind_Some in Hop as (c & Hc & Hop). destruct (ei_wf w (proj1 Hi) i c Hc) as (_ & Hwf & _).
    destruct (Conn_phase c) eqn:Hph; try done. injection Hop as <-. apply Hok; [by intros []|].
    apply (run_part PhConnected i c); [done..|]. eapply wp_mono; [by eapply open_dialled_spec|]. by intros ? ? [? _].
  - apply bind_Some in Hop as (c & Hc & [= <-]). by apply Hgo, (onICEConnectionStateChange_spec i c).
  - apply bind_Some in Hop as (c & Hc & [= <-]). by apply Hgo, (onICECandidate_spec i c).
Qed.

Lemma eng_reachable_inv w0 w : sys_inv w0 → eng_reachable w0 w → sys_inv w.
Proof. intros Hi Hr. induction Hr as [|w1 l r w2 _ IH Hstep _]; [done|]. by eapply eng_step_inv. Qed.

Lemma newEngine_sys_inv config : sys_inv (newEngine config).
Proof. split; [apply newEngine_inv|]. intros _ i c Hc. simpl in Hc. by rewrite lookup_empty in Hc. Qed.

(** A map older than the one applied is ignored; of several maps, in any
    order, the newest is what counts. *)
Lemma apply_map_old nm v : (PbNM_Serial nm < View_Serial v)%Z → apply_map nm v = v.
Proof. intros Hlt. unfold apply_map. by rewrite (proj2 (Z.ltb_lt _ _) Hlt). Qed.
Lemma apply_map_new nm v : (View_Serial v ≤ PbNM_Serial nm)%Z → apply_map nm v = mkView (PbNM_Serial nm) (map_keys nm).
Proof. intros Hle. unfold apply_map. by rewrite (proj2 (Z.ltb_ge _ _) Hle). Qed.

Lemma apply_maps_serial nms v top :
  (View_Serial v < top)%Z → (∀ nm, nm ∈ nms → PbNM_Serial nm < top)%Z →
  (View_Serial (foldl (λ v nm, apply_map nm v) v nms) < top)%Z.
Proof.
  revert v. induction nms as [|nm nms IH]; intros v Hv Hall; simpl; [done|].
  apply IH; [|intros; apply Hall; by right]. unfold apply_map.
  destruct (_ <? _)%Z; simpl; [done|]. apply Hall. by left.
Qed.

Lemma apply_maps_after nms v :
  (∀ nm, nm ∈ nms → PbNM_Serial nm < View_Serial v)%Z →
  foldl (λ v nm, apply_map nm v) v nms = v.
Proof.
  induction nms as [|nm nms IH]; intros Hall; simpl; [done|].
  rewrite apply_map_old by (apply Hall; by left). apply IH. intros; apply Hall; by right.
Qed.

Lemma newest_map_spec nms nm v :
  nm ∈ nms → NoDup nms → (View_Serial v < PbNM_Serial nm)%Z →
  (∀ nm', nm' ∈ nms → nm' ≠ nm → PbNM_Serial nm' < PbNM_Serial nm)%Z →
  foldl (λ v nm, apply_map nm v) v nms = mkView (PbNM_Serial nm) (map_keys nm).
Proof.
  intros Hin Hnd Hv Hall. apply list_elem_of_split in Hin as (l1 & l2 & ->).
  assert (∀ x, x ∈ l1 ∨ x ∈ l2 → x ≠ nm) as Hne.
  { intros x Hx ->. apply NoDup_app in Hnd as (_ & Hd & Hnd2). apply NoDup_cons in Hnd2 as [Hn2 _].
    destruct Hx as [Hx|Hx]; [|done]. apply (Hd nm Hx). by left. }
  rewrite foldl_app. simpl. rewrite apply_map_new.
  - apply apply_maps_after. simpl. intros x Hx. apply Hall; [set_solver|by apply Hne; right].
  - assert (View_Serial (foldl (λ v nm, apply_map nm v) v l1) < PbNM_Serial nm)%Z; [|lia].
    apply apply_maps_serial; [done|]. intros x Hx. apply Hall; [set_solver|by apply Hne; left].
Qed.

(** The maps of a list of updates, applied. *)
Lemma handle_updates_spec us w :
  sys_inv w → wp (for_each us handleSync) (λ r w', sys_inv w' ∧
    (r = Ok tt → view w' = foldl (λ v u, apply_update u v) (view w) us)) w.
Proof.
  revert w. induction us as [|u us IH]; intros w Hi; simpl; [by wp_step|].
  wp_step. eapply wp_mono; [apply handleSync_spec, Hi|]. intros r w1 (Hi1 & Hst & Hr).
  assert (sys_inv w1) as Hi1' by (split; [done|]; intros Hcl; apply Hst, Hi, Hcl).
  destruct r as [[]|e|s|]; simpl; try done. rewrite <-Hr. by apply IH.
Qed.

(** The order in which updates arrive does not matter: after network maps
    of different serials, delivered in any order, the engine knows exactly the
    peers of the newest one. *)
Theorem newest_map_wins config w nms nm w' :
  eng_reachable (newEngine config) w →
  nm ∈ nms → NoDup nms → (E_networkSerial (CW_Engine w) < PbNM_Serial nm)%Z →
  (∀ nm', nm' ∈ nms → nm' ≠ nm → PbNM_Serial nm' < PbNM_Serial nm)%Z →
  for_each ((λ nm, mkSyncResponse None None [] true (Some nm)) <$> nms) handleSync w = (Ok tt, w') →
  view w' = mkView (PbNM_Serial nm) (map_keys nm).
Proof.
  intros Hreach Hin Hnd Hser Hall Hrun. apply eng_reachable_inv in Hreach as Hi; [|apply newEngine_sys_inv].
  pose proof (handle_updates_spec ((λ nm, mkSyncResponse None None [] true (Some nm)) <$> nms) w Hi) as Hw.
  apply (wp_run _ _ _ _ _ Hrun) in Hw as [_ Hv]. rewrite (Hv eq_refl).
  rewrite <-(newest_map_spec nms nm (view w) Hin Hnd Hser Hall).
  generalize (view w). clear. induction nms as [|nm nms IH]; intros v; simpl; [done|]. apply IH.
Qed.

(* ------------------------------------------------------------------ *)
(** ** Properties *)

(** C13: the engine refines its specification: whatever has happened before,
    every step either is an update of the management service, after which the
    serial and the set of known peers are those the specification prescribes
    (or the update is refused with an error for a URL or key that does not
    parse, and the serial stays), or leaves both as they are. *)
Theorem engine_refines_view config w l r w' :
  eng_reachable (newEngine config) w → eng_step w l r w' →
  match l with
  | LSync u => (r = Ok tt ∧ view w' = apply_update u (view w)) ∨
      ∃ e, r = Err e ∧ update_error u e ∧ View_Serial (view w') = View_Serial (view w)
  | _ => view w' = view w
  end.
Proof.
  intros Hreach Hstep. apply eng_reachable_inv in Hreach as Hi; [|apply newEngine_sys_inv].
  destruct (eng_step_inv w l r w' Hi Hstep) as (_ & Heng & _).
  destruct l as [u|msg|i|i|i res|i st|i cand].
  2-7: destruct Heng as [[u [=]]|Heng]; unfold view; by rewrite Heng.
  destruct Hstep as [m r w' Hop Hrun]. simpl in Hop. injection Hop as <-.
  pose proof (handleSync_spec u w (proj1 Hi)) as Hw. apply (wp_run _ _ _ _ _ Hrun) in Hw as (_ & _ & Hr).
  destruct r as [[]|e|s|]; [by left|right; by exists e|done|done].
Qed.


(** C32: as long as closing works, the status of a connection tells where its
    [Open] stands: it says connected exactly while [Open] waits for the end of
    an established connection (or has just been told to end it), and then there
    is a proxy; connecting exactly while ICE tries; and between attempts
    nothing is left of the last one. *)
Theorem status_tells_phase config w i c :
  closing_works → eng_reachable (newEngine config) w → CW_Conns w !! i = Some c →
  (Conn_status c = StatusConnected ↔ Conn_phase c = PhConnected ∨ Conn_phase c = PhClosed true) ∧
  (Conn_status c = StatusConnecting ↔ ∃ creds, Conn_phase c = PhDial creds) ∧
  (is_Some (Conn_proxy c) ↔ Conn_status c = StatusConnected) ∧
  (Conn_phase c = PhIdle → Conn_agent c = None ∧ Conn_proxy c = None ∧ Conn_notify c = false).
Proof.
  intros Hcl Hreach Hc. apply eng_reachable_inv in Hreach as [_ Hok]; [|apply newEngine_sys_inv].
  specialize (Hok Hcl i c Hc). unfold phase_ok in Hok.
  destruct (Conn_phase c) as [| |? ?|?| |[]|]; destruct_and?;
    repeat match goal with H : _ = _ |- _ => rewrite H end; naive_solver.
Qed.

(** An update leaves the connections to the peers that stay alone: they
    keep their connection object, in the state it is in; and the connections to
    the peers that go are told to close. *)
Theorem update_keeps_connections config w u r w' key i :
  eng_reachable (newEngine config) w → handleSync u w = (r, w') →
  peerConns w !! key = Some i →
  if decide (key ∈ View_Keys (view w')) then
    peerConns w' !! key = Some i ∧ CW_Conns w' !! i = CW_Conns w !! i
  else CW_Conns w' !! i = closing <$> CW_Conns w !! i.
Proof.
  intros Hreach Hrun Hk. apply eng_reachable_inv in Hreach as Hi; [|apply newEngine_sys_inv].
  pose proof (handleSync_spec u w (proj1 Hi)) as Hw. apply (wp_run _ _ _ _ _ Hrun) in Hw as (_ & (Hkeep & Hgone & _) & _).
  case_decide; [by apply (Hkeep key i Hk)|by apply (Hgone key i Hk)].
Qed.

(** A peer that is removed while its connection is being established is not
    let go: the close request finds nobody waiting and is dropped, and when ICE
    then succeeds the peer is put on the device with its address, although the
    engine no longer knows it. *)
Theorem removed_while_dialling config w u w1 key i c creds rc :
  eng_reachable (newEngine config) w →
  peerConns w !! key = Some i → CW_Conns w !! i = Some c → Conn_phase c = PhDial creds →
  handleSync u w = (Ok tt, w1) → key ∉ View_Keys (view w1) →
  CW_Conns w1 !! i = Some c ∧
  wp (open_dialled i (inr rc)) (λ r w2, r = Ok None →
    peerConns w2 !! key = None ∧ (∃ c2, CW_Conns w2 !! i = Some c2 ∧ Conn_phase c2 = PhConnected) ∧
    ∃ k, ParseKey key = inr k ∧ is_Some (CW_Wg w2 !! k)) w1.
Proof.
  intros Hreach Hk Hc Hph Hrun Hgone. apply eng_reachable_inv in Hreach as Hi; [|apply newEngine_sys_inv].
  pose proof (handleSync_spec u w (proj1 Hi)) as Hw.
  apply (wp_run _ _ _ _ _ Hrun) in Hw as (Hi1 & (_ & Hcl & _) & _).
  assert (CW_Conns w1 !! i = Some c) as Hc1.
  { rewrite (Hcl key i Hk Hgone), Hc. unfold closing. simpl. by rewrite Hph. }
  split; [done|]. destruct (ei_wf w1 Hi1 i c Hc1) as (_ & Hwf & Hrk & _).
  destruct (ei_conn w (proj1 Hi) key i Hk) as (c0 & Hc0 & Hkey & _). assert (c0 = c) as -> by congruence.
  apply (wp_at i c); [done|]. eapply wp_mono; [by eapply open_dialled_spec|].
  intros r w2 [(o & c2 & d & s & m & -> & -> & _ & _ & Hph2 & _) Hdev] [= ->]. split; [|split].
  - apply not_elem_of_dom. exact Hgone.
  - exists c2. split; [apply lookup_insert_eq|done].
  - destruct (Hdev eq_refl) as (k & ip & net & p & Hpk & _ & Hp & _). exists k.
    rewrite <-Hkey, <-Hrk. split; [done|]. by eexists.
Qed.

(** One server URL that does not parse holds up the whole update: the
    network map that comes with it is not applied, and the peers stay as they
    are. *)
Theorem bad_url_blocks_map w u c e :
  SR_WiretrusteeConfig u = Some c → bad_url c e →
  wp (handleSync u) (λ r w', (∃ e', r = Err e') ∧ view w' = view w) w.
Proof.
  intros Hcfg Hbad. unfold handleSync. rewrite Hcfg. wp_step. wp_step.
  eapply wp_mono; [apply updateTURNs_spec|]. intros r w1 [Hu1 Hr1].
  assert (∀ w2, urls_only w w2 → view w2 = view w) as Hview by (by intros w2 (? & ? & ->)).
  destruct r as [[]|e1|s|]; simpl; try done; [|by eauto].
  eapply wp_mono; [apply updateSTUNs_spec|]. intros r w2 [Hu2 Hr2].
  destruct r as [[]|e2|s|]; simpl; try done.
  - exfalso. destruct Hbad as [(t & Ht & Hp)|(x & Hx & Hp)].
    + destruct (Hr1 t Ht). congruence.
    + destruct (Hr2 x Hx). congruence.
  - destruct Hr2 as [-> _]. eauto.
Qed.

(* ------------------------------------------------------------------ *)
(** ** Starting and stopping *)

(** No resource of the engine is open. *)
Definition all_closed (e : Engine) : Prop :=
  E_iface e ≠ Some true ∧ E_udpMuxConn e ≠ Some true ∧ E_udpMuxConnSrflx e ≠ Some true ∧
  E_udpMux e ≠ Some true ∧ E_udpMuxSrflx e ≠ Some true.

Lemma wp_close_logged get set (Q : Res unit → CWorld → Prop) w :
  (∀ t, net_Close t = None) →
  (∀ n, Q (Ok tt) (set_CTick n (match get (CW_Engine w) with
     | Some _ => set_Engine (set (Some false)) w | None => w end))) →
  wp (close_logged get set) Q w.
Proof.
  intros Hcl HQ. unfold close_logged, engine, mod_engine. wp_step. wp_step. simpl.
  destruct (get (CW_Engine w)) as [b|] eqn:Hg.
  - wp_step. wp_step. apply wp_ext; intros; [|congruence]. simpl. wp_step. apply (HQ n).
  - wp_step. specialize (HQ (CW_Tick w)). by destruct w.
Qed.

(** [Stop] closes all there is: every connection is told to close, no peer is
    known any more, no resource is open. *)
Theorem stop_releases w :
  eng_inv w → (∀ t, net_CloseIface t = None) → (∀ t, net_Close t = None) →
  wp Stop (λ r w', r = Ok tt ∧ View_Keys (view w') = ∅ ∧ all_closed (CW_Engine w') ∧
    ∀ key i, peerConns w !! key = Some i → CW_Conns w' !! i = closing <$> CW_Conns w !! i) w.
Proof.
  intros Hi Hif Hcl. unfold Stop, engine, mod_engine. wp_step.
  eapply wp_mono; [by apply removeAllPeers_spec|]. intros r w1 (-> & ks & Hr & Hall). simpl.
  assert (dom (peerConns w1) = ∅) as Hdom.
  { apply set_eq. intros k. rewrite (removed_dom _ _ _ _ Hr). set_solver. }
  assert (∀ key i, peerConns w !! key = Some i → CW_Conns w1 !! i = closing <$> CW_Conns w !! i) as Hc.
  { intros key i Hk. apply (rm_closed _ _ _ Hr key i); [|done]. apply Hall. by apply elem_of_dom_2 in Hk. }
  clear Hr Hall. wp_step. wp_step. wp_step. simpl.
  destruct (E_iface (CW_Engine w1)) as [b|] eqn:Hif1.
  - wp_step. apply wp_ext; intros; [|congruence]. simpl. wp_step.
    do 4 (try wp_step; apply wp_close_logged; [done|intros ?; simpl]).
    split; [done|]. destruct w1 as [[cfg pc st tu ser i1 a1 a2 a3 a4] ? ? ? ? ?].
    unfold all_closed, view in *. simpl in *. by destruct a1, a2, a3, a4.
  - wp_step. do 4 (try wp_step; apply wp_close_logged; [done|intros ?; simpl]).
    split; [done|]. destruct w1 as [[cfg pc st tu ser i1 a1 a2 a3 a4] ? ? ? ? ?].
    unfold all_closed, view in *. simpl in *. subst. by destruct a1, a2, a3, a4.
Qed.

(** A [Start] that fails leaves behind what it has opened: here the first
    socket, when the second cannot be had. *)
Theorem failed_start_leaks w e a :
  ParseCIDR (EC_WgAddr (E_config (CW_Engine w))) = inr a →
  net_ListenUDP (CW_Tick w) = None → net_ListenUDP (S (CW_Tick w)) = Some e →
  wp Start (λ r w', r = Err e ∧ E_udpMuxConn (CW_Engine w') = Some true) w.
Proof.
  intros Hip Hok Hbad. unfold wp, Start, engine, mod_engine, NewWGIface, parseAddress, ext, cl_tick, modify, gets, mbind, M_bind.
  rewrite Hip. destruct a as [ip net]. simpl. rewrite Hok. simpl. by rewrite Hbad.
Qed.
End spec.

(* ------------------------------------------------------------------ *)
(** ** A concrete engine *)

Definition demo_duration : DurationText := {| Duration_String _ := "45s" |}.

(** The operations of the labels, one after the other; a label that cannot
    happen, or panics, is skipped. *)
Section run.
Context `{Runtime} `{WgCtrlLaws} `{Crypto} `{Ice} `{Net} `{SignalAPI} `{DurationText}.

Definition eng_do (w : CWorld) (l : eng_label) : CWorld :=
  match eng_op l w with
  | Some m => match m w with (Ok _, w') | (Err _, w') => w' | _ => w end
  | None => w
  end.

Lemma eng_do_reachable config ls w :
  eng_reachable (newEngine config) w → eng_reachable (newEngine config) (foldl eng_do w ls).
Proof.
  revert w. induction ls as [|l ls IH]; intros w Hw; simpl; [done|]. apply IH. unfold eng_do.
  destruct (eng_op l w) as [m|] eqn:Hop; [|done]. destruct (m w) as [r w'] eqn:Hrun. simpl.
  assert (eng_step w l r w') as Hstep by (by econstructor).
  destruct r as [o|e|s|]; [| |done..]; (eapply eng_reach_step; [done|done|]); eauto.
Qed.
End run.

Definition demo_map (serial : Z) (peers : list string) : PbNetworkMap :=
  mkPbNetworkMap serial None ((λ k, mkRemotePeerConfig k ["100.64.0.2/32"]) <$> peers) (bool_decide (peers = [])).
Definition demo_update (serial : Z) (peers : list string) : SyncResponse :=
  mkSyncResponse None None [] true (Some (demo_map serial peers)).
Definition demo_run (ls : list eng_label) : CWorld :=
  @foldl CWorld eng_label (@eng_do demo_runtime demo_wgctrl demo_crypto (demo_ice None) demo_net demo_signal demo_duration)
    (newEngine demo_engine_config) ls.
Definition demo_sync (u : SyncResponse) (w : CWorld) : Res unit * CWorld :=
  @handleSync demo_runtime demo_crypto (demo_ice None) demo_duration u w.

Lemma demo_reachable ls :
  @eng_reachable demo_runtime demo_wgctrl demo_crypto (demo_ice None) demo_net demo_signal demo_duration
    (newEngine demo_engine_config) (demo_run ls).
Proof. apply eng_do_reachable. constructor. Qed.

Lemma demo_step u w r w' :
  demo_sync u w = (r, w') →
  @eng_step demo_runtime demo_wgctrl demo_crypto (demo_ice None) demo_net demo_signal demo_duration w (LSync u) r w'.
Proof. intros Hrun. by apply (eng_step_run w (LSync u) (demo_sync u)). Qed.

(** The engine has a connection to [b], which is dialling, and one to [c]. *)
Definition demo_answer_msg : SigMessage := mkSigMessage "b" "a" (Some (mkSigBody Body_ANSWER "u:p")).
Definition demo_dialling : CWorld :=
  demo_run [LSync (demo_update 3 ["b"; "c"]); LWorker 0; LMsg demo_answer_msg; LWorker 0].
Definition demo_open : CWorld :=
  demo_run [LSync (demo_update 3 ["b"; "c"]); LWorker 0; LMsg demo_answer_msg; LWorker 0;
            LDialled 0 (inr (mkRemoteConn (inr (mkUDPAddr [192; 168; 1; 2]%Z 9))))].

Lemma engine_refines_view_witness :
  ∃ w', demo_sync (demo_update 3 ["b"; "c"]) (newEngine demo_engine_config) = (Ok tt, w') ∧
    view w' = mkView 3 {["b"; "c"]}.
Proof.
  pose (w' := (demo_sync (demo_update 3 ["b"; "c"]) (newEngine demo_engine_config)).2).
  assert (demo_sync (demo_update 3 ["b"; "c"]) (newEngine demo_engine_config) = (Ok tt, w')) as Hrun
    by (vm_compute; reflexivity).
  clearbody w'. exists w'. split; [exact Hrun|].
  pose proof (@engine_refines_view demo_runtime demo_wgctrl demo_wgctrl_laws demo_crypto (demo_ice None) demo_net demo_signal
    demo_duration demo_engine_config (newEngine demo_engine_config) (LSync (demo_update 3 ["b"; "c"])) (Ok tt) w'
    (eng_reach_refl _) (demo_step _ _ _ _ Hrun)) as [[_ Hv]|(e & He & _)]; [|discriminate He].
  rewrite Hv. vm_compute. reflexivity.
Defined.

(** ICE fails while [b] is connected; [Open] returns and cleans up, and ICE
    reports a failure once more. *)
Definition demo_closed : CWorld :=
  demo_run [LSync (demo_update 3 ["b"; "c"]); LWorker 0; LMsg demo_answer_msg; LWorker 0;
            LDialled 0 (inr (mkRemoteConn (inr (mkUDPAddr [192; 168; 1; 2]%Z 9)))); LIceState 0 IceFailed; LWorker 0].
Lemma late_ice_callback_panics :
  (onICEConnectionStateChange 0 IceFailed demo_open).1 = Ok tt ∧
  (onICEConnectionStateChange 0 IceFailed demo_closed).1 = Panic "invalid memory address or nil pointer dereference".
Proof. split; vm_compute; reflexivity. Qed.


Lemma demo_closing_works : @closing_works demo_wgctrl (demo_ice None) demo_net.
Proof.
  split; [done|]. split; [done|]. split; [done|]. split; [done|]. intros t config d. by eexists.
Defined.

Lemma status_tells_phase_witness :
  ∃ c, CW_Conns demo_open !! 0 = Some c ∧ Conn_phase c = PhConnected ∧ Conn_status c = StatusConnected.
Proof.
  assert (∃ c, CW_Conns demo_open !! 0 = Some c ∧ Conn_phase c = PhConnected) as (c & Hc & Hph)
    by (eexists; split; vm_compute; reflexivity).
  exists c. split; [exact Hc|]. split; [exact Hph|].
  destruct (@status_tells_phase demo_runtime demo_wgctrl demo_wgctrl_laws demo_crypto (demo_ice None) demo_net demo_signal
    demo_duration demo_engine_config demo_open 0 c demo_closing_works (demo_reachable _) Hc) as [[_ Hs] _].
  apply Hs. by left.
Defined.

(** [c] goes and [b] stays. *)
Lemma update_keeps_connections_witness :
  ∃ w', demo_sync (demo_update 4 ["b"]) demo_open = (Ok tt, w') ∧ CW_Conns w' !! 0 = CW_Conns demo_open !! 0.
Proof.
  pose (w' := (demo_sync (demo_update 4 ["b"]) demo_open).2).
  assert (demo_sync (demo_update 4 ["b"]) demo_open = (Ok tt, w')) as Hrun by (vm_compute; reflexivity).
  assert ("b" ∈ View_Keys (view w')) as Hin by (apply (bool_decide_unpack _); vm_compute; exact I).
  clearbody w'. exists w'. split; [exact Hrun|].
  pose proof (@update_keeps_connections demo_runtime demo_wgctrl demo_wgctrl_laws demo_crypto (demo_ice None) demo_net
    demo_signal demo_duration demo_engine_config demo_open (demo_update 4 ["b"]) (Ok tt) w' "b" 0
    (demo_reachable _) Hrun ltac:(vm_compute; reflexivity)) as Hk.
  destruct (decide _) as [_|Hn]; [exact (proj2 Hk)|exact (match Hn Hin with end)].
Defined.

Lemma removed_while_dialling_witness :
  ∃ w1 c, demo_sync (demo_update 4 ["c"]) demo_dialling = (Ok tt, w1) ∧ CW_Conns w1 !! 0 = Some c ∧
    let run := @open_dialled demo_wgctrl demo_crypto (demo_ice None) demo_net 0
                 (inr (mkRemoteConn (inr (mkUDPAddr [192; 168; 1; 2]%Z 9)))) w1 in
    peerConns run.2 !! "b" = None ∧ ∃ k, is_Some (CW_Wg run.2 !! k).
Proof.
  pose (w1 := (demo_sync (demo_update 4 ["c"]) demo_dialling).2).
  assert (demo_sync (demo_update 4 ["c"]) demo_dialling = (Ok tt, w1)) as Hrun by (vm_compute; reflexivity).
  assert (∃ c creds, CW_Conns demo_dialling !! 0 = Some c ∧ Conn_phase c = PhDial creds) as (c & creds & Hc & Hph)
    by (eexists _, _; split; vm_compute; reflexivity).
  assert ("b" ∉ View_Keys (view w1)) as Hno by (apply (bool_decide_unpack _); vm_compute; exact I).
  assert ((@open_dialled demo_wgctrl demo_crypto (demo_ice None) demo_net 0
    (inr (mkRemoteConn (inr (mkUDPAddr [192; 168; 1; 2]%Z 9)))) w1).1 = Ok None) as Hok by (vm_compute; reflexivity).
  clearbody w1. exists w1, c. split; [exact Hrun|].
  destruct (@removed_while_dialling demo_runtime demo_wgctrl demo_wgctrl_laws demo_crypto (demo_ice None) demo_net
    demo_signal demo_duration demo_engine_config demo_dialling (demo_update 4 ["c"]) w1 "b" 0 c creds
    (mkRemoteConn (inr (mkUDPAddr [192; 168; 1; 2]%Z 9)))
    (demo_reachable _) ltac:(vm_compute; reflexivity) Hc Hph Hrun Hno) as [Hc1 Hw].
  split; [exact Hc1|]. unfold wp in Hw. destruct (Hw Hok) as (Hnone & _ & k & _ & Hdev).
  split; [exact Hnone|]. exists k. exact Hdev.
Defined.

Lemma bad_url_blocks_map_witness :
  let u := mkSyncResponse (Some (mkWiretrusteeConfig [mkHostConfig "" PB_UDP] [] None)) None [] true
             (Some (demo_map 9 ["d"])) in
  view (demo_sync u demo_open).2 = view demo_open.
Proof.
  intros u.
  assert (@bad_url (demo_ice None) (mkWiretrusteeConfig [mkHostConfig "" PB_UDP] [] None) (Plain "missing scheme")) as Hbad.
  { right. exists (mkHostConfig "" PB_UDP). split; [by left|reflexivity]. }
  destruct (@bad_url_blocks_map demo_runtime demo_crypto (demo_ice None)
    demo_duration demo_open u (mkWiretrusteeConfig [mkHostConfig "" PB_UDP] [] None)
    (Plain "missing scheme") eq_refl Hbad) as [_ Hv].
  exact Hv.
Defined.

(** The newest of three maps comes second. *)
Lemma newest_map_wins_witness :
  ∃ w', for_each ((λ nm, mkSyncResponse None None [] true (Some nm)) <$>
      [demo_map 4 ["b"]; demo_map 7 ["c"; "d"]; demo_map 5 []]) demo_sync (newEngine demo_engine_config) = (Ok tt, w') ∧
    view w' = mkView 7 {["c"; "d"]}.
Proof.
  pose (nms := [demo_map 4 ["b"]; demo_map 7 ["c"; "d"]; demo_map 5 []]).
  pose (run := for_each ((λ nm, mkSyncResponse None None [] true (Some nm)) <$> nms) demo_sync (newEngine demo_engine_config)).
  assert (run = (Ok tt, run.2)) as Hrun by (vm_compute; reflexivity).
  exists run.2. split; [exact Hrun|].
  etransitivity; [|vm_compute; reflexivity].
  apply (@newest_map_wins demo_runtime demo_wgctrl demo_wgctrl_laws demo_crypto (demo_ice None) demo_net demo_signal
    demo_duration demo_engine_config (newEngine demo_engine_config) nms (demo_map 7 ["c"; "d"]) run.2).
  - constructor.
  - right. by left.
  - apply (bool_decide_unpack _). vm_compute. exact I.
  - done.
  - intros nm Hnm Hne. unfold nms in Hnm. rewrite !elem_of_cons in Hnm.
    destruct Hnm as [-> |[-> |[-> |[]%not_elem_of_nil]]]; [reflexivity|by destruct Hne|reflexivity].
  - exact Hrun.
Defined.
