(* ===== verification/EndToEnd.v ===== *)
(** * EndToEnd: the service, its stream and the engines of two peers

    The composition of the parts: the answer the management service puts on a
    fresh stream ([sendInitialSync] of [GrpcServer]), opened by the client
    ([receiveEvents] of [MgmClient]) and applied by its engine ([handleSync] of
    [Engine]).  The specification is the access-control list of the account. *)

From S2P Require Import Prelude GoLib Model Network UpdateChannel FileStore Account Groups Peers Turn Encryption Jwt GrpcServer Util Signal SignalClient MgmClient ClientModel WgIface PeerConn Engine.

(* ------------------------------------------------------------------ *)
(** ** The access-control list as a relation on keys *)

(** A bidirectional rule connects [pk] with the peer with key [key]. *)
Definition linked (a : Account) (pk key : string) : Prop :=
  ∃ q p, connected a pk q ∧ Account_Peers a !! q = Some p ∧ Peer_Key p = key ∧ key ≠ pk.
(** Peer [pk] is to connect to the peer with key [key]: peers that are on one
    side of the rules only get no peer at all. *)
Definition acl (a : Account) (pk key : string) : Prop := two_sided a pk ∧ linked a pk key.

Lemma acl_sees a pk key : acl a pk key ↔ ∃ p, sees a pk p ∧ Peer_Key p = key.
Proof.
  unfold acl, linked, sees. split.
  - intros (Ht & q & p & Hc & Hq & <- & Hne). exists p. split; [|done]. split; [done|]. by exists q.
  - intros (p & (Ht & q & Hc & Hq & Hne) & <-). split; [done|]. by exists q, p.
Qed.

Lemma connected_sym a p q : connected a p q → connected a q p.
Proof. intros (k & rule & Hr & Hf & Hor). exists k, rule. tauto. Qed.

(** Rules are bidirectional, for peers that are stored under their keys. *)
Lemma linked_sym a p q :
  peers_keyed a → is_Some (Account_Peers a !! p) → linked a p q → linked a q p.
Proof.
  intros Hk [pp Hp] (q' & pq & Hc & Hq & <- & Hne). rewrite (Hk _ _ Hq).
  rewrite (Hk _ _ Hq) in Hne. exists p, pp. split; [by apply connected_sym|].
  split; [done|]. split; [by apply Hk|done].
Qed.

(* ------------------------------------------------------------------ *)
(** ** The message of the service *)

(** The URLs of STUN and TURN servers of a configuration. *)
Definition server_uris (config : Config) : list string :=
  (Host_URI <$> Config_Stuns config) ++
  from_option (λ t, Host_URI <$> TURN_Turns t) [] (Config_TURNConfig config).
Definition sent_uris (c : WiretrusteeConfig) : list string :=
  (HostConfig_Uri <$> WC_Stuns c) ++ (HostConfig_Uri ∘ PHC_HostConfig <$> WC_Turns c).

(** Mapping with a body that keeps a view of each element. *)
Lemma wp_map_each_view {W A B C} (f : A → C) (g : B → C) (l : list A) (body : A → M W B) w :
  (∀ x w0, wp (body x) (λ r w', w' = w0 ∧ ∀ y, r = Ok y → g y = f x) w0) →
  wp (map_each l body) (λ r w', w' = w ∧ ∀ ys, r = Ok ys → g <$> ys = f <$> l) w.
Proof.
  intros Hb. induction l as [|x l IH]; simpl; [by wp_step; split; [|intros ys [= <-]]|].
  wp_step. eapply wp_mono; [apply Hb|]. intros r w1 [-> Hx]. destruct r as [y|e|s|]; simpl; try done.
  wp_step. eapply wp_mono; [apply IH|]. intros r w1 [-> Hys]. destruct r as [ys|e|s|]; simpl; try done.
  wp_step. split; [done|]. intros ? [= <-]. apply (f_equal2 cons); [by apply Hx|by apply Hys].
Qed.

Lemma toWiretrusteeConfig_uris {W} config creds (w : W) :
  wp (toWiretrusteeConfig config creds) (λ r w', w' = w ∧
    ∀ c, r = Ok c → sent_uris c = server_uris config) w.
Proof.
  unfold toWiretrusteeConfig, sent_uris, server_uris. wp_step. eapply wp_mono.
  { apply (wp_map_each_view Host_URI HostConfig_Uri). intros h w0. wp_step.
    eapply wp_mono; [apply ToResponseProto_spec|]. intros [pr|e|s|] w1 [-> _]; simpl; try done.
    wp_step. split; [done|]. by intros ? [= <-]. }
  intros [stuns|e|s|] w1 [-> Hst]; simpl; try done. wp_step. wp_step; [|done]. simpl.
  rename select (Config_TURNConfig config = Some _) into Hcfg.
  wp_step. eapply wp_mono.
  { apply (wp_map_each_view Host_URI (HostConfig_Uri ∘ PHC_HostConfig)). intros h w0.
    destruct creds; simpl; wp_step; (eapply wp_mono; [apply ToResponseProto_spec|]);
      intros [pr|e|s|] w1 [-> _]; simpl; try done; wp_step; (split; [done|]); by intros ? [= <-]. }
  intros [turns|e|s|] w1 [-> Ht]; simpl; try done. wp_step. wp_step; [|done]. simpl.
  wp_step. eapply wp_mono; [apply ToResponseProto_spec|].
  intros [pr|e|s|] w1 [-> _]; simpl; try done. wp_step. split; [done|]. intros c [= <-]. simpl.
  rewrite Hst, Ht by done. by rewrite Hcfg.
Qed.

(** The first message of a stream: the servers of the configuration, and the
    access-control list with the serial of the network. *)
Record first_update (config : Config) (a : Account) (pk : string) (u : SyncResponse) : Prop := {
  fu_config : ∃ c, SR_WiretrusteeConfig u = Some c ∧ sent_uris c = server_uris config;
  fu_map : ∃ nm, SR_NetworkMap u = Some nm ∧ PbNM_Serial nm = Network_Serial (Account_Network a) ∧
    (∀ key, key ∈ map_keys nm ↔ acl a pk key) ∧
    ∀ rpc, rpc ∈ PbNM_RemotePeers nm → ∃ q p, Account_Peers a !! q = Some p ∧ RPC_WgPubKey rpc = Peer_Key p }.

Lemma toSyncResponse_first {W} config peer peers creds a pk (w : W) :
  (∀ p, p ∈ peers ↔ sees a pk p) →
  wp (toSyncResponse config peer peers creds (Network_Serial (Account_Network a)))
    (λ r w', w' = w ∧ ∀ u, r = Ok u → first_update config a pk u) w.
Proof.
  intros Hp. unfold toSyncResponse. wp_step. eapply wp_mono; [apply toWiretrusteeConfig_uris|].
  intros [c|e|s|] w1 [-> Hc]; simpl; try done. wp_step. split; [done|]. intros u [= <-]. split.
  { exists c. split; [done|]. by apply Hc. }
  eexists. split; [done|]. split; [done|]. split.
  - intros key. unfold map_keys. simpl.
    assert (key ∈ RPC_WgPubKey <$> toRemotePeerConfig peers ↔ acl a pk key) as Hkeys.
    { unfold toRemotePeerConfig. rewrite <-list_fmap_compose, list_elem_of_fmap, acl_sees.
      setoid_rewrite Hp. unfold compose. simpl. naive_solver. }
    case_bool_decide as Hlen; [|by rewrite elem_of_list_to_set].
    apply nil_length_inv in Hlen. rewrite Hlen in Hkeys. rewrite <-Hkeys. set_solver.
  - intros rpc (p & -> & (_ & q & _ & Hst & _)%Hp)%list_elem_of_fmap. by exists q, p.
Qed.

Section sync.
Context `{Runtime} `{TurnHash} `{CryptoLaws} `{JwtLib} `{Wires} `{!WireLaws SyncResponse}.
Context (s : Server).

(** What a peer's access control rests on: the indexes of the store are those of
    its accounts, as a restart makes them, the rules are well formed, and the
    peer is in no group of another account. *)
Record acl_ready (w : World) (a : Account) (pk : string) : Prop := {
  ar_keyed : well_keyed (World_Store w);
  ar_derived : derived (Accounts (World_Store w)) (World_Store w);
  ar_account : peer_account pk (World_Store w) = Some a;
  ar_rules : rules_keyed a;
  ar_resolve : rules_resolve a;
  ar_local : local_peer pk a (World_Store w) }.

Lemma sendInitialSync_sends c_key peer a st :
  acl_ready (St_World st) a (Peer_Key peer) →
  wp (sendInitialSync s (PublicKey c_key) peer) (λ r st', r = Ok tt →
    ∃ u em, St_Sent st' = St_Sent st ++ [em] ∧ delivers s c_key u em ∧
      first_update (Srv_config s) a (Peer_Key peer) u) st.
Proof.
  intros []. unfold sendInitialSync. wp_step. apply wp_lift.
  eapply wp_mono; [by apply GetNetworkMap_acl|]. intros r w1 (Hs1 & nm & -> & Hnet & Hp). simpl.
  unfold time_based. wp_step. wp_step; [|done]. simpl. wp_step.
  eapply (wp_mono _ (λ r st', St_Sent st' = St_Sent st ∧ r ≠ Blocked)).
  { destruct (TURN_TimeBasedCredentials _); [|by wp_step]. wp_step. apply wp_lift.
    unfold GenerateCredentials. rt_go. done. }
  intros [creds|e|m|] st1 [Hst1 _]; simpl; try done. wp_step. unfold CurrentSerial. rewrite Hnet.
  eapply wp_mono; [by apply toSyncResponse_first|].
  intros [u|e|m|] st2 [-> Hu]; simpl; try done. wp_step. wp_step. apply wp_lift.
  eapply wp_mono; [apply EncryptMessage_run|]. intros [b|e|m|] w2 [_ Hb]; simpl; try done.
  wp_step. eapply wp_mono; [apply srv_Send_spec|]. intros [[]|e|m|] st3 [_ Hsent]; simpl; try done.
  intros _. simpl in Hsent. rewrite Hst1 in Hsent. eexists u, _. split; [exact Hsent|]. split; [|by apply Hu].
  split; [done|exact Hb].
Qed.
End sync.

(* ------------------------------------------------------------------ *)
(** ** The engine at the other end *)

Section engine.
Context `{Runtime} `{TurnHash} `{CryptoLaws} `{JwtLib} `{Wires} `{!WireLaws SyncResponse}
  `{WgCtrlLaws} `{Ice} `{Net} `{SignalAPI} `{DurationText}.
Context (s : Server).
Implicit Types cw : CWorld.

(** What must parse for an engine to take its updates: the servers' URLs and
    the keys of the account's peers. *)
Record acceptable (config : Config) (a : Account) : Prop := {
  ac_urls : ∀ uri, uri ∈ server_uris config → ∃ u, ice_ParseURL uri = inr u;
  ac_keys : ∀ q p, Account_Peers a !! q = Some p → ∃ k, ParseKey (Peer_Key p) = inr k }.

(** The engine [cw] knows exactly the peers of the access-control list. *)
Definition follows (a : Account) (pk : string) cw : Prop :=
  View_Serial (view cw) = Network_Serial (Account_Network a) ∧
  ∀ key, key ∈ View_Keys (view cw) ↔ acl a pk key.

Lemma first_update_applied config a pk u cw :
  eng_inv cw → first_update config a pk u → acceptable config a →
  (View_Serial (view cw) ≤ Network_Serial (Account_Network a))%Z →
  wp (handleSync u) (λ r cw', r = Ok tt ∧ follows a pk cw') cw.
Proof.
  intros Hi [(c & Hc & Huris) (nm & Hnm & Hser & Hkeys & Hrpc)] [Hurls Hparse] Hle.
  eapply wp_mono; [by apply handleSync_spec|]. intros [[]|e|m|] cw' (_ & _ & Hr); try done.
  - split; [done|]. unfold follows. rewrite Hr. unfold apply_update, apply_map. rewrite Hnm, Hser.
    rewrite (proj2 (Z.ltb_ge _ _)) by done. done.
  - exfalso. destruct Hr as [[(c' & Hc' & Hbad)|(nm' & rpc & Hnm' & Hin & Hk)] _].
    + assert (c' = c) as -> by congruence.
      destruct Hbad as [(t & Ht & Hp)|(x & Hx & Hp)].
      * destruct (Hurls (HostConfig_Uri (PHC_HostConfig t))) as [v Hv]; [|congruence].
        rewrite <-Huris. apply elem_of_app. right. apply list_elem_of_fmap. by exists t.
      * destruct (Hurls (HostConfig_Uri x)) as [v Hv]; [|congruence].
        rewrite <-Huris. apply elem_of_app. left. apply list_elem_of_fmap. by exists x.
    + assert (nm' = nm) as -> by congruence. destruct (Hrpc rpc Hin) as (q & p & Hq & Hk').
      destruct (Hparse q p Hq) as [k Hk2]. congruence.
Qed.

(** The client takes the one message [em] of its stream and listens on. *)
Definition takes (c_key : Key) (em : EncryptedMessage) cw cw' : Prop :=
  ∃ w w', receiveEvents c_key handleSync (PublicKey (Srv_wgKey s)) [inr em] (mkSyncWorld w cw)
    = (Blocked, mkSyncWorld w' cw').

Lemma delivered_taken c_key u em w cw (P : CWorld → Prop) :
  random_works → delivers s c_key u em →
  wp (handleSync u) (λ r cw', r = Ok tt ∧ P cw') cw →
  wp (receiveEvents c_key handleSync (PublicKey (Srv_wgKey s)) [inr em])
    (λ r sw', r = Blocked ∧ P (Sy_Handler sw')) (mkSyncWorld w cw).
Proof.
  intros Hrand [_ Hs] Hw. simpl.
  pose proof (opens_to_run _ _ u (EM_Body em) w (sealed_opens _ _ _ _ Hs) Hrand) as Hd.
  unfold wp, mbind, M_bind, on_world, handle in *. simpl.
  destruct (DecryptMessage (PublicKey (Srv_wgKey s)) c_key (EM_Body em) w) as [r w1]. simpl in Hd. subst r. simpl.
  destruct (handleSync u cw) as [r cw']. simpl in Hw. destruct Hw as [-> HP]. simpl. done.
Qed.


(** A peer that has opened a stream and whose engine has gone from [cw] to
    [cw'] by its first message. *)
Definition joins (c_key : Key) (a : Account) (pk : string) cw cw' : Prop :=
  ∃ st st' em peer, Peer_Key peer = pk ∧ acl_ready (St_World st) a pk ∧
    sendInitialSync s (PublicKey c_key) peer st = (Ok tt, st') ∧
    St_Sent st' = St_Sent st ++ [em] ∧ takes c_key em cw cw'.

Lemma joins_follows config c_key a pk cw cw' :
  random_works → eng_reachable (newEngine config) cw → acceptable (Srv_config s) a →
  (View_Serial (view cw) ≤ Network_Serial (Account_Network a))%Z →
  joins c_key a pk cw cw' → follows a pk cw'.
Proof.
  intros Hrand Hreach Hacc Hle (st & st' & em & peer & <- & Hready & Hrun & Hsent & w & w' & Htake).
  apply eng_reachable_inv in Hreach as [Hi _]; [|apply newEngine_sys_inv].
  pose proof (sendInitialSync_sends s c_key peer a st Hready) as Hw.
  apply (wp_run _ _ _ _ _ Hrun) in Hw. destruct (Hw eq_refl) as (u & em' & Hsent' & Hdel & Hu).
  assert (em' = em) as -> by (rewrite Hsent in Hsent'; apply app_inv_head in Hsent'; by injection Hsent').
  pose proof (delivered_taken c_key u em w cw (follows a (Peer_Key peer)) Hrand Hdel) as Ht.
  ospecialize (Ht _); [by eapply first_update_applied|]. by apply (wp_run _ _ _ _ _ Htake) in Ht as [_ ?].
Qed.

End engine.

(* ------------------------------------------------------------------ *)
(** ** A concrete network *)

(** The first updates of [p] and [q] of [acl_world], whose credentials are
    made at the second external call of the stream. *)
Definition demo_peers_of (pk : string) : list Peer :=
  match (@GetNetworkMap demo_runtime pk acl_world).1 with Ok nm => NetworkMap_Peers nm | _ => [] end.
Definition demo_first (peer : Peer) : SyncResponse :=
  let w := (@GetNetworkMap demo_runtime (Peer_Key peer) acl_world).2 in
  let creds := match (@GenerateCredentials demo_runtime demo_hash demo_turn w).1 with Ok c => Some c | _ => None end in
  match (toSyncResponse demo_config peer (demo_peers_of (Peer_Key peer))
           (if TURN_TimeBasedCredentials demo_turn then creds else None) 0 ()).1 with
  | Ok u => u | _ => peers_update 0 [] end.

(** An encoding of these two. *)
Definition network_wires : Wires := {|
  wire_login_request := @wire_login_request demo_wires;
  wire_login_response := @wire_login_response demo_wires;
  wire_sync_request := @wire_sync_request demo_wires;
  wire_sync_response := form_wire (λ k, if decide (k = "p") then demo_first (demo_peer "p" 1) else demo_first (demo_peer "q" 2))
    (λ u, if decide (u = demo_first (demo_peer "p" 1)) then "p" else "q");
  wire_flow_request := @wire_flow_request demo_wires;
  wire_flow := @wire_flow demo_wires |}.

Definition demo_opens (k : Key) (peer : Peer) : Res unit * Stream :=
  @sendInitialSync demo_runtime demo_hash demo_crypto network_wires demo_server k peer (mkStream acl_world []).

Lemma acl_world_ready pk :
  peer_account pk (World_Store acl_world) = Some acl_account → acl_ready acl_world acl_account pk.
Proof.
  intros Ha. split; [| |exact Ha|..].
  - exact acl_well_keyed.
  - exact acl_derived.
  - exact acl_rules_keyed.
  - exact acl_rules_resolve.
  - exact (acl_local pk).
Defined.

(** The members of [g1] are on both sides of the default rule. *)
Lemma demo_two_sided pk : pk ∈ ["p"; "q"] → two_sided acl_account pk.
Proof.
  intros Hin. split; exists "r1", (mkRule "r1" "Default" ["g1"] ["g1"] TrafficFlowBidirect); (split; [reflexivity|]);
    exists "g1", (mkGroup "g1" "All" ["p"; "q"]); (split; [left|]); (split; [reflexivity|exact Hin]).
Defined.

Lemma demo_acceptable : @acceptable demo_crypto (demo_ice None) (Srv_config demo_server) acl_account.
Proof.
  split.
  - intros uri Huri. simpl. destruct (decide (uri = "")) as [->|]; [|eexists; reflexivity].
    exfalso. revert Huri. apply (bool_decide_unpack _). vm_compute. exact I.
  - intros q p Hp. unfold acl_account in Hp. simpl in Hp. exists (string_bytes (Peer_Key p)). simpl.
    destruct (decide (Peer_Key p = "")) as [He|]; [|reflexivity]. exfalso. revert p Hp He.
    enough (map_Forall (λ _ p, Peer_Key p ≠ "") (Account_Peers acl_account)) as Hall by exact (Hall q).
    apply (bool_decide_unpack _). vm_compute. exact I.
Defined.


(** An engine takes the message of its fresh stream. *)
Definition demo_engine_start : CWorld := newEngine demo_engine_config.
Definition demo_joined (k : Key) (peer : Peer) : CWorld :=
  match St_Sent (demo_opens k peer).2 with
  | [em] => Sy_Handler (@receiveEvents demo_crypto network_wires _ k
      (@handleSync demo_runtime demo_crypto (demo_ice None) demo_duration) [9]%Z [inr em] (mkSyncWorld emptyWorld demo_engine_start)).2
  | _ => demo_engine_start
  end.

Definition demo_joins := @joins demo_runtime demo_hash demo_crypto network_wires (demo_ice None) demo_duration demo_server.

Lemma demo_joins_of k peer :
  peer_account (Peer_Key peer) (World_Store acl_world) = Some acl_account →
  (demo_opens k peer).1 = Ok tt → length (St_Sent (demo_opens k peer).2) = 1 →
  (∀ em, St_Sent (demo_opens k peer).2 = [em] → (@receiveEvents demo_crypto network_wires _ k
      (@handleSync demo_runtime demo_crypto (demo_ice None) demo_duration) [9]%Z [inr em]
      (mkSyncWorld emptyWorld demo_engine_start)).1 = Blocked) →
  demo_joins k acl_account (Peer_Key peer) demo_engine_start (demo_joined k peer).
Proof.
  intros Ha Hok Hlen Hrec. unfold demo_joined.
  destruct (demo_opens k peer) as [r st'] eqn:Hrun. simpl in *. subst r.
  destruct (St_Sent st') as [|em [|]] eqn:Hsent; [discriminate Hlen| |discriminate Hlen].
  exists (mkStream acl_world []), st', em, peer. split; [reflexivity|]. split; [by apply acl_world_ready|].
  split; [exact Hrun|]. split; [exact Hsent|]. exists emptyWorld. specialize (Hrec em eq_refl).
  match goal with |- context [Sy_Handler ?x.2] => destruct x as [r sw'] eqn:Hx end.
  simpl in *. subst r. exists (Sy_World sw'). destruct sw'. exact Hx.
Qed.

Lemma demo_joins_p : demo_joins [112]%Z acl_account "p" demo_engine_start (demo_joined [112]%Z (demo_peer "p" 1)).
Proof.
  apply (demo_joins_of [112]%Z (demo_peer "p" 1));
    [vm_compute; reflexivity|vm_compute; reflexivity|vm_compute; reflexivity|].
  intros em Hem. vm_compute in Hem. injection Hem as <-. vm_compute. reflexivity.
Qed.
Lemma demo_joins_q : demo_joins [113]%Z acl_account "q" demo_engine_start (demo_joined [113]%Z (demo_peer "q" 2)).
Proof.
  apply (demo_joins_of [113]%Z (demo_peer "q" 2));
    [vm_compute; reflexivity|vm_compute; reflexivity|vm_compute; reflexivity|].
  intros em Hem. vm_compute in Hem. injection Hem as <-. vm_compute. reflexivity.
Qed.

