(* ===== verification/OAuth.v ===== *)
(** * OAuth: the device authorization flow (client/internal/oauth.go)

    The client asks the identity provider for a device code, shows the user
    where to enter it, and then polls for the token.  HTTP and the encodings
    are parameters, by the class [HttpLib]; [X] is the state of the outside. *)

From S2P Require Import Prelude GoLib Http.

Record Hosted := mkHosted { Hosted_Audience : string; Hosted_ClientID : string; Hosted_Domain : string }.
Record DeviceAuthInfo := mkDeviceAuthInfo {
  DAI_DeviceCode : string; DAI_UserCode : string; DAI_VerificationURI : string;
  DAI_VerificationURIComplete : string; DAI_ExpiresIn : Z; DAI_Interval : Z }.
Record TokenInfo := mkTokenInfo {
  TI_AccessToken : string; TI_RefreshToken : string; TI_IDToken : string;
  TI_TokenType : string; TI_ExpiresIn : Z }.

(** [TokenInfo] is embedded: its fields are fields of the object. *)
Record TokenRequestResponse := mkTokenResponse {
  TRR_Error : string; TRR_ErrorDescription : string; TRR_TokenInfo : TokenInfo }.

(** An HTTP answer: its status, and the body unless reading it fails. *)
Record HttpAnswer := mkHttpAnswer { HA_Status : Z; HA_Body : error + string }.

Class HttpLib (X : Type) := {
  http_NewRequest : string → option error;         (** a POST to the URL *)
  http_Do : string → Json → M X HttpAnswer;
  json_Parse : string → error + Json;
  base64_RawURL : string → error + string
}.

(* ------------------------------------------------------------------ *)
(** ** Decoding *)

Definition assign_DeviceAuthInfo (key : string) (v : Json) (i : DeviceAuthInfo) : option DeviceAuthInfo :=
  let '(mkDeviceAuthInfo d u vu vc e n) := i in
  if is_field "device_code" key then (λ x, mkDeviceAuthInfo x u vu vc e n) <$> decode_string d v
  else if is_field "user_code" key then (λ x, mkDeviceAuthInfo d x vu vc e n) <$> decode_string u v
  else if is_field "verification_uri" key then (λ x, mkDeviceAuthInfo d u x vc e n) <$> decode_string vu v
  else if is_field "verification_uri_complete" key then (λ x, mkDeviceAuthInfo d u vu x e n) <$> decode_string vc v
  else if is_field "expires_in" key then (λ x, mkDeviceAuthInfo d u vu vc x n) <$> decode_int e v
  else if is_field "interval" key then (λ x, mkDeviceAuthInfo d u vu vc e x) <$> decode_int n v
  else Some i.

Definition assign_TokenInfo (key : string) (v : Json) (t : TokenInfo) : option TokenInfo :=
  let '(mkTokenInfo a r i y e) := t in
  if is_field "access_token" key then (λ x, mkTokenInfo x r i y e) <$> decode_string a v
  else if is_field "refresh_token" key then (λ x, mkTokenInfo a x i y e) <$> decode_string r v
  else if is_field "id_token" key then (λ x, mkTokenInfo a r x y e) <$> decode_string i v
  else if is_field "token_type" key then (λ x, mkTokenInfo a r i x e) <$> decode_string y v
  else if is_field "expires_in" key then (λ x, mkTokenInfo a r i y x) <$> decode_int e v
  else Some t.

Definition assign_TokenRequestResponse (key : string) (v : Json) (t : TokenRequestResponse) : option TokenRequestResponse :=
  let '(mkTokenResponse e d i) := t in
  if is_field "error" key then (λ x, mkTokenResponse x d i) <$> decode_string e v
  else if is_field "error_description" key then (λ x, mkTokenResponse e x i) <$> decode_string d v
  else mkTokenResponse e d <$> assign_TokenInfo key v i.

Definition zero_info : DeviceAuthInfo := mkDeviceAuthInfo "" "" "" "" 0 0.
Definition zero_token : TokenRequestResponse := mkTokenResponse "" "" (mkTokenInfo "" "" "" "" 0).

(** The claims the validation reads: [aud], a string. *)
Definition assign_Claims (key : string) (v : Json) (aud : string) : option string :=
  if is_field "aud" key then decode_string aud v else Some aud.

Section oauth.
Context {X : Type} `{HttpLib X}.

Definition json_error : error := Plain "json: cannot unmarshal".

(** [json.Unmarshal(body, &v)]. *)
Definition Unmarshal {A} (assign : string → Json → A → option A) (zero : A) (body : string) : M X A :=
  match json_Parse body with
  | inl e => fail e
  | inr j => or_fail (decode_struct assign zero j) json_error
  end.

(* ------------------------------------------------------------------ *)
(** ** Requests *)

Definition HostedGrantType : string := "urn:ietf:params:oauth:grant-type:device_code".
Definition HostedRefreshGrant : string := "refresh_token".

(** A field that is left out when it is empty. *)
Definition omitempty (name v : string) : list (string * Json) :=
  if decide (v = "") then [] else [(name, JString v)].
Definition TokenRequestPayload (grantType deviceCode clientID refreshToken : string) : Json :=
  JObject ([("grant_type", JString grantType)] ++ omitempty "device_code" deviceCode ++
           [("client_id", JString clientID)] ++ omitempty "refresh_token" refreshToken).

Definition wrap (prefix : string) (e : error) : error := Plain (prefix +:+ error_text e).

Definition post (url : string) (payload : Json) (creating doing reading : string) : M X (string * Z) :=
  _ ← match http_NewRequest url with None => mret tt | Some e => fail (wrap creating e) end;
  res ← map_err (wrap doing) (http_Do url payload);
  match HA_Body res with
  | inl e => fail (wrap reading e)
  | inr body => mret (body, HA_Status res)
  end.

Definition requestToken (url : string) (payload : Json) : M X (string * Z) :=
  post url payload "creating token request failed with error: " "doing token request failed with error: "
    "reading token body failed with error: ".

Definition RequestDeviceCode (h : Hosted) : M X DeviceAuthInfo :=
  let url := "https://" +:+ Hosted_Domain h +:+ "/oauth/device/code" in
  res ← post url (JObject [("audience", JString (Hosted_Audience h)); ("client_id", JString (Hosted_ClientID h))])
          "creating request failed with error: " "doing request failed with error: "
          "reading body failed with error: ";
  let '(body, statusCode) := res in
  if decide (statusCode ≠ 200%Z) then
    fail (Plain ("request device code returned status " +:+ Itoa statusCode +:+ " error: " +:+ body))
  else map_err (wrap "unmarshaling response failed with error: ") (Unmarshal assign_DeviceAuthInfo zero_info body).

(** The second part of the token between dots; without a dot the index is out
    of range. *)
Definition isValidAccessToken (token audience : string) : M X unit :=
  if decide (token = "") then fail (Plain "token received is empty")
  else
    match Split token "."%char !! 1 with
    | None => panic "index out of range [1] with length 1"
    | Some encodedClaims =>
        claimsString ← match base64_RawURL encodedClaims with inl e => fail e | inr c => mret c end;
        aud ← Unmarshal assign_Claims "" claimsString;
        if decide (aud = audience) then mret tt else fail (Plain "invalid audience")
    end.

(* ------------------------------------------------------------------ *)
(** ** Waiting for the token *)

(** A turn of the loop of [WaitToken] on a tick: the token, or the interval to
    go on with. *)
Definition wait_turn (h : Hosted) (info : DeviceAuthInfo) (interval : Z) : M X (Z + TokenInfo) :=
  let url := "https://" +:+ Hosted_Domain h +:+ "/oauth/token" in
  res ← map_err (wrap "wait for token: ")
          (requestToken url (TokenRequestPayload HostedGrantType (DAI_DeviceCode info) (Hosted_ClientID h) ""));
  let '(body, statusCode) := res in
  if (499 <? statusCode)%Z then fail (Plain ("wait token code returned error: " +:+ body))
  else
    tokenResponse ← map_err (wrap "parsing token response failed with error: ")
                      (Unmarshal assign_TokenRequestResponse zero_token body);
    if decide (TRR_Error tokenResponse ≠ "") then
      if decide (TRR_Error tokenResponse = "authorization_pending") then mret (inl interval)
      else if decide (TRR_Error tokenResponse = "slow_down") then
        mret (inl (wrap_i64 (interval + 3 * 1000000000)))
      else fail (Plain (TRR_ErrorDescription tokenResponse))
    else
      _ ← map_err (wrap "validate access token failed with error: ")
            (isValidAccessToken (TI_AccessToken (TRR_TokenInfo tokenResponse)) (Hosted_Audience h));
      mret (inr (TRR_TokenInfo tokenResponse)).

(** [time.NewTicker] and [Ticker.Reset] panic when the interval is not
    positive. *)
Definition start_ticker (interval : Z) : M X unit :=
  if (0 <? interval)%Z then mret tt else panic "non-positive interval for NewTicker".
Definition first_interval (info : DeviceAuthInfo) : Z := wrap_i64 (DAI_Interval info * 1000000000).

(** What happens next while it waits: a tick, or the end of the context. *)
Inductive wait_event := Tick | CtxDone (e : error).

Fixpoint wait_loop (h : Hosted) (info : DeviceAuthInfo) (interval : Z) (events : list wait_event) : M X TokenInfo :=
  match events with
  | [] => blocked
  | CtxDone e :: _ => fail e
  | Tick :: events' =>
      r ← wait_turn h info interval;
      match r with
      | inr tokenInfo => mret tokenInfo
      | inl interval' =>
          _ ← (if decide (interval' = interval) then mret tt else start_ticker interval');
          wait_loop h info interval' events'
      end
  end.

Definition WaitToken (h : Hosted) (info : DeviceAuthInfo) (events : list wait_event) : M X TokenInfo :=
  _ ← start_ticker (first_interval info);
  wait_loop h info (first_interval info) events.

Definition RotateAccessToken (h : Hosted) (refreshToken : string) : M X TokenInfo :=
  let url := "https://" +:+ Hosted_Domain h +:+ "/oauth/token" in
  res ← map_err (wrap "rotate access token: ")
          (requestToken url (TokenRequestPayload HostedRefreshGrant "" (Hosted_ClientID h) refreshToken));
  let '(body, statusCode) := res in
  if decide (statusCode ≠ 200%Z) then fail (Plain ("rotating token returned error: " +:+ body))
  else
    tokenResponse ← map_err (wrap "parsing token response failed with error: ")
                      (Unmarshal assign_TokenRequestResponse zero_token body);
    _ ← map_err (wrap "validate access token failed with error: ")
          (isValidAccessToken (TI_AccessToken (TRR_TokenInfo tokenResponse)) (Hosted_Audience h));
    mret (TRR_TokenInfo tokenResponse).
End oauth.

(* ------------------------------------------------------------------ *)
(** ** Properties *)

Section spec.
Context {X : Type} `{HttpLib X}.
Implicit Types x : X.

(** The claims part of the token decodes, and its audience is [audience]. *)
Definition for_audience (audience token : string) : Prop :=
  ∃ encoded claims j, Split token "."%char !! 1 = Some encoded ∧ base64_RawURL encoded = inr claims ∧
    json_Parse claims = inr j ∧ decode_struct assign_Claims "" j = Some audience.

Lemma isValidAccessToken_spec token audience x :
  wp (isValidAccessToken token audience) (λ r x', x' = x ∧
    match r with
    | Ok _ => token ≠ "" ∧ for_audience audience token
    | Err _ => token = "" ∨ ¬ for_audience audience token
    | Panic _ => token ≠ "" ∧ Split token "."%char !! 1 = None
    | Blocked => False
    end) x.
Proof.
  unfold isValidAccessToken, Unmarshal. case_decide as Hne; [wp_step; by auto|].
  destruct (Split token "."%char !! 1) as [enc|] eqn:Henc; simpl; [|by wp_step].
  assert (∀ P : Prop, (∀ encoded claims j, Split token "."%char !! 1 = Some encoded → base64_RawURL encoded = inr claims →
    json_Parse claims = inr j → decode_struct assign_Claims "" j = Some audience → P) →
    for_audience audience token → P) as Hinv by (intros P HP (? & ? & ? & ? & ? & ? & ?); eauto).
  wp_step. destruct (base64_RawURL enc) as [e|claims] eqn:Hb; wp_step.
  { split; [done|]. right. refine (Hinv False _). intros; simplify_eq; congruence. }
  wp_step. destruct (json_Parse claims) as [e|j] eqn:Hj; wp_step.
  { split; [done|]. right. refine (Hinv False _). intros; simplify_eq; congruence. }
  - case_decide as Ha; wp_step; (split; [done|]).
    + split; [done|]. exists enc, claims, j. by subst.
    + right. refine (Hinv False _). intros; simplify_eq; congruence.
  - split; [done|]. right. refine (Hinv False _). intros; simplify_eq; congruence.
Qed.

Lemma wait_turn_spec h info interval x :
  wp (wait_turn h info interval) (λ r _, ∀ ti, r = Ok (inr ti) →
    for_audience (Hosted_Audience h) (TI_AccessToken ti)) x.
Proof.
  unfold wait_turn. wp_step. wp_step. unfold wp at 1.
  destruct (requestToken _ _ x) as [[[body code]|e|s|] x1]; simpl; try done.
  wp_step; [by wp_step|]. wp_step. wp_step. unfold wp at 1.
  destruct (Unmarshal _ _ _ x1) as [[t|e|s|] x2]; simpl; try done.
  case_decide; [case_decide; [by wp_step|]; case_decide; by wp_step|].
  wp_step. wp_step. eapply wp_mono; [apply isValidAccessToken_spec|].
  intros [[]|e|s|] x3 [_ Hv]; simpl; try done. wp_step. intros ti [= <-]. apply Hv.
Qed.

Lemma wait_loop_spec h info events interval x :
  wp (wait_loop h info interval events) (λ r _, ∀ ti, r = Ok ti →
    for_audience (Hosted_Audience h) (TI_AccessToken ti)) x.
Proof.
  revert interval x. induction events as [|[|e] events IH]; intros interval x; simpl; [by wp_step| |by wp_step].
  wp_step. eapply wp_mono; [apply wait_turn_spec|]. intros [[i|ti]|e|s|] x1 Ht; simpl; try done.
  - wp_step. case_decide; [wp_step; apply IH|]. unfold start_ticker. wp_step; wp_step; [apply IH|done].
  - wp_step. intros ti' [= <-]. by apply Ht.
Qed.

(** C26: whatever the identity provider answers, in however many rounds, a token
    the client goes on with carries the audience the client was configured
    with: from waiting for the user, and from a refresh. *)
Theorem accepted_token_for_audience h info events refreshToken x :
  wp (WaitToken h info events) (λ r _, ∀ ti, r = Ok ti →
    for_audience (Hosted_Audience h) (TI_AccessToken ti)) x ∧
  wp (RotateAccessToken h refreshToken) (λ r _, ∀ ti, r = Ok ti →
    for_audience (Hosted_Audience h) (TI_AccessToken ti)) x.
Proof.
  split.
  - unfold WaitToken, start_ticker. wp_step. wp_step; wp_step; [apply wait_loop_spec|done].
  - unfold RotateAccessToken. wp_step. wp_step. unfold wp at 1.
    destruct (requestToken _ _ x) as [[[body code]|e|s|] x1]; simpl; try done.
    case_decide; [by wp_step|]. wp_step. wp_step. unfold wp at 1.
    destruct (Unmarshal _ _ _ x1) as [[t|e|s|] x2]; simpl; try done.
    wp_step. wp_step. eapply wp_mono; [apply isValidAccessToken_spec|].
    intros [[]|e|s|] x3 [_ Hv]; simpl; try done. wp_step. intros ti [= <-]. apply Hv.
Qed.

(** What the answer to the request for a device code leaves out is zero. *)
Lemma decode_fields_interval fields i :
  Forall (λ kv, is_field "interval" kv.1 = false) fields →
  ∀ i', decode_fields assign_DeviceAuthInfo fields i = Some i' → DAI_Interval i' = DAI_Interval i.
Proof.
  unfold decode_fields. intros Hall. revert i. induction Hall as [|[k v] fields Hk Hall IH]; intros i i'; simpl.
  { by intros [= <-]. }
  simpl in Hk. destruct (assign_DeviceAuthInfo k v i) as [i1|] eqn:Ha; simpl.
  - intros ->%IH. unfold assign_DeviceAuthInfo in Ha. destruct i as [d u vu vc e n]. rewrite Hk in Ha.
    repeat case_match; simplify_option_eq; done.
  - clear. induction fields as [|kv fields IH]; simpl; [done|]. apply IH.
Qed.

(** The interval is optional in the answer of the identity provider (RFC
    8628 gives it a default); without it the ticker is started with zero, which
    panics: the daemon goes down as soon as it waits for the login. *)
Theorem missing_interval_panics h fields body code events x x1 :
  http_NewRequest ("https://" +:+ Hosted_Domain h +:+ "/oauth/device/code") = None →
  http_Do ("https://" +:+ Hosted_Domain h +:+ "/oauth/device/code")
    (JObject [("audience", JString (Hosted_Audience h)); ("client_id", JString (Hosted_ClientID h))]) x
    = (Ok (mkHttpAnswer code (inr body)), x1) →
  json_Parse body = inr (JObject fields) →
  Forall (λ kv, is_field "interval" kv.1 = false) fields →
  wp (info ← RequestDeviceCode h; WaitToken h info events) (λ r _,
    (∃ s, r = Panic s) ∨ ∃ e, r = Err e) x ∧
  ∀ info x', RequestDeviceCode h x = (Ok info, x') →
    ∃ s, WaitToken h info events x' = (Panic s, x').
Proof.
  intros Hreq Hdo Hj Hall.
  assert (∀ info x', RequestDeviceCode h x = (Ok info, x') → ∃ s, WaitToken h info events x' = (Panic s, x')) as Hp.
  { intros info x'. unfold RequestDeviceCode, post. rewrite Hreq. unfold mbind, M_bind, map_err. simpl.
    rewrite Hdo. simpl. case_decide; [done|]. unfold Unmarshal. rewrite Hj. simpl.
    destruct (decode_fields _ _ _) as [i|] eqn:Hd; simpl; [|done]. intros [= <- <-].
    apply decode_fields_interval in Hd; [|done]. unfold WaitToken, start_ticker, first_interval, mbind, M_bind.
    rewrite Hd. by eexists. }
  split; [|done]. wp_step. unfold wp at 1. destruct (RequestDeviceCode h x) as [r x2] eqn:Hr. simpl.
  destruct r as [info|e|s|]; simpl; [|by eauto..|].
  - destruct (Hp info x2 eq_refl) as [s Hs]. unfold wp. rewrite Hs. left. by eexists.
  - exfalso. revert Hr. unfold RequestDeviceCode, post, mbind, M_bind, map_err. rewrite Hreq. simpl. rewrite Hdo. simpl.
    case_decide; [done|]. unfold Unmarshal. rewrite Hj. simpl. by destruct (decode_fields _ _ _).
Qed.
End spec.

(* ------------------------------------------------------------------ *)
(** ** A concrete identity provider *)

(** Bodies are named; [X] counts the requests: the user authorizes the device
    before the third. *)
Definition demo_bodies : list (string * Json) :=
  [("code", JObject [("device_code", JString "d"); ("user_code", JString "u"); ("expires_in", JNumber 900)]);
   ("pending", JObject [("error", JString "authorization_pending")]);
   ("slow", JObject [("error", JString "slow_down")]);
   ("token", JObject [("access_token", JString "h.claims.s"); ("expires_in", JNumber 60)]);
   ("claims", JObject [("aud", JString "api")])].
Definition demo_http : HttpLib nat := {|
  http_NewRequest _ := None;
  http_Do url _ n :=
    (Ok (mkHttpAnswer 200 (inr (if decide (url = "https://idp/oauth/device/code") then "code"
       else if decide (n = 0) then "pending" else if decide (n = 1) then "slow" else "token"))), S n);
  json_Parse s := match list_find (λ b, b.1 = s) demo_bodies with
                  | Some (_, b) => inr b.2 | None => inl (Plain "invalid character") end;
  base64_RawURL s := inr s |}.
Definition demo_hosted : Hosted := mkHosted "api" "client" "idp".

Lemma accepted_token_for_audience_witness :
  let info := mkDeviceAuthInfo "d" "u" "" "" 900 5 in
  ∃ ti x', @WaitToken nat demo_http demo_hosted info [Tick; Tick; Tick] 0 = (Ok ti, x') ∧ x' = 3 ∧
    @for_audience nat demo_http "api" (TI_AccessToken ti).
Proof.
  intros info. eexists _, _. split; [vm_compute; reflexivity|]. split; [reflexivity|].
  destruct (@accepted_token_for_audience nat demo_http demo_hosted info [Tick; Tick; Tick] "" 0) as [Hw _].
  unfold wp in Hw. apply Hw. vm_compute. reflexivity.
Defined.

Lemma missing_interval_panics_witness :
  ∃ info x1, @RequestDeviceCode nat demo_http demo_hosted 0 = (Ok info, x1) ∧
    ∃ s, @WaitToken nat demo_http demo_hosted info [Tick] x1 = (Panic s, x1).
Proof.
  eexists _, _. split; [vm_compute; reflexivity|].
  apply (@missing_interval_panics nat demo_http demo_hosted
    [("device_code", JString "d"); ("user_code", JString "u"); ("expires_in", JNumber 900)]
    "code" 200 [Tick] 0 1).
  - reflexivity.
  - reflexivity.
  - vm_compute. reflexivity.
  - repeat constructor.
  - vm_compute. reflexivity.
Defined.
