(* ===== verification/DaemonModel.v ===== *)
(** * DaemonModel: the state of the client's daemon

    The structs of client/internal (config.go, state.go) and
    client/server (server.go), the state [DWorld] their code runs in, and the
    classes of what is outside the process.  The type [X] is the state of that
    outside: the management service, the identity provider, the operating
    system. *)

From S2P Require Import Prelude GoLib Model Turn Encryption GrpcServer MgmClient ClientModel OAuth.

(* ------------------------------------------------------------------ *)
(** ** Configuration (config.go) *)

(** net/url: what the code reads of a URL; [URL_Text] is its [String]. *)
Record URL := mkURL { URL_Scheme : string; URL_Host : string; URL_Text : string }.

Record ClConfig := mkClConfig {
  Cfg_PrivateKey : string; Cfg_PreSharedKey : string;
  Cfg_ManagementURL : option URL; Cfg_AdminURL : option URL;
  Cfg_WgIface : string; Cfg_IFaceBlackList : list string }.

Definition set_Cfg_ManagementURL v c := mkClConfig (Cfg_PrivateKey c) (Cfg_PreSharedKey c) v (Cfg_AdminURL c) (Cfg_WgIface c) (Cfg_IFaceBlackList c).
Definition set_Cfg_AdminURL v c := mkClConfig (Cfg_PrivateKey c) (Cfg_PreSharedKey c) (Cfg_ManagementURL c) v (Cfg_WgIface c) (Cfg_IFaceBlackList c).
Definition set_Cfg_PreSharedKey v c := mkClConfig (Cfg_PrivateKey c) v (Cfg_ManagementURL c) (Cfg_AdminURL c) (Cfg_WgIface c) (Cfg_IFaceBlackList c).

#[export] Instance URL_eq_dec : EqDecision URL.
Proof. solve_decision. Defined.
#[export] Instance ClConfig_eq_dec : EqDecision ClConfig.
Proof. solve_decision. Defined.

(* ------------------------------------------------------------------ *)
(** ** Connection state (state.go) *)

Inductive StatusType := StIdle | StConnecting | StConnected | StNeedsLogin | StLoginFailed.
#[export] Instance StatusType_eq_dec : EqDecision StatusType.
Proof. solve_decision. Defined.

Definition StatusType_String (s : StatusType) : string :=
  match s with
  | StIdle => "Idle" | StConnecting => "Connecting" | StConnected => "Connected"
  | StNeedsLogin => "NeedsLogin" | StLoginFailed => "LoginFailed"
  end.

Record contextState := mkContextState { CS_err : option error; CS_status : StatusType }.
#[export] Instance contextState_eq_dec : EqDecision contextState.
Proof. solve_decision. Defined.

(* ------------------------------------------------------------------ *)
(** ** The daemon (client/server/server.go) *)

(** Contexts and clients are identities; [None] is nil. *)
Record oauthAuthFlow := mkOauthFlow {
  OF_expiresAt : Z; OF_client : option Hosted; OF_info : DeviceAuthInfo; OF_waitCancel : option nat }.

Record DaemonServer := mkDaemonServer {
  DS_actCancel : option nat;
  DS_managementURL : string; DS_adminURL : string; DS_configPath : string; DS_logFile : string;
  DS_oauth : oauthAuthFlow;
  DS_config : option ClConfig }.

Definition set_DS_actCancel v s := mkDaemonServer v (DS_managementURL s) (DS_adminURL s) (DS_configPath s) (DS_logFile s) (DS_oauth s) (DS_config s).
Definition set_DS_managementURL v s := mkDaemonServer (DS_actCancel s) v (DS_adminURL s) (DS_configPath s) (DS_logFile s) (DS_oauth s) (DS_config s).
Definition set_DS_adminURL v s := mkDaemonServer (DS_actCancel s) (DS_managementURL s) v (DS_configPath s) (DS_logFile s) (DS_oauth s) (DS_config s).
Definition set_DS_oauth v s := mkDaemonServer (DS_actCancel s) (DS_managementURL s) (DS_adminURL s) (DS_configPath s) (DS_logFile s) v (DS_config s).
Definition set_DS_config v s := mkDaemonServer (DS_actCancel s) (DS_managementURL s) (DS_adminURL s) (DS_configPath s) (DS_logFile s) (DS_oauth s) v.
Definition set_OF_waitCancel v o := mkOauthFlow (OF_expiresAt o) (OF_client o) (OF_info o) v.
Definition set_OF_expiresAt v o := mkOauthFlow v (OF_client o) (OF_info o) (OF_waitCancel o).

(** A context with a cancel function, its parent (nil: the context of the
    process, which is done when the process ends), and whether it has been
    cancelled. *)
Record Ctx := mkCtx { Ctx_Parent : option nat; Ctx_Cancelled : bool }.

(** A goroutine that runs the client: its context and configuration, whether
    its error is kept in the state, and where it stands: at the start of an
    attempt (or pausing before it), or waiting for the end of the engine. *)
Inductive RunPhase := RunReady | RunUp (engineCtx mgm sig : nat) (engine : CWorld).
Record Run := mkRun { Run_ctx : nat; Run_config : ClConfig; Run_wrap : bool; Run_phase : RunPhase }.

(** A call of [WaitSSOLogin] that waits for the token: its context, the
    context with the timeout, the client and the ticker's interval. *)
Record Wait := mkWait {
  Wait_ctx : nat; Wait_waitCtx : nat; Wait_client : Hosted; Wait_info : DeviceAuthInfo; Wait_interval : Z }.

(** The process: the files that hold configurations ([None]: not one that
    parses), the connection state, the server, the contexts, the connections
    open, the running clients and the waiting calls, and the outside. *)
Record DWorld (X : Type) := mkDWorld {
  DW_Files : gmap string (option ClConfig);
  DW_State : contextState;
  DW_Server : DaemonServer;
  DW_Ctxs : gmap nat Ctx;
  DW_Open : gset nat;
  DW_Runs : gmap nat Run;
  DW_Waits : gmap nat Wait;
  DW_Next : nat;
  DW_Ext : X }.
Arguments mkDWorld {X}.
Arguments DW_Files {X}.
Arguments DW_State {X}.
Arguments DW_Server {X}.
Arguments DW_Ctxs {X}.
Arguments DW_Open {X}.
Arguments DW_Runs {X}.
Arguments DW_Waits {X}.
Arguments DW_Next {X}.
Arguments DW_Ext {X}.

Section setters.
Context {X : Type}.
Implicit Types w : DWorld X.
Definition set_Files v w := mkDWorld v (DW_State w) (DW_Server w) (DW_Ctxs w) (DW_Open w) (DW_Runs w) (DW_Waits w) (DW_Next w) (DW_Ext w).
Definition set_State v w := mkDWorld (DW_Files w) v (DW_Server w) (DW_Ctxs w) (DW_Open w) (DW_Runs w) (DW_Waits w) (DW_Next w) (DW_Ext w).
Definition set_Server v w := mkDWorld (DW_Files w) (DW_State w) v (DW_Ctxs w) (DW_Open w) (DW_Runs w) (DW_Waits w) (DW_Next w) (DW_Ext w).
Definition set_Ctxs v w := mkDWorld (DW_Files w) (DW_State w) (DW_Server w) v (DW_Open w) (DW_Runs w) (DW_Waits w) (DW_Next w) (DW_Ext w).
Definition set_Open v w := mkDWorld (DW_Files w) (DW_State w) (DW_Server w) (DW_Ctxs w) v (DW_Runs w) (DW_Waits w) (DW_Next w) (DW_Ext w).
Definition set_Runs v w := mkDWorld (DW_Files w) (DW_State w) (DW_Server w) (DW_Ctxs w) (DW_Open w) v (DW_Waits w) (DW_Next w) (DW_Ext w).
Definition set_Waits v w := mkDWorld (DW_Files w) (DW_State w) (DW_Server w) (DW_Ctxs w) (DW_Open w) (DW_Runs w) v (DW_Next w) (DW_Ext w).
Definition set_DNext v w := mkDWorld (DW_Files w) (DW_State w) (DW_Server w) (DW_Ctxs w) (DW_Open w) (DW_Runs w) (DW_Waits w) v (DW_Ext w).
Definition set_Ext (v : X) w := mkDWorld (DW_Files w) (DW_State w) (DW_Server w) (DW_Ctxs w) (DW_Open w) (DW_Runs w) (DW_Waits w) (DW_Next w) v.
End setters.

(* ------------------------------------------------------------------ *)
(** ** The outside *)

(** The clients of the management service and of the signal exchange
    (management/client, signal/client), by our private key. *)
Class MgmAPI (X : Type) := {
  mgm_NewClient : string → Key → bool → M X unit;
  mgm_GetServerPublicKey : Key → M X Key;
  mgm_Login : Key → Key → option Info → M X LoginResponse;
  mgm_Register : Key → Key → string → string → option Info → M X LoginResponse;
  mgm_GetDeviceAuthorizationFlow : Key → Key → M X PbDeviceAuthorizationFlow;
  mgm_Close : M X unit;
  sig_NewClient : string → Key → bool → M X unit;
  sig_Close : M X unit
}.

(** The system: its description, the clock, files, and the key generator of
    wgctrl. *)
Class Sys (X : Type) := {
  sys_GetInfo : X → Info * X;
  sys_Now : X → Z * X;
  sys_File : X → option error * X;      (** the outcome of a call on files *)
  wg_GeneratePrivateKey : X → (error + Key) * X
}.

(** net/url: [ParseRequestURI]; google/uuid: [Parse], the text of whose result
    is also there with an error. *)
Class Texts := {
  url_ParseRequestURI : string → error + URL;
  uuid_Parse : string → string * option error
}.

(* ------------------------------------------------------------------ *)
(** ** Calls *)

Section calls.
Context {X : Type}.
Abbreviation MD := (M (DWorld X)).
Implicit Types w : DWorld X.

(** Calls of the outside: any, one that returns or fails, one that returns. *)
Definition outside {A} (m : M X A) : MD A := λ w,
  let '(r, x) := m (DW_Ext w) in (r, set_Ext x w).

Definition sys_result {A} (m : X → (error + A) * X) : MD A := λ w,
  let '(r, x) := m (DW_Ext w) in (match r with inr a => Ok a | inl e => Err e end, set_Ext x w).
Definition sys_try (m : X → option error * X) : MD unit := λ w,
  let '(r, x) := m (DW_Ext w) in (match r with None => Ok tt | Some e => Err e end, set_Ext x w).
Definition sys_get {A} (m : X → A * X) : MD A := λ w,
  let '(a, x) := m (DW_Ext w) in (Ok a, set_Ext x w).

Definition server : MD DaemonServer := gets DW_Server.
Definition mod_server (f : DaemonServer → DaemonServer) : MD unit :=
  modify (λ w, set_Server (f (DW_Server w)) w).

(** [context.WithCancel]: a new context. *)
Definition WithCancel (parent : option nat) : MD nat :=
  i ← gets DW_Next;
  _ ← modify (λ w, set_DNext (S i) (set_Ctxs (<[i := mkCtx parent false]> (DW_Ctxs w)) w));
  mret i.
(** Calling the cancel function of context [i]. *)
Definition cancel_context (i : nat) : MD unit :=
  modify (λ w, set_Ctxs (alter (λ c, mkCtx (Ctx_Parent c) true) i (DW_Ctxs w)) w).

(** Done: cancelled, itself or its parent. *)
Definition flagged (ctxs : gmap nat Ctx) (i : nat) : bool := from_option Ctx_Cancelled false (ctxs !! i).
Definition ctx_done (ctxs : gmap nat Ctx) (i : nat) : bool :=
  flagged ctxs i || from_option (flagged ctxs) false (ctxs !! i ≫= Ctx_Parent).

Lemma wp_outside {A} (m : M X A) (Q : Res A → DWorld X → Prop) w :
  wp m (λ r x, Q r (set_Ext x w)) (DW_Ext w) → wp (outside m) Q w.
Proof. unfold wp, outside. by destruct (m (DW_Ext w)). Qed.

Lemma wp_sys_result {A} (m : X → (error + A) * X) (Q : Res A → DWorld X → Prop) w :
  (∀ a x, (m (DW_Ext w)).1 = inr a → Q (Ok a) (set_Ext x w)) →
  (∀ e x, (m (DW_Ext w)).1 = inl e → Q (Err e) (set_Ext x w)) → wp (sys_result m) Q w.
Proof. unfold wp, sys_result. destruct (m (DW_Ext w)) as [[e|a] x]; simpl; auto. Qed.

Lemma wp_sys_try (m : X → option error * X) (Q : Res unit → DWorld X → Prop) w :
  (∀ x, Q (Ok tt) (set_Ext x w)) → (∀ e x, Q (Err e) (set_Ext x w)) → wp (sys_try m) Q w.
Proof. intros H1 H2. unfold wp, sys_try. destruct (m (DW_Ext w)) as [[e|] x]; [apply H2|apply H1]. Qed.

Lemma wp_sys_get {A} (m : X → A * X) (Q : Res A → DWorld X → Prop) w :
  (∀ a x, Q (Ok a) (set_Ext x w)) → wp (sys_get m) Q w.
Proof. intros HQ. unfold wp, sys_get. destruct (m (DW_Ext w)); apply HQ. Qed.

Lemma wp_outside_any {A} (m : M X A) (Q : Res A → DWorld X → Prop) w :
  (∀ r x, Q r (set_Ext x w)) → wp (outside m) Q w.
Proof. intros HQ. unfold wp, outside. destruct (m (DW_Ext w)); apply HQ. Qed.
End calls.

(** Symbolic execution of the calls of the system. *)
Ltac sys_step :=
  lazymatch goal with
  | |- wp (sys_try _) _ _ => apply wp_sys_try; [intros ?|intros ? ?]
  | |- wp (sys_get _) _ _ => apply wp_sys_get; intros ? ?
  | |- wp (sys_result _) _ _ => apply wp_sys_result; [intros ? ? ?|intros ? ? ?]
  | _ => wp_step
  end; simpl.
Ltac sys_go := repeat sys_step.
