(* ===== verification/ClientConfig.v ===== *)
(** * ClientConfig: the client's configuration (client/internal/config.go)

    The configuration file holds the client's private key; it is generated
    once, and later calls may override the URLs and the pre-shared key, which
    are then written back. *)

From S2P Require Import Prelude GoLib Model Turn Encryption GrpcServer Signal SignalClient MgmClient ClientModel Http OAuth DaemonModel.

(** iface/ifacename.go *)
Definition WgInterfaceDefault : string := "wt0".

(** What [init] parses. *)
Definition managementURLDefault : URL :=
  mkURL "https" "api.wiretrustee.com:33073" "https://api.wiretrustee.com:33073".

(** What the user interface sends for a key it does not show. *)
Definition masked : string := "**********".

Section config.
Context {X : Type} `{Sys X} `{Texts} `{Crypto}.
Abbreviation MD := (M (DWorld X)).

(** [os.Stat] and [os.IsNotExist]. *)
Definition is_absent (path : string) : MD bool :=
  gets (λ w, bool_decide (DW_Files w !! path = None)).

(** util.WriteJson: see [FileStore.WriteJson]. *)
Definition write_config (path : string) (config : ClConfig) : MD unit :=
  _ ← sys_try sys_File;  (* MkdirAll *)
  _ ← sys_try sys_File;  (* TempFile *)
  _ ← sys_try sys_File;  (* Close *)
  _ ← sys_try sys_File;  (* WriteFile *)
  _ ← sys_try sys_File;  (* Rename *)
  modify (λ w, set_Files (<[path := Some config]> (DW_Files w)) w).

(** util.ReadJson. *)
Definition read_config (path : string) : MD ClConfig :=
  _ ← sys_try sys_File;  (* Open *)
  _ ← sys_try sys_File;  (* ReadAll *)
  files ← gets DW_Files;
  match files !! path with
  | Some (Some c) => mret c
  | _ => fail (Plain "invalid character")
  end.

(** The error names the first argument, the name of the service. *)
Definition parseURL (serviceName managementURL : string) : MD URL :=
  match url_ParseRequestURI managementURL with
  | inl err => fail err
  | inr u =>
      if decide (URL_Scheme u ≠ "https" ∧ URL_Scheme u ≠ "http") then
        fail (Plain ("invalid " +:+ serviceName +:+ " URL provided " +:+ managementURL
          +:+ ". Supported format [http|https]://[host]:[port]"))
      else mret u
  end.

(** A failure of the key generator panics. *)
Definition generateKey : MD string :=
  r ← try (sys_result wg_GeneratePrivateKey);
  match r with
  | inl e => panic (error_text e)
  | inr key => mret (Key_String key)
  end.

(** [adminURL] is not used. *)
Definition createNewConfig (managementURL adminURL configPath preSharedKey : string) : MD ClConfig :=
  wgKey ← generateKey;
  u ← (if decide (managementURL ≠ "") then parseURL "Management URL" managementURL
       else mret managementURLDefault);
  let config := mkClConfig wgKey preSharedKey (Some u) None WgInterfaceDefault [WgInterfaceDefault; "tun0"] in
  _ ← write_config configPath config;
  mret config.

(** [String] of a nil management URL panics. *)
Definition override_management (managementURL : string) (config : ClConfig) : MD (ClConfig * bool) :=
  if decide (managementURL ≠ "") then
    u ← deref (Cfg_ManagementURL config);
    if decide (URL_Text u ≠ managementURL) then
      newURL ← parseURL "Management URL" managementURL;
      mret (set_Cfg_ManagementURL (Some newURL) config, true)
    else mret (config, false)
  else mret (config, false).

Definition override_admin (adminURL : string) (config : ClConfig) : MD (ClConfig * bool) :=
  if decide (adminURL ≠ "" ∧ (URL_Text <$> Cfg_AdminURL config) ≠ Some adminURL) then
    newURL ← parseURL "Admin Panel URL" adminURL;
    mret (set_Cfg_AdminURL (Some newURL) config, true)
  else mret (config, false).

Definition override_key (preSharedKey : option string) (config : ClConfig) : ClConfig * bool :=
  match preSharedKey with
  | Some k => if decide (Cfg_PreSharedKey config ≠ k) then (set_Cfg_PreSharedKey k config, true) else (config, false)
  | None => (config, false)
  end.

Definition ReadConfig (managementURL adminURL configPath : string) (preSharedKey : option string) : MD ClConfig :=
  absent ← is_absent configPath;
  if (absent : bool) then fail (Status NotFound "config file doesn't exist")
  else
    config ← read_config configPath;
    r1 ← override_management managementURL config;
    r2 ← override_admin adminURL r1.1;
    let '(config, refresh) := override_key preSharedKey r2.1 in
    _ ← when (r1.2 || r2.2 || refresh) (write_config configPath config);
    mret config.

Definition GetConfig (managementURL adminURL configPath preSharedKey : string) : MD ClConfig :=
  absent ← is_absent configPath;
  if (absent : bool) then createNewConfig managementURL adminURL configPath preSharedKey
  else ReadConfig managementURL adminURL configPath
         (if decide (preSharedKey = masked) then None else Some preSharedKey).
End config.

(* ------------------------------------------------------------------ *)
(** ** Specifications *)

Section spec.
Context {X : Type} `{Sys X} `{Texts} `{Crypto}.
Implicit Types w : DWorld X.

(** Worlds that differ in what the outside is like only, and in the file
    [path]. *)
Definition same_daemon w w' : Prop := w' = set_Ext (DW_Ext w') w.
Definition file_only (path : string) w w' : Prop :=
  w' = set_Ext (DW_Ext w') (set_Files (DW_Files w') w) ∧
  ∀ p, p ≠ path → DW_Files w' !! p = DW_Files w !! p.

Lemma file_only_refl path w : file_only path w w.
Proof. split; [by destruct w|done]. Qed.
Lemma same_file_only path w w' : same_daemon w w' → file_only path w w'.
Proof. intros ->. split; [by destruct w|done]. Qed.
Lemma file_only_ext path x w w' : file_only path (set_Ext x w) w' → file_only path w w'.
Proof. intros [-> Hf]. by split. Qed.
Hint Resolve file_only_refl same_file_only file_only_ext : wp.

(** The URL a call asks for: the old one unless another is given. *)
Definition url_for (given : string) (old u : option URL) : Prop :=
  (u = old ∧ (given = "" ∨ URL_Text <$> old = Some given)) ∨
  (given ≠ "" ∧ ∃ v, u = Some v ∧ url_ParseRequestURI given = inr v ∧ (URL_Scheme v = "https" ∨ URL_Scheme v = "http")).

Lemma parseURL_spec name s w :
  wp (parseURL name s) (λ r w', w' = w ∧
    match r with
    | Ok u => url_ParseRequestURI s = inr u ∧ (URL_Scheme u = "https" ∨ URL_Scheme u = "http")
    | Err _ => True
    | _ => False
    end) w.
Proof.
  unfold parseURL. destruct (url_ParseRequestURI s) as [e|u]; [by wp_step|]. case_decide as Hd; wp_step; [done|].
  split; [done|]. split; [done|]. destruct (decide (URL_Scheme u = "https")); [by left|].
  destruct (decide (URL_Scheme u = "http")); [by right|]. by destruct Hd.
Qed.

Lemma write_config_spec path c w :
  wp (write_config path c) (λ r w', file_only path w w' ∧
    match r with
    | Ok _ => DW_Files w' = <[path := Some c]> (DW_Files w)
    | Err _ => DW_Files w' = DW_Files w
    | _ => False
    end) w.
Proof.
  unfold write_config, file_only. sys_go; (split; [split; [done|]; simpl|done]); intros; [|done..].
  by rewrite lookup_insert_ne.
Qed.

Lemma read_config_spec path w :
  wp (read_config path) (λ r w', same_daemon w w' ∧
    match r with Ok c => DW_Files w !! path = Some (Some c) | Err _ => True | _ => False end) w.
Proof. unfold read_config, same_daemon. sys_go; done. Qed.

Lemma override_management_spec s c w :
  wp (override_management s c) (λ r w', w' = w ∧
    match r with
    | Ok (c', b) => (∃ u, c' = set_Cfg_ManagementURL u c ∧ url_for s (Cfg_ManagementURL c) u) ∧ (b = false → c' = c)
    | Err _ => True
    | Panic _ => Cfg_ManagementURL c = None
    | Blocked => False
    end) w.
Proof.
  assert (set_Cfg_ManagementURL (Cfg_ManagementURL c) c = c) as Hid by (by destruct c).
  unfold override_management. case_decide as Hs; [|wp_step; split; [done|]; split; [|done]].
  - wp_step. wp_step; [|done]. simpl. case_decide as Ht.
    + wp_step. eapply wp_mono; [apply parseURL_spec|]. intros [u|e|m|] w1 [-> Hu]; simpl; try done.
      wp_step. split; [done|]. split; [|done]. eexists. split; [done|]. right. split; [done|]. by exists u.
    + wp_step. split; [done|]. split; [|done]. exists (Cfg_ManagementURL c). rewrite Hid. split; [done|]. left.
      split; [done|]. right. rename select (Cfg_ManagementURL c = Some _) into Hc. rewrite Hc. simpl.
      destruct (decide (URL_Text a = s)); [congruence|done].
  - exists (Cfg_ManagementURL c). rewrite Hid. split; [done|]. left. split; [done|]. left.
    destruct (decide (s = "")); [done|]. by destruct Hs.
Qed.

Lemma override_admin_spec s c w :
  wp (override_admin s c) (λ r w', w' = w ∧
    match r with
    | Ok (c', b) => (∃ u, c' = set_Cfg_AdminURL u c ∧ url_for s (Cfg_AdminURL c) u) ∧ (b = false → c' = c)
    | Err _ => True
    | _ => False
    end) w.
Proof.
  assert (set_Cfg_AdminURL (Cfg_AdminURL c) c = c) as Hid by (by destruct c).
  unfold override_admin. case_decide as Hs.
  - wp_step. eapply wp_mono; [apply parseURL_spec|]. intros [u|e|m|] w1 [-> Hu]; simpl; try done.
    wp_step. split; [done|]. split; [|done]. eexists. split; [done|]. right. split; [by destruct Hs|]. by exists u.
  - wp_step. split; [done|]. split; [|done]. exists (Cfg_AdminURL c). rewrite Hid. split; [done|]. left.
    split; [done|]. destruct (decide (s = "")); [by left|]. right.
    destruct (decide (URL_Text <$> Cfg_AdminURL c = Some s)); [done|]. by destruct Hs.
Qed.

(** What a configuration becomes. *)
Record overridden (m a : string) (psk : option string) (old c : ClConfig) : Prop := {
  ov_key : Cfg_PrivateKey c = Cfg_PrivateKey old;
  ov_iface : Cfg_WgIface c = Cfg_WgIface old;
  ov_black : Cfg_IFaceBlackList c = Cfg_IFaceBlackList old;
  ov_psk : Cfg_PreSharedKey c = default (Cfg_PreSharedKey old) psk;
  ov_management : url_for m (Cfg_ManagementURL old) (Cfg_ManagementURL c);
  ov_admin : url_for a (Cfg_AdminURL old) (Cfg_AdminURL c) }.

Lemma override_key_spec psk c :
  (override_key psk c).1 = set_Cfg_PreSharedKey (default (Cfg_PreSharedKey c) psk) c ∧
  ((override_key psk c).2 = false → (override_key psk c).1 = c).
Proof.
  unfold override_key. destruct psk as [k|]; [case_decide as Hk|]; simpl; (split; [|done]); [done| |by destruct c].
  assert (Cfg_PreSharedKey c = k) as <-; [|by destruct c].
  destruct (decide (Cfg_PreSharedKey c = k)); [done|]. by destruct Hk.
Qed.

Lemma ReadConfig_spec m a path psk w :
  wp (ReadConfig m a path psk) (λ r w', file_only path w w' ∧
    match r with
    | Ok c => DW_Files w' !! path = Some (Some c) ∧
        ∃ old, DW_Files w !! path = Some (Some old) ∧ overridden m a psk old c
    | Err e => DW_Files w' = DW_Files w
    | Panic _ => ∃ old, DW_Files w !! path = Some (Some old) ∧ Cfg_ManagementURL old = None
    | Blocked => False
    end) w.
Proof.
  unfold ReadConfig, is_absent. do 2 wp_step. case_bool_decide as Habs; [wp_step; auto with wp|].
  wp_step. eapply wp_mono; [apply read_config_spec|].
  intros [old|e|s|] w1 [Hw1 Hold]; simpl; try done; unfold same_daemon in Hw1; rewrite Hw1; [|done]. clear Habs.
  wp_step. eapply wp_mono; [apply override_management_spec|].
  intros [[c1 b1]|e|s|] w2 [-> Hc1]; simpl; try done; [|split; [done|]; by exists old].
  destruct Hc1 as [(u & -> & Hu) Hb1]. wp_step. eapply wp_mono; [apply override_admin_spec|].
  intros [[c2 b2]|e|s|] w2 [-> Hc2]; simpl; try done. destruct Hc2 as [(v & -> & Hv) Hb2].
  destruct (override_key_spec psk (set_Cfg_AdminURL v (set_Cfg_ManagementURL u old))) as [Hk Hb3].
  destruct (override_key psk _) as [c b3]. simpl in *. subst c.
  assert (overridden m a psk old (set_Cfg_PreSharedKey (default (Cfg_PreSharedKey old) psk)
    (set_Cfg_AdminURL v (set_Cfg_ManagementURL u old)))) as Hov by (by split).
  wp_step. wp_step.
  - eapply wp_mono; [apply write_config_spec|]. intros [[]|e|s|] w2 [Hf Hw2]; simpl; try done.
    wp_step. split; [done|]. split; [rewrite Hw2; apply lookup_insert_eq|]. by exists old.
  - wp_step. split; [done|]. apply orb_false_iff in H2 as [[-> ->]%orb_false_iff ->].
    specialize (Hb1 eq_refl). specialize (Hb2 eq_refl). specialize (Hb3 eq_refl).
    rewrite Hb3, Hb2, Hb1 in *. split; [done|]. by exists old.
Qed.

Lemma generateKey_spec w :
  wp generateKey (λ r w', same_daemon w w' ∧
    match r with
    | Ok k => True
    | Panic _ => ∃ x e, wg_GeneratePrivateKey x = (inl e, DW_Ext w')
    | _ => False
    end) w.
Proof.
  unfold generateKey. do 2 wp_step. unfold sys_result, wp.
  destruct (wg_GeneratePrivateKey (DW_Ext w)) as [[e|k] x] eqn:Hg; simpl; (split; [done|]); [by eauto|done].
Qed.

Lemma createNewConfig_spec m a path psk w :
  wp (createNewConfig m a path psk) (λ r w', file_only path w w' ∧
    match r with
    | Ok c => DW_Files w' !! path = Some (Some c) ∧ Cfg_PreSharedKey c = psk ∧ Cfg_AdminURL c = None ∧
        is_Some (Cfg_ManagementURL c)
    | Err e => DW_Files w' = DW_Files w
    | Panic _ => ∃ x e, wg_GeneratePrivateKey x = (inl e, DW_Ext w')
    | Blocked => False
    end) w.
Proof.
  unfold createNewConfig. wp_step. eapply wp_mono; [apply generateKey_spec|].
  intros [k|e|s|] w1 [Hw1 Hk]; simpl; try done; [|by eauto with wp]. unfold same_daemon in Hw1. rewrite Hw1.
  generalize (DW_Ext w1) as x. clear dependent w1. intros x.
  wp_step. eapply (wp_mono _ (λ r w', w' = set_Ext x w ∧ match r with Ok _ | Err _ => True | _ => False end)).
  { case_decide; [|by wp_step]. eapply wp_mono; [apply parseURL_spec|]. by intros [] ? []. }
  intros [u|e|s|] w1 [-> Hr]; simpl; try done. wp_step.
  eapply wp_mono; [apply write_config_spec|]. intros [[]|e|s|] w2 [Hf Hw2]; simpl; try done.
  wp_step. split; [done|]. rewrite Hw2, lookup_insert_eq. split; [done|]. split; [done|]. split; [done|by eexists].
Qed.

(** ** Properties *)

Lemma GetConfig_spec m a path psk w :
  wp (GetConfig m a path psk) (λ r w', file_only path w w' ∧
    match r with
    | Ok c => DW_Files w' !! path = Some (Some c) ∧
        match DW_Files w !! path with
        | Some o => ∃ old, o = Some old ∧ overridden m a (if decide (psk = masked) then None else Some psk) old c
        | None => Cfg_PreSharedKey c = psk ∧ Cfg_AdminURL c = None ∧ is_Some (Cfg_ManagementURL c)
        end
    | Err e => DW_Files w' = DW_Files w
    | Panic _ => match DW_Files w !! path with
        | Some o => ∃ old, o = Some old ∧ Cfg_ManagementURL old = None
        | None => ∃ x e, wg_GeneratePrivateKey x = (inl e, DW_Ext w')
        end
    | Blocked => False
    end) w.
Proof.
  unfold GetConfig, is_absent. do 2 wp_step. case_bool_decide as Habs.
  - rewrite Habs. apply createNewConfig_spec.
  - eapply wp_mono; [apply ReadConfig_spec|]. intros r w' [Hf Hr]. split; [done|].
    destruct (DW_Files w !! path) as [o|] eqn:Ho; [|done].
    destruct r as [c|e|s|]; try done.
    + destruct Hr as (Hc & old & [= ->] & Hov). split; [done|]. by exists old.
    + destruct Hr as (old & [= ->] & Hm). by exists old.
Qed.

(** C25: the identity of a client is for ever: a call that gets a configuration
    where there is one keeps its private key, interface and black list, takes
    the URLs and the pre-shared key it is given and keeps those it is not, with
    http or https URLs only; and what it returns is what the file holds.  A
    call that fails leaves all files as they are. *)
Theorem GetConfig_keeps_identity m a path psk w :
  wp (GetConfig m a path psk) (λ r w',
    (∀ p, p ≠ path → DW_Files w' !! p = DW_Files w !! p) ∧
    match r with
    | Ok c => DW_Files w' !! path = Some (Some c) ∧
        ∀ old, DW_Files w !! path = Some (Some old) →
          overridden m a (if decide (psk = masked) then None else Some psk) old c
    | Err e => DW_Files w' = DW_Files w
    | _ => True
    end) w.
Proof.
  eapply wp_mono; [apply GetConfig_spec|]. intros r w' [[_ Hf] Hr]. split; [done|].
  destruct r as [c|e|s|]; try done. destruct Hr as [Hc Hr]. split; [done|]. intros old Hold.
  rewrite Hold in Hr. by destruct Hr as (? & [= <-] & ?).
Qed.

(** What has been configured is found again: after a successful call, a call
    that overrides nothing returns the same configuration and leaves the file
    alone, unless reading the file fails. *)
Theorem config_roundtrip m a path psk c w w1 :
  GetConfig m a path psk w = (Ok c, w1) → Cfg_ManagementURL c ≠ None →
  wp (GetConfig "" "" path masked) (λ r w2, DW_Files w2 !! path = Some (Some c) ∧ (r = Ok c ∨ ∃ e, r = Err e)) w1.
Proof.
  intros Hrun Hurl. pose proof (GetConfig_spec m a path psk w) as Hw. apply (wp_run _ _ _ _ _ Hrun) in Hw as (_ & Hc & _).
  eapply wp_mono; [apply GetConfig_spec|]. intros r w2 [_ Hr]. rewrite Hc in Hr.
  destruct r as [c'|e|s|]; [|by rewrite Hr; eauto| |done].
  - destruct Hr as (Hc2 & old & [= <-] & Hov). rewrite decide_True in Hov by done.
    assert (c' = c) as ->; [|by eauto]. destruct Hov as [? ? ? Hpsk [[Hu _]|[[] _]] [[Hv _]|[[] _]]]; try done.
    destruct c, c'; simpl in *. congruence.
  - by destruct Hr as (? & [= <-] & ?).
Qed.

(** The mask the user interface shows in place of a pre-shared key is only
    recognised where a configuration exists: in a new one it becomes the key. *)
Theorem masked_key_stored m a path c w w' :
  DW_Files w !! path = None → GetConfig m a path masked w = (Ok c, w') →
  Cfg_PreSharedKey c = masked ∧ DW_Files w' !! path = Some (Some c).
Proof.
  intros Habs Hrun. pose proof (GetConfig_spec m a path masked w) as Hw.
  apply (wp_run _ _ _ _ _ Hrun) in Hw as (_ & Hc & Hr). rewrite Habs in Hr. by destruct Hr as (? & _).
Qed.
End spec.

(* ------------------------------------------------------------------ *)
(** ** A concrete configuration *)

Definition demo_sys : Sys nat := {|
  sys_GetInfo n := (demo_info, S n); sys_Now n := (Z.of_nat n * 1000000000, S n)%Z;
  sys_File n := (None, S n); wg_GeneratePrivateKey n := (inr [107]%Z, S n) |}.
Definition demo_texts : Texts := {|
  url_ParseRequestURI s :=
    if String.prefix "https://" s then inr (mkURL "https" (String.substring 8 100 s) s)
    else if String.prefix "ftp://" s then inr (mkURL "ftp" (String.substring 6 100 s) s)
    else inl (Plain ("parse " +:+ s +:+ ": invalid URI for request"));
  uuid_Parse s := if decide (String.length s = 36) then (ToLower s, None)
                  else ("00000000-0000-0000-0000-000000000000", Some (Plain "invalid UUID length")) |}.

Definition demo_daemon_server : DaemonServer :=
  mkDaemonServer None "" "" "config.json" "log" (mkOauthFlow 0 None zero_info None) None.
Definition demo_daemon (files : gmap string (option ClConfig)) : DWorld nat :=
  mkDWorld files (mkContextState None StIdle) demo_daemon_server ∅ ∅ ∅ ∅ 0 0.
Definition demo_get (m a path psk : string) : DWorld nat → Res ClConfig * DWorld nat :=
  @GetConfig nat demo_sys demo_texts demo_crypto m a path psk.

Lemma config_roundtrip_witness :
  ∃ c w1 w2, demo_get "https://example.com" "" "config.json" "secret" (demo_daemon ∅) = (Ok c, w1) ∧
    Cfg_PreSharedKey c = "secret" ∧ demo_get "" "" "config.json" masked w1 = (Ok c, w2).
Proof.
  pose (w1 := (demo_get "https://example.com" "" "config.json" "secret" (demo_daemon ∅)).2).
  eassert (demo_get "https://example.com" "" "config.json" "secret" (demo_daemon ∅) = (Ok _, w1)) as Hrun
    by (vm_compute; reflexivity).
  eexists _, w1, (demo_get "" "" "config.json" masked w1).2. split; [exact Hrun|]. split; [reflexivity|].
  destruct (@config_roundtrip nat demo_sys demo_texts demo_crypto "https://example.com" "" "config.json" "secret" _ _ _
    Hrun ltac:(discriminate)) as (_ & [Hr|[e He]]).
  - unfold demo_get in *. rewrite (surjective_pairing (GetConfig "" "" "config.json" masked w1)), Hr. reflexivity.
  - exfalso. vm_compute in He. discriminate He.
Defined.

Lemma masked_key_stored_witness :
  ∃ c w', demo_get "" "" "config.json" masked (demo_daemon ∅) = (Ok c, w') ∧ Cfg_PreSharedKey c = masked.
Proof.
  pose (w' := (demo_get "" "" "config.json" masked (demo_daemon ∅)).2).
  eassert (demo_get "" "" "config.json" masked (demo_daemon ∅) = (Ok _, w')) as Hrun by (vm_compute; reflexivity).
  clearbody w'. eexists _, w'. split; [exact Hrun|].
  exact (proj1 (@masked_key_stored nat demo_sys demo_texts demo_crypto "" "" "config.json" _ (demo_daemon ∅) w' eq_refl Hrun)).
Defined.
