(* ===== verification/ClientLogin.v ===== *)
(** * ClientLogin: the client's state, login and life cycle (client/internal/state.go, login.go, connect.go, config.go)

    Logging a peer in at the management service, registering it when it is not
    known, and the operation of [RunClient], which brings the engine up.  The
    operation is cut where it waits for the end of the engine. *)

From S2P Require Import Prelude GoLib Model Network UpdateChannel FileStore Account Groups Peers Turn Encryption Jwt GrpcServer Util Signal SignalClient MgmClient ClientModel WgIface PeerConn Engine Http OAuth DaemonModel ClientConfig.

Section login.
Context {X : Type} `{Sys X} `{MgmAPI X} `{Texts} `{Crypto}.
Abbreviation MD := (M (DWorld X)).

(* ------------------------------------------------------------------ *)
(** ** The connection state (state.go) *)

Definition state_Set (update : StatusType) : MD unit :=
  modify (set_State (mkContextState None update)).
Definition state_Status : MD StatusType :=
  c ← gets DW_State;
  match CS_err c with
  | Some err => fail err
  | None => mret (CS_status c)
  end.
Definition state_Wrap (err : error) : MD error :=
  _ ← modify (λ w, set_State (mkContextState (Some err) (CS_status (DW_State w))) w);
  mret err.

(* ------------------------------------------------------------------ *)
(** ** Connections *)

Definition opening (m : M X unit) : MD nat :=
  _ ← outside m;
  i ← gets DW_Next;
  _ ← modify (λ w, set_DNext (S i) (set_Open ({[i]} ∪ DW_Open w) w));
  mret i.
Definition closing_conn (i : nat) (m : M X unit) : MD unit :=
  _ ← outside m;
  modify (λ w, set_Open (DW_Open w ∖ {[i]}) w).

(** [status.FromError(err)] and a code. *)
Definition has_code (c : code) (err : error) : bool :=
  let '(c', ok) := from_error (Some err) in ok && bool_decide (c' = c).

Definition is_https (u : URL) : bool := bool_decide (URL_Scheme u = "https").

(* ------------------------------------------------------------------ *)
(** ** Login (login.go) *)

Definition client_registerPeer (key serverPublicKey : Key) (setupKey jwtToken : string) : MD LoginResponse :=
  let '(validSetupKey, err) := uuid_Parse setupKey in
  match err with
  | Some e =>
      if decide (jwtToken = "") then
        fail (Status InvalidArgument ("invalid setup-key or no sso information provided, err: " +:+ error_text e))
      else
        info ← sys_get sys_GetInfo;
        outside (mgm_Register key serverPublicKey validSetupKey jwtToken (Some info))
  | None =>
      info ← sys_get sys_GetInfo;
      outside (mgm_Register key serverPublicKey validSetupKey jwtToken (Some info))
  end.

Definition loginPeer (key serverPublicKey : Key) (setupKey jwtToken : string) : MD LoginResponse :=
  sysInfo ← sys_get sys_GetInfo;
  r ← try (outside (mgm_Login key serverPublicKey (Some sysInfo)));
  match r with
  | inr loginResp => mret loginResp
  | inl err =>
      if has_code PermissionDenied err then client_registerPeer key serverPublicKey setupKey jwtToken
      else fail err
  end.

(** The client is closed only at the end. *)
Definition internal_Login (config : ClConfig) (setupKey jwtToken : string) : MD unit :=
  myPrivateKey ← match ParseKey (Cfg_PrivateKey config) with inl e => fail e | inr k => mret k end;
  url ← deref (Cfg_ManagementURL config);
  mgmClient ← opening (mgm_NewClient (URL_Host url) myPrivateKey (is_https url));
  serverKey ← outside (mgm_GetServerPublicKey myPrivateKey);
  _ ← loginPeer myPrivateKey serverKey setupKey jwtToken;
  closing_conn mgmClient mgm_Close.

(* ------------------------------------------------------------------ *)
(** ** The provider of device authorization (config.go) *)

(** [Provider.String()] of the protocol's enumeration. *)
Definition provider_name (p : Z) : string := if decide (p = 0%Z) then "HOSTED" else Itoa p.

Definition GetDeviceAuthorizationFlowInfo (config : ClConfig) : MD (string * ProviderConfig) :=
  myPrivateKey ← match ParseKey (Cfg_PrivateKey config) with inl e => fail e | inr k => mret k end;
  url ← deref (Cfg_ManagementURL config);
  mgmClient ← opening (mgm_NewClient (URL_Host url) myPrivateKey (is_https url));
  serverKey ← outside (mgm_GetServerPublicKey myPrivateKey);
  flow ← outside (mgm_GetDeviceAuthorizationFlow myPrivateKey serverKey);
  _ ← closing_conn mgmClient mgm_Close;
  mret (provider_name (PbFlow_Provider flow), PbFlow_ProviderConfig flow).

(* ------------------------------------------------------------------ *)
(** ** Connecting (connect.go) *)

Definition connectToManagement (managementAddr : string) (ourPrivateKey : Key) (tlsEnabled : bool)
    : MD (nat * LoginResponse) :=
  client ← map_err (λ err, Status FailedPrecondition ("failed connecting to Management Service : " +:+ error_text err))
             (opening (mgm_NewClient managementAddr ourPrivateKey tlsEnabled));
  serverPublicKey ← map_err (λ err, Status FailedPrecondition ("failed while getting Management Service public key: " +:+ error_text err))
                      (outside (mgm_GetServerPublicKey ourPrivateKey));
  sysInfo ← sys_get sys_GetInfo;
  loginResp ← outside (mgm_Login ourPrivateKey serverPublicKey (Some sysInfo));
  mret (client, loginResp).

Definition connectToSignal (wtConfig : option WiretrusteeConfig) (ourPrivateKey : Key) : MD nat :=
  c ← deref wtConfig;
  signal ← deref (WC_Signal c);
  map_err (λ err, Status FailedPrecondition ("failed connecting to Signal Service : " +:+ error_text err))
    (opening (sig_NewClient (HostConfig_Uri signal) ourPrivateKey (bool_decide (HostConfig_Proto signal = PB_HTTPS)))).

(** [for i := 0; i < len(l); i += 2]. *)
Fixpoint every_other (l : list string) : list string :=
  match l with
  | x :: _ :: l' => x :: every_other l'
  | _ => l
  end.

Definition createEngineConfig (key : Key) (config : ClConfig) (peerConfig : option PeerConfig) : MD EngineConfig :=
  let iFaceBlackList := foldr (λ k, insert k tt) ∅ (every_other (Cfg_IFaceBlackList config)) in
  p ← deref peerConfig;
  let engineConf psk :=
    mkEngineConfig DefaultWgPort (Cfg_WgIface config) (PeerConfig_Address p) key iFaceBlackList psk 0 0 in
  if decide (Cfg_PreSharedKey config ≠ "") then
    preSharedKey ← match ParseKey (Cfg_PreSharedKey config) with inl e => fail e | inr k => mret k end;
    mret (engineConf (Some preSharedKey))
  else mret (engineConf None).
End login.

(** engine.go *)
Definition ErrResetConnection : error := Plain "reset connection".

Section run.
Context {X : Type} `{Sys X} `{MgmAPI X} `{Texts} `{Crypto} `{Runtime} `{WgCtrl} `{Net} `{DurationText}.
Abbreviation MD := (M (DWorld X)).

(** [NewEngine] and [engine.Start], and [engine.Stop]; the engine makes its
    external calls after those of the engines before it. *)
Definition start_engine (c : EngineConfig) : MD CWorld := λ w,
  let '(r, cw) := Start (set_CTick (DW_Next w) (newEngine c)) in
  (match r with Ok _ => Ok cw | Err e => Err e | Panic s => Panic s | Blocked => Blocked end,
   set_DNext (DW_Next w + CW_Tick cw) w).
Definition stop_engine (engine : CWorld) : MD unit := λ w,
  ((Stop engine).1, w).

(** What an attempt of [RunClient]'s operation comes to: it returns an error or
    nil, or the engine is up. *)
Abbreviation Attempt := (option error + RunPhase)%type.

(** [return wrapErr(err)] when [m] fails. *)
Definition wrapping {A} (m : MD A) (k : A → MD Attempt) : MD Attempt :=
  r ← try m;
  match r with
  | inl err => e ← state_Wrap err; mret (inl (Some e))
  | inr a => k a
  end.

(** [defer cancel()]. *)
Definition cancelling (ctx : nat) (m : MD Attempt) : MD Attempt :=
  r ← m;
  match r with
  | inl _ => _ ← cancel_context ctx; mret r
  | inr _ => mret r
  end.

(** The operation up to where it waits for [engineCtx]. *)
Definition operation_begin (ctx : nat) (config : ClConfig) : MD Attempt :=
  done ← gets (λ w, ctx_done (DW_Ctxs w) ctx);
  if (done : bool) then mret (inl None)
  else
    _ ← state_Set StConnecting;
    wrapping (match ParseKey (Cfg_PrivateKey config) with inl e => fail e | inr k => mret k end) (λ myPrivateKey,
      url ← deref (Cfg_ManagementURL config);
      engineCtx ← WithCancel (Some ctx);
      cancelling engineCtx (
        r ← try (connectToManagement (URL_Host url) myPrivateKey (is_https url));
        match r with
        | inl err =>
            if has_code PermissionDenied err then _ ← state_Set StNeedsLogin; mret (inl None)
            else e ← state_Wrap err; mret (inl (Some e))
        | inr (mgmClient, loginResp) =>
            wrapping (connectToSignal (LoginR_WiretrusteeConfig loginResp) myPrivateKey) (λ signalClient,
            wrapping (createEngineConfig myPrivateKey config (LoginR_PeerConfig loginResp)) (λ engineConfig,
            wrapping (start_engine engineConfig) (λ engine,
              _ ← state_Set StConnected;
              mret (inr (RunUp engineCtx mgmClient signalClient engine)))))
        end)).

(** The rest, when [engineCtx] is done. *)
Definition operation_end (engineCtx mgmClient signalClient : nat) (engine : CWorld) : MD Attempt :=
  cancelling engineCtx (
    wrapping (closing_conn mgmClient mgm_Close) (λ _,
    wrapping (closing_conn signalClient sig_Close) (λ _,
    wrapping (stop_engine engine) (λ _,
      r ← try state_Status;
      match r with
      | inl err => if decide (err = ErrResetConnection) then mret (inl (Some err)) else mret (inl None)
      | inr _ => mret (inl None)
      end)))).

(** [RunClient] returns: its deferred function, and what its goroutine does
    with the error. *)
Definition run_return (wrap : bool) (err : option error) : MD unit :=
  r ← try state_Status;
  _ ← match r with
      | inr s => if decide (s = StNeedsLogin) then mret tt else state_Set StIdle
      | inl _ => state_Set StIdle
      end;
  match err with
  | Some e => when wrap (_ ← state_Wrap e; mret tt)
  | None => mret tt
  end.
End run.

(* ------------------------------------------------------------------ *)
(** ** What a call leaves alone

    [grows w w']: a call has gone from [w] to [w'] and has only made new
    identities, connections and files: the server, the clients, the calls that
    wait and the state are as before, and so is every context there was. *)

Definition ctxs_bounded {X} (w : DWorld X) : Prop := ∀ i c, DW_Ctxs w !! i = Some c → i < DW_Next w.

Record grows {X} (w w' : DWorld X) : Prop := {
  gr_server : DW_Server w' = DW_Server w;
  gr_runs : DW_Runs w' = DW_Runs w;
  gr_waits : DW_Waits w' = DW_Waits w;
  gr_state : DW_State w' = DW_State w;
  gr_next : DW_Next w ≤ DW_Next w';
  gr_ctxs : ∀ i, i < DW_Next w → DW_Ctxs w' !! i = DW_Ctxs w !! i;
  gr_bounded : ctxs_bounded w → ctxs_bounded w' }.

#[export] Instance grows_refl {X} : Reflexive (@grows X).
Proof. by split. Qed.
#[export] Instance grows_trans {X} : Transitive (@grows X).
Proof.
  intros w1 w2 w3 [] []. split; try congruence; [lia| |by auto].
  intros i Hi. rewrite gr_ctxs1 by lia. auto.
Qed.

Definition keeps {X A} (m : M (DWorld X) A) : Prop := ∀ w, wp m (λ _ w', grows w w') w.

Create HintDb keeps discriminated.

Section keeps.
Context {X : Type}.
Abbreviation MD := (M (DWorld X)).

Lemma keeps_pure {A} (m : MD A) : (∀ w, grows w (m w).2) → keeps m.
Proof. done. Qed.
Lemma keeps_ret {A} (a : A) : keeps (mret a : MD A). Proof. by intros w. Qed.
Lemma keeps_fail {A} e : keeps (fail e : MD A). Proof. by intros w. Qed.
Lemma keeps_panic {A} s : keeps (panic s : MD A). Proof. by intros w. Qed.
Lemma keeps_gets {A} (f : DWorld X → A) : keeps (gets f). Proof. by intros w. Qed.
Lemma keeps_deref {A} (o : option A) : keeps (deref o : MD A). Proof. by destruct o; intros w. Qed.
Lemma keeps_bind {A B} (m : MD A) (f : A → MD B) : keeps m → (∀ a, keeps (f a)) → keeps (m ≫= f).
Proof.
  intros Hm Hf w. apply wp_bind. eapply wp_mono; [apply Hm|]. intros [a|e|s|] w1 Hw1; simpl; try done.
  eapply wp_mono; [apply Hf|]. intros r w2 Hw2. by etrans.
Qed.
Lemma keeps_try {A} (m : MD A) : keeps m → keeps (try m).
Proof. intros Hm w. apply wp_try. eapply wp_mono; [apply Hm|]. by intros [] ?. Qed.
Lemma keeps_map_err {A} f (m : MD A) : keeps m → keeps (map_err f m).
Proof. intros Hm w. apply wp_map_err. eapply wp_mono; [apply Hm|]. by intros [] ?. Qed.
Lemma keeps_outside {A} (m : M X A) : keeps (outside m).
Proof. intros w. by apply wp_outside_any. Qed.
Lemma keeps_sys_get {A} (m : X → A * X) : keeps (sys_get m).
Proof. intros w. by apply wp_sys_get. Qed.
Lemma keeps_sys_try (m : X → option error * X) : keeps (sys_try m).
Proof. intros w. by apply wp_sys_try. Qed.
Lemma keeps_sys_result {A} (m : X → (error + A) * X) : keeps (sys_result m).
Proof. intros w. by apply wp_sys_result. Qed.
Lemma keeps_opening (m : M X unit) : keeps (opening m).
Proof.
  apply keeps_bind; [apply keeps_outside|]. intros _ w. apply wp_bind, wp_gets. simpl.
  apply wp_bind, wp_modify. simpl. apply wp_ret. split; simpl; try done; [lia|]. intros Hb i c Hi. specialize (Hb i c Hi). simpl. lia.
Qed.
Lemma keeps_closing i (m : M X unit) : keeps (closing_conn i m).
Proof. apply keeps_bind; [apply keeps_outside|]. by intros _ w. Qed.
Lemma keeps_WithCancel parent : keeps (WithCancel (X:=X) parent).
Proof.
  intros w. apply wp_bind, wp_gets. simpl. apply wp_bind, wp_modify. simpl. apply wp_ret. split; simpl; try done; [lia| |].
  - intros i Hi. apply lookup_insert_ne. lia.
  - intros Hb i c. simpl. intros [[<- _]|[_ Hi]]%lookup_insert_Some; [lia|]. specialize (Hb i c Hi). lia.
Qed.
Lemma wp_keeps {A} (m : MD A) (Q : Res A → DWorld X → Prop) w :
  keeps m → (∀ r w', grows w w' → Q r w') → wp m Q w.
Proof. intros Hm HQ. eapply wp_mono; [apply Hm|]. auto. Qed.
End keeps.

#[export] Hint Resolve keeps_ret keeps_fail keeps_panic keeps_gets keeps_deref keeps_outside keeps_sys_get keeps_sys_try
  keeps_sys_result keeps_opening keeps_closing keeps_WithCancel : keeps.

(** A call made of such calls. *)
Ltac keep :=
  repeat (intros; lazymatch goal with
  | |- keeps (mbind _ _) => apply keeps_bind
  | |- keeps (try _) => apply keeps_try
  | |- keeps (map_err _ _) => apply keeps_map_err
  | |- keeps (when ?b _) => unfold when; destruct b
  | |- keeps (match ?x with _ => _ end) => destruct x
  | |- keeps (if ?x then _ else _) => destruct x
  | |- _ => solve [auto with keeps]
  end).

Section keeping.
Context {X : Type} `{Sys X} `{MgmAPI X} `{Texts} `{Crypto}.

Lemma keeps_ReadConfig m a path psk : keeps (ReadConfig (X:=X) m a path psk).
Proof.
  unfold ReadConfig, is_absent, read_config, override_management, override_admin, parseURL, write_config. keep. by intros w.
Qed.
Lemma keeps_GetConfig m a path psk : keeps (GetConfig (X:=X) m a path psk).
Proof.
  assert (∀ c, keeps (write_config (X:=X) path c)) as Hwrite.
  { intros c. unfold write_config. keep. by intros w. }
  assert (∀ n u, keeps (parseURL (X:=X) n u)) as Hparse by (unfold parseURL; keep).
  pose proof keeps_ReadConfig.
  unfold GetConfig, is_absent, createNewConfig, generateKey. keep; auto.
Qed.

Lemma keeps_registerPeer key server setup jwt : keeps (client_registerPeer (X:=X) key server setup jwt).
Proof. unfold client_registerPeer. destruct (uuid_Parse setup) as [u [e|]]; keep. Qed.
#[local] Hint Resolve keeps_registerPeer : keeps.
Lemma keeps_loginPeer key server setup jwt : keeps (loginPeer (X:=X) key server setup jwt).
Proof. unfold loginPeer. keep. Qed.
#[local] Hint Resolve keeps_loginPeer : keeps.
Lemma keeps_internal_Login config setup jwt : keeps (internal_Login (X:=X) config setup jwt).
Proof. unfold internal_Login. keep. Qed.
Lemma keeps_flow_info config : keeps (GetDeviceAuthorizationFlowInfo (X:=X) config).
Proof. unfold GetDeviceAuthorizationFlowInfo. keep. Qed.
Lemma keeps_connectToManagement a k t : keeps (connectToManagement (X:=X) a k t).
Proof. unfold connectToManagement. keep. Qed.
Lemma keeps_connectToSignal c k : keeps (connectToSignal (X:=X) c k).
Proof. unfold connectToSignal. keep. Qed.
Lemma keeps_createEngineConfig k c p : keeps (createEngineConfig (X:=X) k c p).
Proof. unfold createEngineConfig. keep. Qed.
End keeping.
#[export] Hint Resolve keeps_GetConfig keeps_ReadConfig keeps_internal_Login keeps_flow_info keeps_connectToManagement
  keeps_connectToSignal keeps_createEngineConfig : keeps.

(* ------------------------------------------------------------------ *)
(** ** An attempt to run the client *)

Section attempts.
Context {X : Type} `{Sys X} `{MgmAPI X} `{Texts} `{Crypto} `{Runtime} `{WgCtrl} `{Net} `{DurationText}.
Abbreviation MD := (M (DWorld X)).
Implicit Types w : DWorld X.

Lemma keeps_start_engine c : keeps (start_engine (X:=X) c).
Proof.
  intros w. unfold wp, start_engine. destruct (Start _) as [r cw]. simpl. split; simpl; try done; [lia|].
  intros Hb i x Hi. specialize (Hb i x Hi). simpl. lia.
Qed.
Lemma keeps_stop_engine e : keeps (stop_engine (X:=X) e).
Proof. by intros w. Qed.
#[local] Hint Resolve keeps_start_engine keeps_stop_engine : keeps.

(** What a step of a running client does to the rest: its context's child
    [engineCtx], contexts it makes and the state may change. *)
Record steps (own : option nat) w w' : Prop := {
  st_server : DW_Server w' = DW_Server w;
  st_runs : DW_Runs w' = DW_Runs w;
  st_waits : DW_Waits w' = DW_Waits w;
  st_next : DW_Next w ≤ DW_Next w';
  st_ctxs : ∀ i, i < DW_Next w → Some i ≠ own → DW_Ctxs w' !! i = DW_Ctxs w !! i;
  st_own : ∀ i, i < DW_Next w → Ctx_Parent <$> DW_Ctxs w' !! i = Ctx_Parent <$> DW_Ctxs w !! i;
  st_bounded : ctxs_bounded w → ctxs_bounded w' }.

(** What an attempt comes to, by the state it leaves. *)
Definition attempt_end w0 (ctx : nat) (r : Res (option error + RunPhase)) w' : Prop :=
  match r with
  | Ok (inl None) => DW_State w' = mkContextState None StNeedsLogin
  | Ok (inl (Some e)) => CS_err (DW_State w') = Some e
  | Ok (inr RunReady) => False
  | Ok (inr (RunUp engineCtx _ _ _)) => DW_State w' = mkContextState None StConnected ∧
      DW_Next w0 ≤ engineCtx ∧ DW_Ctxs w' !! engineCtx = Some (mkCtx (Some ctx) false)
  | Err _ => False
  | _ => True
  end.

(** [P]: what is known of the worlds an attempt goes through; [E]: how it
    ends. *)
Lemma wp_wrapping {A} (m : MD A) k (P : DWorld X → Prop) (E : Res (option error + RunPhase) → DWorld X → Prop) w :
  keeps m → P w → (∀ w1 w2, grows w1 w2 → P w1 → P w2) → (∀ e w1, P w1 → P (set_State e w1)) →
  (∀ r w1, match r with Ok (inl (Some e)) => CS_err (DW_State w1) = Some e | Ok _ | Err _ => False | _ => True end → E r w1) →
  (∀ a w1, P w1 → wp (k a) (λ r w', P w' ∧ E r w') w1) →
  wp (wrapping m k) (λ r w', P w' ∧ E r w') w.
Proof.
  intros Hm HP Hgrow Hset HE Hk. unfold wrapping, state_Wrap. wp_step. wp_step. apply wp_keeps; [done|].
  intros [a|e|s|] w1 Hw1; simpl; eauto. wp_go. eauto.
Qed.

(** [defer cancel()] after [m]. *)
Lemma wp_cancelling ctx (m : MD (option error + RunPhase)) (Q : Res _ → DWorld X → Prop) w :
  wp m (λ r w', match r with
    | Ok (inl o) => Q r (set_Ctxs (alter (λ c, mkCtx (Ctx_Parent c) true) ctx (DW_Ctxs w')) w')
    | _ => Q r w' end) w → wp (cancelling ctx m) Q w.
Proof.
  intros Hm. unfold cancelling. wp_step. eapply wp_mono; [exact Hm|].
  intros [[o|p]|e|s|] w'; simpl; try done; intros HQ; wp_go; done.
Qed.

(** Between the making of [engineCtx] and the end of an attempt. *)
Record inside (ctx : nat) w0 (engineCtx : nat) w : Prop := {
  in_steps : steps None w0 w;
  in_new : DW_Next w0 ≤ engineCtx;
  in_old : engineCtx < DW_Next w;
  in_ctx : DW_Ctxs w !! engineCtx = Some (mkCtx (Some ctx) false) }.

Lemma steps_of_grows own w w1 w2 : steps own w w1 → grows w1 w2 → steps own w w2.
Proof.
  intros [] []. split; try congruence; [lia| | |by auto].
  - intros i Hi Hne. rewrite gr_ctxs0 by lia. auto.
  - intros i Hi. rewrite gr_ctxs0 by lia. auto.
Qed.
Lemma steps_refl own w : steps own w w.
Proof. by split. Qed.
Lemma steps_set_State own w w1 e : steps own w w1 → steps own w (set_State e w1).
Proof. intros []. by split. Qed.
#[local] Hint Resolve steps_refl steps_set_State : core.

(** Cancelling the own context, or one that is new. *)
Lemma steps_cancel own w w1 c :
  steps own w w1 → (own = Some c ∨ DW_Next w ≤ c) →
  steps own w (set_Ctxs (alter (λ c, mkCtx (Ctx_Parent c) true) c (DW_Ctxs w1)) w1).
Proof.
  intros [] Hc. split; simpl; try done.
  - intros i Hi Hne. rewrite lookup_alter_ne; [auto|]. intros ->. destruct Hc; [by simplify_eq|lia].
  - intros i Hi. rewrite <- st_own0 by done. destruct (decide (i = c)) as [->|?].
    + rewrite lookup_alter_eq. by destruct (DW_Ctxs w1 !! c).
    + by rewrite lookup_alter_ne.
  - intros Hb i x. simpl. rewrite lookup_alter_Some. intros [(-> & y & Hy & _)|[_ Hi]]; by eapply st_bounded0.
Qed.

Lemma inside_grows ctx w0 ec w1 w2 : grows w1 w2 → inside ctx w0 ec w1 → inside ctx w0 ec w2.
Proof.
  intros Hg []. split; [by eapply steps_of_grows|done| |].
  - apply gr_next in Hg. lia.
  - by rewrite (gr_ctxs _ _ Hg).
Qed.
Lemma inside_State ctx w0 ec w s : inside ctx w0 ec w → inside ctx w0 ec (set_State s w).
Proof. intros []. split; auto. Qed.
Lemma inside_WithCancel ctx w0 w : steps None w0 w →
  wp (WithCancel (Some ctx)) (λ r w', match r with Ok ec => inside ctx w0 ec w' | _ => False end) w.
Proof.
  intros Hs. pose proof (keeps_WithCancel (X:=X) (Some ctx) w) as Hk. unfold WithCancel, wp in *. simpl in *. split; simpl.
  - by eapply steps_of_grows.
  - apply Hs.
  - lia.
  - apply lookup_insert_eq.
Qed.

Lemma attempt_end_error w0 ctx r w1 :
  match r with Ok (inl (Some e)) => CS_err (DW_State w1) = Some e | Ok _ | Err _ => False | _ => True end →
  attempt_end w0 ctx r w1.
Proof. by destruct r as [[[]|]| | |]. Qed.
#[local] Hint Resolve steps_of_grows inside_grows inside_State attempt_end_error : core.

(** An attempt leaves everything but the state as it was, up to new contexts;
    when it ends, the state tells how.  When its context is done it does
    nothing. *)
Lemma operation_begin_spec ctx config w0 :
  wp (operation_begin ctx config) (λ r w',
    (ctx_done (DW_Ctxs w0) ctx = true ∧ r = Ok (inl None) ∧ w' = w0) ∨
    steps None w0 w' ∧ attempt_end w0 ctx r w') w0.
Proof.
  unfold operation_begin. do 2 wp_step. destruct (ctx_done _ _) eqn:Hdone; [wp_step; auto|].
  wp_step. unfold state_Set. wp_step. eapply (wp_mono _ (λ r w', steps None w0 w' ∧ attempt_end w0 ctx r w')); [|by right].
  apply wp_wrapping; eauto; [by keep|]. intros key w1 Hw1. wp_step. wp_step; [|done]. wp_step.
  eapply wp_mono; [by apply inside_WithCancel|]. intros [ec|e|s|] w2 Hin; simpl; try done.
  apply wp_cancelling. eapply (wp_mono _ (λ r w', inside ctx w0 ec w' ∧ attempt_end w0 ctx r w')).
  2: { intros [[o|p]|e|s|] w' [[] Hr]; try done. split; [apply steps_cancel; auto|done]. }
  wp_step. wp_step. apply wp_keeps; [auto with keeps|].
  intros [[mgm resp]|e|s|] w3 Hw3; simpl; eauto.
  - apply wp_wrapping; eauto with keeps. intros sig w4 Hw4. apply wp_wrapping; eauto with keeps.
    intros econf w5 Hw5. apply wp_wrapping; eauto with keeps. intros engine w6 Hw6.
    unfold state_Set. wp_go. split; [by apply inside_State|]. split; [done|]. split; apply Hw6.
  - unfold state_Set, state_Wrap. wp_go; eauto.
Qed.

(** The end of a running client: connections are closed and the engine is
    stopped; an error is in the state, a reset is the error of the attempt. *)
Lemma operation_end_spec ec mgm sig engine w0 :
  wp (operation_end ec mgm sig engine) (λ r w', steps (Some ec) w0 w' ∧
    match r with
    | Ok (inl (Some e)) => CS_err (DW_State w') = Some e
    | Ok (inr _) | Err _ => False
    | _ => True
    end) w0.
Proof.
  pose (E := λ (r : Res (option error + RunPhase)) w', match r with
    | Ok (inl (Some e)) => CS_err (DW_State w') = Some e | Ok (inr _) | Err _ => False | _ => True end).
  assert (∀ r w1, match r with Ok (inl (Some e)) => CS_err (DW_State w1) = Some e | Ok _ | Err _ => False | _ => True end →
    E r w1) as HE by (by intros [[[]|]| | |]).
  apply wp_cancelling. apply (wp_mono _ (λ r w', steps (Some ec) w0 w' ∧ E r w')).
  2: { intros [[o|p]|e|s|] w' [Hs Hr]; try done. split; [apply steps_cancel; auto|done]. }
  do 3 (apply wp_wrapping; eauto with keeps; intros ???).
  unfold state_Status. do 4 wp_step. destruct (CS_err (DW_State w1)) as [err|] eqn:He; wp_go; simpl; eauto.
Qed.

(** The state a run of the client leaves: a login that is needed stays,
    anything else is idle, with the error of the last attempt if it is kept. *)
Lemma run_return_spec wrap err w :
  wp (run_return wrap err) (λ r w', r = Ok tt ∧ ∃ s e, w' = set_State (mkContextState e s) w ∧
    s = (if decide (DW_State w = mkContextState None StNeedsLogin) then StNeedsLogin else StIdle) ∧
    e = (if wrap then err else None)) w.
Proof.
  unfold run_return, state_Status, state_Set, state_Wrap. destruct w as [fs [se ss] srv cs op rs ws n x].
  do 3 wp_step. wp_step. simpl. destruct se as [se|]; simpl; [destruct ss|case_decide as Hs; subst; simpl]; destruct err, wrap; wp_go;
    split; try done; eexists _, _; (split; [reflexivity|]); split; try done; case_decide; simplify_eq; done.
Qed.
End attempts.

(* ------------------------------------------------------------------ *)
(** ** Properties *)

Section properties.
Context {X : Type} `{Sys X} `{MgmAPI X} `{Texts} `{Crypto} `{Runtime} `{WgCtrl} `{Net} `{DurationText}.
Implicit Types w : DWorld X.

Lemma wp_opening (m : M X unit) (Q : Res nat → DWorld X → Prop) w :
  (∀ x, Q (Ok (DW_Next w)) (set_DNext (S (DW_Next w)) (set_Open ({[DW_Next w]} ∪ DW_Open w) (set_Ext x w)))) →
  (∀ r x, match r with Ok _ => False | _ => True end → Q r (set_Ext x w)) → wp (opening m) Q w.
Proof.
  intros Hok Hno. unfold opening. wp_step. apply wp_outside_any. intros [[]|e|s|] x; simpl; [wp_go; apply Hok|..]; by apply Hno.
Qed.

(** A refusal by the management service comes from its [Login], when the
    connection is open. *)
Lemma connectToManagement_denied a k t w :
  wp (connectToManagement a k t) (λ r w', ∀ e, r = Err e → has_code PermissionDenied e = true →
    DW_Open w' = {[DW_Next w]} ∪ DW_Open w) w.
Proof.
  unfold connectToManagement. wp_step. wp_step. apply wp_opening; [|by intros [] ??; simpl; intros; simplify_eq].
  intros x. simpl. wp_step. wp_step. apply wp_outside_any. intros [key|e|s|] x'; simpl; intros; simplify_eq.
  wp_step. sys_step. wp_step. apply wp_outside_any. by intros [] ?; simpl; intros; simplify_eq; try wp_step.
Qed.

(** Only what follows can end an attempt without an error. *)
Lemma wrapping_not_nil {A} (m : M (DWorld X) A) k w :
  (∀ a w1, wp (k a) (λ r _, r ≠ Ok (inl None)) w1) → wp (wrapping m k) (λ r _, r ≠ Ok (inl None)) w.
Proof.
  intros Hk. unfold wrapping, state_Wrap. wp_step. wp_step. unfold wp at 1. destruct (m w) as [[a|e|s|] w1]; simpl; [apply Hk|by wp_go|done..].
Qed.

(** A refused client leaves its connection behind: when an attempt finds that
    the peer has to log in, the connection to the management service that it
    has opened is still open, with nothing left that refers to it, also after
    [RunClient] has returned. *)
Theorem refused_attempt_leaks ctx config wrap w w1 :
  operation_begin ctx config w = (Ok (inl None), w1) → ctx_done (DW_Ctxs w) ctx = false →
  DW_Open w1 = {[S (DW_Next w)]} ∪ DW_Open w ∧
  DW_Runs w1 = DW_Runs w ∧ DW_Server w1 = DW_Server w ∧
  wp (run_return wrap None) (λ r w2, r = Ok tt ∧ DW_State w2 = mkContextState None StNeedsLogin ∧ DW_Open w2 = DW_Open w1) w1.
Proof.
  intros Hrun Hctx. pose proof (wp_run _ _ _ _ _ Hrun (operation_begin_spec ctx config w)) as [[? _]|[Hs Hend]]; [congruence|].
  simpl in Hend. cut (DW_Open w1 = {[S (DW_Next w)]} ∪ DW_Open w).
  - intros Ho. split; [done|]. split; [by destruct Hs|]. split; [by destruct Hs|].
    eapply wp_mono; [apply run_return_spec|]. intros r w2 (-> & s & e & -> & -> & ->).
    rewrite Hend, decide_True by done. by destruct wrap.
  - clear Hs Hend. pose (Q := λ (r : Res (option error + RunPhase)) w2,
      r = Ok (inl None) → DW_Open w2 = {[S (DW_Next w)]} ∪ DW_Open w).
    enough (wp (operation_begin ctx config) Q w) as HQ by (by apply (wp_run _ _ _ _ _ Hrun HQ)).
    unfold operation_begin. do 2 wp_step. rewrite Hctx. simpl. wp_step. unfold state_Set. wp_step.
    unfold wrapping at 1. wp_step. wp_step. destruct (ParseKey _) as [e|key]; wp_step; wp_step; [unfold state_Wrap; by wp_go|].
    wp_step; [|done]. wp_step. unfold WithCancel. do 5 wp_step.
    apply wp_cancelling. wp_step. wp_step.
    eapply wp_mono; [apply connectToManagement_denied|]. intros [[mgm resp]|e|s|] w3 Ho; simpl; try done.
    + eapply (wp_mono _ (λ r _, r ≠ Ok (inl None))); [|by intros [[[]|]| | |] w4 Hr ?].
      do 3 (apply wrapping_not_nil; intros ? ?). unfold state_Set. by wp_go.
    + destruct (has_code PermissionDenied e) eqn:Hc; unfold state_Set, state_Wrap; wp_go; [|done]. intros _. by apply (Ho e).
Qed.

Lemma every_other_even (l : list string) s : s ∈ every_other l ↔ ∃ i, l !! (i + i) = Some s.
Proof.
  cut (∀ n, length l ≤ n → s ∈ every_other l ↔ ∃ i, l !! (i + i) = Some s); [by eauto|].
  intros n. revert l. induction n as [|n IH]; intros [|x [|y l]] Hl; simpl in *; try lia.
  - split; [by intros ?%elem_of_nil|by intros [[] ?]].
  - split; [by intros ?%elem_of_nil|by intros [[] ?]].
  - rewrite list_elem_of_singleton. split; [intros ->; by exists 0|]. intros [[|i] Hi]; simpl in *; [congruence|done].
  - rewrite elem_of_cons, IH by lia. split.
    + intros [->|[i Hi]]; [by exists 0|]. exists (S i). simpl. by rewrite Nat.add_succ_r.
    + intros [[|i] Hi]; [left; simpl in Hi; congruence|right]. exists i. simpl in Hi. by rewrite Nat.add_succ_r in Hi.
Qed.

(** The engine is told of every second interface of the black list only: with
    the list that a new configuration has, [wt0] and [tun0], the engine does
    not avoid [tun0]. *)
Theorem blacklist_halved k config p w :
  wp (createEngineConfig k config p) (λ r w', w' = w ∧ ∀ c, r = Ok c →
    (∀ s, is_Some (EC_IFaceBlackList c !! s) ↔ ∃ i, Cfg_IFaceBlackList config !! (i + i) = Some s) ∧
    (Cfg_IFaceBlackList config = ["wt0"; "tun0"] → EC_IFaceBlackList c !! "tun0" = None)) w.
Proof.
  unfold createEngineConfig. wp_step. wp_step; [|done].
  assert (∀ l (s : string), is_Some ((foldr (λ k, insert k tt) ∅ l : gmap string unit) !! s) ↔ s ∈ l) as Hfold.
  { intros l s. induction l as [|x l IH]; simpl; [rewrite elem_of_nil; by split; [intros []|]|].
    rewrite lookup_insert_is_Some', elem_of_cons, IH. split; (intros [->|?]; [by left|by right]). }
  assert (∀ c, EC_IFaceBlackList c = foldr (λ k, insert k tt) ∅ (every_other (Cfg_IFaceBlackList config)) →
    (∀ s, is_Some (EC_IFaceBlackList c !! s) ↔ ∃ i, Cfg_IFaceBlackList config !! (i + i) = Some s) ∧
    (Cfg_IFaceBlackList config = ["wt0"; "tun0"] → EC_IFaceBlackList c !! "tun0" = None)) as Hc.
  { intros c Hc. split; [|by rewrite Hc; intros ->]. intros s. by rewrite Hc, Hfold, every_other_even. }
  wp_go; (split; [done|]); intros ? [=]; subst; by apply Hc.
Qed.
End properties.

(* ------------------------------------------------------------------ *)
(** ** A concrete client *)

(** A management service that knows the peer or not, and an identity
    provider behind it. *)
Definition demo_mgm (known : bool) : MgmAPI nat := {|
  mgm_NewClient _ _ _ n := (Ok tt, S n);
  mgm_GetServerPublicKey _ n := (Ok [9]%Z, S n);
  mgm_Login _ _ _ n := (if known then Ok (demo_response "100.64.0.1/16")
                        else Err (Status PermissionDenied "peer is not registered"), S n);
  mgm_Register _ _ setupKey jwtToken _ n :=
    (if decide (setupKey = "" ∧ jwtToken = "") then Err (Status InvalidArgument "no key")
     else if decide (setupKey = "unknown") then Err (Status Internal "store")
     else Ok (demo_response "100.64.0.1/16"), S n);
  mgm_GetDeviceAuthorizationFlow _ _ n := (Ok (mkPbFlow 0 (mkProviderConfig "client" "" "idp" "api")), S n);
  mgm_Close n := (Ok tt, S n);
  sig_NewClient _ _ _ n := (Ok tt, S n);
  sig_Close n := (Ok tt, S n) |}.
Definition demo_cl_config : ClConfig :=
  mkClConfig "k" "" (Some (mkURL "https" "example.com" "https://example.com")) None "wt0" ["wt0"; "tun0"].
Definition demo_begin (known : bool) (ctx : nat) : DWorld nat → Res (option error + RunPhase) * DWorld nat :=
  @operation_begin nat demo_sys (demo_mgm known) demo_crypto demo_wgctrl demo_net ctx demo_cl_config.

Lemma refused_attempt_leaks_witness :
  let w := demo_daemon ∅ in let w1 := (demo_begin false 0 w).2 in
  DW_Open w = ∅ ∧ DW_Open w1 = {[1]} ∧ DW_State w1 = mkContextState None StNeedsLogin.
Proof.
  intros w w1. split; [reflexivity|].
  assert (demo_begin false 0 w = (Ok (inl None), w1)) as Hrun by (vm_compute; reflexivity).
  destruct (@refused_attempt_leaks nat demo_sys (demo_mgm false) demo_crypto demo_wgctrl demo_net
    0 demo_cl_config false w w1 Hrun eq_refl) as [Ho _].
  split; [rewrite Ho; reflexivity|vm_compute; reflexivity].
Defined.
