(* ===== verification/Daemon.v ===== *)
(** * Daemon: the client's daemon (client/server/server.go)

    The daemon serves the command line and the user interface: logging in, with
    a setup key or over the identity provider, bringing the client up and down,
    and answering for its status and configuration.  The goroutines that run
    the client and the calls that wait for a token interleave with the calls:
    a step relation over the operations. *)

From S2P Require Import Prelude GoLib Model Network UpdateChannel FileStore Account Groups Peers Turn Encryption Jwt GrpcServer Util Signal SignalClient MgmClient ClientModel WgIface PeerConn Engine Http OAuth DaemonModel ClientConfig ClientLogin.

(** daemon.proto: what the code reads and sends *)
Record DaemonLoginRequest := mkDaemonLogin {
  DLR_SetupKey : string; DLR_PreSharedKey : string; DLR_ManagementUrl : string; DLR_AdminURL : string }.
Record DaemonLoginResponse := mkDaemonAnswer {
  DLA_NeedsSSOLogin : bool; DLA_UserCode : string; DLA_VerificationURI : string; DLA_VerificationURIComplete : string }.
Record GetConfigResponse := mkConfigAnswer {
  GCR_ManagementUrl : string; GCR_ConfigFile : string; GCR_LogFile : string;
  GCR_PreSharedKey : string; GCR_AdminURL : string }.

Definition logged_in : DaemonLoginResponse := mkDaemonAnswer false "" "" "".
Definition sso_answer (info : DeviceAuthInfo) : DaemonLoginResponse :=
  mkDaemonAnswer true (DAI_UserCode info) (DAI_VerificationURI info) (DAI_VerificationURIComplete info).

(** context.Canceled and context.DeadlineExceeded *)
Definition ctx_Canceled : error := Plain "context canceled".
Definition ctx_DeadlineExceeded : error := Plain "context deadline exceeded".

Definition seconds (n : Z) : Z := (n * 1000000000)%Z.

(** [New] *)
Definition newDaemon (managementURL adminURL configPath logFile : string) : DaemonServer :=
  mkDaemonServer None managementURL adminURL configPath logFile (mkOauthFlow 0 None zero_info None) None.

Section daemon.
Context {X : Type} `{Sys X} `{MgmAPI X} `{HttpLib X} `{Texts} `{Crypto} `{Runtime} `{WgCtrl} `{Net} `{DurationText}.
Abbreviation MD := (M (DWorld X)).

Definition mod_oauth (f : oauthAuthFlow → oauthAuthFlow) : MD unit :=
  mod_server (λ s, set_DS_oauth (f (DS_oauth s)) s).

(** The last action is cancelled and a new context takes its place. *)
Definition renew_context : MD nat :=
  s ← server;
  _ ← match DS_actCancel s with Some c => cancel_context c | None => mret tt end;
  ctx ← WithCancel None;
  _ ← mod_server (set_DS_actCancel (Some ctx));
  mret ctx.

(** [go internal.RunClient(ctx, config)]; [wrap]: its error is kept. *)
Definition spawn_run (ctx : nat) (config : ClConfig) (wrap : bool) : MD unit :=
  i ← gets DW_Next;
  modify (λ w, set_DNext (S i) (set_Runs (<[i := mkRun ctx config wrap RunReady]> (DW_Runs w)) w)).

Definition Daemon_Start : MD unit :=
  status ← state_Status;
  if decide (status ≠ StIdle) then mret tt
  else
    ctx ← WithCancel None;
    _ ← mod_server (set_DS_actCancel (Some ctx));
    s ← server;
    r ← try (ReadConfig (DS_managementURL s) (DS_adminURL s) (DS_configPath s) None);
    match r with
    | inl err =>
        if has_code NotFound err then
          _ ← GetConfig (DS_managementURL s) (DS_adminURL s) (DS_configPath s) "";
          state_Set StNeedsLogin
        else fail err
    | inr config =>
        _ ← mod_server (set_DS_config (Some config));
        spawn_run ctx config false
    end.

(** [None]: the login has succeeded. *)
Definition loginAttempt (setupKey jwtToken : string) : MD (option (StatusType * error)) :=
  s ← server;
  config ← deref (DS_config s);
  r ← try (internal_Login config setupKey jwtToken);
  match r with
  | inr _ => mret None
  | inl err =>
      if has_code InvalidArgument err || has_code PermissionDenied err
      then mret (Some (StNeedsLogin, err)) else mret (Some (StLoginFailed, err))
  end.

(** The deferred function of [Login] and [WaitSSOLogin]. *)
Definition login_settle : MD unit :=
  r ← try state_Status;
  match r with
  | inr s => if decide (s = StNeedsLogin ∨ s = StLoginFailed) then mret tt else state_Set StIdle
  | inl _ => state_Set StIdle
  end.
Definition deferring {A} (m : MD A) : MD A :=
  r ← try m;
  _ ← login_settle;
  match r with inl e => fail e | inr a => mret a end.

Definition request_code (hostedClient : Hosted) : MD DaemonLoginResponse :=
  deviceAuthInfo ← outside (RequestDeviceCode hostedClient);
  now ← sys_get sys_Now;
  _ ← mod_oauth (λ o, mkOauthFlow (now + seconds (DAI_ExpiresIn deviceAuthInfo)) (Some hostedClient)
                        deviceAuthInfo (OF_waitCancel o));
  _ ← state_Set StNeedsLogin;
  mret (sso_answer deviceAuthInfo).

(** [Login] without a setup key.  The cancel function of the wait may be
    nil. *)
Definition sso_login (config : ClConfig) : MD DaemonLoginResponse :=
  r ← try (GetDeviceAuthorizationFlowInfo config);
  match r with
  | inl err =>
      _ ← state_Set StLoginFailed;
      if has_code NotFound err then
        fail (Status NotFound "no SSO provider returned from management. If you are using hosting Netbird see documentation at https://github.com/netbirdio/netbird/tree/main/management for details")
      else if has_code Unimplemented err then
        fail (Status Unimplemented ("the management server, " +:+ from_option URL_Text "<nil>" (Cfg_ManagementURL config)
          +:+ ", does not support SSO providers, please update your server or use Setup Keys to login"))
      else fail err
  | inr (_, p) =>
      let hostedClient := mkHosted (Provider_Audience p) (Provider_ClientID p) (Provider_Domain p) in
      s ← server;
      let o := DS_oauth s in
      if decide (Hosted_ClientID <$> OF_client o = Some (Hosted_ClientID hostedClient)) then
        now ← sys_get sys_Now;
        if (now + seconds 90 <? OF_expiresAt o)%Z then mret (sso_answer (OF_info o))
        else
          waitCancel ← deref (OF_waitCancel o);
          _ ← cancel_context waitCancel;
          request_code hostedClient
      else request_code hostedClient
  end.

Definition Daemon_Login (msg : DaemonLoginRequest) : MD DaemonLoginResponse :=
  _ ← renew_context;
  deferring (
    _ ← mod_server (λ s, if decide (DLR_ManagementUrl msg ≠ "") then set_DS_managementURL (DLR_ManagementUrl msg) s else s);
    _ ← mod_server (λ s, if decide (DLR_AdminURL msg ≠ "") then set_DS_adminURL (DLR_AdminURL msg) s else s);
    s ← server;
    config ← GetConfig (DS_managementURL s) (DS_adminURL s) (DS_configPath s) (DLR_PreSharedKey msg);
    _ ← mod_server (set_DS_config (Some config));
    r ← loginAttempt "" "";
    match r with
    | None => _ ← state_Set StIdle; mret logged_in
    | Some _ =>
        _ ← state_Set StConnecting;
        if decide (DLR_SetupKey msg = "") then sso_login config
        else
          r ← loginAttempt (DLR_SetupKey msg) "";
          match r with
          | Some (loginStatus, err) => _ ← state_Set loginStatus; fail err
          | None => mret logged_in
          end
    end).

(** [WaitSSOLogin] up to where [WaitToken] waits: the call that waits. *)
Definition WaitSSOLogin_begin (userCode : string) : MD nat :=
  ctx ← renew_context;
  s ← server;
  let o := DS_oauth s in
  client ← or_fail (OF_client o) (Status Internal "oauth client is not initialized");
  _ ← state_Set StConnecting;
  if decide (DAI_UserCode (OF_info o) ≠ userCode) then
    deferring (_ ← state_Set StLoginFailed; fail (Status InvalidArgument "sso user code is invalid"))
  else
    _ ← match OF_waitCancel o with Some c => cancel_context c | None => mret tt end;
    _ ← sys_get sys_Now;  (* time.Until *)
    waitCtx ← WithCancel (Some ctx);
    _ ← mod_oauth (set_OF_waitCancel (Some waitCtx));
    let interval := first_interval (OF_info o) in
    _ ← outside (start_ticker interval);
    j ← gets DW_Next;
    _ ← modify (λ w, set_DNext (S j) (set_Waits (<[j := mkWait ctx waitCtx client (OF_info o) interval]> (DW_Waits w)) w));
    mret j.

(** [WaitToken] has returned. *)
Definition wait_end (j : nat) (wt : Wait) (result : error + TokenInfo) : MD unit :=
  _ ← modify (λ w, set_Waits (delete j (DW_Waits w)) w);
  deferring (
    match result with
    | inl err =>
        _ ← cancel_context (Wait_waitCtx wt);
        if decide (err = ctx_Canceled) then mret tt
        else
          now ← sys_get sys_Now;
          _ ← mod_oauth (set_OF_expiresAt now);
          _ ← state_Set StLoginFailed;
          fail err
    | inr tokenInfo =>
        r ← loginAttempt "" (TI_AccessToken tokenInfo);
        _ ← cancel_context (Wait_waitCtx wt);
        match r with
        | Some (loginStatus, err) => _ ← state_Set loginStatus; fail err
        | None => mret tt
        end
    end).

(** A tick of the ticker of [WaitToken]. *)
Definition wait_tick (j : nat) (wt : Wait) : MD unit :=
  r ← try (outside (wait_turn (Wait_client wt) (Wait_info wt) (Wait_interval wt)));
  match r with
  | inl err => wait_end j wt (inl err)
  | inr (inr tokenInfo) => wait_end j wt (inr tokenInfo)
  | inr (inl interval) =>
      _ ← (if decide (interval = Wait_interval wt) then mret tt else outside (start_ticker interval));
      modify (λ w, set_Waits (<[j := mkWait (Wait_ctx wt) (Wait_waitCtx wt) (Wait_client wt) (Wait_info wt) interval]> (DW_Waits w)) w)
  end.

Definition Up : MD unit :=
  status ← state_Status;
  if decide (status ≠ StIdle) then
    fail (Plain ("up already in progress: current status " +:+ StatusType_String status))
  else
    ctx ← renew_context;
    s ← server;
    match DS_config s with
    | None => fail (Plain "config is not defined, please call login command first")
    | Some config => spawn_run ctx config true
    end.

Definition Down : MD unit :=
  s ← server;
  match DS_actCancel s with
  | None => fail (Plain "service is not up")
  | Some c => cancel_context c
  end.

Definition Daemon_Status : MD string :=
  status ← state_Status;
  mret (StatusType_String status).

Definition Daemon_GetConfig : MD GetConfigResponse :=
  s ← server;
  let '(managementURL, adminURL, preSharedKey) :=
    match DS_config s with
    | Some config =>
        (match DS_managementURL s, Cfg_ManagementURL config with
         | EmptyString, Some u => URL_Text u | m, _ => m end,
         from_option URL_Text (DS_adminURL s) (Cfg_AdminURL config),
         if decide (Cfg_PreSharedKey config ≠ "") then masked else "")
    | None => (DS_managementURL s, DS_adminURL s, "")
    end in
  mret (mkConfigAnswer managementURL (DS_configPath s) (DS_logFile s) preSharedKey adminURL).

(* ------------------------------------------------------------------ *)
(** ** The goroutines that run the client *)

(** An attempt has come to something; [again]: whether the policy allows
    another after an error. *)
Definition after_attempt (i : nat) (run : Run) (again : bool) (r : option error + RunPhase) : MD unit :=
  let set_phase p := modify (λ w, set_Runs (<[i := mkRun (Run_ctx run) (Run_config run) (Run_wrap run) p]> (DW_Runs w)) w) in
  let return_ err := _ ← run_return (Run_wrap run) err; modify (λ w, set_Runs (delete i (DW_Runs w)) w) in
  match r with
  | inr p => set_phase p
  | inl None => return_ None
  | inl (Some e) => if again then set_phase RunReady else return_ (Some e)
  end.

Definition run_step (i : nat) (run : Run) (again : bool) : MD unit :=
  match Run_phase run with
  | RunReady => r ← operation_begin (Run_ctx run) (Run_config run); after_attempt i run again r
  | RunUp engineCtx mgm sig engine => r ← operation_end engineCtx mgm sig engine; after_attempt i run again r
  end.

(** A receiver of the engine gives up. *)
Definition reset_connection (engineCtx : nat) : MD unit :=
  _ ← state_Wrap ErrResetConnection;
  cancel_context engineCtx.

(* ------------------------------------------------------------------ *)
(** ** The system *)

Inductive d_label :=
  | DStart | DLogin (msg : DaemonLoginRequest) | DWait (userCode : string) | DTick (j : nat) | DWaitDone (j : nat) (timeout : bool)
  | DUp | DDown | DRun (i : nat) (again : bool) | DReset (i : nat).

(** What a label does; [None]: it cannot happen.  The daemon starts once; a
    running client goes on when its engine's context is done. *)
Definition d_op (l : d_label) (w : DWorld X) : option (MD unit) :=
  match l with
  | DStart => if decide (DW_Next w = 0) then Some Daemon_Start else None
  | DLogin msg => Some (_ ← Daemon_Login msg; mret tt)
  | DWait userCode => Some (_ ← WaitSSOLogin_begin userCode; mret tt)
  | DTick j => wait_tick j <$> DW_Waits w !! j
  | DWaitDone j timeout =>
      wt ← DW_Waits w !! j;
      if (timeout : bool) then Some (wait_end j wt (inl ctx_DeadlineExceeded))
      else if ctx_done (DW_Ctxs w) (Wait_waitCtx wt) then Some (wait_end j wt (inl ctx_Canceled)) else None
  | DUp => Some Up
  | DDown => Some Down
  | DRun i again =>
      run ← DW_Runs w !! i;
      match Run_phase run with
      | RunReady => Some (run_step i run again)
      | RunUp engineCtx _ _ _ => if ctx_done (DW_Ctxs w) engineCtx then Some (run_step i run again) else None
      end
  | DReset i =>
      run ← DW_Runs w !! i;
      match Run_phase run with RunUp engineCtx _ _ _ => Some (reset_connection engineCtx) | RunReady => None end
  end.

Inductive d_step (w : DWorld X) (l : d_label) : Res unit → DWorld X → Prop :=
  | d_step_run m r w' : d_op l w = Some m → m w = (r, w') → d_step w l r w'.

(** A panic ends the process. *)
Inductive d_reachable (w0 : DWorld X) : DWorld X → Prop :=
  | d_reach_refl : d_reachable w0 w0
  | d_reach_step w l r w' : d_reachable w0 w → d_step w l r w' →
      match r with Ok _ | Err _ => True | _ => False end → d_reachable w0 w'.

Definition freshDaemon (s : DaemonServer) (files : gmap string (option ClConfig)) (x : X) : DWorld X :=
  mkDWorld files (mkContextState None StIdle) s ∅ ∅ ∅ ∅ 0 x.
End daemon.
