(* ===== verification/DaemonInv.v ===== *)
(** * DaemonInv: what holds in every state of the daemon

    The invariant of the daemon's process, over every order of its calls and
    the steps of its goroutines: at most one action (a running client or a
    waiting login) is alive, it is the one the daemon can cancel, a client that
    is up has an engine, and calls that log in find a configuration. *)

From S2P Require Import Prelude GoLib Model Network UpdateChannel FileStore Account Groups Peers Turn Encryption Jwt GrpcServer Util Signal SignalClient MgmClient ClientModel WgIface PeerConn Engine Http OAuth DaemonModel ClientConfig ClientLogin Daemon.

(* ------------------------------------------------------------------ *)
(** ** The invariant *)

Section invariant.
Context {X : Type}.
Implicit Types w : DWorld X.

(** A running client or a waiting call, and its context. *)
Definition action w (i c : nat) : Prop :=
  (∃ run, DW_Runs w !! i = Some run ∧ Run_ctx run = c) ∨ (∃ wt, DW_Waits w !! i = Some wt ∧ Wait_ctx wt = c).

Definition engine_ctx (w : DWorld X) (run : Run) : Prop :=
  match Run_phase run with
  | RunUp engineCtx _ _ _ => ∃ b, DW_Ctxs w !! engineCtx = Some (mkCtx (Some (Run_ctx run)) b)
  | RunReady => True
  end.

Record core_ok w : Prop := {
  ck_bounded : ctxs_bounded w;
  ck_act : ∀ c, DS_actCancel (DW_Server w) = Some c → ∃ b, DW_Ctxs w !! c = Some (mkCtx None b);
  ck_keys : ∀ i c, action w i c → i < DW_Next w;
  ck_action : ∀ i c, action w i c → ∃ b, DW_Ctxs w !! c = Some (mkCtx None b) ∧
    (b = false → DS_actCancel (DW_Server w) = Some c);
  ck_inj : ∀ i j c, action w i c → action w j c → i = j;
  ck_engine : ∀ i run, DW_Runs w !! i = Some run → engine_ctx w run;
  ck_wait : ∀ j wt, DW_Waits w !! j = Some wt → DS_config (DW_Server w) ≠ None ∧
    ∃ b, DW_Ctxs w !! Wait_waitCtx wt = Some (mkCtx (Some (Wait_ctx wt)) b);
  ck_config : OF_client (DS_oauth (DW_Server w)) ≠ None → DS_config (DW_Server w) ≠ None }.

Definition is_up (run : Run) : Prop := ∃ ec mgm sig e, Run_phase run = RunUp ec mgm sig e.
Definition connected_ok w : Prop :=
  DW_State w = mkContextState None StConnected → ∃ i run, DW_Runs w !! i = Some run ∧ is_up run.

Definition daemon_ok w : Prop := core_ok w ∧ connected_ok w.

(** Contexts may be made and cancelled; the rest is as it was. *)
Definition ctxs_evolve w w' : Prop :=
  DW_Next w ≤ DW_Next w' ∧ (ctxs_bounded w → ctxs_bounded w') ∧
  ∀ c p b, DW_Ctxs w !! c = Some (mkCtx p b) → c < DW_Next w →
    ∃ b', DW_Ctxs w' !! c = Some (mkCtx p b') ∧ (p = None → b' = false → b = false).

Lemma core_evolve w w' :
  core_ok w → ctxs_evolve w w' → DW_Runs w' = DW_Runs w → DW_Waits w' = DW_Waits w →
  DS_actCancel (DW_Server w') = DS_actCancel (DW_Server w) →
  (DS_config (DW_Server w) ≠ None → DS_config (DW_Server w') ≠ None) →
  (OF_client (DS_oauth (DW_Server w')) ≠ None → DS_config (DW_Server w') ≠ None) → core_ok w'.
Proof.
  intros [] (Hn & Hb & Hc) Hr Hw Ha Hcfg Hcl.
  assert (∀ c p b, DW_Ctxs w !! c = Some (mkCtx p b) →
    ∃ b', DW_Ctxs w' !! c = Some (mkCtx p b') ∧ (p = None → b' = false → b = false)) as Hctx.
  { intros c p b Hp. eapply Hc; [done|by eapply ck_bounded0]. }
  assert (∀ i c, action w' i c → action w i c) as Hact by (unfold action; by rewrite Hr, Hw).
  split; auto.
  - intros c. rewrite Ha. intros (b & Hp)%ck_act0. destruct (Hctx _ _ _ Hp) as (b' & ? & _). by eexists.
  - intros i c Hi%Hact%ck_keys0. lia.
  - intros i c (b & Hp & Hb0)%Hact%ck_action0. destruct (Hctx _ _ _ Hp) as (b' & ? & Hf).
    exists b'. split; [done|]. intros ->. rewrite Ha. auto.
  - intros i j c Hi%Hact Hj%Hact. by eapply ck_inj0.
  - intros i run. rewrite Hr. intros Hi%ck_engine0. unfold engine_ctx in *. destruct (Run_phase run); [done|].
    destruct Hi as [b Hp]. destruct (Hctx _ _ _ Hp) as (b' & ? & _). by eexists.
  - intros j wt. rewrite Hw. intros [? [b Hp]]%ck_wait0. split; [auto|].
    destruct (Hctx _ _ _ Hp) as (b' & ? & _). by eexists.
Qed.

Lemma evolve_same w w' : DW_Next w' = DW_Next w → DW_Ctxs w' = DW_Ctxs w → ctxs_evolve w w'.
Proof.
  intros Hn Hc. unfold ctxs_evolve, ctxs_bounded. rewrite Hn, Hc. split; [done|]. split; [done|]. intros c p b Hp _. exists b. auto.
Qed.

Lemma evolve_grows w w' : grows w w' → ctxs_evolve w w'.
Proof.
  intros []. split; [done|]. split; [done|]. intros c p b Hp Hc. exists b. by rewrite gr_ctxs.
Qed.

Lemma evolve_cancel i w : ctxs_evolve w (set_Ctxs (alter (λ c, mkCtx (Ctx_Parent c) true) i (DW_Ctxs w)) w).
Proof.
  split; [done|]. split.
  - intros Hb c x. simpl. rewrite lookup_alter_Some. intros [(-> & y & Hy & _)|[_ Hi]]; by eapply Hb.
  - intros c p b Hp _. simpl. destruct (decide (c = i)) as [->|?].
    + rewrite lookup_alter_eq, Hp. simpl. by eexists.
    + rewrite lookup_alter_ne by done. by eexists.
Qed.

(** Fewer actions, or the same in another phase. *)
Lemma core_actions w runs waits :
  core_ok w → (∀ i c, action (set_Waits waits (set_Runs runs w)) i c → action w i c) →
  (∀ i run, runs !! i = Some run → engine_ctx w run) →
  (∀ j wt, waits !! j = Some wt → DW_Waits w !! j = Some wt ∨
     ∃ wt', DW_Waits w !! j = Some wt' ∧ Wait_ctx wt = Wait_ctx wt' ∧ Wait_waitCtx wt = Wait_waitCtx wt') →
  core_ok (set_Waits waits (set_Runs runs w)).
Proof.
  intros [] Hact Heng Hwait. split; try done.
  - intros i c Hi%Hact. by eapply ck_keys0.
  - intros i c Hi%Hact. by eapply ck_action0.
  - intros i j c Hi%Hact Hj%Hact. by eapply ck_inj0.
  - intros j wt Hj. destruct (Hwait j wt Hj) as [?|(wt' & Hj' & -> & ->)]; by eapply ck_wait0.
Qed.

(** A new action for the context that nothing uses. *)
Definition fresh_action (ctx : nat) w : Prop :=
  core_ok w ∧ DS_actCancel (DW_Server w) = Some ctx ∧ ∀ i, ¬ action w i ctx.

Lemma core_add w w' ctx n :
  fresh_action ctx w → DW_Next w' = S (DW_Next w) → n = DW_Next w →
  DW_Server w' = DW_Server w → DW_Ctxs w' = DW_Ctxs w →
  (∀ i c, action w' i c → action w i c ∨ (i = n ∧ c = ctx)) →
  (∀ i run, DW_Runs w' !! i = Some run → DW_Runs w !! i = Some run ∨ Run_phase run = RunReady) →
  (∀ j wt, DW_Waits w' !! j = Some wt → DW_Waits w !! j = Some wt ∨
     DS_config (DW_Server w) ≠ None ∧ ∃ b, DW_Ctxs w !! Wait_waitCtx wt = Some (mkCtx (Some (Wait_ctx wt)) b)) →
  core_ok w'.
Proof.
  intros ([] & Ha & Hfresh) Hn -> Hs Hc Hact Hruns Hwaits. split; rewrite ?Hs, ?Hc; auto.
  - intros i c. rewrite Hc, Hn. intros Hi%ck_bounded0. lia.
  - intros i c [Hi%ck_keys0|[-> _]]%Hact; lia.
  - intros i c [?|[-> ->]]%Hact; [by eapply ck_action0|]. destruct (ck_act0 ctx Ha) as [b Hb]. exists b. by rewrite Ha.
  - intros i j c [Hi|[-> ->]]%Hact [Hj|[-> Hc2]]%Hact; subst; [by eapply ck_inj0|by apply Hfresh in Hi|by apply Hfresh in Hj|done].
  - intros i run [Hi%ck_engine0|Hi]%Hruns; unfold engine_ctx in *; rewrite ?Hi; [|done]. by rewrite Hc.
  - intros j wt [Hj%ck_wait0|Hj]%Hwaits; rewrite ?Hs, ?Hc; done.
Qed.

(** A new context in place of that of the last action, which is cancelled. *)
Lemma core_renew w ctx srv :
  core_ok w → ctx = DW_Next w →
  (∀ i c, action w i c → ∃ b, DW_Ctxs w !! c = Some (mkCtx None b) ∧ b = true) →
  DS_actCancel srv = Some ctx → DS_config srv = DS_config (DW_Server w) → DS_oauth srv = DS_oauth (DW_Server w) →
  fresh_action ctx (set_Server srv (set_DNext (S ctx) (set_Ctxs (<[ctx := mkCtx None false]> (DW_Ctxs w)) w))).
Proof.
  intros [] -> Hdead Ha Hcfg Hof.
  assert (∀ c p, DW_Ctxs w !! c = Some p → <[DW_Next w := mkCtx None false]> (DW_Ctxs w) !! c = Some p) as Hctx.
  { intros c p Hp. rewrite lookup_insert_ne; [done|]. specialize (ck_bounded0 c p Hp). lia. }
  split; [split|split]; simpl; rewrite ?Ha, ?Hcfg, ?Hof; auto.
  - intros c p. simpl. intros [[<- _]|[_ Hp%ck_bounded0]]%lookup_insert_Some; lia.
  - intros c [= <-]. exists false. apply lookup_insert_eq.
  - intros i c Hi%ck_keys0. simpl. lia.
  - intros i c (b & Hb & ->)%Hdead. exists true. split; [auto|done].
  - intros i run Hi%ck_engine0. unfold engine_ctx in *. simpl. destruct (Run_phase run); [done|]. destruct Hi as [b ?]. exists b. auto.
  - intros j wt [? [b ?]]%ck_wait0. split; [done|]. exists b. auto.
  - intros i (b & Hb & _)%Hdead. apply ck_bounded0 in Hb. lia.
Qed.
End invariant.

(* ------------------------------------------------------------------ *)
(** ** Calls that keep an invariant *)

(** The daemon's fields change, but not the action, and a configuration does
    not go away. *)
Definition gentle (s s' : DaemonServer) : Prop :=
  DS_actCancel s' = DS_actCancel s ∧ (DS_config s ≠ None → DS_config s' ≠ None) ∧
  (OF_client (DS_oauth s') ≠ None → OF_client (DS_oauth s) ≠ None ∨ DS_config s' ≠ None).

(** What an invariant promises to the calls that do not start actions. *)
Class Stable {X} (I : DWorld X → Prop) := {
  stable_grows w w' : grows w w' → I w → I w';
  stable_cancel i w : I w → I (set_Ctxs (alter (λ c, mkCtx (Ctx_Parent c) true) i (DW_Ctxs w)) w);
  stable_State s w : s ≠ mkContextState None StConnected → I w → I (set_State s w);
  stable_Server s w : gentle (DW_Server w) s → I w → I (set_Server s w) }.

Section stable.
Context {X : Type}.
Implicit Types w : DWorld X.

Lemma core_stable : Stable (core_ok (X:=X)).
Proof.
  split.
  - intros w w' Hg Hok. pose proof (evolve_grows _ _ Hg). pose proof (gr_server _ _ Hg) as Hs.
    eapply core_evolve; eauto using gr_runs, gr_waits; rewrite Hs; [done..|]. apply Hok.
  - intros i w Hok. apply (core_evolve w); try done; [apply evolve_cancel|apply Hok].
  - intros s w _ Hok. apply (core_evolve w); try done; [by apply evolve_same|apply Hok].
  - intros s w (Ha & Hc & Hcl) Hok. apply (core_evolve w); try done; [by apply evolve_same|]. simpl.
    intros [Ho|?]%Hcl; [|done]. by apply Hc, Hok.
Qed.
Lemma connected_stable : Stable (connected_ok (X:=X)).
Proof.
  split; unfold connected_ok; simpl; [|done..]. intros w w' Hg Hok. by rewrite (gr_state _ _ Hg), (gr_runs _ _ Hg).
Qed.
Lemma fresh_stable ctx : Stable (fresh_action (X:=X) ctx).
Proof.
  assert (∀ w w', DW_Runs w' = DW_Runs w → DW_Waits w' = DW_Waits w → DS_actCancel (DW_Server w') = DS_actCancel (DW_Server w) →
    (core_ok w → core_ok w') → fresh_action ctx w → fresh_action ctx w') as Hfr.
  { intros w w' Hr Hw Ha Hcore (Hok & Hc & Hf). split; [auto|]. split; [congruence|]. intros i.
    unfold action. rewrite Hr, Hw. apply Hf. }
  destruct core_stable. split.
  - intros w w' Hg. apply Hfr; eauto using gr_runs, gr_waits. by rewrite (gr_server _ _ Hg).
  - intros i w. apply Hfr; eauto.
  - intros s w Hs. apply Hfr; eauto.
  - intros s w Hg. apply Hfr; eauto; try done. apply Hg.
Qed.
#[export] Instance and_stable (I J : DWorld X → Prop) : Stable I → Stable J → Stable (λ w, I w ∧ J w).
Proof. intros [] []. split; intros; naive_solver. Qed.
#[export] Instance daemon_stable : Stable (daemon_ok (X:=X)).
Proof. apply and_stable; [apply core_stable|apply connected_stable]. Qed.

Definition configured w : Prop := DS_config (DW_Server w) ≠ None.
#[export] Instance configured_stable : Stable (configured).
Proof.
  split; unfold configured; simpl; [|done..|].
  - intros w w' Hg. by rewrite (gr_server _ _ Hg).
  - by intros s w (_ & ? & _).
Qed.

(** Nothing waits, or the last action is [ctx], which is unused. *)
Definition ready_for (ctx : nat) w : Prop := fresh_action ctx w ∧ connected_ok w.
#[export] Instance ready_stable ctx : Stable (ready_for ctx).
Proof. apply and_stable; [apply fresh_stable|apply connected_stable]. Qed.

Definition inv {A} (I : DWorld X → Prop) (m : M (DWorld X) A) : Prop :=
  ∀ w, I w → wp m (λ r w', match r with Ok _ | Err _ => I w' | _ => True end) w.

Section combinators.
Context (I : DWorld X → Prop) `{!Stable I}.

Lemma inv_keeps {A} (m : M (DWorld X) A) : keeps m → inv I m.
Proof. intros Hm w Hw. apply wp_keeps; [done|]. intros r w' Hg. destruct r; try done; by eapply stable_grows. Qed.
Lemma inv_bind {A B} (m : M (DWorld X) A) (f : A → M (DWorld X) B) : inv I m → (∀ a, inv I (f a)) → inv I (m ≫= f).
Proof.
  intros Hm Hf w Hw. apply wp_bind. eapply wp_mono; [by apply Hm|]. intros [a|e|s|] w1 Hw1; simpl; try done. by apply Hf.
Qed.
Lemma inv_try {A} (m : M (DWorld X) A) : inv I m → inv I (try m).
Proof. intros Hm w Hw. apply wp_try. eapply wp_mono; [by apply Hm|]. by intros [] ?. Qed.
Lemma inv_Status : inv I state_Status.
Proof. apply inv_keeps. unfold state_Status. keep. Qed.
Lemma inv_Set s : s ≠ StConnected → inv I (state_Set s).
Proof. intros Hs w Hw. apply wp_modify. apply stable_State; [|done]. by intros [=]. Qed.
Lemma inv_Wrap e : inv I (state_Wrap e).
Proof. intros w Hw. apply wp_bind, wp_modify. simpl. apply wp_ret. by apply stable_State. Qed.
Lemma inv_cancel i : inv I (cancel_context i).
Proof. intros w Hw. apply wp_modify. by apply stable_cancel. Qed.
Lemma inv_mod_server f : (∀ s, gentle s (f s)) → inv I (mod_server f).
Proof. intros Hf w Hw. apply wp_modify. by apply stable_Server. Qed.
End combinators.

Lemma wp_inv {A} (I : DWorld X → Prop) (m : M (DWorld X) A) (Q : Res A → DWorld X → Prop) w :
  inv I m → I w → (∀ a w', I w' → Q (Ok a) w') → (∀ e w', I w' → Q (Err e) w') → (∀ s w', Q (Panic s) w') → (∀ w', Q Blocked w') →
  wp m Q w.
Proof. intros Hm Hw ? ? ? ?. eapply wp_mono; [by apply Hm|]. intros [] ?; auto. Qed.

Lemma inv_and_weaken {A} (I J : DWorld X → Prop) (m : M (DWorld X) A) w : 
  inv (λ w, I w ∧ J w) m → I w → J w → wp m (λ r w', match r with Ok _ | Err _ => I w' | _ => True end) w.
Proof. intros Hm Hi Hj. eapply wp_mono; [by apply Hm|]. by intros [] ?; try intros []. Qed.
End stable.

Create HintDb inv discriminated.
#[export] Hint Resolve inv_Status inv_Wrap inv_cancel : inv.
#[export] Hint Extern 1 (inv _ (state_Set _)) => apply inv_Set; [typeclasses eauto|done] : inv.
#[export] Hint Extern 2 (inv _ (mod_server _)) => apply inv_mod_server; [typeclasses eauto|] : inv.

(** A call made of such calls. *)
Ltac stay :=
  repeat (intros; lazymatch goal with
  | |- inv _ (mbind _ _) => apply inv_bind
  | |- inv _ (try _) => apply inv_try
  | |- inv _ (match ?x with _ => _ end) => destruct x
  | |- inv _ (if ?x then _ else _) => destruct x
  | |- _ => first [solve [auto with inv typeclass_instances] | apply inv_keeps; [typeclasses eauto|solve [auto with keeps]]]
  end).

#[export] Hint Extern 3 (gentle _ _) =>
  (try case_decide; (split; [done|]; split; simpl; auto)) : inv.

(* ------------------------------------------------------------------ *)
(** ** The calls keep the invariant *)

Section operations.
Context {X : Type} `{Sys X} `{MgmAPI X} `{HttpLib X} `{Texts} `{Crypto} `{WgCtrl} `{Net}.
Implicit Types w : DWorld X.

Lemma ready_daemon_ok ctx w : ready_for ctx w → daemon_ok w.
Proof. by intros [[] ]. Qed.
Lemma configured_client (I : DWorld X → Prop) `{!Stable I} f :
  (∀ w, I w → configured w) → inv I (mod_oauth (X:=X) f).
Proof.
  intros Hc w Hw. apply wp_modify. apply stable_Server; [|done]. split; [done|]. split; [done|]. intros _. right. by apply Hc.
Qed.
Lemma inv_deferring {A} (I : DWorld X → Prop) `{!Stable I} (m : M (DWorld X) A) : inv I m → inv I (deferring m).
Proof. intros Hm. unfold deferring, login_settle. stay; auto. Qed.

Lemma renew_context_spec w : daemon_ok w →
  wp renew_context (λ r w', ∃ ctx, r = Ok ctx ∧ ready_for ctx w' ∧ flagged (DW_Ctxs w') ctx = false ∧
    DW_State w' = DW_State w ∧ DW_Runs w' = DW_Runs w ∧ DW_Waits w' = DW_Waits w ∧
    DW_Server w' = set_DS_actCancel (Some ctx) (DW_Server w)) w.
Proof.
  intros [Hok Hcon]. unfold renew_context, server, WithCancel, cancel_context, mod_server. wp_step. wp_step. wp_step.
  eapply (wp_mono _ (λ r w1, r = Ok tt ∧ core_ok w1 ∧ (∀ i c, action w1 i c → ∃ b, DW_Ctxs w1 !! c = Some (mkCtx None b) ∧ b = true) ∧
    DW_Server w1 = DW_Server w ∧ DW_Runs w1 = DW_Runs w ∧ DW_Waits w1 = DW_Waits w ∧ DW_State w1 = DW_State w)).
  - destruct (DS_actCancel (DW_Server w)) as [c|] eqn:Ha.
    + wp_step. split; [done|]. split; [by apply core_stable|]. split; [|done]. intros i c' Hi.
      destruct (ck_action _ Hok _ _ Hi) as (b & Hb & Hf). simpl. destruct (decide (c' = c)) as [->|Hne].
      * rewrite lookup_alter_eq, Hb. by eexists.
      * rewrite lookup_alter_ne by done. exists b. split; [done|]. destruct b; [done|]. specialize (Hf eq_refl). congruence.
    + wp_step. split; [done|]. split; [done|]. split; [|done]. intros i c' Hi.
      destruct (ck_action _ Hok _ _ Hi) as (b & Hb & Hf). exists b. split; [done|]. destruct b; [done|]. specialize (Hf eq_refl). congruence.
  - intros r w1 (-> & Hok1 & Hdead & Hs & Hr & Hw & Hst). simpl. do 8 wp_step.
    eexists. split; [done|]. rewrite Hs. split; [|split; [|done]].
    + split; [apply core_renew; auto; by rewrite Hs|]. unfold connected_ok. simpl. by rewrite Hst, Hr.
    + unfold flagged. simpl. by rewrite lookup_insert_eq.
Qed.

Lemma inv_loginAttempt (I : DWorld X → Prop) `{!Stable I} setupKey jwt : inv I (loginAttempt setupKey jwt).
Proof. unfold loginAttempt, server. stay. Qed.


(** What follows a login that may fail with a status. *)
Lemma inv_attempt {A} (I : DWorld X → Prop) `{!Stable I} setupKey jwt (k : option (StatusType * error) → M (DWorld X) A) :
  (∀ s err, s ≠ StConnected → inv I (k (Some (s, err)))) → inv I (k None) → inv I (r ← loginAttempt setupKey jwt; k r).
Proof.
  intros Hs Hn w Hw. wp_step. unfold loginAttempt, server. do 3 wp_step. wp_step; [|done]. do 2 wp_step.
  eapply wp_inv; [apply inv_keeps; [done|auto with keeps]|done|..]; try done.
  intros e w1 Hw1. simpl. destruct (_ || _); wp_step; by apply Hs.
Qed.

Lemma inv_sso_login (I : DWorld X → Prop) `{!Stable I} config : (∀ w, I w → configured w) → inv I (sso_login config).
Proof.
  intros Hc. pose proof (configured_client I) as Ho. unfold sso_login, request_code, server. stay; auto.
Qed.

(** A login leaves no action but that of its context, which is unused. *)
Lemma Daemon_Login_ready msg w : daemon_ok w →
  wp (Daemon_Login msg) (λ r w', match r with Ok _ | Err _ => ∃ ctx, ready_for ctx w' | _ => True end) w.
Proof.
  intros Hok. unfold Daemon_Login. wp_step. eapply wp_mono; [by apply renew_context_spec|].
  intros r w1 (ctx & -> & Hw1 & _). simpl. apply (wp_mono _ (λ r w', match r with Ok _ | Err _ => ready_for ctx w' | _ => True end)).
  2: { intros [] ? ?; eauto. }
  revert w1 Hw1. apply inv_deferring; [apply _|].
  apply inv_bind; [stay|intros _]. apply inv_bind; [stay|intros _]. apply inv_bind; [unfold server; stay|intros s].
  apply inv_bind; [stay|intros config]. intros w1 Hw1. wp_step. unfold mod_server at 1. wp_step.
  apply (wp_mono _ (λ r w', match r with Ok _ | Err _ => ready_for ctx w' ∧ configured w' | _ => True end)); [|by intros [] ? ?; try tauto].
  pose (I := λ w, ready_for ctx w ∧ configured w). assert (Stable I) by apply _.
  match goal with |- wp ?m _ _ => enough (inv I m) as Hinv end.
  { apply Hinv. split; [|done]. apply stable_Server; [|done]. auto with inv. }
  apply inv_attempt; [done| |stay]. intros _ _ _. apply inv_bind; [stay|intros _].
  case_decide; [apply inv_sso_login; [done|by intros ? []]|]. apply inv_attempt; [done| |stay]. intros st err Hst. stay.
Qed.
End operations.

Section steps.
Context {X : Type} `{Sys X} `{MgmAPI X} `{HttpLib X} `{Texts} `{Crypto} `{WgCtrl} `{Net}.
Implicit Types w : DWorld X.

(** A call keeps the invariant, when it starts where [P] holds. *)
Definition keeps_ok {A} (m : M (DWorld X) A) w : Prop :=
  wp m (λ r w', match r with Ok _ | Err _ => daemon_ok w' | _ => True end) w.

Lemma Daemon_Login_ok msg w : daemon_ok w → keeps_ok (Daemon_Login msg) w.
Proof. intros Hok. eapply wp_mono; [by apply Daemon_Login_ready|]. intros [] ?; try done; intros [? ?%ready_daemon_ok]; done. Qed.

(** The action that is added is the only one for its context. *)
Lemma spawn_run_ok ctx config wrap w : ready_for ctx w → keeps_ok (spawn_run ctx config wrap) w.
Proof.
  intros [Hf Hc]. unfold keeps_ok, spawn_run. do 2 wp_step. wp_step. split.
  - eapply core_add; eauto; simpl; [|intros i run [[<- <-]|[_ ?]]%lookup_insert_Some; [by right|by left]].
    intros i c Hi. unfold action in Hi |- *. simpl in Hi. setoid_rewrite lookup_insert_Some in Hi. simpl in Hi. naive_solver.
  - intros Hs. destruct (Hc Hs) as (i & run & Hi & Hup). exists i, run. split; [|done]. simpl.
    rewrite lookup_insert_ne; [done|]. intros <-. destruct Hf as [Hok _].
    assert (DW_Next w < DW_Next w); [|lia]. eapply ck_keys; [done|]. left. eauto.
Qed.

Lemma Up_ok w : daemon_ok w → keeps_ok Up w.
Proof.
  intros Hok. unfold keeps_ok, Up. wp_step. eapply (wp_inv daemon_ok); [apply inv_Status, _|done|..]; try done.
  intros s w1 Hw1. simpl. destruct (decide _); [wp_step; done|]. wp_step.
  eapply wp_mono; [by apply renew_context_spec|]. intros r w2 (ctx & -> & Hw2 & _). simpl. unfold server. do 2 wp_step.
  destruct (DS_config (DW_Server w2)); [by apply spawn_run_ok|]. wp_step. by eapply ready_daemon_ok.
Qed.

Lemma Down_ok w : daemon_ok w → keeps_ok Down w.
Proof. assert (inv (X:=X) daemon_ok Down) as Hinv by (unfold Down, server; stay). apply Hinv. Qed.

(** The daemon starts before anything else. *)
Lemma Start_ok w : daemon_ok w → DW_Next w = 0 → keeps_ok Daemon_Start w.
Proof.
  intros [Hok Hcon] Hn. unfold keeps_ok, Daemon_Start, state_Status, server, mod_server, WithCancel. do 3 wp_step.
  wp_step; wp_step; [done|]. destruct (decide _); [wp_step; done|].
  do 8 wp_step. match goal with |- wp _ _ ?w1 => assert (ready_for (DW_Next w) w1) as Hr end.
  { split; [|done]. apply core_renew; try done. intros i c (b & Hb & _)%ck_action; [|done].
    apply (ck_bounded _ Hok) in Hb. lia. }
  revert Hr. generalize (DW_Next w) as ctx. intros ctx. 
  match goal with |- _ → wp _ _ ?w1 => generalize w1 end. intros w1 Hw1.
  do 4 wp_step. eapply wp_inv; [apply inv_keeps; [apply _|auto with keeps]|exact Hw1|..]; try done.
  - intros config w2 Hw2. simpl. wp_step. wp_step. apply spawn_run_ok. apply stable_Server; [|done]. auto with inv.
  - intros e w2 Hw2. simpl. destruct (has_code _ e); [|wp_step; by eapply ready_daemon_ok].
    eapply (wp_inv (ready_for ctx)); [stay|done|..]; try done; intros; by eapply ready_daemon_ok.
Qed.

Lemma WithCancel_spec p w :
  wp (WithCancel p) (λ r w', ∃ c, r = Ok c ∧ grows w w' ∧ DW_Ctxs w' !! c = Some (mkCtx p false)) w.
Proof.
  pose proof (keeps_WithCancel (X:=X) p w) as Hg. unfold WithCancel, wp in *. simpl in *. eexists. split; [done|].
  split; [done|]. apply lookup_insert_eq.
Qed.

Lemma Wait_begin_ok userCode w : daemon_ok w → keeps_ok (WaitSSOLogin_begin userCode) w.
Proof.
  intros Hok. unfold keeps_ok, WaitSSOLogin_begin. wp_step. eapply wp_mono; [by apply renew_context_spec|].
  intros r w1 (ctx & -> & Hw1 & _). simpl. unfold server. do 3 wp_step. wp_step; [|by eapply ready_daemon_ok].
  assert (ready_for ctx w1 ∧ configured w1) as Hc.
  { split; [done|]. apply Hw1. congruence. }
  pose (I := λ w : DWorld X, ready_for ctx w ∧ configured w). change (I w1) in Hc. assert (Stable I) as HI by apply _.
  clear Hok Hw1. assert (∀ w, I w → daemon_ok w) as HIok by (intros ? [? _]; by eapply ready_daemon_ok).
  wp_step. eapply (wp_inv I); [apply inv_Set; [done|done]|done|..]; try done. intros ? w2 Hw2. simpl.
  destruct (decide _).
  { eapply (wp_inv I); [apply inv_deferring; [done|]; stay|done|..]; auto. }
  wp_step. eapply (wp_inv I); [stay|done|intros ? w3 Hw3; simpl|simpl; auto..]. wp_step. sys_step. wp_step.
  eapply wp_mono; [apply WithCancel_spec|]. intros r w4 (wc & -> & Hg & Hctx). simpl.
  assert (I w4) as Hw4 by (eapply stable_grows; [done|]; by eapply stable_grows; [|done]). clear Hg Hw3 Hw2.
  assert (∀ x', I (set_Ext x' (set_Server (set_DS_oauth (set_OF_waitCancel (Some wc) (DS_oauth (DW_Server w4)))
    (DW_Server w4)) w4))) as Hw5.
  { intros x'. eapply (stable_grows (I:=I)); [|apply (stable_Server (I:=I)); [|exact Hw4]]; [by split|auto with inv]. }
  wp_step. unfold mod_oauth, mod_server. do 2 wp_step. apply wp_outside_any.
  intros [[]|e|s|] x'; simpl; try done; [|by apply HIok, Hw5]. specialize (Hw5 x') as Hw0.
  do 4 wp_step. wp_step. split.
  - destruct Hw0 as [[Hf _] Hcfg]. eapply core_add; eauto; simpl.
    + intros i c Hi. unfold action in Hi |- *. simpl in Hi. setoid_rewrite lookup_insert_Some in Hi. simpl in Hi. naive_solver.
    + intros j wt [[<- <-]|[_ ?]]%lookup_insert_Some; [right|by left]. split; [done|]. by exists false.
  - apply Hw0.
Qed.
End steps.

(** Invariants that do not care which of the waiting calls go on. *)
Class Steady {X} (I : DWorld X → Prop) := {
  steady_stable :: Stable I;
  steady_waits w waits :
    (∀ j wt, waits !! j = Some wt → ∃ wt', DW_Waits w !! j = Some wt' ∧ Wait_ctx wt = Wait_ctx wt' ∧ Wait_waitCtx wt = Wait_waitCtx wt') →
    I w → I (set_Waits waits w) }.

Section goroutines.
Context {X : Type} `{Sys X} `{MgmAPI X} `{HttpLib X} `{Texts} `{Crypto} `{Runtime} `{WgCtrl} `{Net} `{DurationText}.
Implicit Types w : DWorld X.

#[export] Instance daemon_steady : Steady (daemon_ok (X:=X)).
Proof.
  split; [apply _|]. intros w waits Hw [Hok Hcon]. split; [|done].
  assert (core_ok (set_Waits waits (set_Runs (DW_Runs w) w))) as Hc; [|by destruct w].
  apply core_actions; [done|..|intros j wt Hj; right; by apply Hw].
  - intros i c [Hr|(wt & Hj & <-)]; [by left|]. right. destruct (Hw i wt Hj) as (wt' & ? & ? & _). by exists wt'.
  - apply Hok.
Qed.

Lemma inv_wait_end (I : DWorld X → Prop) `{!Steady I} j wt result : inv I (wait_end j wt result).
Proof.
  unfold wait_end. apply inv_bind.
  - intros w Hw. apply wp_modify. apply steady_waits; [|done]. intros k x [_ ?]%lookup_delete_Some. by exists x.
  - intros _. apply inv_deferring; [apply _|]. destruct result as [err|token].
    + apply inv_bind; [stay|intros _]. case_decide; [stay|]. unfold mod_oauth. stay.
    + apply inv_attempt; [apply _|stay|stay].
Qed.

Lemma inv_wait_tick (I : DWorld X → Prop) `{!Steady I} j wt w :
  DW_Waits w !! j = Some wt → I w → wp (wait_tick j wt) (λ r w', match r with Ok _ | Err _ => I w' | _ => True end) w.
Proof.
  intros Hj Hw. pose proof (inv_wait_end I) as Hend. unfold wait_tick. wp_step. wp_step. apply wp_outside_any.
  intros [[interval|token]|e|s|] x; simpl; try done; try (apply Hend; by eapply stable_grows; [|done]).
  wp_step. apply (wp_mono _ (λ r w', match r with Ok _ | Err _ => I w' ∧ DW_Waits w' !! j = Some wt | _ => True end)).
  - assert (I (set_Ext x w)) by (by eapply stable_grows; [|done]).
    destruct (decide _); [by wp_step|]. apply wp_outside_any. intros [] ?; try done; (split; [|done]); by eapply stable_grows; [|done].
  - intros [[]|e|s|] w'; simpl; [|tauto|done|done]. intros [Hw' Hj']. wp_step. apply steady_waits; [|done].
    intros k y [[<- <-]|[_ ?]]%lookup_insert_Some; [by exists wt|by exists y].
Qed.

(** *** The running client *)

Lemma evolve_steps own w w' : core_ok w → steps own w w' →
  (∀ c, own = Some c → ∃ p b, DW_Ctxs w !! c = Some (mkCtx (Some p) b)) → ctxs_evolve w w'.
Proof.
  intros Hok [] Hown. split; [done|]. split; [done|]. intros c p b Hp Hc. destruct (decide (Some c = own)) as [<-|Hne].
  - destruct (Hown c eq_refl) as (p' & b' & Hp'). specialize (st_own c Hc). rewrite Hp in st_own, Hp'. simplify_eq/=.
    destruct (DW_Ctxs w' !! c) as [[q b2]|]; simplify_eq/=. by exists b2.
  - exists b. by rewrite st_ctxs.
Qed.

Lemma core_steps own w w' : core_ok w → steps own w w' →
  (∀ c, own = Some c → ∃ p b, DW_Ctxs w !! c = Some (mkCtx (Some p) b)) → core_ok w'.
Proof.
  intros Hok Hs Hown. pose proof (evolve_steps _ _ _ Hok Hs Hown) as He. destruct Hs. eapply core_evolve; eauto.
  - by rewrite st_server.
  - by rewrite st_server.
  - rewrite st_server. apply Hok.
Qed.

(** The attempt of client [i] has come to something in [w]. *)
Lemma after_attempt_ok i run again r w :
  core_ok w → DW_Runs w !! i = Some run →
  match r with
  | inl None => True
  | inl (Some e) => CS_err (DW_State w) = Some e
  | inr p => engine_ctx w (mkRun (Run_ctx run) (Run_config run) (Run_wrap run) p) ∧ p ≠ RunReady
  end → keeps_ok (after_attempt i run again r) w.
Proof.
  intros Hok Hi Hr. unfold keeps_ok, after_attempt.
  assert (∀ runs, (∀ j run', runs !! j = Some run' → engine_ctx w run' ∧ ∃ run0, DW_Runs w !! j = Some run0 ∧ Run_ctx run' = Run_ctx run0) →
    core_ok (set_Runs runs w)) as Hruns.
  { intros runs Hruns. assert (core_ok (set_Waits (DW_Waits w) (set_Runs runs w))) as Hc; [|by destruct w].
    apply core_actions; [done|..|by left].
    - intros j c [(run' & Hj & <-)|?]; [left|by right]. destruct (Hruns j run' Hj) as (_ & run0 & ? & ?). by exists run0.
    - intros j run' Hj. by destruct (Hruns j run' Hj). }
  assert (∀ err, wp (_ ← run_return (Run_wrap run) err; modify (λ w, set_Runs (delete i (DW_Runs w)) w))
    (λ r w', match r with Ok _ | Err _ => daemon_ok w' | _ => True end) w) as Hret.
  { intros err. wp_step. eapply wp_mono; [apply run_return_spec|]. intros r' w' (-> & s & e & -> & Hs & _). simpl. wp_step. split.
    - eassert (core_ok (set_State (mkContextState _ s) (set_Runs (delete i (DW_Runs w)) w))) as Hc; [|exact Hc].
      apply core_stable.
      + intros [= _ ->]. by case_decide.
      + apply Hruns. intros j run' [_ Hj]%lookup_delete_Some. split; [by eapply ck_engine|by exists run'].
    - unfold connected_ok. simpl. intros [= _ ->]. by case_decide. }
  assert (∀ p, engine_ctx w (mkRun (Run_ctx run) (Run_config run) (Run_wrap run) p) →
    core_ok (set_Runs (<[i:=mkRun (Run_ctx run) (Run_config run) (Run_wrap run) p]> (DW_Runs w)) w)) as Hset.
  { intros p Hp. apply Hruns. intros j run' [[<- <-]|[_ Hj]]%lookup_insert_Some; [split; [done|by exists run]|].
    split; [by eapply ck_engine|by exists run']. }
  destruct r as [[e|]|p]; [destruct again|..].
  - wp_step. split; [by apply Hset|]. unfold connected_ok. simpl. intros Hs. rewrite Hs in Hr. done.
  - apply Hret.
  - apply Hret.
  - wp_step. split; [apply Hset, Hr|]. intros _. destruct Hr as [_ Hp]. destruct p as [|ec mgm sig e]; [done|].
    exists i. eexists. simpl. rewrite lookup_insert_eq. split; [done|]. by exists ec, mgm, sig, e.
Qed.

Lemma run_step_ok i run again w : daemon_ok w → DW_Runs w !! i = Some run → keeps_ok (run_step i run again) w.
Proof.
  intros [Hok Hcon] Hi. unfold run_step. destruct (Run_phase run) as [|ec mgm sig engine] eqn:Hp.
  - unfold keeps_ok. wp_step. eapply wp_mono; [apply operation_begin_spec|].
    intros r w1 [(_ & -> & ->)|[Hs Hend]]; [by apply (after_attempt_ok i run again (inl None))|].
    assert (core_ok w1) as Hok1 by (by apply (core_steps None w)).
    assert (DW_Runs w1 !! i = Some run) as Hi1 by (by rewrite (st_runs _ _ _ Hs)).
    destruct r as [r|e|s|]; try done. apply (after_attempt_ok i run again r); [done..|].
    destruct r as [[e|]|p]; try done. unfold engine_ctx. simpl in *. destruct p as [|ec mgm sig engine]; [done|]. destruct Hend as (_ & _ & Hc). split; [by exists false|done].
  - unfold keeps_ok. wp_step. eapply wp_mono; [apply operation_end_spec|]. intros r w1 [Hs Hend].
    assert (core_ok w1) as Hok1.
    { apply (core_steps (Some ec) w); [done..|]. intros c [= <-]. pose proof (ck_engine _ Hok _ _ Hi) as He. unfold engine_ctx in He.
      rewrite Hp in He. destruct He as [b Hb]. by eexists _, b. }
    assert (DW_Runs w1 !! i = Some run) as Hi1 by (by rewrite (st_runs _ _ _ Hs)).
    destruct r as [r|e|s|]; try done. apply (after_attempt_ok i run again r); [done..|]. by destruct r as [[e|]|p].
Qed.

Lemma reset_ok engineCtx w : daemon_ok w → keeps_ok (reset_connection engineCtx) w.
Proof. assert (inv (X:=X) daemon_ok (reset_connection engineCtx)) as Hinv by (unfold reset_connection; stay). apply Hinv. Qed.
End goroutines.

(* ------------------------------------------------------------------ *)
(** ** A client that has been cancelled *)

(** Context [c] is cancelled for good, and the client [i] stands where it
    stands. *)
Definition frozen {X} (i c : nat) (o : option Run) (w : DWorld X) : Prop :=
  ctxs_bounded w ∧ DW_Ctxs w !! c = Some (mkCtx None true) ∧ DW_Runs w !! i = o ∧ i < DW_Next w.

Definition left_to_do {X} (w : DWorld X) (i : nat) : nat :=
  match DW_Runs w !! i with
  | None => 0
  | Some run => match Run_phase run with RunReady => 1 | RunUp _ _ _ _ => 2 end
  end.

Section frozen.
Context {X : Type} `{Sys X} `{MgmAPI X} `{HttpLib X} `{Texts} `{Crypto} `{Runtime} `{WgCtrl} `{Net} `{DurationText}.
Context (i c : nat) (o : option Run).
Implicit Types w : DWorld X.

#[export] Instance frozen_steady : Steady (frozen (X:=X) i c o).
Proof.
  split; [split|done].
  - intros w w' Hg (Hb & Hc & Hi & Hn). pose proof (gr_next _ _ Hg). split; [by apply (gr_bounded _ _ Hg)|].
    split; [rewrite (gr_ctxs _ _ Hg); [done|by eapply Hb]|]. split; [by rewrite (gr_runs _ _ Hg)|lia].
  - intros j w (Hb & Hc & Hi & Hn). split; [by apply (evolve_cancel j w)|]. split; [|done]. simpl.
    destruct (decide (c = j)) as [->|?]; [by rewrite lookup_alter_eq, Hc|by rewrite lookup_alter_ne].
  - done.
  - done.
Qed.
#[local] Abbreviation I := (frozen (X:=X) i c o).

(** The server, with any context for the action. *)
Lemma frozen_server f : inv I (mod_server f).
Proof. intros w Hw. by apply wp_modify. Qed.
Lemma frozen_renew : inv I renew_context.
Proof. pose proof frozen_server. unfold renew_context, server. stay; auto. Qed.
Lemma frozen_spawn ctx config wrap : inv I (spawn_run ctx config wrap).
Proof.
  intros w (Hb & Hc & Hi & Hn). unfold spawn_run. do 2 wp_step. wp_step. split; [|split; [done|split; [|simpl; lia]]].
  - intros k x Hk. specialize (Hb k x Hk). simpl. lia.
  - simpl. rewrite lookup_insert_ne by lia. done.
Qed.
#[local] Hint Resolve frozen_server frozen_renew frozen_spawn : inv.

Lemma frozen_oauth f : inv I (mod_oauth f).
Proof. apply frozen_server. Qed.
#[local] Hint Resolve frozen_oauth : inv.

Lemma frozen_Login msg : inv I (Daemon_Login msg).
Proof.
  unfold Daemon_Login. apply inv_bind; [apply frozen_renew|intros ctx]. apply inv_deferring; [apply _|].
  do 2 (apply inv_bind; [apply frozen_server|intros ?]). apply inv_bind; [unfold server; stay|intros s].
  apply inv_bind; [stay|intros config]. apply inv_bind; [apply frozen_server|intros _].
  apply inv_attempt; [apply _| |stay]. intros _ _ _. apply inv_bind; [stay|intros _]. case_decide.
  - unfold sso_login, request_code, server. stay; auto with inv.
  - apply inv_attempt; [apply _| |stay]. intros s0 err Hst. stay.
Qed.
Lemma frozen_Start : inv I Daemon_Start.
Proof. unfold Daemon_Start, server. stay; auto with inv. Qed.
Lemma frozen_Up : inv I Up.
Proof. unfold Up, server. stay; auto with inv. Qed.
Lemma frozen_Down : inv I Down.
Proof. unfold Down, server. stay. Qed.
Lemma frozen_wait_begin userCode : inv I (WaitSSOLogin_begin userCode).
Proof.
  unfold WaitSSOLogin_begin, server. apply inv_bind; [stay|intros ctx]. apply inv_bind; [stay|intros s].
  apply inv_bind; [unfold or_fail; stay|intros client]. apply inv_bind; [stay|intros _].
  destruct (decide _); [apply inv_deferring; [apply _|stay]|].
  do 5 (apply inv_bind; [stay|intros ?]). intros w (Hb & Hc & Hi & Hn). do 4 wp_step. wp_step.
  split; [|split; [done|split; [done|simpl; lia]]]. intros k x Hk. specialize (Hb k x Hk). simpl. lia.
Qed.

Lemma frozen_steps own w w' : steps own w w' → (∀ k, own = Some k → k ≠ c) → I w → I w'.
Proof.
  intros [] Hown (Hb & Hc & Hi & Hn). split; [auto|]. split; [|split; [congruence|lia]].
  rewrite st_ctxs; [done|by eapply Hb|]. intros Heq. by apply (Hown c).
Qed.
Lemma frozen_after j run again r w :
  j ≠ i → I w → wp (after_attempt j run again r) (λ r w', r = Ok tt ∧ I w') w.
Proof.
  intros Hj (Hb & Hc & Hi & Hn). unfold after_attempt.
  assert (∀ p, <[j := p]> (DW_Runs w) !! i = o) as Hset by (intros p; by rewrite lookup_insert_ne).
  destruct r as [[e|]|p]; [destruct again|..].
  all: try (wp_step; split; [done|]; split; [done|]; split; [done|]; split; [apply Hset|done]).
  all: wp_step; (eapply wp_mono; [apply run_return_spec|]); intros ? w' (-> & s & e' & -> & _); simpl; wp_step.
  all: split; [done|]; split; [done|]; split; [done|]; split; [|done]; simpl; by rewrite lookup_delete_ne.
Qed.
Lemma frozen_run_step j run again w :
  j ≠ i → core_ok w → DW_Runs w !! j = Some run → I w →
  wp (run_step j run again) (λ r w', match r with Ok _ | Err _ => I w' | _ => True end) w.
Proof.
  intros Hj Hok Hrun Hw. unfold run_step. destruct (Run_phase run) as [|ec mgm sig engine] eqn:Hp; wp_step.
  - eapply wp_mono; [apply operation_begin_spec|]. intros r w1 Hr. assert (I w1) as Hw1.
    { destruct Hr as [(_ & _ & ->)|[Hs _]]; [done|]. by eapply frozen_steps. }
    destruct r as [r|e|s|]; simpl; try done. eapply wp_mono; [by apply frozen_after|]. by intros ? w' [-> ?].
  - eapply wp_mono; [apply operation_end_spec|]. intros r w1 [Hs _]. assert (I w1) as Hw1.
    { eapply frozen_steps; [done| |done]. intros k [= <-] ->. pose proof (ck_engine _ Hok _ _ Hrun) as He.
      unfold engine_ctx in He. rewrite Hp in He. destruct He as [b Hb]. destruct Hw as (_ & Hc & _). by simplify_eq. }
    destruct r as [r|e|s|]; simpl; try done. eapply wp_mono; [by apply frozen_after|]. by intros ? w' [-> ?].
Qed.
End frozen.

Section system.
Context {X : Type} `{Sys X} `{MgmAPI X} `{HttpLib X} `{Texts} `{Crypto} `{Runtime} `{WgCtrl} `{Net} `{DurationText}.
Implicit Types w : DWorld X.

(** Every step of the system keeps the invariant. *)
Lemma d_step_ok w l r w' : daemon_ok w → d_step w l r w' → match r with Ok _ | Err _ => daemon_ok w' | _ => True end.
Proof.
  intros Hok [m r' w1 Hop Hrun]. enough (keeps_ok m w) as Hk by (unfold keeps_ok, wp in Hk; by rewrite Hrun in Hk). clear Hrun.
  assert (∀ A (m : M (DWorld X) A), keeps_ok m w → keeps_ok (_ ← m; mret tt) w) as Hvoid.
  { intros A m0 Hm. unfold keeps_ok. wp_step. apply (wp_mono _ (λ r w', match r with Ok _ | Err _ => daemon_ok w' | _ => True end)); [exact Hm|].
    by intros [] ? ?. }
  destruct l as [|msg|code|j|j timeout| | |i again|i]; simpl in Hop.
  - case_decide; simplify_eq. by apply Start_ok.
  - simplify_eq. by apply Hvoid, Daemon_Login_ok.
  - simplify_eq. by apply Hvoid, Wait_begin_ok.
  - destruct (DW_Waits w !! j) as [wt|] eqn:Hj; simplify_eq/=. by apply inv_wait_tick; [apply _|..].
  - destruct (DW_Waits w !! j) as [wt|]; simplify_eq/=.
    destruct timeout; [|destruct (ctx_done _ _)]; simplify_eq; by apply inv_wait_end; [apply _|].
  - simplify_eq. by apply Up_ok.
  - simplify_eq. by apply Down_ok.
  - destruct (DW_Runs w !! i) as [run|] eqn:Hi; simplify_eq/=.
    destruct (Run_phase run); [|destruct (ctx_done _ _)]; simplify_eq; by apply run_step_ok.
  - destruct (DW_Runs w !! i) as [run|] eqn:Hi; simplify_eq/=. destruct (Run_phase run); simplify_eq. by apply reset_ok.
Qed.

Lemma reachable_ok w0 w : daemon_ok w0 → d_reachable w0 w → daemon_ok w.
Proof.
  intros H0' Hr. induction Hr as [|w l r w' _ IH Hs Hok]; [done|]. pose proof (d_step_ok _ _ _ _ IH Hs). by destruct r.
Qed.

Lemma fresh_ok m a p l files x : daemon_ok (freshDaemon (X:=X) (newDaemon m a p l) files x).
Proof.
  split; [|done].
  assert (∀ i c, ¬ action (freshDaemon (newDaemon m a p l) files x) i c) as Hno.
  { intros i c [(r & Hi & _)|(wt & Hi & _)]; simpl in Hi; by rewrite lookup_empty in Hi. }
  split; try done; intros *; try (intros []%Hno); simpl; by rewrite ?lookup_empty.
Qed.

(** *** A cancelled client only ends *)

Lemma classic_own i (l : d_label) : (∃ again, l = DRun i again) ∨ ∀ again, l ≠ DRun i again.
Proof.
  destruct l as [| | | | | | |j again|]; try (by right). destruct (decide (j = i)) as [->|Hne]; [left; by exists again|right].
  by intros ? [= ? _].
Qed.

(** Client [i] has been cancelled, or has gone. *)
Definition stopping i w : Prop :=
  daemon_ok w ∧ ∃ c, frozen i c (DW_Runs w !! i) w ∧ ∀ run, DW_Runs w !! i = Some run → Run_ctx run = c.

Lemma begin_done ctx config w : ctx_done (DW_Ctxs w) ctx = true → operation_begin ctx config w = (Ok (inl None), w).
Proof. intros Hd. unfold operation_begin, gets, mbind, M_bind. by rewrite Hd. Qed.

(** A step has brought the cancelled client [i] closer than [n] to its end. *)
Definition withdrawn i run n w : Prop :=
  ctxs_bounded w ∧ DW_Ctxs w !! Run_ctx run = Some (mkCtx None true) ∧ i < DW_Next w ∧
  left_to_do w i < n ∧ ∀ run', DW_Runs w !! i = Some run' → Run_ctx run' = Run_ctx run.

Lemma own_step i run again w :
  stopping i w → DW_Runs w !! i = Some run →
  wp (run_step i run again) (λ r w', match r with
    | Ok _ | Err _ => stopping i w' ∧ left_to_do w' i < left_to_do w i
    | _ => True end) w.
Proof.
  intros [Hok (c & (Hb & Hctx & _ & Hn) & Hc)] Hi. specialize (Hc run Hi). subst c.
  apply (wp_mono _ (λ r w', match r with Ok _ | Err _ => daemon_ok w' | _ => True end ∧
    match r with Ok _ | Err _ => withdrawn i run (left_to_do w i) w' | _ => True end)).
  2: { intros r w' Hr. unfold withdrawn, stopping, frozen in *. destruct r; try done; destruct Hr as (? & ? & ? & ? & ? & ?); eauto 10. }
  apply wp_and; [by apply run_step_ok|].
  unfold left_to_do. rewrite Hi.
  assert (∀ err w1, ctxs_bounded w1 → DW_Ctxs w1 !! Run_ctx run = Some (mkCtx None true) → i < DW_Next w1 →
    wp (_ ← run_return (Run_wrap run) err; modify (λ w, set_Runs (delete i (DW_Runs w)) w)) (λ r w',
      r = Ok tt ∧ ctxs_bounded w' ∧ DW_Ctxs w' !! Run_ctx run = Some (mkCtx None true) ∧ i < DW_Next w' ∧ DW_Runs w' !! i = None) w1) as Hret.
  { intros err w1 Hb1 Hc1 Hn1. wp_step. eapply wp_mono; [apply run_return_spec|].
    intros ? w' (-> & s & e & -> & _). simpl. wp_step. split; [done|]. split; [done|]. split; [done|]. split; [done|]. apply lookup_delete_eq. }
  unfold run_step. destruct (Run_phase run) as [|ec mgm sig engine] eqn:Hp.
  - wp_step. unfold wp at 1. rewrite begin_done by (by unfold ctx_done, flagged; rewrite Hctx). simpl.
    eapply wp_mono; [by apply Hret|]. intros ? w' (-> & ? & ? & ? & Hnone). unfold withdrawn, left_to_do. rewrite Hnone. split_and!; auto. done.
  - wp_step. eapply wp_mono; [apply operation_end_spec|]. intros r w1 [Hs Hend].
    assert (frozen i (Run_ctx run) (Some run) w1) as (Hb1 & Hc1 & Hi1 & Hn1).
    { eapply frozen_steps; [exact Hs| |done]. intros k [= <-] ->. pose proof (ck_engine _ (proj1 Hok) _ _ Hi) as He.
      unfold engine_ctx in He. rewrite Hp in He. destruct He as [b Hbb]. by simplify_eq. }
    destruct r as [[[e|]|p]|e|s|]; simpl; try done; [destruct again|].
    + wp_step. unfold withdrawn, left_to_do. simpl. rewrite lookup_insert_eq. split_and!; auto. by intros ? [= <-].
    + eapply wp_mono; [by apply Hret|]. intros ? w' (-> & ? & ? & ? & Hnone). unfold withdrawn, left_to_do. rewrite Hnone. split_and!; auto; done || lia.
    + eapply wp_mono; [by apply Hret|]. intros ? w' (-> & ? & ? & ? & Hnone). unfold withdrawn, left_to_do. rewrite Hnone. split_and!; auto; done || lia.
Qed.

(** A step that is not of client [i] leaves it where it stands. *)
Lemma others_step i c w l r w' :
  daemon_ok w → frozen i c (DW_Runs w !! i) w → (∀ again, l ≠ DRun i again) → d_step w l r w' →
  match r with Ok _ | Err _ => frozen i c (DW_Runs w !! i) w' | _ => True end.
Proof.
  intros [Hok _] Hfr Hl [m r' w1 Hop Hrun]. pose (I := frozen (X:=X) i c (DW_Runs w !! i)).
  assert (Steady I) as HI by apply frozen_steady.
  enough (wp m (λ r w', match r with Ok _ | Err _ => I w' | _ => True end) w) as Hk by (unfold wp in Hk; by rewrite Hrun in Hk).
  clear Hrun. assert (∀ A (m : M (DWorld X) A), inv I m → inv I (_ ← m; mret tt)) as Hvoid.
  { intros A m0 Hm. apply inv_bind; [done|]. intros _. apply inv_keeps; [apply _|auto with keeps]. }
  destruct l as [|msg|code|j|j timeout| | |j again|j]; simpl in Hop.
  - case_decide; simplify_eq. by apply frozen_Start.
  - simplify_eq. by apply Hvoid, Hfr; apply frozen_Login.
  - simplify_eq. by apply Hvoid, Hfr; apply frozen_wait_begin.
  - destruct (DW_Waits w !! j) as [wt|] eqn:Hj; simplify_eq/=. by apply inv_wait_tick; [apply _|..].
  - destruct (DW_Waits w !! j) as [wt|]; simplify_eq/=.
    destruct timeout; [|destruct (ctx_done _ _)]; simplify_eq; by apply inv_wait_end; [apply _|].
  - simplify_eq. by apply frozen_Up.
  - simplify_eq. by apply frozen_Down.
  - destruct (DW_Runs w !! j) as [run|] eqn:Hj; simplify_eq/=. assert (j ≠ i) by (by intros ->; apply (Hl again)).
    destruct (Run_phase run); [|destruct (ctx_done _ _)]; simplify_eq; by apply frozen_run_step.
  - destruct (DW_Runs w !! j) as [run|] eqn:Hj; simplify_eq/=. destruct (Run_phase run); simplify_eq.
    assert (inv I (reset_connection engineCtx)) as Hr by (unfold reset_connection; stay). by apply Hr.
Qed.

Lemma stopping_step i w l r w' :
  stopping i w → d_step w l r w' → match r with Ok _ | Err _ => True | _ => False end →
  stopping i w' ∧ left_to_do w' i ≤ left_to_do w i ∧ ∀ again, l = DRun i again → left_to_do w' i < left_to_do w i.
Proof.
  intros Hst Hstep Hr. destruct (classic_own i l) as [[again ->]|Hl].
  - destruct Hstep as [m r' w1 Hop Hrun]. simpl in Hop. destruct (DW_Runs w !! i) as [run|] eqn:Hi; simplify_eq/=.
    assert (m = run_step i run again) as -> by (destruct (Run_phase run); [|destruct (ctx_done _ _)]; by simplify_eq).
    pose proof (own_step i run again w Hst Hi) as Hw. unfold wp in Hw. rewrite Hrun in Hw. simpl in Hw.
    destruct r'; try done; destruct Hw as [? ?]; (split; [done|]; split; [lia|]; by intros ? [= <-]).
  - destruct Hst as (Hok & c & Hfr & Hc). pose proof (others_step i c _ _ _ _ Hok Hfr Hl Hstep) as Hfr'.
    pose proof (d_step_ok _ _ _ _ Hok Hstep) as Hok'.
    assert (frozen i c (DW_Runs w !! i) w' ∧ daemon_ok w') as [Hf Ho] by (by destruct r). clear Hfr' Hok'.
    pose proof Hf as (_ & _ & Heq & _). unfold stopping, left_to_do. rewrite Heq. split; [split; [done|by exists c]|].
    split; [done|]. intros again ->. by destruct (Hl again).
Qed.
End system.

Section helpers.
Context {X : Type} `{Sys X} `{MgmAPI X} `{HttpLib X} `{Texts} `{Crypto} `{Runtime} `{WgCtrl} `{Net} `{DurationText}.
Implicit Types w : DWorld X.

(** The client that is up when the daemon says it is connected. *)
Lemma connected_engine w :
  daemon_ok w → (Daemon_Status w).1 = Ok "Connected" →
  ∃ i run engineCtx mgm sig engine, DW_Runs w !! i = Some run ∧ Run_phase run = RunUp engineCtx mgm sig engine ∧
    Ctx_Parent <$> DW_Ctxs w !! engineCtx = Some (Some (Run_ctx run)).
Proof.
  intros [Hok Hcon] Hst.
  assert (DW_State w = mkContextState None StConnected) as Hs.
  { unfold Daemon_Status, state_Status, gets, mbind, M_bind in Hst. destruct (DW_State w) as [[e|] s]; simpl in Hst; [done|].
    by destruct s. }
  destruct (Hcon Hs) as (i & run & Hi & ec & mgm & sig & e & Hp). exists i, run, ec, mgm, sig, e.
  split; [done|]. split; [done|]. pose proof (ck_engine _ Hok _ _ Hi) as He. unfold engine_ctx in He. rewrite Hp in He.
  destruct He as [b ->]. done.
Qed.

(** After [Down] every action there is has been cancelled. *)
Lemma Down_cancels w w1 i c : daemon_ok w → Down w = (Ok tt, w1) → action w1 i c → DW_Ctxs w1 !! c = Some (mkCtx None true).
Proof.
  intros Hok Hdown Hi. pose proof (Down_ok w Hok) as Hok1. unfold keeps_ok, wp in Hok1. rewrite Hdown in Hok1. destruct Hok1 as [Hok1 _].
  destruct (ck_action _ Hok1 _ _ Hi) as (b & Hb & Hact). destruct b; [done|]. specialize (Hact eq_refl).
  unfold Down, server, cancel_context, gets, mbind, M_bind in Hdown.
  destruct (DS_actCancel (DW_Server w)) as [c'|] eqn:Hc; [|done]. injection Hdown as <-. simpl in *.
  simplify_eq. rewrite lookup_alter_eq in Hb. by destruct (DW_Ctxs w !! _).
Qed.

End helpers.

(* ------------------------------------------------------------------ *)
(** ** Properties *)

Section properties.
Context {X : Type} `{Sys X} `{MgmAPI X} `{HttpLib X} `{Texts} `{Crypto} `{Runtime} `{WgCtrl} `{Net} `{DurationText}.
Context (m a p l : string) (files : gmap string (option ClConfig)) (x : X).
Implicit Types w : DWorld X.
Abbreviation start := (freshDaemon (newDaemon m a p l) files x).

(** C9: the daemon does one thing at a time: in every state that calls and
    goroutines can bring about, in whatever order, at most one client runs or
    call waits whose context has not been cancelled, and it is the one that
    [Down] cancels; a call that waits for a token finds a configuration to log
    in with. *)
Theorem one_action_at_a_time w :
  d_reachable start w →
  (∀ i j c c', action w i c → action w j c' →
     ctx_done (DW_Ctxs w) c = false → ctx_done (DW_Ctxs w) c' = false → i = j) ∧
  (∀ i c, action w i c → ctx_done (DW_Ctxs w) c = false → DS_actCancel (DW_Server w) = Some c) ∧
  (∀ j wt, DW_Waits w !! j = Some wt → DS_config (DW_Server w) ≠ None).
Proof.
  intros Hr. destruct (reachable_ok _ _ (fresh_ok m a p l files x) Hr) as [Hok _].
  assert (∀ i c, action w i c → ctx_done (DW_Ctxs w) c = false → DS_actCancel (DW_Server w) = Some c) as Hlive.
  { intros i c (b & Hb & Hact)%(ck_action _ Hok) Hd. apply Hact. unfold ctx_done, flagged in Hd. rewrite Hb in Hd. by destruct b. }
  split; [|split; [done|]].
  - intros i j c c' Hi Hj Hc Hc'. pose proof (Hlive _ _ Hi Hc). pose proof (Hlive _ _ Hj Hc'). simplify_eq. by eapply ck_inj.
  - intros j wt Hj. by apply (ck_wait _ Hok j wt).
Qed.

(** C18: the daemon says it is connected only when it is: if [Status] answers
    [Connected], the engine of some client has been started and has not been
    stopped, and a context of that client holds it. *)
Theorem connected_has_engine w :
  d_reachable start w → (Daemon_Status w).1 = Ok "Connected" →
  ∃ i run engineCtx mgm sig engine, DW_Runs w !! i = Some run ∧ Run_phase run = RunUp engineCtx mgm sig engine ∧
    Ctx_Parent <$> DW_Ctxs w !! engineCtx = Some (Some (Run_ctx run)).
Proof. intros Hr. apply connected_engine. by apply (reachable_ok _ _ (fresh_ok m a p l files x)). Qed.

(** C10: what is brought down goes down: after [Down], whatever else is called and
    in whatever order, each client there was can take its next step, and its
    own steps, of which there are at most two, end it; no other step takes it
    further from its end or brings it back. *)
Theorem down_ends_clients w w1 i run :
  d_reachable start w → Down w = (Ok tt, w1) → DW_Runs w1 !! i = Some run →
  ∀ w2, d_reachable w1 w2 → left_to_do w2 i ≤ 2 ∧
    (left_to_do w2 i ≠ 0 → ∀ again, ∃ r w3, d_step w2 (DRun i again) r w3) ∧
    ∀ lbl r w3, d_step w2 lbl r w3 → match r with Ok _ | Err _ => True | _ => False end →
      left_to_do w3 i ≤ left_to_do w2 i ∧ ∀ again, lbl = DRun i again → left_to_do w3 i < left_to_do w2 i.
Proof.
  intros Hr Hdown Hi w2 Hr2. pose proof (reachable_ok _ _ (fresh_ok m a p l files x) Hr) as Hok.
  assert (stopping i w1) as Hst.
  { pose proof (Down_ok w Hok) as Hok1. unfold keeps_ok, wp in Hok1. rewrite Hdown in Hok1. simpl in Hok1.
    split; [done|]. exists (Run_ctx run). split; [|congruence]. destruct Hok1 as [Hok1 _].
    assert (action w1 i (Run_ctx run)) as Ha by (left; eauto). split; [apply Hok1|]. split; [|split; [done|by eapply ck_keys]].
    by eapply Down_cancels. }
  assert (stopping i w2) as Hst2.
  { clear -Hst Hr2. induction Hr2 as [|w l r w' _ IH Hs Hok]; [done|]. by eapply stopping_step. }
  split; [unfold left_to_do; destruct (DW_Runs w2 !! i) as [[]|]; simpl; [case_match|]; lia|]. split.
  - intros Hn again. destruct Hst2 as ([Hok2 _] & c & (_ & Hc & _ & _) & Hown). unfold left_to_do in Hn.
    destruct (DW_Runs w2 !! i) as [run2|] eqn:Hi2; [|done]. specialize (Hown _ eq_refl). subst c.
    enough (d_op (DRun i again) w2 = Some (run_step i run2 again)) as Hop.
    { exists (run_step i run2 again w2).1, (run_step i run2 again w2).2. by econstructor; [done|apply surjective_pairing]. }
    simpl. rewrite Hi2. simpl. destruct (Run_phase run2) as [|ec mgm sig e] eqn:Hp; [done|].
    pose proof (ck_engine _ Hok2 _ _ Hi2) as He. unfold engine_ctx in He. rewrite Hp in He. destruct He as [b Hb].
    assert (ctx_done (DW_Ctxs w2) ec = true) as ->; [|done]. unfold ctx_done, flagged at 2. rewrite Hb. simpl.
    unfold flagged. rewrite Hc. by destruct b, (from_option _ _ _).
  - intros lbl r w3 Hstep Hres. by destruct (stopping_step i w2 lbl r w3 Hst2 Hstep Hres) as (_ & ? & ?).
Qed.
End properties.

(* ------------------------------------------------------------------ *)
(** ** What a login leaves *)

Section login.
Context {X : Type} `{Sys X} `{MgmAPI X} `{HttpLib X} `{Texts} `{Crypto} `{Runtime} `{WgCtrl} `{Net} `{DurationText}.
Implicit Types w : DWorld X.

(** The state after the deferred function. *)
Definition settled (s : contextState) : contextState :=
  if decide (s = mkContextState None StNeedsLogin ∨ s = mkContextState None StLoginFailed) then s
  else mkContextState None StIdle.

Lemma login_settle_spec w : wp login_settle (λ r w', r = Ok tt ∧ w' = set_State (settled (DW_State w)) w) w.
Proof.
  by destruct w as [fs [[se|] []] srv cs op rs ws n x].
Qed.

Lemma wp_deferring {A} (m : M (DWorld X) A) (Q : Res A → DWorld X → Prop) w :
  wp m (λ r w', Q r (match r with Ok _ | Err _ => set_State (settled (DW_State w')) w' | _ => w' end)) w → wp (deferring m) Q w.
Proof.
  intros Hm. unfold deferring. do 2 wp_step. eapply wp_mono; [exact Hm|]. intros [a|e|s|] w' HQ; simpl; try done.
  all: wp_step; (eapply wp_mono; [apply login_settle_spec|]); intros ? ? [-> ->]; simpl; wp_step; done.
Qed.

Lemma settled_cases s : settled s = mkContextState None StIdle ∨ settled s = mkContextState None StNeedsLogin ∨
  settled s = mkContextState None StLoginFailed.
Proof. unfold settled. case_decide; naive_solver. Qed.

Lemma keeps_loginAttempt setupKey jwt : keeps (loginAttempt (X:=X) setupKey jwt).
Proof. unfold loginAttempt, server. keep. Qed.

(** The answer of the identity provider: a code that is new, or the last one
    while it is good. *)
Lemma sso_login_spec config w :
  wp (sso_login config) (λ r w', ∀ a, r = Ok a → DLA_NeedsSSOLogin a = true ∧ DS_config (DW_Server w') = DS_config (DW_Server w) ∧
    (DW_State w' = mkContextState None StNeedsLogin ∨ DW_State w' = DW_State w ∧ DW_Server w' = DW_Server w)) w.
Proof.
  unfold sso_login. do 2 wp_step. apply wp_keeps; [auto with keeps|]. intros [[name p]|e|s|] w1 Hg; simpl; try done.
  2: { unfold state_Set. do 2 wp_step. destruct (has_code NotFound e); [by wp_step|]. by destruct (has_code Unimplemented e); wp_step. }
  assert (∀ c w2, DS_config (DW_Server w2) = DS_config (DW_Server w) →
    wp (request_code c) (λ r w', ∀ a, r = Ok a → DLA_NeedsSSOLogin a = true ∧ DS_config (DW_Server w') = DS_config (DW_Server w) ∧
      (DW_State w' = mkContextState None StNeedsLogin ∨ DW_State w' = DW_State w ∧ DW_Server w' = DW_Server w)) w2) as Hreq.
  { intros c w2 Hc. unfold request_code, mod_oauth, mod_server, state_Set. wp_step. apply wp_outside_any.
    intros [info|e|s|] x; simpl; try done. wp_step. sys_step. wp_step. wp_step. wp_step. wp_step. wp_step.
    intros ? [= <-]. split; [done|]. split; [done|by left]. }
  unfold server, mod_server. do 2 wp_step. destruct (decide _); [|apply Hreq; by rewrite (gr_server _ _ Hg)].
  wp_step. sys_step. destruct (_ <? _)%Z.
  - wp_step. intros ? [= <-]. split; [done|]. simpl. rewrite (gr_server _ _ Hg), (gr_state _ _ Hg). auto.
  - wp_step. wp_step; [|done]. unfold cancel_context. do 2 wp_step. apply Hreq. simpl. by rewrite (gr_server _ _ Hg).
Qed.

Lemma renew_server w :
  wp renew_context (λ r w', ∃ ctx, r = Ok ctx ∧ DW_Server w' = set_DS_actCancel (Some ctx) (DW_Server w) ∧
    DW_State w' = DW_State w) w.
Proof.
  unfold renew_context, server, WithCancel, cancel_context, mod_server. do 2 wp_step.
  wp_step. destruct (DS_actCancel (DW_Server w)) eqn:Ha; wp_go; eexists; by rewrite ?Ha.
Qed.

Lemma Up_idle config w :
  DW_State w = mkContextState None StIdle → DS_config (DW_Server w) = Some config →
  wp Up (λ r w', r = Ok tt ∧ ∃ i run, DW_Runs w' !! i = Some run ∧ Run_phase run = RunReady ∧
    Some (Run_config run) = DS_config (DW_Server w) ∧ DS_actCancel (DW_Server w') = Some (Run_ctx run)) w.
Proof.
  intros Hs Hc. unfold Up, state_Status. do 3 wp_step. rewrite Hs. simpl. wp_step. wp_step.
  eapply wp_mono; [apply renew_server|]. intros r w1 (ctx & -> & Hsrv & _). unfold server. simpl. do 2 wp_step.
  rewrite Hsrv. simpl. rewrite Hc. unfold spawn_run. do 3 wp_step. split; [done|]. eexists (DW_Next w1), _.
  rewrite lookup_insert_eq, Hsrv. done.
Qed.

(** A login that returns leaves no error and one of the three states that
    are not of a connection; when it returns without asking for a login at the
    identity provider the daemon is idle, has a configuration, and [Up] starts
    the client; when it asks for one, the daemon waits for it ([NeedsLogin]),
    unless the last code is still good: then it is idle. *)
Theorem login_settles msg w :
  wp (Daemon_Login msg) (λ r w1, match r with
    | Ok a => ∃ s, DW_State w1 = mkContextState None s ∧
        (DLA_NeedsSSOLogin a = false → s = StIdle ∧
           wp Up (λ r' w2, r' = Ok tt ∧ ∃ i run, DW_Runs w2 !! i = Some run ∧ Run_phase run = RunReady ∧
             Some (Run_config run) = DS_config (DW_Server w1) ∧ DS_actCancel (DW_Server w2) = Some (Run_ctx run)) w1) ∧
        (DLA_NeedsSSOLogin a = true → s = StNeedsLogin ∨ s = StIdle ∧ DS_oauth (DW_Server w1) = DS_oauth (DW_Server w))
    | Err _ => ∃ s, DW_State w1 = mkContextState None s ∧ (s = StIdle ∨ s = StNeedsLogin ∨ s = StLoginFailed)
    | _ => True
    end) w.
Proof.
  unfold Daemon_Login. wp_step. eapply wp_mono; [apply renew_server|]. intros r w1 (ctx & -> & Hs1 & _). simpl.
  apply wp_deferring. apply (wp_mono _ (λ r w2, ∀ a, r = Ok a → DS_config (DW_Server w2) ≠ None ∧
    (DLA_NeedsSSOLogin a = false → settled (DW_State w2) = mkContextState None StIdle) ∧
    (DLA_NeedsSSOLogin a = true → DW_State w2 = mkContextState None StNeedsLogin ∨
       settled (DW_State w2) = mkContextState None StIdle ∧ DS_oauth (DW_Server w2) = DS_oauth (DW_Server w)))).
  2: { intros r w2 Hw2. destruct r as [a|e|s|]; simpl; try done; [|by destruct (settled_cases (DW_State w2)) as [->|[->| ->]]; eauto].
    destruct (Hw2 a eq_refl) as (Hcfg & Hno & Hyes). exists (CS_status (settled (DW_State w2))). split; [|split].
    - by destruct (settled_cases (DW_State w2)) as [->|[->| ->]].
    - intros Ha. specialize (Hno Ha). rewrite Hno. split; [done|]. assert (∃ c, DS_config (DW_Server w2) = Some c) as [c Hc] by (destruct (DS_config _); [by eexists|done]).
      exact (Up_idle c (set_State (mkContextState None StIdle) w2) eq_refl Hc).
    - intros [Hs|[-> Ho]]%Hyes; [left; by rewrite Hs|by right]. }
  unfold mod_server, server. do 7 wp_step.
  match goal with |- wp _ _ ?w0 => assert (DS_oauth (DW_Server w0) = DS_oauth (DW_Server w)) as Ho; [|generalize dependent w0] end.
  { simpl. rewrite Hs1. by do 2 case_decide. }
  intros w2 Ho. apply wp_keeps; [auto with keeps|]. intros [config|e|s|] w3 Hg3; simpl; try done.
  do 3 wp_step. match goal with |- wp _ _ ?w0 => assert (DS_oauth (DW_Server w0) = DS_oauth (DW_Server w) ∧ DS_config (DW_Server w0) = Some config) as Hw4;
    [|generalize dependent w0] end.
  { simpl. by rewrite (gr_server _ _ Hg3). }
  intros w4 [Ho4 Hc4]. apply wp_keeps; [apply keeps_loginAttempt|]. intros [[er|]|e|s|] w5 Hg5; simpl; try done.
  - unfold state_Set. do 2 wp_step. destruct (decide _).
    + eapply wp_mono; [apply sso_login_spec|]. intros r w6 Hr a Ha. destruct (Hr a Ha) as (Hn & Hc & Hst).
      rewrite Hc. simpl. rewrite (gr_server _ _ Hg5), Hc4, Hn. split; [done|]. split; [done|]. intros _.
      destruct Hst as [?|[-> ->]]; [by left|right]. split; [done|]. simpl. by rewrite (gr_server _ _ Hg5).
    + wp_step. apply wp_keeps; [apply keeps_loginAttempt|]. intros [[[st e]|]|e|s|] w6 Hg6; simpl; try done.
      wp_step. intros ? [= <-]. rewrite (gr_server _ _ Hg6). simpl. by rewrite (gr_server _ _ Hg5), Hc4, (gr_state _ _ Hg6).
  - unfold state_Set. wp_go. intros ? [= <-]. by rewrite (gr_server _ _ Hg5), Hc4.
Qed.
End login.

(* ------------------------------------------------------------------ *)
(** ** Where the code does not do what it means to *)

Section flaws.
Context {X : Type} `{Sys X} `{MgmAPI X} `{HttpLib X} `{Texts} `{Crypto} `{Runtime} `{WgCtrl} `{Net} `{DurationText}.
Implicit Types w : DWorld X.

(** The end of an action that has been replaced is reported as the state of
    the one that runs: when the goroutine of a cancelled client takes its last
    step, or a cancelled call of [WaitSSOLogin] returns, the daemon that was
    connected, or connecting, says that it is idle, while the engine of the
    other client goes on as before. *)
Theorem stale_action_reports_idle w s :
  DW_State w = mkContextState None s → s = StConnecting ∨ s = StConnected →
  (∀ i run again, DW_Runs w !! i = Some run → Run_phase run = RunReady → ctx_done (DW_Ctxs w) (Run_ctx run) = true →
     ∀ r w', d_step w (DRun i again) r w' → r = Ok tt ∧ (Daemon_Status w').1 = Ok "Idle" ∧ DW_Runs w' = delete i (DW_Runs w)) ∧
  (∀ j wt, DW_Waits w !! j = Some wt → ctx_done (DW_Ctxs w) (Wait_waitCtx wt) = true →
     ∀ r w', d_step w (DWaitDone j false) r w' → r = Ok tt ∧ (Daemon_Status w').1 = Ok "Idle" ∧ DW_Runs w' = DW_Runs w).
Proof.
  intros Hs Hcase. split.
  - intros i run again Hi Hp Hd r w' [m r' w1 Hop Hrun]. simpl in Hop. rewrite Hi in Hop. simpl in Hop.
    rewrite Hp in Hop. injection Hop as <-.
    assert (wp (run_step i run again) (λ r w', r = Ok tt ∧ (Daemon_Status w').1 = Ok "Idle" ∧ DW_Runs w' = delete i (DW_Runs w)) w) as Hw.
    { unfold run_step. rewrite Hp. wp_step. unfold wp. rewrite begin_done by done. simpl.
      apply wp_bind. eapply wp_mono; [apply run_return_spec|]. intros ? w2 (-> & s' & e & -> & -> & ->). simpl. wp_step.
      rewrite Hs. split; [done|]. split; [|done]. unfold Daemon_Status, state_Status, gets, mbind, M_bind. simpl.
      by destruct Hcase as [->| ->], (Run_wrap run). }
    unfold wp in Hw. by rewrite Hrun in Hw.
  - intros j wt Hj Hd r w' [m r' w1 Hop Hrun]. simpl in Hop. rewrite Hj in Hop. simpl in Hop. rewrite Hd in Hop. injection Hop as <-.
    assert (wp (wait_end j wt (inl ctx_Canceled)) (λ r w', r = Ok tt ∧ (Daemon_Status w').1 = Ok "Idle" ∧ DW_Runs w' = DW_Runs w) w) as Hw.
    { unfold wait_end, cancel_context. do 2 wp_step. apply wp_deferring. do 2 wp_step. wp_step.
      split; [done|]. split; [|done]. unfold Daemon_Status, state_Status, gets, mbind, M_bind. simpl. rewrite Hs.
      by destruct Hcase as [->| ->]. }
    unfold wp in Hw. by rewrite Hrun in Hw.
Qed.

(** Logging in again when the last code is about to expire ends the process:
    if nobody has waited for the token in between there is no wait to cancel,
    and the function to cancel it is nil. *)
Theorem expired_flow_panics config w name p w1 now x client :
  GetDeviceAuthorizationFlowInfo config w = (Ok (name, p), w1) →
  OF_client (DS_oauth (DW_Server w1)) = Some client → Hosted_ClientID client = Provider_ClientID p →
  OF_waitCancel (DS_oauth (DW_Server w1)) = None →
  sys_Now (DW_Ext w1) = (now, x) → (OF_expiresAt (DS_oauth (DW_Server w1)) ≤ now + seconds 90)%Z →
  ∃ s w2, sso_login config w = (Panic s, w2).
Proof.
  intros Hg Hc Hid Hw Hnow Hexp. cut (wp (sso_login config) (λ r _, ∃ s, r = Panic s) w).
  { unfold wp. destruct (sso_login config w) as [r w2]. intros [s Hr]. simpl in Hr. subst. by eexists _, _. }
  unfold sso_login. do 2 wp_step. unfold wp at 1. rewrite Hg. simpl. unfold server. do 2 wp_step.
  rewrite Hc. simpl. rewrite decide_True by (simpl; congruence). wp_step. unfold sys_get, wp at 1. rewrite Hnow. simpl.
  destruct (_ <? _)%Z eqn:Hlt; [apply Z.ltb_lt in Hlt; lia|]. rewrite Hw. wp_step. by eexists.
Qed.
End flaws.

(* ------------------------------------------------------------------ *)
(** ** Concrete runs of the daemon *)

Section runs.
Context {X : Type} `{Sys X} `{MgmAPI X} `{HttpLib X} `{Texts} `{Crypto} `{Runtime} `{WgCtrl} `{Net} `{DurationText}.

(** A step that can be taken and does not end the process is taken. *)
Definition d_do (w : DWorld X) (l : d_label) : DWorld X :=
  match d_op l w with
  | Some m => match m w with (Ok _, w') | (Err _, w') => w' | _ => w end
  | None => w
  end.
Lemma d_do_reachable ls w0 w : d_reachable w0 w → d_reachable w0 (foldl d_do w ls).
Proof.
  revert w. induction ls as [|l ls IH]; intros w Hw; [done|]. apply IH. unfold d_do.
  destruct (d_op l w) as [m|] eqn:Hop; [|done]. destruct (m w) as [[|e|s|] w'] eqn:Hm; try done; by eapply d_reach_step; [..|econstructor|].
Qed.
End runs.

(** An identity provider whose codes expire. *)
Definition demo_code (expires : Z) : Json :=
  JObject [("device_code", JString "d"); ("user_code", JString "u"); ("expires_in", JNumber expires); ("interval", JNumber 5)].
Definition demo_idp (expires : Z) : HttpLib nat := {|
  http_NewRequest _ := None;
  http_Do url _ n := (Ok (mkHttpAnswer 200 (inr (if decide (url = "https://idp/oauth/device/code") then "code" else "pending"))), S n);
  json_Parse s := if decide (s = "code") then inr (demo_code expires) else inr (JObject [("error", JString "authorization_pending")]);
  base64_RawURL s := inr s |}.

Definition demo_fresh : DWorld nat := freshDaemon (newDaemon "https://example.com" "" "config.json" "log") ∅ 0.
Definition demo_runs_daemon (known : bool) (expires : Z) : list d_label → DWorld nat :=
  foldl (@d_do nat demo_sys (demo_mgm known) (demo_idp expires) demo_texts demo_crypto demo_runtime demo_wgctrl demo_net demo_duration)
    demo_fresh.
Definition demo_login_msg : DaemonLoginRequest := mkDaemonLogin "" "" "" "".
Definition demo_reach := @d_reachable nat demo_sys (demo_mgm true) (demo_idp 60) demo_texts demo_crypto demo_runtime demo_wgctrl demo_net demo_duration.
Definition demo_step := @d_step nat demo_sys (demo_mgm true) (demo_idp 60) demo_texts demo_crypto demo_runtime demo_wgctrl demo_net demo_duration.

(** Two logins and clients: the first client, 3, has not started when the
    second, 7, takes its place and connects. *)
Definition demo_two : DWorld nat :=
  demo_runs_daemon true 60 [DLogin demo_login_msg; DUp; DLogin demo_login_msg; DUp; DRun 7 true].
Lemma demo_two_reachable : demo_reach demo_fresh demo_two.
Proof. unfold demo_two, demo_runs_daemon, demo_reach. apply d_do_reachable. constructor. Qed.

Lemma one_action_at_a_time_witness :
  action demo_two 3 2 ∧ action demo_two 7 6 ∧ DS_actCancel (DW_Server demo_two) = Some 6 ∧
  (∀ i c, action demo_two i c → ctx_done (DW_Ctxs demo_two) c = false → i = 7).
Proof.
  destruct (@one_action_at_a_time nat demo_sys (demo_mgm true) (demo_idp 60) demo_texts demo_crypto demo_runtime demo_wgctrl
    demo_net demo_duration "https://example.com" "" "config.json" "log" ∅ 0 demo_two demo_two_reachable) as (Hone & Hact & _).
  assert (action demo_two 7 6) as H7 by (left; eexists; split; vm_compute; reflexivity).
  assert (ctx_done (DW_Ctxs demo_two) 6 = false) as Hd by (vm_compute; reflexivity).
  split; [left; eexists; split; vm_compute; reflexivity|]. split; [exact H7|]. split; [exact (Hact 7 6 H7 Hd)|].
  intros i c Hi Hc. exact (Hone i 7 c 6 Hi H7 Hc Hd).
Defined.

Lemma connected_has_engine_witness :
  (Daemon_Status demo_two).1 = Ok "Connected" ∧ ∃ i run ec mgm sig e, DW_Runs demo_two !! i = Some run ∧ Run_phase run = RunUp ec mgm sig e.
Proof.
  assert ((Daemon_Status demo_two).1 = Ok "Connected") as Hs by (vm_compute; reflexivity). split; [exact Hs|].
  destruct (@connected_has_engine nat demo_sys (demo_mgm true) (demo_idp 60) demo_texts demo_crypto demo_runtime demo_wgctrl
    demo_net demo_duration "https://example.com" "" "config.json" "log" ∅ 0 demo_two demo_two_reachable Hs)
    as (i & run & ec & mgm & sig & e & Hi & Hp & _).
  exists i, run, ec, mgm, sig, e. split; [exact Hi|exact Hp].
Defined.

Lemma down_ends_clients_witness :
  let w1 := (Down demo_two).2 in left_to_do w1 7 = 2 ∧ ∃ r w2, demo_step w1 (DRun 7 true) r w2 ∧ r = Ok tt ∧ left_to_do w2 7 < 2.
Proof.
  intros w1. assert (Down demo_two = (Ok tt, w1)) as Hdown by (vm_compute; reflexivity).
  assert (is_Some (DW_Runs w1 !! 7)) as [run Hrun] by (vm_compute; eexists; reflexivity).
  assert (left_to_do w1 7 = 2) as Htwo by (vm_compute; reflexivity). split; [exact Htwo|].
  destruct (@down_ends_clients nat demo_sys (demo_mgm true) (demo_idp 60) demo_texts demo_crypto demo_runtime demo_wgctrl
    demo_net demo_duration "https://example.com" "" "config.json" "log" ∅ 0 demo_two w1 7 run demo_two_reachable Hdown Hrun
    w1 (d_reach_refl w1)) as (_ & Hstep & Hless).
  destruct (Hstep ltac:(rewrite Htwo; discriminate) true) as (r & w2 & Hs). exists r, w2. split; [exact Hs|].
  assert (r = Ok tt) as Hr.
  { destruct Hs as [m r' w3 Hop Hm]. vm_compute in Hop. injection Hop as <-. vm_compute in Hm. congruence. }
  split; [exact Hr|]. subst r. rewrite <- Htwo. exact (proj2 (Hless _ _ _ Hs I) true eq_refl).
Defined.

Lemma stale_action_reports_idle_witness :
  ∃ w', demo_step demo_two (DRun 3 true) (Ok tt) w' ∧ (Daemon_Status demo_two).1 = Ok "Connected" ∧
    (Daemon_Status w').1 = Ok "Idle" ∧ DW_Runs w' !! 7 = DW_Runs demo_two !! 7.
Proof.
  pose (w' := demo_runs_daemon true 60 [DLogin demo_login_msg; DUp; DLogin demo_login_msg; DUp; DRun 7 true; DRun 3 true]).
  assert (demo_step demo_two (DRun 3 true) (Ok tt) w') as Hs by (econstructor; vm_compute; reflexivity).
  exists w'. split; [exact Hs|]. split; [vm_compute; reflexivity|].
  assert (is_Some (DW_Runs demo_two !! 3)) as [run Hrun] by (vm_compute; eexists; reflexivity).
  assert (Run_phase run = RunReady ∧ Run_ctx run = 2) as [Hp Hc] by (vm_compute in Hrun; injection Hrun as <-; split; reflexivity).
  destruct (@stale_action_reports_idle nat demo_sys (demo_mgm true) (demo_idp 60) demo_texts demo_crypto demo_runtime demo_wgctrl
    demo_net demo_duration demo_two StConnected eq_refl (or_intror eq_refl)) as [Hstale _].
  destruct (Hstale 3 run true Hrun Hp ltac:(rewrite Hc; vm_compute; reflexivity) _ _ Hs) as (_ & Hidle & Hruns).
  split; [exact Hidle|]. rewrite Hruns. apply lookup_delete_ne. discriminate.
Defined.

(** The code of the first login is good for a minute only. *)
Definition demo_once : DWorld nat := demo_runs_daemon false 60 [DLogin demo_login_msg].
Lemma expired_flow_panics_witness :
  ∃ config s w2, DS_config (DW_Server demo_once) = Some config ∧
    @sso_login nat demo_sys (demo_mgm false) (demo_idp 60) demo_crypto config demo_once = (Panic s, w2).
Proof.
  pose (c := default demo_cl_config (DS_config (DW_Server demo_once))).
  pose (w1 := (@GetDeviceAuthorizationFlowInfo nat (demo_mgm false) demo_crypto c demo_once).2).
  assert (@GetDeviceAuthorizationFlowInfo nat (demo_mgm false) demo_crypto c demo_once =
    (Ok ("HOSTED", mkProviderConfig "client" "" "idp" "api"), w1)) as Hg by (vm_compute; reflexivity).
  destruct (@expired_flow_panics nat demo_sys (demo_mgm false) (demo_idp 60) demo_crypto c demo_once _ _ w1
    (Z.of_nat (DW_Ext w1) * 1000000000)%Z (S (DW_Ext w1)) (mkHosted "api" "client" "idp") Hg) as (s & w2 & Hrun).
  - vm_compute. reflexivity.
  - reflexivity.
  - vm_compute. reflexivity.
  - reflexivity.
  - vm_compute. discriminate.
  - exists c, s, w2. split; [vm_compute; reflexivity|exact Hrun].
Defined.

(** C24: a pre-shared key is never shown and survives being shown: the answer of
    the daemon's [GetConfig] has a mask in its place, or nothing where there is
    none; and a user who logs in with the answer as it is keeps the private and
    the pre-shared key, while URLs are taken over. *)
Theorem shown_config_keeps_keys {X} `{Sys X} `{Texts} `{Crypto} config m a (w : DWorld X) :
  DS_config (DW_Server w) = Some config → DW_Files w !! DS_configPath (DW_Server w) = Some (Some config) →
  wp Daemon_GetConfig (λ r w1, w1 = w ∧ ∃ g, r = Ok g ∧ (GCR_PreSharedKey g = "" ∨ GCR_PreSharedKey g = masked) ∧
    wp (GetConfig m a (GCR_ConfigFile g) (GCR_PreSharedKey g)) (λ r' w2, ∀ c, r' = Ok c →
      Cfg_PrivateKey c = Cfg_PrivateKey config ∧ Cfg_PreSharedKey c = Cfg_PreSharedKey config ∧
      url_for m (Cfg_ManagementURL config) (Cfg_ManagementURL c) ∧ url_for a (Cfg_AdminURL config) (Cfg_AdminURL c)) w) w.
Proof.
  intros Hc Hf. unfold Daemon_GetConfig, server. do 2 wp_step. rewrite Hc. wp_step. split; [done|].
  eexists. split; [reflexivity|]. simpl. split; [case_decide; auto|].
  eapply wp_mono; [apply GetConfig_spec|]. intros r w2 [_ Hr] c ->. destruct Hr as [_ Hr]. rewrite Hf in Hr.
  destruct Hr as (old & [= <-] & []). split; [done|]. split; [|done]. rewrite ov_psk. 
  repeat case_decide; simpl; try done; naive_solver.
Qed.

Lemma shown_config_keeps_keys_witness :
  let w := demo_runs_daemon true 60 [DLogin (mkDaemonLogin "" "secret" "" "")] in
  ∃ config g c, DS_config (DW_Server w) = Some config ∧ Cfg_PreSharedKey config = "secret" ∧
    (Daemon_GetConfig w).1 = Ok g ∧ (demo_get "" "" "config.json" (GCR_PreSharedKey g) w).1 = Ok c ∧ Cfg_PreSharedKey c = "secret".
Proof.
  intros w. pose (config := default demo_cl_config (DS_config (DW_Server w))).
  assert (DS_config (DW_Server w) = Some config) as Hc by (vm_compute; reflexivity).
  assert (DW_Files w !! DS_configPath (DW_Server w) = Some (Some config)) as Hf by (vm_compute; reflexivity).
  assert (Cfg_PreSharedKey config = "secret") as Hk by (vm_compute; reflexivity).
  destruct (@shown_config_keeps_keys nat demo_sys demo_texts demo_crypto config "" "" w Hc Hf) as (_ & g & Hg & _ & Hget).
  assert (GCR_PreSharedKey g = masked ∧ GCR_ConfigFile g = "config.json") as [Hm Hpath].
  { assert ((Daemon_GetConfig w).1 = Ok g) as Hg' by exact Hg. vm_compute in Hg'. injection Hg' as <-. split; reflexivity. }
  assert (∃ c, (demo_get "" "" "config.json" masked w).1 = Ok c) as [c Hrun] by (eexists; vm_compute; reflexivity).
  exists config, g, c. split; [exact Hc|]. split; [exact Hk|]. split; [exact Hg|]. rewrite Hm, Hpath in *.
  split; [exact Hrun|]. rewrite <- Hk. exact (proj1 (proj2 (Hget c Hrun))).
Defined.
