(* ===== verification/Joining.v ===== *)
(** * Joining: the client's login against the management service

    The client's [Login] (client/internal/login.go) with the server of
    [GrpcServer] behind the client of [MgmClient]: the class [MgmAPI], which the
    client is written against, is implemented by the two, and what the client
    takes for success is registration in the server's store. *)

From S2P Require Import Prelude GoLib Model Network UpdateChannel FileStore Account Groups Peers Turn Encryption Jwt GrpcServer Util Signal SignalClient MgmClient ClientModel WgIface PeerConn Engine Http OAuth DaemonModel ClientConfig ClientLogin.

Section joining.
Context `{Runtime} `{CryptoLaws} `{JwtLib} `{GrpcConn} `{Wires}
  `{!WireLaws LoginRequest} `{!WireLaws LoginResponse}.
Context (s : Server) (sync : EncryptedMessage → MW (list (error + EncryptedMessage))).
Abbreviation svc := (served s sync).

(** The management service of the client's process; dialling and closing are
    calls of the system. *)
#[export] Instance mgm_of_server : MgmAPI World := {|
  mgm_NewClient _ _ _ := os_call;
  mgm_GetServerPublicKey _ := GetServerPublicKey svc;
  mgm_Login key serverKey info := Client_Login key svc serverKey info;
  mgm_Register key serverKey setupKey jwtToken info := Client_Register key svc serverKey setupKey jwtToken info;
  mgm_GetDeviceAuthorizationFlow key serverKey := Client_GetDeviceAuthorizationFlow key svc serverKey;
  mgm_Close := os_call;
  sig_NewClient _ _ _ := os_call;
  sig_Close := os_call |}.

(** What registration relies on in the store. *)
Record store_ready (w : World) : Prop := {
  sr_keyed : well_keyed (World_Store w);
  sr_networks : networks_ok (World_Store w);
  sr_upd : upd_wf (World_Upd w);
  sr_peers : ∀ id a, Accounts (World_Store w) !! id = Some a → peers_keyed a }.

Lemma store_ready_same w w' : same_state w w' → store_ready w → store_ready w'.
Proof. intros (Es & _ & Eu & _) []. split; rewrite ?Es, ?Eu; done. Qed.

(** Keys of the two ends, and a network whose failures are not refusals. *)
Context (key : Key).
Hypothesis random : random_works.
Hypothesis own_key : ParseKey (Key_String (PublicKey key)) = inr (PublicKey key).
Hypothesis server_key : ParseKey (Key_String (PublicKey (Srv_wgKey s))) = inr (PublicKey (Srv_wgKey s)).
Hypothesis network : ∀ t e, rt_os t = Some e → has_code PermissionDenied e = false.

(** The server refuses a login without key and token before it changes
    anything. *)
Lemma Login_refusal_pure req k loginReq w :
  opens s req k loginReq w → LR_JwtToken loginReq = "" → LR_SetupKey loginReq = "" →
  wp (Login s req) (λ r w', ∀ e, r = Err e → has_code PermissionDenied e = true → same_state w w') w.
Proof.
  intros Hop Hjwt Hsk. eapply Login_opened; [exact Hop|]. intros w0 Hs.
  assert (∀ (p : Peer) w1,
    wp (wtConfig ← toWiretrusteeConfig (Srv_config s) None;
        encryptedResp ← EncryptMessage k (Srv_wgKey s) (mkLoginResponse (Some wtConfig) (Some (toPeerConfig p)))
          or_err Status Internal "failed logging in peer";
        mret (mkEncryptedMessage (Key_String (PublicKey (Srv_wgKey s))) encryptedResp))
      (λ r w', ∀ e, r = Err e → has_code PermissionDenied e = true → same_state w w') w1) as Htail.
  { intros p w1. wp_step. eapply wp_mono; [apply toWiretrusteeConfig_spec|].
    intros [c|e|m|] w2 [-> Hc]; simpl; try done. wp_step. wp_step.
    eapply wp_mono; [apply EncryptMessage_run|]. intros [b|e|m|] w3 [Hs3 Hb]; simpl; try done. by intros ? [= <-]. }
  wp_step. wp_step. unfold GetPeer. apply Store_GetPeer_spec; simpl.
  - intros id a p Hid Ha Hp. wp_step. destruct (LR_Meta loginReq); [|wp_step; apply Htail].
    wp_step. wp_step. unfold wp. destruct (UpdatePeerMeta _ _ w0) as [[[]|e|m|] w2]; simpl; try done; [apply Htail|].
    intros ? [= <-]. done.
  - intros _ m. wp_step. case_decide as Hd; [|by destruct Hd]. wp_step. intros ? _ _. done.
Qed.

(** A call that fails over the network fails on one of the ways, or at the
    server. *)
Lemma over_network_fails {A} (m : MW A) (P : World → Prop) w :
  (∀ n, P (set_Tick n w)) → (∀ n, wp m (λ r w', ∀ e, r = Err e → has_code PermissionDenied e = true → P w') (set_Tick n w)) →
  wp (over_network m) (λ r w', ∀ e, r = Err e → has_code PermissionDenied e = true → P w') w.
Proof.
  intros Hlost Hm. unfold over_network, os_call. wp_step. wp_step. unfold tick at 1, wp at 1. simpl.
  destruct (rt_os _) eqn:Ho; wp_step; [by intros ? [= <-]; rewrite (network _ _ Ho)|].
  wp_step. wp_step. eapply wp_mono; [apply Hm|]. intros [a|e|m'|] w1 Hw1; simpl; try done.
  - wp_step. wp_step. unfold tick, wp at 1. simpl. destruct (rt_os (World_Tick w1)) eqn:Ho1; wp_step; [|by wp_step].
    by intros ? [= <-]; rewrite (network _ _ Ho1).
  - intros ? [= <-] Hc. apply (Hw1 e); [done|]. by destruct e.
Qed.

(** So does the client's [Login], whatever is lost on the way. *)
Lemma Client_Login_spec info w :
  store_ready w →
  wp (Client_Login key svc (PublicKey (Srv_wgKey s)) info) (λ r w',
    (∀ x, r = Ok x → is_registered (Key_String (PublicKey key)) (World_Store w')) ∧
    (∀ e, r = Err e → has_code PermissionDenied e = true → same_state w w')) w.
Proof.
  intros [Hk Hn Hu Hp]. apply wp_and.
  - eapply wp_mono; [by apply login_spec|]. intros r w' Hr x ->. destruct (Hr x eq_refl) as (id & p & wc & Hst & _). by exists id, p.
  - unfold Client_Login, login. wp_step. apply wp_ready. intros [] t; simpl; [|by wp_step].
    wp_step. eapply wp_mono; [apply EncryptMessage_run|]. intros [b|e|m|] w1 [Hs1 Hb]; simpl; try done.
    wp_step. simpl.
    apply (wp_mono _ (λ r w2, (∀ e, r = Err e → has_code PermissionDenied e = true → same_state w w2) ∧
      ∀ em, r = Ok em → ∃ p, login_answer s (PublicKey key) p em)).
    + apply wp_and.
      * apply over_network_fails; [intros n; by etrans|]. intros n. eapply wp_mono.
        { apply (Login_refusal_pure _ (PublicKey key) (mkLoginRequest "" (infoToMetaData info) "")); [|done..]. split; [done|]. apply opens_to_run; [|done]. by apply sealed_opens. }
        intros r w2 Hr e He Hc. specialize (Hr e He Hc). by etrans; [exact Hs1|].
      * destruct Hs1 as (Es & _ & Eu & _). simpl in Es, Eu. apply wp_over_network; [done|]. intros n1. eapply wp_mono.
        { apply (Login_registers_spec s _ (PublicKey key) (mkLoginRequest "" (infoToMetaData info) "")); simpl; rewrite ?Es, ?Eu; [done..| |done].
          split; [done|]. apply opens_to_run; [|done]. by apply sealed_opens. }
        intros r w2 Hr. split_and!; [done| |done|done]. intros em n2 ->. split; [|done]. intros ? [= <-].
        destruct (Hr em eq_refl) as (id & p & _ & Hans). by exists p.
    + intros [em|e|m|] w2 [Herr Hok]; simpl; try done; [|by intros ? [= <-]; apply Herr].
      destruct (Hok em eq_refl) as (p & wc & t2 & nonce & plain & Hn2 & Hm & ->). simpl.
      eapply wp_mono; [apply (sealed_opens (Srv_wgKey s) key); by exists t2, nonce, plain|].
      intros r w3 [_ Hr3] x ->. destruct Hr3 as [?|(e & _ & t3 & Ht3)]; [done|]. destruct (random t3); congruence.
Qed.

Context `{Sys World} `{Texts}.
Hypothesis info_pure : ∀ w, same_state w (sys_GetInfo w).2.

(** [wp] of a call of the client's process whose outside is the service. *)
Lemma wp_GetInfo (Q : Res Info → DWorld World → Prop) w :
  (∀ i x, same_state (DW_Ext w) x → Q (Ok i) (set_Ext x w)) → wp (sys_get sys_GetInfo) Q w.
Proof.
  intros HQ. unfold wp, sys_get. pose proof (info_pure (DW_Ext w)) as Hp. destruct (sys_GetInfo (DW_Ext w)) as [i x]. by apply HQ.
Qed.

Lemma loginPeer_registers setupKey w :
  store_ready (DW_Ext w) →
  wp (loginPeer key (PublicKey (Srv_wgKey s)) setupKey "") (λ r w', ∀ x, r = Ok x →
    is_registered (Key_String (PublicKey key)) (World_Store (DW_Ext w'))) w.
Proof.
  intros Hready. unfold loginPeer. wp_step. apply wp_GetInfo. intros i x Hx. simpl. wp_step. wp_step. apply wp_outside. simpl.
  eapply wp_mono; [apply Client_Login_spec; by eapply store_ready_same|].
  intros [resp|e|m|] w1 [Hok Herr]; simpl; try done.
  destruct (has_code PermissionDenied e) eqn:Hc; [|by wp_step].
  assert (store_ready w1) as Hr1 by (eapply store_ready_same; [by apply (Herr e)|by eapply store_ready_same]).
  assert (∀ sk w2, store_ready (DW_Ext w2) → wp (info ← sys_get sys_GetInfo;
    outside (mgm_Register key (PublicKey (Srv_wgKey s)) sk "" (Some info))) (λ r w', ∀ x, r = Ok x →
      is_registered (Key_String (PublicKey key)) (World_Store (DW_Ext w'))) w2) as Hreg.
  { intros sk w2 Hr2. wp_step. apply wp_GetInfo. intros i2 x2 Hx2. simpl. apply wp_outside. simpl.
    destruct (store_ready_same _ _ Hx2 Hr2). eapply wp_mono; [by apply login_spec|].
    intros r w3 Hr3 y ->. destruct (Hr3 y eq_refl) as (id & p & wc & Hst & _). by exists id, p. }
  unfold client_registerPeer. destruct (uuid_Parse setupKey) as [sk [e'|]]; [|by apply Hreg].
  rewrite decide_True by done. by wp_step.
Qed.

(** C6: a login that succeeds has registered the machine: when the client's
    [Login] with a setup key returns without error, the peer with the public
    key of the configuration is in an account of the management service,
    whether it was before or its setup key has put it there; across dialling,
    the encrypted exchange, losses on the network, the server's handlers and
    its store. *)
Theorem successful_login_registers config setupKey w w' :
  ParseKey (Cfg_PrivateKey config) = inr key → store_ready (DW_Ext w) →
  internal_Login config setupKey "" w = (Ok tt, w') →
  is_registered (Key_String (PublicKey key)) (World_Store (DW_Ext w')).
Proof.
  intros Hkey Hready Hrun. enough (wp (internal_Login config setupKey "") (λ r w', r = Ok tt →
    is_registered (Key_String (PublicKey key)) (World_Store (DW_Ext w'))) w) as Hw by (by apply (wp_run _ _ _ _ _ Hrun Hw)).
  unfold internal_Login. wp_step. rewrite Hkey. wp_step. wp_step. wp_step; [|done]. wp_step. unfold opening. wp_step.
  apply wp_outside. apply wp_os_call; [intros n1|by intros ? ? ?]. simpl. do 4 wp_step. wp_step. wp_step.
  apply wp_outside. simpl. unfold GetServerPublicKey. wp_step. apply wp_ready. intros [] n2; simpl; [|by wp_step].
  wp_step. apply wp_over_network; [done|]. intros n3. unfold GetServerKey. wp_step. apply wp_time_Now. intros now n4. simpl. wp_step.
  split_and!; [done| |done|done]. intros resp n5 [= <-]. split; [|done]. simpl. unfold of_result. rewrite server_key. simpl.
  wp_step. wp_step. eapply wp_mono; [apply loginPeer_registers; by eapply store_ready_same; [|done]|].
  intros [resp|e|m|] w1 Hreg; simpl; try done. specialize (Hreg resp eq_refl).
  unfold closing_conn. wp_step. apply wp_outside. apply wp_os_call; [intros n6|by intros ? ? ?]. simpl. by wp_step.
Qed.
End joining.

(* ------------------------------------------------------------------ *)
(** ** A new machine joins with a setup key *)

(** A system that only counts, and texts that are what they are. *)
Definition world_sys : Sys World := {|
  sys_GetInfo w := (demo_info, set_Tick (S (World_Tick w)) w); sys_Now w := (0%Z, w);
  sys_File w := (None, w); wg_GeneratePrivateKey w := (inr [120]%Z, w) |}.
Definition plain_texts : Texts := {|
  url_ParseRequestURI s := inr (mkURL "https" s s); uuid_Parse s := (s, None) |}.
Definition new_machine : ClConfig := mkClConfig "x" "" (Some (mkURL "https" "shop" "https://shop")) None "wt0" [].
Definition joining_world : DWorld World :=
  mkDWorld ∅ (mkContextState None StIdle) demo_daemon_server ∅ ∅ ∅ ∅ 0 shop_world.
Abbreviation run_login :=
  (@internal_Login World world_sys
    (@mgm_of_server demo_runtime demo_crypto demo_jwt_lib demo_conn client_wires demo_server (λ _, mret []))
    plain_texts demo_crypto new_machine "k" "" joining_world).

Lemma successful_login_registers_witness :
  ¬ is_registered "x" (World_Store (DW_Ext joining_world)) ∧
  ∃ w', run_login = (Ok tt, w') ∧ is_registered "x" (World_Store (DW_Ext w')).
Proof.
  split.
  { intros (id & p & Hid & _). vm_compute in Hid. discriminate Hid. }
  pose (w' := run_login.2). assert (run_login = (Ok tt, w')) as Hrun by (vm_compute; reflexivity).
  clearbody w'. exists w'. split; [exact Hrun|].
  refine (@successful_login_registers demo_runtime demo_crypto demo_crypto_laws demo_jwt_lib demo_conn client_wires
    (form_wire_laws _ _) (form_wire_laws _ _) demo_server (λ _, mret []) [120]%Z demo_random_works eq_refl eq_refl _
    world_sys plain_texts _ new_machine "k" joining_world w' eq_refl _ Hrun).
  - intros t e Ht. discriminate Ht.
  - intros w. exact (same_state_tick _ w).
  - exact {| sr_keyed := shop_well_keyed; sr_networks := shop_networks_ok; sr_upd := shop_upd_wf; sr_peers := shop_peers_keyed |}.
Defined.
