(* ===== verification/Commands.v ===== *)
(** * Commands: the command line of the client (client/cmd)

    The commands [login], [up], [down] and [status] against the daemon, which
    is an interface here ([DaemonClient]: the service of daemon.proto over its
    connection), the environment variables of the flags, and the login of the
    foreground client, which does without a daemon.  Printing and logging are
    left out. *)

From S2P Require Import Prelude GoLib Model Network UpdateChannel FileStore Account Groups Peers Turn Encryption Jwt GrpcServer Util Signal SignalClient MgmClient ClientModel WgIface PeerConn Engine Http OAuth DaemonModel ClientConfig ClientLogin Daemon.

(* ------------------------------------------------------------------ *)
(** ** Flags *)

Record Flags := mkFlags {
  Fl_daemonAddr : string; Fl_managementURL : string; Fl_adminURL : string; Fl_configPath : string;
  Fl_logLevel : string; Fl_logFile : string; Fl_setupKey : string; Fl_preSharedKey : string }.

Definition dash_to_underscore (a : ascii) : ascii := if decide (a = "-"%char) then "_"%char else a.
Definition FlagNameToEnvVar (cmdFlag prefix : string) : string :=
  prefix +:+ ToUpper (string_map dash_to_underscore cmdFlag).

(** The value of a flag: the newer variable, the older one, what it was. *)
Definition flag_from_env (env : string → option string) (name value : string) : string :=
  default (default value (env (FlagNameToEnvVar name "WT_"))) (env (FlagNameToEnvVar name "NB_")).
Definition SetFlagsFromEnvVars (env : string → option string) (f : Flags) : Flags :=
  mkFlags (flag_from_env env "daemon-addr" (Fl_daemonAddr f)) (flag_from_env env "management-url" (Fl_managementURL f))
    (flag_from_env env "admin-url" (Fl_adminURL f)) (flag_from_env env "config" (Fl_configPath f))
    (flag_from_env env "log-level" (Fl_logLevel f)) (flag_from_env env "log-file" (Fl_logFile f))
    (flag_from_env env "setup-key" (Fl_setupKey f)) (flag_from_env env "preshared-key" (Fl_preSharedKey f)).

(* ------------------------------------------------------------------ *)
(** ** The daemon, from outside *)

Class DaemonClient (X : Type) := {
  dc_Dial : string → M X unit;
  dc_Login : DaemonLoginRequest → M X DaemonLoginResponse;
  dc_WaitSSOLogin : string → M X unit;
  dc_Up : M X unit;
  dc_Down : M X unit;
  dc_Status : M X string;
  dc_GetConfig : M X GetConfigResponse;
  open_Run : string → X → option error * X;   (** skratchdot/open-golang: the browser *)
  log_ParseLevel : string → option error
}.

(** The calls of a command, with their results. *)
Inductive cmd_event :=
  | EvStatus (r : error + string)
  | EvLogin (req : DaemonLoginRequest) (r : error + DaemonLoginResponse)
  | EvWait (userCode : string) (r : error + unit)
  | EvUp (r : error + unit)
  | EvDown (r : error + unit)
  | EvGetConfig (r : error + GetConfigResponse).

(** [loginResp] and [loginErr] are captured by the function that is retried;
    [CW_log] are the calls so far; then the outside. *)
Record CmdWorld (X : Type) := mkCmdWorld {
  CW_loginResp : option DaemonLoginResponse; CW_loginErr : option error; CW_log : list cmd_event; CW_out : X }.
Arguments mkCmdWorld {X} _ _ _ _.
Arguments CW_loginResp {X} _.
Arguments CW_loginErr {X} _.
Arguments CW_log {X} _.
Arguments CW_out {X} _.
Definition set_loginVars {X} (r : option DaemonLoginResponse) (e : option error) (w : CmdWorld X) : CmdWorld X :=
  mkCmdWorld r e (CW_log w) (CW_out w).

Section commands.
Context {X : Type} `{DaemonClient X} `{Backoff (CmdWorld X)}.
Abbreviation MC := (M (CmdWorld X)).

(** A call of the daemon. *)
Definition rpc {A} (ev : error + A → cmd_event) (m : M X A) : MC A := λ w,
  match m (CW_out w) with
  | (Ok a, x) => (Ok a, mkCmdWorld (CW_loginResp w) (CW_loginErr w) (CW_log w ++ [ev (inr a)]) x)
  | (Err e, x) => (Err e, mkCmdWorld (CW_loginResp w) (CW_loginErr w) (CW_log w ++ [ev (inl e)]) x)
  | (Panic s, x) => (Panic s, mkCmdWorld (CW_loginResp w) (CW_loginErr w) (CW_log w) x)
  | (Blocked, x) => (Blocked, mkCmdWorld (CW_loginResp w) (CW_loginErr w) (CW_log w) x)
  end.
Definition aside {A} (m : M X A) : MC A := λ w,
  let '(r, x) := m (CW_out w) in (r, mkCmdWorld (CW_loginResp w) (CW_loginErr w) (CW_log w) x).

(** [openURL]: the browser, whether it opens or not. *)
Definition openURL (url : string) : MC unit := aside (λ x, (Ok tt, (open_Run url x).2)).

Definition prefixed (prefix : string) (e : error) : error := Plain (prefix +:+ error_text e).

Definition InitLog (level : string) : MC unit :=
  match log_ParseLevel level with Some e => fail e | None => mret tt end.

Definition DialClientGRPCServer (addr : string) : MC unit :=
  map_err (prefixed "failed to connect to daemon error: ") (aside (dc_Dial addr)).

(** Not worth another try. *)
Definition final_code (e : error) : bool :=
  has_code InvalidArgument e || has_code PermissionDenied e || has_code NotFound e || has_code Unimplemented e.

Definition login_operation (req : DaemonLoginRequest) : MC unit :=
  r ← try (rpc (EvLogin req) (dc_Login req));
  match r with
  | inr resp => modify (λ w, set_loginVars (Some resp) (CW_loginErr w) w)
  | inl e =>
      _ ← modify (λ w, set_loginVars None (CW_loginErr w) w);
      if final_code e then modify (λ w, set_loginVars (CW_loginResp w) (Some e) w) else fail e
  end.

(** The part [login] and [up] share. *)
Definition daemon_login (req : DaemonLoginRequest) : MC unit :=
  _ ← modify (set_loginVars None None);
  _ ← map_err (prefixed "login backoff cycle failed: ") (backoff_Retry (login_operation req));
  loginErr ← gets CW_loginErr;
  match loginErr with
  | Some e => fail (prefixed "login failed: " e)
  | None =>
      o ← gets CW_loginResp;
      loginResp ← deref o;
      if DLA_NeedsSSOLogin loginResp then
        _ ← openURL (DLA_VerificationURIComplete loginResp);
        map_err (prefixed "waiting sso login failed with: ")
          (rpc (EvWait (DLA_UserCode loginResp)) (dc_WaitSSOLogin (DLA_UserCode loginResp)))
      else mret tt
  end.

(** The request of the commands: the admin URL is not sent. *)
Definition login_request (f : Flags) : DaemonLoginRequest :=
  mkDaemonLogin (Fl_setupKey f) (Fl_preSharedKey f) (Fl_managementURL f) "".

Definition loginCmd (f : Flags) : MC unit :=
  _ ← map_err (prefixed "failed initializing log ") (InitLog (Fl_logLevel f));
  _ ← DialClientGRPCServer (Fl_daemonAddr f);
  daemon_login (login_request f).

Definition upCmd (f : Flags) : MC unit :=
  _ ← map_err (prefixed "failed initializing log ") (InitLog (Fl_logLevel f));
  _ ← DialClientGRPCServer (Fl_daemonAddr f);
  status ← map_err (prefixed "unable to get daemon status: ") (rpc EvStatus dc_Status);
  if decide (status = StatusType_String StConnected) then mret tt
  else
    _ ← daemon_login (login_request f);
    map_err (prefixed "call service up method: ") (rpc EvUp dc_Up).

Definition downCmd (f : Flags) : MC unit :=
  _ ← InitLog (Fl_logLevel f);
  _ ← aside (dc_Dial (Fl_daemonAddr f));
  rpc EvDown dc_Down.

(** The status printed, and whether the hint how to log in is. *)
Definition statusCmd (f : Flags) : MC (string * bool) :=
  _ ← map_err (prefixed "failed initializing log ") (InitLog (Fl_logLevel f));
  _ ← DialClientGRPCServer (Fl_daemonAddr f);
  resp ← map_err (prefixed "status failed: ") (rpc EvStatus dc_Status);
  mret (resp, bool_decide (resp = StatusType_String StNeedsLogin ∨ resp = StatusType_String StLoginFailed)).
End commands.

(* ------------------------------------------------------------------ *)
(** ** Without a daemon *)

Section foreground.
Context {X : Type} `{Sys X} `{MgmAPI X} `{HttpLib X} `{Texts} `{Crypto} `{Backoff (bool * DWorld X)}.
Abbreviation MF := (M (bool * DWorld X)).

(** The world of the client, besides the captured [needsLogin]. *)
Definition on_world {A} (m : M (DWorld X) A) : MF A := λ bw,
  let '(r, w) := m bw.2 in (r, (bw.1, w)).
Definition refused_login (e : error) : bool := has_code InvalidArgument e || has_code PermissionDenied e.

Definition first_login (config : ClConfig) : MF unit :=
  r ← try (on_world (internal_Login config "" ""));
  match r with
  | inr _ => mret tt
  | inl e => if refused_login e then modify (λ bw, (true, bw.2)) else fail e
  end.
(** A refusal is not an error here either. *)
Definition second_login (config : ClConfig) (setupKey jwtToken : string) : MF unit :=
  r ← try (on_world (internal_Login config setupKey jwtToken));
  match r with
  | inr _ => mret tt
  | inl e => if refused_login e then mret tt else fail e
  end.

(** What the user does and the clock while it waits are [events]. *)
Definition foregroundGetTokenInfo (managementURL : string) (config : ClConfig) (events : list wait_event) : MF TokenInfo :=
  r ← try (on_world (GetDeviceAuthorizationFlowInfo config));
  match r with
  | inl err =>
      if has_code NotFound err then
        fail (Plain "no SSO provider returned from management. If you are using hosting Netbird see documentation at https://github.com/netbirdio/netbird/tree/main/management for details")
      else if has_code Unimplemented err then
        let mgmtURL := if decide (managementURL = "") then URL_Text managementURLDefault else managementURL in
        fail (Plain ("the management server, " +:+ mgmtURL +:+ ", does not support SSO providers, please update your servver or use Setup Keys to login"))
      else fail (prefixed "getting device authorization flow info failed with error: " err)
  | inr (_, p) =>
      let hostedClient := mkHosted (Provider_Audience p) (Provider_ClientID p) (Provider_Domain p) in
      flowInfo ← map_err (prefixed "getting a request device code failed: ")
                   (on_world (outside (RequestDeviceCode hostedClient)));
      map_err (prefixed "waiting for browser login failed: ")
        (on_world (outside (WaitToken hostedClient flowInfo events)))
  end.

Definition foregroundLogin (managementURL : string) (config : ClConfig) (setupKey : string) (events : list wait_event) : MF unit :=
  _ ← modify (λ bw, (false, bw.2));
  _ ← map_err (prefixed "backoff cycle failed: ") (backoff_Retry (first_login config));
  needsLogin ← gets fst;
  jwtToken ← (if bool_decide (setupKey = "") && needsLogin then
                tokenInfo ← map_err (prefixed "interactive sso login failed: ")
                              (foregroundGetTokenInfo managementURL config events);
                mret (TI_AccessToken tokenInfo)
              else mret "");
  map_err (prefixed "backoff cycle failed: ") (backoff_Retry (second_login config setupKey jwtToken)).

(** [login] and [up] with [--log-file console], after [handleRebrand] (see
    [Files]). *)
Definition console_login (f : Flags) (events : list wait_event) : MF ClConfig :=
  config ← map_err (prefixed "get config file: ")
    (on_world (GetConfig (Fl_managementURL f) (Fl_adminURL f) (Fl_configPath f) (Fl_preSharedKey f)));
  _ ← map_err (prefixed "foreground login failed: ") (foregroundLogin (Fl_managementURL f) config (Fl_setupKey f) events);
  mret config.

(** [up] goes on as the client itself, in a context of its own, which the
    close handler cancels (see [Stopping]). *)
Definition console_up (f : Flags) (events : list wait_event) : MF unit :=
  config ← console_login f events;
  ctx ← on_world (WithCancel None);
  on_world (spawn_run ctx config false).
End foreground.

(* ------------------------------------------------------------------ *)
(** ** Properties *)

(** [up] without a daemon starts one client, with the configuration it logged
    in with, in a context nobody has cancelled. *)
Lemma console_up_starts {X} `{Sys X} `{MgmAPI X} `{HttpLib X} `{Texts} `{Crypto} `{Backoff (bool * DWorld X)} f events bw bw' :
  console_up f events bw = (Ok tt, bw') →
  ∃ config bw1 ctx, console_login f events bw = (Ok config, bw1) ∧
    DW_Runs bw'.2 = <[S ctx := mkRun ctx config false RunReady]> (DW_Runs bw1.2) ∧ ctx_done (DW_Ctxs bw'.2) ctx = false.
Proof.
  unfold console_up. intros (config & bw1 & Hl & (ctx & bw2 & Hc & Hs)%bind_ok_inv)%bind_ok_inv.
  unfold on_world, WithCancel in Hc. simpl in Hc. injection Hc as <- <-. unfold on_world, spawn_run in Hs. simpl in Hs. injection Hs as <-.
  exists config, bw1, (DW_Next bw1.2). split; [done|]. simpl. split; [done|]. unfold ctx_done, flagged. simpl.
  by rewrite lookup_insert_eq.
Qed.

Section retrying.
Context {W : Type} `{BackoffLaws W}.

(** An operation that succeeds is not run again. *)
Lemma Retry_succeeds (op : M W unit) w w' : op w = (Ok tt, w') → backoff_Retry op w = (Ok tt, w').
Proof.
  intros Hop. destruct (backoff_Retry op w) as [r w1] eqn:Hr. apply Retry_retries in Hr.
  inversion Hr; congruence.
Qed.

Lemma Retry_ok_inv (op : M W unit) (I : W → W → Prop) w w' :
  (∀ w e w1, op w = (Err e, w1) → I w w1) → (∀ w1 w2 w3, I w1 w2 → I w2 w3 → I w1 w3) →
  backoff_Retry op w = (Ok tt, w') → ∃ w1, (w1 = w ∨ I w w1) ∧ op w1 = (Ok tt, w').
Proof.
  intros Herr Htrans Hr. apply Retry_retries in Hr. remember (Ok tt) as r eqn:E. revert E.
  induction Hr as [w r w' Hop|w e w1 r w2 Hop Hr IH]; intros ->; [exists w; auto|].
  destruct (IH eq_refl) as (w3 & Hw3 & Hop3). exists w3. split; [|done]. right.
  apply Herr in Hop. destruct Hw3 as [->|Hw3]; [done|by eapply Htrans].
Qed.
End retrying.

Section order.
Context {X : Type} `{DaemonClient X} `{BackoffLaws (CmdWorld X)}.
Implicit Types w : CmdWorld X.

(** Logins that failed for the time being. *)
Definition transient (req : DaemonLoginRequest) (ev : cmd_event) : Prop :=
  ∃ e, ev = EvLogin req (inl e) ∧ final_code e = false.
Definition failed_logins (req : DaemonLoginRequest) w w' : Prop :=
  ∃ l, CW_log w' = CW_log w ++ l ∧ Forall (transient req) l ∧ CW_loginErr w' = CW_loginErr w.

Lemma login_operation_failed req w e w' : login_operation req w = (Err e, w') → failed_logins req w w'.
Proof.
  unfold login_operation, try, rpc, mbind, M_bind, modify. destruct (dc_Login req (CW_out w)) as [[resp|err|s|] x]; simpl; try done.
  destruct (final_code err) eqn:Hf; simpl; [done|]. intros [= <- <-].
  exists [EvLogin req (inl err)]. split; [done|]. split; [|done]. apply Forall_singleton. by exists err.
Qed.

Lemma login_operation_done req w w' :
  login_operation req w = (Ok tt, w') → CW_loginErr w' = None →
  ∃ resp, CW_loginResp w' = Some resp ∧ CW_log w' = CW_log w ++ [EvLogin req (inr resp)].
Proof.
  unfold login_operation, try, rpc, mbind, M_bind, modify. destruct (dc_Login req (CW_out w)) as [[resp|err|s|] x]; simpl; try done.
  - intros [= <-] _. by exists resp.
  - destruct (final_code err); simpl; [|done]. by intros [= <-].
Qed.

(** The calls of a login that succeeds: the attempts, the last of which
    succeeds, and the wait for the user when one is asked for. *)
Definition login_calls (req : DaemonLoginRequest) (l : list cmd_event) : Prop :=
  ∃ fails resp, Forall (transient req) fails ∧
    l = fails ++ EvLogin req (inr resp) ::
        (if DLA_NeedsSSOLogin resp then [EvWait (DLA_UserCode resp) (inr tt)] else []).

Lemma daemon_login_ok req w w' :
  daemon_login req w = (Ok tt, w') → ∃ l, CW_log w' = CW_log w ++ l ∧ login_calls req l.
Proof.
  unfold daemon_login. intros Hrun. apply bind_ok_inv in Hrun as ([] & w1 & [= <-] & Hrun).
  apply bind_ok_inv in Hrun as ([] & w2 & Hretry & Hrun).
  unfold map_err in Hretry. destruct (backoff_Retry _ _) as [[[]|e|s|] w2'] eqn:Hb in Hretry; simplify_eq.
  apply (Retry_ok_inv _ (failed_logins req)) in Hb as (w3 & Hw3 & Hop).
  2:{ intros *. apply login_operation_failed. }
  2:{ intros wa wb wc (l1 & E1 & F1 & G1) (l2 & E2 & F2 & G2). exists (l1 ++ l2).
      split; [by rewrite E2, E1, app_assoc|]. split; [by apply Forall_app|congruence]. }
  assert (∃ fails, CW_log w3 = CW_log w ++ fails ∧ Forall (transient req) fails) as (fails & Hl3 & Hfails).
  { destruct Hw3 as [->|(l & El & Fl & _)]; [exists []; by rewrite app_nil_r|by exists l]. }
  apply bind_ok_inv in Hrun as (le & w4 & [= <- <-] & Hrun). destruct (CW_loginErr w2) eqn:He; [done|].
  apply bind_ok_inv in Hrun as (o & w5 & [= <- <-] & Hrun).
  destruct (login_operation_done req w3 w2 Hop He) as (resp & Hresp & Hlog). rewrite Hresp in Hrun.
  apply bind_ok_inv in Hrun as (resp' & w6 & [= <- <-] & Hrun).
  exists (fails ++ EvLogin req (inr resp) :: (if DLA_NeedsSSOLogin resp then [EvWait (DLA_UserCode resp) (inr tt)] else [])).
  split; [|by exists fails, resp]. destruct (DLA_NeedsSSOLogin resp).
  - apply bind_ok_inv in Hrun as ([] & w7 & Hopen & Hrun). unfold openURL, aside in Hopen. simplify_eq.
    unfold map_err, rpc in Hrun. simpl in Hrun.
    destruct (dc_WaitSSOLogin _ _) as [[[]|e|s|] x]; simplify_eq. simpl. rewrite Hlog, Hl3. by rewrite <-!app_assoc.
  - injection Hrun as <-. rewrite Hlog, Hl3. by rewrite <-app_assoc.
Qed.

(** Computations that only add calls of one kind to the log, however they
    end. *)
Definition calls_only (P : cmd_event → Prop) {A} (m : M (CmdWorld X) A) : Prop :=
  ∀ w, ∃ l, CW_log (m w).2 = CW_log w ++ l ∧ Forall P l.

Section calls_only.
Context (P : cmd_event → Prop).

Lemma calls_bind {A B} (m : M (CmdWorld X) A) (k : A → M (CmdWorld X) B) :
  calls_only P m → (∀ a, calls_only P (k a)) → calls_only P (m ≫= k).
Proof.
  intros Hm Hk w. unfold mbind, M_bind. destruct (Hm w) as (l1 & E1 & F1).
  destruct (m w) as [[a|e|s|] w1]; simpl in *; [|by exists l1..].
  destruct (Hk a w1) as (l2 & E2 & F2). exists (l1 ++ l2). split; [by rewrite E2, E1, app_assoc|by apply Forall_app].
Qed.
Lemma calls_same {A} (m : M (CmdWorld X) A) : (∀ w, CW_log (m w).2 = CW_log w) → calls_only P m.
Proof. intros Hm w. exists []. by rewrite Hm, app_nil_r. Qed.
Lemma calls_rpc {A} ev (m : M X A) : (∀ r, P (ev r)) → calls_only P (rpc ev m).
Proof.
  intros Hev w. unfold rpc. destruct (m (CW_out w)) as [[a|e|s|] x]; simpl; [exists [ev (inr a)]|exists [ev (inl e)]|exists []..];
    rewrite ?app_nil_r; repeat constructor; apply Hev.
Qed.
Lemma calls_aside {A} (m : M X A) : calls_only P (aside m).
Proof. apply calls_same. intros w. unfold aside. by destruct (m (CW_out w)). Qed.
Lemma calls_map_err {A} f (m : M (CmdWorld X) A) : calls_only P m → calls_only P (map_err f m).
Proof. intros Hm w. specialize (Hm w). unfold map_err. by destruct (m w) as [[a|e|s|] w1]. Qed.
Lemma calls_try {A} (m : M (CmdWorld X) A) : calls_only P m → calls_only P (try m).
Proof. intros Hm w. specialize (Hm w). unfold try. by destruct (m w) as [[a|e|s|] w1]. Qed.
Lemma calls_retry op : calls_only P op → calls_only P (backoff_Retry op).
Proof.
  intros Hop w. destruct (backoff_Retry op w) as [r w'] eqn:Hr. apply Retry_retries in Hr. simpl.
  induction Hr as [w r w' Hr|w e w1 r w2 Hr _ (l2 & E2 & F2)]; destruct (Hop w) as (l1 & E1 & F1); rewrite Hr in E1; [by exists l1|].
  exists (l1 ++ l2). simpl in E1. split; [by rewrite E2, E1, app_assoc|by apply Forall_app].
Qed.
End calls_only.

(** A login never calls Up. *)
Definition not_up (ev : cmd_event) : Prop := ∀ r, ev ≠ EvUp r.
Lemma not_up_in l : Forall not_up l → ∀ res, EvUp res ∉ l.
Proof. intros Hl res Hin. rewrite Forall_forall in Hl. by apply (Hl _ Hin res). Qed.
Lemma daemon_login_not_up req : calls_only not_up (daemon_login req).
Proof.
  unfold daemon_login, login_operation. apply calls_bind; [by apply calls_same|]. intros _. apply calls_bind.
  { apply calls_map_err, calls_retry, calls_bind; [by apply calls_try, calls_rpc|]. intros [e|resp]; [|by apply calls_same].
    apply calls_bind; [by apply calls_same|]. intros _. destruct (final_code e); by apply calls_same. }
  intros _. apply calls_bind; [by apply calls_same|]. intros [e|]; [by apply calls_same|].
  apply calls_bind; [by apply calls_same|]. intros o. apply calls_bind; [destruct o; by apply calls_same|]. intros resp.
  destruct (DLA_NeedsSSOLogin resp); [|by apply calls_same]. apply calls_bind; [apply calls_aside|].
  intros _. by apply calls_map_err, calls_rpc.
Qed.

(** What [up] calls before the login. *)
Definition up_begin (f : Flags) : M (CmdWorld X) string :=
  _ ← map_err (prefixed "failed initializing log ") (InitLog (Fl_logLevel f));
  _ ← DialClientGRPCServer (Fl_daemonAddr f);
  map_err (prefixed "unable to get daemon status: ") (rpc EvStatus dc_Status).
Lemma upCmd_begins f w :
  upCmd f w = (status ← up_begin f;
    if decide (status = StatusType_String StConnected) then mret tt
    else _ ← daemon_login (login_request f); map_err (prefixed "call service up method: ") (rpc EvUp dc_Up)) w.
Proof.
  unfold upCmd, up_begin, mbind, M_bind. destruct (map_err _ (InitLog _) w) as [[[]|e|s|] w1]; try done.
  by destruct (DialClientGRPCServer _ w1) as [[[]|e|s|] w2].
Qed.

Lemma up_begin_calls f w :
  match up_begin f w with
  | (Ok status, w') => CW_log w' = CW_log w ++ [EvStatus (inr status)]
  | (_, w') => ∃ l, CW_log w' = CW_log w ++ l ∧ Forall not_up l
  end.
Proof.
  assert (calls_only not_up (up_begin f)) as Hc.
  { unfold up_begin, InitLog, DialClientGRPCServer. apply calls_bind; [apply calls_map_err; destruct (log_ParseLevel _); by apply calls_same|].
    intros _. apply calls_bind; [apply calls_map_err, calls_aside|]. intros _. by apply calls_map_err, calls_rpc. }
  specialize (Hc w). destruct (up_begin f w) as [[status|e|s|] w'] eqn:Hrun; [|exact Hc..]. clear Hc.
  unfold up_begin, InitLog, DialClientGRPCServer, map_err, aside, rpc in Hrun.
  apply bind_ok_inv in Hrun as ([] & w1 & Hi & Hrun). assert (w1 = w) as -> by (destruct (log_ParseLevel _); by simplify_eq/=).
  apply bind_ok_inv in Hrun as ([] & w2 & Hd & Hrun).
  assert (CW_log w2 = CW_log w) as <- by (destruct (dc_Dial _ _) as [[[]|e|s|] x]; by simplify_eq/=).
  by destruct (dc_Status _) as [[st|e|s|] x]; simplify_eq/=.
Qed.

(** C21: [up] never calls Up of the daemon before it has logged in, however the
    command ends: either it does not call Up at all, and then it succeeds only
    if the daemon was connected already; or its calls are the status, which is
    not connected, some attempts to log in that may be repeated, one that
    succeeds, the wait for the user exactly if the daemon asks for one, with
    success, and then, last, one Up, whose answer decides. *)
Theorem up_logs_in_first f w r w' :
  upCmd f w = (r, w') → ∃ l, CW_log w' = CW_log w ++ l ∧
    ((∀ res, EvUp res ∉ l) ∧ (r = Ok tt → l = [EvStatus (inr (StatusType_String StConnected))]) ∨
     ∃ status lg res, status ≠ StatusType_String StConnected ∧ login_calls (login_request f) lg ∧
       l = EvStatus (inr status) :: lg ++ [EvUp res] ∧
       r = match res with inr _ => Ok tt | inl e => Err (prefixed "call service up method: " e) end).
Proof.
  rewrite upCmd_begins. unfold mbind, M_bind. pose proof (up_begin_calls f w) as Hb.
  destruct (up_begin f w) as [[status|e|s|] w1].
  2-4: intros [= <- <-]; destruct Hb as (l & El & Hl); exists l; (split; [done|]); left;
    (split; [by apply not_up_in|done]).
  case_decide as Hc.
  { intros [= <- <-]. eexists. split; [exact Hb|]. left. split; [|by rewrite Hc]. intros res Hin. set_solver. }
  pose proof (daemon_login_not_up (login_request f) w1) as (l & El & Hl).
  destruct (daemon_login (login_request f) w1) as [[[]|e|s|] w2] eqn:Hlog; simpl in El.
  2-4: intros [= <- <-]; exists (EvStatus (inr status) :: l); (split; [by rewrite El, Hb, <-app_assoc|]); left;
    (split; [|done]); intros res [?|?]%elem_of_cons; [done|by eapply not_up_in].
  apply daemon_login_ok in Hlog as (lg & El2 & Hcalls). rewrite El2 in El. apply app_inv_head in El as ->.
  unfold map_err, rpc. destruct (dc_Up (CW_out w2)) as [[[]|e|s|] x]; intros [= <- <-]; simpl; rewrite El2, Hb, <-!app_assoc.
  1,2: eexists; (split; [reflexivity|]); right; eexists status, l, _; (split; [done|]); split; [done|]; split; reflexivity.
  1,2: eexists; (split; [reflexivity|]); left; (split; [|done]); intros res [?|?]%elem_of_cons; [done|by eapply not_up_in].
Qed.
End order.

Section hidden.
Context {X : Type} `{Sys X} `{MgmAPI X} `{HttpLib X} `{Texts} `{Crypto} `{BackoffLaws (bool * DWorld X)}.

(** The foreground login reports success when the management service refuses
    the setup key. *)
Theorem refused_setup_key_hidden managementURL config setupKey events b w e1 w1 e2 w2 :
  setupKey ≠ "" →
  internal_Login config "" "" w = (Err e1, w1) → refused_login e1 = true →
  internal_Login config setupKey "" w1 = (Err e2, w2) → refused_login e2 = true →
  foregroundLogin managementURL config setupKey events (b, w) = (Ok tt, (true, w2)).
Proof.
  intros Hk HL1 HR1 HL2 HR2. unfold foregroundLogin. erewrite bind_run by done. simpl.
  assert (first_login config (false, w) = (Ok tt, (true, w1))) as Hf.
  { unfold first_login, try, on_world, mbind, M_bind. simpl. rewrite HL1. simpl. by rewrite HR1. }
  assert (second_login config setupKey "" (true, w1) = (Ok tt, (true, w2))) as Hs.
  { unfold second_login, try, on_world, mbind, M_bind. simpl. rewrite HL2. simpl. by rewrite HR2. }
  erewrite bind_run by (unfold map_err; by rewrite (Retry_succeeds _ _ _ Hf)).
  erewrite bind_run by done. rewrite bool_decide_eq_false_2 by done. simpl. erewrite bind_run by done.
  unfold map_err. by rewrite (Retry_succeeds _ _ _ Hs).
Qed.
End hidden.

(** The environment decides over the command line, the newer variable over
    the older one, and a variable reaches the flag it is named after. *)
Theorem env_decides env f :
  (∀ v, env "NB_SETUP_KEY" = Some v → Fl_setupKey (SetFlagsFromEnvVars env f) = v) ∧
  (∀ v, env "NB_SETUP_KEY" = None → env "WT_SETUP_KEY" = Some v → Fl_setupKey (SetFlagsFromEnvVars env f) = v) ∧
  (env "NB_SETUP_KEY" = None → env "WT_SETUP_KEY" = None → Fl_setupKey (SetFlagsFromEnvVars env f) = Fl_setupKey f).
Proof.
  assert (FlagNameToEnvVar "setup-key" "NB_" = "NB_SETUP_KEY") as En by reflexivity.
  assert (FlagNameToEnvVar "setup-key" "WT_" = "WT_SETUP_KEY") as Ew by reflexivity.
  unfold SetFlagsFromEnvVars, flag_from_env. cbn [Fl_setupKey]. rewrite En, Ew. split_and!.
  - by intros v ->.
  - by intros v -> ->.
  - by intros -> ->.
Qed.

(* ------------------------------------------------------------------ *)
(** ** A concrete daemon *)

(** A policy that gives up at once, and one that tries once more. *)
Definition once {W} : Backoff W := {| backoff_Retry op := op |}.
Definition twice {W} : Backoff W := {|
  backoff_Retry op := λ w, match op w with (Err _, w') => op w' | r => r end |}.
#[export] Instance once_laws {W} : @BackoffLaws W once.
Proof. split. intros op w r w' Hr. by apply retries_last. Defined.
#[export] Instance twice_laws {W} : @BackoffLaws W twice.
Proof.
  split. intros op w r w'. simpl. destruct (op w) as [[[]|e|s|] w1] eqn:E; intros Hr.
  1,3,4: apply retries_last; congruence. eapply retries_again; [exact E|]. by apply retries_last.
Defined.

(** The daemon of the demonstration: [X] counts the calls; the first login is
    not answered, the next asks for the user. *)
Definition demo_answer : DaemonLoginResponse := mkDaemonAnswer true "code" "https://idp" "https://idp/code".
Definition demo_client : DaemonClient nat := {|
  dc_Dial _ n := (Ok tt, S n);
  dc_Login _ n := (if decide (n ≤ 2) then Err (Status Internal "unavailable") else Ok demo_answer, S n);
  dc_WaitSSOLogin _ n := (Ok tt, S n);
  dc_Up n := (Ok tt, S n);
  dc_Down n := (Ok tt, S n);
  dc_Status n := (Ok "Idle", S n);
  dc_GetConfig n := (Ok (mkConfigAnswer "https://api" "config.json" "log" masked "https://admin"), S n);
  open_Run _ n := (None, S n);
  log_ParseLevel _ := None |}.
Definition demo_flags : Flags := mkFlags "unix:///s" "" "https://app" "config.json" "info" "log" "" "".
Definition demo_up : CmdWorld nat → Res unit * CmdWorld nat := @upCmd nat demo_client twice demo_flags.

Lemma up_logs_in_first_witness :
  ∃ w', demo_up (mkCmdWorld None None [] 0) = (Ok tt, w') ∧
    CW_log w' = [EvStatus (inr "Idle"); EvLogin (login_request demo_flags) (inl (Status Internal "unavailable"));
                 EvLogin (login_request demo_flags) (inr demo_answer); EvWait "code" (inr tt); EvUp (inr tt)] ∧
    ∃ status l, login_calls (login_request demo_flags) l ∧ CW_log w' = EvStatus (inr status) :: l ++ [EvUp (inr tt)].
Proof.
  pose (w' := (demo_up (mkCmdWorld None None [] 0)).2).
  assert (demo_up (mkCmdWorld None None [] 0) = (Ok tt, w')) as Hrun by (vm_compute; reflexivity).
  exists w'. split; [exact Hrun|]. split; [vm_compute; reflexivity|].
  destruct (@up_logs_in_first nat demo_client twice twice_laws demo_flags _ (Ok tt) w' Hrun)
    as (l & El & [[_ Hc]|(status & lg & [e|[]] & _ & Hl & -> & He)]).
  - exfalso. rewrite (Hc eq_refl) in El. vm_compute in El. discriminate.
  - discriminate He.
  - exists status, lg. split; [exact Hl|exact El].
Defined.

Lemma refused_setup_key_hidden_witness :
  ∃ w2, @foregroundLogin nat demo_sys (demo_mgm false) demo_http demo_texts demo_crypto once "" demo_cl_config "not-a-key" []
    (false, demo_daemon ∅) = (Ok tt, (true, w2)).
Proof.
  pose (w1 := (@internal_Login nat demo_sys (demo_mgm false) demo_texts demo_crypto demo_cl_config "" "" (demo_daemon ∅)).2).
  pose (w2 := (@internal_Login nat demo_sys (demo_mgm false) demo_texts demo_crypto demo_cl_config "not-a-key" "" w1).2).
  exists w2.
  eapply (@refused_setup_key_hidden nat demo_sys (demo_mgm false) demo_http demo_texts demo_crypto once once_laws "" demo_cl_config
    "not-a-key" [] false (demo_daemon ∅) _ w1 _ w2).
  - discriminate.
  - vm_compute. reflexivity.
  - reflexivity.
  - vm_compute. reflexivity.
  - reflexivity.
Defined.
