(* ===== verification/CliDaemon.v ===== *)
(** * CliDaemon: the commands against the daemon

    The interface [DaemonClient] of the commands, implemented by the calls of
    [Daemon] over gRPC.  Between two calls the daemon takes any steps of its
    own ([idle_steps]): goroutines, and the calls of others. *)

From S2P Require Import Prelude GoLib Model Network UpdateChannel FileStore Account Groups Peers Turn Encryption Jwt GrpcServer Util Signal SignalClient MgmClient ClientModel WgIface PeerConn Engine Http OAuth DaemonModel ClientConfig ClientLogin Daemon DaemonInv Commands.

(** What an error of a handler is on the other side: one without a code gets
    the code Unknown. *)
Definition rpc_error (e : error) : error :=
  match e with Plain msg => Status Unknown msg | Status _ _ => e end.

Section daemon.
Context {X : Type} `{Sys X} `{MgmAPI X} `{HttpLib X} `{Texts} `{Crypto} `{Runtime} `{WgCtrl} `{Net} `{DurationText}.
Abbreviation MD := (M (DWorld X)).

(** The steps of the daemon before it serves the next call. *)
Context (idle_steps : DWorld X → DWorld X).
Definition served {A} (m : MD A) : MD A := λ w, map_err rpc_error m (idle_steps w).

(** What the daemon does while call [j] of WaitSSOLogin waits: any steps that
    leave it waiting; they may have cancelled its context. *)
Definition meanwhile (j : nat) (w : DWorld X) : DWorld X :=
  match DW_Waits (idle_steps w) !! j with Some _ => idle_steps w | None => w end.

(** A call of WaitSSOLogin that waits: it ticks until it has an answer, at most
    [ticks] times before the deadline, and the daemon goes on meanwhile. *)
Fixpoint wait_until (ticks j : nat) : MD unit :=
  _ ← modify (meanwhile j);
  ws ← gets DW_Waits;
  match ws !! j with
  | None => mret tt
  | Some wt =>
      match ticks with
      | 0 => wait_end j wt (inl ctx_DeadlineExceeded)
      | S ticks' => _ ← wait_tick j wt; wait_until ticks' j
      end
  end.
Definition WaitSSOLogin (ticks : nat) (userCode : string) : MD unit :=
  j ← WaitSSOLogin_begin userCode; wait_until ticks j.

Definition daemon_client (ticks : nat) (browser : string → option error) (level : string → option error) : DaemonClient (DWorld X) := {|
  dc_Dial _ := mret tt;
  dc_Login msg := served (Daemon_Login msg);
  dc_WaitSSOLogin userCode := served (WaitSSOLogin ticks userCode);
  dc_Up := served Up;
  dc_Down := served Down;
  dc_Status := served Daemon_Status;
  dc_GetConfig := served Daemon_GetConfig;
  open_Run url w := (browser url, w);
  log_ParseLevel := level |}.
End daemon.

(* ------------------------------------------------------------------ *)
(** ** The commands are steps of the daemon *)

(** A result or an error. *)
Definition returns {A} (r : Res A) : Prop := match r with Ok _ | Err _ => True | _ => False end.
(** [R] is kept by a call that returns. *)
Definition on_return {W A} (R : W → Prop) (m : M W A) : Prop := ∀ w r w', m w = (r, w') → returns r → R w → R w'.

Section on_return.
Context {W : Type} (R : W → Prop).

Lemma ret_bind {A B} (m : M W A) (k : A → M W B) :
  on_return R m → (∀ a, on_return R (k a)) → on_return R (m ≫= k).
Proof.
  intros Hm Hk w r w'. unfold mbind, M_bind. destruct (m w) as [[a|e|s|] w1] eqn:E; [|intros [= <- <-]..]; try done.
  - intros Hr Hok HR. eapply Hk; [done..|]. by eapply Hm.
  - intros _ HR. by eapply Hm.
Qed.
Lemma ret_ret {A} (a : A) : on_return R (mret a).
Proof. by intros w r w' [= <- <-]. Qed.
Lemma ret_fail {A} e : on_return R (fail (A := A) e).
Proof. by intros w r w' [= <- <-]. Qed.
Lemma ret_deref {A} (o : option A) : on_return R (deref o).
Proof. destruct o; by intros w r w' [= <- <-]. Qed.
Lemma ret_gets {A} (f : W → A) : on_return R (gets f).
Proof. by intros w r w' [= <- <-]. Qed.
Lemma ret_map_err {A} f (m : M W A) : on_return R m → on_return R (map_err f m).
Proof.
  intros Hm w r w'. unfold map_err. destruct (m w) as [[a|e|s|] w1] eqn:E; intros [= <- <-] Hok HR; try done; by eapply Hm.
Qed.
Lemma ret_try {A} (m : M W A) : on_return R m → on_return R (try m).
Proof.
  intros Hm w r w'. unfold try. destruct (m w) as [[a|e|s|] w1] eqn:E; intros [= <- <-] Hok HR; try done; by eapply Hm.
Qed.
Lemma ret_retry `{BackoffLaws W} op : on_return R op → on_return R (backoff_Retry op).
Proof.
  intros Hop w r w' Hr Hok HR. apply Retry_retries in Hr.
  induction Hr as [w r w' E|w e w1 r w2 E Hr IH]; [by eapply Hop|]. apply IH; [done|]. by eapply Hop.
Qed.
End on_return.

Section steps.
Context {X : Type} `{Sys X} `{MgmAPI X} `{HttpLib X} `{Texts} `{Crypto} `{Runtime} `{WgCtrl} `{Net} `{DurationText}.
Context (idle_steps : DWorld X → DWorld X) (Hidle : ∀ w, d_reachable w (idle_steps w)).
Context (w0 : DWorld X).
Abbreviation reached := (d_reachable w0).

Lemma ret_op l (m : M (DWorld X) unit) : (∀ w, d_op l w = Some m) → on_return reached m.
Proof. intros Hop w r w' Hm Hok Hw. eapply d_reach_step; [exact Hw| |exact Hok]. by econstructor. Qed.
(** A call whose answer the label forgets. *)
Lemma ret_answer {A} l (m : M (DWorld X) A) : (∀ w, d_op l w = Some (_ ← m; mret tt)) → on_return reached m.
Proof.
  intros Hop w r w' Hm Hok Hw. pose (r' := match r with Ok _ => Ok tt | Err e => Err e | Panic s => Panic s | Blocked => Blocked end).
  eapply (d_reach_step _ w l r' w'); [exact Hw| |by destruct r].
  econstructor; [apply Hop|]. unfold mbind, M_bind. rewrite Hm. by destruct r.
Qed.
Lemma ret_Login msg : on_return reached (Daemon_Login msg).
Proof. by apply (ret_answer (DLogin msg)). Qed.
Lemma ret_Up : on_return reached Up.
Proof. by apply (ret_op DUp). Qed.
Lemma ret_Down : on_return reached Down.
Proof. by apply (ret_op DDown). Qed.
Lemma ret_Status : on_return reached Daemon_Status.
Proof.
  intros w r w' Hm _ Hw. enough (w' = w) as -> by done. revert Hm. unfold Daemon_Status, state_Status, gets, mbind, M_bind.
  simpl. destruct (CS_err (DW_State w)); by intros [= _ <-].
Qed.
Lemma ret_GetConfig : on_return reached Daemon_GetConfig.
Proof.
  intros w r w' Hm _ Hw. enough (w' = w) as -> by done. revert Hm. unfold Daemon_GetConfig, server, gets, mbind, M_bind.
  simpl. destruct (DS_config (DW_Server w)); by intros [= _ <-].
Qed.

Lemma d_reach_trans (w1 w2 w3 : DWorld X) : d_reachable w1 w2 → d_reachable w2 w3 → d_reachable w1 w3.
Proof. intros H12. induction 1; [done|]. by eapply d_reach_step. Qed.

Lemma ret_meanwhile j : on_return reached (modify (meanwhile idle_steps j)).
Proof.
  intros w r w' [= <- <-] _ Hw. unfold meanwhile. destruct (DW_Waits (idle_steps w) !! j); [|done]. by eapply d_reach_trans.
Qed.

Lemma ret_wait_until ticks j : on_return reached (wait_until idle_steps ticks j).
Proof.
  induction ticks as [|ticks IH]; simpl; (apply ret_bind; [apply ret_meanwhile|]); intros _;
    intros w r w' Hm Hok Hw; unfold gets, mbind, M_bind in Hm; simpl in Hm;
    destruct (DW_Waits w !! j) as [wt|] eqn:Hj; [|by injection Hm as <- <-| |by injection Hm as <- <-].
  - eapply (d_reach_step _ w (DWaitDone j true)); [exact Hw| |exact Hok]. econstructor; [|exact Hm]. simpl. by rewrite Hj.
  - assert (∀ r1 w1, wait_tick j wt w = (r1, w1) → match r1 with Ok _ | Err _ => True | _ => False end → reached w1) as Htick.
    { intros r1 w1 Ht Hok1. eapply (d_reach_step _ w (DTick j)); [exact Hw| |exact Hok1]. econstructor; [|exact Ht]. simpl. by rewrite Hj. }
    destruct (wait_tick j wt w) as [[[]|e|s|] w1]; try (injection Hm as <- <-); try done; [|by eapply Htick].
    eapply IH; [done..|]. by eapply Htick.
Qed.
Lemma ret_Wait ticks userCode : on_return reached (WaitSSOLogin idle_steps ticks userCode).
Proof. apply ret_bind; [by apply (ret_answer (DWait userCode))|]. intros j. apply ret_wait_until. Qed.
End steps.

Section commands.
Context {X : Type} `{Sys X} `{MgmAPI X} `{HttpLib X} `{Texts} `{Crypto} `{Runtime} `{WgCtrl} `{Net} `{DurationText}.
Context (idle_steps : DWorld X → DWorld X) (Hidle : ∀ w, d_reachable w (idle_steps w)).
Context (ticks : nat) (browser level : string → option error) `{BackoffLaws (CmdWorld (DWorld X))}.
#[local] Instance served_daemon : DaemonClient (DWorld X) := daemon_client idle_steps ticks browser level.

Section from.
Context (w0 : DWorld X).
Abbreviation steps := (λ cw, d_reachable w0 (CW_out cw)).

Lemma ret_served {A} (m : M (DWorld X) A) : on_return (d_reachable w0) m → on_return (d_reachable w0) (served idle_steps m).
Proof.
  intros Hm w r w' Hs Hok Hw. eapply (ret_map_err _ _ _ Hm); [exact Hs|exact Hok|]. by eapply d_reach_trans.
Qed.
Lemma ret_rpc {A} ev (m : M (DWorld X) A) : on_return (d_reachable w0) m → on_return steps (rpc ev m).
Proof.
  intros Hm cw r cw' Hr Hok Hcw. unfold rpc in Hr. destruct (m (CW_out cw)) as [[a|e|s|] w'] eqn:E; injection Hr as <- <-; try done; by eapply Hm.
Qed.
Lemma ret_aside {A} (m : M (DWorld X) A) : on_return (d_reachable w0) m → on_return steps (aside m).
Proof.
  intros Hm cw r cw' Hr Hok Hcw. unfold aside in Hr. destruct (m (CW_out cw)) as [r1 w'] eqn:E. injection Hr as <- <-. by eapply Hm.
Qed.
Lemma ret_vars (f : CmdWorld (DWorld X) → CmdWorld (DWorld X)) : (∀ cw, CW_out (f cw) = CW_out cw) → on_return steps (modify f).
Proof. intros Hf cw r cw' [= <- <-] _ Hcw. by rewrite Hf. Qed.

Lemma ret_InitLog l : on_return steps (InitLog l).
Proof. unfold InitLog. destruct (log_ParseLevel l); [apply ret_fail|apply ret_ret]. Qed.
Lemma ret_Dial addr : on_return steps (aside (dc_Dial addr)).
Proof. apply ret_aside, ret_ret. Qed.

Lemma ret_login_operation req : on_return steps (login_operation req).
Proof.
  unfold login_operation. apply ret_bind; [apply ret_try, ret_rpc, ret_served, ret_Login|]. intros [e|resp]; [|by apply ret_vars].
  apply ret_bind; [by apply ret_vars|]. intros _. destruct (final_code e); [by apply ret_vars|apply ret_fail].
Qed.
Lemma ret_daemon_login req : on_return steps (daemon_login req).
Proof.
  unfold daemon_login. apply ret_bind; [by apply ret_vars|]. intros _.
  apply ret_bind; [apply ret_map_err, ret_retry, ret_login_operation; done|]. intros _.
  apply ret_bind; [apply ret_gets|]. intros [e|]; [apply ret_fail|]. apply ret_bind; [apply ret_gets|]. intros o.
  apply ret_bind; [apply ret_deref|]. intros resp. destruct (DLA_NeedsSSOLogin resp); [|apply ret_ret].
  apply ret_bind; [|intros _; apply ret_map_err, ret_rpc, ret_served; by apply ret_Wait].
  unfold openURL. apply ret_aside. intros w r w' [= <- <-] _ Hw. exact Hw.
Qed.

(** The rest of the commands. *)
Lemma ret_upCmd f : on_return steps (upCmd f).
Proof.
  unfold upCmd, DialClientGRPCServer. apply ret_bind; [apply ret_map_err, ret_InitLog|]. intros _.
  apply ret_bind; [apply ret_map_err, ret_Dial|]. intros _.
  apply ret_bind; [apply ret_map_err, ret_rpc, ret_served, ret_Status|]. intros status.
  destruct (decide _); [apply ret_ret|]. apply ret_bind; [apply ret_daemon_login|]. intros _.
  apply ret_map_err, ret_rpc, ret_served, ret_Up.
Qed.
Lemma ret_loginCmd f : on_return steps (loginCmd f).
Proof.
  unfold loginCmd, DialClientGRPCServer. apply ret_bind; [apply ret_map_err, ret_InitLog|]. intros _.
  apply ret_bind; [apply ret_map_err, ret_Dial|]. intros _. apply ret_daemon_login.
Qed.
Lemma ret_downCmd f : on_return steps (downCmd f).
Proof.
  unfold downCmd. apply ret_bind; [apply ret_InitLog|]. intros _. apply ret_bind; [apply ret_Dial|]. intros _.
  apply ret_rpc, ret_served, ret_Down.
Qed.
Lemma ret_statusCmd f : on_return steps (statusCmd f).
Proof.
  unfold statusCmd, DialClientGRPCServer. apply ret_bind; [apply ret_map_err, ret_InitLog|]. intros _.
  apply ret_bind; [apply ret_map_err, ret_Dial|]. intros _.
  apply ret_bind; [apply ret_map_err, ret_rpc, ret_served, ret_Status|]. intros. apply ret_ret.
Qed.
End from.

Section from_start.
Context (m a p l : string) (files : gmap string (option ClConfig)) (x : X).
Abbreviation start := (freshDaemon (newDaemon m a p l) files x).

Lemma start_ok (w : DWorld X) : d_reachable start w → daemon_ok w.
Proof. apply reachable_ok, fresh_ok. Qed.

(** A call that has succeeded, and where it was served. *)
Lemma rpc_served_ok {A} ev (c : M (DWorld X) A) v cw cw' :
  rpc ev (served idle_steps c) cw = (Ok v, cw') → c (idle_steps (CW_out cw)) = (Ok v, CW_out cw').
Proof.
  unfold rpc, served, map_err. destruct (c (idle_steps (CW_out cw))) as [[v'|e|s|] w1]; by intros [= <- <-].
Qed.

Lemma Up_started (w w' : DWorld X) :
  Up w = (Ok tt, w') → ∃ i run, DW_Runs w' !! i = Some run ∧ Run_phase run = RunReady ∧
    DS_config (DW_Server w') = Some (Run_config run) ∧ DS_actCancel (DW_Server w') = Some (Run_ctx run).
Proof.
  intros Hup. cut (wp Up (λ r w', r = Ok tt → ∃ i run, DW_Runs w' !! i = Some run ∧ Run_phase run = RunReady ∧
    DS_config (DW_Server w') = Some (Run_config run) ∧ DS_actCancel (DW_Server w') = Some (Run_ctx run)) w).
  { unfold wp. rewrite Hup. intros Hw. by apply Hw. }
  unfold Up, state_Status. do 3 wp_step. destruct (CS_err (DW_State w)); [by wp_step|]. wp_step.
  destruct (decide _); [by wp_step|]. wp_step. eapply wp_mono; [apply renew_server|]. intros r w1 (ctx & -> & Hsrv & _).
  unfold server. simpl. do 2 wp_step. rewrite Hsrv. simpl. destruct (DS_config (DW_Server w)) as [c|] eqn:Hc; [|by wp_step].
  unfold spawn_run. do 3 wp_step. intros _. eexists (DW_Next w1), _. rewrite lookup_insert_eq, Hsrv. simpl. by rewrite Hc.
Qed.

(** A status read as connected, and where it was read. *)
Lemma Status_connected (w w' : DWorld X) :
  d_reachable start w → Daemon_Status w = (Ok (StatusType_String StConnected), w') →
  w' = w ∧ ∃ i run engineCtx mgm sig engine, DW_Runs w !! i = Some run ∧ Run_phase run = RunUp engineCtx mgm sig engine.
Proof.
  intros Hr Hst. assert (w' = w) as ->.
  { revert Hst. unfold Daemon_Status, state_Status, gets, mbind, M_bind. simpl. by destruct (CS_err _); intros [= _ <-]. }
  split; [done|]. destruct (connected_engine w) as (i & run & ec & mgm & sig & e & Hi & Hp & _); [by apply start_ok|by rewrite Hst|].
  by repeat eexists; eassumption.
Qed.

(** A client that is up, or a new one for the configuration the daemon has now,
    the action [down] would cancel. *)
Definition client_started (w : DWorld X) : Prop := ∃ i run, DW_Runs w !! i = Some run ∧
  ((∃ engineCtx mgm sig engine, Run_phase run = RunUp engineCtx mgm sig engine) ∨
   Run_phase run = RunReady ∧ DS_config (DW_Server w) = Some (Run_config run) ∧
   DS_actCancel (DW_Server w) = Some (Run_ctx run)).

Lemma upCmd_starts f cw cw' :
  d_reachable start (CW_out cw) → upCmd f cw = (Ok tt, cw') → client_started (CW_out cw').
Proof.
  intros Hr Hup. assert (d_reachable start (CW_out cw')) as Hr' by (by eapply (ret_upCmd start f)).
  unfold upCmd, map_err in Hup. apply bind_ok_inv in Hup as ([] & cw1 & _ & Hup).
  apply bind_ok_inv in Hup as ([] & cw2 & _ & Hup). apply bind_ok_inv in Hup as (status & cw3 & Hst & Hup).
  destruct (rpc EvStatus dc_Status cw2) as [[st|e|s|] cw3'] eqn:Hrpc; simplify_eq. apply rpc_served_ok in Hrpc.
  destruct (decide _) as [->|_].
  - injection Hup as <-. pose proof Hrpc as Hrpc'.
    assert (CW_out cw3 = idle_steps (CW_out cw2)) as Hout.
    { revert Hrpc'. unfold Daemon_Status, state_Status, gets, mbind, M_bind. simpl. by destruct (CS_err _); intros [= _ <-]. }
    rewrite <-Hout in Hrpc. apply Status_connected in Hrpc as (_ & i & run & ec & mgm & sig & e & Hi & Hp); [|done].
    exists i, run. split; [done|]. left. by eexists _, _, _, _.
  - apply bind_ok_inv in Hup as ([] & cw4 & _ & Hup).
    destruct (rpc EvUp dc_Up cw4) as [[[]|e|s|] cw5] eqn:Hrpc2; simplify_eq. apply rpc_served_ok in Hrpc2.
    apply Up_started in Hrpc2 as (i & run & Hi & Hp & Hc & Ha). exists i, run. split; [done|]. by right.
Qed.

(** After [down] nothing the daemon does has a context that is still good. *)
Lemma downCmd_cancels f cw cw' :
  d_reachable start (CW_out cw) → downCmd f cw = (Ok tt, cw') →
  ∀ i c, action (CW_out cw') i c → ctx_done (DW_Ctxs (CW_out cw')) c = true.
Proof.
  intros Hr Hdown. unfold downCmd in Hdown.
  apply bind_ok_inv in Hdown as ([] & cw1 & Hi & Hdown). apply bind_ok_inv in Hdown as ([] & cw2 & Hd & Hdown).
  assert (d_reachable start (CW_out cw1)) as Hr1 by (eapply ret_InitLog; [exact Hi|done|done]).
  assert (d_reachable start (CW_out cw2)) as Hr2 by (eapply ret_Dial; [exact Hd|done|done]).
  apply rpc_served_ok in Hdown. intros i c Hact. unfold ctx_done, flagged.
  eapply Down_cancels in Hact as ->; [done| |exact Hdown]. apply start_ok. by eapply d_reach_trans.
Qed.

Lemma loginCmd_calls f cw cw' :
  loginCmd f cw = (Ok tt, cw') → ∃ l, CW_log cw' = CW_log cw ++ l ∧ login_calls (login_request f) l.
Proof.
  unfold loginCmd, InitLog, DialClientGRPCServer, map_err. intros ([] & cw1 & Hi & ([] & cw2 & Hd & Hl)%bind_ok_inv)%bind_ok_inv.
  assert (cw1 = cw) as -> by (destruct (log_ParseLevel _); by simplify_eq/=).
  assert (CW_log cw2 = CW_log cw) as <- by (unfold aside in Hd; destruct (dc_Dial _ _) as [[[]|e|s|] x1]; by simplify_eq/=).
  by apply daemon_login_ok.
Qed.

Lemma statusCmd_connected f cw hint cw' :
  d_reachable start (CW_out cw) → statusCmd f cw = (Ok (StatusType_String StConnected, hint), cw') →
  ∃ i run engineCtx mgm sig engine, DW_Runs (CW_out cw') !! i = Some run ∧ Run_phase run = RunUp engineCtx mgm sig engine.
Proof.
  intros Hr Hst. assert (d_reachable start (CW_out cw')) as Hr' by (by eapply (ret_statusCmd start f)).
  unfold statusCmd, map_err in Hst. apply bind_ok_inv in Hst as ([] & cw1 & _ & Hst).
  apply bind_ok_inv in Hst as ([] & cw2 & _ & Hst). apply bind_ok_inv in Hst as (status & cw3 & Hst & Hend).
  injection Hend as -> _ <-.
  destruct (rpc EvStatus dc_Status cw2) as [[st|e|s|] cw3'] eqn:Hrpc; simplify_eq. apply rpc_served_ok in Hrpc.
  assert (CW_out cw3 = idle_steps (CW_out cw2)) as Hout.
  { revert Hrpc. unfold Daemon_Status, state_Status, gets, mbind, M_bind. simpl. by destruct (CS_err _); intros [= _ <-]. }
  rewrite <-Hout in Hrpc. by apply Status_connected in Hrpc as (_ & ?).
Qed.

(** C22: the commands [up], [login], [down] and [status] against the daemon,
    which does whatever it likes between their calls: however a command ends,
    with success or an error, it has only taken the daemon through its own
    steps, so that the daemon's invariants hold.  When [up] succeeds the daemon
    has a client that is up, or a new one for the configuration it has now; when
    [login] succeeds a login was accepted, and waited for if it had to be; when
    [down] succeeds all that goes on in the daemon has been cancelled; and
    [status] says connected only of a daemon with a client that is up. *)
Theorem commands_drive_daemon f cw :
  d_reachable start (CW_out cw) →
  (∀ r cw', upCmd f cw = (r, cw') → returns r → d_reachable start (CW_out cw') ∧
     (r = Ok tt → client_started (CW_out cw'))) ∧
  (∀ r cw', loginCmd f cw = (r, cw') → returns r → d_reachable start (CW_out cw') ∧
     (r = Ok tt → ∃ l, CW_log cw' = CW_log cw ++ l ∧ login_calls (login_request f) l)) ∧
  (∀ r cw', downCmd f cw = (r, cw') → returns r → d_reachable start (CW_out cw') ∧
     (r = Ok tt → ∀ i c, action (CW_out cw') i c → ctx_done (DW_Ctxs (CW_out cw')) c = true)) ∧
  (∀ r cw', statusCmd f cw = (r, cw') → returns r → d_reachable start (CW_out cw') ∧
     ∀ hint, r = Ok (StatusType_String StConnected, hint) →
       ∃ i run engineCtx mgm sig engine, DW_Runs (CW_out cw') !! i = Some run ∧
         Run_phase run = RunUp engineCtx mgm sig engine).
Proof.
  intros Hr. split_and!; intros r cw' Hrun Hret.
  - split; [by eapply (ret_upCmd start f)|]. intros ->. by eapply upCmd_starts.
  - split; [by eapply (ret_loginCmd start f)|]. intros ->. by apply loginCmd_calls.
  - split; [by eapply (ret_downCmd start f)|]. intros ->. by eapply downCmd_cancels.
  - split; [by eapply (ret_statusCmd start f)|]. intros hint ->. by eapply statusCmd_connected.
Qed.
End from_start.
End commands.

(* ------------------------------------------------------------------ *)
(** ** Up and down from the command line *)

Definition demo_do : DWorld nat → d_label → DWorld nat :=
  @d_do nat demo_sys (demo_mgm true) (demo_idp 60) demo_texts demo_crypto demo_runtime demo_wgctrl demo_net demo_duration.
(** Between two calls the client that was started first may get its turn. *)
Definition demo_idle (w : DWorld nat) : DWorld nat := demo_do w (DRun 3 true).
Definition demo_cli : DaemonClient (DWorld nat) :=
  @daemon_client nat demo_sys (demo_mgm true) (demo_idp 60) demo_texts demo_crypto demo_idle 2 (λ _, None) (λ _, None).
Definition demo_cli_up (cw : CmdWorld (DWorld nat)) : Res unit * CmdWorld (DWorld nat) :=
  @upCmd (DWorld nat) demo_cli once demo_flags cw.
Definition demo_cli_down (cw : CmdWorld (DWorld nat)) : Res unit * CmdWorld (DWorld nat) :=
  @downCmd (DWorld nat) demo_cli demo_flags cw.
Definition demo_cli_start : CmdWorld (DWorld nat) := mkCmdWorld None None [] demo_fresh.

Lemma demo_idle_steps w : demo_reach w (demo_idle w).
Proof.
  apply (@d_do_reachable nat demo_sys (demo_mgm true) (demo_idp 60) demo_texts demo_crypto demo_runtime demo_wgctrl demo_net
    demo_duration [DRun 3 true] w w). constructor.
Qed.

(** [up], and then [down]. *)
Lemma commands_drive_daemon_witness :
  ∃ cw1 cw2, demo_cli_up demo_cli_start = (Ok tt, cw1) ∧ demo_cli_down cw1 = (Ok tt, cw2) ∧
    (∃ i run, DW_Runs (CW_out cw1) !! i = Some run) ∧
    ∃ i c, action (CW_out cw2) i c ∧ ctx_done (DW_Ctxs (CW_out cw2)) c = true.
Proof.
  pose (cw1 := (demo_cli_up demo_cli_start).2). pose (cw2 := (demo_cli_down cw1).2).
  assert (demo_cli_up demo_cli_start = (Ok tt, cw1)) as Hup by (vm_compute; reflexivity).
  assert (demo_cli_down cw1 = (Ok tt, cw2)) as Hdown by (vm_compute; reflexivity).
  assert (action (CW_out cw2) 3 2) as Ha by (left; eexists; split; vm_compute; reflexivity).
  pose proof (λ cw, @commands_drive_daemon nat demo_sys (demo_mgm true) (demo_idp 60) demo_texts demo_crypto demo_runtime
    demo_wgctrl demo_net demo_duration demo_idle demo_idle_steps 2 (λ _, None) (λ _, None) once once_laws
    "https://example.com" "" "config.json" "log" ∅ 0 demo_flags cw) as Hall.
  destruct (Hall demo_cli_start (d_reach_refl _)) as (Hcup & _).
  destruct (Hcup (Ok tt) cw1 Hup I) as [Hr Hst]. destruct (Hst eq_refl) as (i & run & Hi & _).
  destruct (Hall cw1 Hr) as (_ & _ & Hcdown & _). destruct (Hcdown (Ok tt) cw2 Hdown I) as [_ Hcan].
  exists cw1, cw2. split; [exact Hup|]. split; [exact Hdown|]. split; [exists i, run; exact Hi|].
  exists 3, 2. split; [exact Ha|]. exact (Hcan eq_refl 3 2 Ha).
Defined.
