(* ===== verification/Ui.v ===== *)
(** * Ui: the tray application of the client (client/ui/client_ui.go)

    What the menu and the settings window do with the daemon: the handlers and
    the state behind the widgets.  Drawing and the tray library are left
    out; the start of the processes is in [Tray]. *)

From S2P Require Import Prelude GoLib Model Network UpdateChannel FileStore Account Groups Peers Turn Encryption Jwt GrpcServer Util Signal SignalClient MgmClient ClientModel WgIface PeerConn Engine Http OAuth DaemonModel ClientConfig ClientLogin Daemon Commands.

(** The widgets and fields: the connection, the settings known, the form, the
    items of the menu. *)
Record serviceClient := mkServiceClient {
  UI_conn : bool;
  UI_showSettings : bool;
  UI_managementURL : string; UI_preSharedKey : string; UI_adminURL : string;
  UI_iMngURL : string; UI_iAdminURL : string; UI_iPreSharedKey : string;
  UI_iConfigFile : string; UI_iLogFile : string;
  UI_windowOpen : bool; UI_errorShown : bool;
  UI_connectedShown : bool; UI_upEnabled : bool; UI_downEnabled : bool }.

Definition set_UI_conn (b : bool) (s : serviceClient) : serviceClient :=
  mkServiceClient b (UI_showSettings s) (UI_managementURL s) (UI_preSharedKey s) (UI_adminURL s) (UI_iMngURL s) (UI_iAdminURL s)
    (UI_iPreSharedKey s) (UI_iConfigFile s) (UI_iLogFile s) (UI_windowOpen s) (UI_errorShown s) (UI_connectedShown s)
    (UI_upEnabled s) (UI_downEnabled s).
Definition set_UI_settings (m k a : string) (s : serviceClient) : serviceClient :=
  mkServiceClient (UI_conn s) (UI_showSettings s) m k a (UI_iMngURL s) (UI_iAdminURL s)
    (UI_iPreSharedKey s) (UI_iConfigFile s) (UI_iLogFile s) (UI_windowOpen s) (UI_errorShown s) (UI_connectedShown s)
    (UI_upEnabled s) (UI_downEnabled s).
Definition set_UI_form (m a k c l : string) (s : serviceClient) : serviceClient :=
  mkServiceClient (UI_conn s) (UI_showSettings s) (UI_managementURL s) (UI_preSharedKey s) (UI_adminURL s) m a k c l
    (UI_windowOpen s) (UI_errorShown s) (UI_connectedShown s) (UI_upEnabled s) (UI_downEnabled s).
Definition set_UI_window (open error : bool) (s : serviceClient) : serviceClient :=
  mkServiceClient (UI_conn s) (UI_showSettings s) (UI_managementURL s) (UI_preSharedKey s) (UI_adminURL s) (UI_iMngURL s)
    (UI_iAdminURL s) (UI_iPreSharedKey s) (UI_iConfigFile s) (UI_iLogFile s) open error (UI_connectedShown s)
    (UI_upEnabled s) (UI_downEnabled s).
Definition set_UI_menu (connected up down : bool) (s : serviceClient) : serviceClient :=
  mkServiceClient (UI_conn s) (UI_showSettings s) (UI_managementURL s) (UI_preSharedKey s) (UI_adminURL s) (UI_iMngURL s)
    (UI_iAdminURL s) (UI_iPreSharedKey s) (UI_iConfigFile s) (UI_iLogFile s) (UI_windowOpen s) (UI_errorShown s)
    connected up down.

(** The state [newServiceClient] starts from, with the menu as [onTrayReady]
    sets it up. *)
Definition newServiceClient (showSettings : bool) : serviceClient :=
  mkServiceClient false showSettings "" "" "" "" "" "" "" "" false false false true false.

Definition default_managementURL : string := "https://api.wiretrustee.com:33073".
Definition default_adminURL : string := "https://app.netbird.io".

Section ui.
Context {X : Type} `{DaemonClient X} `{Crypto} `{Backoff (serviceClient * CmdWorld X)}.
Abbreviation MU := (M (serviceClient * CmdWorld X)).

Definition on_daemon {A} (m : M (CmdWorld X) A) : MU A := λ sw, let '(r, w) := m sw.2 in (r, (sw.1, w)).
Definition ui : MU serviceClient := gets fst.
Definition mod_ui (f : serviceClient → serviceClient) : MU unit := modify (λ sw, (f sw.1, sw.2)).

(** The connection is made once and kept. *)
Definition getSrvClient (addr : string) : MU unit :=
  s ← ui;
  if UI_conn s then mret tt
  else
    _ ← map_err (prefixed "dial service: ") (on_daemon (aside (dc_Dial addr)));
    mod_ui (set_UI_conn true).

Definition ui_login (addr : string) : MU unit :=
  _ ← getSrvClient addr;
  let req := mkDaemonLogin "" "" "" "" in
  loginResp ← on_daemon (rpc (EvLogin req) (dc_Login req));
  if DLA_NeedsSSOLogin loginResp then
    r ← on_daemon (aside (λ x, let '(e, x') := open_Run (DLA_VerificationURIComplete loginResp) x in (Ok e, x')));
    match r with
    | Some err => fail err
    | None => on_daemon (rpc (EvWait (DLA_UserCode loginResp)) (dc_WaitSSOLogin (DLA_UserCode loginResp)))
    end
  else mret tt.

Definition menuUpClick (addr : string) : MU unit :=
  _ ← getSrvClient addr;
  _ ← ui_login addr;
  status ← on_daemon (rpc EvStatus dc_Status);
  if decide (status = StatusType_String StConnected) then mret tt
  else on_daemon (rpc EvUp dc_Up).

Definition menuDownClick (addr : string) : MU unit :=
  _ ← getSrvClient addr;
  status ← on_daemon (rpc EvStatus dc_Status);
  if decide (status ≠ StatusType_String StConnected) then mret tt
  else on_daemon (rpc EvDown dc_Down).

Definition show_status : MU unit :=
  status ← on_daemon (rpc EvStatus dc_Status);
  if decide (status = StatusType_String StConnected) then mod_ui (set_UI_menu true false true)
  else mod_ui (set_UI_menu false true false).
Definition updateStatus (addr : string) : MU unit :=
  _ ← getSrvClient addr;
  backoff_Retry show_status.

(** [getSrvConfig]; its errors are logged. *)
Definition getSrvConfig (addr : string) : MU unit :=
  _ ← mod_ui (λ s, set_UI_settings default_managementURL (UI_preSharedKey s) default_adminURL s);
  r ← try (_ ← getSrvClient addr; on_daemon (rpc EvGetConfig dc_GetConfig));
  match r with
  | inl _ => mret tt
  | inr cfg =>
      _ ← mod_ui (λ s, set_UI_settings
            (if decide (GCR_ManagementUrl cfg ≠ "") then GCR_ManagementUrl cfg else UI_managementURL s)
            (GCR_PreSharedKey cfg)
            (if decide (GCR_AdminURL cfg ≠ "") then GCR_AdminURL cfg else UI_adminURL s) s);
      mod_ui (λ s, if UI_showSettings s
                   then set_UI_form (UI_managementURL s) (UI_adminURL s) (GCR_PreSharedKey cfg) (GCR_ConfigFile cfg) (GCR_LogFile cfg) s
                   else s)
  end.

(** [showUIElements]: an empty form, the configuration, the window. *)
Definition showUIElements (addr : string) : MU unit :=
  _ ← mod_ui (set_UI_form "" "" "" "" "");
  _ ← getSrvConfig addr;
  mod_ui (set_UI_window true false).

(** The start of the application, and the loop of the tray: the
    configuration once, then the status again and again. *)
Definition start_ui (showSettings : bool) (addr : string) : MU unit :=
  _ ← mod_ui (λ _, newServiceClient showSettings);
  if showSettings then showUIElements addr else mret tt.
Definition tray_begin (addr : string) : MU unit := getSrvConfig addr.
Definition tray_turn (addr : string) : MU unit :=
  r ← try (updateStatus addr);
  match r with inl _ | inr _ => mret tt end.

(** Saving the settings; the errors of the daemon are logged. *)
Definition OnSubmit (addr : string) : MU unit :=
  s ← ui;
  let invalid := bool_decide (UI_iPreSharedKey s ≠ "") && bool_decide (UI_iPreSharedKey s ≠ masked) &&
                 match ParseKey (UI_iPreSharedKey s) with inl _ => true | inr _ => false end in
  if invalid : bool then mod_ui (λ s, set_UI_window (UI_windowOpen s) true s)
  else
    _ ← (if decide (UI_managementURL s ≠ UI_iMngURL s ∨ UI_preSharedKey s ≠ UI_iPreSharedKey s ∨ UI_adminURL s ≠ UI_iAdminURL s)
         then
           _ ← mod_ui (set_UI_settings (UI_iMngURL s) (UI_iPreSharedKey s) (UI_iAdminURL s));
           let req := mkDaemonLogin "" (UI_iPreSharedKey s) (UI_iMngURL s) (UI_iAdminURL s) in
           r ← try (_ ← getSrvClient addr;
                    _ ← on_daemon (rpc (EvLogin req) (dc_Login req));
                    on_daemon (rpc EvUp dc_Up));
           mret tt
         else mret tt);
    mod_ui (λ s, set_UI_window false (UI_errorShown s) s).
End ui.

(* ------------------------------------------------------------------ *)
(** ** Properties *)

Section properties.
Context {X : Type} `{DaemonClient X} `{Crypto} `{BackoffLaws (serviceClient * CmdWorld X)}.

(** The menu offers to connect or to disconnect, as its title says. *)
Definition menu_ok (s : serviceClient) : Prop :=
  UI_upEnabled s = negb (UI_connectedShown s) ∧ UI_downEnabled s = UI_connectedShown s.

(** What the handlers but the one that shows the status leave of the menu. *)
Definition menu_kept {A} (m : M (serviceClient * CmdWorld X) A) : Prop :=
  ∀ sw, menu_ok sw.1 → wp m (λ _ sw', menu_ok sw'.1) sw.

Lemma menu_bind {A B} (m : M (serviceClient * CmdWorld X) A) (k : A → M (serviceClient * CmdWorld X) B) :
  menu_kept m → (∀ a, menu_kept (k a)) → menu_kept (m ≫= k).
Proof.
  intros Hm Hk sw Hs. wp_step. eapply wp_mono; [by apply Hm|]. intros [a|e|s|] sw' Hs'; simpl; try done. by apply Hk.
Qed.
Lemma menu_on_daemon {A} (m : M (CmdWorld X) A) : menu_kept (on_daemon m).
Proof. intros [s w] Hs. unfold wp, on_daemon. simpl. by destruct (m w). Qed.
Lemma menu_ui : menu_kept ui.
Proof. intros sw Hs. done. Qed.
Lemma menu_mod f : (∀ s, menu_ok s → menu_ok (f s)) → menu_kept (mod_ui f).
Proof. intros Hf sw Hs. apply wp_modify. by apply Hf. Qed.
Lemma menu_ret {A} (a : A) : menu_kept (mret a).
Proof. by intros sw Hs. Qed.
Lemma menu_fail {A} e : menu_kept (fail (A := A) e).
Proof. by intros sw Hs. Qed.
Lemma menu_map_err {A} f (m : M (serviceClient * CmdWorld X) A) : menu_kept m → menu_kept (map_err f m).
Proof. intros Hm sw Hs. wp_step. eapply wp_mono; [by apply Hm|]. by intros []. Qed.
Lemma menu_try {A} (m : M (serviceClient * CmdWorld X) A) : menu_kept m → menu_kept (try m).
Proof. intros Hm sw Hs. wp_step. eapply wp_mono; [by apply Hm|]. by intros []. Qed.
Lemma menu_retry op : menu_kept op → menu_kept (backoff_Retry op).
Proof.
  intros Hop sw Hs. unfold wp. destruct (backoff_Retry op sw) as [r sw'] eqn:Hr. simpl. apply Retry_retries in Hr.
  induction Hr as [sw r sw' E|sw e sw1 r sw2 E Hr IH]; pose proof (Hop sw Hs) as Hw; unfold wp in Hw; rewrite E in Hw; simpl in Hw;
    [done|by apply IH].
Qed.

Create HintDb menu discriminated.
#[local] Hint Resolve menu_on_daemon menu_ui menu_ret menu_fail : menu.
Ltac menu := repeat first
  [ solve [auto with menu]
  | apply menu_bind; [|intros ?] | apply menu_map_err | apply menu_try | apply menu_retry
  | apply menu_mod; intros ? ? | case_decide | case_match ]; try done.

Lemma menu_getSrvClient addr : menu_kept (getSrvClient addr).
Proof. unfold getSrvClient. menu. Qed.
#[local] Hint Resolve menu_getSrvClient : menu.
Lemma menu_getSrvConfig addr : menu_kept (getSrvConfig addr).
Proof. unfold getSrvConfig. menu. Qed.
#[local] Hint Resolve menu_getSrvConfig : menu.
Lemma menu_ui_login addr : menu_kept (ui_login addr).
Proof. unfold ui_login. menu. Qed.
#[local] Hint Resolve menu_ui_login : menu.

(** After a status update that succeeds, the menu shows what was answered last. *)
Lemma show_status_ok sw sw' :
  show_status sw = (Ok tt, sw') →
  ∃ st, CW_log sw'.2 = CW_log sw.2 ++ [EvStatus (inr st)] ∧
    UI_connectedShown sw'.1 = bool_decide (st = StatusType_String StConnected).
Proof.
  unfold show_status. intros (st & sw1 & Hr & Hrun)%bind_ok_inv. unfold on_daemon, rpc in Hr.
  destruct (dc_Status _) as [[st'|e|s|] x]; simplify_eq/=. exists st.
  case_decide; injection Hrun as <-; simpl; (split; [done|]); symmetry;
    [by apply bool_decide_eq_true_2|by apply bool_decide_eq_false_2].
Qed.

(** Whatever the user clicks and whatever the daemon answers, the menu
    offers to connect exactly when it says Disconnected, and to disconnect
    exactly when it says Connected; and after an update that succeeds it says
    what the daemon has answered last. *)
Theorem menu_tells_status addr sw :
  menu_ok sw.1 →
  wp (menuUpClick addr) (λ _ sw', menu_ok sw'.1) sw ∧ wp (menuDownClick addr) (λ _ sw', menu_ok sw'.1) sw ∧
  wp (OnSubmit addr) (λ _ sw', menu_ok sw'.1) sw ∧ wp (showUIElements addr) (λ _ sw', menu_ok sw'.1) sw ∧
  wp (updateStatus addr) (λ r sw', menu_ok sw'.1 ∧
    (r = Ok tt → ∃ l st, CW_log sw'.2 = l ++ [EvStatus (inr st)] ∧
       UI_connectedShown sw'.1 = bool_decide (st = StatusType_String StConnected))) sw.
Proof.
  intros Hs.
  assert (menu_kept (updateStatus addr)) as Hu by (unfold updateStatus, show_status; menu).
  assert (menu_kept (menuUpClick addr)) as Hup by (unfold menuUpClick; menu).
  assert (menu_kept (menuDownClick addr)) as Hdown by (unfold menuDownClick; menu).
  assert (menu_kept (OnSubmit addr)) as Hsub by (unfold OnSubmit; menu).
  assert (menu_kept (showUIElements addr)) as Hshow by (unfold showUIElements; menu).
  split; [by apply Hup|]. split; [by apply Hdown|]. split; [by apply Hsub|]. split; [by apply Hshow|].
  apply wp_and; [by apply Hu|]. unfold wp. destruct (updateStatus addr sw) as [r sw'] eqn:Hrun. simpl. intros ->.
  unfold updateStatus in Hrun. apply bind_ok_inv in Hrun as ([] & sw1 & _ & Hr).
  apply (Retry_ok_inv _ (λ _ _, True)) in Hr as (sw2 & _ & Hst); [|done..].
  apply show_status_ok in Hst as (st & Hl & Hc). eauto.
Qed.

(** Opening the settings and saving them unchanged asks nothing of the
    daemon: with the configuration as the daemon shows it (its pre-shared key
    empty or masked), the form is what the application knows. *)
Theorem unchanged_settings_do_nothing addr s w s1 w1 cfg l :
  UI_showSettings s = true →
  getSrvConfig addr (s, w) = (Ok tt, (s1, w1)) → CW_log w1 = l ++ [EvGetConfig (inr cfg)] → CW_log w ≠ CW_log w1 →
  GCR_PreSharedKey cfg = "" ∨ GCR_PreSharedKey cfg = masked →
  OnSubmit addr (s1, w1) = (Ok tt, (set_UI_window false (UI_errorShown s1) s1, w1)).
Proof.
  intros Hshow Hrun Hlog Hnew Hk.
  assert (UI_managementURL s1 = UI_iMngURL s1 ∧ UI_adminURL s1 = UI_iAdminURL s1 ∧
          UI_preSharedKey s1 = UI_iPreSharedKey s1 ∧ UI_iPreSharedKey s1 = GCR_PreSharedKey cfg) as (Em & Ea & Ek & Ec).
  { unfold getSrvConfig in Hrun. apply bind_ok_inv in Hrun as ([] & sw0 & [= <-] & Hrun). simpl in Hrun.
    apply bind_ok_inv in Hrun as (r & [s2 w2] & Htry & Hrun). unfold try in Htry.
    match type of Htry with match ?t with _ => _ end = _ => destruct t as [[c|e|p|] [s3 w3]] eqn:Hm end; simplify_eq.
    - apply bind_ok_inv in Hm as ([] & [s4 w4] & Hc & Hg). unfold on_daemon, rpc in Hg. simpl in Hg.
      assert (UI_showSettings s4 = true) as Hshow4.
      { unfold getSrvClient in Hc. apply bind_ok_inv in Hc as (s5 & sw5 & [= <- <-] & Hc). simpl in Hc.
        destruct (UI_conn s); [by injection Hc as <- _|]. apply bind_ok_inv in Hc as ([] & [s6 w6] & Hd & Hc).
        unfold map_err, on_daemon, aside in Hd. simpl in Hd. destruct (dc_Dial _ _) as [[[]|e|p|] x]; try discriminate Hd. injection Hd as <- _. by injection Hc as <- _. }
      destruct (dc_GetConfig _) as [[c'|e|p|] x]; simplify_eq.
      apply bind_ok_inv in Hrun as ([] & sw5 & [= <-] & Hrun). simpl in Hrun. unfold mod_ui, modify in Hrun. simpl in Hrun.
      rewrite Hshow4 in Hrun. simplify_eq/=. by apply app_inj_tail in Hlog as [_ [= ->]].
    - exfalso. simpl in Hrun. injection Hrun as <- <-. apply Hnew. revert Hm. unfold getSrvClient, mbind, M_bind. simpl.
      destruct (UI_conn s); simpl; unfold map_err, on_daemon, aside, rpc; simpl.
      + destruct (dc_GetConfig _) as [[c|e'|p|] x]; simpl; intros; simplify_eq/=. by apply app_inj_tail in Hlog as [_ ?].
      + destruct (dc_Dial _ _) as [[[]|e'|p|] x]; simpl; intros; simplify_eq/=; try done.
        destruct (dc_GetConfig _) as [[c|e''|p|] x']; simplify_eq/=. by apply app_inj_tail in Hlog as [_ ?]. }
  unfold OnSubmit. erewrite bind_run by done. simpl. rewrite Ec.
  assert ((bool_decide (GCR_PreSharedKey cfg ≠ "") && bool_decide (GCR_PreSharedKey cfg ≠ masked)) = false) as ->.
  { apply andb_false_iff. destruct Hk as [->| ->]; [by left|right; apply bool_decide_eq_false_2; intros Hn; by apply Hn]. }
  simpl. rewrite decide_False by (rewrite Em, Ea, <-Ec, Ek; naive_solver). by erewrite bind_run by done.
Qed.

(** Saving changed settings goes on to Up when the login still needs the
    user, whom nobody asks. *)
Theorem submit_skips_sso addr s w resp x1 :
  UI_conn s = true → UI_iPreSharedKey s = "" → UI_managementURL s ≠ UI_iMngURL s →
  let req := mkDaemonLogin "" "" (UI_iMngURL s) (UI_iAdminURL s) in
  dc_Login req (CW_out w) = (Ok resp, x1) → DLA_NeedsSSOLogin resp = true →
  ∀ r, (dc_Up x1).1 = Err r →
  ∃ sw', OnSubmit addr (s, w) = (Ok tt, sw') ∧
    CW_log sw'.2 = CW_log w ++ [EvLogin req (inr resp); EvUp (inl r)] ∧ UI_windowOpen sw'.1 = false.
Proof.
  intros Hc Hk Hne req Hl Hsso r Hup. unfold OnSubmit. erewrite bind_run by done. simpl. rewrite Hk. simpl.
  rewrite decide_True by auto. unfold getSrvClient, mod_ui, modify, try, mbind, M_bind. simpl. rewrite Hc. simpl.
  unfold on_daemon, rpc. simpl. fold req. rewrite Hl. simpl. destruct (dc_Up x1) as [r' x2]. simpl in Hup. subst r'. simpl.
  eexists. split; [done|]. simpl. by rewrite <-app_assoc.
Qed.
End properties.

(* ------------------------------------------------------------------ *)
(** ** With the daemon of the demonstration *)

Definition demo_cmd : CmdWorld nat := mkCmdWorld None None [] 5.
Definition demo_update : serviceClient * CmdWorld nat → Res unit * (serviceClient * CmdWorld nat) :=
  @updateStatus nat demo_client once "unix:///s".

Lemma menu_tells_status_witness :
  menu_ok (newServiceClient false) ∧
  ∃ sw', demo_update (newServiceClient false, demo_cmd) = (Ok tt, sw') ∧ menu_ok sw'.1 ∧ UI_connectedShown sw'.1 = false.
Proof.
  assert (menu_ok (newServiceClient false)) as Hs by (split; reflexivity). split; [exact Hs|].
  pose (sw' := (demo_update (newServiceClient false, demo_cmd)).2).
  assert (demo_update (newServiceClient false, demo_cmd) = (Ok tt, sw')) as Hrun by (vm_compute; reflexivity).
  exists sw'. split; [exact Hrun|].
  destruct (@menu_tells_status nat demo_client demo_crypto once once_laws "unix:///s" (newServiceClient false, demo_cmd) Hs)
    as (_ & _ & _ & _ & Hw).
  unfold demo_update in Hrun. unfold wp in Hw. rewrite Hrun in Hw. destruct Hw as [Hm Hl]. split; [exact Hm|].
  vm_compute. reflexivity.
Defined.

Definition demo_settings : serviceClient * CmdWorld nat :=
  (@getSrvConfig nat demo_client "unix:///s" (newServiceClient true, demo_cmd)).2.

Lemma unchanged_settings_do_nothing_witness :
  ∃ s1 w1, demo_settings = (s1, w1) ∧ UI_iPreSharedKey s1 = masked ∧ UI_iMngURL s1 = "https://api" ∧
    @OnSubmit nat demo_client demo_crypto "unix:///s" (s1, w1) = (Ok tt, (set_UI_window false (UI_errorShown s1) s1, w1)).
Proof.
  exists demo_settings.1, demo_settings.2. split; [reflexivity|]. split; [reflexivity|]. split; [reflexivity|].
  apply (@unchanged_settings_do_nothing nat demo_client demo_crypto "unix:///s" (newServiceClient true) demo_cmd
    demo_settings.1 demo_settings.2 (mkConfigAnswer "https://api" "config.json" "log" masked "https://admin") []).
  - reflexivity.
  - vm_compute. reflexivity.
  - vm_compute. reflexivity.
  - vm_compute. discriminate.
  - right. reflexivity.
Defined.

(** Up is refused while the login is not finished. *)
Definition demo_client_idle : DaemonClient nat := {|
  dc_Dial := @dc_Dial nat demo_client; dc_Login := @dc_Login nat demo_client; dc_WaitSSOLogin := @dc_WaitSSOLogin nat demo_client;
  dc_Up n := (Err (Plain "up already in progress: current status NeedsLogin"), S n);
  dc_Down := @dc_Down nat demo_client; dc_Status := @dc_Status nat demo_client; dc_GetConfig := @dc_GetConfig nat demo_client;
  open_Run := @open_Run nat demo_client; log_ParseLevel _ := None |}.
Definition demo_form : serviceClient := set_UI_form "https://new" "" "" "" "" (set_UI_conn true (newServiceClient true)).

Lemma submit_skips_sso_witness :
  ∃ sw' r, @OnSubmit nat demo_client_idle demo_crypto "unix:///s" (demo_form, demo_cmd) = (Ok tt, sw') ∧
    CW_log sw'.2 = [EvLogin (mkDaemonLogin "" "" "https://new" "") (inr demo_answer); EvUp (inl r)].
Proof.
  destruct (@submit_skips_sso nat demo_client_idle demo_crypto "unix:///s" demo_form demo_cmd demo_answer 6
    eq_refl eq_refl ltac:(discriminate) eq_refl eq_refl
    (Plain "up already in progress: current status NeedsLogin") eq_refl) as (sw' & Hrun & Hlog & _).
  exists sw', (Plain "up already in progress: current status NeedsLogin"). split; [exact Hrun|exact Hlog].
Defined.
