(* ===== verification/Files.v ===== *)
(** * Files: carrying over the files of the former name (cmd/root.go of the
    client, cmd/management.go, cmd/run.go of the signal server)

    The product used to have another name.  The commands copy the directories
    of the old name to those of the new one once.  The file system is a map
    from paths, lists of names, to files, directories and symbolic links whose
    targets are paths from the root; a system call may fail. *)

From S2P Require Import Prelude GoLib Model.
From stdpp Require Import sorting.

Inductive node := NFile (mode : Z) (data : string) | NDir (mode : Z) | NLink (target : list string).

(** The files, and the number of system calls so far. *)
Record FsWorld := mkFs { Fs_nodes : gmap (list string) node; Fs_calls : nat }.

(** The outcome of the system calls, and the mask of new files. *)
Class OsCalls := { os_fault : nat → option error; os_umask : Z }.

Definition ErrNotExist : error := Plain "file does not exist".
Definition ELOOP : error := Plain "too many levels of symbolic links".
Definition ENOTDIR : error := Plain "not a directory".
Definition EISDIR : error := Plain "is a directory".
Definition EEXIST : error := Plain "file exists".
Definition EINVAL : error := Plain "invalid argument".

(** What a path names: links are followed, at most [links] of them, also the
    last component; that may be missing. *)
Fixpoint resolve (links : nat) (fs : gmap (list string) node) (cur rest : list string) {struct links} : error + list string :=
  (fix walk (cur rest : list string) {struct rest} : error + list string :=
     match rest with
     | [] => inr cur
     | c :: rest' =>
         let p := cur ++ [c] in
         match fs !! p with
         | None => if decide (rest' = []) then inr p else inl ErrNotExist
         | Some (NLink target) => match links with 0 => inl ELOOP | S links' => resolve links' fs [] (target ++ rest') end
         | Some (NFile _ _) => if decide (rest' = []) then inr p else inl ENOTDIR
         | Some (NDir _) => walk p rest'
         end
     end) cur rest.
Definition max_links : nat := 40.

Record FileInfo := mkFileInfo { FI_IsDir : bool; FI_IsSymlink : bool; FI_Mode : Z }.
Definition info_of (n : node) : FileInfo :=
  match n with
  | NFile m _ => mkFileInfo false false m
  | NDir m => mkFileInfo true false m
  | NLink _ => mkFileInfo false true 511
  end.

Section os.
Context `{OsCalls}.
Abbreviation MO := (M FsWorld).

Definition os_enter : MO unit := λ w,
  (match os_fault (Fs_calls w) with None => Ok tt | Some e => Err e end, mkFs (Fs_nodes w) (S (Fs_calls w))).
Definition nodes : MO (gmap (list string) node) := gets Fs_nodes.
Definition put_node (p : list string) (n : node) : MO unit := modify (λ w, mkFs (<[p := n]> (Fs_nodes w)) (Fs_calls w)).

(** The path after links, and what is there. *)
Definition lookup_path (p : list string) : MO (list string * option node) :=
  fs ← nodes;
  match resolve max_links fs [] p with
  | inl e => fail e
  | inr q => mret (q, if decide (q = []) then Some (NDir 493) else fs !! q)
  end.

Definition os_Stat (p : list string) : MO FileInfo :=
  _ ← os_enter;
  r ← lookup_path p;
  match r.2 with Some n => mret (info_of n) | None => fail ErrNotExist end.

(** [os.Lstat] and [os.Readlink] do not follow the last component. *)
Definition os_Lstat (p : list string) : MO FileInfo :=
  _ ← os_enter;
  r ← lookup_path (removelast p);
  match last p with
  | None => mret (mkFileInfo true false 493)
  | Some c => fs ← nodes; match fs !! (r.1 ++ [c]) with Some n => mret (info_of n) | None => fail ErrNotExist end
  end.
Definition os_Readlink (p : list string) : MO (list string) :=
  _ ← os_enter;
  r ← lookup_path (removelast p);
  match last p with
  | None => fail EINVAL
  | Some c => fs ← nodes; match fs !! (r.1 ++ [c]) with Some (NLink t) => mret t | Some _ => fail EINVAL | None => fail ErrNotExist end
  end.
Definition os_Symlink (target p : list string) : MO unit :=
  _ ← os_enter;
  r ← lookup_path (removelast p);
  match last p with
  | None => fail EEXIST
  | Some c => fs ← nodes; match fs !! (r.1 ++ [c]) with Some _ => fail EEXIST | None => put_node (r.1 ++ [c]) (NLink target) end
  end.

Definition os_Mkdir (p : list string) (perm : Z) : MO unit :=
  _ ← os_enter;
  r ← lookup_path p;
  match r.2 with Some _ => fail EEXIST | None => put_node r.1 (NDir (Z.land perm (Z.lnot os_umask))) end.

(** [os.MkdirAll]: the parents first. *)
Fixpoint mkdir_all (n : nat) (p : list string) (perm : Z) : MO unit :=
  dir ← try (os_Stat p);
  match dir with
  | inr d => if FI_IsDir d then mret tt else fail ENOTDIR
  | inl _ =>
      _ ← (match n with 0 => mret tt | S n' => mkdir_all n' (removelast p) perm end);
      r ← try (os_Mkdir p perm);
      match r with
      | inr _ => mret tt
      | inl err => l ← try (os_Lstat p); match l with inr i => if FI_IsDir i then mret tt else fail err | inl _ => fail err end
      end
  end.
Definition os_MkdirAll (p : list string) (perm : Z) : MO unit := mkdir_all (pred (length p)) p perm.

(** [ioutil.ReadDir]: the names in a directory, sorted. *)
Definition name_le (a b : string) : Prop := String.leb a b = true.
#[export] Instance name_le_dec a b : Decision (name_le a b) := decide (String.leb a b = true).
Definition names_in (fs : gmap (list string) node) (d : list string) : list string :=
  merge_sort name_le (omap (λ pn, match last pn.1 with
    | Some c => if decide (removelast pn.1 = d) then Some c else None | None => None end) (map_to_list fs)).
Definition ioutil_ReadDir (p : list string) : MO (list string) :=
  _ ← os_enter;
  r ← lookup_path p;
  match r.2 with
  | Some (NDir _) => fs ← nodes; mret (names_in fs r.1)
  | Some _ => fail ENOTDIR
  | None => fail ErrNotExist
  end.

(** Opening for reading, creating, copying from one to the other, the mode.  A
    descriptor is the path of the file. *)
Definition os_Open (p : list string) : MO (list string) :=
  _ ← os_enter;
  r ← lookup_path p;
  match r.2 with Some _ => mret r.1 | None => fail ErrNotExist end.
Definition os_Create (p : list string) : MO (list string) :=
  _ ← os_enter;
  r ← lookup_path p;
  match r.2 with
  | None => _ ← put_node r.1 (NFile (Z.land 438 (Z.lnot os_umask)) ""); mret r.1
  | Some (NFile m _) => _ ← put_node r.1 (NFile m ""); mret r.1
  | Some _ => fail EISDIR
  end.
Definition io_Copy (dst src : list string) : MO unit :=
  _ ← os_enter;
  fs ← nodes;
  match fs !! src, fs !! dst with
  | Some (NFile _ data), Some (NFile m _) => put_node dst (NFile m data)
  | _, _ => fail EISDIR
  end.
Definition os_Chmod (p : list string) (mode : Z) : MO unit :=
  _ ← os_enter;
  r ← lookup_path p;
  match r.2 with
  | Some (NFile _ data) => put_node r.1 (NFile mode data)
  | Some (NDir _) => put_node r.1 (NDir mode)
  | _ => fail ErrNotExist
  end.

(* ------------------------------------------------------------------ *)
(** ** The commands *)

Definition cpFile (src dst : list string) : MO unit :=
  srcfd ← os_Open src;
  dstfd ← os_Create dst;
  _ ← io_Copy dstfd srcfd;
  srcinfo ← os_Stat src;
  os_Chmod dst (FI_Mode srcinfo).

Definition copySymLink (source dest : list string) : MO unit :=
  link ← os_Readlink source;
  os_Symlink link dest.

(** What may go wrong with an entry of a directory. *)
Inductive cp_problem := NoFileInfo | NotCopied (srcfp dstfp : list string).
Definition path_text (p : list string) : string := "/" +:+ GoLib.Join p "/".
Definition cp_text (no_info not_copied : string) (p : cp_problem) : string :=
  match p with
  | NoFileInfo => no_info +:+ " get fileInfo; "
  | NotCopied s d => not_copied +:+ " to copy from " +:+ path_text s +:+ " to " +:+ path_text d +:+ "; "
  end.

(** One entry of the directory; [on_error] is what an error of the entry
    comes to, [copy] copies a directory. *)
Definition cp_entry (on_error : cp_problem → error → MO unit) (copy : list string → list string → MO unit)
    (src dst : list string) (name : string) : MO unit :=
  let srcfp := src ++ [name] in
  let dstfp := dst ++ [name] in
  i ← try (os_Stat srcfp);
  match i with
  | inl e => on_error NoFileInfo e
  | inr fileInfo =>
      r ← try (if FI_IsSymlink fileInfo then copySymLink srcfp dstfp
               else if FI_IsDir fileInfo then copy srcfp dstfp
               else cpFile srcfp dstfp);
      match r with inl e => on_error (NotCopied srcfp dstfp) e | inr _ => mret tt end
  end.

(** The recursion, [depth] directories deep: the copy of a deeper one never
    returns here. *)
Fixpoint cp_dir (on_error : cp_problem → error → MO unit) (depth : nat) (src dst : list string) : MO unit :=
  srcinfo ← os_Stat src;
  _ ← os_MkdirAll dst (FI_Mode srcinfo);
  fds ← ioutil_ReadDir src;
  for_each fds (cp_entry on_error
    (match depth with 0 => λ _ _, blocked | S depth' => cp_dir on_error depth' end) src dst).

(** The client returns the error, the servers exit ([log.Fatalf]). *)
Definition exit {A} (what : string) : MO A := panic ("exit: " +:+ what).
Definition return_error (p : cp_problem) (e : error) : MO unit := fail (Plain (cp_text "fouldn't" "failed" p +:+ error_text e)).
Definition exit_on (p : cp_problem) (e : error) : MO unit := exit (cp_text "Couldn't" "Failed" p +:+ error_text e).
Definition cpDir : nat → list string → list string → MO unit := cp_dir return_error.
Definition mgmt_cpDir : nat → list string → list string → MO unit := cp_dir exit_on.
Definition signal_cpDir : nat → list string → list string → MO unit := cp_dir exit_on.
Definition mgmt_cpFile : list string → list string → MO unit := cpFile.
Definition signal_cpFile : list string → list string → MO unit := cpFile.
Definition mgmt_copySymLink : list string → list string → MO unit := copySymLink.
Definition signal_copySymLink : list string → list string → MO unit := copySymLink.

Definition migrateToNetbird (oldPath newPath : list string) : MO bool :=
  errOld ← try (os_Stat oldPath);
  errNew ← try (os_Stat newPath);
  mret (negb (match errOld with inl e => bool_decide (e = ErrNotExist) | inr _ => false end ||
              match errNew with inr _ => true | inl _ => false end)).
Definition mgmt_migrateToNetbird : list string → list string → MO bool := migrateToNetbird.
Definition signal_migrateToNetbird : list string → list string → MO bool := migrateToNetbird.

(** One of the parts of [handleRebrand]: when the path is the default, and the
    new file is missing where the old is not, the directory is copied. *)
Definition rebrand (depth : nat) (cp : nat → list string → list string → MO unit) (is_default : bool)
    (oldFile newFile oldDir newDir : list string) : MO unit :=
  if is_default then
    m ← migrateToNetbird oldFile newFile;
    if m : bool then cp depth oldDir newDir else mret tt
  else mret tt.

Definition etc_old : list string := ["etc"; "wiretrustee"].
Definition etc_new : list string := ["etc"; "netbird"].
Definition log_old : list string := ["var"; "log"; "wiretrustee"].
Definition log_new : list string := ["var"; "log"; "netbird"].
Definition lib_old : list string := ["var"; "lib"; "wiretrustee"].
Definition lib_new : list string := ["var"; "lib"; "netbird"].

Definition handleRebrand (depth : nat) (logDefault configDefault : bool) : MO unit :=
  _ ← rebrand depth cpDir logDefault (log_old ++ ["client.log"]) (log_new ++ ["client.log"]) log_old log_new;
  rebrand depth cpDir configDefault (etc_old ++ ["config.json"]) (etc_new ++ ["config.json"]) etc_old etc_new.

Definition mgmt_handleRebrand (depth : nat) (logDefault configDefault dataDefault : bool) : MO unit :=
  _ ← rebrand depth mgmt_cpDir logDefault (log_old ++ ["management.log"]) (log_new ++ ["management.log"]) log_old log_new;
  _ ← rebrand depth mgmt_cpDir configDefault (etc_old ++ ["management.json"]) (etc_new ++ ["management.json"]) etc_old etc_new;
  rebrand depth mgmt_cpDir dataDefault lib_old lib_new lib_old lib_new.

(** The part of the signal server's [run]. *)
Definition signal_rebrand (depth : nat) (signalSSLDir : string) : MO unit :=
  if decide (signalSSLDir = "") then
    m ← signal_migrateToNetbird lib_old lib_new;
    if m : bool then
      r ← try (signal_cpDir depth lib_old lib_new);
      match r with inl err => exit (error_text err) | inr _ => mret tt end
    else mret tt
  else mret tt.
End os.

(* ------------------------------------------------------------------ *)
(** ** Properties *)

(** Links are followed to the end. *)
Lemma resolve_no_link links fs cur rest q :
  (∀ t, fs !! cur ≠ Some (NLink t)) → (∀ t, fs !! [] ≠ Some (NLink t)) →
  resolve links fs cur rest = inr q → ∀ t, fs !! q ≠ Some (NLink t).
Proof.
  intros Hcur Hroot. revert cur rest Hcur. induction links as [|links IH]; intros cur rest; revert cur;
    (induction rest as [|c rest IHr]; intros cur Hcur; simpl; [by intros [= <-]|]);
    destruct (fs !! (cur ++ [c])) as [[m d|m|t]|] eqn:Hc; simpl; try done.
  1,4: case_decide; [|done]; intros [= <-]; congruence.
  1,3: apply IHr; congruence.
  1,3: case_decide; [|done]; intros [= <-]; congruence.
  by apply IH.
Qed.
(** Writing to files, and making new ones, leaves what paths name. *)
Definition same_kind (n n' : node) : Prop :=
  match n, n' with NFile _ _, NFile _ _ => True | NDir _, NDir _ => True | NLink t, NLink t' => t = t' | _, _ => False end.
Definition more_files (fs fs' : gmap (list string) node) : Prop :=
  ∀ p n, fs !! p = Some n → ∃ n', fs' !! p = Some n' ∧ same_kind n n'.

Lemma resolve_more links fs fs' cur rest q :
  more_files fs fs' → is_Some (fs !! q) → resolve links fs cur rest = inr q → resolve links fs' cur rest = inr q.
Proof.
  intros Hmore [x Hx]. revert cur rest. induction links as [|links IH]; intros cur rest; revert cur;
    (induction rest as [|c rest IHr]; intros cur; [done|]); simpl;
    (destruct (fs !! (cur ++ [c])) as [n|] eqn:Hc; [|case_decide; [intros [= <-]; congruence|done]]);
    destruct (Hmore _ _ Hc) as (n' & -> & Hk); destruct n, n'; simpl in Hk; try done; try apply IHr.
  subst. apply IH.
Qed.
(** Making or rewriting a file leaves what its own path names. *)
Lemma resolve_put links fs cur rest q m d :
  (fs !! q = None ∨ ∃ m d, fs !! q = Some (NFile m d)) → resolve links fs cur rest = inr q →
  resolve links (<[q := NFile m d]> fs) cur rest = inr q.
Proof.
  intros Hq. revert cur rest. induction links as [|links IH]; intros cur rest; revert cur;
    (induction rest as [|c rest IHr]; intros cur; [done|]); simpl;
    (destruct (decide (cur ++ [c] = q)) as [<-|Hp];
      [rewrite lookup_insert_eq; destruct Hq as [->|(? & ? & ->)]; simpl; by case_decide|]);
    rewrite lookup_insert_ne by done; destruct (fs !! (cur ++ [c])) as [[| |]|]; simpl; auto.
Qed.
Arguments resolve : simpl never.

Section properties.
Context `{OsCalls}.
Implicit Types w : FsWorld.

(** The root is a directory that is not listed. *)
Definition rooted w : Prop := Fs_nodes w !! [] = None.

Lemma os_enter_spec w :
  wp os_enter (λ r w', Fs_nodes w' = Fs_nodes w ∧ Fs_calls w' = S (Fs_calls w) ∧
    match r with Ok _ => os_fault (Fs_calls w) = None | Err e => os_fault (Fs_calls w) = Some e | _ => False end) w.
Proof. unfold wp, os_enter. by destruct (os_fault (Fs_calls w)). Qed.

(** Looking something up: the call may fail; then links are resolved. *)
Lemma lookup_path_spec p w :
  wp (lookup_path p) (λ r w', w' = w ∧
    match resolve max_links (Fs_nodes w) [] p with
    | inl e => r = Err e
    | inr q => r = Ok (q, if decide (q = []) then Some (NDir 493) else Fs_nodes w !! q)
    end) w.
Proof. unfold lookup_path, nodes. wp_step. wp_step. simpl. destruct (resolve max_links (Fs_nodes w) [] p); by wp_step. Qed.

Lemma os_Stat_spec p w :
  wp (os_Stat p) (λ r w', Fs_nodes w' = Fs_nodes w ∧ Fs_calls w' = S (Fs_calls w) ∧
    match r with
    | Ok i => ∃ q n, resolve max_links (Fs_nodes w) [] p = inr q ∧ i = info_of n ∧
        (if decide (q = []) then n = NDir 493 else Fs_nodes w !! q = Some n)
    | Err e => os_fault (Fs_calls w) = Some e ∨ resolve max_links (Fs_nodes w) [] p = inl e ∨
        (e = ErrNotExist ∧ ∃ q, resolve max_links (Fs_nodes w) [] p = inr q ∧ q ≠ [] ∧ Fs_nodes w !! q = None)
    | _ => False
    end) w.
Proof.
  unfold os_Stat. wp_step. eapply wp_mono; [apply os_enter_spec|]. intros [[]|e|s|] w1 (En & Ec & Hr); simpl; try done; [|auto].
  wp_step. eapply wp_mono; [apply lookup_path_spec|]. rewrite En. intros r w2 [-> Hr2].
  destruct (resolve max_links (Fs_nodes w) [] p) as [e|q] eqn:Hq; rewrite Hr2; simpl; [by eauto|].
  case_decide as Hroot; [wp_step; do 2 (split; [done|]); exists q, (NDir 493); by rewrite decide_True|].
  destruct (Fs_nodes w !! q) as [n|] eqn:Hn; wp_step; do 2 (split; [done|]).
  - exists q, n. by rewrite decide_False.
  - right. right. split; [done|]. by exists q.
Qed.

(** [os.Stat] never shows a link, so the case that copies one is dead. *)
Lemma os_Stat_no_link p w :
  rooted w → wp (os_Stat p) (λ r _, ∀ i, r = Ok i → FI_IsSymlink i = false) w.
Proof.
  intros Hroot. eapply wp_mono; [apply os_Stat_spec|]. intros r w' (_ & _ & Hr) i ->.
  destruct Hr as (q & n & Hq & -> & Hn). destruct n; try done. exfalso. case_decide; [done|].
  eapply resolve_no_link; [| |exact Hq|exact Hn]; intros t; by rewrite Hroot.
Qed.

(** What the decision whether to copy rests on. *)
Lemma migrateToNetbird_spec oldPath newPath w :
  wp (migrateToNetbird oldPath newPath) (λ r w', Fs_nodes w' = Fs_nodes w ∧
    ∃ b : bool, r = Ok b ∧ (b = true → os_fault (S (Fs_calls w)) = None →
      ∀ q, resolve max_links (Fs_nodes w) [] newPath = inr q → q ≠ [] ∧ Fs_nodes w !! q = None)) w.
Proof.
  unfold migrateToNetbird. wp_step. wp_step. eapply wp_mono; [apply os_Stat_spec|].
  assert (∀ (c : bool) w1, Fs_nodes w1 = Fs_nodes w → Fs_calls w1 = S (Fs_calls w) →
    wp (errNew ← try (os_Stat newPath);
        mret (negb (c || match errNew with inr _ => true | inl _ => false end)))
      (λ r w', Fs_nodes w' = Fs_nodes w ∧
        ∃ b : bool, r = Ok b ∧ (b = true → os_fault (S (Fs_calls w)) = None →
          ∀ q, resolve max_links (Fs_nodes w) [] newPath = inr q → q ≠ [] ∧ Fs_nodes w !! q = None)) w1) as Hnew.
  { intros c w1 E1 C1. wp_step. wp_step. eapply wp_mono; [apply os_Stat_spec|]. rewrite E1, C1.
    intros [i|e|s|] w2 (E2 & _ & Hr2); simpl; try done; wp_step; (split; [done|]); eexists; (split; [done|]).
    - by rewrite orb_true_r.
    - intros _ Hf q Hq. destruct Hr2 as [?|[?|(_ & q' & Hq' & Hne & Hn)]]; [congruence..|]. assert (q' = q) as -> by congruence. done. }
  intros [i1|e1|s|] w1 (E1 & C1 & Hr1); simpl; try done; [apply (Hnew false)|apply (Hnew (bool_decide (e1 = ErrNotExist)))]; done.
Qed.

(** An existing new configuration is never touched: when the new file is
    there and can be looked at, the step of [handleRebrand] that would carry
    over its directory changes no file, whatever the old directory holds. *)
Theorem rebrand_keeps_new depth cp is_default oldFile newFile oldDir newDir w q n :
  resolve max_links (Fs_nodes w) [] newFile = inr q → Fs_nodes w !! q = Some n → os_fault (S (Fs_calls w)) = None →
  wp (rebrand depth cp is_default oldFile newFile oldDir newDir) (λ r w', r = Ok tt ∧ Fs_nodes w' = Fs_nodes w) w.
Proof.
  intros Hq Hn Hf. unfold rebrand. destruct is_default; [|by wp_step]. wp_step.
  eapply wp_mono; [apply migrateToNetbird_spec|]. intros r w' (En & b & -> & Hb). simpl. destruct b; [|by wp_step].
  destruct (Hb eq_refl Hf q Hq) as [_ Hx]. congruence.
Qed.

End properties.


Section calls_ok.
Context `{OsCalls}.
Implicit Types w : FsWorld.

Lemma lookup_path_ok p w r w1 :
  (_ ← os_enter; lookup_path p) w = (Ok r, w1) →
  Fs_nodes w1 = Fs_nodes w ∧ resolve max_links (Fs_nodes w) [] p = inr r.1 ∧
  r.2 = if decide (r.1 = []) then Some (NDir 493) else Fs_nodes w !! r.1.
Proof.
  intros ([] & w0 & He & Hl)%bind_ok_inv. pose proof (os_enter_spec w) as Hs. unfold wp in Hs. rewrite He in Hs.
  destruct Hs as (En & _ & _). simpl in En. pose proof (lookup_path_spec p w0) as Hp. unfold wp in Hp. rewrite Hl in Hp. simpl in Hp.
  rewrite En in Hp. destruct Hp as [-> Hp]. destruct (resolve _ _ _ _) as [e|q] eqn:Hq; simplify_eq. by split.
Qed.

(** The calls of [cpFile] that succeed. *)
Lemma os_Open_ok p w q w1 :
  os_Open p w = (Ok q, w1) → Fs_nodes w1 = Fs_nodes w ∧ resolve max_links (Fs_nodes w) [] p = inr q.
Proof.
  unfold os_Open. intros ([] & w0 & He & (r & w2 & Hl & Hr)%bind_ok_inv)%bind_ok_inv.
  destruct (lookup_path_ok p w r w2) as (En & Hres & _); [by erewrite bind_run by exact He|].
  destruct r.2; [|done]. injection Hr as <- <-. done.
Qed.

Lemma os_Create_ok p w q w1 :
  os_Create p w = (Ok q, w1) → resolve max_links (Fs_nodes w) [] p = inr q ∧ q ≠ [] ∧
  (∃ m, Fs_nodes w1 = <[q := NFile m ""]> (Fs_nodes w)) ∧
  (Fs_nodes w !! q = None ∨ ∃ m d, Fs_nodes w !! q = Some (NFile m d)).
Proof.
  unfold os_Create. intros ([] & w0 & He & (r & w2 & Hl & Hr)%bind_ok_inv)%bind_ok_inv.
  destruct (lookup_path_ok p w r w2) as (En & Hres & Hn); [by erewrite bind_run by exact He|].
  case_decide; rewrite Hn in Hr; [done|]. destruct (Fs_nodes w !! r.1) as [[m d|m|t]|] eqn:Hx; try done;
    injection Hr as <- <-; simpl; rewrite En; eauto 10.
Qed.

Lemma io_Copy_ok dst src w w1 :
  io_Copy dst src w = (Ok tt, w1) → ∃ m data m' d',
    Fs_nodes w !! src = Some (NFile m data) ∧ Fs_nodes w !! dst = Some (NFile m' d') ∧
    Fs_nodes w1 = <[dst := NFile m' data]> (Fs_nodes w).
Proof.
  unfold io_Copy, nodes. intros ([] & w0 & He & (fs & w2 & [= <- <-] & Hr)%bind_ok_inv)%bind_ok_inv.
  pose proof (os_enter_spec w) as Hs. unfold wp in Hs. rewrite He in Hs. destruct Hs as (En & _ & _). simpl in En.
  rewrite En in Hr. destruct (Fs_nodes w !! src) as [[m d|m|t]|]; try done.
  destruct (Fs_nodes w !! dst) as [[m' d'|m'|t']|]; try done. injection Hr as <-. simpl. rewrite En. eauto 10.
Qed.

Lemma os_Stat_ok p w i w1 :
  os_Stat p w = (Ok i, w1) → Fs_nodes w1 = Fs_nodes w ∧
    ∀ q n, resolve max_links (Fs_nodes w) [] p = inr q → q ≠ [] → Fs_nodes w !! q = Some n → i = info_of n.
Proof.
  intros Hr. pose proof (os_Stat_spec p w) as Hs. unfold wp in Hs. rewrite Hr in Hs.
  destruct Hs as (En & _ & q & n & Hq & -> & Hn). split; [done|]. intros q' n' Hq' Hne Hn'.
  assert (q' = q) as -> by congruence. rewrite decide_False in Hn by done. congruence.
Qed.

Lemma os_Chmod_ok p mode w w1 q m d :
  os_Chmod p mode w = (Ok tt, w1) → resolve max_links (Fs_nodes w) [] p = inr q → q ≠ [] →
  Fs_nodes w !! q = Some (NFile m d) → Fs_nodes w1 = <[q := NFile mode d]> (Fs_nodes w).
Proof.
  unfold os_Chmod. intros ([] & w0 & He & (r & w2 & Hl & Hr)%bind_ok_inv)%bind_ok_inv Hq Hne Hn.
  destruct (lookup_path_ok p w r w2) as (En & Hres & Hn2); [by erewrite bind_run by exact He|].
  assert (r.1 = q) as Hrq by congruence. rewrite Hrq in Hn2, Hr. rewrite decide_False in Hn2 by done. rewrite Hn2, Hn in Hr.
  injection Hr as <-. simpl. by rewrite En.
Qed.
End calls_ok.

(** A copy that succeeds gives the new file the contents and the mode of
    the old one, and changes no other file. *)
Theorem cpFile_copies `{OsCalls} src dst w w' :
  rooted w →
  (∀ qs, resolve max_links (Fs_nodes w) [] src = inr qs → resolve max_links (Fs_nodes w) [] dst ≠ inr qs) →
  cpFile src dst w = (Ok tt, w') →
  ∃ qs qd mode data, resolve max_links (Fs_nodes w) [] src = inr qs ∧ resolve max_links (Fs_nodes w) [] dst = inr qd ∧
    Fs_nodes w !! qs = Some (NFile mode data) ∧ Fs_nodes w' !! qd = Some (NFile mode data) ∧
    ∀ q, q ≠ qd → Fs_nodes w' !! q = Fs_nodes w !! q.
Proof.
  intros Hw Hne Hrun. unfold cpFile in Hrun.
  apply bind_ok_inv in Hrun as (qs & w1 & Ho & Hrun). apply os_Open_ok in Ho as [E1 Hqs].
  apply bind_ok_inv in Hrun as (qd & w2 & Hc & Hrun). apply os_Create_ok in Hc as (Hqd & Hroot & [m0 E2] & Hold).
  rewrite E1 in Hqd, E2, Hold. apply bind_ok_inv in Hrun as ([] & w3 & Hcp & Hrun).
  apply io_Copy_ok in Hcp as (m & data & m' & d' & Hs & Hd & E3).
  apply bind_ok_inv in Hrun as (i & w4 & Hst & Hch). apply os_Stat_ok in Hst as [E4 Hi].
  assert (qs ≠ qd) as Hneq by (intros ->; by eapply Hne).
  rewrite E2, lookup_insert_ne in Hs by done. rewrite E2, lookup_insert_eq in Hd. injection Hd as <- <-.
  assert (Fs_nodes w3 = <[qd := NFile m0 data]> (Fs_nodes w)) as E3' by (by rewrite E3, E2, insert_insert_eq).
  assert (more_files (Fs_nodes w) (Fs_nodes w3)) as Hmore.
  { intros p n Hn. rewrite E3'. destruct (decide (p = qd)) as [->|Hp].
    - rewrite lookup_insert_eq. eexists. split; [done|]. destruct Hold as [?|(? & ? & ?)]; [congruence|].
      assert (n = NFile x x0) as -> by congruence. done.
    - rewrite lookup_insert_ne by done. exists n. split; [done|]. by destruct n. }
  assert (Fs_nodes w3 !! qs = Some (NFile m data)) as Hs3 by (by rewrite E3', lookup_insert_ne).
  exists qs, qd, m, data. split; [done|]. split; [done|]. split; [done|].
  assert (qs ≠ []) as Hsroot.
  { intros ->. unfold rooted in Hw. congruence. }
  assert (i = info_of (NFile m data)) as ->.
  { eapply Hi; [|done|exact Hs3]. eapply resolve_more; [done|by eexists|]. done. }
  rewrite (os_Chmod_ok dst m w4 w' qd m0 data) ; [|done|rewrite E4, E3'; by apply resolve_put|done|by rewrite E4, E3', lookup_insert_eq].
  rewrite E4, E3', insert_insert_eq. split; [by rewrite lookup_insert_eq|]. intros q Hq. by rewrite lookup_insert_ne.
Qed.

(* ------------------------------------------------------------------ *)
(** ** Example: a configuration of the old name *)

(** Every call succeeds but the one with the given number. *)
#[local] Instance calls_but (bad : option nat) : OsCalls := {|
  os_fault := λ n, if decide (bad = Some n) then Some (Plain "input/output error") else None;
  os_umask := 18 |}.

Abbreviation old_files := (mkFs (list_to_map [
  (["etc"], NDir 493); (["etc"; "wiretrustee"], NDir 448);
  (["etc"; "wiretrustee"; "config.json"], NFile 384 "{}");
  (["etc"; "wiretrustee"; "keys"], NDir 448);
  (["etc"; "wiretrustee"; "keys"; "private"], NFile 256 "key");
  (["etc"; "wiretrustee"; "current"], NLink ["etc"; "wiretrustee"; "config.json"])]) 0).

(** The whole directory is carried over, a link as the file it leads to. *)
Example handleRebrand_run :
  let run := handleRebrand (H := calls_but None) 3 true true old_files in
  run.1 = Ok tt ∧
  Fs_nodes run.2 !! ["etc"; "netbird"; "config.json"] = Some (NFile 384 "{}") ∧
  Fs_nodes run.2 !! ["etc"; "netbird"; "keys"; "private"] = Some (NFile 256 "key") ∧
  Fs_nodes run.2 !! ["etc"; "netbird"; "keys"] = Some (NDir 448) ∧
  Fs_nodes run.2 !! ["etc"; "netbird"; "current"] = Some (NFile 384 "{}").
Proof. vm_compute. by repeat split. Qed.

Abbreviation both_files := (mkFs (<[["etc"; "netbird"]:=NDir 493]> (<[["etc"; "netbird"; "config.json"]:=NFile 384 "new"]> (Fs_nodes old_files))) 0).
Lemma rebrand_keeps_new_witness :
  wp (rebrand (H := calls_but None) 3 (cpDir (H := calls_but None)) true (etc_old ++ ["config.json"]) (etc_new ++ ["config.json"]) etc_old etc_new)
    (λ r w', r = Ok tt ∧ Fs_nodes w' = Fs_nodes both_files) both_files.
Proof.
  apply (rebrand_keeps_new (H := calls_but None) _ _ _ _ _ _ _ _ ["etc"; "netbird"; "config.json"] (NFile 384 "new"));
    vm_compute; reflexivity.
Defined.

Abbreviation copied := (cpFile (H := calls_but None) ["etc"; "wiretrustee"; "current"] ["etc"; "copy"] old_files).
Lemma cpFile_copies_witness :
  ∃ qs qd mode data, resolve max_links (Fs_nodes old_files) [] ["etc"; "wiretrustee"; "current"] = inr qs ∧
    resolve max_links (Fs_nodes old_files) [] ["etc"; "copy"] = inr qd ∧
    Fs_nodes old_files !! qs = Some (NFile mode data) ∧ Fs_nodes copied.2 !! qd = Some (NFile mode data) ∧
    ∀ q, q ≠ qd → Fs_nodes copied.2 !! q = Fs_nodes old_files !! q.
Proof.
  apply (cpFile_copies (H := calls_but None)).
  - vm_compute. reflexivity.
  - intros qs Hqs. assert (resolve max_links (Fs_nodes old_files) [] ["etc"; "wiretrustee"; "current"]
      = inr ["etc"; "wiretrustee"; "config.json"]) as Heq by (vm_compute; reflexivity).
    rewrite Heq in Hqs. injection Hqs as <-. vm_compute. discriminate.
  - vm_compute. reflexivity.
Defined.
