(* ===== verification/JsonFile.v ===== *)
(** * JsonFile: writing and reading JSON files (util/file.go)

    Configurations and the store of accounts are written by one function, over
    a temporary file that is then renamed.  The file system is that of
    [Files]; here also the process may be killed at a call, which leaves the
    file system as it is at that moment. *)

From S2P Require Import Prelude GoLib Model Files.

(** What a process does not decide: the random part of a temporary file's
    name, how much of a write reaches the file when it fails, and the call at
    which the process is killed. *)
Class Process := { tmp_random : nat → string; short_write : nat → nat; killed : nat → bool }.

Fixpoint string_take (n : nat) (s : string) : string :=
  match n, s with S n', String a s' => String a (string_take n' s') | _, _ => "" end.

(** [filepath.Split]: the directory, [None] when the name has none, and the
    last element.  A path that starts at the working directory is the same as
    one that starts at the root. *)
Record FilePath := mkPath { Path_Dir : option (list string); Path_Base : string }.
Definition dir_of (p : FilePath) : list string := default [] (Path_Dir p).
Definition path_of (p : FilePath) : list string := dir_of p ++ [Path_Base p].

Section os.
Context `{OsCalls, Process}.
Abbreviation MO := (M FsWorld).

(** A killed process does nothing more, no deferred call either. *)
Definition call {A} (m : MO A) : MO A := λ w, if killed (Fs_calls w) then (Blocked, w) else m w.

(** The entry a path names: links of its directory are followed, the last
    component is not. *)
Definition entry_of (p : list string) : MO (list string * option node) :=
  r ← lookup_path (removelast p);
  match r.2, last p with
  | Some (NDir _), Some c => fs ← nodes; mret (r.1 ++ [c], fs !! (r.1 ++ [c]))
  | Some _, Some _ => fail ENOTDIR
  | None, Some _ => fail ErrNotExist
  | _, None => fail EINVAL
  end.

(** [os.OpenFile] with O_CREATE|O_EXCL: a new entry or an error. *)
Definition os_OpenExcl (p : list string) (perm : Z) : MO unit :=
  _ ← os_enter;
  e ← entry_of p;
  match e.2 with
  | Some _ => fail EEXIST
  | None => put_node e.1 (NFile (Z.land perm (Z.lnot os_umask)) "")
  end.
(** [os.OpenFile] with O_WRONLY|O_CREATE|O_TRUNC, and [File.Write], a part of
    which is done when it fails. *)
Definition os_OpenTrunc (p : list string) (perm : Z) : MO (list string) :=
  _ ← os_enter;
  r ← lookup_path p;
  match r.2 with
  | None => _ ← put_node r.1 (NFile (Z.land perm (Z.lnot os_umask)) ""); mret r.1
  | Some (NFile m _) => _ ← put_node r.1 (NFile m ""); mret r.1
  | Some _ => fail EISDIR
  end.
Definition os_Write (fd : list string) (data : string) : MO unit :=
  n ← gets Fs_calls;
  done ← try os_enter;
  fs ← nodes;
  match fs !! fd with
  | Some (NFile m old) =>
      match done with
      | inr _ => put_node fd (NFile m (old +:+ data))
      | inl e => _ ← put_node fd (NFile m (old +:+ string_take (short_write n) data)); fail e
      end
  | _ => fail EINVAL
  end.
Definition os_Close : MO unit := os_enter.
(** [File.Read] of all that is in the file. *)
Definition os_ReadAll (fd : list string) : MO string :=
  _ ← os_enter;
  fs ← nodes;
  match fs !! fd with Some (NFile _ data) => mret data | Some _ => fail EISDIR | None => fail EINVAL end.
Definition os_Remove (p : list string) : MO unit :=
  _ ← os_enter;
  e ← entry_of p;
  match e.2 with
  | Some (NDir _) => fail EISDIR
  | Some _ => modify (λ w, mkFs (delete e.1 (Fs_nodes w)) (Fs_calls w))
  | None => fail ErrNotExist
  end.
(** [os.Rename] of a file: it takes the place of what has the new name, a link
    too, unless that is a directory. *)
Definition os_Rename (old new : list string) : MO unit :=
  _ ← os_enter;
  o ← entry_of old;
  n ← entry_of new;
  match n.2, o.2 with
  | Some (NDir _), _ => fail EEXIST
  | _, Some (NDir m) => fail ENOTDIR
  | _, Some x => modify (λ w, mkFs (<[n.1 := x]> (delete o.1 (Fs_nodes w))) (Fs_calls w))
  | _, None => fail ErrNotExist
  end.

(** [ioutil.TempFile] with the pattern ".*" and a name: it tries other random
    names while the one it has exists. *)
Definition temp_name (n : nat) (base : string) : string := "." +:+ tmp_random n +:+ base.
Fixpoint temp_file (tries : nat) (dir : list string) (base : string) : MO string :=
  n ← gets Fs_calls;
  r ← try (os_OpenExcl (dir ++ [temp_name n base]) 384);
  match r with
  | inr _ => mret (temp_name n base)
  | inl e =>
      if decide (e = EEXIST) then match tries with 0 => fail EEXIST | S tries' => temp_file tries' dir base end
      else fail e
  end.
Definition max_tries : nat := N.to_nat 9999.
Definition ioutil_TempFile (dir : list string) (base : string) : MO string := temp_file max_tries dir base.

(** [ioutil.WriteFile]: open, write, close; the first error counts. *)
Definition ioutil_WriteFile (p : list string) (data : string) (perm : Z) : MO unit :=
  fd ← call (os_OpenTrunc p perm);
  r ← try (call (os_Write fd data));
  c ← try (call os_Close);
  match r, c with
  | inl e, _ => fail e
  | inr _, inl e => fail e
  | inr _, inr _ => mret tt
  end.

(* ------------------------------------------------------------------ *)
(** ** util/file.go *)

(** [defer f()]: [f] runs when [m] returns, with a value or an error. *)
Definition deferred {A} (f : MO unit) (m : MO A) : MO A :=
  r ← try m;
  _ ← f;
  match r with inr a => mret a | inl e => fail e end.

(** Removes the temporary file when it is still there; errors are dropped. *)
Definition remove_temp (p : list string) : MO unit :=
  s ← try (call (os_Stat p));
  match s with
  | inr _ => _ ← try (call (os_Remove p)); mret tt
  | inl _ => mret tt
  end.

(** The text of the object, or the error of [json.MarshalIndent]. *)
Definition util_WriteJson (file : FilePath) (obj : error + string) : MO unit :=
  _ ← call (match Path_Dir file with
            | Some d => os_MkdirAll d 488
            | None => _ ← os_enter; fail ErrNotExist   (* mkdir "" *)
            end);
  bs ← (match obj with inr bs => mret bs | inl e => fail e end);
  tempFile ← call (ioutil_TempFile (dir_of file) (Path_Base file));
  let tempFileName := dir_of file ++ [tempFile] in
  _ ← call os_Close;
  deferred (remove_temp tempFileName)
    (_ ← ioutil_WriteFile tempFileName bs 384;
     call (os_Rename tempFileName (path_of file))).

(** [ReadJson]: [decode] is [json.Unmarshal] into the object. *)
Definition util_ReadJson {A} (file : FilePath) (decode : string → error + A) : MO A :=
  f ← call (os_Open (path_of file));
  deferred (_ ← try (call os_Close); mret tt)
    (bs ← call (os_ReadAll f);
     match decode bs with inr a => mret a | inl e => fail e end).

(** [CopyFileContents]: the error of closing counts when there is no other. *)
Definition CopyFileContents (src dst : list string) : MO unit :=
  inp ← call (os_Open src);
  deferred (_ ← try (call os_Close); mret tt)
    (out ← call (os_Create dst);
     r ← try (_ ← call (io_Copy out inp); call os_enter (* Sync *));
     c ← try (call os_Close);
     match r, c with
     | inl e, _ => fail e
     | inr _, inl e => fail e
     | inr _, inr _ => mret tt
     end).
End os.

(* ------------------------------------------------------------------ *)
(** ** Properties *)

(** Nothing is changed but that directories are made. *)
Definition only_dirs (fs fs' : gmap (list string) node) : Prop :=
  ∀ p, fs' !! p = fs !! p ∨ (fs !! p = None ∧ ∃ m, fs' !! p = Some (NDir m)).
#[export] Instance only_dirs_refl : Reflexive only_dirs.
Proof. by left. Qed.
#[export] Instance only_dirs_trans : Transitive only_dirs.
Proof.
  intros fs fs1 fs2 H1 H2 p. destruct (H1 p) as [E1|[N1 [m E1]]]; destruct (H2 p) as [E2|[N2 [m' E2]]].
  - left. congruence.
  - right. split; [congruence|eauto].
  - right. split; [done|]. exists m. congruence.
  - congruence.
Qed.

(** One step of the lookup of a path. *)
Lemma resolve_nil links fs cur : resolve links fs cur [] = inr cur.
Proof. by destruct links. Qed.
Lemma resolve_cons links fs cur c rest :
  resolve links fs cur (c :: rest) =
  match fs !! (cur ++ [c]) with
  | None => if decide (rest = []) then inr (cur ++ [c]) else inl ErrNotExist
  | Some (NLink target) => match links with 0 => inl ELOOP | S links' => resolve links' fs [] (target ++ rest) end
  | Some (NFile _ _) => if decide (rest = []) then inr (cur ++ [c]) else inl ENOTDIR
  | Some (NDir _) => resolve links fs (cur ++ [c]) rest
  end.
Proof. by destruct links. Qed.
(** Induction over the links that may be followed and the rest of the path. *)
Ltac resolve_ind cur rest :=
  match goal with |- context [resolve ?l _ _ _] => revert cur rest; induction l as [|links IH] end;
  intros cur rest; revert cur; induction rest as [|c0 rest IHr]; intros cur.

(** A new entry leads a path elsewhere only if it is where the path led. *)
Lemma resolve_new links fs p n cur rest r :
  fs !! p = None → r ≠ p → resolve links fs cur rest = inr r → resolve links (<[p := n]> fs) cur rest = inr r.
Proof.
  intros Hp Hr. resolve_ind cur rest; rewrite ?resolve_nil, ?resolve_cons; try done;
    (destruct (decide (cur ++ [c0] = p)) as [Hc|Hc];
      [rewrite Hc, Hp; case_decide; [intros [= <-]; congruence|done]|]);
    rewrite lookup_insert_ne by done; destruct (fs !! (cur ++ [c0])) as [[| |]|]; auto.
Qed.
(** So does a file in the place of another. *)
Lemma resolve_over links fs p m d cur rest r :
  (∀ t, fs !! p ≠ Some (NLink t)) → (∀ m, fs !! p ≠ Some (NDir m)) → r ≠ p →
  resolve links fs cur rest = inr r → resolve links (<[p := NFile m d]> fs) cur rest = inr r.
Proof.
  intros Hl Hd Hr. resolve_ind cur rest; rewrite ?resolve_nil, ?resolve_cons; try done;
    (destruct (decide (cur ++ [c0] = p)) as [Hc|Hc];
      [rewrite Hc; destruct (fs !! p) as [[| m'|t]|]; try (by edestruct Hd); try (by edestruct Hl);
       (case_decide; [intros [= <-]; congruence|done])|]);
    rewrite lookup_insert_ne by done; destruct (fs !! (cur ++ [c0])) as [[| |]|]; auto.
Qed.
(** A file put in leads a path to itself, or the path leads where it led. *)
Lemma resolve_file links fs q m d cur rest r :
  resolve links (<[q := NFile m d]> fs) cur rest = inr r → r = q ∨ resolve links fs cur rest = inr r.
Proof.
  resolve_ind cur rest; rewrite ?resolve_nil, ?resolve_cons; auto;
    (destruct (decide (cur ++ [c0] = q)) as [<-|Hc];
      [rewrite lookup_insert_eq; case_decide; [intros [= <-]; by left|done]|]);
    rewrite lookup_insert_ne by done; destruct (fs !! (cur ++ [c0])) as [[| |]|]; auto.
Qed.
(** The last component, when what is before it is a directory. *)
Definition is_dir (fs : gmap (list string) node) (d : list string) : Prop := d = [] ∨ ∃ m, fs !! d = Some (NDir m).
Lemma resolve_one links fs d c :
  (∀ t, fs !! (d ++ [c]) ≠ Some (NLink t)) → resolve links fs d [c] = inr (d ++ [c]).
Proof.
  intros Hc. rewrite resolve_cons. destruct (fs !! (d ++ [c])) as [[| |t]|] eqn:E; rewrite ?resolve_nil; try done.
  by destruct (Hc t).
Qed.
Lemma resolve_snoc links fs cur rest d c :
  resolve links fs cur rest = inr d → is_dir fs d →
  (∀ t, fs !! (d ++ [c]) ≠ Some (NLink t)) → resolve links fs cur (rest ++ [c]) = inr (d ++ [c]).
Proof.
  intros Hres Hd Hc. revert Hres. resolve_ind cur rest; simpl;
    rewrite ?resolve_nil, ?resolve_cons; try (intros [= ->]; rewrite <-resolve_cons; by apply resolve_one).
  all: destruct (fs !! (cur ++ [c0])) as [[m x|m|t]|] eqn:E; try case_decide; try done; auto.
  all: try (intros [= <-]; destruct Hd as [?|[? ?]]; [by destruct cur|congruence]).
  rewrite app_assoc. apply IH.
Qed.

Section properties.
Context `{OsCalls, Process}.
Implicit Types w : FsWorld.

Lemma wp_call {A} (m : M FsWorld A) Q w : Q Blocked w → wp m Q w → wp (call m) Q w.
Proof. unfold wp, call. by destruct (killed (Fs_calls w)). Qed.
(** A call that comes back, with a value or an error. *)
Definition returns {A} (r : Res A) : Prop := match r with Ok _ | Err _ => True | _ => False end.
(** A call that fails at once leaves the files. *)
Lemma enter_nodes w : wp os_enter (λ r w', Fs_nodes w' = Fs_nodes w ∧ returns r) w.
Proof. eapply wp_mono; [apply os_enter_spec|]. intros [] w' (? & ? & ?); by split. Qed.

(** Making directories: whatever happens, only directories are new. *)
Lemma Mkdir_dirs p perm w : wp (os_Mkdir p perm) (λ r w', only_dirs (Fs_nodes w) (Fs_nodes w') ∧ returns r) w.
Proof.
  unfold os_Mkdir, put_node. wp_step. eapply wp_mono; [apply enter_nodes|]. intros [[]|e|s|] w1 [E1 Hr]; simpl; rewrite ?E1; try done.
  wp_step. eapply wp_mono; [apply lookup_path_spec|]. rewrite E1. intros r w2 [-> Hq].
  destruct (resolve _ _ _ _) as [e|q]; rewrite Hq; simpl; [by rewrite E1|].
  case_decide; simpl; [wp_step; by rewrite E1|]. destruct (Fs_nodes w !! q) eqn:Hn; wp_step; rewrite E1; [done|]. split; [|done].
  intros p'. destruct (decide (p' = q)) as [->|]; [right; split; [done|]; rewrite lookup_insert_eq; eauto|].
  left. by rewrite lookup_insert_ne.
Qed.
Lemma Stat_returns p w : wp (os_Stat p) (λ r w', Fs_nodes w' = Fs_nodes w ∧ returns r) w.
Proof. eapply wp_mono; [apply os_Stat_spec|]. intros [] w' (? & ? & ?); by split. Qed.
Lemma Lstat_returns p w : wp (os_Lstat p) (λ r w', Fs_nodes w' = Fs_nodes w ∧ returns r) w.
Proof.
  unfold os_Lstat. wp_step. eapply wp_mono; [apply enter_nodes|]. intros [[]|e|s|] w1 [E1 Hr]; simpl; try done.
  wp_step. eapply wp_mono; [apply lookup_path_spec|]. intros r w2 [-> Hq].
  destruct (resolve _ _ _ _) as [e|q]; rewrite Hq; simpl; [done|]. unfold nodes. by wp_go.
Qed.
Lemma mkdir_one_dirs p perm w :
  wp (r ← try (os_Mkdir p perm);
      match r with
      | inr _ => mret tt
      | inl err => l ← try (os_Lstat p); match l with inr i => if FI_IsDir i then mret tt else fail err | inl _ => fail err end
      end) (λ r w', only_dirs (Fs_nodes w) (Fs_nodes w') ∧ returns r) w.
Proof.
  wp_step. wp_step. eapply wp_mono; [apply Mkdir_dirs|]. intros [[]|e|s|] w1 [H1 Hr]; simpl; try done.
  wp_step. wp_step. eapply wp_mono; [apply Lstat_returns|]. intros [i|e'|s|] w2 [E2 Hr2]; simpl; rewrite <-?E2 in H1; try done; by wp_go.
Qed.
Lemma mkdir_all_dirs n p perm w : wp (mkdir_all n p perm) (λ r w', only_dirs (Fs_nodes w) (Fs_nodes w') ∧ returns r) w.
Proof.
  revert p w. induction n as [|n IH]; intros p w; simpl; wp_step; wp_step; (eapply wp_mono; [apply Stat_returns|]);
    (intros [i|e|s|] w1 [E1 Hr]; simpl; try done; [destruct (FI_IsDir i); wp_step; by rewrite E1|]).
  all: wp_step; rewrite <-E1.
  - wp_step. apply mkdir_one_dirs.
  - eapply wp_mono; [apply IH|]. intros [[]|e1|s|] w2 [H2 Hr2]; simpl; try done.
    eapply wp_mono; [apply mkdir_one_dirs|]. intros r w3 [H3 Hr3]. split; [by etrans|done].
Qed.

(** The entry of a path: in the directory its directory part leads to. *)
Lemma entry_of_spec dir c w :
  wp (entry_of (dir ++ [c])) (λ r w', w' = w ∧
    match r with
    | Ok e => ∃ d, resolve max_links (Fs_nodes w) [] dir = inr d ∧ is_dir (Fs_nodes w) d ∧
        e = (d ++ [c], Fs_nodes w !! (d ++ [c]))
    | Err _ => True
    | _ => False
    end) w.
Proof.
  unfold entry_of. wp_step. rewrite removelast_last. eapply wp_mono; [apply lookup_path_spec|]. intros r w1 [-> Hr].
  destruct (resolve _ _ _ _) as [e|d] eqn:Hd; rewrite Hr; simpl; [done|]. rewrite last_snoc.
  assert (is_dir (Fs_nodes w) d ∨ ∀ m, Fs_nodes w !! d ≠ Some (NDir m)) as Hdir.
  { destruct (Fs_nodes w !! d) as [[| m |]|] eqn:E; [by right|left; right; eauto|by right|by right]. }
  case_decide as Hroot; simpl.
  - unfold nodes. wp_go. split; [done|]. exists d. split_and!; [done|by left|done].
  - destruct (Fs_nodes w !! d) as [[| m |]|] eqn:E; unfold nodes; wp_go; try done.
    split; [done|]. exists d. split_and!; [done| |done]. right. eauto.
Qed.
End properties.

Section writing.
Context `{OsCalls, Process}.
Implicit Types w : FsWorld.

Lemma TempFile_spec dir base w :
  wp (ioutil_TempFile dir base) (λ r w',
    match r with
    | Ok t => ∃ n d, t = temp_name n base ∧ resolve max_links (Fs_nodes w) [] dir = inr d ∧ is_dir (Fs_nodes w) d ∧
        Fs_nodes w !! (d ++ [t]) = None ∧
        Fs_nodes w' = <[d ++ [t] := NFile (Z.land 384 (Z.lnot os_umask)) ""]> (Fs_nodes w)
    | Err _ => Fs_nodes w' = Fs_nodes w
    | _ => False
    end) w.
Proof.
  unfold ioutil_TempFile. generalize max_tries as tries. intros tries. revert w.
  assert (∀ n w, wp (os_OpenExcl (dir ++ [temp_name n base]) 384) (λ r w',
    match r with
    | Ok _ => ∃ d, resolve max_links (Fs_nodes w) [] dir = inr d ∧ is_dir (Fs_nodes w) d ∧
        Fs_nodes w !! (d ++ [temp_name n base]) = None ∧
        Fs_nodes w' = <[d ++ [temp_name n base] := NFile (Z.land 384 (Z.lnot os_umask)) ""]> (Fs_nodes w)
    | Err _ => Fs_nodes w' = Fs_nodes w
    | _ => False
    end) w) as Hopen.
  { intros n w. unfold os_OpenExcl, put_node. wp_step. eapply wp_mono; [apply enter_nodes|]. intros [[]|e|s|] w1 [E1 Hr]; simpl; try done.
    wp_step. eapply wp_mono; [apply entry_of_spec|]. intros [e|e|s|] w2 [-> Hr2]; simpl; try done.
    destruct Hr2 as (d & Hd & Hdir & ->). simpl. rewrite E1 in *. destruct (Fs_nodes w !! _) eqn:Hn; wp_step; [done|]. rewrite E1. eauto. }
  induction tries as [|tries IH]; intros w; simpl; wp_step; wp_step; wp_step; wp_step; (eapply wp_mono; [apply Hopen|]);
    intros [[]|e|s|] w1 Hr; simpl; try done; try (wp_step; destruct Hr as (d & ?); by eauto 10).
  - case_decide; by wp_step.
  - case_decide; [|by wp_step]. rewrite <-Hr. apply IH.
Qed.

(** The directory [d] of the file, in which there was no entry [t], while the
    temporary file is there with the text [y]. *)
Context (dir : list string) (t base : string) (d : list string) (m : Z) (fs : gmap (list string) node).
Hypothesis Hd : resolve max_links fs [] dir = inr d.
Hypothesis Hdir : is_dir fs d.
Hypothesis Hfree : fs !! (d ++ [t]) = None.

Lemma not_below (c : string) : d ≠ d ++ [c].
Proof. intros E. apply (f_equal length) in E. rewrite length_app in E. simpl in E. lia. Qed.

Lemma OpenTrunc_spec x w :
  Fs_nodes w = <[d ++ [t] := NFile m x]> fs →
  wp (os_OpenTrunc (dir ++ [t]) 384) (λ r w', match r with
    | Ok fd => fd = d ++ [t] ∧ Fs_nodes w' = <[d ++ [t] := NFile m ""]> fs
    | Err _ => Fs_nodes w' = Fs_nodes w
    | _ => False
    end) w.
Proof.
  intros E0. assert (resolve max_links (<[d ++ [t] := NFile m x]> fs) [] (dir ++ [t]) = inr (d ++ [t])) as Hres.
  { apply resolve_snoc; [by apply resolve_new, Hd; [|apply not_below]| |].
    - destruct Hdir as [->|[m' Hm]]; [by left|right]. exists m'. rewrite lookup_insert_ne; [done|].
      intros E. exact (not_below _ (eq_sym E)).
    - intros t'. by rewrite lookup_insert_eq. }
  unfold os_OpenTrunc, put_node. wp_step. eapply wp_mono; [apply enter_nodes|]. rewrite E0. intros [[]|e|s|] w1 [E1 Hr]; simpl; try done.
  wp_step. eapply wp_mono; [apply lookup_path_spec|]. rewrite E1, Hres. intros r w2 [-> ->]. simpl.
  rewrite decide_False by (by destruct d). rewrite lookup_insert_eq. wp_step. wp_step. wp_step.
  by rewrite E1, insert_insert_eq.
Qed.
Lemma Write_spec bs w :
  Fs_nodes w = <[d ++ [t] := NFile m ""]> fs →
  wp (os_Write (d ++ [t]) bs) (λ r w', ∃ y, Fs_nodes w' = <[d ++ [t] := NFile m y]> fs ∧
    match r with Ok _ => y = bs | Err _ => True | _ => False end) w.
Proof.
  intros E0. unfold os_Write, nodes, put_node. do 4 wp_step.
  eapply wp_mono; [apply enter_nodes|]. intros [[]|e|s|] w1 [E1 Hr]; simpl; try done; wp_step; wp_step;
    rewrite E1, E0, lookup_insert_eq; wp_go; rewrite E1, E0, insert_insert_eq; eauto.
Qed.
Lemma WriteFile_spec x bs w :
  Fs_nodes w = <[d ++ [t] := NFile m x]> fs →
  wp (ioutil_WriteFile (dir ++ [t]) bs 384) (λ r w', ∃ y, Fs_nodes w' = <[d ++ [t] := NFile m y]> fs ∧
    match r with Ok _ => y = bs | Panic _ => False | _ => True end) w.
Proof.
  intros E0. unfold ioutil_WriteFile. wp_step. apply wp_call; simpl; [by eauto|].
  eapply wp_mono; [by eapply OpenTrunc_spec|]. intros [fd|e|s|] w1 Hr; simpl; try done; [|rewrite Hr; by eauto].
  destruct Hr as [-> E1]. wp_step. wp_step. apply wp_call; simpl; [by eauto|].
  eapply wp_mono; [by apply Write_spec|]. intros [[]|e|s|] w2 (y & E2 & Hy); simpl; try done;
    wp_step; wp_step; (apply wp_call; simpl; [by eauto|]); (eapply wp_mono; [apply enter_nodes|]);
    rewrite E2; intros [[]|e'|s|] w3 [E3 Hr3]; simpl; try done; wp_step; eauto.
Qed.

Lemma Rename_spec bs w :
  Fs_nodes w = <[d ++ [t] := NFile m bs]> fs →
  wp (os_Rename (dir ++ [t]) (dir ++ [base])) (λ r w', match r with
    | Ok _ => Fs_nodes w' = <[d ++ [base] := NFile m bs]> fs ∧ ∀ m', fs !! (d ++ [base]) ≠ Some (NDir m')
    | Err _ => Fs_nodes w' = Fs_nodes w
    | _ => False
    end) w.
Proof.
  intros E0. unfold os_Rename. wp_step. eapply wp_mono; [apply enter_nodes|]. rewrite E0.
  assert (resolve max_links (<[d ++ [t] := NFile m bs]> fs) [] dir = inr d) as Hres by (apply resolve_new, Hd; [done|apply not_below]).
  intros [[]|e|s|] w1 [E1 Hr]; simpl; try done.
  wp_step. eapply wp_mono; [apply entry_of_spec|]. rewrite E1. intros [o|e|s|] w2 [-> Ho]; simpl; try done.
  destruct Ho as (d' & Hd' & _ & ->). assert (d' = d) as -> by congruence. rewrite lookup_insert_eq.
  wp_step. eapply wp_mono; [apply entry_of_spec|]. rewrite E1. intros [n|e|s|] w2 [-> Hn]; simpl; try done.
  destruct Hn as (d' & Hd'' & _ & ->). assert (d' = d) as -> by congruence. simpl.
  destruct (<[_ := _]> fs !! (d ++ [base])) as [[| |]|] eqn:Hn; wp_step; rewrite E1; try done;
    (split; [by rewrite delete_insert_id|]); intros m' Hm; (rewrite lookup_insert_ne in Hn by congruence); congruence.
Qed.

Lemma Remove_spec w :
  ((∃ y, Fs_nodes w = <[d ++ [t] := NFile m y]> fs) ∨ (t ≠ base ∧ ∃ y, Fs_nodes w = <[d ++ [base] := NFile m y]> fs)) →
  wp (os_Remove (dir ++ [t])) (λ r w', (Fs_nodes w' = Fs_nodes w ∨ Fs_nodes w' = fs ∧ Fs_nodes w !! (d ++ [t]) ≠ None) ∧
    returns r) w.
Proof.
  intros E0. unfold os_Remove. wp_step. eapply wp_mono; [apply enter_nodes|]. intros [[]|e|s|] w1 [E1 Hr]; simpl; try done; [|by eauto].
  wp_step. eapply wp_mono; [apply entry_of_spec|]. rewrite E1. intros [e|e|s|] w2 [-> He]; simpl; rewrite ?E1; try done; [|by eauto].
  destruct He as (d' & Hd' & Hdir' & ->). simpl. destruct E0 as [[y E0]|(Hne & y & E0)]; rewrite E0 in *.
  - assert (d' = d) as ->.
    { rewrite (resolve_new _ _ _ _ _ _ d) in Hd'; [congruence|done|apply not_below|done]. }
    rewrite lookup_insert_eq. wp_step. split; [right|done]. rewrite E1. by rewrite delete_insert_id.
  - destruct (resolve_file _ _ _ _ _ _ _ _ Hd') as [->|Hd2].
    { destruct Hdir' as [?|[m' Hm]]; [by destruct d|]. by rewrite lookup_insert_eq in Hm. }
    assert (d' = d) as -> by congruence. rewrite lookup_insert_ne, Hfree; [wp_step; by eauto|]. intros E%app_inv_head. congruence.
Qed.
(** Removing the temporary file: it goes, if it is there; nothing else does. *)
Lemma remove_temp_spec w :
  ((∃ y, Fs_nodes w = <[d ++ [t] := NFile m y]> fs) ∨ (t ≠ base ∧ ∃ y, Fs_nodes w = <[d ++ [base] := NFile m y]> fs)) →
  wp (remove_temp (dir ++ [t])) (λ r w', (Fs_nodes w' = Fs_nodes w ∨ Fs_nodes w' = fs ∧ Fs_nodes w !! (d ++ [t]) ≠ None) ∧
    match r with Ok _ | Blocked => True | _ => False end) w.
Proof.
  intros E0. unfold remove_temp. wp_step. wp_step. apply wp_call; simpl; [by eauto|].
  eapply wp_mono; [apply Stat_returns|]. intros [i|e|s|] w1 [E1 Hr]; simpl; try done; [|wp_step; by eauto].
  wp_step. wp_step. apply wp_call; simpl; [by eauto|]. rewrite <-E1 in *.
  eapply wp_mono; [by apply Remove_spec|]. intros [[]|e|s|] w2 [E2 Hr2]; simpl; try done; by wp_step.
Qed.
End writing.

(* ------------------------------------------------------------------ *)
(** ** What a write leaves behind *)

Section atomic.
Context `{OsCalls, Process}.
Implicit Types w : FsWorld.

Definition file_mode : Z := Z.land 384 (Z.lnot os_umask).

(** The entry a file is written to: in the directory its path leads to, once
    the directories that were missing are made. *)
Definition target_of (fs : gmap (list string) node) (file : FilePath) (p : list string) : Prop :=
  ∃ fs1 d, only_dirs fs fs1 ∧ resolve max_links fs1 [] (dir_of file) = inr d ∧ is_dir fs1 d ∧ p = d ++ [Path_Base file].

(** The three states of the file system: nothing written, a temporary file,
    the file. *)
Inductive progress (file : FilePath) (obj : error + string) (fs : gmap (list string) node) : Res unit → gmap (list string) node → Prop :=
  | not_written r fs1 : only_dirs fs fs1 → r ≠ Ok tt → (∀ s, r ≠ Panic s) → progress file obj fs r fs1
  | temporary r fs1 d n y : only_dirs fs fs1 → r ≠ Ok tt → (∀ s, r ≠ Panic s) →
      fs1 !! (d ++ [temp_name n (Path_Base file)]) = None →
      progress file obj fs r (<[d ++ [temp_name n (Path_Base file)] := NFile file_mode y]> fs1)
  | written r fs1 d bs : only_dirs fs fs1 → r = Ok tt ∨ r = Blocked →
      resolve max_links fs1 [] (dir_of file) = inr d → is_dir fs1 d → obj = inr bs →
      (∀ m, fs1 !! (d ++ [Path_Base file]) ≠ Some (NDir m)) →
      progress file obj fs r (<[d ++ [Path_Base file] := NFile file_mode bs]> fs1).

Lemma string_length_app x y : String.length (x +:+ y) = String.length x + String.length y.
Proof. induction x as [|c x IH]; simpl; [done|]. f_equal. exact IH. Qed.
Lemma temp_name_base n base : temp_name n base ≠ base.
Proof.
  unfold temp_name. intros E. apply (f_equal String.length) in E. rewrite !string_length_app in E. simpl in E. lia.
Qed.

Lemma WriteJson_progress file obj w :
  wp (util_WriteJson file obj) (λ r w', progress file obj (Fs_nodes w) r (Fs_nodes w')) w.
Proof.
  unfold util_WriteJson. wp_step. apply wp_call; simpl; [by apply not_written|].
  assert (wp (match Path_Dir file with Some d => os_MkdirAll d 488 | None => _ ← os_enter; fail ErrNotExist end)
    (λ r w', only_dirs (Fs_nodes w) (Fs_nodes w') ∧ returns r) w) as Hmk.
  { destruct (Path_Dir file); [apply mkdir_all_dirs|]. wp_step. eapply wp_mono; [apply enter_nodes|].
    intros [[]|e|s|] w1 [E1 Hr]; simpl; try done; [wp_step|]; by rewrite E1. }
  eapply wp_mono; [exact Hmk|]. clear Hmk. intros [[]|e|s|] w1 [H1 Hr]; simpl; try done; [|by apply not_written].
  wp_step. destruct obj as [e|bs]; wp_step; [by apply not_written|].
  wp_step. apply wp_call; simpl; [by apply not_written|].
  eapply wp_mono; [apply TempFile_spec|]. intros [t|e|s|] w2 Ht; simpl; try done; [|rewrite Ht; by apply not_written].
  destruct Ht as (n & d & -> & Hd & Hdir & Hfree & E2). fold file_mode in E2.
  assert (∀ r w', Fs_nodes w' = Fs_nodes w1 ∨ (∃ y, Fs_nodes w' = <[d ++ [temp_name n (Path_Base file)] := NFile file_mode y]> (Fs_nodes w1)) →
    r ≠ Ok tt → (∀ s, r ≠ Panic s) → progress file (inr bs) (Fs_nodes w) r (Fs_nodes w')) as Hfail.
  { intros r w' [->|[y ->]] ? ?; [by apply not_written|by apply temporary]. }
  wp_step. apply wp_call; simpl; [by apply Hfail; eauto|].
  eapply wp_mono; [apply enter_nodes|]. rewrite E2. intros [[]|e|s|] w3 [E3 Hr3]; simpl; try done; [|by apply Hfail; eauto].
  unfold deferred. wp_step. wp_step. wp_step.
  eapply wp_mono; [by eapply WriteFile_spec|]. intros [[]|e|s|] w4 (y & E4 & Hy); simpl; try done; [subst y| |by apply Hfail; eauto].
  2:{ wp_step. eapply wp_mono; [eapply (remove_temp_spec _ _ (Path_Base file)); eauto|]. rewrite E4. intros [[]|e'|s|] w5 [E5 Hr5]; simpl; try done;
      [wp_step|]; apply Hfail; naive_solver. }
  apply wp_call; simpl; [by apply Hfail; eauto|].
  eapply wp_mono; [by eapply (Rename_spec _ _ (Path_Base file))|]. intros [[]|e|s|] w5 E5; simpl; try done; wp_step; [destruct E5 as [E5 Hnd]|].
  2:{ eapply wp_mono; [eapply (remove_temp_spec _ _ (Path_Base file)); [exact Hd|exact Hdir|exact Hfree|left; rewrite E5; eauto]|]. rewrite E5, E4. intros [[]|e'|s|] w6 [E6 Hr6]; simpl; try done;
      [wp_step|]; apply Hfail; naive_solver. }
  eapply wp_mono; [eapply (remove_temp_spec _ _ (Path_Base file)); [exact Hd|exact Hdir|exact Hfree|]; right; split; [apply temp_name_base|eauto]|].
  rewrite E5, lookup_insert_ne, Hfree by (intros E%app_inv_head; injection E as E; symmetry in E; by eapply temp_name_base).
  intros [[]|e'|s|] w6 [[E6|[? []]] Hr6]; simpl; try done; [wp_step|]; rewrite E6; eapply written; eauto.
Qed.

(** C12: Writing is atomic.  However the calls go, and wherever the process is
    killed, every entry of the file system is as it was, but for new
    directories, a temporary file that did not exist before, and the file
    itself, which then holds the whole of the new text; when the write is
    reported to succeed it does hold it and nothing temporary is left, and when
    an error is reported it holds what it held. *)
Theorem WriteJson_atomic file obj w :
  wp (util_WriteJson file obj) (λ r w',
    let fs := Fs_nodes w in let fs' := Fs_nodes w' in
    (∀ s, r ≠ Panic s) ∧
    (∀ p, fs' !! p = fs !! p
      ∨ (fs !! p = None ∧ ∃ m, fs' !! p = Some (NDir m))
      ∨ (r ≠ Ok tt ∧ fs !! p = None ∧ (∃ d n, p = d ++ [temp_name n (Path_Base file)]) ∧ ∃ y, fs' !! p = Some (NFile file_mode y))
      ∨ ((r = Ok tt ∨ r = Blocked) ∧ target_of fs file p ∧ ∃ bs, obj = inr bs ∧ fs' !! p = Some (NFile file_mode bs))) ∧
    (r = Ok tt → ∃ p bs, obj = inr bs ∧ target_of fs file p ∧ fs' !! p = Some (NFile file_mode bs))) w.
Proof.
  eapply wp_mono; [apply WriteJson_progress|]. intros r w'.
  destruct 1 as [r fs1 Hd Hr Hp|r fs1 d n y Hd Hr Hp Hfree|r fs1 d bs Hd Hr Hres Hdir -> Hnd]; simpl.
  - split_and!; [done| |done]. intros p. destruct (Hd p); auto.
  - split_and!; [done| |done]. intros p. destruct (decide (p = d ++ [temp_name n (Path_Base file)])) as [->|Hne].
    + right. right. left. rewrite lookup_insert_eq. split_and!; eauto. destruct (Hd (d ++ [temp_name n (Path_Base file)])) as [?|[? ?]]; congruence.
    + rewrite lookup_insert_ne by done. destruct (Hd p); auto.
  - split; [by destruct Hr as [->| ->]|]. assert (target_of (Fs_nodes w) file (d ++ [Path_Base file])) as Ht by (by exists fs1, d).
    split; [|intros _; exists (d ++ [Path_Base file]), bs; by rewrite lookup_insert_eq].
    intros p. destruct (decide (p = d ++ [Path_Base file])) as [->|Hne].
    + right. right. right. rewrite lookup_insert_eq. eauto.
    + rewrite lookup_insert_ne by done. destruct (Hd p); auto.
Qed.

(** The calls from now on neither fail nor are they the last. *)
Definition quiet (n : nat) : Prop := ∀ k, n ≤ k → os_fault k = None ∧ killed k = false.
Lemma wp_quiet_call {A} (m : M FsWorld A) Q w : quiet (Fs_calls w) → wp m Q w → wp (call m) Q w.
Proof. intros Hq. unfold call, wp. by destruct (Hq (Fs_calls w)) as [_ ->]. Qed.
Lemma wp_quiet_enter (Q : Res unit → FsWorld → Prop) w :
  quiet (Fs_calls w) → (∀ w1, Fs_nodes w1 = Fs_nodes w → quiet (Fs_calls w1) → Q (Ok tt) w1) → wp os_enter Q w.
Proof.
  intros Hq HQ. unfold wp, os_enter. destruct (Hq (Fs_calls w)) as [-> _]; [done|]. apply HQ; [done|].
  intros k Hk. simpl in Hk. apply Hq. lia.
Qed.

(** What is written is read back: after a write that succeeded, as long as
    the files stay, reading gives what the text decodes to. *)
Theorem WriteJson_ReadJson {A} file bs (decode : string → error + A) w w' w2 :
  (∀ d t, Fs_nodes w !! (d ++ [Path_Base file]) ≠ Some (NLink t)) →
  util_WriteJson file (inr bs) w = (Ok tt, w') → Fs_nodes w2 = Fs_nodes w' → quiet (Fs_calls w2) →
  wp (util_ReadJson file decode) (λ r w3, Fs_nodes w3 = Fs_nodes w' ∧
    r = match decode bs with inr a => Ok a | inl e => Err e end) w2.
Proof.
  intros Hlink Hrun E2 Hq. pose proof (WriteJson_progress file (inr bs) w) as Hw. unfold wp in Hw. rewrite Hrun in Hw. simpl in Hw.
  inversion Hw as [| |? fs1 d bs' Hd _ Hres Hdir Hobj Hnd Heq Hfs]; [done..|]. injection Hobj as <-.
  assert (∀ t, fs1 !! (d ++ [Path_Base file]) ≠ Some (NLink t)) as Hlink1.
  { intros t Ht. destruct (Hd (d ++ [Path_Base file])) as [E|[_ [m E]]]; rewrite Ht in E; [by eapply Hlink|done]. }
  assert (resolve max_links (Fs_nodes w') [] (path_of file) = inr (d ++ [Path_Base file])) as Hpath.
  { rewrite <-Hfs. apply resolve_snoc.
    - apply resolve_over; [done..|apply not_below|done].
    - destruct Hdir as [->|[m Hm]]; [by left|right; exists m]. rewrite lookup_insert_ne; [done|]. intros E. exact (not_below _ _ (eq_sym E)).
    - intros t. by rewrite lookup_insert_eq. }
  assert (Fs_nodes w' !! (d ++ [Path_Base file]) = Some (NFile file_mode bs)) as Hnode by (by rewrite <-Hfs, lookup_insert_eq).
  clear Hrun Hw. unfold util_ReadJson, os_Open, deferred, os_ReadAll, os_Close, nodes.
  wp_step. apply wp_quiet_call; [done|]. wp_step. apply wp_quiet_enter; [done|]. intros w3 E3 Hq3. simpl. assert (Fs_nodes w3 = Fs_nodes w') as E by congruence. rewrite <-E in Hpath, Hnode.
  wp_step. eapply wp_mono; [apply lookup_path_spec|]. rewrite Hpath. intros r' w4 [-> ->]. simpl.
  rewrite decide_False by (by destruct d). rewrite Hnode. do 4 wp_step.
  apply wp_quiet_call; [done|]. wp_step. apply wp_quiet_enter; [done|]. intros w5 E5 Hq5. simpl. do 2 wp_step. rewrite E5, Hnode. wp_step.
  destruct (decode bs) as [e|a]; wp_step; wp_step; wp_step; wp_step; (apply wp_quiet_call; [done|]);
    (apply wp_quiet_enter; [done|]); intros w6 E6 Hq6; simpl; wp_step; wp_step; (split; [congruence|done]).
Qed.
End atomic.

(* ------------------------------------------------------------------ *)
(** ** Examples *)

(** A process that is killed at the given call, if any. *)
#[local] Instance killed_at (k : option nat) : Process := {|
  tmp_random := λ n, pretty n; short_write := λ _, 3; killed := λ n, bool_decide (k = Some n) |}.

Abbreviation config_file := (mkPath (Some ["etc"; "netbird"]) "config.json").
Abbreviation some_files := (mkFs (list_to_map [
  (["etc"], NDir 493); (["etc"; "netbird"], NDir 448); (["etc"; "netbird"; "config.json"], NFile 384 "old")]) 0).
Abbreviation write_with bad k := (util_WriteJson (H := calls_but bad) (H0 := killed_at k) config_file (inr "{new}") some_files).
Abbreviation content w := (Fs_nodes w !! ["etc"; "netbird"; "config.json"]).

Lemma WriteJson_ReadJson_witness :
  wp (util_ReadJson (H := calls_but None) (H0 := killed_at None) config_file (@inr error string))
    (λ r w3, Fs_nodes w3 = Fs_nodes (write_with None None).2 ∧ r = Ok "{new}") (write_with None None).2.
Proof.
  apply (WriteJson_ReadJson (H := calls_but None) (H0 := killed_at None) config_file "{new}" (@inr error string) some_files).
  - intros d t E. assert (map_Forall (λ _ n, match n with NLink _ => false | _ => true end = true) (Fs_nodes some_files)) as Hf.
    { apply (bool_decide_unpack _). vm_compute. exact I. }
    pose proof (map_Forall_lookup_1 _ _ _ _ Hf E) as E2; discriminate E2.
  - vm_compute. reflexivity.
  - reflexivity.
  - intros k _. split; reflexivity.
Defined.

(** The outcomes of a write: it succeeds; the write fails half way; the rename
    fails; the process is killed before the rename, and after it. *)
Example WriteJson_runs :
  (write_with None None).1 = Ok tt ∧ content (write_with None None).2 = Some (NFile 384 "{new}") ∧
  (write_with (Some 4) None).1 = Err (Plain "input/output error") ∧ content (write_with (Some 4) None).2 = Some (NFile 384 "old") ∧
  (write_with (Some 6) None).1 = Err (Plain "input/output error") ∧ Fs_nodes (write_with (Some 6) None).2 = Fs_nodes some_files ∧
  (write_with None (Some 6)).1 = Blocked ∧ content (write_with None (Some 6)).2 = Some (NFile 384 "old") ∧
  (write_with None (Some 7)).1 = Blocked ∧ content (write_with None (Some 7)).2 = Some (NFile 384 "{new}").
Proof. split_and!; vm_compute; reflexivity. Qed.

(** When closing the temporary file fails, the call that removes it has not
    been deferred yet: it stays. *)
Example temp_file_leaks :
  (write_with (Some 2) None).1 = Err (Plain "input/output error") ∧
  Fs_nodes (write_with (Some 2) None).2 !! ["etc"; "netbird"; ".1config.json"] = Some (NFile 384 "").
Proof. split; vm_compute; reflexivity. Qed.

(** A file name without a directory is never written: its directory, the empty
    string, cannot be made. *)
Lemma WriteJson_no_directory `{OsCalls, Process} base obj w :
  wp (util_WriteJson (mkPath None base) obj) (λ r w', Fs_nodes w' = Fs_nodes w ∧ r ≠ Ok tt) w.
Proof.
  unfold util_WriteJson. wp_step. apply wp_call; simpl; [done|]. wp_step. eapply wp_mono; [apply enter_nodes|].
  intros [[]|e|s|] w1 [E1 Hr]; simpl; done.
Qed.

(** Copying a file takes its contents, not its mode. *)
Example CopyFileContents_run :
  let run := CopyFileContents (H := calls_but None) (H0 := killed_at None)
    ["etc"; "netbird"; "config.json"] ["etc"; "netbird"; "config.json.bkp"] some_files in
  run.1 = Ok tt ∧ Fs_nodes run.2 !! ["etc"; "netbird"; "config.json.bkp"] = Some (NFile 420 "old").
Proof. split; vm_compute; reflexivity. Qed.
