(* ===== verification/Tray.v ===== *)
(** * Tray: the process of the tray application (client/ui/client_ui.go: [main],
    [checkPIDFile], the clicks of [onTrayReady])

    [Ui] has the handlers; here is what calls them, and the file with the
    process identifier that keeps a second tray from starting. *)

From S2P Require Import Prelude GoLib Model Network UpdateChannel FileStore Account Groups Peers Turn Encryption Jwt GrpcServer Util Signal SignalClient MgmClient ClientModel WgIface PeerConn Engine Http OAuth DaemonModel ClientConfig ClientLogin Daemon Commands Ui Files JsonFile.

(** [strconv.Atoi]: decimal digits with an optional sign, an [int] of 64 bits. *)
Definition digit (a : ascii) : option Z :=
  let n := Z.of_N (N_of_ascii a) in if decide (48 ≤ n ≤ 57)%Z then Some (n - 48)%Z else None.
Fixpoint digits (acc : Z) (s : string) : option Z :=
  match s with
  | "" => Some acc
  | String a s => d ← digit a; digits (acc * 10 + d)%Z s
  end.
Definition in_int64 (z : Z) : option Z := if decide (- 2 ^ 63 ≤ z < 2 ^ 63)%Z then Some z else None.
Definition Atoi (s : string) : option Z :=
  match s with
  | "" | "+" | "-" => None
  | String "-"%char s => z ← digits 0 s; in_int64 (- z)
  | String "+"%char s => z ← digits 0 s; in_int64 z
  | _ => z ← digits 0 s; in_int64 z
  end.

(** The processes: this one, finding another and sending it the signal 0. *)
Class Processes := {
  os_TempDir : list string;
  os_Getpid : Z;
  os_FindProcess : Z → option error;
  process_Signal0 : Z → option error }.

(** What the manuals promise on Unix: [os.FindProcess] always succeeds, and
    kill(2) with the signal 0 succeeds exactly when the process is [alive] and
    this one is [allowed] to send it signals. *)
Class ProcessLaws `{Processes} (alive allowed : Z → Prop) := {
  FindProcess_succeeds pid : os_FindProcess pid = None;
  Signal0_alive pid : (0 < pid)%Z → process_Signal0 pid = None ↔ alive pid ∧ allowed pid }.

(** The settings window is another process of the same program. *)
Class SettingsProcess (X : Type) := {
  os_Executable : X → (error + string) * X;
  cmd_CombinedOutput : string → list string → X → (option Z * string) * X   (** [Some code]: an exit error *) }.

Section pid.
Context `{OsCalls, Process, Processes}.
Abbreviation MO := (M FsWorld).

(** [ioutil.ReadFile]; closing is not looked at. *)
Definition ioutil_ReadFile (p : list string) : MO string :=
  f ← call (os_Open p);
  deferred (_ ← try (call os_Close); mret tt) (call (os_ReadAll f)).

Definition pidFile : list string := os_TempDir ++ ["wiretrustee-ui.pid"].
Definition process_exists (pid : Z) : bool :=
  match os_FindProcess pid with
  | None => match process_Signal0 pid with None => true | Some _ => false end
  | Some _ => false
  end.
Definition checkPIDFile : MO unit :=
  piddata ← try (ioutil_ReadFile pidFile);
  let running := match piddata with inr s => pid ← Atoi s; if process_exists pid then Some pid else None | inl _ => None end in
  match running with
  | Some pid => fail (Plain ("process already exists: " +:+ Itoa pid))
  | None => ioutil_WriteFile pidFile (Itoa os_Getpid) 436
  end.
End pid.

(** What the program shows. *)
Inductive UiStart := SettingsWindow | Refused (e : error) | TrayShown.

Inductive Click := ClickAdminPanel | ClickUp | ClickDown | ClickSettings | ClickQuit.
(** The goroutines a click starts. *)
Inductive Started := GoUp | GoDown | GoSettings.

(** The loop keeps [err] from one click to the next; [TL_logged] is what it
    logs. *)
Record TrayLoop := mkTrayLoop { TL_err : option error; TL_settingsEnabled : bool; TL_quit : bool; TL_logged : list error }.
Definition tray_loop : TrayLoop := mkTrayLoop None true false [].

Section tray.
Context {X : Type} `{DaemonClient X} `{SettingsProcess X} `{Crypto} `{Backoff (serviceClient * CmdWorld X)} `{OsCalls, Process, Processes}.
Abbreviation U := (serviceClient * CmdWorld X)%type.
Abbreviation MT := (M (TrayLoop * U)).

Definition on_ui {A} (m : M U A) : MT A := λ tu, let '(r, u) := m tu.2 in (r, (tu.1, u)).
Definition mod_loop (f : TrayLoop → TrayLoop) : MT unit := modify (λ tu, (f tu.1, tu.2)).
Definition enable_settings (b : bool) (t : TrayLoop) : TrayLoop := mkTrayLoop (TL_err t) b (TL_quit t) (TL_logged t).
Definition set_loop_err (e : option error) (t : TrayLoop) : TrayLoop := mkTrayLoop e (TL_settingsEnabled t) (TL_quit t) (TL_logged t).
Definition quit (t : TrayLoop) : TrayLoop := mkTrayLoop (TL_err t) (TL_settingsEnabled t) true (TL_logged t).
(** [if err != nil] at the end of the loop's body. *)
Definition log_err (t : TrayLoop) : TrayLoop :=
  mkTrayLoop (TL_err t) (TL_settingsEnabled t) (TL_quit t) (TL_logged t ++ match TL_err t with Some e => [e] | None => [] end).

(** [main]: the settings window only shows itself; the tray asks for the file
    of the process first. *)
Definition ui_main (addr : string) (showSettings : bool) : M (FsWorld * U) UiStart := λ fu,
  match start_ui showSettings addr fu.2 with
  | (Ok _, u) =>
      if showSettings then (Ok SettingsWindow, (fu.1, u))
      else match checkPIDFile fu.1 with
           | (Ok _, f) => (Ok TrayShown, (f, u))
           | (Err e, f) => (Ok (Refused e), (f, u))
           | (Panic s, f) => (Panic s, (f, u))
           | (Blocked, f) => (Blocked, (f, u))
           end
  | (Err e, u) => (Err e, (fu.1, u))
  | (Panic s, u) => (Panic s, (fu.1, u))
  | (Blocked, u) => (Blocked, (fu.1, u))
  end.

(** One turn of the loop over the clicks, with the goroutine it starts.  Quit
    returns from the loop. *)
Definition tray_click (c : Click) : MT (option Started) :=
  match c with
  | ClickQuit => _ ← mod_loop quit; mret None
  | ClickAdminPanel =>
      s ← on_ui ui;
      err ← on_ui (on_daemon (aside (λ x, let '(e, x') := open_Run (UI_adminURL s) x in (Ok e, x'))));
      _ ← mod_loop (log_err ∘ set_loop_err err);
      mret None
  | ClickUp => _ ← mod_loop log_err; mret (Some GoUp)
  | ClickDown => _ ← mod_loop log_err; mret (Some GoDown)
  | ClickSettings => _ ← mod_loop (log_err ∘ enable_settings false); mret (Some GoSettings)
  end.

(** The goroutines; the errors of the handlers are dropped.  That of the
    settings enables the item again when it returns. *)
Definition started (addr : string) (g : Started) : MT unit :=
  match g with
  | GoUp => _ ← try (on_ui (menuUpClick addr)); mret tt
  | GoDown => _ ← try (on_ui (menuDownClick addr)); mret tt
  | GoSettings =>
      proc ← on_ui (on_daemon (aside (λ x, let '(r, x') := os_Executable x in (Ok r, x'))));
      _ ← match proc with
          | inl _ => mret tt
          | inr proc =>
              out ← on_ui (on_daemon (aside (λ x, let '(r, x') := cmd_CombinedOutput proc ["--settings=true"] x in (Ok r, x'))));
              if decide (out.1 = Some 1%Z) then mret tt else _ ← try (on_ui (getSrvConfig addr)); mret tt
          end;
      mod_loop (enable_settings true)
  end.

(** The clicks one after the other, each goroutine before the next click. *)
Fixpoint tray_run (addr : string) (clicks : list Click) : MT unit :=
  match clicks with
  | [] => mret tt
  | c :: l =>
      g ← tray_click c;
      _ ← match g with Some g => started addr g | None => mret tt end;
      t ← gets (TL_quit ∘ fst);
      if t : bool then mret tt else tray_run addr l
  end.
End tray.

(* ------------------------------------------------------------------ *)
(** ** Properties *)

(** Printing and reading a number. *)
Lemma digit_char (x : N) : (x < 10)%N → digit (pretty_N_char x) = Some (Z.of_N x).
Proof.
  intros Hx. assert (∀ n : nat, n < 10 → digit (pretty_N_char (N.of_nat n)) = Some (Z.of_nat n)) as Hn.
  { intros n Hn. do 10 (destruct n as [|n]; [reflexivity|]). lia. }
  rewrite <-(N2Nat.id x), Hn by lia. f_equal. lia.
Qed.
Lemma digits_pretty_go (x : N) s : digits 0 (pretty_N_go x s) = digits (Z.of_N x) s.
Proof.
  revert s. induction (N.lt_wf_0 x) as [x _ IH]; intros s. destruct (decide (x = 0)%N) as [->|Hx]; [done|].
  rewrite pretty_N_go_step by lia. rewrite IH by (apply N.div_lt; lia). simpl.
  rewrite digit_char by (apply N.mod_lt; lia). simpl. f_equal. rewrite (N.div_mod x 10) at 3 by done. rewrite N2Z.inj_add, N2Z.inj_mul. change (Z.of_N 10) with 10%Z. ring.
Qed.
Lemma digits_head a s : digits 0 (String a s) ≠ None → digit a ≠ None.
Proof. simpl. by destruct (digit a). Qed.
Lemma Atoi_Itoa z : (0 < z < 2 ^ 63)%Z → Atoi (Itoa z) = Some z.
Proof.
  intros Hz. unfold Itoa. destruct z as [|p|p]; [lia| |lia]. unfold pretty, pretty_Z, pretty, pretty_positive, pretty, pretty_N.
  rewrite decide_False by done. pose proof (digits_pretty_go (Npos p) "") as Hd. simpl in Hd.
  destruct (pretty_N_go (Npos p) "") as [|a s] eqn:E; [by simplify_eq/=|].
  assert (digit a ≠ None) as Ha by (apply (digits_head a s); by rewrite Hd).
  assert (a ≠ "-"%char ∧ a ≠ "+"%char) as [H1 H2] by (split; intros ->; by apply Ha).
  unfold Atoi. destruct a as [[] [] [] [] [] [] [] []]; try done; rewrite Hd; simpl; unfold in_int64; by rewrite decide_True by lia.
Qed.

(** Putting a file where a path leads leaves the path leading there. *)
Lemma resolve_here links fs q m d cur rest :
  (∀ t, fs !! q ≠ Some (NLink t)) → (∀ m, fs !! q ≠ Some (NDir m)) →
  resolve links fs cur rest = inr q → resolve links (<[q := NFile m d]> fs) cur rest = inr q.
Proof.
  intros Hl Hd. resolve_ind cur rest; rewrite ?resolve_nil, ?resolve_cons; try done;
    (destruct (decide (cur ++ [c0] = q)) as [Hc|Hc];
      [rewrite Hc, lookup_insert_eq; destruct (fs !! q) as [[| m'|t]|]; try (by edestruct Hd); try (by edestruct Hl); by case_decide|]);
    rewrite lookup_insert_ne by done; destruct (fs !! (cur ++ [c0])) as [[| |]|]; auto.
Qed.

#[local] Opaque resolve max_links.

Section properties.
Context `{OsCalls}.
Implicit Types w : FsWorld.

(** A descriptor of the file a path leads to. *)
Definition opened (w : FsWorld) (p fd : list string) (data : string) : Prop :=
  fd ≠ [] ∧ resolve max_links (Fs_nodes w) [] p = inr fd ∧ ∃ m, Fs_nodes w !! fd = Some (NFile m data).

Lemma OpenTrunc_opened p perm w :
  wp (os_OpenTrunc p perm) (λ r w', ∀ fd, r = Ok fd → opened w' p fd "") w.
Proof.
  unfold os_OpenTrunc, put_node. wp_step. eapply wp_mono; [apply enter_nodes|]. intros [[]|e|s|] w1 [E1 Hr]; simpl; try done.
  wp_step. eapply wp_mono; [apply lookup_path_spec|]. intros r w2 [-> Hq].
  destruct (resolve max_links (Fs_nodes w1) [] p) as [e|q] eqn:Hres; rewrite Hq; simpl; [done|].
  assert (∀ m, q ≠ [] → (∀ t, Fs_nodes w1 !! q ≠ Some (NLink t)) → (∀ m, Fs_nodes w1 !! q ≠ Some (NDir m)) →
    ∀ fd, Ok q = Ok fd → opened (mkFs (<[q := NFile m ""]> (Fs_nodes w1)) (Fs_calls w1)) p fd "") as Hput.
  { intros m Hq0 Hl Hd fd [= <-]. unfold opened. simpl. rewrite lookup_insert_eq. split_and!; [done|by apply resolve_here|by eexists]. }
  case_decide as Hroot; simpl; [by wp_step|].
  destruct (Fs_nodes w1 !! q) as [[m x|m|t]|] eqn:Hn; wp_go; try done; by apply Hput.
Qed.
Lemma Write_opened `{Process} p fd data w :
  opened w p fd "" → wp (os_Write fd data) (λ r w', r = Ok tt → opened w' p fd data) w.
Proof.
  intros Ho. pose proof Ho as (_ & _ & m & Hn). unfold os_Write, nodes, put_node. do 4 wp_step.
  eapply wp_mono; [apply enter_nodes|]. intros [[]|e|s|] w1 [E1 Hr]; simpl; try done; wp_step; wp_step;
    rewrite E1, Hn; wp_go; try done. intros _. destruct Ho as (Hfd & Hres & _). unfold opened. simpl. rewrite E1, lookup_insert_eq.
  split_and!; [done| |by eexists]. apply resolve_here; [by rewrite Hn..|done].
Qed.

Lemma WriteFile_holds `{Process} p data perm w :
  wp (ioutil_WriteFile p data perm) (λ r w', r = Ok tt → ∃ fd, opened w' p fd data) w.
Proof.
  unfold ioutil_WriteFile. wp_step. apply wp_call; simpl; [done|]. eapply wp_mono; [apply OpenTrunc_opened|].
  intros [fd|e|s|] w1 Ho; simpl; try done. specialize (Ho _ eq_refl).
  wp_step. wp_step. apply wp_call; simpl; [done|]. eapply wp_mono; [by eapply Write_opened|].
  intros [[]|e|s|] w2 Hw; simpl; try done; wp_step; wp_step; (apply wp_call; simpl; [done|]); (eapply wp_mono; [apply enter_nodes|]);
    intros [[]|e5|s5|] w3 [E3 Hr3]; simpl; try done; wp_go; try done.
  intros _. exists fd. unfold opened. rewrite E3. by apply Hw.
Qed.

(** Without failing calls such a file is read, and nothing is changed. *)
Lemma ReadFile_opened `{Process} p fd data w :
  opened w p fd data → quiet (Fs_calls w) →
  wp (ioutil_ReadFile p) (λ r w', r = Ok data ∧ Fs_nodes w' = Fs_nodes w ∧ quiet (Fs_calls w')) w.
Proof.
  intros Ho Hq. pose proof Ho as (Hfd & _ & m & Hn). unfold ioutil_ReadFile, os_Open, deferred, os_ReadAll, os_Close, nodes.
  wp_step. apply wp_quiet_call; [done|]. wp_step. apply wp_quiet_enter; [done|]. intros w1 E1 Hq1. simpl.
  wp_step. eapply wp_mono; [apply lookup_path_spec|]. rewrite E1, (proj1 (proj2 Ho)). intros r' w2 [-> ->]. simpl.
  rewrite decide_False, Hn by exact Hfd. do 3 wp_step.
  apply wp_quiet_call; [done|]. wp_step. apply wp_quiet_enter; [done|]. intros w3 E3 Hq3. simpl. do 2 wp_step. rewrite E3, E1, Hn.
  do 4 wp_step. apply wp_quiet_call; [done|]. apply wp_quiet_enter; [done|]. intros w4 E4 Hq4. simpl. wp_step. wp_step. split_and!; [done|congruence|done].
Qed.
End properties.

Lemma process_exists_alive `{ProcessLaws} pid : (0 < pid)%Z → process_exists pid = true ↔ alive pid ∧ allowed pid.
Proof.
  intros Hpid. rewrite <-(Signal0_alive pid Hpid). unfold process_exists. rewrite FindProcess_succeeds.
  by destruct (process_Signal0 pid).
Qed.

(** C28: there is one tray at a time, when no call of the second start fails: after a start
    that was let through, as long as the files stay, another is refused while
    the process of the first is alive and may be signalled by the second, and
    leaves the files as they are; otherwise (the first has ended, or belongs to
    somebody else) the other goes on to write its own identifier. *)
Theorem one_tray `{OsCalls} (p1 p2 : Process) (t1 t2 : Processes) (alive allowed : Z → Prop) w w' w2 :
  @ProcessLaws t2 alive allowed →
  @os_TempDir t2 = @os_TempDir t1 → (0 < @os_Getpid t1 < 2 ^ 63)%Z →
  @checkPIDFile _ p1 t1 w = (Ok tt, w') → Fs_nodes w2 = Fs_nodes w' → @quiet _ p2 (Fs_calls w2) →
  (alive (@os_Getpid t1) ∧ allowed (@os_Getpid t1) → ∃ w3,
     @checkPIDFile _ p2 t2 w2 = (Err (Plain ("process already exists: " +:+ Itoa (@os_Getpid t1))), w3) ∧ Fs_nodes w3 = Fs_nodes w') ∧
  (¬ (alive (@os_Getpid t1) ∧ allowed (@os_Getpid t1)) → ∃ w3,
     @checkPIDFile _ p2 t2 w2 = @ioutil_WriteFile _ p2 (@pidFile t1) (Itoa (@os_Getpid t2)) 436 w3 ∧ Fs_nodes w3 = Fs_nodes w').
Proof.
  intros HL Hdir Hpid Hrun E2 Hq.
  assert (∃ fd, opened w2 (@pidFile t1) fd (Itoa (@os_Getpid t1))) as [fd Hfd].
  { unfold checkPIDFile in Hrun. destruct (try (@ioutil_ReadFile _ p1 (@pidFile t1)) w) as [[r|e|s|] w1] eqn:Hr;
      [rewrite (bind_run _ _ _ _ _ Hr) in Hrun|unfold mbind, M_bind in Hrun; by rewrite Hr in Hrun..].
    cbv zeta in Hrun. destruct (match r with inl _ => None | inr s => _ end); [done|].
    pose proof (@WriteFile_holds _ p1 (@pidFile t1) (Itoa (@os_Getpid t1)) 436 w1) as Hw. unfold wp in Hw. rewrite Hrun in Hw.
    destruct (Hw eq_refl) as [fd Ho]. exists fd. unfold opened in *. by rewrite E2. }
  assert (@pidFile t2 = @pidFile t1) as Hfile by (unfold pidFile; by rewrite Hdir).
  pose proof (@ReadFile_opened _ p2 _ _ _ _ Hfd Hq) as Hread. unfold wp in Hread.
  rewrite <-(@process_exists_alive t2 alive allowed HL) by lia.
  unfold checkPIDFile, mbind, M_bind, try. rewrite Hfile.
  destruct (@ioutil_ReadFile _ p2 (@pidFile t1) w2) as [r w3]. simpl in Hread. destruct Hread as (-> & E3 & _).
  rewrite (Atoi_Itoa _ Hpid). simpl. destruct (@process_exists t2 (@os_Getpid t1)); (split; [intros _|by intros []]) || (split; [done|intros _]);
    exists w3; (split; [done|congruence]).
Qed.

(** An error of the browser is kept: every later turn of the loop logs it
    again, whatever was clicked. *)
Lemma stale_error `{DaemonClient X} `{SettingsProcess X} `{Crypto} `{Backoff (serviceClient * CmdWorld X)} c t u e :
  TL_err t = Some e → c = ClickUp ∨ c = ClickDown ∨ c = ClickSettings →
  ∃ t', (tray_click c (t, u)).2.1 = t' ∧ TL_err t' = Some e ∧ TL_logged t' = TL_logged t ++ [e].
Proof. intros He [->|[->| ->]]; eexists; (split; [done|]); simpl; by rewrite He. Qed.

(** However the settings window ends, its item can be clicked again. *)
Lemma settings_enabled_again `{DaemonClient X} `{SettingsProcess X} `{Crypto} `{Backoff (serviceClient * CmdWorld X)} addr :
  ∀ tu, wp (started addr GoSettings) (λ r tu', r = Ok tt → TL_settingsEnabled tu'.1 = true) tu.
Proof.
  intros tu. unfold wp. destruct (started addr GoSettings tu) as [[[]|e|s|] tu'] eqn:E; try done. intros _. unfold started in E.
  apply bind_ok_inv in E as (? & ? & _ & E). apply bind_ok_inv in E as (? & ? & _ & E). by injection E as <-.
Qed.

(* ------------------------------------------------------------------ *)
(** ** Examples *)

Definition demo_processes (me : Z) (others : list Z) : Processes := {|
  os_TempDir := ["tmp"]; os_Getpid := me; os_FindProcess := λ _, None;
  process_Signal0 := λ p, if decide (p ∈ others) then None else Some (Plain "os: process already finished") |}.
#[local] Instance never_killed : Process := {| tmp_random := λ n, pretty n; short_write := λ _, 3; killed := λ _, false |}.
Abbreviation tray_files := (mkFs (list_to_map [(["tmp"], NDir 511)]) 0).
Abbreviation demo_check me others w := (@checkPIDFile (calls_but None) never_killed (demo_processes me others) w).
Abbreviation first_tray := (demo_check 4242%Z [] tray_files).2.

Lemma demo_process_laws me others : @ProcessLaws (demo_processes me others) (λ p, p ∈ others) (λ _, True).
Proof. split; [done|]. intros pid _. simpl. case_decide; split; [done|done|discriminate|by intros [? _]]. Defined.

Lemma one_tray_witness :
  ∃ w3, demo_check 17%Z [4242%Z] first_tray = (Err (Plain "process already exists: 4242"), w3) ∧ Fs_nodes w3 = Fs_nodes first_tray.
Proof.
  refine (proj1 (one_tray (H := calls_but None) never_killed never_killed (demo_processes 4242 []) (demo_processes 17 [4242%Z])
    (λ p, p ∈ [4242%Z]) (λ _, True) tray_files first_tray first_tray (demo_process_laws 17 [4242%Z]) eq_refl _ _ eq_refl _) _).
  - split; reflexivity.
  - vm_compute. reflexivity.
  - intros k _. split; reflexivity.
  - split; [left|exact I].
Defined.

(** The file stays when the tray has ended: a process that has got its number
    by then, be it the new tray itself, keeps it from starting. *)
Example stale_pid_refuses :
  (demo_check 4242%Z [4242%Z] first_tray).1 = Err (Plain "process already exists: 4242") ∧
  (demo_check 17%Z [] first_tray).1 = Ok tt.
Proof. split; vm_compute; reflexivity. Qed.
