(* ===== verification/Service.v ===== *)
(** * Service: the client as a service of the operating system (client/cmd:
    service.go, service_controller.go, service_installer.go; util/log.go)

    The program of the service listens where the commands expect the daemon and
    serves [Daemon] there; the commands start, stop and install it.  The
    manager of services (kardianos/service), the listener and the parser of
    flags (pflag) are parameters. *)

From S2P Require Import Prelude GoLib Model Network UpdateChannel FileStore Account Groups Peers Turn Encryption Jwt GrpcServer Util Signal SignalClient MgmClient SystemInfo ClientModel WgIface PeerConn Engine Http OAuth DaemonModel ClientConfig ClientLogin Daemon DaemonInv Commands Files JsonFile.

(* ------------------------------------------------------------------ *)
(** ** util/log.go *)

(** What the logger is set to: the level, the file ([None]: the standard
    error), and whether callers are reported. *)
Record LogSettings := mkLogSettings { Log_Level : string; Log_File : option string; Log_ReportCaller : bool }.
Definition InitLog (ParseLevel : string → error + string) (logLevel logPath : string) : error + LogSettings :=
  match ParseLevel logLevel with
  | inl err => inl err
  | inr level => inr (mkLogSettings level
      (if decide (logPath ≠ "" ∧ logPath ≠ "console") then Some logPath else None) (bool_decide (level = "debug")))
  end.

(* ------------------------------------------------------------------ *)
(** ** Data *)

(** [strings.Split(s, sep)] for a separator of several bytes; [skip] bytes of
    one that was found are still to be passed over. *)
Fixpoint split_str (sep : string) (skip : nat) (s : string) : list string :=
  match s with
  | "" => [""]
  | String a s' =>
      match skip with
      | S skip' => split_str sep skip' s'
      | 0 =>
          if HasPrefix s sep then "" :: split_str sep (pred (String.length sep)) s'
          else match split_str sep 0 s' with x :: l => String a x :: l | [] => [String a ""] end
      end
  end.
Definition split_address (daemonAddr : string) : list string := split_str "://" 0 daemonAddr.

(** service.Config of kardianos/service, as far as it is set. *)
Record SvcConfig := mkSvcConfig {
  Svc_Name : string; Svc_DisplayName : string; Svc_Description : string;
  Svc_Arguments : list string; Svc_Dependencies : list string }.

(** The server of the program: made, serving at a listener, stopped. *)
Inductive ServState := ServMade | ServServing (network address : string) | ServStopped.

(** The files; the process of the daemon; the program's server; the goroutine
    that is to serve; whether the context is cancelled; the logger; what the
    manager of services has been asked to install. *)
Record SvcWorld (X : Type) := mkSvcWorld {
  SV_Files : FsWorld; SV_Daemon : DWorld X; SV_Serv : option ServState; SV_Goroutine : option (string * string);
  SV_Cancelled : bool; SV_Log : option LogSettings; SV_Installed : option SvcConfig }.
Arguments mkSvcWorld {X}.
Arguments SV_Files {X}.
Arguments SV_Daemon {X}.
Arguments SV_Serv {X}.
Arguments SV_Goroutine {X}.
Arguments SV_Cancelled {X}.
Arguments SV_Log {X}.
Arguments SV_Installed {X}.

(** The listener; logrus' levels; the manager of services: [svc_Run] starts the
    program, waits for the end and stops it. *)
Class ServiceLib (X : Type) := {
  svc_GOOS : string;
  svc_Listen : string → string → option error;
  svc_ParseLevel : string → error + string;
  svc_New : SvcConfig → option error;
  svc_Run : M (SvcWorld X) unit → M (SvcWorld X) unit → M (SvcWorld X) unit;
  svc_Install : SvcConfig → option error;
  svc_Control : string → option error;     (** start, stop, restart, uninstall *)
  svc_env : string → option string }.

Section service.
Context {X : Type} `{Sys X} `{MgmAPI X} `{HttpLib X} `{Texts} `{Crypto} `{Runtime} `{WgCtrl} `{Net} `{DurationText}.
Context `{OsCalls, Process, ServiceLib X}.
Abbreviation MS := (M (SvcWorld X)).

Definition on_files {A} (m : M FsWorld A) : MS A := λ w,
  let r := m (SV_Files w) in (r.1, mkSvcWorld r.2 (SV_Daemon w) (SV_Serv w) (SV_Goroutine w) (SV_Cancelled w) (SV_Log w) (SV_Installed w)).
Definition on_daemon {A} (m : M (DWorld X) A) : MS A := λ w,
  let r := m (SV_Daemon w) in (r.1, mkSvcWorld (SV_Files w) r.2 (SV_Serv w) (SV_Goroutine w) (SV_Cancelled w) (SV_Log w) (SV_Installed w)).
Definition set_Serv (s : ServState) : MS unit := modify (λ w,
  mkSvcWorld (SV_Files w) (SV_Daemon w) (Some s) (SV_Goroutine w) (SV_Cancelled w) (SV_Log w) (SV_Installed w)).
Definition set_Goroutine (g : option (string * string)) : MS unit := modify (λ w,
  mkSvcWorld (SV_Files w) (SV_Daemon w) (SV_Serv w) g (SV_Cancelled w) (SV_Log w) (SV_Installed w)).
Definition cancel_program : MS unit := modify (λ w,
  mkSvcWorld (SV_Files w) (SV_Daemon w) (SV_Serv w) (SV_Goroutine w) true (SV_Log w) (SV_Installed w)).
Definition set_Log (l : LogSettings) : MS unit := modify (λ w,
  mkSvcWorld (SV_Files w) (SV_Daemon w) (SV_Serv w) (SV_Goroutine w) (SV_Cancelled w) (Some l) (SV_Installed w)).
Definition svc_outcome (o : option error) : MS unit := match o with Some e => fail e | None => mret tt end.

(** The path of the socket. *)
Definition socket_path (p : string) : list string := filter (λ s, s ≠ "") (Split p "/"%char).

(* ---------------------------------------------------------------- *)
(** ** service_controller.go: the program *)

(** What is left of a socket at the address is removed, errors are only
    logged. *)
Definition clean_socket (p : list string) : MS unit :=
  stat ← try (on_files (os_Stat p));
  match stat with
  | inr i => if FI_IsDir i then mret tt else _ ← try (on_files (os_Remove p)); mret tt
  | inl _ => mret tt
  end.
Definition program_Start (daemonAddr : string) : MS unit :=
  _ ← set_Serv ServMade;
  let split := split_address daemonAddr in
  network ← index split 0;
  _ ← (if decide (network = "unix") then address ← index split 1; clean_socket (socket_path address)
       else if decide (network = "tcp") then mret tt
       else fail (Plain ("unsupported daemon address protocol: " +:+ network)));
  address ← index split 1;
  _ ← map_err (λ err, Plain ("failed to listen daemon interface: " +:+ error_text err)) (svc_outcome (svc_Listen network address));
  set_Goroutine (Some (network, address)).

(** The goroutine: a daemon is made of the flags and started; a failure of
    that ends the process, one of the permissions only the goroutine. *)
Definition program_serve (f : Flags) : MS unit :=
  g ← gets SV_Goroutine;
  match g with
  | None => mret tt
  | Some (network, address) =>
      _ ← set_Goroutine None;
      c ← (if decide (network = "unix") then try (on_files (os_Chmod (socket_path address) 438)) else mret (inr tt));
      match c with
      | inl _ => mret tt
      | inr _ =>
          r ← try (on_daemon (_ ← modify (set_Server (newDaemon (Fl_managementURL f) (Fl_adminURL f) (Fl_configPath f) (Fl_logFile f)));
                               Daemon_Start));
          match r with
          | inl err => panic ("exit: failed to start daemon: " +:+ error_text err)
          | inr _ =>
              s ← gets SV_Serv;
              match s with
              | Some ServMade => set_Serv (ServServing network address)
              | _ => mret tt   (* Serve on a stopped server only reports an error *)
              end
          end
      end
  end.

Definition program_Stop : MS unit :=
  _ ← cancel_program;
  s ← gets SV_Serv;
  match s with Some _ => set_Serv ServStopped | None => mret tt end.

(* ---------------------------------------------------------------- *)
(** ** service.go; the commands *)

Definition newSVCConfig : SvcConfig :=
  mkSvcConfig (if decide (svc_GOOS = "windows") then "Netbird" else "netbird") "Netbird"
    "A WireGuard-based mesh network that connects your devices into a single private network." [] [].

(** A failure ends the process before it can be returned. *)
Definition newSVC (conf : SvcConfig) : MS unit :=
  match svc_New conf with Some err => panic ("exit: " +:+ error_text err) | None => mret tt end.

Definition defaultConfigPath : string := "/etc/netbird/config.json".
Definition defaultLogFile : string := "/var/log/netbird/client.log".
Definition defaultDaemonAddr : string := if decide (svc_GOOS = "windows") then "tcp://127.0.0.1:41731" else "unix:///var/run/netbird.sock".
Definition default_flags : Flags :=
  mkFlags defaultDaemonAddr "" "https://app.netbird.io" defaultConfigPath "info" defaultLogFile "" "".

(** What all commands begin with: the flags from the environment, the files of
    the former name, and but for the installer the logger. *)
Definition svc_flags (f : Flags) : Flags := SetFlagsFromEnvVars svc_env f.
Definition svc_rebrand (depth : nat) (f : Flags) : MS unit :=
  on_files (handleRebrand depth (bool_decide (Fl_logFile f = defaultLogFile)) (bool_decide (Fl_configPath f = defaultConfigPath))).
Definition svc_log (f : Flags) : MS unit :=
  match InitLog svc_ParseLevel (Fl_logLevel f) (Fl_logFile f) with inl err => fail err | inr l => set_Log l end.

Definition runCmd (depth : nat) (f : Flags) : MS unit :=
  let f := svc_flags f in
  _ ← svc_rebrand depth f;
  _ ← map_err (λ err, Plain ("failed initializing log " +:+ error_text err)) (svc_log f);
  _ ← newSVC newSVCConfig;
  svc_Run (program_Start (Fl_daemonAddr f)) program_Stop.

(** start, stop and restart: a request to the manager of services. *)
Definition controlCmd (action : string) (log_error : error → error) (depth : nat) (f : Flags) : MS unit :=
  let f := svc_flags f in
  _ ← svc_rebrand depth f;
  _ ← map_err log_error (svc_log f);
  _ ← newSVC newSVCConfig;
  svc_outcome (svc_Control action).
Definition startCmd : nat → Flags → MS unit := controlCmd "start" id.
Definition stopCmd : nat → Flags → MS unit := controlCmd "stop" (λ err, Plain ("failed initializing log " +:+ error_text err)).
Definition restartCmd : nat → Flags → MS unit := controlCmd "restart" (λ err, Plain ("failed initializing log " +:+ error_text err)).

(** service_installer.go *)
Definition install_arguments (f : Flags) : list string :=
  ["service"; "run"; "--config"; Fl_configPath f; "--log-level"; Fl_logLevel f] ++
  (if decide (Fl_managementURL f ≠ "") then ["--management-url"; Fl_managementURL f] else []).
Definition install_config (f : Flags) : SvcConfig :=
  mkSvcConfig (Svc_Name newSVCConfig) (Svc_DisplayName newSVCConfig) (Svc_Description newSVCConfig) (install_arguments f)
    (if decide (svc_GOOS = "linux") then ["After=network.target syslog.target"] else []).
Definition installCmd (depth : nat) (f : Flags) : MS unit :=
  let f := svc_flags f in
  _ ← svc_rebrand depth f;
  let svcConfig := install_config f in
  _ ← newSVC svcConfig;
  _ ← svc_outcome (svc_Install svcConfig);
  modify (λ w, mkSvcWorld (SV_Files w) (SV_Daemon w) (SV_Serv w) (SV_Goroutine w) (SV_Cancelled w) (SV_Log w) (Some svcConfig)).
Definition uninstallCmd (depth : nat) (f : Flags) : MS unit :=
  let f := svc_flags f in
  _ ← svc_rebrand depth f;
  _ ← newSVC newSVCConfig;
  _ ← svc_outcome (svc_Control "uninstall");
  modify (λ w, mkSvcWorld (SV_Files w) (SV_Daemon w) (SV_Serv w) (SV_Goroutine w) (SV_Cancelled w) (SV_Log w) None).
End service.

(** pflag: the flags of an invocation, from those before it.  A word is a
    command; a flag takes the argument that follows it as its value, whatever
    that is. *)
Class Pflag := { pflag_Parse : list string → Flags → Flags }.
Class PflagLaws `{Pflag} := {
  parse_nil f : pflag_Parse [] f = f;
  parse_service args f : pflag_Parse ("service" :: args) f = pflag_Parse args f;
  parse_run args f : pflag_Parse ("run" :: args) f = pflag_Parse args f;
  parse_config v args f : pflag_Parse ("--config" :: v :: args) f = pflag_Parse args
    (mkFlags (Fl_daemonAddr f) (Fl_managementURL f) (Fl_adminURL f) v (Fl_logLevel f) (Fl_logFile f) (Fl_setupKey f) (Fl_preSharedKey f));
  parse_log_level v args f : pflag_Parse ("--log-level" :: v :: args) f = pflag_Parse args
    (mkFlags (Fl_daemonAddr f) (Fl_managementURL f) (Fl_adminURL f) (Fl_configPath f) v (Fl_logFile f) (Fl_setupKey f) (Fl_preSharedKey f));
  parse_management_url v args f : pflag_Parse ("--management-url" :: v :: args) f = pflag_Parse args
    (mkFlags (Fl_daemonAddr f) v (Fl_adminURL f) (Fl_configPath f) (Fl_logLevel f) (Fl_logFile f) (Fl_setupKey f) (Fl_preSharedKey f)) }.

(* ------------------------------------------------------------------ *)
(** ** Properties *)

(** Splitting an address at the separator. *)
Lemma split_str_nonempty sep k s : split_str sep k s ≠ [].
Proof.
  revert k. induction s as [|a s IH]; intros k; [done|]. cbn [split_str]. destruct k; [|apply IH].
  destruct (HasPrefix (String a s) sep); [done|]. by destruct (split_str sep 0 s).
Qed.

Section properties.
Context {X : Type} `{Sys X} `{MgmAPI X} `{HttpLib X} `{Texts} `{Crypto} `{Runtime} `{WgCtrl} `{Net} `{DurationText}.
Context `{OsCalls, Process, !ServiceLib X}.
Implicit Types w : SvcWorld X.

Lemma wp_on_files {A} (m : M FsWorld A) (Q : Res A → SvcWorld X → Prop) w :
  (∀ r fs, m (SV_Files w) = (r, fs) →
    Q r (mkSvcWorld fs (SV_Daemon w) (SV_Serv w) (SV_Goroutine w) (SV_Cancelled w) (SV_Log w) (SV_Installed w))) → wp (on_files m) Q w.
Proof. intros HQ. unfold wp, on_files. simpl. apply HQ. by destruct (m (SV_Files w)). Qed.

Lemma wp_on_daemon {A} (m : M (DWorld X) A) (Q : Res A → SvcWorld X → Prop) w :
  (∀ r d, m (SV_Daemon w) = (r, d) →
    Q r (mkSvcWorld (SV_Files w) d (SV_Serv w) (SV_Goroutine w) (SV_Cancelled w) (SV_Log w) (SV_Installed w))) → wp (on_daemon m) Q w.
Proof. intros HQ. unfold wp, on_daemon. simpl. apply HQ. by destruct (m (SV_Daemon w)). Qed.

(** The start of the program does not end without a listener where the flag
    says: it listens there and leaves a goroutine to serve; an address of
    another protocol, or one that cannot be listened on, is an error; a
    protocol without an address is a panic. *)
Definition start_outcome (split : list string) (r : Res unit) w' : Prop :=
  match split with
  | [network] =>
      (network = "unix" ∨ network = "tcp") ∧ (∃ s, r = Panic s) ∨ network ≠ "unix" ∧ network ≠ "tcp" ∧ ∃ e, r = Err e
  | network :: address :: _ =>
      (network = "unix" ∨ network = "tcp") ∧
        match svc_Listen network address with
        | None => r = Ok tt ∧ SV_Goroutine w' = Some (network, address) ∧ SV_Serv w' = Some ServMade
        | Some _ => ∃ e, r = Err e
        end ∨
      network ≠ "unix" ∧ network ≠ "tcp" ∧ ∃ e, r = Err e
  | [] => False
  end.

(** Neither looking at a path nor removing what is there ends a process. *)
Lemma Remove_returns p (fs : FsWorld) : wp (os_Remove p) (λ r _, returns r) fs.
Proof.
  unfold os_Remove, entry_of, nodes. wp_step.
  eapply wp_mono; [apply enter_nodes|]. intros [[]|e|m|] w1 [_ Hw1]; simpl; try done. wp_step.
  eapply wp_mono with (Q := λ r _, returns r).
  { wp_step. eapply wp_mono; [apply lookup_path_spec|]. intros r1 w2 [-> Hl].
    destruct (resolve _ _ _ _) as [e|q]; rewrite Hl; simpl; [done|]. destruct (if decide _ then _ else _) as [[]|], (last p); by wp_go. }
  intros [e|e|m|] w2 He; simpl; try done. destruct e.2 as [[]|]; by wp_step.
Qed.
Lemma clean_socket_returns p w :
  wp (clean_socket p) (λ r w', r = Ok tt ∧ SV_Serv w' = SV_Serv w ∧ SV_Goroutine w' = SV_Goroutine w) w.
Proof.
  unfold clean_socket. wp_step. wp_step. apply wp_on_files. intros r fs Hr.
  pose proof (Stat_returns p (SV_Files w)) as Hs. unfold wp in Hs. rewrite Hr in Hs. destruct Hs as [_ Hs].
  destruct r as [i|e|m|]; try done; simpl. destruct (FI_IsDir i); [by wp_step|]. wp_step. wp_step.
  apply wp_on_files. simpl. intros r fs' Hr'. pose proof (Remove_returns p fs) as Hrem. unfold wp in Hrem. rewrite Hr' in Hrem.
  destruct r; try done; by wp_step.
Qed.

Lemma listen_outcome network rest w :
  SV_Serv w = Some ServMade → (network = "unix" ∨ network = "tcp") →
  wp (address ← index (network :: rest) 1;
      _ ← map_err (λ err, Plain ("failed to listen daemon interface: " +:+ error_text err)) (svc_outcome (svc_Listen network address));
      set_Goroutine (Some (network, address))) (start_outcome (network :: rest)) w.
Proof.
  intros Hw Hn. unfold index, set_Goroutine, start_outcome. wp_step. destruct rest as [|address rest]; simpl; wp_step; [by eauto|].
  wp_step. wp_step. unfold svc_outcome. destruct (svc_Listen network address) eqn:Hl; wp_step; [|wp_step]; left; eauto.
Qed.
Theorem program_Start_outcome daemonAddr w : wp (program_Start daemonAddr) (start_outcome (split_address daemonAddr)) w.
Proof.
  unfold program_Start. wp_step. unfold set_Serv. wp_step. destruct (split_address daemonAddr) as [|network rest] eqn:Hs;
    [by apply split_str_nonempty in Hs|]. eapply wp_then; [reflexivity|]. wp_step.
  destruct (decide (network = "unix")) as [Hu|Hu]; [|destruct (decide (network = "tcp")) as [Ht|Ht]].
  - wp_step. destruct rest as [|address rest]; [unfold wp; simpl; by eauto|].
    apply wp_index; [intros x Hx; injection Hx as <-|intros Hx; discriminate Hx]. simpl.
    eapply wp_mono; [apply clean_socket_returns|]. intros r w1 (-> & Hserv & _). simpl. apply (listen_outcome network (address :: rest)); [done|auto].
  - wp_step. apply listen_outcome; [done|auto].
  - wp_step. destruct rest; right; eauto.
Qed.

(** The goroutine: it serves only for a program that has not been stopped. *)
Lemma program_serve_spec f w :
  wp (program_serve f) (λ r w', (SV_Serv w' = SV_Serv w ∨ SV_Serv w = Some ServMade ∧ ∃ n a, SV_Serv w' = Some (ServServing n a))) w.
Proof.
  unfold program_serve, set_Goroutine, set_Serv. wp_step. wp_step. destruct (SV_Goroutine w) as [[network address]|]; wp_step; [|by left].
  wp_step. wp_step.
  eapply wp_mono with (Q := λ r w', SV_Serv w' = SV_Serv w).
  { destruct (decide (network = "unix")); [|by wp_step]. wp_step. apply wp_on_files. intros [] fs _; done. }
  intros [[e|[]]|e|m|] w1 Hw1; simpl; try by left.
  wp_step. wp_step. apply wp_on_daemon. intros [[]|e|m|] d _; simpl; try by left. wp_step. wp_step.
  rewrite Hw1. destruct (SV_Serv w) as [[]|]; simpl; [right; eauto|by left..].
Qed.
Lemma program_Stop_spec w :
  wp program_Stop (λ r w', r = Ok tt ∧ SV_Cancelled w' = true ∧ SV_Serv w' = (λ _, ServStopped) <$> SV_Serv w) w.
Proof. unfold program_Stop, cancel_program, set_Serv. do 4 wp_step. destruct (SV_Serv w) as [s|] eqn:E; wp_step; by rewrite ?E. Qed.

(** Whatever comes first, stopping or the goroutine that serves: when both are
    through, the program has been stopped. *)
Theorem stop_ends_serving f w w1 r1 w2 r2 :
  SV_Serv w ≠ None →
  (program_Stop w = (r1, w1) ∧ program_serve f w1 = (r2, w2) ∨ program_serve f w = (r1, w1) ∧ program_Stop w1 = (r2, w2)) →
  SV_Serv w2 = Some ServStopped.
Proof.
  intros Hw Hrun. destruct Hrun as [[R1 R2]|[R1 R2]];
    pose proof (program_Stop_spec w) as Hs; pose proof (program_Stop_spec w1) as Hs';
    pose proof (program_serve_spec f w) as Hv; pose proof (program_serve_spec f w1) as Hv'; unfold wp in *; rewrite R1, R2 in *; simpl in *.
  - destruct Hs as (_ & _ & Hs). rewrite Hs in Hv'. destruct (SV_Serv w); [|done]. simpl in Hv'. by destruct Hv' as [|[? _]].
  - destruct Hs' as (_ & _ & Hs2). rewrite Hs2. destruct Hv as [Hv|(_ & n & a & Hv)]; rewrite Hv; [|done]. by destruct (SV_Serv w).
Qed.

(** What the installer registers is, when the operating system runs it,
    the service with the configuration file, the log level and the management
    URL the installer was called with, and nothing else: the address the daemon
    listens at, the log file and the admin URL are those of the defaults. *)
Theorem installed_flags `{PflagLaws} depth f w w' :
  installCmd depth f w = (Ok tt, w') →
  ∃ c, SV_Installed w' = Some c ∧
    let g := svc_flags f in
    pflag_Parse (Svc_Arguments c) default_flags =
      mkFlags defaultDaemonAddr (Fl_managementURL g) "https://app.netbird.io" (Fl_configPath g) (Fl_logLevel g) defaultLogFile "" "".
Proof.
  unfold installCmd. intros (? & w1 & _ & Hrun)%bind_ok_inv. apply bind_ok_inv in Hrun as (? & w2 & _ & Hrun).
  apply bind_ok_inv in Hrun as (? & w3 & _ & Hrun). unfold modify in Hrun. injection Hrun as <-. simpl.
  eexists. split; [done|]. unfold install_config, install_arguments. simpl. rewrite parse_service, parse_run, parse_config, parse_log_level.
  unfold default_flags. simpl. case_decide as Hm; [by rewrite parse_management_url, parse_nil|].
  by rewrite parse_nil, Hm.
Qed.
End properties.

(* ------------------------------------------------------------------ *)
(** ** Examples *)

Definition demo_svc (env : string → option string) : ServiceLib nat := {|
  svc_GOOS := "linux";
  svc_Listen network address := if decide (address = "") then Some (Plain "missing address") else None;
  svc_ParseLevel s := inr s; svc_New c := None;
  svc_Run start stop := (_ ← start; stop);
  svc_Install c := None; svc_Control a := None; svc_env := env |}.
(** The flags that the service is installed with. *)
Fixpoint demo_parse (args : list string) (f : Flags) : Flags :=
  match args with
  | "--config" :: v :: l => demo_parse l (mkFlags (Fl_daemonAddr f) (Fl_managementURL f) (Fl_adminURL f) v (Fl_logLevel f) (Fl_logFile f) (Fl_setupKey f) (Fl_preSharedKey f))
  | "--log-level" :: v :: l => demo_parse l (mkFlags (Fl_daemonAddr f) (Fl_managementURL f) (Fl_adminURL f) (Fl_configPath f) v (Fl_logFile f) (Fl_setupKey f) (Fl_preSharedKey f))
  | "--management-url" :: v :: l => demo_parse l (mkFlags (Fl_daemonAddr f) v (Fl_adminURL f) (Fl_configPath f) (Fl_logLevel f) (Fl_logFile f) (Fl_setupKey f) (Fl_preSharedKey f))
  | _ :: l => demo_parse l f
  | [] => f
  end.
#[local] Instance demo_pflag : Pflag := {| pflag_Parse := demo_parse |}.
#[local] Instance demo_pflag_laws : PflagLaws.
Proof. by split. Qed.

#[local] Instance demo_os : OsCalls := calls_but None.
#[local] Instance demo_process : Process := killed_at None.
#[local] Instance demo_svc_lib : ServiceLib nat := demo_svc (λ _, None).

Definition demo_svc_files : FsWorld := mkFs (list_to_map [
  (["etc"], NDir 493); (["etc"; "netbird"], NDir 493); (["etc"; "netbird"; "config.json"], NFile 384 "{}");
  (["var"], NDir 493); (["var"; "log"], NDir 493); (["var"; "log"; "netbird"], NDir 493); (["var"; "log"; "netbird"; "client.log"], NFile 384 "");
  (["var"; "run"], NDir 493); (["var"; "run"; "netbird.sock"], NFile 438 "")]) 0.
Definition demo_svc_world : SvcWorld nat := mkSvcWorld demo_svc_files demo_fresh None None false None None.
Definition demo_svc_flags : Flags :=
  mkFlags "tcp://127.0.0.1:9000" "https://mgm.example.com" "https://admin.example.com" "/opt/config.json" "debug" "/opt/client.log" "" "".
Abbreviation demo_installed := (installCmd 2 demo_svc_flags demo_svc_world).

Lemma installed_flags_witness :
  ∃ c, SV_Installed demo_installed.2 = Some c ∧
    let g := svc_flags demo_svc_flags in
    pflag_Parse (Svc_Arguments c) default_flags =
      mkFlags defaultDaemonAddr (Fl_managementURL g) "https://app.netbird.io" (Fl_configPath g) (Fl_logLevel g) defaultLogFile "" "".
Proof.
  apply (installed_flags 2 demo_svc_flags demo_svc_world).
  vm_compute. reflexivity.
Defined.

(** A daemon that is installed to listen elsewhere listens at the default. *)
Example install_drops_address :
  (c ← SV_Installed demo_installed.2; Some (Fl_daemonAddr (pflag_Parse (Svc_Arguments c) default_flags))) = Some "unix:///var/run/netbird.sock" ∧
  Fl_daemonAddr demo_svc_flags = "tcp://127.0.0.1:9000".
Proof. split; vm_compute; reflexivity. Qed.

(** A stale socket is cleared away before listening; a protocol alone, which is
    what a forgotten path gives, is a panic; another protocol an error. *)
Example program_Start_runs :
  (program_Start "unix:///var/run/netbird.sock" demo_svc_world).1 = Ok tt ∧
  Fs_nodes (SV_Files (program_Start "unix:///var/run/netbird.sock" demo_svc_world).2) !! ["var"; "run"; "netbird.sock"] = None ∧
  (program_Start "tcp://127.0.0.1:41731" demo_svc_world).1 = Ok tt ∧
  (program_Start "unix" demo_svc_world).1 = Panic "index out of range" ∧
  (program_Start "http://localhost" demo_svc_world).1 = Err (Plain "unsupported daemon address protocol: http").
Proof. split_and!; vm_compute; reflexivity. Qed.

(** The service from its start: it serves the daemon, and stops. *)
Abbreviation demo_served := ((_ ← program_Start "tcp://127.0.0.1:41731";
   program_serve (H := demo_sys) (H2 := demo_texts) (H3 := demo_crypto)
     (mkFlags "" "https://example.com" "" "config.json" "info" "log" "" "")) demo_svc_world).
Example program_serve_run :
  SV_Serv demo_served.2 = Some (ServServing "tcp" "127.0.0.1:41731") ∧
  SV_Serv (program_Stop demo_served.2).2 = Some ServStopped ∧
  DS_configPath (DW_Server (SV_Daemon demo_served.2)) = "config.json".
Proof. split_and!; vm_compute; reflexivity. Qed.
