(* ===== verification/StoreJson.v ===== *)
(** * StoreJson: the file of the account store (file_store.go and the structs
    of management/server, through encoding/json and util/file.go)

    The store is written as one JSON object with the accounts; the indexes are
    tagged to stay out of it.  Encoding and decoding of each struct are written
    out, with one law per type: what is encoded is decoded to the same value.
    With [JsonFile] this gives the store's file: it implements the one cell the
    manager's theorems speak about ([World_Disk]). *)

From S2P Require Import Prelude GoLib Model Http WgIface Files JsonFile.
From stdpp Require Import sorting.

(* ------------------------------------------------------------------ *)
(** ** encoding/json *)

(** A type with its zero value, its encoding (none when MarshalJSON reports an
    error) and its decoding into a variable that holds a value. *)
Class Coded (A : Type) := {
  zero : A;
  enc : A → option Json;
  dec : A → Json → option A }.
#[export] Hint Mode Coded ! : typeclass_instances.
Class CodedOk (A : Type) `{Coded A} := dec_enc : ∀ (x : A) j, enc x = Some j → dec zero j = Some x.

(** The text of a time, RFC 3339 with nanoseconds, which years after 9999 do
    not have. *)
Class TimeText := {
  time_MarshalJSON : Z → option string;
  time_UnmarshalJSON : string → option Z;
  time_text_read t s : time_MarshalJSON t = Some s → time_UnmarshalJSON s = Some t }.

#[export] Instance string_coded : Coded string := {| zero := ""; enc := λ s, Some (JString s); dec := decode_string |}.
#[export] Instance bool_coded : Coded bool := {| zero := false; enc := λ b, Some (JBool b); dec := decode_bool |}.
(** [[]string]. *)
#[export] Instance strings_coded : Coded (list string) :=
  {| zero := []; enc := λ l, Some (JArray (JString <$> l)); dec := λ _, decode_strings |}.

(** Numbers of a width; others are not values of the type. *)
Definition enc_range (lo hi z : Z) : option Json := if decide (lo ≤ z < hi)%Z then Some (JNumber z) else None.
Definition dec_range (lo hi cur : Z) (j : Json) : option Z :=
  match j with
  | JNull => Some cur
  | JNumber z => if decide (lo ≤ z < hi)%Z then Some z else None
  | _ => None
  end.
Definition int_coded : Coded Z := {| zero := 0%Z; enc := enc_range (- 2 ^ 63) (2 ^ 63); dec := dec_range (- 2 ^ 63) (2 ^ 63) |}.
Definition uint64_coded : Coded Z := {| zero := 0%Z; enc := enc_range 0 (2 ^ 64); dec := dec_range 0 (2 ^ 64) |}.

(** [time.Time]; its zero value is the year 1. *)
Definition zero_time : Z := - 62135596800 * 1000000000.
Definition time_coded `{TimeText} : Coded Z := {|
  zero := zero_time;
  enc := λ t, JString <$> time_MarshalJSON t;
  dec := λ cur j, match j with JNull => Some cur | JString s => time_UnmarshalJSON s | _ => None end |}.

(** [net.IP]: its text; no address has the empty text.  One that is read is
    taken in its 4-byte form. *)
Definition ip_coded : Coded IP := {|
  zero := [];
  enc := λ ip, match ip with
    | [] => Some (JString "")
    | _ => if decide (length ip = 4 ∧ Forall (λ b, 0 ≤ b < 256)%Z ip) then Some (JString (IP_String ip)) else None end;
  dec := λ cur j, match j with
    | JNull => Some cur
    | JString "" => Some []
    | JString s => parseIPv4 s
    | _ => None end |}.

(** [[]byte]: base64 of encoding/base64, with padding, without line breaks. *)
Definition sextets : string := "ABCDEFGHIJKLMNOPQRSTUVWXYZabcdefghijklmnopqrstuvwxyz0123456789+/".
Definition sextet (z : Z) : ascii := default "="%char (String.get (Z.to_nat z) sextets).
Definition unsextet (a : ascii) : option Z :=
  (λ n, Z.of_nat n) <$> list_find (λ b, b = a) (String.list_ascii_of_string sextets) ≫= λ p, Some p.1.
Fixpoint base64 (l : list Z) : string :=
  match l with
  | [] => ""
  | [a] => String (sextet (a / 4)) (String (sextet (a mod 4 * 16)) "==")
  | [a; b] => String (sextet (a / 4)) (String (sextet (a mod 4 * 16 + b / 16)) (String (sextet (b mod 16 * 4)) "="))
  | a :: b :: c :: l' =>
      String (sextet (a / 4)) (String (sextet (a mod 4 * 16 + b / 16)) (String (sextet (b mod 16 * 4 + c / 64))
        (String (sextet (c mod 64)) (base64 l'))))
  end.
Fixpoint unbase64 (s : string) : option (list Z) :=
  match s with
  | "" => Some []
  | String p (String q (String r (String t s'))) =>
      p ← unsextet p; q ← unsextet q;
      if decide (r = "="%char ∧ t = "="%char ∧ s' = "") then Some [(p * 4 + q / 16)%Z]
      else r ← unsextet r;
        if decide (t = "="%char ∧ s' = "") then Some [(p * 4 + q / 16)%Z; (q mod 16 * 16 + r / 4)%Z]
        else t ← unsextet t; l ← unbase64 s';
          Some ((p * 4 + q / 16)%Z :: (q mod 16 * 16 + r / 4)%Z :: (r mod 4 * 64 + t)%Z :: l)
  | _ => None
  end.
Definition bytes_coded : Coded (list Z) := {|
  zero := [];
  enc := λ l, if decide (Forall (λ b, 0 ≤ b < 256)%Z l) then Some (JString (base64 l)) else None;
  dec := λ cur j, match j with JNull => Some [] | JString s => unbase64 s | _ => None end |}.

Example base64_mask : base64 [255; 255; 0; 0]%Z = "//8AAA==" ∧ unbase64 "//8AAA==" = Some [255; 255; 0; 0]%Z.
Proof. by vm_compute. Qed.

(** A struct: the fields in their order; a field that is read takes the values
    of its key in turn, whatever its case. *)
Definition obj (fields : list (string * option Json)) : option Json :=
  JObject <$> mapM (λ kv, (λ j, (kv.1, j)) <$> kv.2) fields.
Definition field {A} `{Coded A} (name : string) (fields : list (string * Json)) (cur : A) : option A :=
  foldl (λ o kv, cur ← o; if is_field name kv.1 then dec cur kv.2 else Some cur) (Some cur) fields.

(** [map[string]*T]: the keys are written in order; a value that is read is
    decoded into a new [T].  A null for a value, which is never written, would
    be a nil pointer; it is refused here. *)
Definition key_le (a b : string * Json) : Prop := String.leb a.1 b.1 = true.
#[export] Instance key_le_dec a b : Decision (key_le a b) := decide (String.leb a.1 b.1 = true).
Definition enc_map {A} `{Coded A} (m : gmap string A) : option Json :=
  (λ l, JObject (merge_sort key_le l)) <$> mapM (λ kv, (λ j, (kv.1, j)) <$> enc kv.2) (map_to_list m).
Definition dec_elem {A} `{Coded A} (j : Json) : option A := match j with JNull => None | _ => dec zero j end.
Definition dec_map {A} `{Coded A} (cur : gmap string A) (j : Json) : option (gmap string A) :=
  match j with
  | JNull => Some ∅
  | JObject fields => foldl (λ o kv, m ← o; v ← dec_elem kv.2; Some (<[kv.1 := v]> m)) (Some cur) fields
  | _ => None
  end.
#[export] Instance map_coded {A} `{Coded A} : Coded (gmap string A) := {| zero := ∅; enc := enc_map; dec := dec_map |}.
(** A map or a pointer that may be nil. *)
#[export] Instance nil_coded {A} `{Coded A} : Coded (option A) := {|
  zero := None;
  enc := λ o, match o with Some a => enc a | None => Some JNull end;
  dec := λ cur j, match j with JNull => Some None | _ => Some <$> dec (default zero cur) j end |}.

(* ------------------------------------------------------------------ *)
(** ** The structs *)


Definition enc_Meta (m : PeerSystemMeta) : option Json :=
  obj [("Hostname", enc (Meta_Hostname m)); ("GoOS", enc (Meta_GoOS m)); ("Kernel", enc (Meta_Kernel m)); ("Core", enc (Meta_Core m));
       ("Platform", enc (Meta_Platform m)); ("OS", enc (Meta_OS m)); ("WtVersion", enc (Meta_WtVersion m)); ("UIVersion", enc (Meta_UIVersion m))].
Definition dec_Meta (m : PeerSystemMeta) (j : Json) : option PeerSystemMeta :=
  match j with
  | JNull => Some m
  | JObject l =>
      a ← field "Hostname" l (Meta_Hostname m); b ← field "GoOS" l (Meta_GoOS m); c ← field "Kernel" l (Meta_Kernel m);
      d ← field "Core" l (Meta_Core m); e ← field "Platform" l (Meta_Platform m); f ← field "OS" l (Meta_OS m);
      g ← field "WtVersion" l (Meta_WtVersion m); h ← field "UIVersion" l (Meta_UIVersion m);
      Some (mkMeta a b c d e f g h)
  | _ => None
  end.
#[export] Instance Meta_coded : Coded PeerSystemMeta := {| zero := mkMeta "" "" "" "" "" "" "" ""; enc := enc_Meta; dec := dec_Meta |}.

Definition enc_User (u : User) : option Json := obj [("Id", enc (User_Id u)); ("Role", enc (User_Role u))].
Definition dec_User (u : User) (j : Json) : option User :=
  match j with
  | JNull => Some u
  | JObject l => a ← field "Id" l (User_Id u); b ← field "Role" l (User_Role u); Some (mkUser a b)
  | _ => None
  end.
#[export] Instance User_coded : Coded User := {| zero := mkUser "" ""; enc := enc_User; dec := dec_User |}.

Definition enc_Group (g : Group) : option Json :=
  obj [("ID", enc (Group_ID g)); ("Name", enc (Group_Name g)); ("Peers", enc (Group_Peers g))].
Definition dec_Group (g : Group) (j : Json) : option Group :=
  match j with
  | JNull => Some g
  | JObject l =>
      a ← field "ID" l (Group_ID g); b ← field "Name" l (Group_Name g); c ← field "Peers" l (Group_Peers g);
      Some (mkGroup a b c)
  | _ => None
  end.
#[export] Instance Group_coded : Coded Group := {| zero := mkGroup "" "" []; enc := enc_Group; dec := dec_Group |}.

Definition enc_Rule (r : Rule) : option Json :=
  obj [("ID", enc (Rule_ID r)); ("Name", enc (Rule_Name r)); ("Source", enc (Rule_Source r));
       ("Destination", enc (Rule_Destination r)); ("Flow", enc (Coded := int_coded) (Rule_Flow r))].
Definition dec_Rule (r : Rule) (j : Json) : option Rule :=
  match j with
  | JNull => Some r
  | JObject l =>
      a ← field "ID" l (Rule_ID r); b ← field "Name" l (Rule_Name r); c ← field "Source" l (Rule_Source r);
      d ← field "Destination" l (Rule_Destination r); e ← field (H := int_coded) "Flow" l (Rule_Flow r);
      Some (mkRule a b c d e)
  | _ => None
  end.
#[export] Instance Rule_coded : Coded Rule := {| zero := mkRule "" "" [] [] 0; enc := enc_Rule; dec := dec_Rule |}.

Definition enc_IPNet (n : IPNet) : option Json :=
  obj [("IP", enc (Coded := ip_coded) (IPNet_IP n)); ("Mask", enc (Coded := bytes_coded) (IPNet_Mask n))].
Definition dec_IPNet (n : IPNet) (j : Json) : option IPNet :=
  match j with
  | JNull => Some n
  | JObject l =>
      a ← field (H := ip_coded) "IP" l (IPNet_IP n); b ← field (H := bytes_coded) "Mask" l (IPNet_Mask n);
      Some (mkIPNet a b)
  | _ => None
  end.
#[export] Instance IPNet_coded : Coded IPNet := {| zero := mkIPNet [] []; enc := enc_IPNet; dec := dec_IPNet |}.

Definition enc_Network (n : Network) : option Json :=
  obj [("Id", enc (Network_Id n)); ("Net", enc (Network_Net n)); ("Dns", enc (Network_Dns n));
       ("Serial", enc (Coded := uint64_coded) (Network_Serial n))].
Definition dec_Network (n : Network) (j : Json) : option Network :=
  match j with
  | JNull => Some n
  | JObject l =>
      a ← field "Id" l (Network_Id n); b ← field "Net" l (Network_Net n); c ← field "Dns" l (Network_Dns n);
      d ← field (H := uint64_coded) "Serial" l (Network_Serial n);
      Some (mkNetwork a b c d)
  | _ => None
  end.
#[export] Instance Network_coded : Coded Network := {| zero := mkNetwork "" (mkIPNet [] []) "" 0; enc := enc_Network; dec := dec_Network |}.

Section timed.
Context `{TimeText}.

Definition enc_Status (s : PeerStatus) : option Json :=
  obj [("LastSeen", enc (Coded := time_coded) (Status_LastSeen s)); ("Connected", enc (Status_Connected s))].
Definition dec_Status (s : PeerStatus) (j : Json) : option PeerStatus :=
  match j with
  | JNull => Some s
  | JObject l =>
      a ← field (H := time_coded) "LastSeen" l (Status_LastSeen s); b ← field "Connected" l (Status_Connected s);
      Some (mkStatus a b)
  | _ => None
  end.
#[export] Instance Status_coded : Coded PeerStatus := {| zero := mkStatus zero_time false; enc := enc_Status; dec := dec_Status |}.

Definition enc_Peer (p : Peer) : option Json :=
  obj [("Key", enc (Peer_Key p)); ("SetupKey", enc (Peer_SetupKey p)); ("IP", enc (Coded := ip_coded) (Peer_IP p));
       ("Meta", enc (Peer_Meta p)); ("Name", enc (Peer_Name p)); ("Status", enc (Peer_Status p)); ("UserID", enc (Peer_UserID p))].
Definition dec_Peer (p : Peer) (j : Json) : option Peer :=
  match j with
  | JNull => Some p
  | JObject l =>
      a ← field "Key" l (Peer_Key p); b ← field "SetupKey" l (Peer_SetupKey p); c ← field (H := ip_coded) "IP" l (Peer_IP p);
      d ← field "Meta" l (Peer_Meta p); e ← field "Name" l (Peer_Name p); f ← field "Status" l (Peer_Status p);
      g ← field "UserID" l (Peer_UserID p);
      Some (mkPeer a b c d e f g)
  | _ => None
  end.
#[export] Instance Peer_coded : Coded Peer :=
  {| zero := mkPeer "" "" [] (mkMeta "" "" "" "" "" "" "" "") "" None ""; enc := enc_Peer; dec := dec_Peer |}.

Definition enc_SetupKey (k : SetupKey) : option Json :=
  obj [("Id", enc (SetupKey_Id k)); ("Key", enc (SetupKey_Key k)); ("Name", enc (SetupKey_Name k)); ("Type", enc (SetupKey_Type k));
       ("CreatedAt", enc (Coded := time_coded) (SetupKey_CreatedAt k)); ("ExpiresAt", enc (Coded := time_coded) (SetupKey_ExpiresAt k));
       ("Revoked", enc (SetupKey_Revoked k)); ("UsedTimes", enc (Coded := int_coded) (SetupKey_UsedTimes k));
       ("LastUsed", enc (Coded := time_coded) (SetupKey_LastUsed k))].
Definition dec_SetupKey (k : SetupKey) (j : Json) : option SetupKey :=
  match j with
  | JNull => Some k
  | JObject l =>
      a ← field "Id" l (SetupKey_Id k); b ← field "Key" l (SetupKey_Key k); c ← field "Name" l (SetupKey_Name k);
      d ← field "Type" l (SetupKey_Type k); e ← field (H := time_coded) "CreatedAt" l (SetupKey_CreatedAt k);
      f ← field (H := time_coded) "ExpiresAt" l (SetupKey_ExpiresAt k); g ← field "Revoked" l (SetupKey_Revoked k);
      h ← field (H := int_coded) "UsedTimes" l (SetupKey_UsedTimes k); i ← field (H := time_coded) "LastUsed" l (SetupKey_LastUsed k);
      Some (mkSetupKey a b c d e f g h i)
  | _ => None
  end.
#[export] Instance SetupKey_coded : Coded SetupKey :=
  {| zero := mkSetupKey "" "" "" "" zero_time zero_time false 0 zero_time; enc := enc_SetupKey; dec := dec_SetupKey |}.

(** An account always has a network; one that is read without is refused here
    (its pointer would be nil). *)
Definition enc_Account (a : Account) : option Json :=
  obj [("Id", enc (Account_Id a)); ("CreatedBy", enc (Account_CreatedBy a)); ("Domain", enc (Account_Domain a));
       ("DomainCategory", enc (Account_DomainCategory a)); ("IsDomainPrimaryAccount", enc (Account_IsDomainPrimaryAccount a));
       ("SetupKeys", enc (Account_SetupKeys a)); ("Network", enc (Some (Account_Network a))); ("Peers", enc (Account_Peers a));
       ("Users", enc (Account_Users a)); ("Groups", enc (Account_Groups a)); ("Rules", enc (Account_Rules a))].
Definition dec_Account (x : Account) (j : Json) : option Account :=
  match j with
  | JNull => Some x
  | JObject l =>
      a ← field "Id" l (Account_Id x); b ← field "CreatedBy" l (Account_CreatedBy x); c ← field "Domain" l (Account_Domain x);
      d ← field "DomainCategory" l (Account_DomainCategory x);
      e ← field "IsDomainPrimaryAccount" l (Account_IsDomainPrimaryAccount x);
      f ← field "SetupKeys" l (Account_SetupKeys x); n ← field "Network" l (None : option Network); g ← n;
      h ← field "Peers" l (Account_Peers x); i ← field "Users" l (Account_Users x);
      o ← field "Groups" l (Account_Groups x); r ← field "Rules" l (Account_Rules x);
      Some (mkAccount a b c d e f g h i o r)
  | _ => None
  end.
#[export] Instance Account_coded : Coded Account :=
  {| zero := mkAccount "" "" "" "" false ∅ (mkNetwork "" (mkIPNet [] []) "" 0) ∅ ∅ None None; enc := enc_Account; dec := dec_Account |}.

(** [FileStore]: the accounts; the indexes stay out of the file. *)
Definition enc_Store (accounts : gmap string Account) : option Json := obj [("Accounts", enc accounts)].
Definition dec_Store (j : Json) : option (gmap string Account) :=
  match j with JObject l => accounts ← field "Accounts" l (∅ : gmap string Account); Some accounts | _ => None end.
End timed.

(* ------------------------------------------------------------------ *)
(** ** The laws *)

#[export] Instance string_ok : CodedOk string.
Proof. by intros s j [= <-]. Qed.
#[export] Instance bool_ok : CodedOk bool.
Proof. by intros s j [= <-]. Qed.
#[export] Instance strings_ok : CodedOk (list string).
Proof.
  intros l j [= <-]. apply mapM_Some, Forall2_fmap_l, Forall_Forall2_diag, Forall_forall. done.
Qed.
Lemma range_ok lo hi z j : enc_range lo hi z = Some j → ∀ cur, dec_range lo hi cur j = Some z.
Proof. unfold enc_range. case_decide as Hz; [|done]. intros [= <-] cur. simpl. by rewrite decide_True. Qed.
#[export] Instance int_ok : CodedOk (H := int_coded) Z.
Proof. intros z j Hz. exact (range_ok _ _ _ _ Hz _). Qed.
#[export] Instance uint64_ok : CodedOk (H := uint64_coded) Z.
Proof. intros z j Hz. exact (range_ok _ _ _ _ Hz _). Qed.
#[export] Instance time_ok `{TimeText} : CodedOk (H := time_coded) Z.
Proof.
  intros t j. simpl. destruct (time_MarshalJSON t) as [s|] eqn:E; [|done]. intros [= <-]. by apply time_text_read.
Qed.
#[export] Instance ip_ok : CodedOk (H := ip_coded) IP.
Proof.
  intros ip j. simpl. destruct ip as [|b ip]; [by intros [= <-]|]. case_decide as Hip; [|done]. intros [= <-].
  destruct (IP_String_split (b :: ip) Hip) as [Hp _]. destruct (IP_String (b :: ip)) eqn:E; [|done].
  by vm_compute in Hp.
Qed.

(** base64. *)
Lemma unsextet_sextet z : (0 ≤ z < 64)%Z → unsextet (sextet z) = Some z ∧ sextet z ≠ "="%char.
Proof.
  intros Hz. assert (forallb (λ n, bool_decide (unsextet (sextet (Z.of_nat n)) = Some (Z.of_nat n) ∧ sextet (Z.of_nat n) ≠ "="%char))
    (seq 0 64) = true) as Hall by (vm_compute; reflexivity).
  rewrite forallb_forall in Hall. specialize (Hall (Z.to_nat z)). rewrite Z2Nat.id in Hall by lia.
  eapply bool_decide_eq_true_1, Hall. apply in_seq. lia.
Qed.
Ltac sextet_go z :=
  let Hn := fresh in let Hs := fresh in
  destruct (unsextet_sextet z) as [Hs Hn]; [Z.to_euclidean_division_equations; lia|rewrite Hs; clear Hs; simpl].
Lemma unbase64_base64 l : Forall (λ b, 0 ≤ b < 256)%Z l → unbase64 (base64 l) = Some l.
Proof.
  revert l. fix IH 1. intros [|a [|b [|c l]]]; [done|..]; rewrite ?Forall_cons; intros Hl.
  - destruct Hl as [Ha _]. simpl. sextet_go (a / 4)%Z. sextet_go (a mod 4 * 16)%Z.
    do 2 f_equal. Z.to_euclidean_division_equations; lia.
  - destruct Hl as (Ha & Hb & _). simpl. sextet_go (a / 4)%Z. sextet_go (a mod 4 * 16 + b / 16)%Z.
    destruct (unsextet_sextet (b mod 16 * 4)) as [E1 N1]; [Z.to_euclidean_division_equations; lia|].
    rewrite decide_False by (by intros (? & _)). rewrite E1. simpl.
    f_equal. f_equal; [Z.to_euclidean_division_equations; lia|]. f_equal. Z.to_euclidean_division_equations; lia.
  - destruct Hl as (Ha & Hb & Hc & Hl). simpl. sextet_go (a / 4)%Z. sextet_go (a mod 4 * 16 + b / 16)%Z.
    destruct (unsextet_sextet (b mod 16 * 4 + c / 64)) as [E1 N1]; [Z.to_euclidean_division_equations; lia|].
    rewrite decide_False by (by intros (? & _)). rewrite E1. simpl.
    destruct (unsextet_sextet (c mod 64)) as [E2 N2]; [Z.to_euclidean_division_equations; lia|].
    rewrite decide_False by (by intros (? & _)). rewrite E2. simpl. rewrite IH by done. simpl.
    do 2 f_equal; [|f_equal; [|f_equal]]; Z.to_euclidean_division_equations; lia.
Qed.
#[export] Instance bytes_ok : CodedOk (H := bytes_coded) (list Z).
Proof. intros l j. simpl. case_decide as Hl; [|done]. intros [= <-]. by apply unbase64_base64. Qed.

(** An object: the field of a name is read from the entry of that name. *)
Lemma obj_inv fields j :
  obj fields = Some j → ∃ l, j = JObject l ∧ Forall2 (λ kv kj, kv.1 = kj.1 ∧ kv.2 = Some kj.2) fields l.
Proof.
  unfold obj. destruct (mapM _ fields) as [l|] eqn:E; [|done]. intros [= <-]. exists l. split; [done|].
  apply mapM_Some in E. eapply Forall2_impl; [exact E|]. intros [k o] [k' j] Hk. destruct o; by simplify_eq/=.
Qed.
Fixpoint entries (name : string) (fields : list (string * Json)) : list Json :=
  match fields with
  | [] => []
  | kv :: l => if is_field name kv.1 then kv.2 :: entries name l else entries name l
  end.
Lemma field_bind {A B} `{Coded A} name fields cur j x (k : A → option B) y :
  entries name fields = [j] → dec cur j = Some x → k x = y → (field name fields cur ≫= k) = y.
Proof.
  intros Hf Hd <-. assert (∀ l (c : A), entries name l = [] → field name l c = Some c) as Hnone.
  { induction l as [|[k' j'] l IH]; intros c; [done|]. unfold field. simpl. destruct (is_field name k'); [done|]. apply IH. }
  assert (field name fields cur = Some x) as ->; [|done].
  induction fields as [|[k' j'] fields IH]; [done|]. unfold field. simpl in *. destruct (is_field name k').
  - injection Hf as -> Hl. rewrite Hd. by apply Hnone.
  - by apply IH.
Qed.
(** The law of a struct: take the object apart, read each field in turn. *)
Ltac take_field :=
  match goal with
  | HF : Forall2 _ (_ :: _) _ |- _ =>
      let k := fresh "k" in let j := fresh "j" in let E := fresh "E" in let l := fresh "l" in
      let HF' := fresh "HF" in let Hk := fresh "Hk" in
      apply Forall2_cons_inv_l in HF as ([k j] & l & [Hk E] & HF' & ->); cbn [fst snd] in Hk, E; subst k; apply dec_enc in E
  | HF : Forall2 _ [] _ |- _ => apply Forall2_nil_inv_l in HF; subst
  end.
Ltac head_of t := lazymatch t with ?f _ => head_of f | _ => t end.
Ltac struct_ok encode decode :=
  let x := fresh "x" in let j := fresh "j" in let Hj := fresh "Hj" in
  let e := head_of encode in let d := head_of decode in
  intros x j Hj; change (encode x = Some j) in Hj; unfold e in Hj;
  apply obj_inv in Hj as (? & -> & ?); repeat take_field;
  match goal with |- dec ?z ?o = ?r => change (decode z o = r) end; unfold d; cbv beta iota;
  repeat first [eapply field_bind; [lazy; reflexivity|eassumption|] | progress cbn [mbind option_bind]]; by destruct x.
#[export] Instance User_ok : CodedOk User.
Proof. struct_ok enc_User dec_User. Qed.
#[export] Instance Group_ok : CodedOk Group.
Proof. struct_ok enc_Group dec_Group. Qed.
#[export] Instance Meta_ok : CodedOk PeerSystemMeta.
Proof. struct_ok enc_Meta dec_Meta. Qed.
#[export] Instance Rule_ok : CodedOk Rule.
Proof. struct_ok enc_Rule dec_Rule. Qed.
#[export] Instance IPNet_ok : CodedOk IPNet.
Proof. struct_ok enc_IPNet dec_IPNet. Qed.
#[export] Instance Network_ok : CodedOk Network.
Proof. struct_ok enc_Network dec_Network. Qed.

(** What is written for a struct or a map is an object, so not a null. *)
Class Object (A : Type) `{Coded A} := enc_object : ∀ (x : A) j, enc x = Some j → ∃ l, j = JObject l.
Lemma obj_object fields j : obj fields = Some j → ∃ l, j = JObject l.
Proof. intros (l & -> & _)%obj_inv. by exists l. Qed.
#[export] Instance User_object : Object User := λ x j, obj_object _ j.
#[export] Instance Group_object : Object Group := λ x j, obj_object _ j.
#[export] Instance Rule_object : Object Rule := λ x j, obj_object _ j.
#[export] Instance Network_object : Object Network := λ x j, obj_object _ j.
#[export] Instance map_object {A} `{Coded A} : Object (gmap string A).
Proof. intros m j. unfold enc. simpl. unfold enc_map. destruct (mapM _ _) as [l|]; [|done]. intros [= <-]. eauto. Qed.

#[export] Instance nil_ok {A} `{Coded A} `{!CodedOk A} `{!Object A} : CodedOk (option A).
Proof.
  intros [x|] j Hj; [|by injection Hj as <-]. change (enc x = Some j) in Hj. destruct (enc_object x j Hj) as [l ->].
  change (Some <$> dec zero (JObject l) = Some (Some x)). by rewrite (CodedOk0 x _ Hj).
Qed.

(** A map is read into the map that was written: the entries are those of the
    map in some order, each with its own key. *)
Lemma dec_map_foldl {A} `{Coded A} (l : list (string * A)) (fields : list (string * Json)) (m : gmap string A) :
  Forall2 (λ kv kj, kv.1 = kj.1 ∧ dec_elem kj.2 = Some kv.2) l fields →
  foldl (λ o kv, m ← o; v ← (dec_elem kv.2 : option A); Some (<[kv.1 := v]> m : gmap string A)) (Some m) fields =
  Some (foldl (λ m kv, <[kv.1 := kv.2]> m : gmap string A) m l).
Proof.
  intros Hl. revert m. induction Hl as [|[k v] [k' j] l fields [Hk Hv] _ IH]; intros m; [done|]. simpl in *. subst k'.
  rewrite Hv. simpl. apply IH.
Qed.
Lemma foldl_insert_map {A} (l : list (string * A)) (m : gmap string A) :
  NoDup l.*1 → foldl (λ m kv, <[kv.1 := kv.2]> m : gmap string A) m l = list_to_map l ∪ m.
Proof.
  revert m. induction l as [|[k v] l IH]; intros m Hl; simpl in *; [by rewrite (left_id_L ∅ (∪))|].
  apply NoDup_cons in Hl as [Hk Hl]. rewrite IH by done. rewrite <-insert_union_r; [by rewrite insert_union_l|].
  by apply not_elem_of_list_to_map_1.
Qed.
#[export] Instance map_ok {A} `{Coded A} `{!CodedOk A} `{!Object A} : CodedOk (gmap string A).
Proof.
  intros m j. unfold enc. simpl. unfold enc_map. destruct (mapM _ (map_to_list m)) as [l|] eqn:E; [|done]. intros [= <-]. simpl.
  apply mapM_Some in E.
  assert (Forall2 (λ kv kj, kv.1 = kj.1 ∧ dec_elem kj.2 = Some kv.2) (map_to_list m) l) as Hl.
  { eapply Forall2_impl; [exact E|]. intros [k x] [k' j] Hx. simpl in *. destruct (enc x) as [jx|] eqn:Hj; simplify_eq/=.
    split; [done|]. destruct (enc_object x j Hj) as [? ->]. simpl. by apply dec_enc. }
  assert (merge_sort key_le l ≡ₚ l) as Hsort by apply merge_sort_Permutation. symmetry in Hsort.
  destruct (Permutation_Forall2 Hsort (proj2 (Forall2_flip _ _ _) Hl)) as (l' & Hp & Hl'%Forall2_flip).
  rewrite (dec_map_foldl l' _ _ Hl'), foldl_insert_map.
  - f_equal. rewrite (right_id_L ∅ (∪)), <-(list_to_map_to_list m). symmetry. apply list_to_map_proper; [|done].
    apply NoDup_fst_map_to_list.
  - rewrite <-Hp. apply NoDup_fst_map_to_list.
Qed.

Section timed_laws.
Context `{TimeText}.

#[export] Instance SetupKey_object : Object SetupKey := λ x j, obj_object _ j.
#[export] Instance Status_object : Object PeerStatus := λ x j, obj_object _ j.
#[export] Instance Peer_object : Object Peer := λ x j, obj_object _ j.
#[export] Instance Account_object : Object Account := λ x j, obj_object _ j.
#[export] Instance SetupKey_ok : CodedOk SetupKey.
Proof. struct_ok enc_SetupKey dec_SetupKey. Qed.
#[export] Instance Status_ok : CodedOk PeerStatus.
Proof. struct_ok enc_Status dec_Status. Qed.
#[export] Instance Peer_ok : CodedOk Peer.
Proof. struct_ok enc_Peer dec_Peer. Qed.
#[export] Instance Account_ok : CodedOk Account.
Proof. struct_ok enc_Account dec_Account. Qed.

(** The file of a store is read as the accounts it was written for. *)
Lemma Store_read accounts j : enc_Store accounts = Some j → dec_Store j = Some accounts.
Proof.
  unfold enc_Store. intros Hj. apply obj_inv in Hj as (l & -> & Hl). repeat take_field. unfold dec_Store.
  by eapply field_bind; [lazy; reflexivity|eassumption|].
Qed.
End timed_laws.

(* ------------------------------------------------------------------ *)
(** ** The store's file *)

(** The text of a JSON value; strings that are not UTF-8 do not come back as
    they were. *)
Class JsonText := {
  json_MarshalIndent : Json → string;
  json_Unmarshal : string → error + Json;
  json_utf8 : Json → Prop;
  json_text_read j : json_utf8 j → json_Unmarshal (json_MarshalIndent j) = inr j }.

Definition storeFileName : string := "store.json".
Definition store_path (dataDir : list string) : FilePath := mkPath (Some dataDir) storeFileName.

Section store_file.
Context `{TimeText, JsonText}.

Definition marshal_store (accounts : gmap string Account) : error + string :=
  match enc_Store accounts with
  | Some j => inr (json_MarshalIndent j)
  | None => inl (Plain "json: error calling MarshalJSON")
  end.
Definition unmarshal_store (s : string) : error + gmap string Account :=
  match json_Unmarshal s with
  | inl e => inl e
  | inr j => match dec_Store j with Some a => inr a | None => inl (Plain "json: cannot unmarshal") end
  end.
(** What [ReadJson] decodes into is an interface that holds the [*FileStore]: a
    null makes it nil, without an error. *)
Definition decode_store (s : string) : error + option (gmap string Account) :=
  match json_Unmarshal s with
  | inr JNull => inr None
  | _ => match unmarshal_store s with inr a => inr (Some a) | inl e => inl e end
  end.

Section calls.
Context `{OsCalls, Process}.
Abbreviation MO := (M FsWorld).

(** [persist], and what [restore] does with the file: the accounts the indexes
    are then made from ([FileStore.restore_account]). *)
Definition persist_file (dataDir : list string) (accounts : gmap string Account) : MO unit :=
  util_WriteJson (store_path dataDir) (marshal_store accounts).
Definition restore_file (dataDir : list string) : MO (gmap string Account) :=
  s ← try (call (os_Stat (path_of (store_path dataDir))));
  if match s with inl e => bool_decide (e = ErrNotExist) | inr _ => false end then
    _ ← persist_file dataDir ∅; mret ∅
  else
    read ← util_ReadJson (store_path dataDir) decode_store;
    match read with
    | Some accounts => mret accounts
    | None => panic "interface conversion: interface {} is nil, not *server.FileStore"
    end.
End calls.

(** The accounts a reader of the file would get. *)
Definition on_disk (fs : gmap (list string) node) (dataDir : list string) : option (gmap string Account) :=
  match resolve max_links fs [] (path_of (store_path dataDir)) with
  | inr q => match fs !! q with
             | Some (NFile _ s) => match unmarshal_store s with inr a => Some a | inl _ => None end
             | _ => None
             end
  | inl _ => None
  end.

#[local] Opaque resolve max_links.
(** The data directory is there, and the store's file is not a link. *)
Definition data_dir (fs : gmap (list string) node) (dataDir d : list string) : Prop :=
  resolve max_links fs [] dataDir = inr d ∧ (∃ m, fs !! d = Some (NDir m)) ∧ ∀ t, fs !! (d ++ [storeFileName]) ≠ Some (NLink t).
Lemma on_disk_at fs dataDir d :
  data_dir fs dataDir d → on_disk fs dataDir = match fs !! (d ++ [storeFileName]) with
    | Some (NFile _ s) => match unmarshal_store s with inr a => Some a | inl _ => None end | _ => None end.
Proof. intros (Hd & Hm & Hl). unfold on_disk. change (path_of _) with (dataDir ++ [storeFileName]). by rewrite (resolve_snoc _ _ _ _ d _ Hd (or_intror Hm) Hl). Qed.
Lemma data_dir_more fs fs' dataDir d :
  data_dir fs dataDir d → more_files fs fs' → (∀ t, fs' !! (d ++ [storeFileName]) ≠ Some (NLink t)) → data_dir fs' dataDir d.
Proof.
  intros (Hd & [m Hm] & Hl) Hmore Hl'. destruct (Hmore _ _ Hm) as ([| m' |] & Hm' & Hk); [destruct Hk| |destruct Hk].
  split_and!; [|by exists m'|exact Hl']. eapply resolve_more; [exact Hmore|by eexists|exact Hd].
Qed.
Lemma more_only_dirs fs fs' : only_dirs fs fs' → more_files fs fs'.
Proof. intros Hd p n Hn. exists n. split; [destruct (Hd p) as [?|[? _]]; congruence|by destruct n]. Qed.
Lemma more_insert fs p m x :
  (fs !! p = None ∨ ∃ m x, fs !! p = Some (NFile m x)) → more_files fs (<[p := NFile m x]> fs).
Proof.
  intros Hp q n Hn. destruct (decide (q = p)) as [->|Hq].
  - rewrite lookup_insert_eq. eexists. split; [done|]. destruct Hp as [?|(? & ? & ?)]; [congruence|]. by simplify_eq.
  - rewrite lookup_insert_ne by done. exists n. split; [done|by destruct n].
Qed.
Lemma more_trans fs1 fs2 fs3 : more_files fs1 fs2 → more_files fs2 fs3 → more_files fs1 fs3.
Proof.
  intros H1 H2 p n Hn. destruct (H1 p n Hn) as (n1 & Hn1 & K1). destruct (H2 p n1 Hn1) as (n2 & Hn2 & K2). exists n2.
  split; [done|]. destruct n, n1, n2; simpl in *; congruence || done.
Qed.

Lemma decode_unmarshal s accounts : unmarshal_store s = inr accounts → decode_store s = inr (Some accounts).
Proof.
  unfold decode_store. intros Hs. rewrite Hs. unfold unmarshal_store in Hs. by destruct (json_Unmarshal s) as [e|[]].
Qed.
Lemma unmarshal_marshal accounts s :
  (∀ j, enc_Store accounts = Some j → json_utf8 j) → marshal_store accounts = inr s → unmarshal_store s = inr accounts.
Proof.
  unfold marshal_store, unmarshal_store. intros Hu. destruct (enc_Store accounts) as [j|] eqn:E; [|done]. intros [= <-].
  rewrite json_text_read by auto. by rewrite (Store_read _ _ E).
Qed.

Section file_properties.
Context `{OsCalls, Process}.
Implicit Types w : FsWorld.

(** What a write of the store leaves: the data directory is in order, and the
    file reads as before or as the accounts written. *)
Lemma persist_outcome dataDir accounts w d :
  data_dir (Fs_nodes w) dataDir d → (∀ j, enc_Store accounts = Some j → json_utf8 j) →
  wp (persist_file dataDir accounts) (λ r w', data_dir (Fs_nodes w') dataDir d ∧
    (∀ s, r ≠ Panic s) ∧
    (on_disk (Fs_nodes w') dataDir = Some accounts ∧ (r = Ok tt ∨ r = Blocked) ∨
     on_disk (Fs_nodes w') dataDir = on_disk (Fs_nodes w) dataDir ∧ r ≠ Ok tt)) w.
Proof.
  intros Hdata Hu. eapply wp_mono; [apply WriteJson_progress|]. intros r w'. simpl. generalize (Fs_nodes w'). intros fs' Hp.
  pose proof Hdata as (Hd & [m Hm] & Hl).
  assert (∀ fs1, only_dirs (Fs_nodes w) fs1 → data_dir fs1 dataDir d ∧ on_disk fs1 dataDir = on_disk (Fs_nodes w) dataDir) as Hgrown.
  { intros fs1 Hdirs. assert (data_dir fs1 dataDir d) as Hdata1.
    { apply (data_dir_more _ _ _ _ Hdata (more_only_dirs _ _ Hdirs)). intros t Ht.
      destruct (Hdirs (d ++ [storeFileName])) as [E|[_ [? E]]]; rewrite Ht in E; [by eapply Hl|done]. }
    split; [done|]. rewrite (on_disk_at _ _ _ Hdata), (on_disk_at _ _ _ Hdata1).
    by destruct (Hdirs (d ++ [storeFileName])) as [->|[-> [? ->]]]. }
  destruct Hp as [r fs1 Hdirs Hr Hs|r fs1 d' n y Hdirs Hr Hs Hfree|r fs1 d' bs Hdirs Hr Hres Hdir Hobj Hnd].
  - destruct (Hgrown _ Hdirs) as [Hdata1 Hsame]. auto.
  - destruct (Hgrown _ Hdirs) as [Hdata1 Hsame].
    assert (d' ++ [temp_name n storeFileName] ≠ d ++ [storeFileName]) as Hne.
    { intros E%app_inj_tail. destruct E as [_ E]. exact (temp_name_base _ _ E). }
    change (Path_Base _) with storeFileName in *.
    assert (data_dir (<[d' ++ [temp_name n storeFileName]:=NFile file_mode y]> fs1) dataDir d) as Hdata2.
    { apply (data_dir_more _ _ _ _ Hdata1); [apply more_insert; by left|].
      intros t. rewrite lookup_insert_ne by done. apply Hdata1. }
    split_and!; [done|done|]. right. split; [|done]. rewrite <-Hsame, (on_disk_at _ _ _ Hdata1), (on_disk_at _ _ _ Hdata2).
    by rewrite lookup_insert_ne.
  - destruct (Hgrown _ Hdirs) as [Hdata1 _]. change (Path_Base _) with storeFileName in *.
    assert (d' = d) as ->.
    { destruct Hdata1 as [Hd1 _]. change (dir_of _) with dataDir in Hres. congruence. }
    assert (data_dir (<[d ++ [storeFileName]:=NFile file_mode bs]> fs1) dataDir d) as Hdata2.
    { apply (data_dir_more _ _ _ _ Hdata1).
      - apply more_insert. destruct Hdata1 as (_ & _ & Hl1).
        destruct (fs1 !! (d ++ [storeFileName])) as [[x z|x|t]|] eqn:E; [eauto|by edestruct Hnd|by edestruct Hl1|by left].
      - intros t. by rewrite lookup_insert_eq. }
    split_and!; [done|by destruct Hr as [-> | ->]|]. left. split; [|done].
    rewrite (on_disk_at _ _ _ Hdata2), lookup_insert_eq. by rewrite (unmarshal_marshal _ _ Hu Hobj).
Qed.
End file_properties.
End store_file.

Section restart.
Context `{TimeText, JsonText, OsCalls, Process}.
Implicit Types w : FsWorld.

(** A start of the service over a store's file that can be read. *)
Lemma restore_reads dataDir accounts w d :
  data_dir (Fs_nodes w) dataDir d → on_disk (Fs_nodes w) dataDir = Some accounts → quiet (Fs_calls w) →
  wp (restore_file dataDir) (λ r w', r = Ok accounts) w.
Proof.
  intros Hdata Ha Hq. rewrite (on_disk_at _ _ _ Hdata) in Ha. destruct Hdata as (Hd & Hm & Hl).
  pose proof (resolve_snoc _ _ _ _ d storeFileName Hd (or_intror Hm) Hl) as Hpath.
  destruct (Fs_nodes w !! (d ++ [storeFileName])) as [[m bs| |]|] eqn:Hn; try discriminate Ha.
  assert (d ++ [storeFileName] ≠ []) as Hroot by (by destruct d).
  unfold restore_file, os_Stat. wp_step. wp_step. apply wp_quiet_call; [done|]. wp_step. apply wp_quiet_enter; [done|]. intros w1 E1 Hq1. simpl.
  wp_step. eapply wp_mono; [apply lookup_path_spec|]. rewrite E1. change (path_of _) with (dataDir ++ [storeFileName]). rewrite Hpath.
  intros r w2 [-> ->]. simpl. rewrite decide_False, Hn by done. wp_step.
  unfold util_ReadJson, os_Open, deferred, os_ReadAll, os_Close, nodes. wp_step.
  wp_step. apply wp_quiet_call; [done|]. wp_step. apply wp_quiet_enter; [done|]. intros w3 E3 Hq3. simpl.
  wp_step. eapply wp_mono; [apply lookup_path_spec|]. rewrite E3, E1. change (path_of _) with (dataDir ++ [storeFileName]). rewrite Hpath.
  intros r w4 [-> ->]. simpl. rewrite decide_False, Hn by done. do 4 wp_step.
  apply wp_quiet_call; [done|]. wp_step. apply wp_quiet_enter; [done|]. intros w5 E5 Hq5. simpl. do 2 wp_step. rewrite E5, E3, E1, Hn. wp_step.
  destruct (unmarshal_store bs) as [e|a] eqn:Hbs; [discriminate Ha|]. injection Ha as <-. rewrite (decode_unmarshal _ _ Hbs).
  do 4 wp_step. apply wp_quiet_call; [done|].
  apply wp_quiet_enter; [done|]. intros w6 E6 Hq6. simpl. by do 3 wp_step.
Qed.

(** C4: The store survives: whatever becomes of a write of new accounts, also
    when the process is killed in the middle of it, the service finds at its
    next start the old accounts or the new ones, all of them; the new ones when
    the write was reported to have succeeded, and the old ones when it was
    reported to have failed. *)
Theorem store_survives dataDir d old new w :
  data_dir (Fs_nodes w) dataDir d → on_disk (Fs_nodes w) dataDir = Some old →
  (∀ j, enc_Store new = Some j → json_utf8 j) →
  wp (persist_file dataDir new) (λ r w', (∀ s, r ≠ Panic s) ∧
    ∀ w2, Fs_nodes w2 = Fs_nodes w' → quiet (Fs_calls w2) →
    wp (restore_file dataDir) (λ r2 _, ∃ accounts, r2 = Ok accounts ∧
      (accounts = old ∨ accounts = new) ∧ (r = Ok tt → accounts = new) ∧ (∀ e, r = Err e → accounts = old)) w2) w.
Proof.
  intros Hdata Hold Hu. eapply wp_mono; [by eapply persist_outcome|]. intros r w' (Hdata' & Hp & Ho). split; [done|].
  intros w2 E2 Hq. rewrite <-E2 in *. destruct Ho as [[Hnew Hr]|[Hsame Hr]].
  - eapply wp_mono; [by eapply restore_reads|]. intros r2 _ ->. exists new. split_and!; [done|by right|done|]. intros e ->. naive_solver.
  - rewrite Hold in Hsame. eapply wp_mono; [by eapply restore_reads|]. intros r2 _ ->. exists old. split_and!; [done|by left| |done].
    by intros ->.
Qed.
End restart.

(* ------------------------------------------------------------------ *)
(** ** Example: a store with one account *)

#[local] Program Instance demo_time : TimeText := {|
  time_MarshalJSON := λ t, if decide (t = zero_time) then Some "0001-01-01T00:00:00Z" else None;
  time_UnmarshalJSON := λ s, if decide (s = "0001-01-01T00:00:00Z") then Some zero_time else None |}.
Next Obligation.
  simpl. intros t s. destruct (decide (t = zero_time)) as [->|]; [|done]. intros [= <-]. by rewrite decide_True.
Qed.

Abbreviation one_account := (mkAccount "acc" "user" "netbird.io" "private" true
  {[ "A1" := mkSetupKey "1" "A1" "Default key" "reusable" zero_time zero_time false 3 zero_time ]}
  (mkNetwork "net" (mkIPNet [100; 64; 0; 0]%Z [255; 255; 0; 0]%Z) "" 7)
  {[ "peer" := mkPeer "peer" "A1" [100; 64; 0; 1]%Z (mkMeta "host" "linux" "5.4" "20.04" "x86_64" "Ubuntu" "0.9" "") "host"
       (Some (mkStatus zero_time true)) "" ]}
  {[ "user" := mkUser "user" "admin" ]} (Some {[ "g" := mkGroup "g" "All" ["peer"] ]}) None).
Abbreviation one_store := ({[ "acc" := one_account ]} : gmap string Account).
Abbreviation one_json := (enc_Store one_store).

(** What is written for it, in part, and that it is read back. *)
Example one_json_text :
  (j ← one_json; match j with JObject [(k, JObject [(id, JObject fields)])] => Some (k, id, entries "network" fields) | _ => None end) =
    Some ("Accounts", "acc", [JObject [("Id", JString "net");
      ("Net", JObject [("IP", JString "100.64.0.0"); ("Mask", JString "//8AAA==")]); ("Dns", JString ""); ("Serial", JNumber 7)]]) ∧
  (one_json ≫= dec_Store) = Some one_store.
Proof. split; vm_compute; reflexivity. Qed.

(** A text for this store, and one for the empty one. *)
#[local] Program Instance demo_text : JsonText := {|
  json_MarshalIndent := λ _, "{one}";
  json_Unmarshal := λ s, if decide (s = "{one}") then match one_json with Some j => inr j | None => inl (Plain "") end
    else if decide (s = "{}") then inr (JObject []) else if decide (s = "null") then inr JNull else inl (Plain "invalid character");
  json_utf8 := λ j, one_json = Some j |}.
Next Obligation. simpl. intros j Hj. change (match one_json with Some j => inr j | None => inl (Plain "") end = inr j). by rewrite Hj. Qed.

Abbreviation data_files := (mkFs (list_to_map [
  (["var"], NDir 493); (["var"; "lib"], NDir 493); (["var"; "lib"; "store.json"], NFile 384 "{}")]) 0).
Abbreviation persisted bad k := (persist_file (H1 := calls_but bad) (H2 := killed_at k) ["var"; "lib"] one_store data_files).

Lemma store_survives_witness :
  wp (persist_file (H1 := calls_but None) (H2 := killed_at None) ["var"; "lib"] one_store) (λ r w', (∀ s, r ≠ Panic s) ∧
    ∀ w2, Fs_nodes w2 = Fs_nodes w' → quiet (H := calls_but None) (H0 := killed_at None) (Fs_calls w2) →
    wp (restore_file (H1 := calls_but None) (H2 := killed_at None) ["var"; "lib"]) (λ r2 _, ∃ accounts, r2 = Ok accounts ∧
      (accounts = ∅ ∨ accounts = one_store) ∧ (r = Ok tt → accounts = one_store) ∧ (∀ e, r = Err e → accounts = ∅)) w2) data_files.
Proof.
  apply (store_survives (H1 := calls_but None) (H2 := killed_at None) ["var"; "lib"] ["var"; "lib"] ∅ one_store data_files).
  - split; [vm_compute; reflexivity|]. split; [exists 493%Z; vm_compute; reflexivity|]. intros t. vm_compute. discriminate.
  - vm_compute. reflexivity.
  - intros j Hj. exact Hj.
Defined.

(** A file with null is taken for a store, and the service does not start. *)
Example null_store_panics :
  let w := mkFs (<[["var"; "lib"; "store.json"] := NFile 384 "null"]> (Fs_nodes data_files)) 0 in
  (restore_file (H1 := calls_but None) (H2 := killed_at None) ["var"; "lib"] w).1 =
    Panic "interface conversion: interface {} is nil, not *server.FileStore".
Proof. vm_compute. reflexivity. Qed.
