(* ===== verification/Rebrand.v ===== *)
(** * Rebrand: what carrying over the files does (cmd/management.go)

    What the copy of a directory changes in a file system without symbolic
    links, and that it carries a file over as it is; for the start of the
    management service ([Boot]). *)

From S2P Require Import Prelude GoLib Model Http WgIface Files JsonFile StoreJson.
From stdpp Require Import sorting.

#[local] Opaque resolve max_links.

(** [P] holds of what a call returns, when it returns. *)
Definition when_ok {W A} (P : A → W → Prop) (r : Res A) (w : W) : Prop := ∀ a, r = Ok a → P a w.

Lemma wp_ok_bind {W A B} (m : M W A) (f : A → M W B) P w :
  wp m (when_ok (λ a w', wp (f a) (when_ok P) w')) w → wp (m ≫= f) (when_ok P) w.
Proof.
  intros Hm. apply wp_bind. eapply wp_mono; [exact Hm|]. intros [a|e|s|] w' Hr; try (by intros ?).
  exact (Hr a eq_refl).
Qed.
Lemma wp_ok_any {W A} (m : M W A) (P : A → W → Prop) w : (∀ a w', P a w') → wp m (when_ok P) w.
Proof. intros HP. unfold wp. destruct (m w) as [r w']. by intros a _. Qed.
Lemma wp_ok_inv {W A} (m : M W A) (P : A → W → Prop) w a w' : m w = (Ok a, w') → wp m (when_ok P) w → P a w'.
Proof. unfold wp. intros ->. intros HP. exact (HP a eq_refl). Qed.

(* ------------------------------------------------------------------ *)
(** ** File systems without links *)

(** The root is not listed, and there is no symbolic link. *)
Definition plain (fs : gmap (list string) node) : Prop := fs !! [] = None ∧ ∀ p t, fs !! p ≠ Some (NLink t).

(** A path leads to where it says, through directories. *)
Lemma resolve_plain links fs cur rest q :
  (∀ p t, fs !! p ≠ Some (NLink t)) → resolve links fs cur rest = inr q → q = cur ++ rest.
Proof.
  intros Hl. revert cur. induction rest as [|c rest IH]; intros cur; rewrite ?resolve_nil, ?resolve_cons.
  { intros [= <-]. by rewrite app_nil_r. }
  destruct (fs !! (cur ++ [c])) as [[m x|m|t]|] eqn:E; [| |by destruct (Hl (cur ++ [c]) t)|].
  1,3: case_decide as Hr; [|done]; intros [= <-]; by rewrite Hr.
  intros Hq%IH. by rewrite <-app_assoc in Hq.
Qed.
Lemma resolve_parent links fs cur rest c q :
  (∀ p t, fs !! p ≠ Some (NLink t)) → resolve links fs cur (rest ++ [c]) = inr q →
  resolve links fs cur rest = inr (cur ++ rest) ∧ (rest = [] ∨ ∃ m, fs !! (cur ++ rest) = Some (NDir m)).
Proof.
  intros Hl. revert cur. induction rest as [|c0 rest IH]; intros cur; simpl; rewrite ?resolve_nil, ?resolve_cons.
  { rewrite app_nil_r. auto. }
  destruct (fs !! (cur ++ [c0])) as [[m x|m|t]|] eqn:E; [| |by destruct (Hl (cur ++ [c0]) t)|].
  1,3: rewrite decide_False by (by destruct rest); done.
  intros Hq. apply IH in Hq as [Hq Hd]. rewrite <-!app_assoc in *. simpl in *. split; [done|]. right.
  destruct Hd as [->|Hd]; [by exists m|done].
Qed.

(** What a copy to [dst] changes: what is below [dst], and directories that
    are made on the way there; what was there keeps its kind. *)
Record grown (dst : list string) (fs fs' : gmap (list string) node) : Prop := {
  gr_more : more_files fs fs';
  gr_where p : fs' !! p = fs !! p ∨ dst `prefix_of` p ∨
    (p `prefix_of` dst ∧ p ≠ [] ∧ fs !! p = None ∧ ∃ m, fs' !! p = Some (NDir m));
  gr_plain : plain fs → plain fs' }.

Lemma more_refl fs : more_files fs fs.
Proof. intros p n Hn. exists n. split; [done|by destruct n]. Qed.
#[export] Instance grown_refl dst : Reflexive (grown dst).
Proof. intros fs. split; [apply more_refl|by left|done]. Qed.
#[export] Instance grown_trans dst : Transitive (grown dst).
Proof.
  intros fs fs1 fs2 [M1 W1 P1] [M2 W2 P2]. split; [by eapply more_trans| |auto]. intros p.
  destruct (W2 p) as [E2|[?|(Hp & Hne & N2 & m & E2)]]; [|by auto|].
  - rewrite E2. apply W1.
  - destruct (W1 p) as [E1|[?|(_ & _ & _ & m' & E1)]]; [|by auto|congruence].
    right. right. split_and!; [done|done|congruence|by exists m].
Qed.
(** What is not below [dst] stays, and so does where a path leads. *)
Lemma grown_keeps dst fs fs' p n : grown dst fs fs' → ¬ dst `prefix_of` p → fs !! p = Some n → fs' !! p = Some n.
Proof. intros Hg Hp Hn. destruct (gr_where _ _ _ Hg p) as [E|[?|(_ & _ & N & _)]]; [congruence|done|congruence]. Qed.
Lemma grown_none dst fs fs' p :
  grown dst fs fs' → ¬ dst `prefix_of` p → ¬ p `prefix_of` dst → fs !! p = None → fs' !! p = None.
Proof. intros Hg Hp Hp' Hn. destruct (gr_where _ _ _ Hg p) as [E|[?|(? & _)]]; [congruence|done|done]. Qed.
Lemma grown_below dst c fs fs' : grown (dst ++ [c]) fs fs' → grown dst fs fs'.
Proof.
  intros [M W P]. split; [done| |done]. intros p. destruct (W p) as [?|[[l ->]|(Hp & ? & ? & ?)]]; [by left| |].
  - right. left. rewrite <-app_assoc. by eexists.
  - right. destruct (decide (p = dst ++ [c])) as [->|Hne]; [left; by eexists|]. right. split_and!; [|done..].
    destruct Hp as [l Hl]. destruct l as [|x l _] using rev_ind; [rewrite app_nil_r in Hl; congruence|].
    rewrite app_assoc in Hl. apply app_inj_tail in Hl as [-> _]. by eexists.
Qed.
Lemma grown_put dst fs m d :
  dst ≠ [] → (fs !! dst = None ∨ ∃ m d, fs !! dst = Some (NFile m d)) → grown dst fs (<[dst := NFile m d]> fs).
Proof.
  intros Hne Hold. split; [by apply more_insert| |].
  - intros p. destruct (decide (p = dst)) as [->|?]; [right; by left|left; by rewrite lookup_insert_ne].
  - intros [Hr Hl]. split; [by rewrite lookup_insert_ne|]. intros p t. destruct (decide (p = dst)) as [->|?];
      [by rewrite lookup_insert_eq|rewrite lookup_insert_ne by done; apply Hl].
Qed.
Lemma grown_mkdir p dst fs m :
  p ≠ [] → p `prefix_of` dst → fs !! p = None → grown dst fs (<[p := NDir m]> fs).
Proof.
  intros Hne Hp Hn. split.
  - intros q n Hq. exists n. rewrite lookup_insert_ne by congruence. split; [done|by destruct n].
  - intros q. destruct (decide (q = p)) as [->|?]; [|left; by rewrite lookup_insert_ne].
    right. right. rewrite lookup_insert_eq. split_and!; [done|done|done|by eexists].
  - intros [Hr Hl]. split; [by rewrite lookup_insert_ne|]. intros q t. destruct (decide (q = p)) as [->|?];
      [by rewrite lookup_insert_eq|rewrite lookup_insert_ne by done; apply Hl].
Qed.

(* ------------------------------------------------------------------ *)
(** ** The copy *)

Section copy.
Context `{OsCalls}.
Implicit Types w : FsWorld.

Lemma Mkdir_grown p dst perm w :
  plain (Fs_nodes w) → p `prefix_of` dst →
  wp (os_Mkdir p perm) (λ r w', grown dst (Fs_nodes w) (Fs_nodes w') ∧ returns r) w.
Proof.
  intros Hpl Hp. unfold os_Mkdir, put_node. wp_step. eapply wp_mono; [apply enter_nodes|].
  intros [[]|e|s|] w1 [E1 Hr]; simpl; rewrite ?E1; try done.
  wp_step. eapply wp_mono; [apply lookup_path_spec|]. rewrite E1. intros r w2 [-> Hq].
  destruct (resolve _ _ _ _) as [e|q] eqn:Hres; rewrite Hq; simpl; [by rewrite E1|].
  apply resolve_plain in Hres; [|apply Hpl]. simpl in Hres. subst q.
  case_decide; simpl; [wp_step; by rewrite E1|]. destruct (Fs_nodes w !! p) eqn:Hn; wp_step; rewrite ?E1; [done|].
  split; [|done]. by apply grown_mkdir.
Qed.
Lemma mkdir_all_grown dst n p perm w :
  plain (Fs_nodes w) → p `prefix_of` dst →
  wp (mkdir_all n p perm) (λ r w', grown dst (Fs_nodes w) (Fs_nodes w') ∧ returns r) w.
Proof.
  assert (∀ w1, plain (Fs_nodes w1) → ∀ p, p `prefix_of` dst → wp (r ← try (os_Mkdir p perm);
      match r with
      | inr _ => mret tt
      | inl err => l ← try (os_Lstat p); match l with inr i => if FI_IsDir i then mret tt else fail err | inl _ => fail err end
      end) (λ r w', grown dst (Fs_nodes w1) (Fs_nodes w') ∧ returns r) w1) as Hone.
  { intros w1 Hpl p' Hp'. wp_step. wp_step. eapply wp_mono; [by apply Mkdir_grown|]. intros [[]|e|s|] w2 [H2 Hr]; simpl; try done.
    wp_step. wp_step. eapply wp_mono; [apply Lstat_returns|]. intros [i|e'|s|] w3 [E3 Hr3]; simpl; rewrite <-?E3 in H2; try done; by wp_go. }
  revert p w. induction n as [|n IH]; intros p w Hpl Hp; simpl; wp_step; wp_step; (eapply wp_mono; [apply Stat_returns|]);
    (intros [i|e|s|] w1 [E1 Hr]; simpl; try done; [destruct (FI_IsDir i); wp_step; by rewrite E1|]).
  all: wp_step; rewrite <-E1 in *.
  - wp_step. by apply Hone.
  - eapply wp_mono; [apply IH; [done|]|].
    { etrans; [|exact Hp]. destruct p as [|c p _] using rev_ind; [done|]. rewrite removelast_last. by eexists. }
    intros [[]|e1|s|] w2 [H2 Hr2]; simpl; try done.
    eapply wp_mono; [apply Hone; [by apply H2|done]|]. intros r w3 [H3 Hr3]. split; [by etrans|done].
Qed.

(** The copy of a file that succeeds. *)
Lemma cpFile_grown src dst w :
  plain (Fs_nodes w) → src ≠ dst →
  wp (cpFile src dst) (when_ok (λ _ w', grown dst (Fs_nodes w) (Fs_nodes w') ∧ ∃ m d,
    Fs_nodes w !! src = Some (NFile m d) ∧ Fs_nodes w' !! dst = Some (NFile m d) ∧
    resolve max_links (Fs_nodes w') [] dst = inr dst)) w.
Proof.
  intros [Hroot Hl] Hne. unfold wp. destruct (cpFile src dst w) as [r w'] eqn:Hrun. simpl. intros [] ->.
  assert (∃ q, resolve max_links (Fs_nodes w) [] dst = inr q ∧ q ≠ [] ∧
    (Fs_nodes w !! q = None ∨ ∃ m d, Fs_nodes w !! q = Some (NFile m d))) as (q & Hq & Hq0 & Hold).
  { unfold cpFile in Hrun. apply bind_ok_inv in Hrun as (qs & w1 & [E1 _]%os_Open_ok & Hrun).
    apply bind_ok_inv in Hrun as (qd & w2 & (Hqd & ? & _ & Hold)%os_Create_ok & _). rewrite E1 in Hqd, Hold. by exists qd. }
  apply resolve_plain in Hq as Eq; [|done]. simpl in Eq. subst q.
  apply cpFile_copies in Hrun as (qs & qd & m & d & Hs & Hd & Hsrc & Hdst & Hrest); [|done|].
  2:{ intros qs Hs%resolve_plain Hd%resolve_plain; [|done..]. simpl in *. congruence. }
  apply resolve_plain in Hs as ->; [|done]. apply resolve_plain in Hd as ->; [|done]. simpl in *.
  assert (Fs_nodes w' = <[dst := NFile m d]> (Fs_nodes w)) as Ew.
  { apply map_eq. intros p. destruct (decide (p = dst)) as [->|?]; [by rewrite lookup_insert_eq|].
    rewrite lookup_insert_ne by done. by apply Hrest. }
  rewrite Ew. split; [by apply grown_put|]. exists m, d. split; [done|]. split; [apply lookup_insert_eq|]. by apply resolve_put.
Qed.

(** One entry, when the servers get past it. *)
Lemma cp_entry_grown copy src dst name w :
  plain (Fs_nodes w) → src ≠ dst →
  (∀ w1 s d, plain (Fs_nodes w1) → s ≠ d → wp (copy s d) (when_ok (λ _ w', grown d (Fs_nodes w1) (Fs_nodes w'))) w1) →
  wp (cp_entry exit_on copy src dst name) (when_ok (λ _ w', grown (dst ++ [name]) (Fs_nodes w) (Fs_nodes w') ∧
    ∀ m d, Fs_nodes w !! (src ++ [name]) = Some (NFile m d) →
      Fs_nodes w' !! (dst ++ [name]) = Some (NFile m d) ∧
      resolve max_links (Fs_nodes w') [] (dst ++ [name]) = inr (dst ++ [name]))) w.
Proof.
  intros Hpl Hne Hcopy. unfold cp_entry.
  assert (src ++ [name] ≠ dst ++ [name]) as Hne' by (by intros [? _]%app_inj_tail).
  apply wp_bind, wp_try. eapply wp_mono; [apply wp_and; [apply os_Stat_spec|apply os_Stat_no_link, Hpl]|].
  intros [i|e|s|] w1 [(E1 & _ & Hi) Hlink]; simpl; try (intros ?; done). rewrite (Hlink i eq_refl).
  destruct Hi as (q & n & Hq%resolve_plain & -> & Hn); [|apply Hpl]. simpl in Hq. subst q.
  rewrite decide_False in Hn by (by destruct src). rewrite <-E1 in *.
  apply wp_bind, wp_try. destruct n as [m d|m|t]; simpl.
  - eapply wp_mono; [by apply cpFile_grown|]. intros [[]|e|s|] w2 Hw2; simpl; try (by intros ?).
    destruct (Hw2 tt eq_refl) as (Hg & m' & d' & Hs & Hd & Hres). wp_step. intros [] _. split; [done|].
    intros m1 d1 Hs1. assert (NFile m1 d1 = NFile m' d') as -> by congruence. done.
  - eapply wp_mono; [by apply Hcopy|]. intros [[]|e|s|] w2 Hw2; simpl; try (by intros ?).
    wp_step. intros [] _. split; [exact (Hw2 tt eq_refl)|]. intros; congruence.
  - by destruct (proj2 Hpl (src ++ [name]) t).
Qed.

(** The names in a directory. *)
Lemma names_in_elem fs d c n : fs !! (d ++ [c]) = Some n → c ∈ names_in fs d.
Proof.
  intros Hn. unfold names_in. rewrite merge_sort_Permutation. apply list_elem_of_omap. exists (d ++ [c], n).
  split; [by apply elem_of_map_to_list|]. simpl. rewrite last_snoc, removelast_last. by rewrite decide_True.
Qed.

(** The entries one after the other. *)
Lemma cp_entries_grown copy src dst names w :
  plain (Fs_nodes w) → src ≠ dst →
  (∀ w1 s d, plain (Fs_nodes w1) → s ≠ d → wp (copy s d) (when_ok (λ _ w', grown d (Fs_nodes w1) (Fs_nodes w'))) w1) →
  wp (for_each names (cp_entry exit_on copy src dst)) (when_ok (λ _ w', grown dst (Fs_nodes w) (Fs_nodes w') ∧
    ∀ c m d, ¬ dst `prefix_of` (src ++ [c]) → Fs_nodes w !! (src ++ [c]) = Some (NFile m d) →
      c ∈ names ∨ (Fs_nodes w !! (dst ++ [c]) = Some (NFile m d) ∧
        resolve max_links (Fs_nodes w) [] (dst ++ [c]) = inr (dst ++ [c])) →
      Fs_nodes w' !! (dst ++ [c]) = Some (NFile m d) ∧
      resolve max_links (Fs_nodes w') [] (dst ++ [c]) = inr (dst ++ [c]))) w.
Proof.
  intros Hpl Hne Hcopy. revert w Hpl. induction names as [|name names IH]; intros w Hpl; simpl.
  { wp_step. intros [] _. split; [done|]. intros c m d _ _ [?%not_elem_of_nil|?]; done. }
  apply wp_ok_bind. eapply wp_mono; [by apply cp_entry_grown|]. intros [[]|e|s|] w1 Hw1; intros [] Hr; try discriminate Hr.
  destruct (Hw1 tt eq_refl) as [Hg Hc]. pose proof (gr_plain _ _ _ Hg Hpl) as Hpl1.
  eapply wp_mono; [by apply IH|]. intros [[]|e|s|] w2 Hw2; intros [] Hr2; try discriminate Hr2.
  destruct (Hw2 tt eq_refl) as [Hg2 Hc2]. split; [etrans; [by eapply grown_below|done]|].
  intros c m d Hout Hsrc Hin. apply Hc2; [done|..].
  { eapply grown_keeps; [by eapply grown_below|done|done]. }
  destruct (decide (c = name)) as [->|Hcn]; [right; by apply Hc|].
  destruct Hin as [[->|Hin]%elem_of_cons|[Hd Hres]]; [done|by left|right].
  assert (¬ (dst ++ [name]) `prefix_of` (dst ++ [c])) as Hnp.
  { intros [l Hl]. rewrite <-app_assoc in Hl. apply app_inv_head in Hl. by injection Hl as ->. }
  split; [by eapply grown_keeps|]. eapply resolve_more; [apply Hg|by eexists|done].
Qed.

(** A directory: below [dst] only, and its files as they are. *)
Lemma cp_dir_grown depth src dst w :
  plain (Fs_nodes w) → src ≠ dst →
  wp (cp_dir exit_on depth src dst) (when_ok (λ _ w', grown dst (Fs_nodes w) (Fs_nodes w') ∧
    ∀ c m d, ¬ dst `prefix_of` (src ++ [c]) → Fs_nodes w !! (src ++ [c]) = Some (NFile m d) →
      Fs_nodes w' !! (dst ++ [c]) = Some (NFile m d) ∧
      resolve max_links (Fs_nodes w') [] (dst ++ [c]) = inr (dst ++ [c]))) w.
Proof.
  revert src dst w. induction depth as [|depth IH]; intros src dst w Hpl Hne; simpl.
  all: apply wp_ok_bind; (eapply wp_mono; [apply Stat_returns|]); intros r w1 [E1 _] i ->; rewrite <-E1 in *; clear E1.
  all: apply wp_ok_bind; unfold os_MkdirAll; (eapply wp_mono; [by apply mkdir_all_grown|]); intros r w2 [Hg2 _] [] ->.
  all: pose proof (gr_plain _ _ _ Hg2 Hpl) as Hpl2.
  all: apply wp_ok_bind; unfold wp at 1; destruct (ioutil_ReadDir src w2) as [r w3] eqn:Hread; simpl; intros names ->.
  all: assert (Fs_nodes w3 = Fs_nodes w2 ∧ (∀ c n, Fs_nodes w2 !! (src ++ [c]) = Some n → c ∈ names)) as [E3 Hnames].
  1,3: unfold ioutil_ReadDir in Hread; apply bind_ok_inv in Hread as ([] & w4 & He & Hread);
    apply bind_ok_inv in Hread as (x & w5 & Hl & Hread);
    destruct (lookup_path_ok src w2 x w5) as (E5 & Hres & _); [by erewrite bind_run by exact He|];
    apply resolve_plain in Hres; [|apply Hpl2]; simpl in Hres; destruct x.2 as [[| |]|]; try discriminate Hread;
    unfold nodes in Hread; apply bind_ok_inv in Hread as (fs & w6 & [= <- <-] & [= <- <-]);
    (split; [done|]); intros c n Hc; rewrite E5, Hres; by eapply names_in_elem.
  all: rewrite <-E3 in *; eapply wp_mono; [apply cp_entries_grown; [done|done|]|].
  1: intros w4 s d _ _; by intros [].
  2: intros w4 s d Hpl4 Hsd; eapply wp_mono; [by apply IH|]; intros r w5 Hw5 [] Hr; by apply (Hw5 tt Hr).
  all: intros r w4 Hw4 [] ->; destruct (Hw4 tt eq_refl) as [Hg4 Hc4]; (split; [by etrans|]);
    intros c m d Hout Hsrc; pose proof (grown_keeps _ _ _ _ _ Hg2 Hout Hsrc) as Hsrc2;
    apply Hc4; [done|done|left; by eapply Hnames].
Qed.

(** One part of [handleRebrand]. *)
Lemma rebrand_grown depth is_default oldFile newFile oldDir newDir w :
  plain (Fs_nodes w) → oldDir ≠ newDir →
  wp (rebrand depth mgmt_cpDir is_default oldFile newFile oldDir newDir)
    (when_ok (λ _ w', grown newDir (Fs_nodes w) (Fs_nodes w'))) w.
Proof.
  intros Hpl Hne. unfold rebrand. destruct is_default; [|wp_step; by intros [] _].
  apply wp_ok_bind. eapply wp_mono; [apply migrateToNetbird_spec|]. intros r w1 (E1 & b & -> & _) b' [= <-]. rewrite <-E1 in *.
  destruct b; [|wp_step; by intros [] _]. eapply wp_mono; [by apply cp_dir_grown|]. intros r w2 Hw2 [] ->. by apply (Hw2 tt).
Qed.
End copy.

(* ------------------------------------------------------------------ *)
(** ** The store on the way *)

Section store.
Context `{TimeText, JsonText}.

(** The data directory [dd] holds the store of [accs]. *)
Definition kept (fs : gmap (list string) node) (dd : list string) (accs : gmap string Account) : Prop :=
  data_dir fs dd dd ∧ on_disk fs dd = Some accs.

Lemma kept_file fs dd accs :
  kept fs dd accs → ∃ m s, fs !! (dd ++ [storeFileName]) = Some (NFile m s) ∧ unmarshal_store s = inr accs.
Proof.
  intros [Hd Ho]. rewrite (on_disk_at _ _ _ Hd) in Ho. destruct (fs !! _) as [[m s| |]|]; try discriminate Ho.
  exists m, s. split; [done|]. destruct (unmarshal_store s) as [e|a]; [discriminate Ho|congruence].
Qed.
Lemma kept_grown dst fs fs' dd accs :
  plain fs → grown dst fs fs' → ¬ dst `prefix_of` (dd ++ [storeFileName]) → kept fs dd accs → kept fs' dd accs.
Proof.
  intros Hpl Hg Hout Hk. destruct (kept_file _ _ _ Hk) as (m & s & Hs & _). destruct Hk as [Hd Ho].
  assert (data_dir fs' dd dd) as Hd'.
  { apply (data_dir_more _ _ _ _ Hd); [apply Hg|]. apply (gr_plain _ _ _ Hg Hpl). }
  split; [done|]. rewrite (on_disk_at _ _ _ Hd) in Ho. rewrite (on_disk_at _ _ _ Hd').
  rewrite (grown_keeps _ _ _ _ _ Hg Hout Hs). by rewrite Hs in Ho.
Qed.
(** A store that was copied. *)
Lemma kept_copied fs fs' src dst accs :
  plain fs' → dst ≠ [] → kept fs src accs →
  (∀ m s, fs !! (src ++ [storeFileName]) = Some (NFile m s) →
     fs' !! (dst ++ [storeFileName]) = Some (NFile m s) ∧
     resolve max_links fs' [] (dst ++ [storeFileName]) = inr (dst ++ [storeFileName])) →
  kept fs' dst accs.
Proof.
  intros Hpl Hne Hk Hcopy. destruct (kept_file _ _ _ Hk) as (m & s & Hs & Hu).
  destruct (Hcopy _ _ Hs) as [Hs' Hres]. apply resolve_parent in Hres as [Hd [?|Hm]]; [done| |apply Hpl].
  assert (data_dir fs' dst dst) as Hd' by (split; [exact Hd|split; [exact Hm|apply Hpl]]).
  split; [done|]. rewrite (on_disk_at _ _ _ Hd'), Hs'. by rewrite Hu.
Qed.

(** Where the service finds its store when it starts with the directory [dd]:
    there, outside of the directories of the configuration and of the log; or
    in the directory of the former name, when [dd] is the default one, which is
    not there. *)
Definition store_found (fs : gmap (list string) node) (dataDefault : bool) (dd : list string) (accs : gmap string Account) : Prop :=
  kept fs dd accs ∧ ¬ log_new `prefix_of` (dd ++ [storeFileName]) ∧ ¬ etc_new `prefix_of` (dd ++ [storeFileName]) ∨
  dataDefault = true ∧ fs !! lib_new = None ∧ kept fs lib_old accs.

Section rebranding.
Context `{OsCalls} (Hquiet : ∀ k, os_fault k = None).

Lemma Stat_there p w m :
  resolve max_links (Fs_nodes w) [] p = inr p → Fs_nodes w !! p = Some (NDir m) →
  wp (os_Stat p) (λ r w', Fs_nodes w' = Fs_nodes w ∧ ∃ i, r = Ok i) w.
Proof.
  intros Hp Hn. eapply wp_mono; [apply os_Stat_spec|]. intros [i|e|s|] w1 (E1 & _ & Hr); try done; (split; [done|]); [by exists i|].
  destruct Hr as [Hf|[He|(_ & q & Hq & _ & Hq2)]]; [by rewrite Hquiet in Hf|congruence..].
Qed.
Lemma Stat_gone p w :
  plain (Fs_nodes w) → p ≠ [] → Fs_nodes w !! p = None →
  wp (os_Stat p) (λ r w', Fs_nodes w' = Fs_nodes w ∧ ∃ e, r = Err e) w.
Proof.
  intros Hpl Hp Hn. eapply wp_mono; [apply os_Stat_spec|]. intros [i|e|s|] w1 (E1 & _ & Hr); try done; (split; [done|]); [|by exists e].
  destruct Hr as (q & n & Hq%resolve_plain & _ & Hn2); [|apply Hpl]. simpl in Hq. subst q. rewrite decide_False in Hn2 by done. congruence.
Qed.
Lemma migrate_needed old new w m :
  plain (Fs_nodes w) → resolve max_links (Fs_nodes w) [] old = inr old → Fs_nodes w !! old = Some (NDir m) →
  new ≠ [] → Fs_nodes w !! new = None →
  wp (migrateToNetbird old new) (λ r w', Fs_nodes w' = Fs_nodes w ∧ r = Ok true) w.
Proof.
  intros Hpl Hres Hold Hnew Hn. unfold migrateToNetbird. wp_step. wp_step. eapply wp_mono; [by eapply Stat_there|].
  intros r w1 (E1 & i & ->). simpl. wp_step. wp_step. rewrite <-E1 in *. eapply wp_mono; [by apply Stat_gone|].
  intros r w2 (E2 & e & ->). simpl. wp_step. done.
Qed.

(** [handleRebrand] brings the store to where it is looked for. *)
Lemma handleRebrand_brings_store depth logDefault configDefault dataDefault dd accs w :
  plain (Fs_nodes w) → (dataDefault = true → dd = lib_new) → store_found (Fs_nodes w) dataDefault dd accs →
  wp (mgmt_handleRebrand depth logDefault configDefault dataDefault)
    (when_ok (λ _ w', plain (Fs_nodes w') ∧ kept (Fs_nodes w') dd accs)) w.
Proof.
  intros Hpl Hdd Hf. unfold mgmt_handleRebrand.
  apply wp_ok_bind. eapply wp_mono; [by apply rebrand_grown|]. intros r w1 Hw1 [] ->. pose proof (Hw1 tt eq_refl) as Hg1. clear Hw1.
  pose proof (gr_plain _ _ _ Hg1 Hpl) as Hpl1.
  apply wp_ok_bind. eapply wp_mono; [by apply rebrand_grown|]. intros r w2 Hw2 [] ->. pose proof (Hw2 tt eq_refl) as Hg2. clear Hw2.
  pose proof (gr_plain _ _ _ Hg2 Hpl1) as Hpl2.
  assert (∀ p, ¬ log_new `prefix_of` (p ++ [storeFileName]) → ¬ etc_new `prefix_of` (p ++ [storeFileName]) →
    kept (Fs_nodes w) p accs → kept (Fs_nodes w2) p accs) as Hstay.
  { intros p Hlog Hetc Hk. eapply kept_grown; [exact Hpl1|exact Hg2|exact Hetc|]. exact (kept_grown _ _ _ _ _ Hpl Hg1 Hlog Hk). }
  destruct dataDefault; [|destruct Hf as [(Hk & Hlog & Hetc)|[[=] _]]; unfold rebrand; wp_step; intros [] _; split; [done|by apply Hstay]].
  specialize (Hdd eq_refl). subst dd. destruct Hf as [(Hk & Hlog & Hetc)|(_ & Hnew & Hk)].
  - pose proof (Hstay _ Hlog Hetc Hk) as Hk2. pose proof Hk2 as [(Hres & [m Hm] & _) _].
    eapply wp_mono; [eapply rebrand_keeps_new; [exact Hres|exact Hm|apply Hquiet]|].
    intros r w3 [-> E3] [] _. by rewrite E3.
  - assert (kept (Fs_nodes w2) lib_old accs) as Hk2.
    { apply Hstay; [by apply (bool_decide_unpack _)..|exact Hk]. }
    assert (Fs_nodes w2 !! lib_new = None) as Hnew2.
    { eapply grown_none; [exact Hg2|by apply (bool_decide_unpack _)..|]. eapply grown_none; [exact Hg1|by apply (bool_decide_unpack _)..|exact Hnew]. }
    unfold rebrand. apply wp_ok_bind. pose proof Hk2 as [(Hres & [m Hm] & _) _].
    eapply wp_mono; [exact (migrate_needed lib_old lib_new w2 m Hpl2 Hres Hm ltac:(discriminate) Hnew2)|]. intros r w3 [E3 ->] b [= <-]. rewrite <-E3 in *.
    eapply wp_mono; [by apply cp_dir_grown|]. intros r w4 Hw4 [] ->. destruct (Hw4 tt eq_refl) as [Hg4 Hc4].
    pose proof (gr_plain _ _ _ Hg4 Hpl2) as Hpl4. split; [done|]. eapply kept_copied; [exact Hpl4|done|exact Hk2|].
    intros m' s' Hs'. apply Hc4; [by apply (bool_decide_unpack _)|exact Hs'].
Qed.
End rebranding.
End store.
