(* ===== verification/Boot.v ===== *)
(** * Boot: starting the management service (management/cmd, NewServer of
    grpcserver.go, the servers of http/server.go, encryption/letsencrypt.go, signal/cmd/run.go)

    The command reads the flags and the configuration, carries over the files
    of the former name, restores the store from its file and builds the
    servers.  Its world is the file system and the world of the manager, whose
    [World_Disk] is what the store's file says from then on; [log.Fatalf] is a
    panic that starts with exit. *)

From S2P Require Import Prelude GoLib Model FileStore Account Manager Turn Encryption Jwt GrpcServer Http Auth0 Files JsonFile StoreJson Rebrand.

Record MgmtFlags := mkMgmtFlags {
  MF_logLevel : string; MF_logFile : string; MF_mgmtPort : Z; MF_mgmtConfig : string; MF_mgmtDataDir : string;
  MF_mgmtLetsencryptDomain : string; MF_certFile : string; MF_certKey : string }.
Definition defaultMgmtConfig : string := "/etc/netbird/management.json".
Definition defaultMgmtDataDir : string := "/var/lib/netbird/".
Definition mgmt_defaultLogFile : string := "/var/log/netbird/management.log".
Definition default_mgmt_flags : MgmtFlags :=
  mkMgmtFlags "info" mgmt_defaultLogFile 33073 defaultMgmtConfig defaultMgmtDataDir "" "" "".

(** Logging, the encodings, the certificates, the issuer of the tokens, the
    generator of keys and the network. *)
Class BootEnv := {
  log_ParseLevel : string → option error;
  config_Unmarshal : string → error + Config;
  tls_LoadX509KeyPair : string → string → option error;
  http_Get : string → error + string;
  jwks_Decode : string → error + list JSONWebKey;
  url_parses : string → bool;
  wg_Generate : error + Key;
  net_Listen : Z → option error
}.

(** The names in a path; a relative one is taken from the root. *)
Definition path_of (p : string) : list string := filter (λ s, s ≠ "") (Split p "/"%char).

(** Where a listener of the standard library takes its certificate from. *)
Record CertManager := mkCertManager { CM_Cache : list string; CM_Host : string }.
Record TLSConfig := mkTLSConfig { TLS_CertFile : string; TLS_CertKey : string }.
Inductive Creds := CredsNone | CredsAutocert (m : CertManager) | CredsCert (t : TLSConfig).

Record HttpServer := mkHttpServer {
  HS_Addr : string; HS_config : option HttpServerConfig;
  HS_certManager : option CertManager; HS_tlsConfig : option TLSConfig }.
Inductive Listener :=
  | ListenAutocert (m : CertManager)
  | ListenTLS (address : string) (t : TLSConfig)
  | ListenPlain (address : string).

Section servers.
Context {W : Type} `{BootEnv}.

Definition from_result {A} (r : error + A) : M W A := match r with inl e => fail e | inr a => mret a end.
Definition of_outcome (o : option error) : M W unit := match o with Some e => fail e | None => mret tt end.

(** [log.Fatalf(what, err)] when [m] fails. *)
Definition fatal {A} (what : string) (m : M W A) : M W A :=
  r ← try m;
  match r with inl err => panic ("exit: " +:+ what +:+ error_text err) | inr a => mret a end.

Definition getPemKeys (keysLocation : string) : M W (list JSONWebKey) :=
  body ← from_result (http_Get keysLocation);
  from_result (jwks_Decode body).

Definition NewJwtMiddleware (issuer audience keysLocation : string) : M W JWTMiddleware :=
  keys ← getPemKeys keysLocation;
  mret (mkJwtMiddleware issuer audience keys).

Definition validateURL (httpURL : string) : bool := url_parses httpURL.

Definition NewServer (config : Config) : M W Server :=
  key ← from_result wg_Generate;
  jwt ← match Config_HttpConfig config with
    | Some c =>
        if bool_decide (Http_AuthIssuer c ≠ "") && bool_decide (Http_AuthAudience c ≠ "") &&
           validateURL (Http_AuthKeysLocation c) then
          m ← map_err (λ e, Status Internal ("unable to create new jwt middleware, err: " +:+ error_text e))
                (NewJwtMiddleware (Http_AuthIssuer c) (Http_AuthAudience c) (Http_AuthKeysLocation c));
          mret (Some m)
        else mret None
    | None => mret None
    end;
  mret (mkServer key config jwt).

Definition loadTLSConfig (certFile certKey : string) : M W TLSConfig :=
  _ ← of_outcome (tls_LoadX509KeyPair certFile certKey);
  mret (mkTLSConfig certFile certKey).

Definition NewHttpsServer (config : option HttpServerConfig) (certManager : option CertManager) : M W HttpServer :=
  c ← deref config;
  mret (mkHttpServer (Http_Address c) config certManager None).
Definition NewHttpsServerWithTLSConfig (config : option HttpServerConfig) (tlsConfig : TLSConfig) : M W HttpServer :=
  c ← deref config;
  mret (mkHttpServer (Http_Address c) config None (Some tlsConfig)).
Definition NewHttpServer (config : option HttpServerConfig) : M W HttpServer := NewHttpsServer config None.

(** [Start] up to serving: the middleware that checks the tokens, and what it
    listens on; the routes are in [HttpApi]. *)
Definition HttpServer_Start (s : HttpServer) : M W (JWTMiddleware * Listener) :=
  c ← deref (HS_config s);
  jwt ← NewJwtMiddleware (Http_AuthIssuer c) (Http_AuthAudience c) (Http_AuthKeysLocation c);
  mret (jwt, match HS_certManager s, HS_tlsConfig s with
             | Some m, _ => ListenAutocert m
             | None, Some t => ListenTLS (Http_Address c) t
             | None, None => ListenPlain (HS_Addr s)
             end).
End servers.

Section files.
Context `{OsCalls} `{BootEnv}.
Abbreviation MO := (M FsWorld).

(** util.ReadJson of a configuration. *)
Definition read_json_config (p : list string) : MO Config :=
  fd ← os_Open p;
  fs ← nodes;
  match fs !! fd with
  | Some (NFile _ data) => from_result (config_Unmarshal data)
  | _ => fail EISDIR
  end.

Definition set_HttpConfig (c : Config) (h : HttpServerConfig) : Config :=
  mkConfig (Config_Stuns c) (Config_TURNConfig c) (Config_Signal c) (Config_Datadir c) (Some h)
    (Config_IdpManagerConfig c) (Config_DeviceFlow c).
Definition set_Datadir (c : Config) (d : string) : Config :=
  mkConfig (Config_Stuns c) (Config_TURNConfig c) (Config_Signal c) d (Config_HttpConfig c)
    (Config_IdpManagerConfig c) (Config_DeviceFlow c).
Definition set_LetsEncryptDomain (h : HttpServerConfig) (d : string) : HttpServerConfig :=
  mkHttpConfig d (Http_CertFile h) (Http_CertKey h) (Http_Address h) (Http_AuthAudience h) (Http_AuthIssuer h)
    (Http_AuthKeysLocation h).
Definition set_Cert (h : HttpServerConfig) (file key : string) : HttpServerConfig :=
  mkHttpConfig (Http_LetsEncryptDomain h) file key (Http_Address h) (Http_AuthAudience h) (Http_AuthIssuer h)
    (Http_AuthKeysLocation h).

(** The flags win over the file; a missing [HttpConfig] is dereferenced. *)
Definition loadMgmtConfig (f : MgmtFlags) : MO Config :=
  config ← read_json_config (path_of (MF_mgmtConfig f));
  config ← (if decide (MF_mgmtLetsencryptDomain f ≠ "") then
      h ← deref (Config_HttpConfig config);
      mret (set_HttpConfig config (set_LetsEncryptDomain h (MF_mgmtLetsencryptDomain f)))
    else mret config);
  config ← (if decide (MF_mgmtDataDir f ≠ "") then mret (set_Datadir config (MF_mgmtDataDir f)) else mret config);
  if decide (MF_certKey f ≠ "" ∧ MF_certFile f ≠ "") then
    h ← deref (Config_HttpConfig config);
    mret (set_HttpConfig config (set_Cert h (MF_certFile f) (MF_certKey f)))
  else mret config.

(** A directory is created with [os.ModeDir], that is with no permissions,
    when it is not there; other errors of [os.Stat] are ignored. *)
Definition ensure_dir (what : string) (p : list string) : MO unit :=
  i ← try (os_Stat p);
  match i with
  | inl e => if decide (e = ErrNotExist) then fatal what (os_MkdirAll p 0) else mret tt
  | inr _ => mret tt
  end.

Definition CreateCertManager (datadir letsencryptDomain : string) : MO CertManager :=
  let certDir := path_of datadir ++ ["letsencrypt"] in
  _ ← ensure_dir ("failed creating Let's encrypt certdir: " +:+ path_text certDir +:+ ": ") certDir;
  mret (mkCertManager certDir letsencryptDomain).

(** The signal server's [runCmd], up to serving (signal/cmd/run.go). *)
Record SignalFlags := mkSignalFlags {
  SF_logLevel : string; SF_signalPort : Z; SF_signalSSLDir : string; SF_signalLetsencryptDomain : string }.
Definition signal_runCmd (depth : nat) (f : SignalFlags) : MO Creds :=
  _ ← fatal "failed initializing log " (of_outcome (log_ParseLevel (SF_logLevel f)));
  _ ← signal_rebrand depth (SF_signalSSLDir f);
  creds ← (if decide (SF_signalLetsencryptDomain f ≠ "") then
      _ ← ensure_dir ("failed creating datadir: " +:+ SF_signalSSLDir f +:+ ": ") (path_of (SF_signalSSLDir f));
      certManager ← CreateCertManager (SF_signalSSLDir f) (SF_signalLetsencryptDomain f);
      mret (CredsAutocert certManager)
    else mret CredsNone);
  _ ← fatal "failed to listen: " (of_outcome (net_Listen (SF_signalPort f)));
  mret creds.
End files.

(** What [mgmtCmd] has when it starts to serve. *)
Record Booted := mkBooted {
  Booted_idp : option Auth0ClientConfig; Booted_server : Server; Booted_creds : Creds; Booted_http : HttpServer }.

Section command.
Context `{OsCalls} `{Process} `{TimeText} `{JsonText} `{BootEnv} `{Runtime}.
Abbreviation MB := (M (FsWorld * World)).

Definition in_files {A} (m : M FsWorld A) : MB A := λ fw, let '(r, f) := m fw.1 in (r, (f, fw.2)).
Definition in_world {A} (m : MW A) : MB A := λ fw, let '(r, w) := m fw.2 in (r, (fw.1, w)).

(** [NewStore]: what the file in the directory says, or an empty store and its
    new file; then the indexes are made. *)
Definition NewStore (dataDir : string) : MB unit :=
  accs ← in_files (restore_file (path_of dataDir));
  _ ← in_world (modify (set_Disk (Some accs)));
  in_world restore.

(** The certificates of both servers. *)
Definition choose_servers (config : Config) : MB (Creds * HttpServer) :=
  h ← deref (Config_HttpConfig config);
  if decide (Http_LetsEncryptDomain h ≠ "") then
    certManager ← in_files (CreateCertManager (Config_Datadir config) (Http_LetsEncryptDomain h));
    s ← NewHttpsServer (Some h) (Some certManager);
    mret (CredsAutocert certManager, s)
  else if decide (Http_CertFile h ≠ "" ∧ Http_CertKey h ≠ "") then
    tlsConfig ← fatal "cannot load TLS credentials: " (loadTLSConfig (Http_CertFile h) (Http_CertKey h));
    s ← NewHttpsServerWithTLSConfig (Some h) tlsConfig;
    mret (CredsCert tlsConfig, s)
  else
    s ← NewHttpServer (Some h);
    mret (CredsNone, s).

(** [mgmtCmd], up to the goroutines that serve. *)
Definition mgmtCmd (depth : nat) (f : MgmtFlags) : MB Booted :=
  _ ← fatal "failed initializing log " (of_outcome (log_ParseLevel (MF_logLevel f)));
  _ ← fatal "failed to migrate files " (in_files (mgmt_handleRebrand depth
        (bool_decide (MF_logFile f = mgmt_defaultLogFile)) (bool_decide (MF_mgmtConfig f = defaultMgmtConfig))
        (bool_decide (MF_mgmtDataDir f = defaultMgmtDataDir))));
  config ← fatal ("failed reading provided config file: " +:+ MF_mgmtConfig f +:+ ": ") (in_files (loadMgmtConfig f));
  _ ← in_files (ensure_dir ("failed creating datadir: " +:+ Config_Datadir config +:+ ": ") (path_of (Config_Datadir config)));
  _ ← fatal ("failed creating a store: " +:+ Config_Datadir config +:+ ": ") (NewStore (Config_Datadir config));
  idpManager ← match Config_IdpManagerConfig config with
    | Some c => fatal "failed retrieving a new idp manager with err: " (from_result (NewManager c))
    | None => mret None
    end;
  _ ← fatal "failed build default manager: " (in_world BuildManager);
  cs ← choose_servers config;
  server ← fatal "failed creating new server: " (NewServer config);
  _ ← fatal "failed to listen: " (of_outcome (net_Listen (MF_mgmtPort f)));
  mret (mkBooted idpManager server cs.1 cs.2).

(** The goroutine of the HTTP server; its failure ends the whole service. *)
Definition serve_http (b : Booted) : MB (JWTMiddleware * Listener) :=
  fatal "failed to serve http server: " (HttpServer_Start (Booted_http b)).
End command.

(* ------------------------------------------------------------------ *)
(** ** What a start that succeeds has done *)

Lemma fatal_ok_inv {W A} what (m : M W A) w a w' : fatal what m w = (Ok a, w') → m w = (Ok a, w').
Proof.
  unfold fatal. intros (r & w1 & Ht & Hr)%bind_ok_inv. unfold try in Ht.
  destruct (m w) as [[x|e|s|] w2]; simplify_eq; by simplify_eq/=.
Qed.
Lemma from_result_inv {W A} (x : error + A) (w w' : W) a : from_result x w = (Ok a, w') → x = inr a ∧ w' = w.
Proof. destruct x; [done|]. by intros [= -> ->]. Qed.
Lemma deref_inv {W A} (o : option A) (w w' : W) a : deref o w = (Ok a, w') → o = Some a ∧ w' = w.
Proof. destruct o; [|done]. by intros [= -> ->]. Qed.

Section start.
Context `{OsCalls} `{Process} `{TimeText} `{JsonText} `{BootEnv} `{Runtime}.
Implicit Types fw : FsWorld * World.

Lemma in_files_inv {A} (m : M FsWorld A) fw a fw' :
  in_files m fw = (Ok a, fw') → m fw.1 = (Ok a, fw'.1) ∧ fw'.2 = fw.2.
Proof. unfold in_files. destruct (m fw.1) as [r f']. by intros [= -> <-]. Qed.
Lemma in_world_inv {A} (m : MW A) fw a fw' :
  in_world m fw = (Ok a, fw') → m fw.2 = (Ok a, fw'.2) ∧ fw'.1 = fw.1.
Proof. unfold in_world. destruct (m fw.2) as [r w']. by intros [= -> <-]. Qed.

Lemma mgmtCmd_ok depth f fw b fw' :
  mgmtCmd depth f fw = (Ok b, fw') → ∃ config cs fw1 fw2 fw3,
    choose_servers config fw1 = (Ok cs, fw2) ∧ NewServer config fw2 = (Ok (Booted_server b), fw3) ∧
    Booted_creds b = cs.1 ∧ Booted_http b = cs.2.
Proof.
  unfold mgmtCmd. intros (? & ? & _ & Hr)%bind_ok_inv. apply bind_ok_inv in Hr as (? & ? & _ & Hr).
  apply bind_ok_inv in Hr as (config & ? & _ & Hr). apply bind_ok_inv in Hr as (? & ? & _ & Hr).
  apply bind_ok_inv in Hr as (? & ? & _ & Hr). apply bind_ok_inv in Hr as (idp & ? & _ & Hr).
  apply bind_ok_inv in Hr as (? & fw1 & _ & Hr). apply bind_ok_inv in Hr as (cs & fw2 & Hcs & Hr).
  apply bind_ok_inv in Hr as (server & fw3 & Hs%fatal_ok_inv & Hr). apply bind_ok_inv in Hr as (? & ? & _ & Hr).
  injection Hr as <- _. by exists config, cs, fw1, fw2, fw3.
Qed.

(** Both servers have the same certificate, for the configuration that is
    there. *)
Lemma choose_servers_ok config fw cs fw' :
  choose_servers config fw = (Ok cs, fw') → ∃ h, Config_HttpConfig config = Some h ∧
    HS_config cs.2 = Some h ∧
    match cs.1 with
    | CredsAutocert m => HS_certManager cs.2 = Some m ∧ Http_LetsEncryptDomain h ≠ "" ∧ CM_Host m = Http_LetsEncryptDomain h
    | CredsCert t => HS_certManager cs.2 = None ∧ HS_tlsConfig cs.2 = Some t ∧ Http_LetsEncryptDomain h = "" ∧
        t = mkTLSConfig (Http_CertFile h) (Http_CertKey h) ∧ tls_LoadX509KeyPair (Http_CertFile h) (Http_CertKey h) = None
    | CredsNone => HS_certManager cs.2 = None ∧ HS_tlsConfig cs.2 = None ∧ Http_LetsEncryptDomain h = "" ∧
        (Http_CertFile h = "" ∨ Http_CertKey h = "")
    end.
Proof.
  unfold choose_servers. intros (h & fw1 & [Hh ->]%deref_inv & Hr)%bind_ok_inv. exists h. split; [done|].
  case_decide as Hd.
  - apply bind_ok_inv in Hr as (m & fw2 & Hm & Hr). apply bind_ok_inv in Hr as (s & fw3 & Hs & Hr).
    injection Hs as <- <-. injection Hr as <- <-. split; [done|]. simpl. do 2 (split; [done|]).
    unfold in_files in Hm. destruct (CreateCertManager _ _ fw.1) as [r f'] eqn:Hc. injection Hm as -> _.
    unfold CreateCertManager in Hc. apply bind_ok_inv in Hc as (? & ? & _ & [= <- _]). done.
  - case_decide as Hc.
    + apply bind_ok_inv in Hr as (t & fw2 & Ht%fatal_ok_inv & Hr). apply bind_ok_inv in Hr as (s & fw3 & Hs & Hr).
      injection Hs as <- <-. injection Hr as <- <-. unfold loadTLSConfig, of_outcome in Ht.
      destruct (tls_LoadX509KeyPair _ _) eqn:?; [done|]. injection Ht as <- <-. done.
    + apply bind_ok_inv in Hr as (s & fw3 & Hs & Hr). injection Hs as <- <-. injection Hr as <- <-.
      split; [done|]. do 3 (split; [done|]). destruct (decide (Http_CertFile h = "")); [by left|].
      destruct (decide (Http_CertKey h = "")); [by right|tauto].
Qed.

Definition tokens_configured (h : HttpServerConfig) : Prop :=
  Http_AuthIssuer h ≠ "" ∧ Http_AuthAudience h ≠ "" ∧ validateURL (Http_AuthKeysLocation h) = true.

Lemma NewJwtMiddleware_ok {W} issuer audience loc (w w' : W) m :
  NewJwtMiddleware issuer audience loc w = (Ok m, w') → w' = w ∧ ∃ body keys,
    http_Get loc = inr body ∧ jwks_Decode body = inr keys ∧ m = mkJwtMiddleware issuer audience keys.
Proof.
  unfold NewJwtMiddleware, getPemKeys. intros (keys & w1 & Hk & [= <- <-])%bind_ok_inv.
  apply bind_ok_inv in Hk as (body & w2 & [Hb ->]%from_result_inv & [Hk ->]%from_result_inv). eauto 10.
Qed.

Lemma NewServer_ok {W} config h (w w' : W) s :
  Config_HttpConfig config = Some h → NewServer config w = (Ok s, w') → Srv_config s = config ∧
  match Srv_jwt s with
  | Some m => tokens_configured h ∧ ∃ body keys, http_Get (Http_AuthKeysLocation h) = inr body ∧
      jwks_Decode body = inr keys ∧ m = mkJwtMiddleware (Http_AuthIssuer h) (Http_AuthAudience h) keys
  | None => ¬ tokens_configured h
  end.
Proof.
  intros Hh. unfold NewServer. rewrite Hh. intros (key & w1 & _ & Hr)%bind_ok_inv.
  apply bind_ok_inv in Hr as (jwt & w2 & Hj & [= <- <-]). split; [done|]. simpl. unfold tokens_configured.
  destruct (bool_decide (Http_AuthIssuer h ≠ "") && _ && _) eqn:Hc.
  - apply bind_ok_inv in Hj as (m & w3 & Hm & [= <- _]). unfold map_err in Hm.
    destruct (NewJwtMiddleware _ _ _ w1) as [[m'|e|s|] w4] eqn:Hn; simplify_eq.
    apply NewJwtMiddleware_ok in Hn as [_ Hn].
    apply andb_prop in Hc as [[?%bool_decide_eq_true ?%bool_decide_eq_true]%andb_prop ?]. done.
  - injection Hj as <- _. intros (Hi & Ha & Hv). rewrite !bool_decide_eq_true_2, Hv in Hc by done. done.
Qed.

Lemma NewServer_keeps {W} config (w w' : W) s : NewServer config w = (Ok s, w') → Srv_config s = config ∧ w' = w.
Proof.
  unfold NewServer. intros (key & w1 & [_ ->]%from_result_inv & Hr)%bind_ok_inv.
  apply bind_ok_inv in Hr as (jwt & w2 & Hj & [= <- <-]). split; [done|].
  destruct (Config_HttpConfig config) as [h|]; [|by injection Hj as _ <-].
  destruct (bool_decide (Http_AuthIssuer h ≠ "") && _ && _); [|by injection Hj as _ <-].
  apply bind_ok_inv in Hj as (m & w3 & Hm & [= _ <-]). unfold map_err in Hm.
  destruct (NewJwtMiddleware _ _ _ w) as [[m'|e|s|] w4] eqn:Hn; simplify_eq. by apply NewJwtMiddleware_ok in Hn as [-> _].
Qed.
Lemma choose_servers_keeps config fw cs fw' : choose_servers config fw = (Ok cs, fw') → fw'.2 = fw.2.
Proof.
  unfold choose_servers. intros (h & fw1 & [_ ->]%deref_inv & Hr)%bind_ok_inv. case_decide; [|case_decide].
  - apply bind_ok_inv in Hr as (m & fw2 & [_ <-]%in_files_inv & (s & fw3 & [= _ <-] & [= _ <-])%bind_ok_inv). done.
  - apply bind_ok_inv in Hr as (t & fw2 & Ht%fatal_ok_inv & (s & fw3 & [= _ <-] & [= _ <-])%bind_ok_inv).
    unfold loadTLSConfig, of_outcome in Ht. destruct (tls_LoadX509KeyPair _ _); [done|]. by injection Ht as _ <-.
  - by apply bind_ok_inv in Hr as (s & fw3 & [= _ <-] & [= _ <-]).
Qed.

(** Reading the configuration changes no file; the flag wins. *)
Lemma loadMgmtConfig_ok f w config w' :
  loadMgmtConfig f w = (Ok config, w') → Fs_nodes w' = Fs_nodes w ∧
  (MF_mgmtDataDir f ≠ "" → Config_Datadir config = MF_mgmtDataDir f).
Proof.
  unfold loadMgmtConfig. intros (c0 & w0 & Hread & Hr)%bind_ok_inv.
  assert (Fs_nodes w0 = Fs_nodes w) as <-.
  { unfold read_json_config in Hread. apply bind_ok_inv in Hread as (fd & w1 & [<- _]%os_Open_ok & Hread).
    apply bind_ok_inv in Hread as (fs & w2 & [= <- <-] & Hread).
    destruct (Fs_nodes w1 !! fd) as [[m d| |]|]; try done. by apply from_result_inv in Hread as [_ ->]. }
  apply bind_ok_inv in Hr as (c1 & w1 & Hc1 & Hr).
  assert (w1 = w0) as ->.
  { destruct (decide (MF_mgmtLetsencryptDomain f ≠ "")); [|by injection Hc1 as _ <-]. by apply bind_ok_inv in Hc1 as (h & w2 & [_ ->]%deref_inv & [= _ <-]). }
  apply bind_ok_inv in Hr as (c2 & w2 & Hc2 & Hr).
  assert (w2 = w0 ∧ (MF_mgmtDataDir f ≠ "" → Config_Datadir c2 = MF_mgmtDataDir f)) as [-> Hdir].
  { destruct (decide (MF_mgmtDataDir f ≠ "")); by injection Hc2 as <- <-. }
  destruct (decide (_ ∧ _)); [|by injection Hr as <- <-]. by apply bind_ok_inv in Hr as (h & w3 & [_ ->]%deref_inv & [= <- <-]).
Qed.

(** A process that starts has an empty store. *)
Lemma started_ok w accs : World_Store w = emptyStore → accounts_ok accs → manager_ok (set_Disk (Some accs) w).
Proof.
  intros Hs Ha. split; simpl; rewrite ?Hs.
  - assert (accounts_ok (∅ : gmap string Account)) as Hempty by (split; intros *; by rewrite lookup_empty). exact Hempty.
  - intros id a pk He. by destruct (lookup_empty_Some id a He).
  - by intros d [= <-].
Qed.

(** The store that is opened over its file. *)
Lemma NewStore_opens dataDir accs fw fw' :
  (∀ k, os_fault k = None ∧ killed k = false) →
  World_Store fw.2 = emptyStore → accounts_ok accs → kept (Fs_nodes fw.1) (path_of dataDir) accs →
  NewStore dataDir fw = (Ok tt, fw') →
  manager_ok fw'.2 ∧ Accounts (World_Store fw'.2) = accs.
Proof.
  intros Hq Hs Ha [Hd Ho]. unfold NewStore. intros (accs' & fw1 & [Hread E1]%in_files_inv & Hr)%bind_ok_inv.
  assert (accs' = accs) as ->.
  { pose proof (restore_reads (path_of dataDir) accs fw.1 _ Hd Ho (λ k _, Hq k)) as Hw.
    apply (wp_run _ _ _ _ _ Hread) in Hw. by injection Hw. }
  apply bind_ok_inv in Hr as ([] & fw2 & [Hm E2]%in_world_inv & [Hrest E3]%in_world_inv). injection Hm as Hm. rewrite E1 in Hm.
  pose proof (started_ok fw.2 accs Hs Ha) as Hok. rewrite Hm in Hok.
  pose proof (restore_keeps fw2.2 Hok) as Hk. apply (wp_run _ _ _ _ _ Hrest) in Hk. split; [done|].
  assert (World_Disk fw2.2 = Some accs) as Hdisk by (by rewrite <-Hm).
  pose proof (restore_spec accs fw2.2 Hdisk) as Hsp. apply (wp_run _ _ _ _ _ Hrest) in Hsp as [_ Hsp]. apply Hsp.
Qed.
End start.

(* ------------------------------------------------------------------ *)
(** ** Properties *)

Section properties.
Context `{OsCalls} `{Process} `{TimeText} `{JsonText} `{BootEnv} `{Runtime}.
Implicit Types fw : FsWorld * World.

(** C7: a restart of the management service keeps every account.  On files
    without symbolic links and with no call of the system failing, when the
    store of some well-formed accounts is in the data directory of the
    configuration (outside of the directories of the configuration and the
    log), or is still in the directory of the former name and the directory is
    the default one and not there, and the command gets to serving: the store
    holds exactly these accounts, well formed, each as it was or, if it had no
    group, with the default group and rule; and the data directory is that of
    the flag, unless the flag is empty. *)
Theorem restart_keeps_accounts depth f fw b fw' accs :
  (∀ k, os_fault k = None ∧ killed k = false) →
  plain (Fs_nodes fw.1) → World_Store fw.2 = emptyStore → accounts_ok accs →
  store_found (Fs_nodes fw.1) (bool_decide (MF_mgmtDataDir f = defaultMgmtDataDir))
    (path_of (Config_Datadir (Srv_config (Booted_server b)))) accs →
  mgmtCmd depth f fw = (Ok b, fw') →
  manager_ok fw'.2 ∧
  (∀ id, match accs !! id with
    | Some a => ∃ a', Accounts (World_Store fw'.2) !! id = Some a' ∧ defaulted a a'
    | None => Accounts (World_Store fw'.2) !! id = None
    end) ∧
  (MF_mgmtDataDir f ≠ "" → Config_Datadir (Srv_config (Booted_server b)) = MF_mgmtDataDir f).
Proof.
  intros Hq Hpl Hs Ha Hfound. unfold mgmtCmd. intros ([] & fw0 & Hlog%fatal_ok_inv & Hr)%bind_ok_inv.
  assert (fw0 = fw) as -> by (unfold of_outcome in Hlog; destruct (log_ParseLevel _); [done|by injection Hlog as <-]).
  apply bind_ok_inv in Hr as ([] & fw1 & [Hreb E1]%fatal_ok_inv%in_files_inv & Hr).
  apply bind_ok_inv in Hr as (config & fw2 & [Hload E2]%fatal_ok_inv%in_files_inv & Hr).
  apply loadMgmtConfig_ok in Hload as [Hn2 Hflag].
  apply bind_ok_inv in Hr as ([] & fw3 & [Hdir E3]%in_files_inv & Hr).
  apply bind_ok_inv in Hr as ([] & fw4 & Hstore%fatal_ok_inv & Hr).
  apply bind_ok_inv in Hr as (idp & fw5 & Hidp & Hr).
  assert (fw5 = fw4) as ->.
  { destruct (Config_IdpManagerConfig config); [|by injection Hidp as _ <-].
    apply fatal_ok_inv in Hidp. by apply from_result_inv in Hidp as [_ ->]. }
  apply bind_ok_inv in Hr as ([] & fw6 & [Hbuild E6]%fatal_ok_inv%in_world_inv & Hr).
  apply bind_ok_inv in Hr as (cs & fw7 & E7%choose_servers_keeps & Hr).
  apply bind_ok_inv in Hr as (server & fw8 & [Hcfg ->]%fatal_ok_inv%NewServer_keeps & Hr).
  apply bind_ok_inv in Hr as ([] & fw9 & Hl%fatal_ok_inv & [= <- <-]).
  assert (fw9 = fw7) as -> by (unfold of_outcome in Hl; destruct (net_Listen _); [done|by injection Hl as <-]).
  simpl in Hfound |- *. rewrite Hcfg in *. rewrite E7.
  assert (kept (Fs_nodes fw1.1) (path_of (Config_Datadir config)) accs) as Hk1.
  { refine (proj2 (wp_ok_inv _ _ _ _ _ Hreb (handleRebrand_brings_store (λ k, proj1 (Hq k)) _ _ _ _ _ _ _ Hpl _ Hfound))).
    intros Hdef%bool_decide_eq_true. rewrite Hflag by (by rewrite Hdef). by rewrite Hdef. }
  assert (kept (Fs_nodes fw3.1) (path_of (Config_Datadir config)) accs) as Hk3.
  { rewrite <-Hn2 in Hk1. pose proof Hk1 as [(Hres & [m Hm] & _) _].
    unfold ensure_dir in Hdir. apply bind_ok_inv in Hdir as (i & w4 & Hst & Hdir). unfold try in Hst.
    pose proof (Stat_there (λ k, proj1 (Hq k)) _ fw2.1 m Hres Hm) as Hw. unfold wp in Hw.
    destruct (os_Stat (path_of (Config_Datadir config)) fw2.1) as [r w5]. simpl in Hw. destruct Hw as (E5 & i' & ->).
    injection Hst as <- <-. injection Hdir as <-. by rewrite E5. }
  apply (NewStore_opens _ accs) in Hstore as [Hok4 Ea]; [|done|by rewrite E3, E2, E1|done|exact Hk3].
  pose proof (BuildManager_keeps fw4.2 Hok4) as Hw6. apply (wp_run _ _ _ _ _ Hbuild) in Hw6.
  pose proof (BuildManager_defaults fw4.2 (as_keyed _ (mo_accounts _ Hok4))) as Hd6. apply (wp_run _ _ _ _ _ Hbuild) in Hd6.
  rewrite Ea in Hd6. split_and!; [done|exact Hd6|exact Hflag].
Qed.

(** The two servers agree: when the service serves, the gRPC server and
    the HTTP server have the same certificate or both none, and they accept
    tokens by the same keys, issuer and audience, unless the configuration of
    tokens is incomplete; then gRPC accepts none. *)
Theorem servers_agree depth f fw b fw1 jwt l fw2 :
  mgmtCmd depth f fw = (Ok b, fw1) → serve_http b fw1 = (Ok (jwt, l), fw2) →
  match l, Booted_creds b with
  | ListenAutocert m, CredsAutocert m' => m = m'
  | ListenTLS _ t, CredsCert t' => t = t'
  | ListenPlain _, CredsNone => True
  | _, _ => False
  end ∧
  ∃ h, Config_HttpConfig (Srv_config (Booted_server b)) = Some h ∧
    Srv_jwt (Booted_server b) = if decide (tokens_configured h) then Some jwt else None.
Proof.
  intros (config & cs & w1 & w2 & w3 & Hcs & Hsrv & Hc & Hh)%mgmtCmd_ok Hserve%fatal_ok_inv.
  apply choose_servers_ok in Hcs as (h & Hcfg & Hcs & Hkind). eapply NewServer_ok in Hsrv as [Hconf Hjwt]; [|exact Hcfg].
  unfold HttpServer_Start in Hserve. rewrite Hh, Hcs in Hserve. simpl in Hserve.
  apply bind_ok_inv in Hserve as (h' & w4 & [= <- <-] & Hserve).
  apply bind_ok_inv in Hserve as (m & w5 & (-> & body & keys & Hb & Hk & ->)%NewJwtMiddleware_ok & [= <- <- _]).
  split.
  - rewrite Hc. destruct cs.1; [destruct Hkind as (-> & -> & _)|destruct Hkind as [-> _]|destruct Hkind as (-> & -> & _)]; done.
  - exists h. rewrite Hconf. split; [done|]. destruct (Srv_jwt _) as [m|]; [|by rewrite decide_False].
    destruct Hjwt as (Hok & body' & keys' & Hb' & Hk' & ->). rewrite decide_True by done. congruence.
Qed.

(** A configuration without tokens gets through [NewServer], which only turns
    the tokens off; then the HTTP server fails to get the keys, and exits. *)
Theorem no_tokens_no_service depth f fw b fw1 h e :
  mgmtCmd depth f fw = (Ok b, fw1) → Config_HttpConfig (Srv_config (Booted_server b)) = Some h →
  Http_AuthIssuer h = "" → http_Get (Http_AuthKeysLocation h) = inl e →
  Srv_jwt (Booted_server b) = None ∧
  serve_http b fw1 = (Panic ("exit: failed to serve http server: " +:+ error_text e), fw1).
Proof.
  intros (config & cs & w1 & w2 & w3 & Hcs & Hsrv & Hc & Hh)%mgmtCmd_ok Hcfg Hi He.
  apply choose_servers_ok in Hcs as (h' & Hcfg' & Hcs & _). eapply NewServer_ok in Hsrv as [Hconf Hjwt]; [|exact Hcfg'].
  rewrite Hconf in Hcfg. assert (h' = h) as -> by congruence. split.
  - destruct (Srv_jwt _); [|done]. by destruct Hjwt as [[? _] _].
  - unfold serve_http, fatal, HttpServer_Start, NewJwtMiddleware, getPemKeys, try, mbind, M_bind.
    rewrite Hh, Hcs. simpl. by rewrite He.
Qed.

(** The directory of the file is never used with the default flags, because
    the default of [--datadir] is not empty. *)
Theorem file_datadir_ignored f w config w' :
  MF_mgmtDataDir f = defaultMgmtDataDir → loadMgmtConfig f w = (Ok config, w') →
  Config_Datadir config = "/var/lib/netbird/".
Proof.
  intros Hf. unfold loadMgmtConfig. intros (c0 & w0 & _ & Hr)%bind_ok_inv. apply bind_ok_inv in Hr as (c1 & w1 & _ & Hr).
  rewrite Hf in Hr. apply bind_ok_inv in Hr as (c2 & w2 & [= <- <-] & Hr). case_decide; [|by injection Hr as <- _].
  apply bind_ok_inv in Hr as (h & w3 & _ & [= <- _]). done.
Qed.
End properties.

(* ------------------------------------------------------------------ *)
(** ** A concrete start *)

(** The keys of the issuer are at one address; the configuration [cfg] has
    tokens and a certificate, [bare] neither. *)
Definition demo_http : HttpServerConfig :=
  mkHttpConfig "" "/cert.pem" "/key.pem" "0.0.0.0:443" "aud" "https://issuer/" "https://issuer/keys".
Definition bare_http : HttpServerConfig := mkHttpConfig "" "" "" "0.0.0.0:80" "" "" "".
Definition demo_file_config (h : HttpServerConfig) : Config :=
  mkConfig [] (Some demo_turn) None "/data" (Some h) None None.
Definition demo_boot : BootEnv := {|
  log_ParseLevel := λ s, if decide (s = "info") then None else Some (Plain "not a valid logrus Level");
  config_Unmarshal := λ s, if decide (s = "cfg") then inr (demo_file_config demo_http)
    else if decide (s = "bare") then inr (demo_file_config bare_http) else inl (Plain "invalid character");
  tls_LoadX509KeyPair := λ _ _, None;
  http_Get := λ u, if decide (u = "https://issuer/keys") then inr "jwks" else inl (Plain "unsupported protocol scheme");
  jwks_Decode := λ _, inr [mkJwk "k" ["x5c"]];
  url_parses := λ u, bool_decide (u ≠ "");
  wg_Generate := inr [9]%Z;
  net_Listen := λ _, None |}.
Definition demo_boot_files (cfg : string) : FsWorld := mkFs (list_to_map [
  (["etc"], NDir 493); (["etc"; "netbird"], NDir 493); (["etc"; "netbird"; "management.json"], NFile 384 cfg);
  (["var"], NDir 493); (["var"; "lib"], NDir 493); (["var"; "lib"; "wiretrustee"], NDir 448);
  (["var"; "lib"; "wiretrustee"; "store.json"], NFile 384 "store"); (["var"; "log"], NDir 493)]) 0.
Definition demo_down : World := set_Store emptyStore demo_joined.

(** The file [store] is that of the accounts the manager of [demo_joined] has
    written; times are written in binary. *)
Fixpoint pos_text (p : positive) : string :=
  match p with xH => "" | xO p => String "0" (pos_text p) | xI p => String "1" (pos_text p) end.
Fixpoint text_pos (s : string) : positive :=
  match s with "" => xH | String a s => if decide (a = "0"%char) then xO (text_pos s) else xI (text_pos s) end.
Lemma text_pos_text p : text_pos (pos_text p) = p.
Proof. induction p as [p IH|p IH|]; simpl; [by rewrite IH..|done]. Defined.
Definition binary_time : TimeText.
Proof.
  refine {| time_MarshalJSON t := Some match t with Z0 => "" | Zpos p => String "+" (pos_text p) | Zneg p => String "-" (pos_text p) end;
    time_UnmarshalJSON s := Some match s with "" => 0%Z | String a s => if decide (a = "+"%char) then Zpos (text_pos s) else Zneg (text_pos s) end |}.
  intros [|p|p] s [= <-]; simpl; by rewrite ?text_pos_text.
Defined.
Definition demo_accounts : gmap string Account := default ∅ (World_Disk demo_down).
Definition demo_store_json : Json := default JNull (@enc_Store binary_time demo_accounts).
Definition demo_json : JsonText.
Proof.
  refine {| json_MarshalIndent _ := "store"; json_utf8 j := j = demo_store_json;
    json_Unmarshal s := if decide (s = "store") then inr demo_store_json else inl (Plain "invalid character") |}.
  intros j ->. reflexivity.
Defined.
Definition demo_mgmtCmd : nat → MgmtFlags → M (FsWorld * World) Booted :=
  @mgmtCmd (calls_but None) (killed_at None) binary_time demo_json demo_boot demo_runtime.
Definition demo_boot_run (cfg : string) (w : World) : Res Booted * (FsWorld * World) :=
  demo_mgmtCmd 3 default_mgmt_flags (demo_boot_files cfg, w).

(** A process that ends loses its store, not the file. *)
Lemma crash_ok w : manager_ok w → manager_ok (set_Store emptyStore w).
Proof.
  intros Hok. split; [|intros id a pk Ha; destruct (lookup_empty_Some id a Ha)|exact (mo_disk _ Hok)].
  assert (accounts_ok (∅ : gmap string Account)) as Hempty by (split; intros *; by rewrite lookup_empty). exact Hempty.
Qed.
Lemma demo_down_ok : manager_ok demo_down.
Proof. apply crash_ok, (@mgr_reachable_ok demo_runtime); [apply demo_subnets_ok|apply demo_joined_reachable]. Qed.

(** The data of the former name is carried over on the way. *)
Example demo_boot_carries_over :
  Fs_nodes (demo_boot_run "cfg" demo_down).2.1 !! ["var"; "lib"; "netbird"; "store.json"] = Some (NFile 384 "store").
Proof. vm_compute. reflexivity. Qed.

(** The files have no links. *)
Lemma demo_boot_plain cfg : plain (Fs_nodes (demo_boot_files cfg)).
Proof.
  split; [reflexivity|]. intros p t Hp. apply elem_of_list_to_map_2 in Hp. revert Hp. simpl.
  rewrite !elem_of_cons, elem_of_nil. intros Hp. repeat (destruct Hp as [Hp|Hp]; [discriminate Hp|]). exact Hp.
Defined.
#[local] Opaque resolve max_links.
Lemma demo_old_store : @kept binary_time demo_json (Fs_nodes (demo_boot_files "cfg")) lib_old demo_accounts.
Proof.
  split; [split; [vm_compute; reflexivity|split; [eexists; vm_compute; reflexivity|intros t; vm_compute; discriminate]]|].
  vm_compute. reflexivity.
Defined.

(** Carried over, and kept. *)
Lemma restart_keeps_accounts_witness :
  ∃ a b fw', demo_accounts = {["A" := a]} ∧ demo_boot_run "cfg" demo_down = (Ok b, fw') ∧
    ∃ a', Accounts (World_Store fw'.2) !! "A" = Some a' ∧ defaulted a a'.
Proof.
  assert (∃ a, demo_accounts = {["A" := a]}) as [a Ha] by (eexists; vm_compute; reflexivity).
  assert (∃ b fw', demo_boot_run "cfg" demo_down = (Ok b, fw') ∧ Config_Datadir (Srv_config (Booted_server b)) = defaultMgmtDataDir)
    as (b & fw' & Hrun & Hdir) by (eexists _, _; split; vm_compute; reflexivity).
  assert (accounts_ok demo_accounts) as Hok.
  { destruct (World_Disk demo_down) as [accs|] eqn:Hd; [|vm_compute in Hd; discriminate Hd].
    unfold demo_accounts. rewrite Hd. exact (mo_disk _ demo_down_ok accs Hd). }
  exists a, b, fw'. split; [exact Ha|]. split; [exact Hrun|].
  destruct (@restart_keeps_accounts (calls_but None) (killed_at None) binary_time demo_json demo_boot demo_runtime 3 default_mgmt_flags
    (demo_boot_files "cfg", demo_down) b fw' demo_accounts) as (_ & Hall & _).
  - intros k. split; reflexivity.
  - apply demo_boot_plain.
  - reflexivity.
  - exact Hok.
  - right. split; [reflexivity|]. split; [reflexivity|]. exact demo_old_store.
  - exact Hrun.
  - specialize (Hall "A"). rewrite Ha, lookup_singleton_eq in Hall. exact Hall.
Defined.

Lemma servers_agree_witness :
  ∃ b fw1, demo_boot_run "cfg" demo_down = (Ok b, fw1) ∧ Booted_creds b = CredsCert (mkTLSConfig "/cert.pem" "/key.pem") ∧
    Srv_jwt (Booted_server b) = Some (mkJwtMiddleware "https://issuer/" "aud" [mkJwk "k" ["x5c"]]).
Proof.
  assert (∃ b fw1, demo_boot_run "cfg" demo_down = (Ok b, fw1) ∧ Booted_creds b = CredsCert (mkTLSConfig "/cert.pem" "/key.pem") ∧
    Config_HttpConfig (Srv_config (Booted_server b)) = Some demo_http ∧
    (@serve_http demo_boot b fw1).1 = Ok (mkJwtMiddleware "https://issuer/" "aud" [mkJwk "k" ["x5c"]],
      ListenTLS "0.0.0.0:443" (mkTLSConfig "/cert.pem" "/key.pem"))) as (b & fw1 & Hrun & Hc & Hcfg & Hs).
  { eexists _, _. split; [vm_compute; reflexivity|]. vm_compute. by repeat split. }
  exists b, fw1. split; [exact Hrun|]. split; [exact Hc|].
  destruct (@serve_http demo_boot b fw1) as [r fw2] eqn:Hserve. simpl in Hs. subst r.
  destruct (@servers_agree (calls_but None) (killed_at None) binary_time demo_json demo_boot demo_runtime 3 default_mgmt_flags _ b fw1 _ _ fw2 Hrun Hserve)
    as (_ & h & Hh & ->).
  rewrite Hcfg in Hh. injection Hh as <-. rewrite decide_True; [reflexivity|].
  split; [discriminate|]. split; [discriminate|reflexivity].
Defined.

Lemma no_tokens_no_service_witness :
  ∃ b fw1, demo_boot_run "bare" demo_down = (Ok b, fw1) ∧ Srv_jwt (Booted_server b) = None ∧
    @serve_http demo_boot b fw1 = (Panic "exit: failed to serve http server: unsupported protocol scheme", fw1).
Proof.
  assert (∃ b fw1, demo_boot_run "bare" demo_down = (Ok b, fw1) ∧
    Config_HttpConfig (Srv_config (Booted_server b)) = Some bare_http) as (b & fw1 & Hrun & Hcfg).
  { eexists _, _. split; vm_compute; reflexivity. }
  exists b, fw1. split; [exact Hrun|].
  exact (@no_tokens_no_service (calls_but None) (killed_at None) binary_time demo_json demo_boot demo_runtime 3 default_mgmt_flags _ b fw1 bare_http
    (Plain "unsupported protocol scheme") Hrun Hcfg eq_refl eq_refl).
Defined.

Lemma file_datadir_ignored_witness :
  ∃ config w', @loadMgmtConfig (calls_but None) demo_boot default_mgmt_flags (demo_boot_files "cfg") = (Ok config, w') ∧
    Config_Datadir (demo_file_config demo_http) = "/data" ∧ Config_Datadir config = "/var/lib/netbird/".
Proof.
  assert (∃ config w', @loadMgmtConfig (calls_but None) demo_boot default_mgmt_flags (demo_boot_files "cfg") = (Ok config, w'))
    as (config & w' & Hrun) by (eexists _, _; vm_compute; reflexivity).
  exists config, w'. split; [exact Hrun|]. split; [reflexivity|].
  exact (@file_datadir_ignored (calls_but None) demo_boot default_mgmt_flags _ config w' eq_refl Hrun).
Defined.
