(* ===== verification/Stopping.v ===== *)
(** * Stopping: how the processes end (management/cmd/management.go and root.go,
    http/server.go, signal/cmd/run.go and root.go, [SetupCloseHandler] of
    client/cmd/root.go)

    The goroutines of the management service as a state machine: the command
    itself, the two that serve and the one of the close handler.  The three
    that have errors to report assign them to one variable, [err] of the
    command, and look at it in a later step; any other goroutine may run in
    between. *)

From S2P Require Import Prelude GoLib Boot.

(** How a process ended: a signal nobody handles, or an exit code. *)
Inductive Exit := Killed | ExitCode (code : Z).

(* ------------------------------------------------------------------ *)
(** ** The management service *)

Module Mgmt.

(** Where the command is: before [SetupCloseHandler], at [<-stopCh], before
    and in [Shutdown], at the test of its error, before [grpcServer.Stop] and
    after it. *)
Inductive MainAt := AtSetup | AtStopCh | AtStop | AtShutdown | AtTest | AtGrpcStop | AtEnd.
(** A goroutine that serves: in [Serve], at the test of [err], returned. *)
Inductive ServeAt := Serving | Testing | Returned.
(** The goroutine of [SetupCloseHandler]: at [range c], at [stopCh <- 0]. *)
Inductive HandlerAt := NoHandler | Ranging | Sending.

(** [St_c] is the channel of the signals, which holds one. *)
Record StopState := mkStopState {
  St_err : option string;
  St_main : MainAt; St_http : ServeAt; St_grpc : ServeAt; St_handler : HandlerAt;
  St_c : bool; St_httpDown : bool; St_grpcDown : bool; St_exit : option Exit }.

Definition set_err (e : option string) (s : StopState) : StopState :=
  mkStopState e (St_main s) (St_http s) (St_grpc s) (St_handler s) (St_c s) (St_httpDown s) (St_grpcDown s) (St_exit s).
Definition set_main (m : MainAt) (s : StopState) : StopState :=
  mkStopState (St_err s) m (St_http s) (St_grpc s) (St_handler s) (St_c s) (St_httpDown s) (St_grpcDown s) (St_exit s).
Definition set_http (h : ServeAt) (s : StopState) : StopState :=
  mkStopState (St_err s) (St_main s) h (St_grpc s) (St_handler s) (St_c s) (St_httpDown s) (St_grpcDown s) (St_exit s).
Definition set_grpc (g : ServeAt) (s : StopState) : StopState :=
  mkStopState (St_err s) (St_main s) (St_http s) g (St_handler s) (St_c s) (St_httpDown s) (St_grpcDown s) (St_exit s).
Definition set_handler (h : HandlerAt) (c : bool) (s : StopState) : StopState :=
  mkStopState (St_err s) (St_main s) (St_http s) (St_grpc s) h c (St_httpDown s) (St_grpcDown s) (St_exit s).
Definition set_down (http grpc : bool) (s : StopState) : StopState :=
  mkStopState (St_err s) (St_main s) (St_http s) (St_grpc s) (St_handler s) (St_c s) http grpc (St_exit s).
Definition exit_with (e : Exit) (s : StopState) : StopState :=
  mkStopState (St_err s) (St_main s) (St_http s) (St_grpc s) (St_handler s) (St_c s) (St_httpDown s) (St_grpcDown s) (Some e).

(** The command when both goroutines are on their way. *)
Definition mgmt_serving : StopState := mkStopState None AtSetup Serving Serving NoHandler false false false None.

Definition ErrServerClosed : string := "http: Server closed".

Inductive stop_label :=
  | Interrupt | Terminate
  | Setup | Take | Receive | Shutdown | ShutdownReturns (r : option string) | MainTests | GrpcStop | MainEnds
  | HttpReturns (e : string) | HttpTests | GrpcReturns (r : option string) | GrpcTests.

(** [log.Fatalf] when [err] is not nil, else [k]. *)
Definition tests (k : StopState → StopState) (s : StopState) : StopState :=
  match St_err s with Some _ => exit_with (ExitCode 1) s | None => k s end.

(** Only [ListenAndServe] is of the server [Shutdown] is called of; the other
    two ways to listen use [http.Serve], which makes a server of its own. *)
Definition is_plain (l : Listener) : bool := match l with ListenPlain _ => true | _ => false end.

(** [Stop] of http/server.go comes back with the result of [Shutdown]; of a
    server that does not listen it is nil. *)
Definition HttpServer_Stop_returns (l : Listener) (r : option string) (s : StopState) : option StopState :=
  if is_plain l || bool_decide (r = None) then Some (set_main AtTest (set_err r s)) else None.

(** The goroutine is started, the signals go to [St_c]. *)
Definition SetupCloseHandler (s : StopState) : StopState := set_handler Ranging (St_c s) s.

(** One step; [None] when it cannot be made.
    - [Interrupt]: os.Interrupt; without a handler it ends the process; the
      channel keeps one, the others are lost.  SIGTERM has no handler.
    - [HttpReturns]: never nil; the error of a closed server only after
      [Shutdown].  [GrpcReturns]: nil after [Stop], and only then. *)
Definition stop_step (l : Listener) (a : stop_label) (s : StopState) : option StopState :=
  match St_exit s with
  | Some _ => None
  | None =>
      match a with
      | Interrupt => Some (match St_handler s with NoHandler => exit_with Killed s | h => set_handler h true s end)
      | Terminate => Some (exit_with Killed s)
      | Setup => match St_main s with AtSetup => Some (set_main AtStopCh (SetupCloseHandler s)) | _ => None end
      | Take => match St_handler s, St_c s with Ranging, true => Some (set_handler Sending false s) | _, _ => None end
      | Receive =>
          match St_handler s, St_main s with
          | Sending, AtStopCh => Some (set_main AtStop (set_handler Ranging (St_c s) s))
          | _, _ => None
          end
      | Shutdown => match St_main s with AtStop => Some (set_down true (St_grpcDown s) (set_main AtShutdown s)) | _ => None end
      | ShutdownReturns r =>
          match St_main s with
          | AtShutdown => HttpServer_Stop_returns l r s
          | _ => None
          end
      | MainTests => match St_main s with AtTest => Some (tests (set_main AtGrpcStop) s) | _ => None end
      | GrpcStop => match St_main s with AtGrpcStop => Some (set_down (St_httpDown s) true (set_main AtEnd s)) | _ => None end
      | MainEnds => match St_main s with AtEnd => Some (exit_with (ExitCode 0) s) | _ => None end
      | HttpReturns e =>
          match St_http s with
          | Serving =>
              if bool_decide (e = ErrServerClosed) && negb (is_plain l && St_httpDown s) then None
              else Some (set_http Testing (set_err (Some e) s))
          | _ => None
          end
      | HttpTests => match St_http s with Testing => Some (tests (set_http Returned) s) | _ => None end
      | GrpcReturns r =>
          match St_grpc s with
          | Serving => if eqb (bool_decide (r = None)) (St_grpcDown s) then Some (set_grpc Testing (set_err r s)) else None
          | _ => None
          end
      | GrpcTests => match St_grpc s with Testing => Some (tests (set_grpc Returned) s) | _ => None end
      end
  end.

Fixpoint stop_run (l : Listener) (tr : list stop_label) (s : StopState) : option StopState :=
  match tr with [] => Some s | a :: tr => s' ← stop_step l a s; stop_run l tr s' end.

(** What the environment does: signals, and servers that fail. *)
Definition environment (a : stop_label) : bool :=
  match a with
  | Interrupt | Terminate | ShutdownReturns (Some _) | GrpcReturns (Some _) => true
  | HttpReturns e => negb (bool_decide (e = ErrServerClosed))
  | _ => false
  end.
Definition failure (a : stop_label) : bool := match a with Interrupt => false | _ => environment a end.
End Mgmt.

(* ------------------------------------------------------------------ *)
(** ** The signal server and the client *)

Module Signal.

(** [runCmd] of signal/cmd/run.go serves on its own goroutine: the handler is
    set up when [Serve] has returned.  Nothing calls [Stop] of its server, so
    [St_stopped], which lets [Serve] return nil, is set by no step. *)
Inductive At := InServe | BeforeHandler | AtStopCh | Ended.
Record SigStopState := mkSigStopState { St_at : At; St_stopped : bool; St_handler : bool; St_pending : bool; St_exit : option Exit }.
Definition sig_serving : SigStopState := mkSigStopState InServe false false false None.

Inductive sig_label := Interrupt | Terminate | ServeReturns (r : option string) | Setup | Receive | Ends.

Definition sig_SetupCloseHandler (s : SigStopState) : SigStopState := mkSigStopState AtStopCh (St_stopped s) true (St_pending s) (St_exit s).
Definition ended (e : Exit) (s : SigStopState) : SigStopState := mkSigStopState Ended (St_stopped s) (St_handler s) (St_pending s) (Some e).

Definition sig_stop_step (a : sig_label) (s : SigStopState) : option SigStopState :=
  match St_exit s with
  | Some _ => None
  | None =>
      match a, St_at s with
      | Interrupt, i =>
          Some (if St_handler s then mkSigStopState i (St_stopped s) true true None else ended Killed s)
      | Terminate, _ => Some (ended Killed s)
      | ServeReturns (Some e), InServe => Some (ended (ExitCode 1) s)
      | ServeReturns None, InServe =>
          if St_stopped s then Some (mkSigStopState BeforeHandler true (St_handler s) (St_pending s) None) else None
      | Setup, BeforeHandler => Some (sig_SetupCloseHandler s)
      | Receive, AtStopCh => if St_pending s then Some (mkSigStopState Ended (St_stopped s) (St_handler s) false None) else None
      | Ends, Ended => Some (ended (ExitCode 0) s)
      | _, _ => None
      end
  end.

Inductive sig_reachable : SigStopState → Prop :=
  | reach_start : sig_reachable sig_serving
  | reach_step s a s' : sig_reachable s → sig_stop_step a s = Some s' → sig_reachable s'.
End Signal.

Module Client.

(** The goroutine of [SetupCloseHandler] of the client waits for the context
    to be done or for a signal, SIGTERM among them, and cancels the context;
    the channel of the signals, of capacity one, is not read again. *)
Record CloseState := mkCloseState { St_done : bool; St_termCh : bool; St_waits : bool }.
Inductive close_label := Cancel | Notify | Select.

Definition client_SetupCloseHandler (done : bool) : CloseState := mkCloseState done false true.

Definition close_step (a : close_label) (s : CloseState) : option CloseState :=
  match a with
  | Cancel => Some (mkCloseState true (St_termCh s) (St_waits s))
  | Notify => Some (mkCloseState (St_done s) true (St_waits s))
  | Select =>
      if St_waits s then
        if St_done s then Some (mkCloseState true (St_termCh s) false)
        else if St_termCh s then Some (mkCloseState true false false) else None
      else None
  end.
Fixpoint close_run (tr : list close_label) (s : CloseState) : option CloseState :=
  match tr with [] => Some s | a :: tr => s' ← close_step a s; close_run tr s' end.
End Client.

(* ------------------------------------------------------------------ *)
(** ** Invariants of the management service *)

Import Mgmt.

Lemma run_snoc l tr a s : stop_run l (tr ++ [a]) s = (s' ← stop_run l tr s; stop_step l a s').
Proof. revert s. induction tr as [|b tr IH]; intros s; simpl; [by destruct (stop_step l a s)|]. destruct (stop_step l b s); [apply IH|done]. Qed.

(** A property every step keeps, of the trace and the state it leads to. *)
Lemma run_invariant l (P : list stop_label → StopState → Prop) :
  P [] mgmt_serving → (∀ tr a s s', P tr s → stop_step l a s = Some s' → P (tr ++ [a]) s') →
  ∀ tr s, stop_run l tr mgmt_serving = Some s → P tr s.
Proof.
  intros P0 Pstep tr. induction tr as [|a tr IH] using rev_ind; intros s Hrun; [by injection Hrun as <-|].
  rewrite run_snoc in Hrun. destruct (stop_run l tr mgmt_serving) as [s1|]; [|done]. by eapply Pstep; [apply IH|].
Qed.

(** Case analysis of a step. *)
Ltac step_cases :=
  match goal with
  | Hs : stop_step ?l ?a ?s = Some ?s' |- _ =>
      destruct s as [e m h g hd c hdown gdown ex]; unfold stop_step, HttpServer_Stop_returns in Hs; simpl in Hs; destruct ex; [done|];
      destruct a; simpl in Hs; repeat case_match; simplify_eq/=; unfold tests in *; simpl in *; repeat case_match; simplify_eq/=
  end.

(** How far the command is. *)
Definition rank (m : MainAt) : nat :=
  match m with
  | AtSetup => 6 | AtStopCh => 5 | AtStop => 4 | AtShutdown => 3 | AtTest => 2 | AtGrpcStop => 1 | AtEnd => 0
  end.
Definition serve_rank (g : ServeAt) : nat := match g with Serving => 2 | Testing => 1 | Returned => 0 end.
(** The steps left when there are no more interrupts. *)
Definition left_ (s : StopState) : nat :=
  if St_exit s is Some _ then 0
  else 1 + rank (St_main s) + serve_rank (St_http s) + serve_rank (St_grpc s) + (if St_c s then 1 else 0).

Lemma step_left l a s s' : a ≠ Interrupt → stop_step l a s = Some s' → left_ s' < left_ s.
Proof. intros Ha Hs. step_cases; unfold left_; simpl; lia. Qed.

Lemma run_left l tr s s' : Interrupt ∉ tr → stop_run l tr s = Some s' → length tr + left_ s' ≤ left_ s.
Proof.
  revert s. induction tr as [|a tr IH]; intros s Hn Hrun; [by injection Hrun as <-|]. simpl in Hrun.
  destruct (stop_step l a s) as [s1|] eqn:Hs; [|done]. rewrite not_elem_of_cons in Hn. destruct Hn as [Ha Hn].
  apply step_left in Hs; [|done]. apply IH in Hrun; [|done]. simpl. lia.
Qed.

(** What must have happened for the command to be where it is. *)
Definition past (s : StopState) : list stop_label :=
  let seen := match St_handler s with Sending => [Interrupt] | _ => if St_c s then [Interrupt] else [] end in
  let stopping := [Interrupt; Receive] in
  match St_main s with
  | AtSetup | AtStopCh => seen
  | AtStop => stopping
  | AtShutdown => stopping ++ [Shutdown]
  | AtTest => stopping ++ [Shutdown] ++ match St_err s with None => [ShutdownReturns None] | Some _ => [] end
  | AtGrpcStop => stopping ++ [Shutdown; ShutdownReturns None; MainTests]
  | AtEnd => stopping ++ [Shutdown; ShutdownReturns None; MainTests; GrpcStop] ++
               match St_exit s with Some (ExitCode 0) => [MainEnds] | _ => [] end
  end.
Definition orderly (s : StopState) : Prop :=
  (St_grpcDown s = true → St_main s = AtEnd) ∧ (St_exit s = Some (ExitCode 0) → St_main s = AtEnd) ∧
  (St_handler s = NoHandler → St_main s = AtSetup).

Lemma step_orderly l a s s' : orderly s → stop_step l a s = Some s' → orderly s'.
Proof.
  intros (Hg & Hx & Hh) Hs. unfold orderly in *. step_cases; (split_and!; [try done..|]); try done;
    
    intros; first [done|by simplify_eq/=|by specialize (Hg eq_refl)|by specialize (Hh eq_refl)|by specialize (Hg ltac:(done))|by specialize (Hh ltac:(done))].
Qed.

(** A list of labels is within another, by taking each as soon as it comes. *)
Ltac within :=
  repeat match goal with
  | |- ?x :: _ `sublist_of` ?x :: _ => apply sublist_skip
  | |- [] `sublist_of` _ => apply sublist_nil_l
  | |- _ `sublist_of` _ :: _ => apply sublist_cons
  end.

Lemma step_past l a s s' : orderly s → stop_step l a s = Some s' → past s' `sublist_of` past s ++ [a].
Proof.
  intros (Hg & Hx & Hh) Hs. step_cases; unfold past in *; simpl in *; repeat case_match; simplify_eq/=;
    try (by specialize (Hg eq_refl)); try (by specialize (Hh eq_refl)); within; try done. destruct gdown; [by specialize (Hg eq_refl)|done].
Qed.

Lemma run_past l tr s : stop_run l tr mgmt_serving = Some s → orderly s ∧ past s `sublist_of` tr.
Proof.
  revert tr s. apply run_invariant; [by split_and!|]. intros tr a s s' [Ho Hp] Hs.
  split; [by eapply step_orderly|]. etrans; [by eapply step_past|]. by apply sublist_app.
Qed.

(* ------------------------------------------------------------------ *)
(** ** Properties *)

(** C11: The management service exits with success only after an interrupt was
    received and everything was stopped in order: the interrupt, the end of
    the wait, the shutdown of the HTTP server, its success, the stop of the
    gRPC server.  No interleaving of the goroutines, no failing of a server and
    no further signal leads to exit code 0 in another way. *)
Theorem success_means_stopped l tr s :
  stop_run l tr mgmt_serving = Some s → St_exit s = Some (ExitCode 0) →
  [Interrupt; Receive; Shutdown; ShutdownReturns None; MainTests; GrpcStop; MainEnds] `sublist_of` tr.
Proof. intros [(_ & Hx & _) Hp]%run_past He. unfold past in Hp. rewrite (Hx He), He in Hp. done. Qed.

(** Once the command has received the interrupt it ends: until then one of
    the steps of the process itself can be made, and when no more interrupts
    come, at most ten are made. *)
Theorem stopping_ends l tr s :
  stop_run l tr mgmt_serving = Some s → Receive ∈ tr →
  (St_exit s = None → ∃ a, environment a = false ∧ is_Some (stop_step l a s)) ∧
  (∀ tr' s', stop_run l tr' s = Some s' → Interrupt ∉ tr' → length tr' ≤ 10).
Proof.
  intros Hrun HR.
  assert (St_exit s = None → rank (St_main s) ≤ 4) as Hm.
  { revert HR. revert tr s Hrun. apply (run_invariant l (λ tr s, Receive ∈ tr → St_exit s = None → rank (St_main s) ≤ 4)); [by intros ?%elem_of_nil|].
    intros tr a s s' IH Hs [HR|HR%list_elem_of_singleton]%elem_of_app.
    - specialize (IH HR). step_cases; specialize (IH eq_refl); simpl in *; lia.
    - subst a. step_cases; lia. }
  split.
  - intros He. specialize (Hm He). destruct s as [e m h g hd c hdown gdown ex]. simpl in *. subst ex.
    destruct m; simpl in *; try lia; [exists Shutdown|exists (ShutdownReturns None)|exists MainTests|exists GrpcStop|exists MainEnds];
      unfold stop_step, HttpServer_Stop_returns; simpl; rewrite ?orb_true_r; eauto.
  - intros tr' s' Hr Hn. pose proof (run_left l tr' s s' Hn Hr) as Hl. unfold left_ in Hl at 2.
    destruct (St_exit s); [lia|]. specialize (Hm eq_refl).
    assert (serve_rank (St_http s) ≤ 2) by (destruct (St_http s); simpl; lia).
    assert (serve_rank (St_grpc s) ≤ 2) by (destruct (St_grpc s); simpl; lia).
    destruct (St_c s); lia.
Qed.

(** Behind a certificate, when neither a server fails nor SIGTERM comes,
    the service never ends with a failure. *)
Theorem tls_stops_cleanly l tr s :
  is_plain l = false → stop_run l tr mgmt_serving = Some s → Forall (λ a, failure a = false) tr →
  St_exit s ≠ Some (ExitCode 1).
Proof.
  intros Hl Hrun Hf.
  assert (St_err s = None ∧ St_exit s ≠ Some (ExitCode 1)) as [_ Hx]; [|done].
  revert tr s Hrun Hf.
  apply (run_invariant l (λ tr s, Forall (λ a, failure a = false) tr → St_err s = None ∧ St_exit s ≠ Some (ExitCode 1))); [done|].
  intros tr a s s' IH Hs Hf. rewrite Forall_app, Forall_singleton in Hf. destruct Hf as [Hf Ha], (IH Hf) as [He Hx]. clear IH.
  step_cases; rewrite ?Hl in *; simplify_eq/=; try done; repeat case_bool_decide; simplify_eq/=; done.
Qed.

(** Without one, [ListenAndServe] returns as soon as [Shutdown] is called, and
    the goroutine of the HTTP server ends the process with a failure before
    the gRPC server is stopped. *)
Theorem plain_stop_fails addr : ∃ s,
  stop_run (ListenPlain addr) [Setup; Interrupt; Take; Receive; Shutdown; HttpReturns ErrServerClosed; HttpTests] mgmt_serving = Some s ∧
  St_exit s = Some (ExitCode 1) ∧ St_grpcDown s = false.
Proof. by eexists. Qed.

(** The same, but for the order in which the goroutines assign to [err] and
    test it: the shutdown that succeeds hides the error of the other, or is
    taken for a failure. *)
Example err_is_shared addr :
  St_exit <$> stop_run (ListenPlain addr) [Setup; Interrupt; Take; Receive; Shutdown; HttpReturns ErrServerClosed;
    ShutdownReturns None; HttpTests; MainTests; GrpcStop; MainEnds] mgmt_serving = Some (Some (ExitCode 0)) ∧
  St_exit <$> stop_run (ListenPlain addr) [Setup; Interrupt; Take; Receive; Shutdown; ShutdownReturns None;
    HttpReturns ErrServerClosed; MainTests] mgmt_serving = Some (Some (ExitCode 1)).
Proof. done. Qed.

(** The signal server sets up its handler after it has served, which ends
    with a failure only: its clean stop is never reached. *)
Theorem signal_never_stops s :
  Signal.sig_reachable s → Signal.St_handler s = false ∧ Signal.St_exit s ≠ Some (ExitCode 0) ∧
  (Signal.St_exit s = None → Signal.St_at s = Signal.InServe).
Proof.
  intros Hr. assert (Signal.St_handler s = false ∧ Signal.St_stopped s = false ∧ Signal.St_exit s ≠ Some (ExitCode 0) ∧
    (Signal.St_exit s = None → Signal.St_at s = Signal.InServe)) as (? & ? & ? & ?); [|done].
  induction Hr as [|s a s' _ (Hh & Hs & Hx & Ha) Hstep]; [done|]. destruct s as [at_ st h p ex]. simpl in *. subst.
  unfold Signal.sig_stop_step in Hstep. simpl in Hstep. destruct ex; [done|]. rewrite (Ha eq_refl) in Hstep.
  destruct a as [| |[]| | |]; by simplify_eq/=.
Qed.

(** The goroutine of the client's handler only ends by cancelling the context,
    and as soon as a signal came its next step does. *)
Theorem client_close_handler d tr s :
  Client.close_run tr (Client.client_SetupCloseHandler d) = Some s →
  (Client.St_waits s = false → Client.St_done s = true) ∧
  (Client.St_waits s = true → Client.Notify ∈ tr → ∃ s', Client.close_step Client.Select s = Some s' ∧ Client.St_done s' = true).
Proof.
  set (P (tr : list Client.close_label) (s : Client.CloseState) := (Client.St_waits s = false → Client.St_done s = true) ∧
    (Client.St_waits s = true → Client.Notify ∈ tr → Client.St_done s = true ∨ Client.St_termCh s = true)).
  intros Hrun. assert (P tr s) as [Hd Hw].
  { assert (∀ tr0 s0, P tr0 s0 → Client.close_run tr s0 = Some s → P (tr0 ++ tr) s) as Hgen; [|apply (Hgen [] (Client.client_SetupCloseHandler d)); [|done]; by split; [|intros _ ?%elem_of_nil]].
    clear Hrun. induction tr as [|a tr IH]; intros tr0 s0 [Hd Hw] Hrun; [injection Hrun as <-; by rewrite app_nil_r|].
    simpl in Hrun. destruct (Client.close_step a s0) as [s1|] eqn:Hs; [|done]. rewrite cons_middle, app_assoc. apply (IH _ s1); [|done].
    destruct s0 as [d0 t w], a; simpl in *; repeat case_match; simplify_eq/=; split; simpl; try done;
      try (intros; by auto); try (intros ->  [?|?%list_elem_of_singleton]%elem_of_app; [by auto|done]). }
  split; [done|]. intros Hwait Hn. destruct (Hw Hwait Hn) as [E|E]; destruct s as [d1 t w]; simpl in *; subst; [by eexists|].
  destruct d1; by eexists.
Qed.

(* ------------------------------------------------------------------ *)
(** ** Examples *)

Definition demo_stop : list stop_label :=
  [Setup; Interrupt; Take; Receive; Shutdown; Interrupt; ShutdownReturns None; MainTests; Take; GrpcStop; GrpcReturns None; MainEnds].
Definition demo_tls : Listener := ListenTLS ":443" (mkTLSConfig "cert" "key").
Abbreviation demo_stopped := (default mgmt_serving (stop_run demo_tls demo_stop mgmt_serving)).

Lemma success_means_stopped_witness :
  St_exit demo_stopped = Some (ExitCode 0) ∧
  [Interrupt; Receive; Shutdown; ShutdownReturns None; MainTests; GrpcStop; MainEnds] `sublist_of` demo_stop.
Proof.
  split; [vm_compute; reflexivity|]. apply (success_means_stopped demo_tls demo_stop demo_stopped); vm_compute; reflexivity.
Defined.

Lemma stopping_ends_witness :
  ∃ s, stop_run demo_tls [Setup; Interrupt; Take; Receive] mgmt_serving = Some s ∧ St_exit s = None ∧
    ∃ a, environment a = false ∧ is_Some (stop_step demo_tls a s).
Proof.
  eexists. split; [vm_compute; reflexivity|]. split; [reflexivity|].
  apply (stopping_ends demo_tls [Setup; Interrupt; Take; Receive]); [vm_compute; reflexivity| |reflexivity].
  do 3 apply list_elem_of_further. apply list_elem_of_here.
Defined.

Lemma tls_stops_cleanly_witness : St_exit demo_stopped ≠ Some (ExitCode 1).
Proof.
  apply (tls_stops_cleanly demo_tls demo_stop demo_stopped); [reflexivity|vm_compute; reflexivity|].
  repeat constructor.
Defined.
